(* ===== verification/_CoqProject ===== *)
-Q . S2P
Prelude.v
Cluster.v
Revision.v
Experiment.v
RevisionFacts.v
Testbed.v
ExperimentProofs.v
ExperimentTheorems.v
RollbackTheorems.v
RevisionTheorems.v
Untaint.v
UntaintTheorems.v
Status.v
StatusTheorems.v
Profiles.v
ProfileTheorems.v
Witnesses.v
Rbac.v
RbacTheorems.v
Objects.v
Store.v
StoreTheorems.v
ApplyTheorems.v
PodMerger.v
PodMergerTheorems.v
ResourceManagers.v
ManagerTheorems.v
StoreWitnesses.v
FleetData.v
GoRun.v
Fleet.v
FleetFacts.v
FleetRuns.v
FleetTheorems.v
FleetLifecycle.v
FleetWitnesses.v
Remote.v
GenericResource.v
Handlers.v
HandlerLaws.v
RemoteFacts.v
GenericTheorems.v
SLOController.v
DashboardController.v
MonitorController.v
MonitorTheorems.v
RemoteWitnesses.v
Affinity.v
AffinityTheorems.v
AgentSpec.v
Defaults.v
DefaultsTheorems.v
Images.v
ImagesTheorems.v
Identity.v
Override.v
OverrideTheorems.v
Install.v
InstallIntent.v
InstallFacts.v
InstallHistory.v
InstallTheorems.v
IntentTheorems.v
InstallWitnesses.v
Workloads.v
Migration.v
MigrationTheorems.v
MigrationRounds.v
InternalWorkloads.v
Features.v
InternalComponents.v
InternalAgent.v
InternalFacts.v
InternalTheorems.v
InternalSafety.v
InternalWitnesses.v
AgentInternals.v
AgentController.v
AgentControllerTheorems.v
