(* ===== verification/Prelude.v ===== *)
(** * Verification of the Datadog Operator.

    The operator reconciles custom resources of a Kubernetes cluster.  A
    DatadogAgent is turned into DatadogAgentInternals (one by default, one per
    DatadogAgentProfile), which own the agents' DaemonSets, Deployments and
    dependencies.  Every controller is a function of what the API server returns
    that may fail at any call and is run again later; what must hold is therefore
    stated for every client that is sound, whatever calls fail.

    ** Conventions

    Go functions keep their names.  Code with effects is in the state and error
    monad [GoM] of this file: a state is threaded, an error is a value, a nil
    dereference is [Panic].  Go maps are [gmap]s, the order in which they are
    ranged over being that of [map_to_list] where the result does not depend on it
    (and then this is proved: [bucket_order], [normalize_order_independent],
    [sort_by_ext]), and a parameter where it matters.  [int64] and [int32] arithmetic that can overflow is wrapped
    ([wrap64], [wrap32]); times and durations are nanoseconds, [Time_Sub]
    saturating as in Go.  The Kubernetes API is a class of operations
    ([ClusterClient], [NodeClient], [ObjectClient], ...) with a class of its
    documented laws ([SoundClient], [SoundObjectClient], ...), and each has an
    instance in memory that shows the laws can be met and on which the witnesses
    run.  All definitions evaluate; recursion is structural and needs no fuel.

    ** Parts

    - Experiments and rollbacks ([internal/controller/datadogagent/experiment.go],
      [experiment_events.go]): [Cluster] has the API objects, [Experiment] the
      signals, the timeout, the abort on a manual change, and the rollback that
      restores a snapshot.  [ExperimentProofs] and [ExperimentTheorems] show that
      [manageExperiment] refines the state machine [exp_step], its invariant, the
      identity of an experiment, when it times out and when not, the abort, and
      the events; [RollbackTheorems] what a rollback restores, that it is
      idempotent, that clearing annotations is conditional on their values, and
      that annotation keys survive their JSON Patch path.
    - Revisions ([revision.go], [pkg/controllerrevisions]): [Revision] has the
      snapshots, their naming, creation, reuse, recreation and garbage collection;
      [RevisionFacts] and [RevisionTheorems] that garbage collection deletes the
      superseded revisions and nothing else, that a new spec can be undone to the
      most recent revision and a reverted one is the latest again.
    - Untaint controller ([internal/controller/untaint_controller.go],
      [pkg/untaint]): [Untaint] has the reconciler, its timeouts and policies, its
      configuration and watches; [UntaintTheorems] that a taint is removed only
      when due, is removed when due, and is retried when a timeout expires.
    - Conditions, status and cluster provider ([pkg/condition],
      [reconcile_common.go], [reconcile_helpers.go], [reconcile.go]): [Status];
      [StatusTheorems] that an update touches one condition, that conditions are
      compared as sets, what combining agent statuses yields, when the status is
      written, and that a detected provider is kept.
    - Profiles ([pkg/agentprofile], [profile.go], [reconcile_agent.go]):
      [Profiles]; [ProfileTheorems] that the oldest profile wins a node, that the
      create strategy labels as many nodes as fit, and that node labels converge.
    - Roles ([pkg/kubernetes/rbac/normalize.go]): [Rbac]; [RbacTheorems] that
      normalization grants exactly what the rules granted, but for a rule for the
      empty name alone, is idempotent and does not depend on the order of the rules.
    - Dependencies ([pkg/equality], [pkg/kubernetes], [object/], [store/]):
      [Objects] has the kinds, the labels and owner references, the comparison and
      the preprocessing by kind, [Store] the store that is applied and cleaned up;
      [StoreTheorems] and [ApplyTheorems] that a cleanup deletes orphans only, and
      all of them without an error, that an apply converges and is then
      quiescent, that controllers do not delete each other's objects, and that the
      part-of label is decoded as it was encoded.
    - Managers ([merger/]): [PodMerger] has what features add to pod templates,
      [ResourceManagers] what they add to the store; [PodMergerTheorems] and
      [ManagerTheorems] that a variable reaches exactly the agent containers, that
      volume items and service ports are merged without loss or conflict, and that
      contributed rules are granted to the service account.
    - Fleet daemon ([pkg/fleet]): [FleetData] has the messages, the error text
      bounded in runes, the installer state and the merge patches, [Fleet] the
      daemon: pending operations, plans, the tasks, the worker that waits for an
      experiment, local termination, rehydration after a restart and the remote
      configuration callbacks.  [FleetFacts] and [FleetRuns] are its weakest
      preconditions; [FleetTheorems] shows that an accepted task is tracked, a
      refused one reported with its error and a pending one not lost, that a
      finished task is reported, that the worker clears its own task only and that
      a local termination is published;
      [FleetLifecycle] composes the daemon with [manageExperiment]: a start and a
      stop task complete.
    - Resources of the Datadog API ([internal/controller/finalizer],
      [datadoggenericresource/], [datadogslo/], [datadogdashboard/],
      [datadogmonitor/], [pkg/controller/utils/condition], the validation in
      [api/datadoghq/v1alpha1]): [Remote] has what the four controllers share, the
      finalizer, the conditions, the events, the tags, and the classes of their
      clients; [GenericResource] the generic controller over the interface of
      [resource_handler.go], [Handlers] its eight handlers, [SLOController],
      [DashboardController] and [MonitorController] the others.  [HandlerLaws] is
      the contract of a handler, which the eight meet; [RemoteFacts] the rules of
      the finalizer.  [GenericTheorems] shows, against the contract, that a
      resource is not orphaned, not created twice, that its ID is recorded and its
      status truthful, that an unchanged one is left alone, and that a status
      write survives conflicts; [MonitorTheorems] has the conditions and
      triggered groups of a monitor, that both requests of a valid SLO say what its
      spec does, and what the other controllers get wrong.
    - Managed Agent installations ([pkg/fleet/managed_agent_installation*.go]):
      [Identity] says where an installation runs, [Install] installs and removes
      the DatadogAgent of the fleet daemon and its Windows profile, [InstallIntent]
      decodes the intents and runs the worker and its task.  Other writers act
      between any two calls.  [InstallFacts] and [InstallHistory] are the rules for
      such runs and the histories of intents; [InstallTheorems] shows that a turn
      of the worker writes its own objects only, that an installation that succeeds
      saw itself complete and a removal that succeeds saw nothing left,
      [IntentTheorems] that accepted histories move forward, that progress is
      read back as written and that the target ID identifies.
    - The spec of a DatadogAgent ([datadogagent_types.go], [defaults/],
      [override/], [common/affinity.go], [pkg/images]): [AgentSpec] has the
      structs, [Defaults] every default, [Images] the names of images, [Affinity]
      the merge of affinities over a store of slices, [Override] the overrides of
      pod templates, containers and workloads.  [DefaultsTheorems] shows that
      defaults only fill in, and once, and exactly when defaulting panics;
      [ImagesTheorems] that an image is read back, [AffinityTheorems] that a merged
      selector selects the nodes both select, and when not, [OverrideTheorems] that
      overrides do not depend on the order of a map unless containers are renamed.
    - The DatadogAgentInternal controller ([datadogagentinternal/], [feature/],
      [providercaps/], [common/apparmor.go]): [Workloads] is the API server with
      workloads and pods, in which any call may fail before or after it took
      effect, and a deletion ends what depends on the deleted object unless it
      orphans it; [Migration] the takeover between DaemonSet and ExtendedDaemonSet
      ([reconcile_agent_migration.go]), [InternalWorkloads] what creates, updates
      and restarts a workload ([reconcile_common.go], [utils.go],
      [configmap_checksum.go]), [Features] the framework of features,
      [InternalComponents] the components with a Deployment
      ([component_*.go], [reconcile_helpers.go]), [InternalAgent] the node agent
      and the whole reconcile ([reconcile_agent.go], [reconcile.go],
      [windows.go]).  [MigrationTheorems] shows that a migration step deletes no
      pod that can be kept, [MigrationRounds] adds the garbage collector and bounds
      the rounds, [InternalFacts] has the rules of the calls, and
      [InternalTheorems] composes them: the node agent converges to the desired
      DaemonSet in six rounds and to the desired ExtendedDaemonSet in five.
      [InternalSafety] follows the whole reconcile under any failures: one of a
      profile leaves Deployments alone, a rejected feature blocks it; and that
      required components add up, whatever the order, and what the removals of a
      provider leave.
    - The DatadogAgent controller ([datadogagent/reconcile.go], [ddai.go],
      [profile.go], [merge.go], [finalizer.go], [global/utils.go],
      [override/ddai_utils.go], [experimental/autopilot.go],
      [datadogagent_validation.go]): [AgentInternals] makes the
      DatadogAgentInternals of a DatadogAgent and of its profiles, over the store
      of slices of [Affinity], [AgentController] is the reconcile that validates,
      runs experiments, revisions and profiles, creates, updates and deletes them,
      and writes the status.  [AgentControllerTheorems] shows that the agents of two
      of them are never on one node, that one is replaced before it is deleted
      whatever calls fail, that they converge, what a profile is turned into, and
      that the API and application keys are references to secrets.
    - [GoRun] has what retries and polls promise ([Repeating]), the rules for runs
      of [GoM], and integers in strings with their round trip.
    - [Testbed] and the files named [...Witnesses] have the concrete instances and
      the theorems applied to them.

    ** Assumptions

    Parameters stand for code that is not in the repository: the JSON codec of a
    snapshot (with its round trip, [SnapshotCodecLaws]), the safe encoding of a
    hash, the scheme, label selectors (those with labels alone are
    [matchesLabels]), globs, [ParseGroupVersion], JSON decoding, the [%q] verb, MD5
    of a spec, SHA-256 (without collisions where that is said), the syntax of
    UUIDs, [DeepDerivative], the comparison of versions, the validity of YAML, the
    Datadog API with its credentials, the key of the ExtendedDaemonSet label, and
    the helpers of [meta] and [controllerutil], the retries of client-go and the
    polls of apimachinery (run again as often as they say, [Repeating]), and
    server-side apply (with what it promises, and the errors that name what an older
    schema does not have, [FieldManager]).  So are the order in which a map is
    ranged over and the spare capacity of a slice where they matter, the clock, and
    the oracle that says which calls fail.  A call that fails changes nothing on
    the server but where the oracle says so; semantic equality of API objects is
    equality.  The types of the Kubernetes API the operator only copies are type
    parameters or JSON.  One reconcile runs at a time; other writers are those a
    client may let fail, and those of the managed installations.  Convergence
    speaks of rounds in which no call fails and nobody else writes, the garbage
    collector running between them.

    ** Not modelled

    The bodies of the features and the builders of default workloads, which only
    fill in pod templates from constants, and the global settings, which the
    reconcile of a DatadogAgentInternal takes as parameters; the dependencies of a
    DatadogAgent, which its reconcile takes as one; the component reconcilers of the
    DatadogAgent controller, which repeat those of the DatadogAgentInternal
    controller; the overrides that experimental annotations make; the CSI driver
    controller, remote configuration, credentials and secret backends, the metrics and metadata forwarders, the
    command line tools, and generated code.  Logging, metrics counters and
    Kubernetes events are left out where no decision depends on them. *)

From Stdlib Require Import ZArith Lia.
From stdpp Require Import base gmap strings list sorting pretty.

(** ** Errors

    Go errors as values.  [ApiError] is an error returned by the Kubernetes
    client with its status reason, [Errorf] a plain [fmt.Errorf] or
    [errors.New], [Wrapf] a [fmt.Errorf] with the [%w] verb, [Typed]
    an error of a type [errors.As] looks for, [OpenAPIError] the
    [GenericOpenAPIError] of Datadog's API client with its response body, and
    [WrapBodyf] a [fmt.Errorf(msg + ": %w: %s", err, body)]. *)

Inductive StatusReason :=
  | ReasonNotFound | ReasonAlreadyExists | ReasonConflict | ReasonInvalid
  | ReasonGone | ReasonForbidden | ReasonMethodNotSupported | ReasonUnknown.

#[export] Instance StatusReason_eq_dec : EqDecision StatusReason.
Proof. solve_decision. Defined.

Inductive error :=
  | ApiError (reason : StatusReason)
  | Errorf (msg : string)
  | Typed (type : string) (msg : string)
  | OpenAPIError (msg body : string)
  | Wrapf (msg : string) (cause : error)
  | WrapBodyf (msg : string) (cause : error) (body : string)
  | Surroundf (before : string) (cause : error) (after : string)
  | Join2f (first : error) (between : string) (second : error).

#[export] Instance error_eq_dec : EqDecision error.
Proof. solve_decision. Defined.

(** The status [errors.As] finds by unwrapping the tree, first to last. *)
Fixpoint apiStatus (e : error) : option StatusReason :=
  match e with
  | ApiError r => Some r
  | Errorf _ | Typed _ _ | OpenAPIError _ _ => None
  | Wrapf _ e | WrapBodyf _ e _ | Surroundf _ e _ => apiStatus e
  | Join2f e _ e' => match apiStatus e with Some r => Some r | None => apiStatus e' end
  end.

Definition ReasonForError (e : error) : StatusReason := default ReasonUnknown (apiStatus e).

(** [err.Error()]; the text of an API error is that of its reason. *)
Definition reasonText (r : StatusReason) : string :=
  match r with
  | ReasonNotFound => "NotFound" | ReasonAlreadyExists => "AlreadyExists" | ReasonConflict => "Conflict"
  | ReasonInvalid => "Invalid" | ReasonGone => "Gone" | ReasonForbidden => "Forbidden"
  | ReasonMethodNotSupported => "MethodNotAllowed" | ReasonUnknown => ""
  end.

Fixpoint error_Error (e : error) : string :=
  match e with
  | ApiError r => reasonText r
  | Errorf msg | Typed _ msg | OpenAPIError msg _ => msg
  | Wrapf msg e => msg +:+ ": " +:+ error_Error e
  | WrapBodyf msg e body => msg +:+ ": " +:+ error_Error e +:+ ": " +:+ body
  | Surroundf before e after => before +:+ error_Error e +:+ after
  | Join2f e between e' => error_Error e +:+ between +:+ error_Error e'
  end.

(** [errors.As(err, &target)] for a target of the named type. *)
Fixpoint errors_As (type : string) (e : error) : bool :=
  match e with
  | Typed t _ => bool_decide (t = type)
  | Wrapf _ e | WrapBodyf _ e _ | Surroundf _ e _ => errors_As type e
  | Join2f e _ e' => errors_As type e || errors_As type e'
  | ApiError _ | Errorf _ | OpenAPIError _ _ => false
  end.

(** [errors.As(err, &apiErr)] for the API client's error: its body. *)
Fixpoint errors_AsOpenAPI (e : error) : option string :=
  match e with
  | OpenAPIError _ body => Some body
  | Wrapf _ e | WrapBodyf _ e _ | Surroundf _ e _ => errors_AsOpenAPI e
  | Join2f e _ e' => match errors_AsOpenAPI e with Some body => Some body | None => errors_AsOpenAPI e' end
  | ApiError _ | Errorf _ | Typed _ _ => None
  end.

(** [errors.Join] of two errors: their texts on a line each. *)
Definition errors_Join (e e' : error) : error := Join2f e (String (Ascii.ascii_of_nat 10) "") e'.

Definition IsNotFound (e : error) : bool := bool_decide (ReasonForError e = ReasonNotFound).
Definition IsAlreadyExists (e : error) : bool := bool_decide (ReasonForError e = ReasonAlreadyExists).
Definition IsConflict (e : error) : bool := bool_decide (ReasonForError e = ReasonConflict).
Definition IsInvalid (e : error) : bool := bool_decide (ReasonForError e = ReasonInvalid).
Definition IsGone (e : error) : bool := bool_decide (ReasonForError e = ReasonGone).
Definition IsForbidden (e : error) : bool := bool_decide (ReasonForError e = ReasonForbidden).
Definition IsMethodNotSupported (e : error) : bool := bool_decide (ReasonForError e = ReasonMethodNotSupported).

(** ** The outcome of a Go call, and stateful calls

    A call returns a value, returns a non-nil error, or panics (a nil pointer
    dereference).  [GoM S] threads the state the call mutates. *)

Inductive outcome (A : Type) :=
  | Ret (a : A)
  | Fail (e : error)
  | Panic.
Arguments Ret {_} _.
Arguments Fail {_} _.
Arguments Panic {_}.

Definition GoM (S A : Type) : Type := S → S * outcome A.

#[export] Instance GoM_ret {S} : MRet (GoM S) := λ A a s, (s, Ret a).
#[export] Instance GoM_bind {S} : MBind (GoM S) := λ A B f m s,
  match m s with
  | (s', Ret a) => f a s'
  | (s', Fail e) => (s', Fail e)
  | (s', Panic) => (s', Panic)
  end.

Definition fail {S A} (e : error) : GoM S A := λ s, (s, Fail e).
Definition panic {S A} : GoM S A := λ s, (s, Panic).
Definition gets {S A} (f : S → A) : GoM S A := λ s, (s, Ret (f s)).
Definition modify {S} (f : S → S) : GoM S unit := λ s, (f s, Ret tt).
Definition when {S} (b : bool) (m : GoM S unit) : GoM S unit :=
  if b then m else mret tt.

(** [x, err := m]: the error becomes a value the caller inspects. *)
Definition attempt {S A} (m : GoM S A) : GoM S (A + error) := λ s,
  match m s with
  | (s', Ret a) => (s', Ret (inl a))
  | (s', Fail e) => (s', Ret (inr e))
  | (s', Panic) => (s', Panic)
  end.

(** [if err := m; err != nil { return fmt.Errorf(msg + ": %w", err) }] *)
Definition wrap {S A} (msg : string) (m : GoM S A) : GoM S A := λ s,
  match m s with
  | (s', Ret a) => (s', Ret a)
  | (s', Fail e) => (s', Fail (Wrapf msg e))
  | (s', Panic) => (s', Panic)
  end.

(** The loop [for _, x := range l { if err := f(x); err != nil { return err } }]. *)
Fixpoint for_each {S A} (f : A → GoM S unit) (l : list A) : GoM S unit :=
  match l with
  | [] => mret tt
  | x :: l => _ ← f x; for_each f l
  end.

Lemma GoM_bind_Ret {S A B} (f : A → GoM S B) (m : GoM S A) s s' a :
  m s = (s', Ret a) → (m ≫= f) s = f a s'.
Proof. unfold mbind, GoM_bind. by intros ->. Qed.

Lemma GoM_bind_Ret_inv {S A B} (f : A → GoM S B) (m : GoM S A) s s'' b :
  (m ≫= f) s = (s'', Ret b) →
  ∃ s' a, m s = (s', Ret a) ∧ f a s' = (s'', Ret b).
Proof.
  unfold mbind, GoM_bind. destruct (m s) as [s' [a|e|]]; intros; simplify_eq; eauto.
Qed.

(** An invariant every iteration preserves is preserved by the loop, whatever
    iteration fails. *)
Lemma for_each_inv {S A} (f : A → GoM S unit) (P : S → Prop) l s :
  P s →
  (∀ x s, x ∈ l → P s → P (f x s).1) →
  P (for_each f l s).1.
Proof.
  revert s; induction l as [|x l IH]; intros s Hs Hf; simpl; [done|].
  pose proof (Hf x s ltac:(left) Hs) as Hx.
  unfold mbind, GoM_bind. destruct (f x s) as [s' [[]|e|]]; simpl in *; [|done..].
  apply IH; [done|]. intros y s0 Hy. apply Hf. by right.
Qed.

(** ** Machine integers and time *)

Definition wrap32 (z : Z) : Z := ((z + 2^31) mod 2^32) - 2^31.
Definition int32_range (z : Z) : Prop := (- 2^31 ≤ z < 2^31)%Z.
Definition int64_max : Z := 2^63 - 1.
Definition int64_min : Z := - 2^63.
Definition int64_range (z : Z) : Prop := (int64_min ≤ z ≤ int64_max)%Z.

Lemma wrap32_id z : int32_range z → wrap32 z = z.
Proof. unfold wrap32, int32_range. intros. rewrite Z.mod_small; lia. Qed.

Lemma wrap32_range z : int32_range (wrap32 z).
Proof.
  unfold wrap32, int32_range.
  pose proof (Z.mod_pos_bound (z + 2^31) (2^32) ltac:(lia)). lia.
Qed.

(** Two's complement 64-bit arithmetic, that of a [time.Duration]. *)
Definition wrap64 (z : Z) : Z := ((z + 2^63) mod 2^64) - 2^63.

Lemma wrap64_id z : int64_range z → wrap64 z = z.
Proof. unfold wrap64, int64_range, int64_min, int64_max. intros. rewrite Z.mod_small; lia. Qed.

(** A [time.Time] is the number of nanoseconds since the zero [time.Time];
    a [time.Duration] a signed 64-bit number of nanoseconds. *)
Abbreviation Time := Z (only parsing).
Abbreviation Duration := Z (only parsing).
Definition Second : Duration := 1000000000%Z.
Definition Minute : Duration := (60 * Second)%Z.

Definition Time_IsZero (t : Time) : bool := bool_decide (t = 0%Z).
Definition Time_After (t u : Time) : bool := bool_decide (u < t)%Z.

(** [t.Sub(u)] saturates at the bounds of a [time.Duration]. *)
Definition Time_Sub (t u : Time) : Duration :=
  (Z.max int64_min (Z.min int64_max (t - u)))%Z.

Lemma Time_Sub_range t u : int64_range (Time_Sub t u).
Proof. unfold Time_Sub, int64_range, int64_min, int64_max. lia. Qed.

(** Comparing a saturated difference with a representable bound is comparing
    the exact difference. *)
Lemma Time_Sub_ge t u d : (int64_min < d ≤ int64_max)%Z → (d ≤ Time_Sub t u ↔ d ≤ t - u)%Z.
Proof. unfold Time_Sub, int64_range, int64_min, int64_max. lia. Qed.

(** ** Strings *)

Definition HasPrefix (s p : string) : bool := String.prefix p s.

Fixpoint Contains (s sub : string) : bool :=
  String.prefix sub s ||
  match s with
  | EmptyString => false
  | String _ s => Contains s sub
  end.

(** [strings.ReplaceAll(s, c, by)] for a one-character [c]. *)
Fixpoint ReplaceAllChar (c : Ascii.ascii) (by_ : string) (s : string) : string :=
  match s with
  | EmptyString => EmptyString
  | String a s =>
      if decide (a = c) then by_ +:+ ReplaceAllChar c by_ s
      else String a (ReplaceAllChar c by_ s)
  end.

(** [strings.Split(s, c)] for a one-character separator [c]. *)
Fixpoint SplitChar (c : Ascii.ascii) (s : string) : list string :=
  match s with
  | EmptyString => [EmptyString]
  | String a s =>
      if decide (a = c) then EmptyString :: SplitChar c s
      else match SplitChar c s with
           | [] => [String a EmptyString]
           | w :: ws => String a w :: ws
           end
  end.

Fixpoint ContainsChar (c : Ascii.ascii) (s : string) : bool :=
  match s with
  | EmptyString => false
  | String a s => bool_decide (a = c) || ContainsChar c s
  end.

Lemma string_app_nil_r (s : string) : s +:+ "" = s.
Proof. induction s as [|a s IH]; simpl; [done|]. unfold String.app in *. simpl. by rewrite IH. Qed.

Lemma string_app_assoc (s t u : string) : (s +:+ t) +:+ u = s +:+ (t +:+ u).
Proof. induction s as [|a s IH]; [done|]. unfold String.app in *. simpl. by rewrite IH. Qed.

Lemma string_app_cons a (s t : string) : String a s +:+ t = String a (s +:+ t).
Proof. done. Qed.

Lemma string_app_nil_l (s : string) : "" +:+ s = s.
Proof. done. Qed.

Lemma SplitChar_no_sep c s : ContainsChar c s = false → SplitChar c s = [s].
Proof.
  induction s as [|a s IH]; simpl; [done|].
  intros [Ha Hs]%orb_false_iff. apply bool_decide_eq_false in Ha.
  rewrite decide_False by done. by rewrite IH.
Qed.

Lemma SplitChar_app_sep c s t :
  ContainsChar c s = false →
  SplitChar c (s +:+ String c t) = s :: SplitChar c t.
Proof.
  induction s as [|a s IH]; intros Hs.
  - rewrite string_app_nil_l. simpl. by rewrite decide_True.
  - simpl in Hs. apply orb_false_iff in Hs as [Ha Hs]. apply bool_decide_eq_false in Ha.
    rewrite string_app_cons. simpl. rewrite decide_False by done. by rewrite IH.
Qed.

Lemma SplitChar_not_nil c s : SplitChar c s ≠ [].
Proof. destruct s as [|a s]; simpl; [done|]. case_decide; [done|]. by destruct (SplitChar c s). Qed.

Lemma SplitChar_parts c s : Forall (λ w, ContainsChar c w = false) (SplitChar c s).
Proof.
  induction s as [|a s IH]; simpl; [by repeat constructor|]. case_decide as Ha; [by constructor|].
  destruct IH as [|w ws Hw Hws]; constructor; simpl; rewrite ?bool_decide_false by done; auto.
Qed.

(** [strings.Join(l, c)] for a one-character separator. *)
Fixpoint JoinChar (c : Ascii.ascii) (l : list string) : string :=
  match l with
  | [] => EmptyString
  | [s] => s
  | s :: l => s +:+ String c (JoinChar c l)
  end.

Lemma SplitChar_JoinChar c l :
  l ≠ [] → Forall (λ s, ContainsChar c s = false) l → SplitChar c (JoinChar c l) = l.
Proof.
  intros Hl Hc. induction Hc as [|s l Hs Hc IH]; [done|]. destruct l as [|t l].
  - by apply SplitChar_no_sep.
  - change (JoinChar c (s :: t :: l)) with (s +:+ String c (JoinChar c (t :: l))).
    rewrite SplitChar_app_sep by done. by rewrite IH.
Qed.

Lemma JoinChar_SplitChar c s : JoinChar c (SplitChar c s) = s.
Proof.
  induction s as [|a s IH]; [done|]. cbn. pose proof (SplitChar_not_nil c s). case_decide; subst;
    destruct (SplitChar c s) as [|w [|v l]]; try done; cbn in *; by rewrite <- IH.
Qed.

(** ** Lists *)

(** [slices.ContainsFunc] *)
Definition ContainsFunc {A} (f : A → bool) (l : list A) : bool := existsb f l.

Lemma ContainsFunc_true {A} (f : A → bool) l :
  ContainsFunc f l = true ↔ ∃ x, x ∈ l ∧ f x = true.
Proof.
  unfold ContainsFunc. rewrite existsb_exists.
  split; intros (x & Hx & Hf); exists x; by rewrite list_elem_of_In in *.
Qed.

Lemma ContainsFunc_false {A} (f : A → bool) l :
  ContainsFunc f l = false ↔ ∀ x, x ∈ l → f x = false.
Proof.
  rewrite <-not_true_iff_false, ContainsFunc_true. split.
  - intros H x Hx. apply not_true_iff_false. intros Hf. apply H; eauto.
  - intros H (x & Hx & Hf). rewrite H in Hf; done.
Qed.

(** Keeping the entries a boolean test rejects ([if f(x) continue; append]). *)
Fixpoint reject {A} (f : A → bool) (l : list A) : list A :=
  match l with
  | [] => []
  | x :: l => if f x then reject f l else x :: reject f l
  end.

Lemma elem_of_reject {A} (f : A → bool) l x : x ∈ reject f l ↔ x ∈ l ∧ f x = false.
Proof.
  induction l as [|y l IH]; simpl; [set_solver|].
  destruct (f y) eqn:E; rewrite ?elem_of_cons, IH; [|naive_solver].
  split; [naive_solver|]. intros [[->|?] ?]; [congruence|done].
Qed.

Lemma length_reject {A} (f : A → bool) l :
  length (reject f l) = length l ↔ ContainsFunc f l = false.
Proof.
  assert (Hle : ∀ l', length (reject f l') ≤ length l').
  { intros l'. induction l' as [|y l' IH]; simpl; [lia|]. destruct (f y); simpl; lia. }
  induction l as [|x l IH]; simpl; [done|].
  specialize (Hle l). destruct (f x); simpl.
  - split; [lia|done].
  - rewrite <-IH. lia.
Qed.

(** ** Maps built by a loop

    [for k, x := range l { m[k] = op(m[k], x) }], a missing entry being [z]. *)
Section Accum.
Context `{Countable K} {X V : Type} (z : V) (op : V → X → V).

Definition accum (m : gmap K V) (p : K * X) : gmap K V := <[p.1 := op (default z (m !! p.1)) p.2]> m.
Definition accum_all (l : list (K * X)) : gmap K V := foldl accum ∅ l.

(** The values a key is given, in order. *)
Definition values_at (k : K) (l : list (K * X)) : list X :=
  omap (λ p : K * X, if decide (p.1 = k) then Some p.2 else None) l.

Lemma elem_of_values_at k l x : x ∈ values_at k l ↔ (k, x) ∈ l.
Proof.
  unfold values_at. rewrite list_elem_of_omap. split.
  - intros ([k' x'] & Hin & Heq). simpl in Heq. by case_decide; simplify_eq.
  - intros Hin. exists (k, x). split; [done|]. simpl. by rewrite decide_True.
Qed.

Lemma lookup_accum_all l k :
  accum_all l !! k = match values_at k l with [] => None | xs => Some (foldl op z xs) end.
Proof.
  unfold accum_all. induction l as [|[k' x] l IH] using rev_ind; [done|].
  rewrite foldl_snoc. unfold values_at. rewrite omap_app. fold (values_at k l). unfold accum at 1. simpl.
  destruct (decide (k' = k)) as [->|Hne].
  - rewrite lookup_insert_eq, IH. destruct (values_at k l) as [|y ys] eqn:Hv; [done|].
    simpl. by rewrite foldl_snoc.
  - rewrite lookup_insert_ne by done. by rewrite app_nil_r.
Qed.

Lemma lookup_accum_all_None l k : accum_all l !! k = None ↔ ∀ x, (k, x) ∉ l.
Proof.
  rewrite lookup_accum_all. setoid_rewrite <-elem_of_values_at.
  destruct (values_at k l) as [|x xs]; split; set_solver.
Qed.
End Accum.

(** [slices.SortStableFunc], by insertion: equal elements keep their order. *)
Section Sort.
Context {A : Type} (R : relation A) `{!RelDecision R}.

Fixpoint insert_by (x : A) (l : list A) : list A :=
  match l with
  | [] => [x]
  | y :: l => if decide (R x y) then x :: y :: l else y :: insert_by x l
  end.

Definition sort_by (l : list A) : list A := foldr insert_by [] l.

Lemma insert_by_Permutation x l : insert_by x l ≡ₚ x :: l.
Proof. induction l as [|y l IH]; simpl; [done|]. case_decide; [done|]. rewrite IH. apply Permutation_swap. Qed.

Lemma sort_by_Permutation l : sort_by l ≡ₚ l.
Proof. induction l as [|x l IH]; simpl; [done|]. by rewrite insert_by_Permutation, IH. Qed.

Lemma length_sort_by l : length (sort_by l) = length l.
Proof. apply Permutation_length, sort_by_Permutation. Qed.

Lemma insert_by_sorted `{!Total R, !Transitive R} x l : StronglySorted R l → StronglySorted R (insert_by x l).
Proof.
  induction 1 as [|y l Hl IH Hy]; simpl; [by repeat constructor|]. case_decide as Hxy.
  - constructor; [by constructor|]. constructor; [done|]. eapply Forall_impl; [exact Hy|]. intros z ?. by trans y.
  - constructor; [done|]. rewrite insert_by_Permutation. constructor; [|done]. by destruct (total R x y).
Qed.

Lemma sort_by_sorted `{!Total R, !Transitive R} l : StronglySorted R (sort_by l).
Proof. induction l as [|x l IH]; simpl; [constructor|]. by apply insert_by_sorted. Qed.

(** Sorting forgets the order when equivalent elements are equal. *)
Lemma sort_by_ext `{!Total R, !Transitive R} l1 l2 :
  l1 ≡ₚ l2 → (∀ x y, x ∈ l1 → y ∈ l1 → R x y → R y x → x = y) → sort_by l1 = sort_by l2.
Proof.
  intros Hp Hanti. apply (StronglySorted_unique_strong R); [|apply sort_by_sorted..|by rewrite !sort_by_Permutation].
  intros x y. rewrite !sort_by_Permutation, <-Hp. apply Hanti.
Qed.
End Sort.

Lemma fmap_sort_by {A B : Type} (f : A → B) (R : relation A) (R' : relation B) `{!RelDecision R, !RelDecision R'} l :
  (∀ x y, R x y ↔ R' (f x) (f y)) → f <$> sort_by R l = sort_by R' (f <$> l).
Proof.
  intros HR. assert (Hins : ∀ x l, f <$> insert_by R x l = insert_by R' (f x) (f <$> l)).
  { intros x l'. induction l' as [|y l' IH]; [done|]. rewrite fmap_cons. cbn [insert_by].
    destruct (decide (R x y)) as [Hr|Hr]; rewrite HR in Hr.
    - by rewrite decide_True.
    - rewrite decide_False by done. by rewrite fmap_cons, IH. }
  unfold sort_by. induction l as [|x l IH]; [done|]. rewrite fmap_cons. cbn [foldr]. by rewrite Hins, IH.
Qed.

Lemma wrap32_add_l a b : wrap32 (wrap32 a + b) = wrap32 (a + b).
Proof.
  unfold wrap32. replace ((a + 2 ^ 31) mod 2 ^ 32 - 2 ^ 31 + b + 2 ^ 31)%Z with ((a + 2 ^ 31) mod 2 ^ 32 + b)%Z by lia.
  rewrite Zplus_mod_idemp_l. f_equal. f_equal. lia.
Qed.

(** ** Automation *)

Create HintDb go discriminated.
#[export] Hint Resolve wrap32_range Time_Sub_range SplitChar_parts : go.

(** Unfold the monad and evaluate. *)
Ltac run_bind := unfold mbind, GoM_bind, mret, GoM_ret, gets, modify, fail, panic, when in *; simpl in *.
