(* ===== verification/Cluster.v ===== *)
(** * The objects the DatadogAgent reconciler keeps in the API server, and the
    client interface it reaches them through.

    The data types are those of [api/datadoghq/v2alpha1] and of the
    [ControllerRevision] the operator stores snapshots in.  The API server and
    the controller-runtime client are not part of the repository: they are the
    class [ClusterClient], and what the reconciler relies on is the class
    [SoundClient], stated against the reference state [Cluster].  A call of a
    sound client either takes effect as documented or fails and leaves the
    objects alone; it may fail at any call.  [mem_client] is a sound client. *)

From Stdlib Require Import Ascii.
From stdpp Require Import base gmap strings list.
From S2P Require Import Prelude.

(** ** DatadogAgent status *)

Inductive ExperimentPhase :=
  | PhaseUnset
  | ExperimentPhaseRunning
  | ExperimentPhaseTerminated
  | ExperimentPhasePromoted
  | ExperimentPhaseAborted.

#[export] Instance ExperimentPhase_eq_dec : EqDecision ExperimentPhase.
Proof. solve_decision. Defined.

Record ExperimentStatus := mkExperimentStatus {
  exp_Phase : ExperimentPhase;
  exp_ID : string;
  exp_StartedAt : option Time;
  exp_StartTaskID : string;
  exp_TerminationReason : string
}.

#[export] Instance ExperimentStatus_eq_dec : EqDecision ExperimentStatus.
Proof. solve_decision. Defined.

Definition set_Phase (p : ExperimentPhase) (e : ExperimentStatus) : ExperimentStatus :=
  mkExperimentStatus p (exp_ID e) (exp_StartedAt e) (exp_StartTaskID e) (exp_TerminationReason e).

Definition set_TerminationReason (r : string) (e : ExperimentStatus) : ExperimentStatus :=
  mkExperimentStatus (exp_Phase e) (exp_ID e) (exp_StartedAt e) (exp_StartTaskID e) r.

(** Annotation keys and signal values. *)
Definition AnnotationExperimentID : string := "experiment.datadoghq.com/id".
Definition AnnotationExperimentSignal : string := "experiment.datadoghq.com/signal".
Definition AnnotationPendingTaskID : string := "fleet.datadoghq.com/pending-task-id".
Definition AnnotationPendingAction : string := "fleet.datadoghq.com/pending-action".
Definition AnnotationPendingExperimentID : string := "fleet.datadoghq.com/pending-experiment-id".
Definition AnnotationPendingPackage : string := "fleet.datadoghq.com/pending-package".
Definition AnnotationPendingResultVersion : string := "fleet.datadoghq.com/pending-result-version".
Definition ExperimentSignalStart : string := "start".
Definition ExperimentSignalRollback : string := "rollback".
Definition ExperimentSignalPromote : string := "promote".

(** A Go map read: the zero value when the key is absent. *)
Definition get_key (m : gmap string string) (k : string) : string := default "" (m !! k).

(** ** ControllerRevision *)

(** [schema.GroupVersionKind], group and version as printed together. *)
Record GroupVersionKind := mkGVK { gvk_GroupVersion : string; gvk_Kind : string }.

(** [metav1.OwnerReference] *)
Record OwnerReference := mkOwnerReference {
  or_APIVersion : string;
  or_Kind : string;
  or_Name : string;
  or_UID : string;
  or_Controller : option bool;
  or_BlockOwnerDeletion : option bool
}.

(** [metav1.NewControllerRef] *)
Definition NewControllerRef (name uid : string) (gvk : GroupVersionKind) : OwnerReference :=
  mkOwnerReference (gvk_GroupVersion gvk) (gvk_Kind gvk) name uid (Some true) (Some true).

#[export] Instance OwnerReference_eq_dec : EqDecision OwnerReference.
Proof. solve_decision. Defined.

Record ControllerRevision := mkControllerRevision {
  cr_Namespace : string;
  cr_Name : string;
  cr_Labels : gmap string string;
  cr_Annotations : gmap string string;
  cr_OwnerReferences : list OwnerReference;
  cr_Raw : string;
  cr_Revision : Z
}.

#[export] Instance ControllerRevision_eq_dec : EqDecision ControllerRevision.
Proof. solve_decision. Defined.

Definition set_cr_Name (n : string) (r : ControllerRevision) : ControllerRevision :=
  mkControllerRevision (cr_Namespace r) n (cr_Labels r) (cr_Annotations r)
    (cr_OwnerReferences r) (cr_Raw r) (cr_Revision r).
Definition set_cr_Labels (l : gmap string string) (r : ControllerRevision) : ControllerRevision :=
  mkControllerRevision (cr_Namespace r) (cr_Name r) l (cr_Annotations r)
    (cr_OwnerReferences r) (cr_Raw r) (cr_Revision r).
Definition set_cr_Annotations (a : gmap string string) (r : ControllerRevision) : ControllerRevision :=
  mkControllerRevision (cr_Namespace r) (cr_Name r) (cr_Labels r) a
    (cr_OwnerReferences r) (cr_Raw r) (cr_Revision r).
Definition set_cr_Revision (n : Z) (r : ControllerRevision) : ControllerRevision :=
  mkControllerRevision (cr_Namespace r) (cr_Name r) (cr_Labels r) (cr_Annotations r)
    (cr_OwnerReferences r) (cr_Raw r) n.

(** The two merge patches the reconciler sends: one annotation, or the
    [revision] field. *)
Inductive RevisionPatch :=
  | PatchAnnotation (k v : string)
  | PatchRevision (n : Z).

Definition apply_revision_patch (p : RevisionPatch) (r : ControllerRevision) : ControllerRevision :=
  match p with
  | PatchAnnotation k v => set_cr_Annotations (<[k := v]> (cr_Annotations r)) r
  | PatchRevision n => set_cr_Revision n r
  end.

(** A JSON Patch operation (RFC 6902), [jsonPatchOp] of the reconciler. *)
Record jsonPatchOp := mkJsonPatchOp { op_Op : string; op_Path : string; op_Value : string }.

(** ** DatadogAgent *)

Record DatadogAgent (Spec : Type) := mkDatadogAgent {
  dda_Namespace : string;
  dda_Name : string;
  dda_UID : string;
  dda_ResourceVersion : string;
  dda_Labels : gmap string string;
  dda_Annotations : gmap string string;
  dda_Spec : Spec;
  dda_Experiment : option ExperimentStatus
}.
Arguments mkDatadogAgent {_}.
Arguments dda_Namespace {_}.
Arguments dda_Name {_}.
Arguments dda_UID {_}.
Arguments dda_ResourceVersion {_}.
Arguments dda_Labels {_}.
Arguments dda_Annotations {_}.
Arguments dda_Spec {_}.
Arguments dda_Experiment {_}.

Definition set_dda_Annotations {Spec : Type} (a : gmap string string) (d : DatadogAgent Spec) : DatadogAgent Spec :=
  mkDatadogAgent (dda_Namespace d) (dda_Name d) (dda_UID d) (dda_ResourceVersion d) (dda_Labels d) a
    (dda_Spec d) (dda_Experiment d).

(** ** The client *)

Class ClusterClient (W Spec : Type) := {
  client_GetRevision : string → string → GoM W ControllerRevision;
  client_PatchRevision : ControllerRevision → RevisionPatch → GoM W ControllerRevision;
  client_CreateRevision : ControllerRevision → GoM W unit;
  client_DeleteRevision : ControllerRevision → GoM W unit;
  client_ListRevisions : string → string → string → GoM W (list ControllerRevision);
  client_GetDDA : string → string → GoM W (DatadogAgent Spec);
  client_UpdateDDA : DatadogAgent Spec → GoM W (DatadogAgent Spec);
  client_JSONPatchDDA : string → string → list jsonPatchOp → GoM W unit
}.

(** ** Reference state and laws *)

Record Cluster (Spec : Type) := mkCluster {
  cl_revs : gmap (string * string) ControllerRevision;
  cl_ddas : gmap (string * string) (DatadogAgent Spec)
}.
Arguments mkCluster {_}.
Arguments cl_revs {_}.
Arguments cl_ddas {_}.

Definition cr_key (r : ControllerRevision) : string * string := (cr_Namespace r, cr_Name r).
Definition dda_key {Spec : Type} (d : DatadogAgent Spec) : string * string := (dda_Namespace d, dda_Name d).

(** RFC 6901 decoding of the reference token of an annotation path. *)
Fixpoint unescape_token (s : string) : string :=
  match s with
  | String "~"%char (String "1"%char s) => String "/"%char (unescape_token s)
  | String "~"%char (String "0"%char s) => String "~"%char (unescape_token s)
  | String a s => String a (unescape_token s)
  | EmptyString => EmptyString
  end.

Definition annotation_prefix : string := "/metadata/annotations/".

(** The annotation a JSON Patch path addresses. *)
Definition path_annotation (path : string) : option string :=
  if String.prefix annotation_prefix path
  then Some (unescape_token
    (String.substring (String.length annotation_prefix)
       (String.length path - String.length annotation_prefix) path))
  else None.

(** One JSON Patch operation on the annotations: [test] compares, [remove]
    needs the target to exist. *)
Definition apply_json_op (o : jsonPatchOp) (a : gmap string string) : option (gmap string string) :=
  k ← path_annotation (op_Path o);
  v ← a !! k;
  if decide (op_Op o = "test") then (if decide (v = op_Value o) then Some a else None)
  else if decide (op_Op o = "remove") then Some (delete k a)
  else None.

Fixpoint apply_json_patch (ops : list jsonPatchOp) (a : gmap string string) : option (gmap string string) :=
  match ops with
  | [] => Some a
  | o :: ops => a' ← apply_json_op o a; apply_json_patch ops a'
  end.

(** What an update of the main resource changes: the spec and the metadata,
    not the status, which is a subresource. *)
Definition apply_dda_update {Spec : Type} (rv : string) (d stored : DatadogAgent Spec) : DatadogAgent Spec :=
  mkDatadogAgent (dda_Namespace stored) (dda_Name stored) (dda_UID stored) rv
    (dda_Labels d) (dda_Annotations d) (dda_Spec d) (dda_Experiment stored).

Definition set_revs {Spec : Type} (f : gmap (string * string) ControllerRevision → gmap (string * string) ControllerRevision)
    (c : Cluster Spec) : Cluster Spec := mkCluster (f (cl_revs c)) (cl_ddas c).
Definition set_ddas {Spec : Type} (f : gmap (string * string) (DatadogAgent Spec) → gmap (string * string) (DatadogAgent Spec))
    (c : Cluster Spec) : Cluster Spec := mkCluster (cl_revs c) (f (cl_ddas c)).

(** The result of a call on the reference state: [post] relates the state
    before, the state after and the value when the call succeeds. *)
Definition sound_call {W Spec A : Type} (view : W → Cluster Spec)
    (post : Cluster Spec → Cluster Spec → A → Prop) (m : GoM W A) : Prop :=
  ∀ w, match m w with
       | (w', Ret a) => post (view w) (view w') a
       | (w', Fail _) => view w' = view w
       | (_, Panic) => False
       end.

Class SoundClient (W Spec : Type) `{ClusterClient W Spec} := {
  view : W → Cluster Spec;
  sound_GetRevision ns n :
    sound_call view (λ c c' r, c' = c ∧ cl_revs c !! (ns, n) = Some r) (client_GetRevision ns n);
  sound_PatchRevision r p :
    sound_call view (λ c c' r', ∃ r0, cl_revs c !! cr_key r = Some r0 ∧ r' = apply_revision_patch p r0 ∧
                       c' = set_revs (<[cr_key r := r']>) c) (client_PatchRevision r p);
  sound_CreateRevision r :
    sound_call view (λ c c' _, cl_revs c !! cr_key r = None ∧ c' = set_revs (<[cr_key r := r]>) c)
      (client_CreateRevision r);
  sound_DeleteRevision r :
    sound_call view (λ c c' _, is_Some (cl_revs c !! cr_key r) ∧ c' = set_revs (delete (cr_key r)) c)
      (client_DeleteRevision r);
  sound_ListRevisions ns k v :
    sound_call view (λ c c' l, c' = c ∧ NoDup l ∧ ∀ r, r ∈ l ↔
                       cl_revs c !! cr_key r = Some r ∧ cr_Namespace r = ns ∧ cr_Labels r !! k = Some v)
      (client_ListRevisions ns k v);
  sound_GetDDA ns n :
    sound_call view (λ c c' d, c' = c ∧ cl_ddas c !! (ns, n) = Some d) (client_GetDDA ns n);
  sound_UpdateDDA d :
    sound_call view (λ c c' d', ∃ d0 rv, cl_ddas c !! dda_key d = Some d0 ∧ d' = apply_dda_update rv d d0 ∧
                       c' = set_ddas (<[dda_key d := d']>) c) (client_UpdateDDA d);
  sound_JSONPatchDDA ns n ops :
    sound_call view (λ c c' _, ∃ d0 a rv, cl_ddas c !! (ns, n) = Some d0 ∧
                       apply_json_patch ops (dda_Annotations d0) = Some a ∧
                       c' = set_ddas (<[(ns, n) := apply_dda_update rv (set_dda_Annotations a d0) d0]>) c)
      (client_JSONPatchDDA ns n ops)
}.

(** A client none of whose calls on revisions fails when it can take effect:
    what the convergence properties need beyond soundness. *)
Class ReliableClient (W Spec : Type) `{SoundClient W Spec} := {
  reliable_PatchRevision r p (w : W) :
    is_Some (cl_revs (view w) !! cr_key r) → ∃ w' r', client_PatchRevision r p w = (w', Ret r');
  reliable_CreateRevision r (w : W) :
    cl_revs (view w) !! cr_key r = None → ∃ w', client_CreateRevision r w = (w', Ret tt);
  reliable_DeleteRevision r (w : W) :
    is_Some (cl_revs (view w) !! cr_key r) → ∃ w', client_DeleteRevision r w = (w', Ret tt)
}.

(** ** An in-memory client

    A sound client over the reference state itself, on which the witnesses of
    the properties run.  The resource version of an updated object is the
    old one with a mark appended, and an update with a stale one conflicts. *)

Section Mem.
Context {Spec : Type}.
Implicit Types c : Cluster Spec.

Definition not_found : error := ApiError ReasonNotFound.

Definition mem_get {V} (sel : Cluster Spec → gmap (string * string) V) (ns n : string) :
    GoM (Cluster Spec) V := λ c,
  (c, from_option Ret (Fail not_found) (sel c !! (ns, n))).

Definition mem_PatchRevision (r : ControllerRevision) (p : RevisionPatch) :
    GoM (Cluster Spec) ControllerRevision := λ c,
  match cl_revs c !! cr_key r with
  | Some r0 => let r' := apply_revision_patch p r0 in (set_revs (<[cr_key r := r']>) c, Ret r')
  | None => (c, Fail not_found)
  end.

Definition mem_CreateRevision (r : ControllerRevision) : GoM (Cluster Spec) unit := λ c,
  match cl_revs c !! cr_key r with
  | Some _ => (c, Fail (ApiError ReasonAlreadyExists))
  | None => (set_revs (<[cr_key r := r]>) c, Ret tt)
  end.

Definition mem_DeleteRevision (r : ControllerRevision) : GoM (Cluster Spec) unit := λ c,
  match cl_revs c !! cr_key r with
  | Some _ => (set_revs (delete (cr_key r)) c, Ret tt)
  | None => (c, Fail not_found)
  end.

Definition mem_listed (ns k v : string) (e : (string * string) * ControllerRevision) : Prop :=
  e.1 = cr_key e.2 ∧ cr_Namespace e.2 = ns ∧ cr_Labels e.2 !! k = Some v.

#[local] Instance mem_listed_dec ns k v e : Decision (mem_listed ns k v e).
Proof. unfold mem_listed. apply _. Defined.

Definition mem_ListRevisions (ns k v : string) : GoM (Cluster Spec) (list ControllerRevision) := λ c,
  (c, Ret (snd <$> filter (mem_listed ns k v) (map_to_list (cl_revs c)))).

Definition mem_next_rv (d : DatadogAgent Spec) : string := dda_ResourceVersion d +:+ "'".

Definition mem_UpdateDDA (d : DatadogAgent Spec) : GoM (Cluster Spec) (DatadogAgent Spec) := λ c,
  match cl_ddas c !! dda_key d with
  | Some d0 => if decide (dda_ResourceVersion d = dda_ResourceVersion d0)
               then let d' := apply_dda_update (mem_next_rv d0) d d0 in
                    (set_ddas (<[dda_key d := d']>) c, Ret d')
               else (c, Fail (ApiError ReasonConflict))
  | None => (c, Fail not_found)
  end.

Definition mem_JSONPatchDDA (ns n : string) (ops : list jsonPatchOp) : GoM (Cluster Spec) unit := λ c,
  match cl_ddas c !! (ns, n) with
  | Some d0 => match apply_json_patch ops (dda_Annotations d0) with
               | Some a => (set_ddas (<[(ns, n) := apply_dda_update (mem_next_rv d0) (set_dda_Annotations a d0) d0]>) c,
                            Ret tt)
               | None => (c, Fail (ApiError ReasonInvalid))
               end
  | None => (c, Fail not_found)
  end.

#[export] Instance mem_client : ClusterClient (Cluster Spec) Spec := {|
  client_GetRevision := mem_get cl_revs;
  client_PatchRevision := mem_PatchRevision;
  client_CreateRevision := mem_CreateRevision;
  client_DeleteRevision := mem_DeleteRevision;
  client_ListRevisions := mem_ListRevisions;
  client_GetDDA := mem_get cl_ddas;
  client_UpdateDDA := mem_UpdateDDA;
  client_JSONPatchDDA := mem_JSONPatchDDA
|}.

Lemma mem_list_sound ns k v c :
  let l := snd <$> filter (mem_listed ns k v) (map_to_list (cl_revs c)) in
  NoDup l ∧ ∀ r, r ∈ l ↔ cl_revs c !! cr_key r = Some r ∧ cr_Namespace r = ns ∧ cr_Labels r !! k = Some v.
Proof.
  intros l. split.
  - apply (NoDup_fmap_1 cr_key). subst l.
    assert (Heq : cr_key <$> (snd <$> filter (mem_listed ns k v) (map_to_list (cl_revs c)))
                  = fst <$> filter (mem_listed ns k v) (map_to_list (cl_revs c))).
    { rewrite <-list_fmap_compose. apply list_fmap_ext. intros i e He.
      apply list_elem_of_lookup_2 in He. apply list_elem_of_filter in He as [[He _] _].
      by rewrite He. }
    rewrite Heq. apply (NoDup_fmap_2_strong fst).
    + intros [k1 x] [k2 y] [_ H1]%list_elem_of_filter [_ H2]%list_elem_of_filter; simpl; intros ->.
      apply elem_of_map_to_list in H1, H2. by simplify_eq.
    + apply NoDup_filter, NoDup_map_to_list.
  - intros r. subst l. rewrite list_elem_of_fmap. split.
    + intros ([k' r'] & -> & [[Hk Hr] He]%list_elem_of_filter). simpl in *. subst.
      by apply elem_of_map_to_list in He.
    + intros [He Hr]. exists (cr_key r, r). split; [done|]. apply list_elem_of_filter.
      split; [done|]. by apply elem_of_map_to_list.
Qed.

#[export] Program Instance mem_sound : SoundClient (Cluster Spec) Spec := {| view := λ c, c |}.
Next Obligation. intros ns n c. simpl. unfold mem_get. by destruct (cl_revs c !! (ns, n)) eqn:E. Qed.
Next Obligation.
  intros r p c. simpl. unfold mem_PatchRevision.
  destruct (cl_revs c !! cr_key r) as [r0|] eqn:E; simpl; eauto.
Qed.
Next Obligation. intros r c. simpl. unfold mem_CreateRevision. by destruct (cl_revs c !! cr_key r) eqn:E. Qed.
Next Obligation.
  intros r c. simpl. unfold mem_DeleteRevision. destruct (cl_revs c !! cr_key r) eqn:E; simpl; eauto.
Qed.
Next Obligation. intros ns k v c. simpl. split; [done|]. apply mem_list_sound. Qed.
Next Obligation. intros ns n c. simpl. unfold mem_get. by destruct (cl_ddas c !! (ns, n)) eqn:E. Qed.
Next Obligation.
  intros d c. simpl. unfold mem_UpdateDDA. destruct (cl_ddas c !! dda_key d) as [d0|] eqn:E; [|done].
  case_decide; [|done]. eauto.
Qed.
Next Obligation.
  intros ns n ops c. simpl. unfold mem_JSONPatchDDA. destruct (cl_ddas c !! (ns, n)) as [d0|] eqn:E; [|done].
  destruct (apply_json_patch ops (dda_Annotations d0)) as [a|] eqn:Ea; [|done]. eauto 10.
Qed.

#[export] Instance mem_reliable : ReliableClient (Cluster Spec) Spec.
Proof.
  split.
  - intros r p w [r0 Hr0]. simpl in *. unfold mem_PatchRevision. rewrite Hr0. eauto.
  - intros r w Hr. simpl in *. unfold mem_CreateRevision. rewrite Hr. eauto.
  - intros r w [r0 Hr0]. simpl in *. unfold mem_DeleteRevision. rewrite Hr0. eauto.
Qed.
End Mem.
