(* ===== verification/Revision.v ===== *)
(** * ControllerRevision snapshots of the DatadogAgent spec.

    Models [pkg/controllerrevisions/controller_history.go] and
    [internal/controller/datadogagent/revision.go]: the snapshot of the raw
    spec and the Datadog annotations, the naming of revisions by the FNV-32 of
    the snapshot, [ensureRevision], [recreateRevision], [gcOldRevisions] and
    [manageRevision].  The list of revisions is shared by the calls of one
    reconcile and patched in place through pointers into it: a pointer is an
    index, and the list is part of the state [ReconcileState]. *)

From Stdlib Require Import ZArith Ascii.
From stdpp Require Import base gmap strings list pretty.
From S2P Require Import Prelude Cluster.

(** ** Naming *)

(** [hash/fnv.New32]: FNV-1, 32 bits. *)
Definition fnv32_offset : Z := 2166136261.
Definition fnv32_prime : Z := 16777619.

Definition fnv32_step (h : Z) (a : ascii) : Z :=
  Z.lxor ((h * fnv32_prime) mod 2^32) (Z.of_N (N_of_ascii a)).

Fixpoint fnv32 (h : Z) (s : string) : Z :=
  match s with
  | EmptyString => h
  | String a s => fnv32 (fnv32_step h a) s
  end.

Definition ControllerRevisionHashLabel : string := "controller.kubernetes.io/hash".

Section Naming.
(** [utilrand.SafeEncodeString] of k8s.io/apimachinery. *)
Context (SafeEncodeString : string → string).

Definition HashControllerRevision (revision : ControllerRevision) (collisionCount : option Z) : string :=
  let h := fnv32 fnv32_offset (cr_Raw revision) in
  let h := match collisionCount with
           | Some n => fnv32 h (pretty n)
           | None => h
           end in
  SafeEncodeString (pretty h).

Definition ControllerRevisionName (prefix hash : string) : string :=
  let prefix := if bool_decide (223 < String.length prefix) then String.substring 0 223 prefix else prefix in
  prefix +:+ "-" +:+ hash.

Definition NewControllerRevision {Spec : Type} (owner : DatadogAgent Spec) (gvk : GroupVersionKind)
    (labels : gmap string string) (data : string) (revision : Z) (collisionCount : option Z) : ControllerRevision :=
  let cr := mkControllerRevision (dda_Namespace owner) "" labels ∅
              [NewControllerRef (dda_Name owner) (dda_UID owner) gvk] data revision in
  let hash := HashControllerRevision cr collisionCount in
  set_cr_Labels (<[ControllerRevisionHashLabel := hash]> (cr_Labels cr))
    (set_cr_Name (ControllerRevisionName (dda_Name owner) hash) cr).
End Naming.

(** ** Snapshots *)

Record revisionSnapshot (Spec : Type) := mkSnapshot {
  snap_Spec : Spec;
  snap_Annotations : gmap string string
}.
Arguments mkSnapshot {_}.
Arguments snap_Spec {_}.
Arguments snap_Annotations {_}.

(** [encoding/json] on a [revisionSnapshot]. *)
Class SnapshotCodec (Spec : Type) := {
  json_Marshal : revisionSnapshot Spec → string + error;
  json_Unmarshal : string → revisionSnapshot Spec + error
}.

(** What is relied on of it: what [Marshal] produced decodes to a snapshot with
    the same annotations, which encodes to the same bytes again. *)
Class SnapshotCodecLaws (Spec : Type) `{SnapshotCodec Spec} := {
  Unmarshal_Marshal s b :
    json_Marshal s = inl b →
    ∃ s', json_Unmarshal b = inl s' ∧ json_Marshal s' = inl b ∧ snap_Annotations s' = snap_Annotations s
}.

(** Keys that belong to a snapshot: Datadog preview annotations, without the
    transient signals. *)
Definition isSnapshotAnnotation (k : string) : bool :=
  Contains k ".datadoghq.com/"
  && negb (HasPrefix k "experiment.datadoghq.com/")
  && negb (HasPrefix k "fleet.datadoghq.com/").

(** The nil map of an empty result and the empty map encode alike. *)
Definition datadogAnnotations (all : gmap string string) : gmap string string :=
  filter (λ kv : string * string, isSnapshotAnnotation kv.1 = true) all.

Definition buildRevisionSnapshot {Spec : Type} `{SnapshotCodec Spec}
    (spec : Spec) (allAnnotations : gmap string string) : string + error :=
  json_Marshal (mkSnapshot spec (datadogAnnotations allAnnotations)).

Lemma lookup_datadogAnnotations all k :
  datadogAnnotations all !! k = (if isSnapshotAnnotation k then all !! k else None).
Proof.
  unfold datadogAnnotations. rewrite map_lookup_filter.
  destruct (all !! k) as [v|], (isSnapshotAnnotation k) eqn:E; simpl; rewrite ?E; done.
Qed.

(** ** Recorded outcome of an experiment on a revision *)

Definition annotationExperimentState : string := "operator.datadoghq.com/experiment-state".

Definition experimentRevisionStatePromoted : string := "promoted".
Definition experimentRevisionStateRolledBack : string := "rolled-back".

(** The pointer argument may be nil. *)
Definition revisionExperimentState (rev : option ControllerRevision) : string :=
  match rev with
  | None => ""
  | Some rev => get_key (cr_Annotations rev) annotationExperimentState
  end.

(** ** State of one reconcile *)

Record ReconcileState (W : Type) := mkRState {
  st_world : W;
  st_revs : list ControllerRevision;         (* revList, shared *)
  st_newExp : option ExperimentStatus;       (* newStatus.Experiment *)
  st_instRV : string                         (* instance.ResourceVersion *)
}.
Arguments mkRState {_}.
Arguments st_world {_}.
Arguments st_revs {_}.
Arguments st_newExp {_}.
Arguments st_instRV {_}.

Definition set_world {W : Type} (w : W) (s : ReconcileState W) : ReconcileState W :=
  mkRState w (st_revs s) (st_newExp s) (st_instRV s).
Definition set_st_revs {W : Type} (l : list ControllerRevision) (s : ReconcileState W) : ReconcileState W :=
  mkRState (st_world s) l (st_newExp s) (st_instRV s).
Definition set_newExp {W : Type} (e : option ExperimentStatus) (s : ReconcileState W) : ReconcileState W :=
  mkRState (st_world s) (st_revs s) e (st_instRV s).
Definition set_instRV {W : Type} (rv : string) (s : ReconcileState W) : ReconcileState W :=
  mkRState (st_world s) (st_revs s) (st_newExp s) rv.

(** A client call inside the reconcile. *)
Definition call {W A : Type} (m : GoM W A) : GoM (ReconcileState W) A := λ s,
  let (w', o) := m (st_world s) in (set_world w' s, o).

(** A pointer into the shared list, with what it points to. *)
Definition RevPtr : Type := nat * ControllerRevision.

(** [r.client.Patch(ctx, rev, ...)]: on success the response overwrites the
    element [rev] points to. *)
Definition patch_through {W Spec : Type} `{ClusterClient W Spec} (rev : RevPtr) (p : RevisionPatch) :
    GoM (ReconcileState W) unit :=
  r' ← call (client_PatchRevision rev.2 p);
  modify (λ s, set_st_revs (<[rev.1 := r']> (st_revs s)) s).

(** ** Operations *)

Definition skipRevisionBump (newStatus : option ExperimentStatus) : bool :=
  match newStatus with
  | None => false
  | Some e => bool_decide (exp_Phase e = ExperimentPhaseTerminated)
  end.

(** The scan of [ensureRevision]: the last revision with identical data, and
    the largest [Revision] (0 when there is none). *)
Fixpoint scanRevisions (i : nat) (specBytes : string) (revList : list ControllerRevision)
    (matchingRev : option RevPtr) (maxRevision : Z) : option RevPtr * Z :=
  match revList with
  | [] => (matchingRev, maxRevision)
  | existing :: revList =>
      scanRevisions (S i) specBytes revList
        (if bool_decide (cr_Raw existing = specBytes) then Some (i, existing) else matchingRev)
        (if bool_decide (maxRevision < cr_Revision existing)%Z then cr_Revision existing else maxRevision)
  end.

(** [existingByName], filled in list order: a later entry wins. *)
Definition existingByName (revList : list ControllerRevision) : gmap string string :=
  foldl (λ m rev, <[cr_Name rev := cr_Raw rev]> m) ∅ revList.

Section Operations.
Context {W Spec : Type} `{ClusterClient W Spec} `{SnapshotCodec Spec}.
Context (SafeEncodeString : string → string).
(** [instance.Spec.Global.CommonLabels]; [None] for a nil [Global]. *)
Context (spec_CommonLabels : Spec → option (gmap string string)).
(** [r.scheme.ObjectKinds(instance)]. *)
Context (ObjectKinds : list GroupVersionKind + error).

Abbreviation NewRevision := (NewControllerRevision SafeEncodeString).

(** The labels of a snapshot: operator-owned keys win over [commonLabels]. *)
Definition revisionLabels (instance : DatadogAgent Spec) : gmap string string :=
  let labels := {["agent.datadoghq.com/datadogagent" := dda_Name instance]} in
  match spec_CommonLabels (dda_Spec instance) with
  | None => labels
  | Some common =>
      map_fold (λ k v labels, match labels !! k with Some _ => labels | None => <[k := v]> labels end) labels common
  end.

Definition recreateRevision (old : ControllerRevision) (instance : DatadogAgent Spec) (gvk : GroupVersionKind)
    (labels : gmap string string) (data : string) (maxRevision : Z) : GoM (ReconcileState W) string :=
  d ← attempt (call (client_DeleteRevision old));
  match d with
  | inr e => if IsNotFound e then mret tt
             else fail (Wrapf ("failed to delete rolled-back ControllerRevision " +:+ cr_Name old) e)
  | inl _ => mret tt
  end ;;
  let fresh := NewRevision instance gvk labels data (maxRevision + 1)%Z None in
  c ← attempt (call (client_CreateRevision fresh));
  match c with
  | inr e => if IsAlreadyExists e then mret (cr_Name fresh)
             else fail (Wrapf ("failed to recreate ControllerRevision " +:+ cr_Name fresh) e)
  | inl _ => mret (cr_Name fresh)
  end.

Definition createRevision (instance : DatadogAgent Spec) (gvk : GroupVersionKind) (labels : gmap string string)
    (specBytes : string) (maxRevision : Z) (revList : list ControllerRevision) : GoM (ReconcileState W) string :=
  let rev := NewRevision instance gvk labels specBytes (maxRevision + 1)%Z None in
  match existingByName revList !! cr_Name rev with
  | Some existingData =>
      if bool_decide (existingData = specBytes) then mret (cr_Name rev)
      else fail (Errorf ("hash collision for ControllerRevision name " +:+ cr_Name rev))
  | None =>
      c ← attempt (call (client_CreateRevision rev));
      match c with
      | inr e => if IsAlreadyExists e then mret (cr_Name rev)
                 else fail (Wrapf ("failed to create ControllerRevision " +:+ cr_Name rev) e)
      | inl _ => mret (cr_Name rev)
      end
  end.

Definition reuseRevision (matchingRev : RevPtr) (maxRevision : Z) (skipBump : bool) :
    GoM (ReconcileState W) string :=
  when (bool_decide (cr_Revision matchingRev.2 < maxRevision)%Z && negb skipBump)
    (p ← attempt (patch_through matchingRev (PatchRevision (maxRevision + 1)%Z));
     match p with
     | inr e => if IsConflict e then mret tt
                else fail (Wrapf ("failed to patch ControllerRevision " +:+ cr_Name matchingRev.2) e)
     | inl _ => mret tt
     end) ;;
  mret (cr_Name matchingRev.2).

Definition ensureRevision (instance : DatadogAgent Spec) (rawSpec : Spec) (skipBump : bool) :
    GoM (ReconcileState W) string :=
  match buildRevisionSnapshot rawSpec (dda_Annotations instance) with
  | inr e => fail (Wrapf "failed to marshal snapshot" e)
  | inl specBytes =>
  match ObjectKinds with
  | inr e => fail (Wrapf "failed to get GVK for owner" e)
  | inl gvks =>
  let labels := revisionLabels instance in
  revList ← gets st_revs;
  let '(matchingRev, maxRevision) := scanRevisions 0 specBytes revList None 0 in
  match matchingRev with
  | Some m =>
      if bool_decide (revisionExperimentState (Some m.2) = experimentRevisionStateRolledBack) && negb skipBump
      then match gvks with
           | [] => panic
           | gvk :: _ => recreateRevision m.2 instance gvk labels specBytes maxRevision
           end
      else reuseRevision m maxRevision skipBump
  | None =>
      match gvks with
      | [] => panic
      | gvk :: _ => createRevision instance gvk labels specBytes maxRevision revList
      end
  end end end.

(** The most recent revision other than [current]: its number and name. *)
Fixpoint findPrevious (current : string) (revList : list ControllerRevision) (acc : Z * string) : Z * string :=
  match revList with
  | [] => acc
  | rev :: revList =>
      findPrevious current revList
        (if bool_decide (cr_Name rev = current) then acc
         else if bool_decide (acc.1 < cr_Revision rev)%Z then (cr_Revision rev, cr_Name rev) else acc)
  end.

Definition gcOldRevisions (current : string) : GoM (ReconcileState W) unit :=
  revList ← gets st_revs;
  let previous := (findPrevious current revList ((-1)%Z, "")).2 in
  for_each (λ rev,
    if bool_decide (cr_Name rev = current) || bool_decide (cr_Name rev = previous) then mret tt
    else d ← attempt (call (client_DeleteRevision rev));
         match d with
         | inr e => if IsNotFound e then mret tt
                    else fail (Wrapf ("failed to delete ControllerRevision " +:+ cr_Name rev) e)
         | inl _ => mret tt
         end) revList.

(** Garbage collection is best effort: its error is only logged. *)
Definition manageRevision (instance : DatadogAgent Spec) (rawSpec : Spec) : GoM (ReconcileState W) unit :=
  newExp ← gets st_newExp;
  revName ← ensureRevision instance rawSpec (skipRevisionBump newExp);
  _ ← attempt (gcOldRevisions revName);
  mret tt.

(** The revisions this DatadogAgent owns, by UID. *)
Definition ownedBy (uid : string) (rev : ControllerRevision) : bool :=
  ContainsFunc (λ ref, bool_decide (or_Controller ref = Some true) && bool_decide (or_UID ref = uid))
    (cr_OwnerReferences rev).

Definition listRevisions (instance : DatadogAgent Spec) : GoM W (list ControllerRevision) :=
  items ← wrap "failed to list ControllerRevisions"
            (client_ListRevisions (dda_Namespace instance) "agent.datadoghq.com/datadogagent" (dda_Name instance));
  mret (reject (λ rev, negb (ownedBy (dda_UID instance) rev)) items).
End Operations.
