(* ===== verification/Experiment.v ===== *)
(** * Fleet Automation experiments in the DatadogAgent reconciler.

    Models [internal/controller/datadogagent/experiment.go]: the transitions of
    [status.experiment] driven by the signal annotations, by the timeout and by
    manual spec changes, the restore of the previous spec from a
    ControllerRevision, and the conditional clearing of the annotations.
    [reconcileRevisions] is the part of [reconcileInstance] that lists the
    revisions and runs the experiment and revision managers, and
    [emitExperimentTransitionEvent] the event of a committed transition
    ([experiment_events.go]). *)

From Stdlib Require Import ZArith Ascii.
From stdpp Require Import base gmap strings list.
From S2P Require Import Prelude Cluster Revision.

Definition ExperimentDefaultTimeout : Duration := (15 * Minute)%Z.

Definition ExperimentTerminationReasonStopped : string := "stopped".
Definition ExperimentTerminationReasonTimedOut : string := "timed_out".

Definition isTerminalPhase (phase : ExperimentPhase) : bool :=
  match phase with
  | ExperimentPhaseTerminated | ExperimentPhasePromoted | ExperimentPhaseAborted => true
  | _ => false
  end.

Definition getExperimentTimeout (timeout : Duration) : Duration :=
  if bool_decide (timeout = 0)%Z then ExperimentDefaultTimeout else timeout.

(** ** Choosing revisions *)

(** [findRollbackTarget]: (curRev, curName, prevRev, prevName) over the list. *)
Record TargetScan := mkTargetScan { ts_cur : Z * string; ts_prev : Z * string }.

Definition targetStep (t : TargetScan) (rev : ControllerRevision) : TargetScan :=
  if bool_decide ((ts_cur t).1 < cr_Revision rev)%Z
  then mkTargetScan (cr_Revision rev, cr_Name rev) (ts_cur t)
  else if bool_decide ((ts_prev t).1 < cr_Revision rev)%Z
  then mkTargetScan (ts_cur t) (cr_Revision rev, cr_Name rev)
  else t.

Definition findRollbackTarget (revisions : list ControllerRevision) : string :=
  (ts_prev (foldl targetStep (mkTargetScan ((-1)%Z, "") ((-1)%Z, "")) revisions)).2.

Fixpoint highestFrom (i : nat) (revisions : list ControllerRevision) (result : option RevPtr) : option RevPtr :=
  match revisions with
  | [] => result
  | rev :: revisions =>
      highestFrom (S i) revisions
        (match result with
         | None => Some (i, rev)
         | Some r => if bool_decide (cr_Revision r.2 < cr_Revision rev)%Z then Some (i, rev) else result
         end)
  end.

Definition highestRevision (revisions : list ControllerRevision) : option RevPtr :=
  highestFrom 0 revisions None.

Fixpoint mostRecentMatchFrom (i : nat) (snapBytes : string) (revisions : list ControllerRevision)
    (result : option RevPtr) : option RevPtr :=
  match revisions with
  | [] => result
  | rev :: revisions =>
      mostRecentMatchFrom (S i) snapBytes revisions
        (if bool_decide (cr_Raw rev = snapBytes)
         then match result with
              | None => Some (i, rev)
              | Some r => if bool_decide (cr_Revision r.2 < cr_Revision rev)%Z then Some (i, rev) else result
              end
         else result)
  end.

Definition findMostRecentMatchingRevision {Spec : Type} `{SnapshotCodec Spec}
    (revisions : list ControllerRevision) (instance : DatadogAgent Spec) : option RevPtr :=
  match buildRevisionSnapshot (dda_Spec instance) (dda_Annotations instance) with
  | inr _ => None
  | inl snapBytes => mostRecentMatchFrom 0 snapBytes revisions None
  end.

(** ** Clearing the signal annotations *)

Definition annotationToJSONPatchPath (key : string) : string :=
  "/metadata/annotations/" +:+ ReplaceAllChar "/"%char "~1" key.

Definition clearOps (expectedID : string) : list jsonPatchOp :=
  [ mkJsonPatchOp "test" (annotationToJSONPatchPath AnnotationExperimentID) expectedID;
    mkJsonPatchOp "remove" (annotationToJSONPatchPath AnnotationExperimentSignal) "";
    mkJsonPatchOp "remove" (annotationToJSONPatchPath AnnotationExperimentID) "" ].

Section Experiment.
Context {W Spec : Type} `{ClusterClient W Spec} `{SnapshotCodec Spec}.
(** [r.options.ExperimentTimeout] *)
Context (ExperimentTimeout : Duration).

Abbreviation M := (GoM (ReconcileState W)).
Implicit Types instance : DatadogAgent Spec.

Definition clearExperimentAnnotations (instance : DatadogAgent Spec) (expectedID : string) : M unit :=
  call (client_JSONPatchDDA (dda_Namespace instance) (dda_Name instance) (clearOps expectedID)).

(** [newStatus.Experiment.f = v]: panics when [newStatus.Experiment] is nil. *)
Definition update_newExp (f : ExperimentStatus → ExperimentStatus) : M unit :=
  e ← gets st_newExp;
  match e with
  | None => panic
  | Some e => modify (set_newExp (Some (f e)))
  end.

(** Best effort: a failed patch is logged and ignored. *)
Definition markRevisionState (rev : RevPtr) (state : string) : M unit :=
  if bool_decide (revisionExperimentState (Some rev.2) = state) then mret tt
  else _ ← attempt (patch_through rev (PatchAnnotation annotationExperimentState state)); mret tt.

(** [if rev := highestRevision(revisions); rev != nil { markRevisionState(rev, state) }] *)
Definition markHighest (state : string) : M unit :=
  revisions ← gets st_revs;
  match highestRevision revisions with
  | None => mret tt
  | Some rev => markRevisionState rev state
  end.

Definition rollback (instance : DatadogAgent Spec) (rollbackTarget : string) : M unit :=
  if bool_decide (rollbackTarget = "") then mret tt else
  cr ← wrap ("failed to get previous ControllerRevision " +:+ rollbackTarget)
         (call (client_GetRevision (dda_Namespace instance) rollbackTarget));
  match json_Unmarshal (cr_Raw cr) with
  | inr e => fail (Wrapf "failed to decode ControllerRevision data" e)
  | inl snapshot =>
      current ← wrap "failed to get current DDA for rollback"
                  (call (client_GetDDA (dda_Namespace instance) (dda_Name instance)));
      match buildRevisionSnapshot (dda_Spec current) (dda_Annotations current) with
      | inr e => fail (Wrapf "failed to marshal current snapshot for comparison" e)
      | inl currentSnap =>
          if bool_decide (currentSnap = cr_Raw cr)
          then modify (set_instRV (dda_ResourceVersion current))
          else
            (* maps.Copy: the snapshot's entries overwrite the current ones *)
            let merged := snap_Annotations snapshot ∪ dda_Annotations current in
            let toUpdate := mkDatadogAgent (dda_Namespace current) (dda_Name current) (dda_UID current)
                              (dda_ResourceVersion current) (dda_Labels current) merged (snap_Spec snapshot) None in
            updated ← call (client_UpdateDDA toUpdate);
            modify (set_instRV (dda_ResourceVersion updated))
      end
  end.

Definition restorePreviousSpec (instance : DatadogAgent Spec) (terminationReason : string) : M unit :=
  revisions ← gets st_revs;
  let rollbackTarget := findRollbackTarget revisions in
  _ ← rollback instance rollbackTarget;
  _ ← update_newExp (set_Phase ExperimentPhaseTerminated);
  _ ← update_newExp (set_TerminationReason terminationReason);
  revisions ← gets st_revs;
  match highestRevision revisions with
  | None => mret tt
  | Some rev =>
      if bool_decide (cr_Name rev.2 = rollbackTarget) then mret tt
      else markRevisionState rev experimentRevisionStateRolledBack
  end.

(** [len(revisions) >= 2 && findMostRecentMatchingRevision(revisions, instance) == nil] *)
Definition specManuallyChanged (revisions : list ControllerRevision) (instance : DatadogAgent Spec) : bool :=
  bool_decide (2 ≤ length revisions) && bool_decide (findMostRecentMatchingRevision revisions instance = None).

(** Phase becomes aborted and the experiment revision is marked. *)
Definition abortNow : M unit :=
  _ ← update_newExp (set_Phase ExperimentPhaseAborted);
  markHighest experimentRevisionStateRolledBack.

Definition processStartSignal (annotationID : string) (currentPhase : ExperimentPhase) (currentID : string)
    (now : Time) (pendingTaskID : string) : M bool :=
  if bool_decide (annotationID = currentID) then mret true
  else if bool_decide (currentPhase = ExperimentPhaseRunning) then mret true
  else
    _ ← modify (set_newExp (Some
          (mkExperimentStatus ExperimentPhaseRunning annotationID (Some now) pendingTaskID "")));
    mret true.

Definition processRollbackSignal (instance : DatadogAgent Spec) (annotationID : string)
    (currentPhase : ExperimentPhase) : M bool :=
  if isTerminalPhase currentPhase then mret true
  else
  revisions ← gets st_revs;
  if bool_decide (currentPhase = ExperimentPhaseRunning) then
    if specManuallyChanged revisions instance
    then _ ← abortNow; mret true
    else _ ← restorePreviousSpec instance ExperimentTerminationReasonStopped; mret true
  else if bool_decide (currentPhase = PhaseUnset) then
    if bool_decide (2 ≤ length revisions) then
      match findMostRecentMatchingRevision revisions instance, highestRevision revisions with
      | Some matchingRev, Some highest =>
          if bool_decide (cr_Revision matchingRev.2 = cr_Revision highest.2) then
            _ ← modify (set_newExp (Some (mkExperimentStatus PhaseUnset annotationID None "" "")));
            _ ← restorePreviousSpec instance ExperimentTerminationReasonStopped;
            mret true
          else mret true
      | Some _, None => panic
      | None, _ => mret true
      end
    else mret true
  else mret true.

Definition processPromoteSignal (instance : DatadogAgent Spec) (currentPhase : ExperimentPhase) : M bool :=
  if isTerminalPhase currentPhase then mret true
  else if negb (bool_decide (currentPhase = ExperimentPhaseRunning)) then mret true
  else
    revisions ← gets st_revs;
    if specManuallyChanged revisions instance
    then _ ← abortNow; mret true
    else _ ← update_newExp (set_Phase ExperimentPhasePromoted); mret true.

(** Phase and ID of a possibly nil experiment. *)
Definition phase_of (e : option ExperimentStatus) : ExperimentPhase := from_option exp_Phase PhaseUnset e.
Definition id_of (e : option ExperimentStatus) : string := from_option exp_ID "" e.

(** The annotation ID to clear once the cycle is complete, "" for none. *)
Definition processExperimentSignal (instance : DatadogAgent Spec) (now : Time) : M string :=
  let annotations := dda_Annotations instance in
  let signal := get_key annotations AnnotationExperimentSignal in
  let annotationID := get_key annotations AnnotationExperimentID in
  if bool_decide (signal = "") || bool_decide (annotationID = "") then mret ""
  else
  let currentPhase := phase_of (dda_Experiment instance) in
  let currentID := id_of (dda_Experiment instance) in
  acted ← (if bool_decide (signal = ExperimentSignalStart) then
             processStartSignal annotationID currentPhase currentID now (get_key annotations AnnotationPendingTaskID)
           else if bool_decide (signal = ExperimentSignalRollback) then
             processRollbackSignal instance annotationID currentPhase
           else if bool_decide (signal = ExperimentSignalPromote) then
             processPromoteSignal instance currentPhase
           else mret true);
  mret (if (acted : bool) then annotationID else "").

Definition handleRollback (instance : DatadogAgent Spec) (now : Time) : M unit :=
  match dda_Experiment instance with
  | None => mret tt
  | Some experiment =>
      let phase := exp_Phase experiment in
      newExp ← gets st_newExp;
      if match newExp with Some e => negb (bool_decide (exp_Phase e = phase)) | None => false end then mret tt
      else if negb (bool_decide (phase = ExperimentPhaseRunning)) then mret tt
      else
        revisions ← gets st_revs;
        let rev := findMostRecentMatchingRevision revisions instance in
        let timeout_check (rev : option RevPtr) : M unit :=
          match rev, exp_StartedAt experiment with
          | Some _, Some startedAt =>
              let elapsed := Time_Sub now startedAt in
              if bool_decide (getExperimentTimeout ExperimentTimeout ≤ elapsed)%Z
              then restorePreviousSpec instance ExperimentTerminationReasonTimedOut
              else mret tt
          | _, _ => mret tt
          end in
        if specManuallyChanged revisions instance then
          let rev := highestRevision revisions in
          if negb (bool_decide (revisionExperimentState (snd <$> rev) = "")) then mret tt
          else match rev with
               | Some _ => mret tt
               | None => timeout_check None
               end
        else timeout_check rev
  end.

Definition abortExperiment (instance : DatadogAgent Spec) (experiment : ExperimentStatus) : M unit :=
  if negb (bool_decide (exp_Phase experiment = ExperimentPhaseRunning)) then mret tt
  else
    newExp ← gets st_newExp;
    match newExp with
    | None => panic
    | Some e =>
        if negb (bool_decide (exp_Phase e = ExperimentPhaseRunning)) then mret tt
        else
          revisions ← gets st_revs;
          if bool_decide (length revisions < 2) then mret tt
          else if negb (bool_decide (findMostRecentMatchingRevision revisions instance = None)) then mret tt
          else abortNow
    end.

(** Clearing failures are logged and retried on the next reconcile. *)
Definition clearBestEffort (instance : DatadogAgent Spec) (pendingClearID : string) : M unit :=
  _ ← attempt (clearExperimentAnnotations instance pendingClearID); mret tt.

Definition manageExperiment (instance : DatadogAgent Spec) (now : Time) : M unit :=
  old ← gets st_newExp;
  let oldPhase := phase_of old in
  let oldID := id_of old in
  pendingClearID ← processExperimentSignal instance now;
  match dda_Experiment instance with
  | None =>
      new ← gets st_newExp;
      when (negb (bool_decide (pendingClearID = "")) && bool_decide (new = None))
        (clearBestEffort instance pendingClearID)
  | Some experiment =>
      _ ← handleRollback instance now;
      _ ← when (bool_decide (exp_Phase experiment = ExperimentPhasePromoted))
            (markHighest experimentRevisionStatePromoted);
      _ ← abortExperiment instance experiment;
      new ← gets st_newExp;
      when (negb (bool_decide (pendingClearID = "")) &&
            bool_decide (phase_of new = oldPhase) && bool_decide (id_of new = oldID))
        (clearBestEffort instance pendingClearID)
  end.

(** ** The reconcile that drives it *)

Context (SafeEncodeString : string → string).
Context (spec_CommonLabels : Spec → option (gmap string string)).
Context (ObjectKinds : list GroupVersionKind + error).

(** [rawInstance]: the reconciled object with the user's spec. *)
Definition with_spec (rawSpec : Spec) (instance : DatadogAgent Spec) : DatadogAgent Spec :=
  mkDatadogAgent (dda_Namespace instance) (dda_Name instance) (dda_UID instance) (dda_ResourceVersion instance)
    (dda_Labels instance) (dda_Annotations instance) rawSpec (dda_Experiment instance).

(** The [CreateControllerRevisions] block; [instance] has the defaulted spec. *)
Definition reconcileRevisions (instance : DatadogAgent Spec) (rawSpec : Spec) (now : Time) : M unit :=
  revList ← call (listRevisions instance);
  _ ← modify (set_st_revs revList);
  _ ← manageExperiment (with_spec rawSpec instance) now;
  manageRevision SafeEncodeString spec_CommonLabels ObjectKinds instance rawSpec.
End Experiment.

(** ** Events *)

Inductive EventType := EventTypeNormal | EventTypeWarning.

Definition eventReasonExperimentStartProcessed : string := "ExperimentStartProcessed".
Definition eventReasonExperimentPromoted : string := "ExperimentPromoted".
Definition eventReasonExperimentRolledBack : string := "ExperimentRolledBack".
Definition eventReasonExperimentTimedOut : string := "ExperimentTimedOut".
Definition eventReasonExperimentAborted : string := "ExperimentAborted".

(** Type, reason and the experiment's ID of the event recorded, if any.
    [enabled]: the environment variable is set and there is a recorder. *)
Definition emitExperimentTransitionEvent (enabled : bool) (oldStatus newStatus : option ExperimentStatus) :
    option (EventType * string * string) :=
  if negb enabled then None else
  let oldPhase := phase_of oldStatus in
  match newStatus with
  | None => None
  | Some new =>
      let p := exp_Phase new in
      if bool_decide (p = oldPhase) then None
      else if bool_decide (p = ExperimentPhaseRunning)
              && (bool_decide (oldPhase = PhaseUnset) || isTerminalPhase oldPhase)
      then Some (EventTypeNormal, eventReasonExperimentStartProcessed, exp_ID new)
      else if bool_decide (oldPhase = ExperimentPhaseRunning) && bool_decide (p = ExperimentPhasePromoted)
      then Some (EventTypeNormal, eventReasonExperimentPromoted, exp_ID new)
      else if bool_decide (oldPhase = ExperimentPhaseRunning) && bool_decide (p = ExperimentPhaseAborted)
      then Some (EventTypeWarning, eventReasonExperimentAborted, exp_ID new)
      else if bool_decide (p = ExperimentPhaseTerminated)
              && (bool_decide (oldPhase = ExperimentPhaseRunning) || bool_decide (oldPhase = PhaseUnset))
      then if bool_decide (exp_TerminationReason new = ExperimentTerminationReasonTimedOut)
           then Some (EventTypeWarning, eventReasonExperimentTimedOut, exp_ID new)
           else if bool_decide (exp_TerminationReason new = ExperimentTerminationReasonStopped)
           then Some (EventTypeNormal, eventReasonExperimentRolledBack, exp_ID new)
           else None
      else None
  end.
