(* ===== verification/RevisionFacts.v ===== *)
(** * Facts about the scans over the revision list and about client calls.

    The scans of [revision.go] and [experiment.go] (highest revision, most
    recent match, rollback target, previous revision) against what they are
    meant to select, and the frame and no-panic lemmas of the calls the
    reconciler makes, with the hint database [exp] that composes them. *)

From Stdlib Require Import ZArith Ascii Lia.
From stdpp Require Import base gmap strings list.
From S2P Require Import Prelude Cluster Revision Experiment.

(** ** Scans *)

Lemma highestFrom_spec l i acc :
  match highestFrom i l acc with
  | None => acc = None ∧ l = []
  | Some p =>
      (acc = Some p ∨ ∃ k, p.1 = i + k ∧ l !! k = Some p.2) ∧
      (∀ x, x ∈ l → (cr_Revision x ≤ cr_Revision p.2)%Z) ∧
      (∀ a, acc = Some a → (cr_Revision a.2 ≤ cr_Revision p.2)%Z)
  end.
Proof.
  revert i acc; induction l as [|r l IH]; intros i acc; simpl.
  { destruct acc as [p|]; [|done]. split; [by left|]. split; [set_solver|]. by intros a [= ->]. }
  set (acc' := match acc with None => _ | Some _ => _ end).
  specialize (IH (S i) acc'). destruct (highestFrom (S i) l acc') as [p|] eqn:E.
  - destruct IH as (Hp & Hl & Ha).
    assert (Hr : (cr_Revision r ≤ cr_Revision p.2)%Z ∧
                 (∀ a, acc = Some a → cr_Revision a.2 ≤ cr_Revision p.2)%Z).
    { unfold acc' in Ha. destruct acc as [q|].
      - case_bool_decide as Hq; specialize (Ha _ eq_refl); simpl in Ha;
          split; [done| |lia|]; intros ? [= <-]; lia.
      - specialize (Ha _ eq_refl). split; [done|]. done. }
    destruct Hr as [Hr Hacc]. split; [|split; [|done]].
    + destruct Hp as [Hp|(k & Hk & Hlk)].
      * unfold acc' in Hp. destruct acc as [q|]; [case_bool_decide|]; simplify_eq; eauto 10 using Nat.add_0_r.
      * right. exists (S k). split; [lia|done].
    + intros x [->|Hx]%elem_of_cons; [done|]. by apply Hl.
  - destruct IH as [IH _]. unfold acc' in IH. destruct acc; [case_bool_decide|]; done.
Qed.

Lemma highestRevision_Some l p :
  highestRevision l = Some p →
  l !! p.1 = Some p.2 ∧ ∀ x, x ∈ l → (cr_Revision x ≤ cr_Revision p.2)%Z.
Proof.
  unfold highestRevision. intros E. pose proof (highestFrom_spec l 0 None) as Hs. rewrite E in Hs.
  destruct Hs as ([?|(k & Hk & Hlk)] & Hl & _); [done|]. simpl in Hk. by rewrite Hk.
Qed.

Lemma highestRevision_None l : highestRevision l = None ↔ l = [].
Proof.
  unfold highestRevision. pose proof (highestFrom_spec l 0 None) as Hs. split.
  - intros E. rewrite E in Hs. naive_solver.
  - by intros ->.
Qed.

Lemma mostRecentMatchFrom_spec b l i acc :
  match mostRecentMatchFrom i b l acc with
  | None => acc = None ∧ ∀ x, x ∈ l → cr_Raw x ≠ b
  | Some p =>
      (acc = Some p ∨ ∃ k, p.1 = i + k ∧ l !! k = Some p.2 ∧ cr_Raw p.2 = b) ∧
      (∀ x, x ∈ l → cr_Raw x = b → (cr_Revision x ≤ cr_Revision p.2)%Z) ∧
      (∀ a, acc = Some a → (cr_Revision a.2 ≤ cr_Revision p.2)%Z)
  end.
Proof.
  revert i acc; induction l as [|r l IH]; intros i acc; simpl.
  { destruct acc as [p|]; [|set_solver]. split; [by left|]. split; [set_solver|]. by intros a [= ->]. }
  set (acc' := if bool_decide _ then _ else _).
  specialize (IH (S i) acc'). destruct (mostRecentMatchFrom (S i) b l acc') as [p|] eqn:E.
  - destruct IH as (Hp & Hl & Ha).
    assert (Hr : (cr_Raw r = b → cr_Revision r ≤ cr_Revision p.2)%Z ∧
                 (∀ a, acc = Some a → cr_Revision a.2 ≤ cr_Revision p.2)%Z).
    { unfold acc' in Ha. case_bool_decide as Hb; [|by split].
      destruct acc as [q|].
      - case_bool_decide as Hq; specialize (Ha _ eq_refl); simpl in Ha;
          split; [done| |lia|]; intros ? [= <-]; lia.
      - specialize (Ha _ eq_refl). split; done. }
    destruct Hr as [Hr Hacc]. split; [|split; [|done]].
    + destruct Hp as [Hp|(k & Hk & Hlk)].
      * unfold acc' in Hp. case_bool_decide as Hb; [|by left].
        destruct acc as [q|]; [case_bool_decide|]; simplify_eq; [right|by left|right].
        -- exists 0. split; [simpl; lia|done].
        -- exists 0. split; [simpl; lia|done].
      * right. exists (S k). split; [lia|done].
    + intros x [->|Hx]%elem_of_cons; [done|]. by apply Hl.
  - destruct IH as [IH Hl]. unfold acc' in IH. case_bool_decide as Hb.
    + destruct acc; [case_bool_decide|]; done.
    + split; [done|]. intros x [->|Hx]%elem_of_cons; auto.
Qed.

Section Match.
Context {Spec : Type} `{SnapshotCodec Spec}.
Implicit Types instance : DatadogAgent Spec.

(** A match is a listed revision holding the snapshot of the instance, and no
    listed match is more recent. *)
Lemma findMostRecentMatchingRevision_Some l instance p :
  findMostRecentMatchingRevision l instance = Some p →
  ∃ b, buildRevisionSnapshot (dda_Spec instance) (dda_Annotations instance) = inl b ∧
    l !! p.1 = Some p.2 ∧ cr_Raw p.2 = b ∧
    ∀ x, x ∈ l → cr_Raw x = b → (cr_Revision x ≤ cr_Revision p.2)%Z.
Proof.
  unfold findMostRecentMatchingRevision.
  destruct (buildRevisionSnapshot _ _) as [b|e]; [|done]. intros E. exists b. split; [done|].
  pose proof (mostRecentMatchFrom_spec b l 0 None) as Hs. rewrite E in Hs.
  destruct Hs as ([?|(k & Hk & Hlk & Hb)] & Hl & _); [done|]. simpl in Hk. by rewrite Hk.
Qed.

Lemma findMostRecentMatchingRevision_None l instance b :
  buildRevisionSnapshot (dda_Spec instance) (dda_Annotations instance) = inl b →
  findMostRecentMatchingRevision l instance = None ↔ ∀ x, x ∈ l → cr_Raw x ≠ b.
Proof.
  intros Hb. unfold findMostRecentMatchingRevision. rewrite Hb.
  pose proof (mostRecentMatchFrom_spec b l 0 None) as Hs. split.
  - intros E. rewrite E in Hs. by destruct Hs.
  - intros Hl. destruct (mostRecentMatchFrom 0 b l None) as [p|] eqn:E; [|done].
    destruct Hs as ([?|(k & _ & Hlk & Hraw)] & _); [done|].
    exfalso. eapply Hl; [|done]. by eapply list_elem_of_lookup_2.
Qed.
End Match.

(** The two most recent revisions of a list. *)
Definition top_two (l : list ControllerRevision) (hi tgt : ControllerRevision) : Prop :=
  hi ∈ l ∧ tgt ∈ l ∧ (cr_Revision tgt < cr_Revision hi)%Z ∧
  ∀ x, x ∈ l → cr_Revision x = cr_Revision hi ∨ (cr_Revision x ≤ cr_Revision tgt)%Z.

Definition numbered (l : list ControllerRevision) : Prop :=
  NoDup (cr_Revision <$> l) ∧ ∀ x, x ∈ l → (0 ≤ cr_Revision x)%Z.

Lemma numbered_snoc l x : numbered (l ++ [x]) → numbered l.
Proof.
  intros [Hnd Hpos]. rewrite fmap_app in Hnd. apply NoDup_app in Hnd as (? & _ & _).
  split; [done|]. intros y Hy. apply Hpos. set_solver.
Qed.

Lemma numbered_snoc_fresh l x y : numbered (l ++ [x]) → y ∈ l → cr_Revision y ≠ cr_Revision x.
Proof.
  intros [Hnd _] Hy E. rewrite fmap_app in Hnd. apply NoDup_app in Hnd as (_ & Hd & _).
  apply (Hd (cr_Revision y)); [by apply list_elem_of_fmap_2|]. rewrite E. set_solver.
Qed.

Definition scan_init : TargetScan := mkTargetScan ((-1)%Z, "") ((-1)%Z, "").

(** What the fold of [findRollbackTarget] has found after a prefix. *)
Lemma targetScan_spec l :
  numbered l →
  let t := foldl targetStep scan_init l in
  match l with
  | [] => t = scan_init
  | [x] => t = mkTargetScan (cr_Revision x, cr_Name x) ((-1)%Z, "")
  | _ => ∃ hi tgt, top_two l hi tgt ∧
           t = mkTargetScan (cr_Revision hi, cr_Name hi) (cr_Revision tgt, cr_Name tgt)
  end.
Proof.
  induction l as [|x l IH] using rev_ind; intros Hnum; [done|].
  pose proof (numbered_snoc _ _ Hnum) as Hnum'. specialize (IH Hnum'). simpl in IH.
  assert (Hx : (0 ≤ cr_Revision x)%Z) by (apply Hnum; set_solver).
  assert (Hstep : foldl targetStep scan_init (l ++ [x])
                  = targetStep (foldl targetStep scan_init l) x) by (rewrite foldl_app; done).
  destruct l as [|a [|b l']].
  - simpl in *. unfold targetStep; simpl. rewrite bool_decide_true by lia. done.
  - simpl in IH. set (l := [a] ++ [x]) in *. change ([a] ++ [x]) with [a; x] in *. subst l.
    simpl in Hstep. simpl. rewrite IH in *. clear IH Hstep.
    pose proof (numbered_snoc_fresh [a] x a Hnum ltac:(set_solver)) as Hne.
    assert (Ha : (0 ≤ cr_Revision a)%Z) by (apply Hnum; set_solver).
    unfold targetStep; simpl. case_bool_decide as Hc.
    + exists x, a. split; [|done]. repeat split; [set_solver..|lia|].
      intros y. rewrite !elem_of_cons. intros [->|[->|?]]; [lia|lia|set_solver].
    + rewrite bool_decide_true by lia. exists a, x. split; [|done].
      repeat split; [set_solver..|lia|].
      intros y. rewrite !elem_of_cons. intros [->|[->|?]]; [lia|lia|set_solver].
  - remember (a :: b :: l') as l eqn:Hl.
    destruct IH as (hi & tgt & (Hhi & Htgt & Hlt & Hall) & Ht).
    enough (∃ hi tgt, top_two (l ++ [x]) hi tgt ∧ foldl targetStep scan_init (l ++ [x])
              = mkTargetScan (cr_Revision hi, cr_Name hi) (cr_Revision tgt, cr_Name tgt)) as Hgoal.
    { subst l. exact Hgoal. }
    rewrite Hstep, Ht. unfold targetStep; simpl.
    pose proof (numbered_snoc_fresh l x hi Hnum Hhi) as Hne.
    case_bool_decide as Hc; [|case_bool_decide as Hc2].
    + exists x, hi. split; [|done]. repeat split; [set_solver..|lia|].
      intros y [Hy|Hy]%elem_of_app; [destruct (Hall y Hy); lia|]. left. set_solver.
    + exists hi, x. split; [|done]. repeat split; [set_solver..|lia|].
      intros y [Hy|Hy]%elem_of_app; [destruct (Hall y Hy); lia|]. right.
      apply list_elem_of_singleton in Hy. subst. lia.
    + exists hi, tgt. split; [|done]. repeat split; [set_solver..|].
      intros y [Hy|Hy]%elem_of_app; [by apply Hall|]. right.
      apply list_elem_of_singleton in Hy. subst. lia.
Qed.

Lemma findRollbackTarget_top_two l :
  numbered l → 2 ≤ length l →
  ∃ hi tgt, top_two l hi tgt ∧ findRollbackTarget l = cr_Name tgt.
Proof.
  intros Hnum Hlen. pose proof (targetScan_spec l Hnum) as Hs.
  unfold findRollbackTarget. change (mkTargetScan _ _) with scan_init.
  destruct l as [|a [|b l']]; [simpl in Hlen; lia..|].
  destruct Hs as (hi & tgt & Ht & E). exists hi, tgt. split; [done|]. by rewrite E.
Qed.

(** [ensureRevision]'s scan: the match is listed and has the snapshot's bytes;
    the maximum bounds every number and is 0 or attained. *)
Lemma scanRevisions_spec b l i acc mx :
  let r := scanRevisions i b l acc mx in
  (match r.1 with
   | None => acc = None ∧ ∀ x, x ∈ l → cr_Raw x ≠ b
   | Some p => (acc = Some p ∧ ∀ x, x ∈ l → cr_Raw x ≠ b) ∨
               ∃ k, p.1 = i + k ∧ l !! k = Some p.2 ∧ cr_Raw p.2 = b
   end) ∧
  (mx ≤ r.2)%Z ∧ (∀ x, x ∈ l → cr_Revision x ≤ r.2)%Z ∧
  (r.2 = mx ∨ ∃ x, x ∈ l ∧ r.2 = cr_Revision x).
Proof.
  revert i acc mx; induction l as [|x l IH]; intros i acc mx; cbn zeta.
  { simpl. split; [destruct acc; set_solver|]. split; [lia|]. split; [set_solver|by left]. }
  simpl. set (acc' := if bool_decide (cr_Raw x = b) then _ else _).
  set (mx' := if bool_decide (mx < _)%Z then _ else _).
  specialize (IH (S i) acc' mx'). cbn zeta in IH.
  destruct (scanRevisions (S i) b l acc' mx') as [rp rm]; simpl in *.
  destruct IH as (Hp & Hm & Hl & Hw).
  assert (Hmx : (mx ≤ rm ∧ cr_Revision x ≤ rm)%Z).
  { unfold mx' in Hm. case_bool_decide; lia. }
  split; [|split; [lia|split]].
  - destruct rp as [p|].
    + destruct Hp as [[Hp Hn]|(k & Hk & Hlk)].
      * unfold acc' in Hp. case_bool_decide as Hb; simplify_eq.
        -- right. exists 0. split; [simpl; lia|done].
        -- left. split; [done|]. intros y [->|Hy]%elem_of_cons; auto.
      * right. exists (S k). split; [lia|done].
    + destruct Hp as [Hp Hn]. unfold acc' in Hp. case_bool_decide as Hb; [done|].
      split; [done|]. intros y [->|Hy]%elem_of_cons; auto.
  - intros y [->|Hy]%elem_of_cons; [lia|auto].
  - destruct Hw as [Hw|(y & Hy & Hw)]; [|right; exists y; set_solver].
    unfold mx' in Hw. case_bool_decide; [right; exists x; set_solver|by left].
Qed.

Lemma findPrevious_spec cur l acc :
  let r := findPrevious cur l acc in
  (acc.1 ≤ r.1)%Z ∧ (∀ x, x ∈ l → cr_Name x ≠ cur → cr_Revision x ≤ r.1)%Z ∧
  (r = acc ∨ ∃ x, x ∈ l ∧ cr_Name x ≠ cur ∧ r = (cr_Revision x, cr_Name x)).
Proof.
  revert acc; induction l as [|x l IH]; intros acc; cbn zeta.
  { simpl. split; [lia|]. split; [set_solver|by left]. }
  simpl. set (acc' := if bool_decide _ then acc else _).
  specialize (IH acc'). cbn zeta in IH. destruct (findPrevious cur l acc') as [rm rn]; simpl in *.
  destruct IH as (Hm & Hl & Hw).
  assert (Hacc : (acc.1 ≤ acc'.1)%Z ∧ (cr_Name x ≠ cur → cr_Revision x ≤ acc'.1)%Z ∧
                 (acc' = acc ∨ cr_Name x ≠ cur ∧ acc' = (cr_Revision x, cr_Name x))).
  { unfold acc'. repeat case_bool_decide; simpl; repeat split; try lia; tauto. }
  destruct Hacc as (Ha & Hx & Hc). split; [lia|split].
  - intros y [->|Hy]%elem_of_cons ?; [specialize (Hx ltac:(done)); lia|auto].
  - destruct Hw as [Hw|(y & Hy & Hw)]; [|right; exists y; set_solver].
    destruct Hc as [->|[Hne ->]]; [by left|]. right. exists x. set_solver.
Qed.

(** ** Calls that leave [newStatus.Experiment] alone and do not panic *)

Section Quiet.
Context {W Spec : Type} `{SoundClient W Spec} `{SnapshotCodec Spec}.
Implicit Types instance : DatadogAgent Spec.

Definition quiet {A : Type} (m : GoM (ReconcileState W) A) : Prop :=
  ∀ s, st_newExp (m s).1 = st_newExp s ∧ (m s).2 ≠ Panic.

Lemma quiet_ret {A} (a : A) : quiet (mret a).
Proof. by intros s. Qed.
Lemma quiet_fail {A} e : quiet (fail e : GoM _ A).
Proof. by intros s. Qed.
Lemma quiet_gets {A} (f : ReconcileState W → A) : quiet (gets f).
Proof. by intros s. Qed.

Lemma quiet_bind {A B} (m : GoM (ReconcileState W) A) (f : A → GoM (ReconcileState W) B) :
  quiet m → (∀ a, quiet (f a)) → quiet (m ≫= f).
Proof.
  intros Hm Hf s. unfold mbind, GoM_bind. destruct (Hm s) as [He Hp].
  destruct (m s) as [s' [a|e|]]; simpl in *; [|done..].
  destruct (Hf a s') as [He' Hp']. by rewrite He'.
Qed.

Lemma quiet_attempt {A} (m : GoM (ReconcileState W) A) : quiet m → quiet (attempt m).
Proof. intros Hm s. specialize (Hm s). unfold attempt. destruct (m s) as [s' [a|e|]]; simpl in *; naive_solver. Qed.

Lemma quiet_wrap {A} msg (m : GoM (ReconcileState W) A) : quiet m → quiet (wrap msg m).
Proof. intros Hm s. specialize (Hm s). unfold wrap. destruct (m s) as [s' [a|e|]]; simpl in *; naive_solver. Qed.

Lemma quiet_when b (m : GoM (ReconcileState W) unit) : quiet m → quiet (when b m).
Proof. destruct b; [done|]. intros _. apply quiet_ret. Qed.

Lemma quiet_call {A} (post : Cluster Spec → Cluster Spec → A → Prop) (m : GoM W A) :
  sound_call view post m → quiet (call m).
Proof.
  intros Hm s. specialize (Hm (st_world s)). unfold call.
  by destruct (m (st_world s)) as [w' [a|e|]].
Qed.

Lemma quiet_modify_revs (f : ReconcileState W → list ControllerRevision) :
  quiet (modify (λ s, set_st_revs (f s) s)).
Proof. by intros s. Qed.
Lemma quiet_modify_rv rv : quiet (modify (set_instRV (W := W) rv)).
Proof. by intros s. Qed.
End Quiet.

Create HintDb exp discriminated.
#[export] Hint Resolve quiet_ret quiet_fail quiet_gets quiet_bind quiet_attempt quiet_wrap quiet_when
  quiet_modify_revs quiet_modify_rv : exp.
#[export] Hint Extern 5 (quiet (call _)) => (eapply quiet_call; solve
  [ apply sound_GetRevision | apply sound_PatchRevision | apply sound_CreateRevision
  | apply sound_DeleteRevision | apply sound_GetDDA | apply sound_UpdateDDA | apply sound_JSONPatchDDA ]) : exp.

(** Follow the structure of a call: binds, and every test it makes. *)
Ltac quiet_step :=
  lazymatch goal with
  | |- quiet (let _ := _ in _) => cbv zeta
  | |- quiet (when _ _) => apply quiet_when
  | |- quiet (mbind _ _) => apply quiet_bind; [|intros ?]
  | |- quiet (match ?x with _ => _ end) => destruct x
  | |- quiet (if ?x then _ else _) => destruct x
  | |- _ => solve [eauto with exp nocore]
  end.
Ltac quiet := repeat quiet_step.

Section QuietOps.
Context {W Spec : Type} `{SoundClient W Spec} `{SnapshotCodec Spec}.
Implicit Types instance : DatadogAgent Spec.

Lemma quiet_patch_through rev p : quiet (patch_through rev p : GoM (ReconcileState W) unit).
Proof. unfold patch_through. quiet. Qed.
#[local] Hint Resolve quiet_patch_through : exp.

Lemma quiet_markRevisionState rev state : quiet (markRevisionState rev state : GoM (ReconcileState W) unit).
Proof. unfold markRevisionState. quiet. Qed.
#[local] Hint Resolve quiet_markRevisionState : exp.

Lemma quiet_markHighest state : quiet (markHighest state : GoM (ReconcileState W) unit).
Proof. unfold markHighest. quiet. Qed.

Lemma quiet_rollback instance target : quiet (rollback instance target : GoM (ReconcileState W) unit).
Proof. unfold rollback. quiet. Qed.

Lemma quiet_clearBestEffort instance i : quiet (clearBestEffort instance i : GoM (ReconcileState W) unit).
Proof. unfold clearBestEffort, clearExperimentAnnotations. quiet. Qed.

End QuietOps.

#[export] Hint Resolve quiet_patch_through quiet_markRevisionState quiet_markHighest quiet_rollback
  quiet_clearBestEffort : exp.

(** ** Best-effort calls: they always return *)

Section BestEffort.
Context {W Spec : Type} `{SoundClient W Spec} `{SnapshotCodec Spec}.
Implicit Types instance : DatadogAgent Spec.

Definition returns (m : GoM (ReconcileState W) unit) : Prop := ∀ s, (m s).2 = Ret tt.

Lemma returns_ignored {A} (m : GoM (ReconcileState W) A) : quiet m → returns (_ ← attempt m; mret tt).
Proof.
  intros Hm s. destruct (Hm s) as [_ Hp]. unfold attempt, mbind, GoM_bind.
  by destruct (m s) as [s' [a|e|]].
Qed.

Lemma returns_markRevisionState rev state : returns (markRevisionState rev state).
Proof.
  unfold markRevisionState. case_bool_decide; [by intros s|]. apply returns_ignored. eauto with exp.
Qed.

Lemma returns_markHighest state : returns (markHighest state).
Proof.
  intros s. unfold markHighest, mbind at 1, GoM_bind at 1, gets.
  destruct (highestRevision (st_revs s)); [apply returns_markRevisionState|done].
Qed.

Lemma returns_clearBestEffort instance i : returns (clearBestEffort instance i).
Proof. apply returns_ignored. unfold clearExperimentAnnotations. eauto with exp. Qed.
End BestEffort.

#[export] Hint Resolve returns_markRevisionState returns_markHighest returns_clearBestEffort : exp.
