(* ===== verification/Testbed.v ===== *)
(** * Concrete instances the witnesses run on.

    A codec for snapshots of a DatadogAgent whose spec is a string, with its
    laws, and sample objects.  With [mem_client] of [Cluster.v] they show that
    the interfaces [SnapshotCodecLaws] and [SoundClient] can be met. *)

From Stdlib Require Import ZArith Ascii.
From stdpp Require Import base gmap strings list.
From S2P Require Import Prelude Cluster Revision.

(** A string as marked characters ended by a semicolon. *)
Fixpoint enc (s : string) : string :=
  match s with
  | EmptyString => ";"
  | String a s => String "."%char (String a (enc s))
  end.

Fixpoint dec_all (cur : string → string) (s : string) : option (list string) :=
  match s with
  | EmptyString => Some []
  | String ";"%char s => l ← dec_all id s; Some (cur "" :: l)
  | String "."%char (String a s) => dec_all (λ t, cur (String a t)) s
  | String _ _ => None
  end.

Definition enc_all (l : list string) : string := foldr (λ s t, enc s +:+ t) "" l.

Lemma dec_all_enc s t cur :
  dec_all cur (enc s +:+ t) = l ← dec_all id t; Some (cur s :: l).
Proof.
  revert cur; induction s as [|a s IH]; intros cur; [done|].
  change (enc (String a s) +:+ t) with (String "."%char (String a (enc s +:+ t))).
  simpl. by rewrite IH.
Qed.

Lemma dec_enc_all l : dec_all id (enc_all l) = Some l.
Proof. induction l as [|s l IH]; [done|]. simpl. rewrite dec_all_enc, IH. done. Qed.

Fixpoint flatten (l : list (string * string)) : list string :=
  match l with
  | [] => []
  | (k, v) :: l => k :: v :: flatten l
  end.

Fixpoint unflatten (l : list string) : list (string * string) :=
  match l with
  | k :: v :: l => (k, v) :: unflatten l
  | _ => []
  end.

Lemma unflatten_flatten l : unflatten (flatten l) = l.
Proof. induction l as [|[k v] l IH]; simpl; congruence. Qed.

#[export] Instance test_codec : SnapshotCodec string := {|
  json_Marshal s := inl (enc_all (snap_Spec s :: flatten (map_to_list (snap_Annotations s))));
  json_Unmarshal b :=
    match dec_all id b with
    | Some (spec :: kvs) => inl (mkSnapshot spec (list_to_map (unflatten kvs)))
    | _ => inr (Errorf "invalid snapshot")
    end
|}.

#[export] Instance test_codec_laws : SnapshotCodecLaws string.
Proof.
  split. intros [spec ann] b Hb. exists (mkSnapshot spec ann). split; [|done].
  assert (b = enc_all (spec :: flatten (map_to_list ann))) as -> by (by injection Hb).
  unfold json_Unmarshal, test_codec.
  by rewrite dec_enc_all, unflatten_flatten, list_to_map_to_list.
Qed.

(** The bytes of the snapshot of a spec with no Datadog annotations. *)
Definition snap_bytes (spec : string) : string := enc_all [spec].

Definition test_gvk : GroupVersionKind := mkGVK "datadoghq.com/v2alpha1" "DatadogAgent".

Definition test_rev (name spec : string) (n : Z) : ControllerRevision :=
  mkControllerRevision "ns" name {["agent.datadoghq.com/datadogagent" := "dda"]} ∅
    [NewControllerRef "dda" "uid" test_gvk] (snap_bytes spec) n.

Definition baseline : ControllerRevision := test_rev "dda-1" "baseline" 1.
Definition candidateRev : ControllerRevision := test_rev "dda-2" "candidate" 2.

Definition test_dda (spec : string) (ann : gmap string string) (e : option ExperimentStatus) : DatadogAgent string :=
  mkDatadogAgent "ns" "dda" "uid" "rv" ∅ ann spec e.

Definition test_running (startedAt : Time) : ExperimentStatus :=
  mkExperimentStatus ExperimentPhaseRunning "exp-1" (Some startedAt) "task-1" "".

(** A cluster with both revisions and one DatadogAgent. *)
Definition test_cluster (d : DatadogAgent string) : Cluster string :=
  mkCluster {[cr_key baseline := baseline; cr_key candidateRev := candidateRev]} {[dda_key d := d]}.

Definition test_state (d : DatadogAgent string) : ReconcileState (Cluster string) :=
  mkRState (test_cluster d) [baseline; candidateRev] (dda_Experiment d) (dda_ResourceVersion d).

Definition test_signal (signal id : string) : gmap string string :=
  {[AnnotationExperimentSignal := signal; AnnotationExperimentID := id]}.
