(* ===== verification/ExperimentProofs.v ===== *)
(** * The experiment state machine.

    [exp_step] is the abstract specification of what one reconcile may do to
    [status.experiment]; [manageExperiment] refines it for every sound client,
    whatever calls fail.  The properties of the machine (a running experiment
    keeps its identity, a terminal phase only leaves by a start of another
    experiment) are then invariants of [exp_step], and the timeout, abort and
    clearing behaviours are stated on the handler itself. *)

From Stdlib Require Import ZArith Lia.
From stdpp Require Import base gmap strings list.
From S2P Require Import Prelude Cluster Revision Experiment RevisionFacts.

(** ** Abstract specification *)

Definition terminated (reason : string) (e : ExperimentStatus) : ExperimentStatus :=
  set_TerminationReason reason (set_Phase ExperimentPhaseTerminated e).

Inductive exp_step : option ExperimentStatus → option ExperimentStatus → Prop :=
  | step_stay e : exp_step e e
  | step_start e id now task :
      id ≠ "" → id ≠ id_of e → phase_of e ≠ ExperimentPhaseRunning →
      exp_step e (Some (mkExperimentStatus ExperimentPhaseRunning id (Some now) task ""))
  | step_terminate e reason :
      exp_Phase e = ExperimentPhaseRunning →
      reason = ExperimentTerminationReasonStopped ∨ reason = ExperimentTerminationReasonTimedOut →
      exp_step (Some e) (Some (terminated reason e))
  | step_promote e :
      exp_Phase e = ExperimentPhaseRunning →
      exp_step (Some e) (Some (set_Phase ExperimentPhasePromoted e))
  | step_abort e :
      exp_Phase e = ExperimentPhaseRunning →
      exp_step (Some e) (Some (set_Phase ExperimentPhaseAborted e))
  (* a rollback signal with no phase recorded: the lost start is rolled back,
     or its restore failed and is retried *)
  | step_recover e id :
      id ≠ "" → phase_of e = PhaseUnset →
      exp_step e (Some (terminated ExperimentTerminationReasonStopped (mkExperimentStatus PhaseUnset id None "" "")))
  | step_recover_failed e id :
      id ≠ "" → phase_of e = PhaseUnset →
      exp_step e (Some (mkExperimentStatus PhaseUnset id None "" "")).

Create HintDb expstep discriminated.
#[export] Hint Constructors exp_step : expstep.

(** ** Triples on [newStatus.Experiment] *)

Section Triple.
Context {W : Type}.

(** Started where [P] holds of [newStatus.Experiment], the call does not panic
    and ends where [Q] holds of it and of the outcome. *)
Definition triple {A : Type} (P : option ExperimentStatus → Prop) (m : GoM (ReconcileState W) A)
    (Q : option ExperimentStatus → outcome A → Prop) : Prop :=
  ∀ s, P (st_newExp s) → (m s).2 ≠ Panic ∧ Q (st_newExp (m s).1) (m s).2.

Lemma triple_quiet {A} P (m : GoM (ReconcileState W) A) (Q : _ → outcome A → Prop) :
  quiet m → (∀ e o, P e → Q e o) → triple P m Q.
Proof. intros Hm HQ s Hs. destruct (Hm s) as [He Hp]. split; [done|]. rewrite He. auto. Qed.

Lemma triple_bind {A B} P Q R (m : GoM (ReconcileState W) A) (f : A → GoM (ReconcileState W) B) :
  triple P m Q →
  (∀ e er, Q e (Fail er) → R e (Fail er)) →
  (∀ a, triple (λ e, Q e (Ret a)) (f a) R) →
  triple P (m ≫= f) R.
Proof.
  intros Hm Hfail Hf s Hs. destruct (Hm s Hs) as [Hp HQ]. unfold mbind, GoM_bind.
  destruct (m s) as [s' [a|er|]]; simpl in *; [|split; [done|by apply Hfail]|done].
  by apply Hf.
Qed.

Lemma triple_bind_quiet {A B} P R (m : GoM (ReconcileState W) A) (f : A → GoM (ReconcileState W) B) :
  quiet m → (∀ e er, P e → R e (Fail er)) → (∀ a, triple P (f a) R) → triple P (m ≫= f) R.
Proof. intros Hm HR Hf. eapply (triple_bind P (λ e _, P e)); [by apply triple_quiet|done|done]. Qed.

Lemma triple_ret {A} (P : _ → Prop) (a : A) (Q : _ → outcome A → Prop) :
  (∀ e, P e → Q e (Ret a)) → triple P (mret a) Q.
Proof. intros H s Hs. split; [done|]. by apply H. Qed.

Lemma triple_pre {A} (P P' : _ → Prop) (m : GoM (ReconcileState W) A) Q :
  (∀ e, P e → P' e) → triple P' m Q → triple P m Q.
Proof. intros HP Hm s Hs. apply Hm. auto. Qed.

Lemma triple_conseq {A} P (m : GoM (ReconcileState W) A) (Q Q' : _ → outcome A → Prop) :
  triple P m Q → (∀ e o, Q e o → Q' e o) → triple P m Q'.
Proof. intros Hm HQ s Hs. destruct (Hm s Hs). auto. Qed.

Lemma triple_cases {A} (P : _ → Prop) (m : GoM (ReconcileState W) A) Q :
  (∀ e, P e → triple (λ e', e' = e) m Q) → triple P m Q.
Proof. intros Hm s Hs. by apply (Hm (st_newExp s)). Qed.

Lemma triple_get {B} (P : _ → Prop) (f : option ExperimentStatus → GoM (ReconcileState W) B) R :
  (∀ e, P e → triple (λ e', e' = e) (f e) R) → triple P (gets st_newExp ≫= f) R.
Proof. intros Hf s Hs. unfold mbind, GoM_bind, gets. by apply (Hf (st_newExp s)). Qed.

Lemma triple_set (P : _ → Prop) e (Q : _ → outcome unit → Prop) :
  Q e (Ret tt) → triple P (modify (set_newExp (W := W) e)) Q.
Proof. intros HQ s Hs. done. Qed.

(** Reading [revisions] does not change the experiment. *)
Lemma triple_revs {B} P (f : list ControllerRevision → GoM (ReconcileState W) B) R :
  (∀ l, triple P (f l) R) → triple P (gets st_revs ≫= f) R.
Proof. intros Hf s Hs. unfold mbind, GoM_bind, gets. by apply Hf. Qed.

(** A best-effort call changes nothing and returns. *)
Lemma triple_best_effort P (m : GoM (ReconcileState W) unit) (Q : _ → outcome unit → Prop) :
  quiet m → returns m → (∀ e, P e → Q e (Ret tt)) → triple P m Q.
Proof. intros Hm Hr HQ s Hs. destruct (Hm s) as [He Hp]. split; [done|]. rewrite He, (Hr s). auto. Qed.

Lemma triple_update_then {B} f e (k : unit → GoM (ReconcileState W) B) R :
  triple (λ e', e' = Some (f e)) (k tt) R →
  triple (λ e', e' = Some e) (update_newExp (W := W) f ≫= k) R.
Proof.
  intros Hk s Hs. unfold mbind at 1, GoM_bind at 1, update_newExp, mbind, GoM_bind, gets.
  rewrite Hs. simpl. by apply Hk.
Qed.

Lemma triple_best_effort_then {B} P (m : GoM (ReconcileState W) unit) (k : unit → GoM (ReconcileState W) B) R :
  quiet m → returns m → triple P (k tt) R → triple P (m ≫= k) R.
Proof.
  intros Hm Hr Hk. eapply (triple_bind P (λ e o, P e ∧ o = Ret tt)).
  - by apply triple_best_effort.
  - naive_solver.
  - intros []. eapply triple_pre; [|done]. naive_solver.
Qed.
End Triple.

Section Proofs.
Context {W Spec : Type} `{SoundClient W Spec} `{SnapshotCodec Spec}.
Context (ExperimentTimeout : Duration).
Implicit Types instance : DatadogAgent Spec.
Abbreviation M := (GoM (ReconcileState W)).

(** Restoring either terminates the experiment with the reason or fails and
    leaves it as it was. *)
Lemma triple_restore instance reason e :
  triple (λ e', e' = Some e) (restorePreviousSpec instance reason : M unit)
    (λ e' o, e' = match o with Ret _ => Some (terminated reason e) | _ => Some e end).
Proof.
  unfold restorePreviousSpec. apply triple_revs; intros l.
  apply triple_bind_quiet; [eauto with exp|done|intros _].
  apply triple_update_then, triple_update_then, triple_revs. intros l'.
  destruct (highestRevision l') as [rev|]; [case_bool_decide|];
    [by apply triple_ret| |by apply triple_ret].
  apply triple_best_effort; eauto with exp.
Qed.

Lemma triple_abortNow e :
  triple (λ e', e' = Some e) (abortNow : M unit)
    (λ e' o, e' = Some (set_Phase ExperimentPhaseAborted e) ∧ o = Ret tt).
Proof. unfold abortNow. apply triple_update_then, triple_best_effort; eauto with exp. Qed.

(** The signal handlers, from [newStatus.Experiment = old]. *)
Lemma triple_start annotationID old now task :
  annotationID ≠ "" →
  triple (λ e, e = old)
    (processStartSignal annotationID (phase_of old) (id_of old) now task : M bool)
    (λ e o, exp_step old e ∧ o = Ret true).
Proof.
  intros Hid. unfold processStartSignal.
  case_bool_decide; [apply triple_ret; intros ? ->; eauto with expstep|].
  case_bool_decide; [apply triple_ret; intros ? ->; eauto with expstep|].
  intros s Hs. split; [done|]. simpl. split; [|done]. by apply step_start.
Qed.

Lemma triple_rollback instance annotationID old :
  annotationID ≠ "" →
  triple (λ e, e = old) (processRollbackSignal instance annotationID (phase_of old) : M bool)
    (λ e _, exp_step old e).
Proof.
  intros Hid. unfold processRollbackSignal.
  destruct (isTerminalPhase _); [apply triple_ret; intros ? ->; eauto with expstep|].
  apply triple_revs; intros l. case_bool_decide as Hrun.
  - destruct old as [e|]; [|done]. simpl in Hrun. destruct (specManuallyChanged l instance).
    + eapply triple_bind; [apply triple_abortNow|naive_solver|].
      intros []. apply triple_ret. intros ? [-> _]. eauto with expstep.
    + eapply triple_bind; [apply triple_restore| |].
      * intros ? er ->. eauto with expstep.
      * intros []. apply triple_ret. intros ? ->. eauto with expstep.
  - case_bool_decide as Hun; [|apply triple_ret; intros ? ->; eauto with expstep].
    case_bool_decide; [|apply triple_ret; intros ? ->; eauto with expstep].
    destruct (findMostRecentMatchingRevision l instance) as [m|];
      [|apply triple_ret; intros ? ->; eauto with expstep].
    destruct (highestRevision l) as [h|] eqn:Eh;
      [|apply highestRevision_None in Eh; subst; simpl in *; lia].
    case_bool_decide; [|apply triple_ret; intros ? ->; eauto with expstep].
    eapply (triple_bind _ (λ e' o, e' = Some (mkExperimentStatus PhaseUnset annotationID None "" "") ∧ o = Ret tt));
      [by apply triple_set|naive_solver|intros []].
    apply (triple_pre _ (λ e', e' = Some (mkExperimentStatus PhaseUnset annotationID None "" ""))); [naive_solver|].
    eapply triple_bind; [apply triple_restore| |].
    + intros ? er ->. by apply step_recover_failed.
    + intros []. apply triple_ret. intros ? ->. by apply step_recover.
Qed.

Lemma triple_promote instance old :
  triple (λ e, e = old) (processPromoteSignal instance (phase_of old) : M bool)
    (λ e o, exp_step old e ∧ o = Ret true).
Proof.
  unfold processPromoteSignal.
  destruct (isTerminalPhase _); [apply triple_ret; intros ? ->; eauto with expstep|].
  case_bool_decide as Hrun; [|apply triple_ret; intros ? ->; eauto with expstep]. simpl.
  apply triple_revs; intros l. destruct old as [e|]; [|done]. simpl in Hrun.
  destruct (specManuallyChanged l instance).
  - eapply triple_bind; [apply triple_abortNow|naive_solver|].
    intros []. apply triple_ret. intros ? [-> _]. eauto with expstep.
  - apply triple_update_then, triple_ret. intros ? ->. eauto with expstep.
Qed.

Lemma triple_signal instance now :
  triple (λ e, e = dda_Experiment instance) (processExperimentSignal instance now : M string)
    (λ e _, exp_step (dda_Experiment instance) e).
Proof.
  unfold processExperimentSignal. case_bool_decide; simpl.
  { apply triple_ret. intros ? ->. eauto with expstep. }
  case_bool_decide as Hid; [apply triple_ret; intros ? ->; eauto with expstep|].
  eapply (triple_bind _ (λ e _, exp_step (dda_Experiment instance) e)); [|done|].
  - case_bool_decide; [eapply triple_conseq; [by apply triple_start|naive_solver]|].
    case_bool_decide; [by apply triple_rollback|].
    case_bool_decide; [eapply triple_conseq; [apply triple_promote|naive_solver]|].
    apply triple_ret. intros ? ->. eauto with expstep.
  - intros b. by apply triple_ret.
Qed.

(** The timeout and abort stages act only on an experiment still running. *)
Lemma triple_handleRollback_skip instance now e0 :
  dda_Experiment instance = Some e0 →
  triple (λ e, exp_step (Some e0) e ∧ ∃ e1, e = Some e1 ∧
                 (exp_Phase e1 ≠ exp_Phase e0 ∨ exp_Phase e0 ≠ ExperimentPhaseRunning))
    (handleRollback ExperimentTimeout instance now : M unit)
    (λ e _, exp_step (Some e0) e ∧ ∃ e1, e = Some e1 ∧
              (exp_Phase e1 ≠ exp_Phase e0 ∨ exp_Phase e0 ≠ ExperimentPhaseRunning)).
Proof.
  intros He0. unfold handleRollback. rewrite He0.
  apply triple_get. intros e (Hstep & e1 & -> & Hne).
  case_bool_decide; simpl; [|apply triple_ret; naive_solver].
  case_bool_decide; simpl; [|apply triple_ret; naive_solver]. naive_solver.
Qed.

Lemma triple_handleRollback_running instance now e0 :
  dda_Experiment instance = Some e0 → exp_Phase e0 = ExperimentPhaseRunning →
  triple (λ e, e = Some e0) (handleRollback ExperimentTimeout instance now : M unit)
    (λ e o, e = Some e0 ∨ e = Some (terminated ExperimentTerminationReasonTimedOut e0)).
Proof.
  intros He0 Hrun. unfold handleRollback. rewrite He0.
  apply triple_get. intros e ->. rewrite bool_decide_true by done. simpl.
  rewrite bool_decide_true by done. simpl. apply triple_revs; intros l.
  assert (Htimeout : ∀ rev : option RevPtr, triple (λ e, e = Some e0)
    (match rev, exp_StartedAt e0 with
     | Some _, Some startedAt =>
         if bool_decide (getExperimentTimeout ExperimentTimeout ≤ Time_Sub now startedAt)%Z
         then restorePreviousSpec instance ExperimentTerminationReasonTimedOut else mret tt
     | _, _ => mret tt
     end : M unit)
    (λ e _, e = Some e0 ∨ e = Some (terminated ExperimentTerminationReasonTimedOut e0))).
  { intros rev. destruct rev; [|apply triple_ret; auto].
    destruct (exp_StartedAt e0); [|apply triple_ret; auto].
    case_bool_decide; [|apply triple_ret; auto].
    eapply triple_conseq; [apply triple_restore|]. intros e [a|er|] ->; auto. }
  destruct (specManuallyChanged l instance); [|apply Htimeout].
  destruct (negb _); [apply triple_ret; auto|].
  destruct (highestRevision l); [apply triple_ret; auto|apply (Htimeout None)].
Qed.

Lemma triple_abortExperiment instance e0 e1 :
  (exp_Phase e0 = ExperimentPhaseRunning → exp_Phase e1 = ExperimentPhaseRunning → e1 = e0) →
  triple (λ e, e = Some e1) (abortExperiment instance e0 : M unit)
    (λ e o, o = Ret tt ∧ (e = Some e1 ∨
       exp_Phase e0 = ExperimentPhaseRunning ∧ e1 = e0 ∧ e = Some (set_Phase ExperimentPhaseAborted e0))).
Proof.
  intros He. unfold abortExperiment.
  case_bool_decide; simpl; [|apply triple_ret; auto].
  apply triple_get. intros e ->.
  case_bool_decide; simpl; [|apply triple_ret; naive_solver].
  apply triple_revs. intros l. repeat (case_bool_decide; simpl; try (apply triple_ret; naive_solver)).
  eapply triple_conseq; [apply triple_abortNow|]. specialize (He ltac:(done) ltac:(done)). subst. naive_solver.
Qed.

(** From any experiment reached by the signal and timeout stages. *)
Lemma triple_finish instance (e0 : ExperimentStatus) pendingClearID oldPhase oldID :
  triple (λ e, exp_step (Some e0) e ∧ ∃ e1, e = Some e1 ∧
            (exp_Phase e0 = ExperimentPhaseRunning → exp_Phase e1 = ExperimentPhaseRunning → e1 = e0))
    ((_ ← when (bool_decide (exp_Phase e0 = ExperimentPhasePromoted)) (markHighest experimentRevisionStatePromoted);
      _ ← abortExperiment instance e0;
      new ← gets st_newExp;
      when (negb (bool_decide (pendingClearID = "")) &&
            bool_decide (phase_of new = oldPhase) && bool_decide (id_of new = oldID))
        (clearBestEffort instance pendingClearID)) : M unit)
    (λ e _, exp_step (Some e0) e).
Proof.
  apply triple_best_effort_then.
  { eauto with exp. }
  { destruct (bool_decide _); [apply returns_markHighest|by intros s]. }
  apply triple_cases. intros ? (Hstep & e1 & -> & Hrun).
  eapply triple_bind; [by apply triple_abortExperiment|naive_solver|].
  intros []. apply (triple_pre _ (λ e, exp_step (Some e0) e)).
  - intros e [_ [->|(? & -> & ->)]]; eauto with expstep.
  - apply triple_get. intros e He. apply triple_quiet; [eauto with exp|]. by intros ? ? ->.
Qed.

Lemma triple_manageExperiment instance now :
  triple (λ e, e = dda_Experiment instance) (manageExperiment ExperimentTimeout instance now : M unit)
    (λ e _, exp_step (dda_Experiment instance) e).
Proof.
  unfold manageExperiment. apply triple_get. intros old ->.
  eapply triple_bind; [apply triple_signal|done|]. intros pendingClearID.
  destruct (dda_Experiment instance) as [e0|] eqn:He0.
  2:{ apply triple_get. intros e He. apply triple_quiet; [eauto with exp|]. by intros ? ? ->. }
  apply triple_cases. intros e Hs. assert (Hsome : ∃ e1, e = Some e1).
  { inversion Hs; subst; eauto. }
  destruct Hsome as [e1 ->].
  destruct (decide (exp_Phase e0 = ExperimentPhaseRunning ∧ e1 = e0)) as [[Hrun ->]|Hne].
  - eapply triple_bind; [by apply triple_handleRollback_running| |].
    + intros e er [->|Ht]; rewrite ?Ht; eauto with expstep.
    + intros []. eapply triple_pre; [|apply (triple_finish instance e0 pendingClearID (phase_of (Some e0)) (id_of (Some e0)))].
      intros e [->|Ht]; [split; eauto with expstep|]. subst e. split; [eauto with expstep|].
      eexists. split; [done|]. done.
  - assert (Hskip : exp_Phase e1 ≠ exp_Phase e0 ∨ exp_Phase e0 ≠ ExperimentPhaseRunning).
    { destruct (decide (exp_Phase e0 = ExperimentPhaseRunning)) as [Hr|Hr]; [left|by right].
      inversion Hs; subst; simpl in *; solve [congruence | exfalso; by apply Hne]. }
    eapply triple_bind; [eapply triple_pre; [|by apply triple_handleRollback_skip]|naive_solver|].
    { intros ? ->. eauto. }
    intros []. eapply triple_pre; [|apply (triple_finish instance e0 pendingClearID (phase_of (Some e0)) (id_of (Some e0)))].
    intros e (? & e2 & -> & [?|?]); (split; [done|]); exists e2; split; congruence.
Qed.

(** ** The handler on its branches *)

Definition no_signal instance : Prop :=
  get_key (dda_Annotations instance) AnnotationExperimentSignal = "" ∨
  get_key (dda_Annotations instance) AnnotationExperimentID = "".

Lemma signal_none instance now (s : ReconcileState W) :
  no_signal instance → processExperimentSignal instance now s = (s, Ret "").
Proof.
  intros Hno. unfold processExperimentSignal. rewrite <-bool_decide_or.
  by rewrite bool_decide_true.
Qed.

(** The stages after the signal and the timeout. *)
Definition finishCycle instance (e0 : ExperimentStatus) (pendingClearID : string)
    (oldPhase : ExperimentPhase) (oldID : string) : M unit :=
  _ ← when (bool_decide (exp_Phase e0 = ExperimentPhasePromoted)) (markHighest experimentRevisionStatePromoted);
  _ ← abortExperiment instance e0;
  new ← gets st_newExp;
  when (negb (bool_decide (pendingClearID = "")) &&
        bool_decide (phase_of new = oldPhase) && bool_decide (id_of new = oldID))
    (clearBestEffort instance pendingClearID).

Lemma manage_no_signal instance now e (s : ReconcileState W) :
  no_signal instance → dda_Experiment instance = Some e →
  manageExperiment ExperimentTimeout instance now s =
  (_ ← handleRollback ExperimentTimeout instance now;
   finishCycle instance e "" (phase_of (st_newExp s)) (id_of (st_newExp s))) s.
Proof.
  intros Hno He. unfold manageExperiment, mbind at 1, GoM_bind at 1, gets at 1.
  unfold mbind at 1, GoM_bind at 1. rewrite signal_none by done. by rewrite He.
Qed.

(** A running experiment whose spec is a known revision. *)
Lemma handleRollback_running instance now e (s : ReconcileState W) :
  dda_Experiment instance = Some e → st_newExp s = Some e → exp_Phase e = ExperimentPhaseRunning →
  handleRollback ExperimentTimeout instance now s =
  if specManuallyChanged (st_revs s) instance then (s, Ret tt)
  else match findMostRecentMatchingRevision (st_revs s) instance, exp_StartedAt e with
       | Some _, Some t0 =>
           if bool_decide (getExperimentTimeout ExperimentTimeout ≤ Time_Sub now t0)%Z
           then restorePreviousSpec instance ExperimentTerminationReasonTimedOut s else (s, Ret tt)
       | _, _ => (s, Ret tt)
       end.
Proof.
  intros He Hs Hrun. unfold handleRollback. rewrite He.
  unfold mbind at 1, GoM_bind at 1, gets at 1. rewrite Hs, bool_decide_true by done. simpl.
  rewrite bool_decide_true by done. simpl. unfold mbind at 1, GoM_bind at 1, gets at 1.
  destruct (specManuallyChanged (st_revs s) instance).
  - destruct (negb _); [done|]. by destruct (highestRevision (st_revs s)).
  - destruct (findMostRecentMatchingRevision _ _); [|done]. destruct (exp_StartedAt e); [|done].
    by case_bool_decide.
Qed.

(** Without an annotation to clear, the last stages only abort. *)
Lemma finishCycle_settled instance e e1 oldPhase oldID :
  exp_Phase e = ExperimentPhaseRunning → exp_Phase e1 ≠ ExperimentPhaseRunning →
  triple (λ e', e' = Some e1) (finishCycle instance e "" oldPhase oldID) (λ e' o, e' = Some e1 ∧ o = Ret tt).
Proof.
  intros Hrun Hne. unfold finishCycle. rewrite (bool_decide_false (exp_Phase e = ExperimentPhasePromoted)) by congruence.
  eapply (triple_bind _ (λ e' o, e' = Some e1 ∧ o = Ret tt)); [by apply triple_ret|naive_solver|intros []].
  eapply (triple_pre _ (λ e', e' = Some e1)); [naive_solver|].
  eapply triple_bind; [apply (triple_abortExperiment instance e e1); by intros _ ?|naive_solver|intros []].
  apply triple_get. intros e' [_ [->|(_ & -> & ->)]]; [|done]. apply triple_ret. by intros ? ->.
Qed.

Lemma abortExperiment_running instance e (s : ReconcileState W) :
  exp_Phase e = ExperimentPhaseRunning → st_newExp s = Some e →
  abortExperiment instance e s =
  if specManuallyChanged (st_revs s) instance then abortNow s else (s, Ret tt).
Proof.
  intros Hrun Hs. unfold abortExperiment, mbind, GoM_bind, gets.
  rewrite Hrun. simpl. rewrite Hs, Hrun. simpl. unfold specManuallyChanged.
  case_bool_decide as Hlt; [by rewrite (bool_decide_false (2 ≤ _)) by lia|].
  rewrite (bool_decide_true (2 ≤ _)) by lia. simpl. by case_bool_decide.
Qed.

Lemma finishCycle_running instance e oldPhase oldID (s : ReconcileState W) :
  exp_Phase e = ExperimentPhaseRunning → st_newExp s = Some e →
  finishCycle instance e "" oldPhase oldID s =
  if specManuallyChanged (st_revs s) instance then abortNow s else (s, Ret tt).
Proof.
  intros Hrun Hs. unfold finishCycle. rewrite (bool_decide_false (exp_Phase e = ExperimentPhasePromoted)) by congruence.
  rewrite (GoM_bind_Ret _ _ _ s tt) by done. unfold mbind at 1, GoM_bind at 1.
  rewrite abortExperiment_running by done.
  destruct (specManuallyChanged (st_revs s) instance); [|done].
  destruct (triple_abortNow e s Hs) as [_ [Hnew Ho]].
  destruct (abortNow s) as [s' o]. simpl in *. by subst o.
Qed.

(** ** Calls that leave the DatadogAgents alone *)

Definition keeps_ddas {A : Type} (m : M A) : Prop :=
  ∀ s, cl_ddas (view (st_world (m s).1)) = cl_ddas (view (st_world s)).

Lemma keeps_ddas_patch_through rev p : keeps_ddas (patch_through rev p : M unit).
Proof.
  intros s. pose proof (sound_PatchRevision rev.2 p (st_world s)) as Hp.
  unfold patch_through, mbind, GoM_bind, call, modify.
  destruct (client_PatchRevision rev.2 p (st_world s)) as [w' [r|e|]]; simpl in *; [|by rewrite Hp|done].
  by destruct Hp as (r0 & _ & _ & ->).
Qed.

Lemma keeps_ddas_markRevisionState rev state : keeps_ddas (markRevisionState rev state : M unit).
Proof.
  intros s. unfold markRevisionState. case_bool_decide; [done|].
  pose proof (keeps_ddas_patch_through rev (PatchAnnotation annotationExperimentState state) s) as Hk.
  unfold attempt, mbind, GoM_bind. by destruct (patch_through _ _ s) as [s' [[]|e|]].
Qed.

Lemma keeps_ddas_abortNow : keeps_ddas (abortNow : M unit).
Proof.
  intros s. unfold abortNow, update_newExp, mbind, GoM_bind, gets.
  destruct (st_newExp s) as [e|]; [|done]. simpl. unfold markHighest, mbind, GoM_bind, gets.
  destruct (highestRevision _); [|done]. by rewrite keeps_ddas_markRevisionState.
Qed.

(** ** Manual spec changes *)

Lemma abortNow_Ret e (s : ReconcileState W) :
  st_newExp s = Some e → abortNow s = ((abortNow s).1, Ret tt).
Proof.
  intros Hs. destruct (triple_abortNow e s Hs) as [_ [_ Ho]]. destruct (abortNow s). simpl in *. by subst.
Qed.

Lemma signal_manual_change instance now e (s : ReconcileState W) :
  dda_Experiment instance = Some e → st_newExp s = Some e →
  exp_Phase e = ExperimentPhaseRunning → specManuallyChanged (st_revs s) instance = true →
  ∃ s' pend, processExperimentSignal instance now s = (s', Ret pend) ∧ (s' = s ∨ s' = (abortNow s).1).
Proof.
  intros He Hs Hrun Hman. unfold processExperimentSignal. rewrite He. simpl. rewrite Hrun.
  destruct (_ || _); [by eauto|]. unfold mbind at 1, GoM_bind at 1.
  case_bool_decide.
  { unfold processStartSignal. rewrite (bool_decide_true (ExperimentPhaseRunning = _)) by done.
    destruct (bool_decide _); eauto. }
  case_bool_decide.
  { unfold processRollbackSignal, mbind, GoM_bind, gets. simpl. rewrite Hman, (abortNow_Ret e) by done. eauto. }
  case_bool_decide; [|eauto].
  unfold processPromoteSignal, mbind, GoM_bind, gets. simpl. rewrite Hman, (abortNow_Ret e) by done. eauto.
Qed.

(** An experiment that is no longer running goes through the last stages
    without a change, and its annotations are kept. *)
Lemma manage_tail_aborted instance now e pend (s : ReconcileState W) :
  dda_Experiment instance = Some e → exp_Phase e = ExperimentPhaseRunning →
  st_newExp s = Some (set_Phase ExperimentPhaseAborted e) →
  (_ ← handleRollback ExperimentTimeout instance now;
   finishCycle instance e pend (phase_of (Some e)) (id_of (Some e))) s = (s, Ret tt).
Proof.
  intros He Hrun Hs.
  assert (Hroll : handleRollback ExperimentTimeout instance now s = (s, Ret tt)).
  { unfold handleRollback. rewrite He. unfold mbind, GoM_bind, gets. by rewrite Hs, Hrun. }
  rewrite (GoM_bind_Ret _ _ _ _ _ Hroll). unfold finishCycle. rewrite Hrun.
  assert (Hab : abortExperiment instance e s = (s, Ret tt)).
  { unfold abortExperiment, mbind, GoM_bind, gets. rewrite Hrun. simpl. by rewrite Hs. }
  rewrite (GoM_bind_Ret _ _ _ s tt) by done. rewrite (GoM_bind_Ret _ _ _ _ _ Hab).
  unfold mbind, GoM_bind, gets. rewrite Hs. simpl. rewrite Hrun, andb_false_r. done.
Qed.

Lemma manage_manual_change instance now e (s : ReconcileState W) :
  dda_Experiment instance = Some e → st_newExp s = Some e →
  exp_Phase e = ExperimentPhaseRunning → specManuallyChanged (st_revs s) instance = true →
  manageExperiment ExperimentTimeout instance now s = abortNow s.
Proof.
  intros He Hs Hrun Hman.
  destruct (signal_manual_change instance now e s He Hs Hrun Hman) as (s' & pend & Hsig & Hs').
  assert (Heq : manageExperiment ExperimentTimeout instance now s =
    (_ ← handleRollback ExperimentTimeout instance now;
     finishCycle instance e pend (phase_of (Some e)) (id_of (Some e))) s').
  { unfold manageExperiment, mbind at 1, GoM_bind at 1, gets at 1.
    rewrite (GoM_bind_Ret _ _ _ _ _ Hsig), Hs. by rewrite He. }
  rewrite Heq. destruct (triple_abortNow e s Hs) as [_ [Hnew Ho]].
  destruct Hs' as [-> | ->]; [|by rewrite manage_tail_aborted, (abortNow_Ret e)].
  assert (Hroll : handleRollback ExperimentTimeout instance now s = (s, Ret tt)).
  { by rewrite (handleRollback_running _ _ e), Hman. }
  rewrite (GoM_bind_Ret _ _ _ _ _ Hroll). unfold finishCycle. rewrite Hrun.
  rewrite (GoM_bind_Ret _ _ _ s tt) by done. unfold mbind at 1, GoM_bind at 1.
  rewrite abortExperiment_running, Hman by done. rewrite (abortNow_Ret e) by done.
  unfold mbind, GoM_bind, gets. rewrite Hnew. simpl. rewrite Hrun, andb_false_r. done.
Qed.
End Proofs.
