(* ===== verification/ExperimentTheorems.v ===== *)
(** * Properties of the experiment manager.

    The refinement of [exp_step] by [manageExperiment], the invariant of
    [status.experiment] over any history of reconciles, and the timeout,
    manual-change, rollback and annotation-clearing behaviours. *)

From Stdlib Require Import ZArith Lia Ascii.
From stdpp Require Import base gmap strings list relations.
From S2P Require Import Prelude Cluster Revision Experiment RevisionFacts Testbed ExperimentProofs.

(** ** Invariant of the status *)

(** A recorded experiment is identified; a running one has the anchor of its
    timeout and no termination reason; the reason is set exactly on termination. *)
Definition exp_wf (e : ExperimentStatus) : Prop :=
  exp_ID e ≠ "" ∧
  (exp_Phase e = ExperimentPhaseRunning → is_Some (exp_StartedAt e)) ∧
  (exp_Phase e = ExperimentPhaseTerminated ↔ exp_TerminationReason e ≠ "").

Definition status_wf (e : option ExperimentStatus) : Prop := from_option exp_wf True e.

Lemma exp_step_wf a b : exp_step a b → status_wf a → status_wf b.
Proof.
  destruct 1 as [e|e id now task|e reason Hr Hreason|e Hr|e Hr|e id|e id]; simpl; unfold exp_wf; simpl;
    rewrite ?Hr; naive_solver.
Qed.

Section Theorems.
Context {W Spec : Type} `{SoundClient W Spec} `{SnapshotCodec Spec}.
Context (ExperimentTimeout : Duration).
Implicit Types instance : DatadogAgent Spec.
Implicit Types s : ReconcileState W.
Abbreviation manage := (manageExperiment (W := W) ExperimentTimeout).

(** One reconcile as the status sees it: the manager runs on the persisted
    experiment in any world and the write of its result may be lost. *)
Inductive reconciled : option ExperimentStatus → option ExperimentStatus → Prop :=
  | reconciled_written s instance now :
      st_newExp s = dda_Experiment instance →
      reconciled (dda_Experiment instance) (st_newExp (manage instance now s).1)
  | reconciled_lost e : reconciled e e.

(** C1: for every sound client and whatever calls fail, [manageExperiment] does
    not panic and what it makes of [status.experiment] is one step of the
    abstract state machine [exp_step]. *)
Theorem manageExperiment_refines_exp_step s instance now :
  st_newExp s = dda_Experiment instance →
  (manage instance now s).2 ≠ Panic ∧
  exp_step (dda_Experiment instance) (st_newExp (manage instance now s).1).
Proof. intros Hs. by apply triple_manageExperiment. Qed.

(** C2: over any history of reconciles from a DatadogAgent without experiment,
    with status writes that may be lost, the recorded experiment has an ID, has
    its start time while it runs, and carries a termination reason exactly when
    it is terminated. *)
Theorem experiment_status_invariant e :
  rtc reconciled None e → status_wf e.
Proof.
  intros Hrtc. remember None as e0 eqn:He0. assert (Hwf : status_wf e0) by by subst.
  clear He0. induction Hrtc as [|a b c Hab _ IH]; [done|]. apply IH.
  destruct Hab as [s instance now Hs|]; [|done]. eapply exp_step_wf; [|done].
  by apply triple_manageExperiment.
Qed.

(** A running experiment is never replaced. After a reconcile on it the
    recorded experiment has the same ID, start time and start task and is
    running or terminal; and a terminal experiment is left untouched unless a
    different experiment is started. *)
Theorem experiment_identity_kept s instance now e :
  dda_Experiment instance = Some e →
  st_newExp s = Some e →
  ∃ e', st_newExp (manage instance now s).1 = Some e' ∧
    (exp_Phase e = ExperimentPhaseRunning →
       exp_ID e' = exp_ID e ∧ exp_StartedAt e' = exp_StartedAt e ∧ exp_StartTaskID e' = exp_StartTaskID e ∧
       (e' = e ∨ isTerminalPhase (exp_Phase e') = true)) ∧
    (isTerminalPhase (exp_Phase e) = true →
       e' = e ∨ exp_Phase e' = ExperimentPhaseRunning ∧ exp_ID e' ≠ exp_ID e).
Proof.
  intros He Hs. destruct (triple_manageExperiment ExperimentTimeout instance now s) as [_ Hstep]; [congruence|].
  cbv beta in Hstep. rewrite He in Hstep.
  inversion Hstep as [| |? ? Hr|? Hr|? Hr| |]; subst; simpl in *; rewrite ?Hr; eexists; (split; [done|]); simpl;
    repeat split; intros; simplify_eq/=; auto; try congruence.
  all: by destruct (exp_Phase e).
Qed.

(** C3: a running experiment whose spec is a known revision and whose timeout
    has elapsed, with no signal to process, ends terminated as [timed_out] when
    the manager returns, and is left running for a retry when a call fails. *)
Theorem running_experiment_times_out s instance now e t0 p :
  dda_Experiment instance = Some e →
  st_newExp s = Some e →
  exp_Phase e = ExperimentPhaseRunning →
  exp_StartedAt e = Some t0 →
  no_signal instance →
  findMostRecentMatchingRevision (st_revs s) instance = Some p →
  (int64_min < getExperimentTimeout ExperimentTimeout ≤ int64_max)%Z →
  (getExperimentTimeout ExperimentTimeout ≤ now - t0)%Z →
  let r := manage instance now s in
  st_newExp r.1 = match r.2 with
                  | Ret _ => Some (terminated ExperimentTerminationReasonTimedOut e)
                  | _ => Some e
                  end.
Proof.
  intros He Hs Hrun Ht0 Hno Hp Hrange Helapsed. cbv zeta. rewrite (manage_no_signal _ _ _ e) by done.
  unfold mbind, GoM_bind. rewrite (handleRollback_running _ _ _ e) by done.
  unfold specManuallyChanged. rewrite (bool_decide_false (_ = None)) by congruence.
  rewrite andb_false_r, Hp, Ht0, bool_decide_true by (by apply Time_Sub_ge).
  destruct (triple_restore instance ExperimentTerminationReasonTimedOut e s Hs) as [Hnp Hr].
  destruct (restorePreviousSpec instance ExperimentTerminationReasonTimedOut s) as [s' [[]|er|]];
    simpl in *; [|done..].
  destruct (finishCycle_settled (W := W) instance e (terminated ExperimentTerminationReasonTimedOut e)
              (phase_of (st_newExp s)) (id_of (st_newExp s)) Hrun ltac:(done) s' Hr) as [_ [Hf Ho]].
  destruct (finishCycle _ _ _ _ _ s') as [s'' o]. simpl in *. by subst o.
Qed.

(** Until the timeout has elapsed and with no signal to process, the
    manager returns, never touches a DatadogAgent object, and changes a running
    experiment only by aborting it, exactly when there are two revisions or
    more and the spec matches none of them. *)
Theorem running_experiment_before_timeout s instance now e :
  dda_Experiment instance = Some e →
  st_newExp s = Some e →
  exp_Phase e = ExperimentPhaseRunning →
  no_signal instance →
  (∀ t0, exp_StartedAt e = Some t0 → Time_Sub now t0 < getExperimentTimeout ExperimentTimeout)%Z →
  let r := manage instance now s in
  r.2 = Ret tt ∧
  cl_ddas (view (st_world r.1)) = cl_ddas (view (st_world s)) ∧
  st_newExp r.1 = Some (if specManuallyChanged (st_revs s) instance
                        then set_Phase ExperimentPhaseAborted e else e).
Proof.
  intros He Hs Hrun Hno Helapsed. cbv zeta. rewrite (manage_no_signal _ _ _ e) by done.
  assert (Hroll : handleRollback ExperimentTimeout instance now s = (s, Ret tt)).
  { rewrite (handleRollback_running _ _ _ e) by done.
    destruct (specManuallyChanged _ _); [done|]. destruct (findMostRecentMatchingRevision _ _); [|done].
    destruct (exp_StartedAt e) as [t0|]; [|done].
    rewrite bool_decide_false; [done|]. specialize (Helapsed t0 eq_refl). lia. }
  rewrite (GoM_bind_Ret _ _ _ _ _ Hroll), finishCycle_running by done.
  destruct (specManuallyChanged (st_revs s) instance); [|done].
  destruct (triple_abortNow e s Hs) as [_ [Hnew Ho]]. split_and!; [done| |done]. apply keeps_ddas_abortNow.
Qed.

(** A manual spec change wins over every signal and over the timeout: when
    the spec of a running experiment matches none of two revisions or more, the
    manager aborts the experiment and touches no DatadogAgent object, so the
    user's spec is never rewritten. *)
Theorem manual_change_aborts s instance now e :
  dda_Experiment instance = Some e →
  st_newExp s = Some e →
  exp_Phase e = ExperimentPhaseRunning →
  specManuallyChanged (st_revs s) instance = true →
  let r := manage instance now s in
  r.2 = Ret tt ∧ st_newExp r.1 = Some (set_Phase ExperimentPhaseAborted e) ∧
  cl_ddas (view (st_world r.1)) = cl_ddas (view (st_world s)).
Proof.
  intros He Hs Hrun Hman. cbv zeta. rewrite (manage_manual_change _ _ _ e) by done.
  destruct (triple_abortNow e s Hs) as [_ [Hnew Ho]]. split_and!; [done..|]. apply keeps_ddas_abortNow.
Qed.

(** With events enabled, a reconcile records an event exactly when it
    changed the phase, and the event names the experiment now recorded: no
    transition the manager can make is silent. *)
Theorem transition_event_iff_phase_change s instance now :
  st_newExp s = dda_Experiment instance →
  let new := st_newExp (manage instance now s).1 in
  match emitExperimentTransitionEvent true (dda_Experiment instance) new with
  | Some ev => phase_of new ≠ phase_of (dda_Experiment instance) ∧ ev.2 = id_of new
  | None => phase_of new = phase_of (dda_Experiment instance)
  end.
Proof.
  intros Hs. destruct (triple_manageExperiment ExperimentTimeout instance now s Hs) as [_ Hstep].
  cbv beta zeta in *. generalize dependent (dda_Experiment instance).
  generalize (st_newExp (manage instance now s).1). intros new old _ Hstep.
  destruct Hstep as [e|e id t task _ _ Hr|e reason Hr [->| ->]|e Hr|e Hr|e id _ Hr|e id _ Hr];
    unfold emitExperimentTransitionEvent; simpl; rewrite ?Hr; simpl; try done.
  - destruct e; simpl; [by rewrite bool_decide_true|done].
  - by destruct (phase_of e).
Qed.
End Theorems.
