(* ===== verification/RollbackTheorems.v ===== *)
(** * Restoring a spec from a ControllerRevision, and clearing the signals.

    What [rollback] and [clearExperimentAnnotations] do to the objects of the
    API server, for every sound client. *)

From Stdlib Require Import ZArith Lia Ascii.
From stdpp Require Import base gmap strings list.
From S2P Require Import Prelude Cluster Revision Experiment RevisionFacts Testbed.

Section Rollback.
Context {W Spec : Type} `{SoundClient W Spec} `{SnapshotCodecLaws Spec}.
Implicit Types instance d : DatadogAgent Spec.
Implicit Types s : ReconcileState W.

Abbreviation cluster s := (view (st_world s)).
Abbreviation snapshot_of d := (buildRevisionSnapshot (dda_Spec d) (dda_Annotations d)).

(** The object a rollback writes over [d]. *)
Definition restored (snap : revisionSnapshot Spec) (rv : string) d : DatadogAgent Spec :=
  mkDatadogAgent (dda_Namespace d) (dda_Name d) (dda_UID d) rv (dda_Labels d)
    (snap_Annotations snap ∪ dda_Annotations d) (snap_Spec snap) (dda_Experiment d).

(** Every object is stored under its own key. *)
Definition keyed (c : Cluster Spec) : Prop := ∀ k d, cl_ddas c !! k = Some d → dda_key d = k.

Lemma rollback_Ret instance target s s' :
  keyed (cluster s) →
  target ≠ "" → rollback instance target s = (s', Ret tt) →
  ∃ cr snap d,
    cl_revs (cluster s) !! (dda_Namespace instance, target) = Some cr ∧
    json_Unmarshal (cr_Raw cr) = inl snap ∧
    cl_ddas (cluster s) !! dda_key instance = Some d ∧
    (snapshot_of d = inl (cr_Raw cr) ∧ cluster s' = cluster s ∧ st_instRV s' = dda_ResourceVersion d ∨
     snapshot_of d ≠ inl (cr_Raw cr) ∧
     ∃ rv, cluster s' = set_ddas (<[dda_key instance := restored snap rv d]>) (cluster s) ∧ st_instRV s' = rv).
Proof.
  intros Hkeyed Hne Hr. unfold rollback in Hr. rewrite bool_decide_false in Hr by done.
  apply GoM_bind_Ret_inv in Hr as (s1 & cr & Hget & Hr).
  assert (Hcr : cluster s1 = cluster s ∧ cl_revs (cluster s) !! (dda_Namespace instance, target) = Some cr).
  { pose proof (sound_GetRevision (dda_Namespace instance) target (st_world s)) as Hg.
    unfold wrap, call in Hget.
    destruct (client_GetRevision _ _ (st_world s)) as [w [a|e|]]; simplify_eq/=. naive_solver. }
  destruct Hcr as [Hc1 Hcr]. destruct (json_Unmarshal (cr_Raw cr)) as [snap|e] eqn:Hsnap; [|done].
  apply GoM_bind_Ret_inv in Hr as (s2 & d & Hgetd & Hr).
  assert (Hd : cluster s2 = cluster s ∧ cl_ddas (cluster s) !! dda_key instance = Some d).
  { pose proof (sound_GetDDA (dda_Namespace instance) (dda_Name instance) (st_world s1)) as Hg.
    unfold wrap, call in Hgetd.
    destruct (client_GetDDA _ _ (st_world s1)) as [w [a|e|]]; simplify_eq/=.
    destruct Hg as [-> Hg]. by rewrite <-Hc1. }
  destruct Hd as [Hc2 Hd]. exists cr, snap, d. do 3 (split; [done|]).
  destruct (snapshot_of d) as [cur|e] eqn:Hcur; [|done].
  case_bool_decide as Heq.
  { unfold modify in Hr. simplify_eq/=. left. done. }
  right. split; [congruence|].
  apply GoM_bind_Ret_inv in Hr as (s3 & d' & Hupd & Hr). unfold modify in Hr. simplify_eq/=.
  unfold call in Hupd. pose proof (sound_UpdateDDA (mkDatadogAgent (dda_Namespace d) (dda_Name d) (dda_UID d)
    (dda_ResourceVersion d) (dda_Labels d) (snap_Annotations snap ∪ dda_Annotations d) (snap_Spec snap) None) (st_world s2)) as Hu.
  destruct (client_UpdateDDA _ (st_world s2)) as [w [a|e|]]; simplify_eq/=.
  destruct Hu as (d0 & rv & Hd0 & -> & ->). exists rv.
  change (dda_key (mkDatadogAgent _ _ _ _ _ _ _ _)) with (dda_key d) in *.
  assert (Hk : dda_key d = dda_key instance) by (by apply Hkeyed). rewrite Hk, Hc2 in *.
  assert (d0 = d) as -> by congruence. done.
Qed.

Lemma snapshot_annotations_agree d spec a b :
  buildRevisionSnapshot spec a = inl b → snapshot_of d = inl b →
  datadogAnnotations a = datadogAnnotations (dda_Annotations d).
Proof.
  unfold buildRevisionSnapshot. intros H1' H2'.
  destruct (Unmarshal_Marshal _ _ H1') as (s1 & Hs1 & _ & Ha1).
  destruct (Unmarshal_Marshal _ _ H2') as (s2 & Hs2 & _ & Ha2). simpl in *. congruence.
Qed.

(** The Datadog annotations of a restored object. *)
Lemma datadogAnnotations_restored a snap rv d :
  snap_Annotations snap = datadogAnnotations a →
  datadogAnnotations (dda_Annotations (restored snap rv d)) =
  datadogAnnotations a ∪ datadogAnnotations (dda_Annotations d).
Proof.
  intros Ha. simpl. rewrite Ha. apply map_eq. intros k.
  rewrite lookup_datadogAnnotations, !lookup_union, !lookup_datadogAnnotations.
  by destruct (isSnapshotAnnotation k), (a !! k), (dda_Annotations d !! k).
Qed.

Lemma snapshot_of_restored spec a b snap rv d :
  buildRevisionSnapshot spec a = inl b → json_Unmarshal b = inl snap →
  dom (datadogAnnotations (dda_Annotations d)) ⊆ dom (datadogAnnotations a) →
  snapshot_of (restored snap rv d) = inl b.
Proof.
  intros Hb Hsnap Hdom. destruct (Unmarshal_Marshal _ _ Hb) as (s' & Hs' & Hm & Ha).
  assert (s' = snap) as -> by congruence. simpl in Ha.
  unfold buildRevisionSnapshot. rewrite (datadogAnnotations_restored a) by done.
  assert (datadogAnnotations a ∪ datadogAnnotations (dda_Annotations d) = snap_Annotations snap) as ->.
  { rewrite Ha. apply map_eq. intros k. rewrite lookup_union.
    destruct (datadogAnnotations a !! k) as [v|] eqn:E; [by destruct (datadogAnnotations (dda_Annotations d) !! k)|].
    apply not_elem_of_dom in E. rewrite (not_elem_of_dom_1 (datadogAnnotations (dda_Annotations d)));
      [done|set_solver]. }
  simpl. destruct snap. done.
Qed.

Lemma lookup_restored_other a snap rv d k :
  snap_Annotations snap = datadogAnnotations a → isSnapshotAnnotation k = false →
  dda_Annotations (restored snap rv d) !! k = dda_Annotations d !! k.
Proof.
  intros Ha Hk. simpl. rewrite Ha, lookup_union, lookup_datadogAnnotations, Hk.
  by destruct (dda_Annotations d !! k).
Qed.

(** C4: a rollback that returns, to a target holding the snapshot of some spec
    and annotations, leaves the stored DatadogAgent with that snapshot
    (provided its Datadog annotations are among the target's), with its other
    annotations and its status as they were, and touches no revision and no
    other DatadogAgent; the reconciled instance gets the stored resource
    version, so its status update does not conflict. *)
Theorem rollback_restores_snapshot instance target s s' cr spec a d :
  keyed (cluster s) →
  target ≠ "" →
  cl_revs (cluster s) !! (dda_Namespace instance, target) = Some cr →
  buildRevisionSnapshot spec a = inl (cr_Raw cr) →
  cl_ddas (cluster s) !! dda_key instance = Some d →
  dom (datadogAnnotations (dda_Annotations d)) ⊆ dom (datadogAnnotations a) →
  rollback instance target s = (s', Ret tt) →
  ∃ d', cl_ddas (cluster s') !! dda_key instance = Some d' ∧
    snapshot_of d' = inl (cr_Raw cr) ∧
    (∀ k, isSnapshotAnnotation k = false → dda_Annotations d' !! k = dda_Annotations d !! k) ∧
    dda_Experiment d' = dda_Experiment d ∧
    st_instRV s' = dda_ResourceVersion d' ∧
    cl_revs (cluster s') = cl_revs (cluster s) ∧
    (∀ k, k ≠ dda_key instance → cl_ddas (cluster s') !! k = cl_ddas (cluster s) !! k).
Proof.
  intros Hkeyed Hne Hcr Hb Hd Hdom Hr.
  destruct (rollback_Ret _ _ _ _ Hkeyed Hne Hr) as (cr' & snap & d0 & Hcr' & Hsnap & Hd0 & Hcase).
  simplify_eq. destruct (Unmarshal_Marshal _ _ Hb) as (snap' & Hs' & _ & Ha).
  assert (snap' = snap) as -> by congruence. simpl in Ha.
  destruct Hcase as [(Hsame & Hc & Hrv)|(_ & rv & Hc & Hrv)].
  - exists d. rewrite Hc, Hrv. done.
  - exists (restored snap rv d). rewrite Hc. unfold set_ddas. cbn [cl_ddas cl_revs]. rewrite lookup_insert_eq.
    split_and!; [done|by apply (snapshot_of_restored spec a)|intros k ?; by apply (lookup_restored_other a)|done..|].
    intros k ?. by rewrite lookup_insert_ne.
Qed.

(** A rollback is idempotent: where the stored DatadogAgent already has the
    target's snapshot, a rollback that returns writes nothing. *)
Theorem rollback_idempotent instance target s s' cr d :
  keyed (cluster s) →
  cl_revs (cluster s) !! (dda_Namespace instance, target) = Some cr →
  cl_ddas (cluster s) !! dda_key instance = Some d →
  snapshot_of d = inl (cr_Raw cr) →
  rollback instance target s = (s', Ret tt) →
  cluster s' = cluster s.
Proof.
  intros Hkeyed Hcr Hd Hsnap Hr. destruct (decide (target = "")) as [->|Hne].
  { unfold rollback in Hr. rewrite bool_decide_true in Hr by done. by injection Hr as <-. }
  destruct (rollback_Ret _ _ _ _ Hkeyed Hne Hr) as (cr' & snap & d0 & Hcr' & _ & Hd0 & Hcase).
  simplify_eq. destruct Hcase as [(_ & Hc & _)|(Hno & _)]; done.
Qed.

(** A Datadog annotation the target's snapshot does not have survives the
    rollback, and the stored DatadogAgent does not have the target's snapshot
    afterwards: the restore is then incomplete and is written again by the next
    rollback. *)
Theorem rollback_keeps_extra_annotation instance target s s' cr spec a d k :
  keyed (cluster s) →
  target ≠ "" →
  cl_revs (cluster s) !! (dda_Namespace instance, target) = Some cr →
  buildRevisionSnapshot spec a = inl (cr_Raw cr) →
  cl_ddas (cluster s) !! dda_key instance = Some d →
  datadogAnnotations (dda_Annotations d) !! k ≠ None →
  datadogAnnotations a !! k = None →
  rollback instance target s = (s', Ret tt) →
  ∃ d', cl_ddas (cluster s') !! dda_key instance = Some d' ∧
    dda_Annotations d' !! k = dda_Annotations d !! k ∧
    snapshot_of d' ≠ inl (cr_Raw cr).
Proof.
  intros Hkeyed Hne Hcr Hb Hd Hk Hak Hr.
  destruct (rollback_Ret _ _ _ _ Hkeyed Hne Hr) as (cr' & snap & d0 & Hcr' & Hsnap & Hd0 & Hcase).
  simplify_eq. destruct (Unmarshal_Marshal _ _ Hb) as (snap' & Hs' & _ & Ha).
  assert (snap' = snap) as -> by congruence. simpl in Ha.
  destruct Hcase as [(Hsame & _)|(_ & rv & Hc & _)].
  { exfalso. apply Hk. by rewrite <-(snapshot_annotations_agree _ _ _ _ Hb Hsame). }
  exists (restored snap rv d). rewrite Hc. unfold set_ddas. cbn [cl_ddas cl_revs]. rewrite lookup_insert_eq. split; [done|]. split.
  - simpl. rewrite Ha, lookup_union, Hak. by destruct (dda_Annotations d !! k).
  - intros Hsn. apply Hk. pose proof (snapshot_annotations_agree _ _ _ _ Hb Hsn) as Heq.
    rewrite (datadogAnnotations_restored a) in Heq by done.
    assert (Hkk : datadogAnnotations a !! k
      = (datadogAnnotations a ∪ datadogAnnotations (dda_Annotations d)) !! k) by (by rewrite <-Heq).
    rewrite lookup_union, Hak in Hkk. by destruct (datadogAnnotations (dda_Annotations d) !! k).
Qed.

(** ** Clearing the signal annotations *)

Lemma apply_json_op_test k p v (a : gmap string string) :
  path_annotation p = Some k →
  apply_json_op (mkJsonPatchOp "test" p v) a = if decide (a !! k = Some v) then Some a else None.
Proof.
  intros Hp. unfold apply_json_op. cbn [op_Path op_Op op_Value]. rewrite Hp. cbn [mbind option_bind].
  destruct (a !! k) as [w|]; cbn [mbind option_bind]; repeat case_decide; congruence.
Qed.

Lemma apply_json_op_remove k p v (a : gmap string string) :
  path_annotation p = Some k →
  apply_json_op (mkJsonPatchOp "remove" p v) a = if decide (is_Some (a !! k)) then Some (delete k a) else None.
Proof.
  intros Hp. unfold apply_json_op. cbn [op_Path op_Op op_Value]. rewrite Hp. cbn [mbind option_bind].
  destruct (a !! k) as [w|]; cbn [mbind option_bind].
  - by rewrite (decide_True (P := is_Some _)) by eauto.
  - rewrite decide_False; [done|]. by intros [? ?].
Qed.

Lemma path_ID : path_annotation (annotationToJSONPatchPath AnnotationExperimentID) = Some AnnotationExperimentID.
Proof. vm_compute. reflexivity. Qed.
Lemma path_Signal :
  path_annotation (annotationToJSONPatchPath AnnotationExperimentSignal) = Some AnnotationExperimentSignal.
Proof. vm_compute. reflexivity. Qed.
Lemma apply_test_remove_remove kI kS pI pS i a a' :
  path_annotation pI = Some kI → path_annotation pS = Some kS →
  apply_json_patch [mkJsonPatchOp "test" pI i; mkJsonPatchOp "remove" pS ""; mkJsonPatchOp "remove" pI ""] a = Some a' →
  a !! kI = Some i ∧ a' = delete kI (delete kS a).
Proof.
  intros HI HS. cbn [apply_json_patch].
  rewrite (apply_json_op_test _ _ _ _ HI). case_decide as Hi; [|done]. cbn [mbind option_bind].
  rewrite (apply_json_op_remove _ _ _ _ HS). case_decide; [|done]. cbn [mbind option_bind].
  rewrite (apply_json_op_remove _ _ _ _ HI). case_decide; [|done]. cbn [mbind option_bind].
  intros Heq. injection Heq as <-. done.
Qed.

Lemma apply_clearOps i a a' :
  apply_json_patch (clearOps i) a = Some a' →
  a !! AnnotationExperimentID = Some i ∧
  a' = delete AnnotationExperimentID (delete AnnotationExperimentSignal a).
Proof. exact (apply_test_remove_remove _ _ _ _ i a a' path_ID path_Signal). Qed.

(** Clearing is a test-and-set on the signal's ID: when it succeeds the
    stored DatadogAgent carried exactly the processed ID, and it only loses the
    two signal annotations; when it fails, a newer signal written concurrently
    included, nothing changes. *)
Theorem clearExperimentAnnotations_conditional instance i s :
  match clearExperimentAnnotations instance i s with
  | (s', Ret _) => ∃ d rv,
      cl_ddas (cluster s) !! dda_key instance = Some d ∧
      dda_Annotations d !! AnnotationExperimentID = Some i ∧
      cluster s' = set_ddas (<[dda_key instance := apply_dda_update rv (set_dda_Annotations
        (delete AnnotationExperimentID (delete AnnotationExperimentSignal (dda_Annotations d))) d) d]>) (cluster s)
  | (s', Fail _) => cluster s' = cluster s
  | (_, Panic) => False
  end.
Proof.
  unfold clearExperimentAnnotations, call.
  pose proof (sound_JSONPatchDDA (dda_Namespace instance) (dda_Name instance) (clearOps i) (st_world s)) as Hp.
  destruct (client_JSONPatchDDA _ _ _ (st_world s)) as [w [[]|e|]]; simpl in *; [|done..].
  destruct Hp as (d & a & rv & Hd & Ha & Hc). apply apply_clearOps in Ha as (Hi & ->). eauto 10.
Qed.
End Rollback.

(** ** JSON Patch paths *)

Lemma unescape_escape key :
  ContainsChar "~"%char key = false → unescape_token (ReplaceAllChar "/"%char "~1" key) = key.
Proof.
  induction key as [|c key IH]; [done|]. simpl.
  intros [Hc Hk]%orb_false_iff. apply bool_decide_eq_false in Hc. specialize (IH Hk).
  case_decide as Hs.
  - subst c. change ("~1" +:+ ?x) with (String "~"%char (String "1"%char x)). simpl. by rewrite IH.
  - destruct c as [[] [] [] [] [] [] [] []]; simpl; try (by rewrite IH); by contradict Hc.
Qed.

Lemma prefix_app p t : String.prefix p (p +:+ t) = true.
Proof.
  induction p as [|c p IH]; [by destruct t|]. rewrite string_app_cons. simpl.
  by destruct (ascii_dec c c).
Qed.

Lemma substring_all t : String.substring 0 (String.length t) t = t.
Proof. induction t as [|c t IH]; simpl; congruence. Qed.

Lemma substring_app p t :
  String.substring (String.length p) (String.length (p +:+ t) - String.length p) (p +:+ t) = t.
Proof.
  induction p as [|c p IH].
  - rewrite string_app_nil_l. simpl. rewrite Nat.sub_0_r. apply substring_all.
  - rewrite string_app_cons. simpl. apply IH.
Qed.

(** The JSON Patch path of an annotation key without a tilde addresses that
    key, whatever slashes it contains. *)
Theorem annotation_path_roundtrip key :
  ContainsChar "~"%char key = false →
  path_annotation (annotationToJSONPatchPath key) = Some key.
Proof.
  intros Hk. unfold path_annotation, annotationToJSONPatchPath.
  change "/metadata/annotations/" with annotation_prefix.
  by rewrite prefix_app, substring_app, unescape_escape.
Qed.
