(* ===== verification/RevisionTheorems.v ===== *)
(** * Properties of the revision history.

    [ensureRevision] records the snapshot of the current spec above every other
    revision, [gcOldRevisions] keeps it and the one before it, so that
    [findRollbackTarget] designates the spec that was current before the
    change. *)

From Stdlib Require Import ZArith Lia Ascii.
From stdpp Require Import base gmap strings list.
From S2P Require Import Prelude Cluster Revision Experiment RevisionFacts Testbed.

Section GC.
Context {W Spec : Type} `{SoundClient W Spec}.
Implicit Types s : ReconcileState W.
Abbreviation cluster s := (view (st_world s)).

Definition previousOf (current : string) (l : list ControllerRevision) : string :=
  (findPrevious current l ((-1)%Z, "")).2.

(** The list the reconcile works on is what the API server holds. *)
Definition consistent (ns : string) s : Prop :=
  NoDup (cr_key <$> st_revs s) ∧ numbered (st_revs s) ∧
  ∀ x, x ∈ st_revs s → cr_Namespace x = ns ∧ cl_revs (cluster s) !! cr_key x = Some x.

(** A superseded revision: it is not the current one, and another one that is
    not current is more recent. *)
Definition doomed (current : string) (l : list ControllerRevision) (x : ControllerRevision) : Prop :=
  cr_Name x ≠ current ∧ ∃ y, y ∈ l ∧ cr_Name y ≠ current ∧ (cr_Revision x < cr_Revision y)%Z.

(** The most recent revision other than [current] is not superseded, every other
    one is. *)
Lemma doomed_iff current l x :
  numbered l → (∀ y, y ∈ l → cr_Name y = cr_Name x → y = x) → x ∈ l →
  doomed current l x ↔ cr_Name x ≠ current ∧ cr_Name x ≠ previousOf current l.
Proof.
  intros [Hnd Hpos] Hinj Hx. unfold doomed, previousOf.
  pose proof (findPrevious_spec current l ((-1)%Z, "")) as (_ & Hle & Hw).
  destruct (findPrevious current l ((-1)%Z, "")) as [rm rn]; simpl in *. split.
  - intros (Hc & y & Hy & Hyc & Hlt). split; [done|]. intros Hn. specialize (Hle y Hy Hyc). specialize (Hpos y Hy).
    destruct Hw as [[= -> ->]|(z & Hz & _ & [= -> ->])]; [lia|]. rewrite (Hinj z Hz) in Hle by done. lia.
  - intros [Hc Hn]. split; [done|]. pose proof (Hle x Hx Hc) as Hx1. specialize (Hpos x Hx).
    destruct Hw as [[= -> ->]|(z & Hz & Hzc & [= -> ->])]; [lia|]. exists z. split_and!; [done..|].
    destruct (decide (cr_Revision x = cr_Revision z)) as [He|]; [|lia]. destruct Hn.
    apply list_elem_of_lookup in Hx as [i Hi], Hz as [j Hj].
    assert (i = j) as <- by (eapply (NoDup_lookup _ i j (cr_Revision x) Hnd); rewrite list_lookup_fmap, ?Hi, ?Hj; simpl; congruence).
    congruence.
Qed.

Lemma consistent_inj ns s x y :
  consistent ns s → x ∈ st_revs s → y ∈ st_revs s → cr_Name x = cr_Name y → x = y.
Proof.
  intros (_ & _ & Hin) Hx Hy Hn. destruct (Hin x Hx) as [Hnx Hlx], (Hin y Hy) as [Hny Hly].
  assert (cr_key x = cr_key y) by (unfold cr_key; congruence). congruence.
Qed.

Definition gcOne (current previous : string) (rev : ControllerRevision) : GoM (ReconcileState W) unit :=
  if bool_decide (cr_Name rev = current) || bool_decide (cr_Name rev = previous) then mret tt
  else d ← attempt (call (client_DeleteRevision rev));
       match d with
       | inr e => if IsNotFound e then mret tt
                  else fail (Wrapf ("failed to delete ControllerRevision " +:+ cr_Name rev) e)
       | inl _ => mret tt
       end.

Lemma gcOldRevisions_unfold current s :
  gcOldRevisions current s = for_each (gcOne current (previousOf current (st_revs s))) (st_revs s) s.
Proof. done. Qed.

Lemma gcOne_sound current previous rev s :
  let s' := (gcOne current previous rev s).1 in
  st_revs s' = st_revs s ∧ st_newExp s' = st_newExp s ∧
  (cluster s' = cluster s ∨
   cr_Name rev ≠ current ∧ cr_Name rev ≠ previous ∧ cluster s' = set_revs (delete (cr_key rev)) (cluster s)).
Proof.
  unfold gcOne. destruct (bool_decide (cr_Name rev = current)) eqn:E1; [by simpl; auto|].
  destruct (bool_decide (cr_Name rev = previous)) eqn:E2; [by simpl; auto|]. simpl.
  apply bool_decide_eq_false in E1, E2.
  pose proof (sound_DeleteRevision rev (st_world s)) as Hd.
  unfold attempt, call, mbind, GoM_bind.
  destruct (client_DeleteRevision rev (st_world s)) as [w [[]|e|]]; simpl in *.
  - destruct Hd as [_ Hd]. split_and!; [done..|by right].
  - destruct (IsNotFound e); simpl; (split_and!; [done..|by left]).
  - done.
Qed.

Lemma gc_sound current s :
  let s' := (gcOldRevisions current s).1 in
  cl_ddas (cluster s') = cl_ddas (cluster s) ∧
  ∀ k, cl_revs (cluster s') !! k = cl_revs (cluster s) !! k ∨
       cl_revs (cluster s') !! k = None ∧ ∃ x, x ∈ st_revs s ∧ cr_key x = k ∧
         cr_Name x ≠ current ∧ cr_Name x ≠ previousOf current (st_revs s).
Proof.
  rewrite gcOldRevisions_unfold. cbv zeta.
  apply (for_each_inv _ (λ s', cl_ddas (cluster s') = cl_ddas (cluster s) ∧
    ∀ k, cl_revs (cluster s') !! k = cl_revs (cluster s) !! k ∨
         cl_revs (cluster s') !! k = None ∧ ∃ x, x ∈ st_revs s ∧ cr_key x = k ∧
           cr_Name x ≠ current ∧ cr_Name x ≠ previousOf current (st_revs s)));
    [by auto|].
  intros x s1 Hx [Hd Hk].
  destruct (gcOne_sound current (previousOf current (st_revs s)) x s1) as (_ & _ & [->|(Hc & Hp & ->)]); [by split|].
  split; [done|]. intros k. simpl. destruct (decide (cr_key x = k)) as [<-|Hne].
  - right. rewrite lookup_delete_eq. split; [done|]. by exists x.
  - rewrite lookup_delete_ne by done. apply Hk.
Qed.

Context `{!ReliableClient W Spec}.

Lemma gcOne_reliable current previous rev s :
  is_Some (cl_revs (cluster s) !! cr_key rev) →
  ∃ s', gcOne current previous rev s = (s', Ret tt) ∧ st_revs s' = st_revs s ∧ st_newExp s' = st_newExp s ∧
    cluster s' = (if bool_decide (cr_Name rev = current) || bool_decide (cr_Name rev = previous)
                  then cluster s else set_revs (delete (cr_key rev)) (cluster s)).
Proof.
  intros Hin. unfold gcOne. destruct (_ || _); [by eauto|].
  destruct (reliable_DeleteRevision rev (st_world s) Hin) as [w Hw].
  pose proof (sound_DeleteRevision rev (st_world s)) as Hd. rewrite Hw in Hd. destruct Hd as [_ Hd].
  unfold attempt, call, mbind, GoM_bind. rewrite Hw. simpl. eexists. split; [done|]. done.
Qed.

(** Deleting, in order, the listed revisions that are not to be kept. *)
Lemma gc_loop current previous l s :
  NoDup (cr_key <$> l) →
  (∀ x, x ∈ l → is_Some (cl_revs (cluster s) !! cr_key x)) →
  ∃ s', for_each (gcOne current previous) l s = (s', Ret tt) ∧ st_newExp s' = st_newExp s ∧
    ∀ k, cl_revs (cluster s') !! k =
      if decide (Exists (λ x, cr_key x = k ∧ cr_Name x ≠ current ∧ cr_Name x ≠ previous) l)
      then None else cl_revs (cluster s) !! k.
Proof.
  revert s; induction l as [|x l IH]; intros s Hnd Hin.
  { exists s. split; [done|]. split; [done|]. intros k. rewrite decide_False; [done|]. by intros ?%Exists_nil. }
  rewrite fmap_cons in Hnd. apply NoDup_cons in Hnd as [Hx Hnd].
  destruct (gcOne_reliable current previous x s) as (s1 & H1' & _ & He1 & Hc1); [apply Hin; by left|].
  destruct (IH s1) as (s2 & H2 & He2 & Hl2); [done| |].
  { intros y Hy. rewrite Hc1. destruct (_ || _); [apply Hin; by right|]. simpl.
    rewrite lookup_delete_ne; [apply Hin; by right|]. intros Heq. apply Hx. rewrite Heq.
    by apply list_elem_of_fmap_2. }
  exists s2. split; [simpl; by rewrite (GoM_bind_Ret _ _ _ _ _ H1')|]. split; [congruence|].
  intros k. rewrite Hl2, Hc1.
  destruct (decide (Exists _ l)) as [Hex|Hex]; [by rewrite decide_True by (by apply Exists_cons_tl)|].
  destruct (bool_decide (cr_Name x = current)) eqn:Ec; [|destruct (bool_decide (cr_Name x = previous)) eqn:Ep].
  - apply bool_decide_eq_true in Ec. rewrite decide_False; [done|]. intros [?|?]%Exists_cons; naive_solver.
  - apply bool_decide_eq_true in Ep. rewrite decide_False; [done|]. intros [?|?]%Exists_cons; naive_solver.
  - apply bool_decide_eq_false in Ec, Ep. simpl. destruct (decide (cr_key x = k)) as [<-|Hne].
    + rewrite lookup_delete_eq, decide_True; [done|]. by apply Exists_cons_hd.
    + rewrite lookup_delete_ne by done. rewrite decide_False; [done|]. intros [?|?]%Exists_cons; naive_solver.
Qed.

End GC.

Section Collected.
Context {W Spec : Type} `{SoundClient W Spec}.
Implicit Types s : ReconcileState W.
Abbreviation cluster s := (view (st_world s)).

(** C23: garbage collection deletes the superseded revisions and nothing else.
    Let the listed revisions be those the API server holds, with distinct numbers.
    For every sound client and whatever calls fail, a stored revision is either
    left as it is or deleted, and then it is a listed one, not the current one,
    with another listed one that is not current and more recent: the current one
    and the most recent other one stay; and no DatadogAgent object is changed.
    When no call fails, every such revision is gone and no error is returned. *)
Theorem gc_deletes_only_superseded ns current s :
  consistent ns s →
  let r := gcOldRevisions current s in
  cl_ddas (cluster r.1) = cl_ddas (cluster s) ∧
  (∀ k, cl_revs (cluster r.1) !! k = cl_revs (cluster s) !! k ∨
        cl_revs (cluster r.1) !! k = None ∧ ∃ x, x ∈ st_revs s ∧ cr_key x = k ∧ doomed current (st_revs s) x) ∧
  (∀ (_ : ReliableClient W Spec), r.2 = Ret tt ∧
     ∀ x, x ∈ st_revs s → doomed current (st_revs s) x → cl_revs (cluster r.1) !! cr_key x = None).
Proof.
  intros Hcons r. pose proof Hcons as (Hnd & Hnum & Hin). pose proof (gc_sound current s) as [Hd Hk].
  assert (Hiff : ∀ x, x ∈ st_revs s → doomed current (st_revs s) x ↔ cr_Name x ≠ current ∧ cr_Name x ≠ previousOf current (st_revs s)).
  { intros x Hx. apply doomed_iff; [done| |done]. intros y Hy Hn. by eapply consistent_inj. }
  split_and!; [done| |].
  - intros k. destruct (Hk k) as [?|(Hn & x & Hx & Hkx & Hdoom)]; [by left|right]. split; [done|].
    exists x. split_and!; [done..|by apply Hiff].
  - intros Hrel. destruct (gc_loop current (previousOf current (st_revs s)) (st_revs s) s) as (s' & Hrun & _ & Hl); [done| |].
    { intros x Hx. destruct (Hin x Hx) as [_ ->]. done. }
    unfold r. rewrite gcOldRevisions_unfold, Hrun. split; [done|]. intros x Hx [Hc Hp]%Hiff; [|done].
    simpl. rewrite Hl, decide_True; [done|]. apply Exists_exists. by exists x.
Qed.
End Collected.

(** ** Recording the current spec *)

Section History.
Context {W Spec : Type} `{ReliableClient W Spec} `{SnapshotCodec Spec}.
Context (SafeEncodeString : string → string).
Context (spec_CommonLabels : Spec → option (gmap string string)).
Context (gvk : GroupVersionKind) (gvks : list GroupVersionKind).
Implicit Types instance : DatadogAgent Spec.
Implicit Types s : ReconcileState W.
Abbreviation cluster s := (view (st_world s)).
Abbreviation ensure := (ensureRevision (W := W) SafeEncodeString spec_CommonLabels (inl (gvk :: gvks))).
Abbreviation manage := (manageRevision (W := W) SafeEncodeString spec_CommonLabels (inl (gvk :: gvks))).

Definition maxRevision (l : list ControllerRevision) : Z := (scanRevisions 0 "" l None 0).2.

Lemma scan_max b l i acc mx : (scanRevisions i b l acc mx).2 = (scanRevisions i "" l None mx).2.
Proof.
  revert i acc mx. assert (Hgen : ∀ b' i acc acc' mx,
    (scanRevisions i b l acc mx).2 = (scanRevisions i b' l acc' mx).2).
  { intros b'. induction l as [|x l IH]; intros i acc acc' mx; simpl; [done|]. apply IH. }
  intros. apply Hgen.
Qed.

Lemma maxRevision_ge l x : x ∈ l → (cr_Revision x ≤ maxRevision l)%Z.
Proof. intros Hx. unfold maxRevision. pose proof (scanRevisions_spec "" l 0 None 0) as Hs. naive_solver. Qed.

Lemma existingByName_None n l (m : gmap string string) :
  m !! n = None → (∀ x, x ∈ l → cr_Name x ≠ n) →
  foldl (λ m rev, <[cr_Name rev := cr_Raw rev]> m) m l !! n = None.
Proof.
  revert m; induction l as [|x l IH]; intros m Hm Hl; simpl; [done|]. apply IH.
  - rewrite lookup_insert_ne; [done|]. apply Hl. by left.
  - intros y Hy. apply Hl. by right.
Qed.

Definition freshRevision instance (b : string) (l : list ControllerRevision) : ControllerRevision :=
  NewControllerRevision SafeEncodeString instance gvk (revisionLabels spec_CommonLabels instance) b
    (maxRevision l + 1)%Z None.

Lemma consistent_name_fresh instance s b :
  consistent (dda_Namespace instance) s →
  cl_revs (cluster s) !! cr_key (freshRevision instance b (st_revs s)) = None →
  ∀ x, x ∈ st_revs s → cr_Name x ≠ cr_Name (freshRevision instance b (st_revs s)).
Proof.
  intros (_ & _ & Hin) Hnone x Hx Hname. destruct (Hin x Hx) as [Hns Hlk].
  assert (cr_key x = cr_key (freshRevision instance b (st_revs s))) as Hk.
  { unfold cr_key. rewrite Hname, Hns. done. }
  congruence.
Qed.

(** No recorded revision has the snapshot: a fresh one is created above all. *)
Lemma ensure_new instance rawSpec skip b s :
  consistent (dda_Namespace instance) s →
  buildRevisionSnapshot rawSpec (dda_Annotations instance) = inl b →
  (∀ x, x ∈ st_revs s → cr_Raw x ≠ b) →
  cl_revs (cluster s) !! cr_key (freshRevision instance b (st_revs s)) = None →
  let new := freshRevision instance b (st_revs s) in
  ∃ s', ensure instance rawSpec skip s = (s', Ret (cr_Name new)) ∧ st_revs s' = st_revs s ∧
        cluster s' = set_revs (<[cr_key new := new]>) (cluster s).
Proof.
  intros Hcons Hb Hno Hfresh new. unfold ensureRevision. rewrite Hb.
  unfold mbind at 1, GoM_bind at 1, gets at 1.
  pose proof (scanRevisions_spec b (st_revs s) 0 None 0) as (Hm & _).
  pose proof (scan_max b (st_revs s) 0 None 0) as Hmx.
  destruct (scanRevisions 0 b (st_revs s) None 0) as [m mx]; simpl in *.
  destruct m as [p|]; [exfalso|].
  { destruct Hm as [[? _]|(k & _ & Hk & Hraw)]; [done|]. eapply Hno; [|done]. by eapply list_elem_of_lookup_2. }
  assert (Hnew : NewControllerRevision SafeEncodeString instance gvk (revisionLabels spec_CommonLabels instance) b
                   (mx + 1) None = new) by (unfold new, freshRevision, maxRevision; by rewrite Hmx).
  unfold createRevision. rewrite Hnew. unfold existingByName.
  rewrite existingByName_None; [|done|by apply consistent_name_fresh].
  destruct (reliable_CreateRevision new (st_world s) Hfresh) as [w Hw].
  pose proof (sound_CreateRevision new (st_world s)) as Hc. rewrite Hw in Hc. destruct Hc as [_ Hc].
  unfold attempt, call, mbind, GoM_bind. rewrite Hw. simpl. eauto.
Qed.

(** A superseded revision with the snapshot is bumped above all. *)
Lemma ensure_bump instance rawSpec b s i m :
  consistent (dda_Namespace instance) s →
  buildRevisionSnapshot rawSpec (dda_Annotations instance) = inl b →
  (scanRevisions 0 b (st_revs s) None 0).1 = Some (i, m) →
  revisionExperimentState (Some m) ≠ experimentRevisionStateRolledBack →
  (cr_Revision m < maxRevision (st_revs s))%Z →
  let m' := set_cr_Revision (maxRevision (st_revs s) + 1)%Z m in
  ∃ s', ensure instance rawSpec false s = (s', Ret (cr_Name m)) ∧ st_revs s' = <[i := m']> (st_revs s) ∧
        cluster s' = set_revs (<[cr_key m := m']>) (cluster s).
Proof.
  intros Hcons Hb Hscan Hstate Hlt m'. unfold ensureRevision. rewrite Hb.
  unfold mbind at 1, GoM_bind at 1, gets at 1.
  pose proof (scanRevisions_spec b (st_revs s) 0 None 0) as (Hm & _).
  pose proof (scan_max b (st_revs s) 0 None 0) as Hmx. fold (maxRevision (st_revs s)) in Hmx.
  destruct (scanRevisions 0 b (st_revs s) None 0) as [om mx]; simpl in *. subst om mx.
  destruct Hm as [[? _]|(k & _ & Hk & _)]; [done|]. simpl in Hk. apply list_elem_of_lookup_2 in Hk.
  rewrite (bool_decide_false _ Hstate). simpl. unfold reuseRevision. simpl.
  rewrite (bool_decide_true _ Hlt). simpl.
  destruct Hcons as (_ & _ & Hin). destruct (Hin m Hk) as [_ Hlk].
  destruct (reliable_PatchRevision m (PatchRevision (maxRevision (st_revs s) + 1)) (st_world s)) as (w & r' & Hw);
    [eauto|].
  pose proof (sound_PatchRevision m (PatchRevision (maxRevision (st_revs s) + 1)) (st_world s)) as Hp.
  rewrite Hw in Hp. destruct Hp as (r0 & Hr0 & Hr' & Hc). simplify_eq.
  unfold patch_through, attempt, call, modify, mbind, GoM_bind. simpl. rewrite Hw. simpl. eauto.
Qed.

(** Keeping the current revision and the most recent other one. *)
Lemma gc_keeps_two cur hi s :
  NoDup (cr_key <$> st_revs s) →
  (∀ x, x ∈ st_revs s → is_Some (cl_revs (cluster s) !! cr_key x)) →
  hi ∈ st_revs s → cr_Name hi ≠ cur → (0 ≤ cr_Revision hi)%Z →
  (∀ x, x ∈ st_revs s → cr_Name x ≠ cur → cr_Revision x < cr_Revision hi ∨ x = hi)%Z →
  ∃ s', (_ ← attempt (gcOldRevisions cur); mret tt) s = (s', Ret tt) ∧
    ∀ k, cl_revs (cluster s') !! k =
      if decide (Exists (λ x, cr_key x = k ∧ cr_Name x ≠ cur ∧ cr_Name x ≠ cr_Name hi) (st_revs s))
      then None else cl_revs (cluster s) !! k.
Proof.
  intros Hnd Hin Hhi Hcur Hpos Hmax.
  assert (Hprev : previousOf cur (st_revs s) = cr_Name hi).
  { unfold previousOf. pose proof (findPrevious_spec cur (st_revs s) ((-1)%Z, "")) as (_ & Hle & Hw).
    destruct Hw as [Hw|(x & Hx & Hxc & Hw)].
    - specialize (Hle hi Hhi Hcur). rewrite Hw in Hle. simpl in Hle. lia.
    - rewrite Hw in *. simpl in *. destruct (Hmax x Hx Hxc) as [Hlt| ->]; [|done].
      specialize (Hle hi Hhi Hcur). lia. }
  destruct (gc_loop cur (cr_Name hi) (st_revs s) s Hnd Hin) as (s' & Hloop & _ & Hlk).
  exists s'. split; [|done]. unfold mbind, GoM_bind, attempt.
  rewrite gcOldRevisions_unfold, Hprev, Hloop. done.
Qed.

(** Two revisions, one above the other: the lower one is the target. *)
Lemma findRollbackTarget_pair a b l :
  (0 ≤ cr_Revision b < cr_Revision a)%Z → NoDup l → (∀ x, x ∈ l ↔ x = a ∨ x = b) →
  findRollbackTarget l = cr_Name b.
Proof.
  intros Hab Hnd Hl.
  assert (Hne : a ≠ b) by (intros ->; lia).
  assert (Hp : l ≡ₚ [a; b]).
  { apply NoDup_Permutation; [done| |].
    - apply NoDup_cons. split; [|apply NoDup_singleton]. by rewrite list_elem_of_singleton.
    - intros x. rewrite Hl, elem_of_cons, list_elem_of_singleton. done. }
  apply symmetry, Permutation_length_2_inv in Hp as [->| ->]; unfold findRollbackTarget; simpl;
    unfold targetStep; simpl; repeat (case_bool_decide; simpl in *; try lia); done.
Qed.

(** [hi] is the most recent of the listed revisions. *)
Definition highest (hi : ControllerRevision) (l : list ControllerRevision) : Prop :=
  hi ∈ l ∧ (0 ≤ cr_Revision hi)%Z ∧ ∀ x, x ∈ l → x = hi ∨ (cr_Revision x < cr_Revision hi)%Z.

(** The revisions left of a DatadogAgent: [cur] and [hi], every other listed one
    gone, and the rest of the API server's revisions as it was. *)
Definition leaves_two (cur hi : ControllerRevision) s s' : Prop :=
  ∀ k, cl_revs (cluster s') !! k =
    if decide (k = cr_key cur) then Some cur
    else if decide (k = cr_key hi) then Some hi
    else if decide (k ∈ cr_key <$> st_revs s) then None
    else cl_revs (cluster s) !! k.

(** What garbage collection leaves after [cur] was recorded next to [hi]. *)
Lemma leaves_two_intro ns cur hi l s s1 s2 :
  cr_key <$> l = cr_key <$> st_revs s →
  (∀ x, x ∈ l → cr_Namespace x = ns) → cr_Namespace cur = ns → cr_Namespace hi = ns →
  cr_Name cur ≠ cr_Name hi →
  cl_revs (cluster s) !! cr_key hi = Some hi →
  cluster s1 = set_revs (<[cr_key cur := cur]>) (cluster s) →
  (∀ k, cl_revs (cluster s2) !! k =
    if decide (Exists (λ x, cr_key x = k ∧ cr_Name x ≠ cr_Name cur ∧ cr_Name x ≠ cr_Name hi) l)
    then None else cl_revs (cluster s1) !! k) →
  leaves_two cur hi s s2.
Proof.
  intros Hkeys Hns Hcur Hhi Hne Hlk Hc Hgc k. rewrite Hgc, Hc, <-Hkeys. simpl. clear Hgc.
  assert (Hsame : ∀ x y, x ∈ l → cr_Namespace y = ns → cr_key x = cr_key y ↔ cr_Name x = cr_Name y).
  { intros x y Hx Hy. unfold cr_key. rewrite (Hns x Hx), Hy. split; congruence. }
  destruct (decide (k = cr_key cur)) as [->|Hk1].
  { rewrite decide_False, lookup_insert_eq; [done|]. intros (x & Hx & Hk & Hn & _)%Exists_exists.
    by apply Hn, Hsame. }
  destruct (decide (k = cr_key hi)) as [->|Hk2].
  { rewrite decide_False, lookup_insert_ne; [done|congruence|].
    intros (x & Hx & Hk & _ & Hn)%Exists_exists. by apply Hn, Hsame. }
  rewrite lookup_insert_ne by congruence.
  destruct (decide (k ∈ cr_key <$> l)) as [Hin|Hin].
  - apply list_elem_of_fmap in Hin as (x & -> & Hx). rewrite decide_True; [done|].
    apply Exists_exists. exists x. by rewrite <-!Hsame.
  - rewrite decide_False; [done|]. intros (x & Hx & <- & _)%Exists_exists.
    by apply Hin, list_elem_of_fmap_2.
Qed.


Lemma highest_maxRevision hi l : highest hi l → maxRevision l = cr_Revision hi.
Proof.
  intros (Hhi & Hpos & Hmax). pose proof (maxRevision_ge _ _ Hhi).
  pose proof (scanRevisions_spec "" l 0 None 0) as (_ & _ & _ & Hw). fold (maxRevision l) in Hw.
  destruct Hw as [Hw|(x & Hx & Hw)]; [lia|]. destruct (Hmax x Hx) as [->|?]; lia.
Qed.

(** When the current spec is one already recorded below the most recent
    revision (a manual revert), and outside a rollback, one reconcile moves that
    revision above all others and the previously most recent one becomes the
    rollback target; a second snapshot of the same spec is never created. *)
Theorem reverted_spec_is_bumped instance rawSpec b s hi i m :
  consistent (dda_Namespace instance) s →
  highest hi (st_revs s) →
  buildRevisionSnapshot rawSpec (dda_Annotations instance) = inl b →
  (scanRevisions 0 b (st_revs s) None 0).1 = Some (i, m) →
  revisionExperimentState (Some m) ≠ experimentRevisionStateRolledBack →
  m ≠ hi →
  skipRevisionBump (st_newExp s) = false →
  let m' := set_cr_Revision (cr_Revision hi + 1)%Z m in
  ∃ s', manage instance rawSpec s = (s', Ret tt) ∧ leaves_two m' hi s s' ∧
        ∀ l, NoDup l → (∀ x, x ∈ l ↔ x = m' ∨ x = hi) → findRollbackTarget l = cr_Name hi.
Proof.
  intros Hcons Hhigh Hb Hscan Hstate Hmh Hskip m'.
  pose proof (highest_maxRevision _ _ Hhigh) as Hmx. destruct Hhigh as (Hhi & Hpos & Hmax).
  assert (Hm : st_revs s !! i = Some m).
  { pose proof (scanRevisions_spec b (st_revs s) 0 None 0) as (Hm & _). rewrite Hscan in Hm.
    destruct Hm as [[? _]|(k & Hk & Hl & _)]; [done|]. simpl in *. by subst. }
  pose proof (list_elem_of_lookup_2 _ _ _ Hm) as Hml.
  assert (Hlt : (cr_Revision m < cr_Revision hi)%Z) by (destruct (Hmax m Hml); [done|lia]).
  destruct (ensure_bump instance rawSpec b s i m) as (s1 & He & Hl1 & Hc1); [done..|by rewrite Hmx|].
  rewrite Hmx in Hl1, Hc1. fold m' in Hl1, Hc1.
  assert (Hname : cr_Name hi ≠ cr_Name m) by (intros Hn; apply Hmh; symmetry; by eapply consistent_inj).
  assert (Hkeys : cr_key <$> st_revs s1 = cr_key <$> st_revs s).
  { rewrite Hl1, list_fmap_insert, list_insert_id; [done|]. by rewrite list_lookup_fmap, Hm. }
  assert (Hel : ∀ x, x ∈ st_revs s1 → x = m' ∨ x ∈ st_revs s).
  { intros x. rewrite Hl1. intros (j & Hj)%list_elem_of_lookup.
    apply list_lookup_insert_Some in Hj as [(_ & -> & _)|(_ & Hj)]; [by left|right]. by eapply list_elem_of_lookup_2. }
  pose proof Hcons as (Hnd & _ & Hin). destruct (Hin hi Hhi) as [Hns Hst], (Hin m Hml) as [Hnm Hsm].
  destruct (gc_keeps_two (cr_Name m) hi s1) as (s2 & Hg & Hlk); rewrite ?Hkeys; [done| | |done|done| |].
  { intros x Hx. rewrite Hc1. simpl. destruct (Hel x Hx) as [->|Hx'].
    - rewrite lookup_insert_eq. eauto.
    - destruct (decide (cr_key m = cr_key x)) as [->|]; [rewrite lookup_insert_eq|rewrite lookup_insert_ne by done; exists x; by apply Hin]. eauto. }
  { rewrite Hl1. apply list_elem_of_lookup in Hhi as [j Hj]. apply list_elem_of_lookup. exists j.
    rewrite list_lookup_insert_ne; [done|]. intros ->. congruence. }
  { intros x Hx Hn. destruct (Hel x Hx) as [->|Hx']; [done|]. destruct (Hmax x Hx'); auto. }
  exists s2. split; [|split].
  - unfold manageRevision. unfold mbind at 1, GoM_bind at 1, gets at 1. rewrite Hskip.
    by rewrite (GoM_bind_Ret _ _ _ _ _ He).
  - eapply (leaves_two_intro (dda_Namespace instance)); [exact Hkeys| |done..| |done|done|exact Hlk].
    + intros x Hx. destruct (Hel x Hx) as [->|?]; [done|]. by apply Hin.
    + by apply not_eq_sym.
  - intros l. apply findRollbackTarget_pair. split; [done|]. simpl. lia.
Qed.
End History.
