(* ===== verification/Untaint.v ===== *)
(** * The untaint controller.

    Models [internal/controller/untaint_controller.go] and [pkg/untaint]: the
    controller that removes the agent-not-ready startup taint from a node when
    the agent (and optionally the CSI node server) is ready there, or when a
    timeout fires under the [remove] policy.  The node and pod API is the class
    [NodeClient]; metrics and events are recorded in order in [us_effects]. *)

From Stdlib Require Import ZArith.
From stdpp Require Import base gmap strings list.
From S2P Require Import Prelude.

(** ** Nodes and pods *)

Record Taint := mkTaint { t_Key : string; t_Value : string; t_Effect : string; t_TimeAdded : option Time }.

#[export] Instance Taint_eq_dec : EqDecision Taint.
Proof. solve_decision. Defined.

Record Node := mkNode {
  n_Name : string;
  n_CreationTimestamp : Time;
  n_Taints : list Taint
}.

Definition set_Taints (l : list Taint) (n : Node) : Node := mkNode (n_Name n) (n_CreationTimestamp n) l.

Record PodCondition := mkPodCondition { c_Type : string; c_Status : string; c_LastTransitionTime : Time }.

Record Pod := mkPod {
  p_Labels : gmap string string;
  p_NodeName : string;
  p_Conditions : list PodCondition;
  p_StartTime : option Time
}.

(** ** pkg/untaint *)

Definition AgentNotReadyTaintKey : string := "agent.datadoghq.com/not-ready".
Definition AgentNotReadyTaintValue : string := "presence".
Definition TaintEffectNoSchedule : string := "NoSchedule".

Definition AgentNotReadyTaint : Taint :=
  mkTaint AgentNotReadyTaintKey AgentNotReadyTaintValue TaintEffectNoSchedule None.

Definition IsAgentNotReadyTaint (t : Taint) : bool :=
  bool_decide (t_Key t = AgentNotReadyTaintKey) && bool_decide (t_Value t = AgentNotReadyTaintValue)
  && bool_decide (t_Effect t = TaintEffectNoSchedule).

Definition hasTaint (node : Node) : bool := ContainsFunc IsAgentNotReadyTaint (n_Taints node).

(** ** Configuration *)

Inductive TimeoutPolicy := PolicyRemove | PolicyKeep.

#[export] Instance TimeoutPolicy_eq_dec : EqDecision TimeoutPolicy.
Proof. solve_decision. Defined.

Definition ParseTimeoutPolicy (s : string) : TimeoutPolicy + error :=
  if bool_decide (s = "") || bool_decide (s = "remove") then inl PolicyRemove
  else if bool_decide (s = "keep") then inl PolicyKeep
  else inr (Errorf ("invalid untaint timeout policy " +:+ s)).

Record UntaintReconciler := mkUntaintReconciler {
  waitForCSIDriver : bool;
  eventsEnabled : bool;
  readinessTimeout : Duration;
  schedulingTimeout : Duration;
  timeoutPolicy : TimeoutPolicy
}.

Definition EnvEventsEnabled : string := "DD_UNTAINT_CONTROLLER_EVENTS_ENABLED".
Definition EnvReadinessTimeout : string := "DD_UNTAINT_CONTROLLER_TIMEOUT".
Definition EnvSchedulingTimeout : string := "DD_UNTAINT_CONTROLLER_SCHEDULING_TIMEOUT".
Definition EnvTimeoutPolicy : string := "DD_UNTAINT_CONTROLLER_TIMEOUT_POLICY".
Definition DefaultReadinessTimeout : Duration := (10 * Minute)%Z.
Definition DefaultSchedulingTimeout : Duration := (5 * Minute)%Z.
Definition conflictRequeueDelay : Duration := Second.

Section Configuration.
(** [time.ParseDuration], and the environment of the process. *)
Context (ParseDuration : string → Duration + error).
Context (environ : gmap string string).

Definition Getenv (k : string) : string := default "" (environ !! k).

Definition durationFromEnv (envVar : string) (def : Duration) : Duration + error :=
  match environ !! envVar with
  | None => inl def
  | Some raw =>
      if bool_decide (raw = "") then inl def
      else match ParseDuration raw with
           | inr e => inr (Wrapf ("invalid " +:+ envVar) e)
           | inl d => if bool_decide (d ≤ 0)%Z then inr (Errorf ("invalid " +:+ envVar +:+ ": must be positive"))
                      else inl d
           end
  end.

Definition NewUntaintReconciler (waitForCSI : bool) : UntaintReconciler + error :=
  match ParseTimeoutPolicy (Getenv EnvTimeoutPolicy) with
  | inr e => inr (Wrapf ("invalid " +:+ EnvTimeoutPolicy) e)
  | inl policy =>
  match durationFromEnv EnvReadinessTimeout DefaultReadinessTimeout with
  | inr e => inr e
  | inl readiness =>
  match durationFromEnv EnvSchedulingTimeout DefaultSchedulingTimeout with
  | inr e => inr e
  | inl scheduling =>
      inl (mkUntaintReconciler waitForCSI (bool_decide (Getenv EnvEventsEnabled = "true"))
             readiness scheduling policy)
  end end end.
End Configuration.

(** ** Pod inspection *)

Fixpoint readyTransition (conditions : list PodCondition) : option Time :=
  match conditions with
  | [] => None
  | c :: conditions =>
      if bool_decide (c_Type c = "Ready") && bool_decide (c_Status c = "True")
      then Some (c_LastTransitionTime c) else readyTransition conditions
  end.

Definition podReadyTransition (pod : Pod) : option Time := readyTransition (p_Conditions pod).

Definition isReady (pod : Pod) : bool := bool_decide (is_Some (podReadyTransition pod)).

(** [if !found || ts.After(latest) { latest, found = ts, true }] *)
Definition keepLatest (latest : option Time) (ts : option Time) : option Time :=
  match ts with
  | None => latest
  | Some ts => match latest with
               | None => Some ts
               | Some l => if Time_After ts l then Some ts else latest
               end
  end.

Definition maxReadyTransitionTime (pods : list Pod) : option Time :=
  foldl (λ latest p, keepLatest latest (podReadyTransition p)) None pods.

Definition latestPodStartTime (pods : list Pod) : option Time :=
  foldl (λ latest p, keepLatest latest (p_StartTime p)) None pods.

(** The first Ready pod, in list order. *)
Fixpoint firstReady (pods : list Pod) : option Time :=
  match pods with
  | [] => None
  | p :: pods => match podReadyTransition p with Some ts => Some ts | None => firstReady pods end
  end.

(** ** The API, metrics and events *)

(** A JSON Patch on [/spec/taints]. *)
Record taintPatchOp := mkTaintPatchOp { tp_Op : string; tp_Path : string; tp_Value : list Taint }.

Class NodeClient (W : Type) := {
  client_GetNode : string → GoM W Node;
  (** pods with the label [k = v] indexed under the node name *)
  client_ListPods : string → string → string → GoM W (list Pod);
  client_PatchNode : string → list taintPatchOp → GoM W unit
}.

Inductive UntaintEffect :=
  | TaintRemovalsTotal (node reason : string)
  | TaintRemovalLatency (node : string) (d : Duration)
  | TaintTimeoutsTotal (reason : string) (policy : TimeoutPolicy)
  | TaintRemovalErrorsTotal
  | DeleteNodeSeries (node : string)
  | NodeEvent (node type reason : string).

Record UntaintState (W : Type) := mkUState { us_world : W; us_effects : list UntaintEffect }.
Arguments mkUState {_}.
Arguments us_world {_}.
Arguments us_effects {_}.

Definition emit {W : Type} (e : UntaintEffect) : GoM (UntaintState W) unit :=
  modify (λ s, mkUState (us_world s) (us_effects s ++ [e])).

Definition api {W A : Type} (m : GoM W A) : GoM (UntaintState W) A := λ s,
  let (w', o) := m (us_world s) in (mkUState w' (us_effects s), o).

Definition AgentDeploymentComponentLabelKey : string := "agent.datadoghq.com/component".
Definition DefaultAgentResourceSuffix : string := "agent".
Definition AppLabelKey : string := "app".
Definition NodeServerDaemonSetAppValue : string := "datadog-csi-driver-node-server".

Section Controller.
Context {W : Type} `{NodeClient W}.
Context (r : UntaintReconciler).
(** The reading of [r.clock] during the call. *)
Context (now : Time).

Abbreviation M := (GoM (UntaintState W)).
(** [ctrl.Result]: its [RequeueAfter], 0 for none. *)
Abbreviation Result := Duration (only parsing).

(** Marshalling taints does not fail. *)
Definition removeTaint (node : Node) : M Result :=
  let currentTaints := n_Taints node in
  let newTaints := reject IsAgentNotReadyTaint currentTaints in
  if bool_decide (length newTaints = length currentTaints) then mret 0%Z
  else
    p ← attempt (api (client_PatchNode (n_Name node)
          [ mkTaintPatchOp "test" "/spec/taints" currentTaints;
            mkTaintPatchOp "replace" "/spec/taints" newTaints ]));
    match p with
    | inr e => if IsConflict e || IsInvalid e then mret conflictRequeueDelay
               else _ ← emit TaintRemovalErrorsTotal;
                    fail (Wrapf ("failed to remove taint from node " +:+ n_Name node) e)
    | inl _ => mret 0%Z
    end.

Definition completeUntaintFromReadiness (node : Node) (readyAt : Time) : M Result :=
  result ← removeTaint node;
  if bool_decide (0 < result)%Z then mret result
  else
    _ ← emit (TaintRemovalsTotal (n_Name node) "agent_ready");
    _ ← when (negb (Time_IsZero readyAt)) (emit (TaintRemovalLatency (n_Name node) (Time_Sub now readyAt)));
    _ ← when (eventsEnabled r) (emit (NodeEvent (n_Name node) "Normal" "TaintRemoved"));
    mret 0%Z.

Definition applyTimeoutPolicy (node : Node) (reason : string) : M Result :=
  let policy := timeoutPolicy r in
  _ ← emit (TaintTimeoutsTotal reason policy);
  _ ← when (eventsEnabled r)
        (emit (NodeEvent (n_Name node) (if bool_decide (policy = PolicyKeep) then "Warning" else "Normal")
                 "UntaintTimeout"));
  if bool_decide (policy = PolicyKeep) then mret 0%Z
  else
    result ← removeTaint node;
    if bool_decide (0 < result)%Z then mret result
    else _ ← emit (TaintRemovalsTotal (n_Name node) "timeout"); mret 0%Z.

Definition schedulingTimeoutResult (node : Node) : M Result :=
  let created := n_CreationTimestamp node in
  if Time_IsZero created then mret (schedulingTimeout r)
  else
    let elapsed := Time_Sub now created in
    if bool_decide (schedulingTimeout r ≤ elapsed)%Z then applyTimeoutPolicy node "scheduling"
    else mret (wrap64 (schedulingTimeout r - elapsed)).

Definition readinessTimeoutResult (node : Node) (latestStart : Time) : M Result :=
  let elapsed := Time_Sub now latestStart in
  if bool_decide (readinessTimeout r ≤ elapsed)%Z then applyTimeoutPolicy node "readiness"
  else mret (wrap64 (readinessTimeout r - elapsed)).

Definition reconcileTaintedNodeTimeouts (node : Node) (agents : list Pod) (csiPods : option (list Pod)) : M Result :=
  if negb (waitForCSIDriver r) then
    if bool_decide (length agents = 0) then schedulingTimeoutResult node
    else match latestPodStartTime agents with
         | None => mret (readinessTimeout r)
         | Some latestStart => readinessTimeoutResult node latestStart
         end
  else
    let csis := default [] csiPods in
    if bool_decide (length agents = 0) || bool_decide (length csis = 0) then schedulingTimeoutResult node
    else match latestPodStartTime agents, latestPodStartTime csis with
         | Some agentLatest, Some csiLatest =>
             readinessTimeoutResult node (if Time_After csiLatest agentLatest then csiLatest else agentLatest)
         | _, _ => mret (readinessTimeout r)
         end.

Definition Reconcile (name : string) : M Result :=
  g ← attempt (api (client_GetNode name));
  match g with
  | inr e => if IsNotFound e then _ ← emit (DeleteNodeSeries name); mret 0%Z
             else fail (Wrapf ("failed to get node " +:+ name) e)
  | inl node =>
      if negb (hasTaint node) then mret 0%Z else
      pods ← wrap ("failed to list pods on node " +:+ name)
               (api (client_ListPods AgentDeploymentComponentLabelKey DefaultAgentResourceSuffix name));
      if waitForCSIDriver r then
        csiPods ← wrap ("failed to list CSI driver pods on node " +:+ name)
                    (api (client_ListPods AppLabelKey NodeServerDaemonSetAppValue name));
        let agentReady := ContainsFunc isReady pods in
        let csiReady := bool_decide (0 < length csiPods) && ContainsFunc isReady csiPods in
        if agentReady && csiReady
        then completeUntaintFromReadiness node (default 0%Z (maxReadyTransitionTime (pods ++ csiPods)))
        else reconcileTaintedNodeTimeouts node pods (Some csiPods)
      else
        match firstReady pods with
        | Some readyAt => completeUntaintFromReadiness node readyAt
        | None => reconcileTaintedNodeTimeouts node pods None
        end
  end.
End Controller.

(** ** Watches *)

(** The objects a watch delivers; [OtherObject] is anything else. *)
Inductive WatchedObject := PodObject (p : Pod) | NodeObject (n : Node) | OtherObject.

Inductive WatchEvent :=
  | CreateEvent (o : WatchedObject)
  | UpdateEvent (old new : WatchedObject)
  | DeleteEvent (o : WatchedObject)
  | GenericEvent (o : WatchedObject).

Definition podToNodeRequest (o : WatchedObject) : list string :=
  match o with
  | PodObject pod => if bool_decide (p_NodeName pod = "") then [] else [p_NodeName pod]
  | _ => []
  end.

Definition nodeToRequest (o : WatchedObject) : list string :=
  match o with
  | NodeObject node => [n_Name node]
  | _ => []
  end.

Definition isAgentPod (pod : Pod) : bool :=
  bool_decide (default "" (p_Labels pod !! AgentDeploymentComponentLabelKey) = DefaultAgentResourceSuffix).

Definition isCSINodeServerPod (pod : Pod) : bool :=
  bool_decide (default "" (p_Labels pod !! AppLabelKey) = NodeServerDaemonSetAppValue).

Definition podWatchPredicate (r : UntaintReconciler) (e : WatchEvent) : bool :=
  let isRelevant o :=
    match o with
    | PodObject p => isAgentPod p || (waitForCSIDriver r && isCSINodeServerPod p)
    | _ => false
    end in
  match e with
  | CreateEvent o => isRelevant o
  | UpdateEvent _ new => isRelevant new
  | DeleteEvent o => isRelevant o
  | GenericEvent _ => false
  end.

Definition taintedNodePredicate (e : WatchEvent) : bool :=
  match e with
  | CreateEvent (NodeObject node) => hasTaint node
  | UpdateEvent (NodeObject oldNode) (NodeObject newNode) => hasTaint newNode && negb (hasTaint oldNode)
  | DeleteEvent (NodeObject _) => true
  | _ => false
  end.
