(* ===== verification/UntaintTheorems.v ===== *)
(** * Properties of the untaint controller.

    What the node API documents is the class [SoundNodeClient] over the
    reference state [NodeWorld].  The verdict on a tainted node is stated
    without the order of the pods: [nodeReady], [timeoutExpired]; the controller
    removes exactly its taint on exactly those verdicts, and otherwise comes
    back at the moment the verdict can change. *)

From Stdlib Require Import ZArith Lia.
From stdpp Require Import base gmap strings list.
From S2P Require Import Prelude Untaint.

(** ** The node API *)

Record NodeWorld := mkNodeWorld { nw_nodes : gmap string Node; nw_pods : list Pod }.

Definition podsOn (k v node : string) (w : NodeWorld) : list Pod :=
  filter (λ p, p_Labels p !! k = Some v ∧ p_NodeName p = node) (nw_pods w).

(** [test] compares the whole list, [replace] overwrites it. *)
Definition apply_taint_op (o : taintPatchOp) (l : list Taint) : option (list Taint) :=
  if decide (tp_Path o = "/spec/taints") then
    if decide (tp_Op o = "test") then (if decide (l = tp_Value o) then Some l else None)
    else if decide (tp_Op o = "replace") then Some (tp_Value o)
    else None
  else None.

Fixpoint apply_taint_patch (ops : list taintPatchOp) (l : list Taint) : option (list Taint) :=
  match ops with
  | [] => Some l
  | o :: ops => l' ← apply_taint_op o l; apply_taint_patch ops l'
  end.

Definition set_node (n : Node) (w : NodeWorld) : NodeWorld :=
  mkNodeWorld (<[n_Name n := n]> (nw_nodes w)) (nw_pods w).

Definition sound_node_call {W A : Type} (view : W → NodeWorld)
    (post : NodeWorld → NodeWorld → A → Prop) (m : GoM W A) : Prop :=
  ∀ w, match m w with
       | (w', Ret a) => post (view w) (view w') a
       | (w', Fail _) => view w' = view w
       | (_, Panic) => False
       end.

Class SoundNodeClient (W : Type) `{NodeClient W} := {
  nview : W → NodeWorld;
  sound_GetNode name :
    sound_node_call nview (λ c c' n, c' = c ∧ nw_nodes c !! name = Some n ∧ n_Name n = name) (client_GetNode name);
  sound_GetNode_NotFound name w w' e :
    client_GetNode name w = (w', Fail e) → IsNotFound e = true → nw_nodes (nview w) !! name = None;
  sound_ListPods k v node :
    sound_node_call nview (λ c c' l, c' = c ∧ l ≡ₚ podsOn k v node c) (client_ListPods k v node);
  sound_PatchNode name ops :
    sound_node_call nview (λ c c' _, ∃ n l, nw_nodes c !! name = Some n ∧ n_Name n = name ∧
      apply_taint_patch ops (n_Taints n) = Some l ∧ c' = set_node (set_Taints l n) c) (client_PatchNode name ops)
}.

(** A client whose calls fail only when the object is missing or the patch
    does not apply. *)
Class ReliableNodeClient (W : Type) `{SoundNodeClient W} := {
  reliable_GetNode name n (w : W) :
    nw_nodes (nview w) !! name = Some n → n_Name n = name → ∃ w', client_GetNode name w = (w', Ret n);
  reliable_ListPods k v node (w : W) : ∃ w' l, client_ListPods k v node w = (w', Ret l);
  reliable_PatchNode name ops n l (w : W) :
    nw_nodes (nview w) !! name = Some n → n_Name n = name → apply_taint_patch ops (n_Taints n) = Some l →
    ∃ w', client_PatchNode name ops w = (w', Ret tt)
}.

(** *** An in-memory node API *)

Definition mem_GetNode (name : string) : GoM NodeWorld Node := λ w,
  match nw_nodes w !! name with
  | Some n => if decide (n_Name n = name) then (w, Ret n) else (w, Fail (ApiError ReasonUnknown))
  | None => (w, Fail (ApiError ReasonNotFound))
  end.

Definition mem_PatchNode (name : string) (ops : list taintPatchOp) : GoM NodeWorld unit := λ w,
  match nw_nodes w !! name with
  | Some n =>
      match apply_taint_patch ops (n_Taints n) with
      | Some l => if decide (n_Name n = name) then (set_node (set_Taints l n) w, Ret tt)
                  else (w, Fail (ApiError ReasonUnknown))
      | None => (w, Fail (ApiError ReasonInvalid))
      end
  | None => (w, Fail (ApiError ReasonNotFound))
  end.

#[export] Instance mem_node_client : NodeClient NodeWorld := {|
  client_GetNode := mem_GetNode;
  client_ListPods k v node := gets (podsOn k v node);
  client_PatchNode := mem_PatchNode
|}.

#[export] Program Instance mem_node_sound : SoundNodeClient NodeWorld := {| nview w := w |}.
Next Obligation.
  intros name w. simpl. unfold mem_GetNode. destruct (nw_nodes w !! name) eqn:E; [|done]. by case_decide.
Qed.
Next Obligation.
  intros name w w' e. simpl. unfold mem_GetNode. destruct (nw_nodes w !! name); [|done].
  case_decide; intros; by simplify_eq.
Qed.
Next Obligation. by intros k v node w. Qed.
Next Obligation.
  intros name ops w. simpl. unfold mem_PatchNode. destruct (nw_nodes w !! name) as [n|] eqn:E; [|done].
  destruct (apply_taint_patch ops (n_Taints n)) eqn:E2; [|done]. case_decide; [|done]. eauto 10.
Qed.

#[export] Instance mem_node_reliable : ReliableNodeClient NodeWorld.
Proof.
  split.
  - intros name n w Hn Hname. simpl in *. unfold mem_GetNode. rewrite Hn, decide_True by done. eauto.
  - intros k v node w. simpl. unfold gets. eauto.
  - intros name ops n l w Hn Hname Hl. simpl in *. unfold mem_PatchNode. rewrite Hn, Hl, decide_True by done. eauto.
Qed.

(** ** The verdict on a tainted node *)

Section Verdict.
Context (r : UntaintReconciler) (now : Time).

(** Readiness: an agent pod is Ready, and with the CSI gate a CSI pod too. *)
Definition nodeReady (agents csis : list Pod) : Prop :=
  (∃ p, p ∈ agents ∧ isReady p = true) ∧ (waitForCSIDriver r = true → ∃ p, p ∈ csis ∧ isReady p = true).

(** A required workload has no pod on the node. *)
Definition unscheduled (agents csis : list Pod) : Prop :=
  agents = [] ∨ waitForCSIDriver r = true ∧ csis = [].

Definition started (l : list Pod) : Prop := ∃ p, p ∈ l ∧ is_Some (p_StartTime p).

(** Every required workload has a pod the kubelet has started. *)
Definition allStarted (agents csis : list Pod) : Prop :=
  started agents ∧ (waitForCSIDriver r = true → started csis).

(** The pods whose start time restarts the readiness clock. *)
Definition clockPods (agents csis : list Pod) : list Pod :=
  agents ++ (if waitForCSIDriver r then csis else []).

Definition schedulingExpired (node : Node) : Prop :=
  n_CreationTimestamp node ≠ 0%Z ∧ (schedulingTimeout r ≤ Time_Sub now (n_CreationTimestamp node))%Z.

Definition readinessExpired (pods : list Pod) : Prop :=
  ∀ p t, p ∈ pods → p_StartTime p = Some t → (readinessTimeout r ≤ Time_Sub now t)%Z.

Definition timeoutExpired (node : Node) (agents csis : list Pod) : Prop :=
  unscheduled agents csis ∧ schedulingExpired node ∨
  ¬ unscheduled agents csis ∧ allStarted agents csis ∧ readinessExpired (clockPods agents csis).

Inductive verdict := VReady (readyAt : Time) | VTimeout (reason : string) | VWait (d : Duration).

Definition readinessVerdict (latestStart : Time) : verdict :=
  if bool_decide (readinessTimeout r ≤ Time_Sub now latestStart)%Z then VTimeout "readiness"
  else VWait (wrap64 (readinessTimeout r - Time_Sub now latestStart)).

Definition schedulingVerdict (node : Node) : verdict :=
  if Time_IsZero (n_CreationTimestamp node) then VWait (schedulingTimeout r)
  else if bool_decide (schedulingTimeout r ≤ Time_Sub now (n_CreationTimestamp node))%Z then VTimeout "scheduling"
  else VWait (wrap64 (schedulingTimeout r - Time_Sub now (n_CreationTimestamp node))).

(** The later of two start times, when both are known. *)
Definition laterStart (a c : option Time) : option Time :=
  match a, c with
  | Some a, Some c => Some (if Time_After c a then c else a)
  | _, _ => None
  end.

Definition startVerdict (start : option Time) : verdict :=
  match start with
  | None => VWait (readinessTimeout r)
  | Some t => readinessVerdict t
  end.

Definition timeoutVerdict (node : Node) (agents csis : list Pod) : verdict :=
  if bool_decide (unscheduled agents csis) then schedulingVerdict node
  else startVerdict (if waitForCSIDriver r
                     then laterStart (latestPodStartTime agents) (latestPodStartTime csis)
                     else latestPodStartTime agents).
End Verdict.

(** ** Scanning the pods *)

Lemma keepLatest_fold (f : Pod → option Time) l acc :
  match foldl (λ latest p, keepLatest latest (f p)) acc l with
  | None => acc = None ∧ ∀ p, p ∈ l → f p = None
  | Some t => (acc = Some t ∨ ∃ p, p ∈ l ∧ f p = Some t) ∧
              (∀ t', acc = Some t' → t' ≤ t)%Z ∧ (∀ p t', p ∈ l → f p = Some t' → t' ≤ t)%Z
  end.
Proof.
  revert acc; induction l as [|x l IH]; intros acc; simpl.
  { destruct acc; [|set_solver]. split_and!; [by left|intros; simplify_eq; lia|set_solver]. }
  specialize (IH (keepLatest acc (f x))). destruct (foldl _ _ l) as [t|].
  - destruct IH as (Hw & Hacc & Hl).
    assert (Hx : ∀ t', f x = Some t' → (t' ≤ t)%Z).
    { intros t' Ht'. rewrite Ht' in Hacc. unfold keepLatest, Time_After in Hacc.
      destruct acc as [a|]; [|by apply Hacc].
      case_bool_decide; [by apply Hacc|]. specialize (Hacc a eq_refl). lia. }
    split_and!.
    + destruct Hw as [Hw|(p & Hp & Hf)]; [|right; exists p; set_solver].
      unfold keepLatest, Time_After in Hw. destruct (f x) eqn:E; [|by left].
      destruct acc; [case_bool_decide; [|by left]|]; right; exists x; set_solver.
    + intros t' ->. unfold keepLatest, Time_After in Hacc. destruct (f x) as [u|]; [|by apply Hacc].
      case_bool_decide; [|by apply Hacc]. specialize (Hacc u eq_refl). lia.
    + intros p t' [->|Hp]%elem_of_cons; eauto.
  - destruct IH as [Hacc Hl]. unfold keepLatest, Time_After in Hacc.
    destruct (f x) eqn:E; [destruct acc; [case_bool_decide|]; done|].
    split; [done|]. intros p [->|Hp]%elem_of_cons; auto.
Qed.

Lemma latestPodStartTime_spec l :
  match latestPodStartTime l with
  | None => ¬ started l
  | Some t => started l ∧ (∃ p, p ∈ l ∧ p_StartTime p = Some t) ∧
              ∀ p t', p ∈ l → p_StartTime p = Some t' → (t' ≤ t)%Z
  end.
Proof.
  unfold latestPodStartTime, started. pose proof (keepLatest_fold p_StartTime l None) as Hf.
  destruct (foldl _ _ _) as [t|].
  - destruct Hf as ([?|(p & Hp & Hst)] & _ & Hl); [done|]. split_and!; [exists p; eauto|eauto|eauto].
  - destruct Hf as [_ Hn]. intros (p & Hp & [t Ht]). by rewrite (Hn p Hp) in Ht.
Qed.

Lemma firstReady_spec l :
  match firstReady l with
  | Some _ => ∃ p, p ∈ l ∧ isReady p = true
  | None => ∀ p, p ∈ l → isReady p = false
  end.
Proof.
  induction l as [|p l IH]; simpl; [set_solver|].
  unfold isReady in *. destruct (podReadyTransition p) eqn:E.
  - exists p. split; [set_solver|]. apply bool_decide_eq_true. eauto.
  - destruct (firstReady l); [destruct IH as (q & Hq & ?); exists q; set_solver|].
    intros q [->|Hq]%elem_of_cons; [|auto]. rewrite E. by apply bool_decide_eq_false, is_Some_None.
Qed.

Section VerdictFacts.
Context (r : UntaintReconciler) (now : Time).

(** The clock the verdict reads: the latest start among [clockPods], known
    exactly when every required workload has started. *)
Lemma clock_spec agents csis :
  match (if waitForCSIDriver r then laterStart (latestPodStartTime agents) (latestPodStartTime csis)
         else latestPodStartTime agents) with
  | None => ¬ allStarted r agents csis
  | Some t => allStarted r agents csis ∧
              (∃ p, p ∈ clockPods r agents csis ∧ p_StartTime p = Some t) ∧
              ∀ p t', p ∈ clockPods r agents csis → p_StartTime p = Some t' → (t' ≤ t)%Z
  end.
Proof.
  unfold allStarted, clockPods. pose proof (latestPodStartTime_spec agents) as Ha.
  destruct (waitForCSIDriver r).
  2:{ destruct (latestPodStartTime agents) as [t|]; [|naive_solver]. rewrite app_nil_r. naive_solver. }
  pose proof (latestPodStartTime_spec csis) as Hc.
  destruct (latestPodStartTime agents) as [a|]; simpl; [|naive_solver].
  destruct (latestPodStartTime csis) as [c|]; simpl; [|naive_solver].
  destruct Ha as (Hsa & (pa & Hpa & Hta) & Hla), Hc as (Hsc & (pc & Hpc & Htc) & Hlc). split; [done|].
  unfold Time_After. case_bool_decide; (split; [eexists; rewrite elem_of_app; eauto|]).
  all: intros p t' [Hp|Hp]%elem_of_app Ht'; [specialize (Hla p t' Hp Ht')|specialize (Hlc p t' Hp Ht')]; lia.
Qed.

Lemma Time_Sub_mono t u v : (u ≤ v)%Z → (Time_Sub t v ≤ Time_Sub t u)%Z.
Proof. unfold Time_Sub. lia. Qed.

(** [timeoutVerdict] decides [timeoutExpired]; otherwise it waits for what is
    left of the running clock, or a whole timeout when no clock runs yet. *)
Lemma timeoutVerdict_spec node agents csis :
  match timeoutVerdict r now node agents csis with
  | VReady _ => False
  | VTimeout _ => timeoutExpired r now node agents csis
  | VWait d =>
      ¬ timeoutExpired r now node agents csis ∧
      (unscheduled r agents csis ∧
         (n_CreationTimestamp node = 0%Z ∧ d = schedulingTimeout r ∨
          n_CreationTimestamp node ≠ 0%Z ∧ d = wrap64 (schedulingTimeout r - Time_Sub now (n_CreationTimestamp node))) ∨
       ¬ unscheduled r agents csis ∧
         (¬ allStarted r agents csis ∧ d = readinessTimeout r ∨
          ∃ t, allStarted r agents csis ∧ (∃ p, p ∈ clockPods r agents csis ∧ p_StartTime p = Some t) ∧
               (∀ p t', p ∈ clockPods r agents csis → p_StartTime p = Some t' → t' ≤ t)%Z ∧
               d = wrap64 (readinessTimeout r - Time_Sub now t)))
  end.
Proof.
  unfold timeoutVerdict. case_bool_decide as Hu.
  - unfold schedulingVerdict, timeoutExpired, schedulingExpired, Time_IsZero.
    repeat case_bool_decide; naive_solver.
  - pose proof (clock_spec agents csis) as Hc. unfold timeoutExpired.
    destruct (if waitForCSIDriver r then _ else _) as [t|]; simpl; [|naive_solver].
    destruct Hc as (Hall & (p & Hp & Ht) & Hl). unfold readinessVerdict. case_bool_decide as Hle.
    + right. split_and!; [done..|]. intros q t' Hq Ht'.
      pose proof (Time_Sub_mono now t' t (Hl q t' Hq Ht')). lia.
    + split; [|naive_solver]. intros [[? _]|(_ & _ & Hr)]; [done|]. specialize (Hr p t Hp Ht). lia.
Qed.
End VerdictFacts.

(** ** The controller *)

Section Controller.
Context {W : Type} `{SoundNodeClient W}.
Context (r : UntaintReconciler) (now : Time).
Implicit Types s : UntaintState W.
Abbreviation world s := (nview (us_world s)).

Definition act (node : Node) (v : verdict) : GoM (UntaintState W) Duration :=
  match v with
  | VReady readyAt => completeUntaintFromReadiness r now node readyAt
  | VTimeout reason => applyTimeoutPolicy r node reason
  | VWait d => mret d
  end.

Lemma schedulingTimeoutResult_act node s :
  schedulingTimeoutResult r now node s = act node (schedulingVerdict r now node) s.
Proof.
  unfold schedulingTimeoutResult, schedulingVerdict. destruct (Time_IsZero _); [done|]. by case_bool_decide.
Qed.

Lemma readinessTimeoutResult_act node t s :
  readinessTimeoutResult r now node t s = act node (readinessVerdict r now t) s.
Proof. unfold readinessTimeoutResult, readinessVerdict. by case_bool_decide. Qed.

Lemma reconcileTaintedNodeTimeouts_act node agents csis s :
  reconcileTaintedNodeTimeouts r now node agents csis s =
  act node (timeoutVerdict r now node agents (default [] csis)) s.
Proof.
  unfold reconcileTaintedNodeTimeouts, timeoutVerdict.
  assert (Hlen : ∀ l : list Pod, bool_decide (length l = 0) = bool_decide (l = [])).
  { intros l. apply bool_decide_ext. by destruct l. }
  rewrite !Hlen. set (cs := default [] csis). unfold unscheduled. destruct (waitForCSIDriver r); simpl.
  - rewrite <-bool_decide_or.
    rewrite (bool_decide_ext (agents = [] ∨ true = true ∧ cs = []) (agents = [] ∨ cs = [])) by naive_solver.
    case_bool_decide; [apply schedulingTimeoutResult_act|].
    destruct (latestPodStartTime agents), (latestPodStartTime cs); simpl; try done. apply readinessTimeoutResult_act.
  - rewrite (bool_decide_ext (agents = [] ∨ false = true ∧ cs = []) (agents = [])) by naive_solver.
    case_bool_decide; [apply schedulingTimeoutResult_act|].
    destruct (latestPodStartTime agents); simpl; [apply readinessTimeoutResult_act|done].
Qed.

(** What the controller decides on a tainted node and its pods. *)
Definition nodeVerdict (node : Node) (agents csis : list Pod) : verdict :=
  if waitForCSIDriver r then
    if ContainsFunc isReady agents && (bool_decide (0 < length csis) && ContainsFunc isReady csis)
    then VReady (default 0%Z (maxReadyTransitionTime (agents ++ csis)))
    else timeoutVerdict r now node agents csis
  else match firstReady agents with
       | Some readyAt => VReady readyAt
       | None => timeoutVerdict r now node agents csis
       end.

Lemma nodeVerdict_ready node agents csis :
  (∃ t, nodeVerdict node agents csis = VReady t) ∧ nodeReady r agents csis ∨
  nodeVerdict node agents csis = timeoutVerdict r now node agents csis ∧ ¬ nodeReady r agents csis.
Proof.
  unfold nodeVerdict, nodeReady. destruct (waitForCSIDriver r).
  - destruct (ContainsFunc isReady agents) eqn:Ha; simpl.
    + apply ContainsFunc_true in Ha. destruct (ContainsFunc isReady csis) eqn:Hc.
      * apply ContainsFunc_true in Hc as (p & Hp & Hr). left. rewrite bool_decide_true; simpl; [|].
        -- split; [eauto|]. split; [done|]. eauto.
        -- destruct csis; [set_solver|simpl; lia].
      * rewrite andb_false_r. right. split; [done|]. intros [_ (p & Hp & Hr)]; [done|].
        by rewrite (proj1 (ContainsFunc_false _ _) Hc p Hp) in Hr.
    + right. split; [done|]. intros [(p & Hp & Hr) _].
      by rewrite (proj1 (ContainsFunc_false _ _) Ha p Hp) in Hr.
  - pose proof (firstReady_spec agents) as Hf. destruct (firstReady agents) as [t|].
    + left. split; [eauto|]. done.
    + right. split; [done|]. intros [(p & Hp & Hr) _]. by rewrite (Hf p Hp) in Hr.
Qed.

(** The agent pods and the CSI pods of a node. *)
Definition agentsOn (name : string) (w : NodeWorld) : list Pod :=
  podsOn AgentDeploymentComponentLabelKey DefaultAgentResourceSuffix name w.
Definition csisOn (name : string) (w : NodeWorld) : list Pod := podsOn AppLabelKey NodeServerDaemonSetAppValue name w.

(** A reconcile either stops at a lookup, and changes nothing, or acts on the
    verdict on the stored node and its pods. *)
Inductive reconcile_path (name : string) s : UntaintState W * outcome Duration → Prop :=
  | path_stop s' o :
      world s' = world s → o ≠ Panic →
      (∃ e, o = Fail e) ∨ o = Ret 0%Z ∧ (∀ node, nw_nodes (world s) !! name = Some node → hasTaint node = false) →
      reconcile_path name s (s', o)
  | path_act node agents csis s' :
      nw_nodes (world s) !! name = Some node → n_Name node = name → hasTaint node = true →
      agents ≡ₚ agentsOn name (world s) →
      (waitForCSIDriver r = true → csis ≡ₚ csisOn name (world s)) →
      world s' = world s →
      reconcile_path name s (act node (nodeVerdict node agents csis) s').

Lemma Reconcile_path name s : reconcile_path name s (Reconcile r now name s).
Proof.
  unfold Reconcile, attempt, wrap, api, mbind, GoM_bind.
  pose proof (sound_GetNode name (us_world s)) as Hg. pose proof (sound_GetNode_NotFound name (us_world s)) as Hnf.
  destruct (client_GetNode name (us_world s)) as [w [node|e|]]; [| |done].
  2:{ destruct (IsNotFound e) eqn:E; simpl.
      - apply path_stop; [done..|]. right. split; [done|]. intros node. by rewrite (Hnf w e).
      - apply path_stop; [done..|]. eauto. }
  destruct Hg as (Hw & Hnode & Hname). destruct (hasTaint node) eqn:Ht; simpl.
  2:{ apply path_stop; [done..|]. right. split; [done|]. intros. by simplify_eq. }
  pose proof (sound_ListPods AgentDeploymentComponentLabelKey DefaultAgentResourceSuffix name w) as Hl.
  destruct (client_ListPods _ _ _ w) as [w1 [pods|e|]]; simpl; [| |done].
  2:{ apply path_stop; [simpl; congruence|done|eauto]. }
  destruct Hl as [Hw1 Hpods]. rewrite Hw in Hpods. destruct (waitForCSIDriver r) eqn:Hcsi.
  - cbn [us_world us_effects]. pose proof (sound_ListPods AppLabelKey NodeServerDaemonSetAppValue name w1) as Hc.
    destruct (client_ListPods _ _ _ w1) as [w2 [csis|e|]]; simpl; [| |done].
    2:{ apply path_stop; [simpl; congruence|done|eauto]. }
    destruct Hc as [Hw2 Hcs]. rewrite Hw1, Hw in Hcs.
    pose proof (path_act name s node pods csis (mkUState w2 (us_effects s)) Hnode Hname Ht Hpods (λ _, Hcs)) as Hpath.
    unfold nodeVerdict in Hpath. rewrite Hcsi in Hpath. simpl in Hpath.
    destruct (_ && _); [apply Hpath; congruence|]. rewrite reconcileTaintedNodeTimeouts_act. apply Hpath. congruence.
  - pose proof (path_act name s node pods [] (mkUState w1 (us_effects s)) Hnode Hname Ht Hpods) as Hpath.
    unfold nodeVerdict in Hpath. rewrite Hcsi in Hpath. simpl in Hpath.
    destruct (firstReady pods); [apply Hpath; congruence|]. rewrite reconcileTaintedNodeTimeouts_act.
    apply Hpath; congruence.
Qed.

(** The same pods in another order, and any CSI pods when they are not gated on. *)
Definition same_pods (agents csis agents' csis' : list Pod) : Prop :=
  agents ≡ₚ agents' ∧ (waitForCSIDriver r = true → csis ≡ₚ csis').

(** The verdict does not depend on the order the pods were listed in. *)
Lemma same_pods_base a c a' c' :
  same_pods a c a' c' →
  (nodeReady r a c ↔ nodeReady r a' c') ∧ (unscheduled r a c ↔ unscheduled r a' c') ∧
  (allStarted r a c ↔ allStarted r a' c') ∧ (∀ p, p ∈ clockPods r a c ↔ p ∈ clockPods r a' c').
Proof.
  intros [Ha Hc]. assert (Hnil : ∀ l l' : list Pod, l ≡ₚ l' → l = [] ↔ l' = []).
  { intros l l' Hl. split; intros ->; [by apply Permutation_nil_l in Hl|by apply Permutation_nil_r in Hl]. }
  assert (Hea : ∀ p, p ∈ a ↔ p ∈ a') by (intros p; by rewrite Ha).
  unfold nodeReady, unscheduled, allStarted, started, clockPods. rewrite (Hnil _ _ Ha).
  setoid_rewrite elem_of_app. setoid_rewrite Hea. destruct (waitForCSIDriver r).
  - specialize (Hc eq_refl). assert (Hec : ∀ p, p ∈ c ↔ p ∈ c') by (intros p; by rewrite Hc).
    rewrite (Hnil _ _ Hc). by setoid_rewrite Hec.
  - naive_solver.
Qed.

Lemma same_pods_expired t node a c a' c' :
  same_pods a c a' c' → timeoutExpired r t node a c ↔ timeoutExpired r t node a' c'.
Proof.
  intros (_ & Hu & Hs & Hp)%same_pods_base. unfold timeoutExpired, readinessExpired. rewrite Hu, Hs.
  by setoid_rewrite Hp.
Qed.

(** ** Removing the taint *)

Definition untainted (node : Node) : Node := set_Taints (reject IsAgentNotReadyTaint (n_Taints node)) node.

Lemma apply_removal_patch cur new l l' :
  apply_taint_patch [mkTaintPatchOp "test" "/spec/taints" cur; mkTaintPatchOp "replace" "/spec/taints" new] l = Some l' ↔
  l = cur ∧ l' = new.
Proof. unfold apply_taint_patch, apply_taint_op. simpl. case_decide; simpl; naive_solver. Qed.

(** On a node as stored, the patch removes the taint, or leaves the node alone
    and asks for a retry in a second or fails. *)
Lemma removeTaint_sound node s :
  hasTaint node = true → nw_nodes (world s) !! n_Name node = Some node →
  let '(s', o) := removeTaint node s in
  (o = Ret 0%Z ∧ world s' = set_node (untainted node) (world s)) ∨
  (world s' = world s ∧ (o = Ret conflictRequeueDelay ∨ ∃ e, o = Fail e)).
Proof.
  intros Ht Hnode. unfold removeTaint. rewrite bool_decide_false.
  2:{ rewrite length_reject. unfold hasTaint in Ht. by rewrite Ht. }
  unfold attempt, api, mbind, GoM_bind.
  pose proof (sound_PatchNode (n_Name node)
    [mkTaintPatchOp "test" "/spec/taints" (n_Taints node);
     mkTaintPatchOp "replace" "/spec/taints" (reject IsAgentNotReadyTaint (n_Taints node))] (us_world s)) as Hp.
  destruct (client_PatchNode _ _ (us_world s)) as [w [[]|e|]]; [| |done].
  - destruct Hp as (n & l & Hn & _ & Hl & Hw). apply apply_removal_patch in Hl as [Hcur ->].
    left. split; [done|]. simpl. unfold untainted. by simplify_eq.
  - destruct (IsConflict e || IsInvalid e); right; simpl; eauto.
Qed.

(** The verdicts on which the policy lets the taint go. *)
Definition removes (v : verdict) : Prop :=
  match v with
  | VReady _ => True
  | VTimeout _ => timeoutPolicy r = PolicyRemove
  | VWait _ => False
  end.

Lemma act_sound node v s :
  hasTaint node = true → nw_nodes (world s) !! n_Name node = Some node →
  let '(s', o) := act node v s in
  (removes v ∧ o = Ret 0%Z ∧ world s' = set_node (untainted node) (world s)) ∨
  (world s' = world s ∧
   ((removes v ∧ (o = Ret conflictRequeueDelay ∨ ∃ e, o = Fail e)) ∨
    (¬ removes v ∧ o = Ret (match v with VWait d => d | _ => 0%Z end)))).
Proof.
  intros Ht Hnode. destruct v as [readyAt|reason|d]; simpl; [| |right; split; [done|right; split; [by intros []|done]]].
  - unfold completeUntaintFromReadiness, mbind at 1, GoM_bind at 1.
    pose proof (removeTaint_sound node s Ht Hnode) as Hr. destruct (removeTaint node s) as [s' [d|e|]].
    + destruct Hr as [[Hd Hw]|[Hw [Hd|[e He]]]]; simplify_eq/=.
      * run_bind.
        destruct (negb (Time_IsZero readyAt)), (eventsEnabled r); left; done.
      * right. eauto.
    + destruct Hr as [[? _]|[Hw _]]; [done|]. right. split; [done|]. left. eauto.
    + exfalso. destruct Hr as [[? _]|[_ [?|[??]]]]; done.
  - unfold applyTimeoutPolicy. destruct (timeoutPolicy r); simpl.
    2:{ run_bind. destruct (eventsEnabled r); simpl; right; naive_solver. }
    set (s1 := (when (eventsEnabled r) (emit (NodeEvent (n_Name node) "Normal" "UntaintTimeout")) (emit (TaintTimeoutsTotal reason PolicyRemove) s).1).1).
    assert (Hrun : ∀ f : GoM (UntaintState W) Duration,
      (_ ← emit (TaintTimeoutsTotal reason PolicyRemove);
       _ ← when (eventsEnabled r) (emit (NodeEvent (n_Name node) "Normal" "UntaintTimeout")); f) s = f s1).
    { intros f. unfold s1. by destruct (eventsEnabled r). }
    rewrite Hrun. assert (Hs1 : world s1 = world s) by (unfold s1; by destruct (eventsEnabled r)).
    unfold mbind, GoM_bind. rewrite <-Hs1 in Hnode. pose proof (removeTaint_sound node s1 Ht Hnode) as Hr.
    rewrite Hs1 in Hr. destruct (removeTaint node s1) as [s' [d|e|]].
    + destruct Hr as [[Hd Hw]|[Hw [Hd|[e He]]]]; simplify_eq/=.
      * by left.
      * right. eauto.
    + destruct Hr as [[? _]|[Hw _]]; [done|]. right. split; [done|]. left. eauto.
    + exfalso. destruct Hr as [[? _]|[_ [?|[??]]]]; done.
Qed.

(** The outcome demanded of a reconcile of [node]: remove the taint. *)
Definition mustUntaint (node : Node) (w : NodeWorld) : Prop :=
  let agents := agentsOn (n_Name node) w in
  let csis := csisOn (n_Name node) w in
  nodeReady r agents csis ∨ timeoutPolicy r = PolicyRemove ∧ timeoutExpired r now node agents csis.

Lemma nodeVerdict_sound node agents csis w :
  same_pods agents csis (agentsOn (n_Name node) w) (csisOn (n_Name node) w) →
  removes (nodeVerdict node agents csis) ↔ mustUntaint node w.
Proof.
  intros Hsame. unfold mustUntaint. rewrite <-(same_pods_expired _ _ _ _ _ _ Hsame).
  apply same_pods_base in Hsame as [<- _].
  destruct (nodeVerdict_ready node agents csis) as [[[t ->] Hr]|[-> Hr]]; simpl; [naive_solver|].
  pose proof (timeoutVerdict_spec r now node agents csis) as Hv.
  destruct (timeoutVerdict r now node agents csis); simpl; naive_solver.
Qed.

(** C25: for every sound client and whatever call fails, a reconcile changes
    nothing but the named node, and that only by removing every agent-not-ready
    taint and no other, and only when the readiness criteria hold or a timeout
    expired under the remove policy; it never panics. *)
Theorem untaint_only_when_due name s :
  let '(s', o) := Reconcile r now name s in
  o ≠ Panic ∧
  (world s' = world s ∨
   ∃ node, nw_nodes (world s) !! name = Some node ∧ hasTaint node = true ∧
     mustUntaint node (world s) ∧ world s' = set_node (untainted node) (world s)).
Proof.
  destruct (Reconcile_path name s) as [s' o Hw Hp _|node agents csis s' Hnode Hname Ht Ha Hc Hw]; [by auto|].
  subst name. rewrite <-Hw in Hnode. pose proof (act_sound node (nodeVerdict node agents csis) s' Ht Hnode) as Hact.
  rewrite Hw in *. destruct (act node _ s') as [s'' o].
  destruct Hact as [(Hr & -> & Hset)|[Hset Ho]].
  - split; [done|]. right. exists node. split_and!; [done..| |done]. by eapply nodeVerdict_sound.
  - split; [|by left]. naive_solver.
Qed.

Context `{!ReliableNodeClient W}.

Lemma removeTaint_reliable node s :
  hasTaint node = true → nw_nodes (world s) !! n_Name node = Some node →
  ∃ s', removeTaint node s = (s', Ret 0%Z).
Proof.
  intros Ht Hnode. unfold removeTaint. rewrite bool_decide_false.
  2:{ rewrite length_reject. unfold hasTaint in Ht. by rewrite Ht. }
  unfold attempt, api, mbind, GoM_bind.
  destruct (reliable_PatchNode (n_Name node)
    [mkTaintPatchOp "test" "/spec/taints" (n_Taints node);
     mkTaintPatchOp "replace" "/spec/taints" (reject IsAgentNotReadyTaint (n_Taints node))]
    node (reject IsAgentNotReadyTaint (n_Taints node)) (us_world s) Hnode eq_refl) as [w Hw].
  { by apply apply_removal_patch. }
  rewrite Hw. eauto.
Qed.

Lemma act_reliable node v s :
  removes v → hasTaint node = true → nw_nodes (world s) !! n_Name node = Some node →
  ∃ s', act node v s = (s', Ret 0%Z) ∧ world s' = set_node (untainted node) (world s).
Proof.
  intros Hv Ht Hnode. pose proof (act_sound node v s Ht Hnode) as Hact.
  assert (Hret : (act node v s).2 = Ret 0%Z).
  { destruct v as [readyAt|reason|d]; simpl in *; [| |done].
    - unfold completeUntaintFromReadiness. destruct (removeTaint_reliable node s Ht Hnode) as [s1 Hs1].
      rewrite (GoM_bind_Ret _ _ _ _ _ Hs1). simpl. run_bind.
      by destruct (negb (Time_IsZero readyAt)), (eventsEnabled r).
    - unfold applyTimeoutPolicy. rewrite Hv. simpl. run_bind. destruct (eventsEnabled r); simpl.
      + match goal with |- context [removeTaint node ?s1] =>
          destruct (removeTaint_reliable node s1 Ht Hnode) as [s2 Hs2] end. by rewrite Hs2.
      + match goal with |- context [removeTaint node ?s1] =>
          destruct (removeTaint_reliable node s1 Ht Hnode) as [s2 Hs2] end. by rewrite Hs2. }
  destruct (act node v s) as [s' o]; simpl in Hret; subst o. exists s'. split; [done|].
  destruct Hact as [(_ & _ & ?)|(_ & [(_ & [?|[e ?]])|[? _]])]; done.
Qed.

(** A reconcile of a stored tainted node reaches its verdict. *)
Lemma Reconcile_reliable node s :
  hasTaint node = true → nw_nodes (world s) !! n_Name node = Some node →
  ∃ agents csis s', Reconcile r now (n_Name node) s = act node (nodeVerdict node agents csis) s' ∧
    world s' = world s ∧
    same_pods agents csis (agentsOn (n_Name node) (world s)) (csisOn (n_Name node) (world s)).
Proof.
  intros Ht Hnode. destruct (reliable_GetNode _ node (us_world s) Hnode eq_refl) as [w Hw].
  pose proof (sound_GetNode (n_Name node) (us_world s)) as Hg. rewrite Hw in Hg. destruct Hg as [Hv _].
  destruct (reliable_ListPods AgentDeploymentComponentLabelKey DefaultAgentResourceSuffix (n_Name node) w) as (w1 & l & Hl).
  pose proof (sound_ListPods AgentDeploymentComponentLabelKey DefaultAgentResourceSuffix (n_Name node) w) as Hs1.
  rewrite Hl in Hs1. destruct Hs1 as [Hv1 Hpods].
  destruct (reliable_ListPods AppLabelKey NodeServerDaemonSetAppValue (n_Name node) w1) as (w2 & l' & Hl').
  pose proof (sound_ListPods AppLabelKey NodeServerDaemonSetAppValue (n_Name node) w1) as Hs2.
  rewrite Hl' in Hs2. destruct Hs2 as [Hv2 Hcs]. rewrite Hv1, Hv in *.
  unfold Reconcile, attempt, wrap, api, mbind, GoM_bind. rewrite Hw. cbn [us_world us_effects].
  rewrite Ht. cbn [negb us_world us_effects]. rewrite Hl. cbn [us_world us_effects].
  destruct (waitForCSIDriver r) eqn:Hcsi.
  - cbn [us_world us_effects]. rewrite Hl'. exists l, l', (mkUState w2 (us_effects s)). unfold nodeVerdict. rewrite Hcsi.
    split; [|split; [done|by split]]. destruct (_ && _); [done|]. by rewrite reconcileTaintedNodeTimeouts_act.
  - exists l, [], (mkUState w1 (us_effects s)). unfold nodeVerdict. rewrite Hcsi.
    split; [|split; [simpl; congruence|split; [done|congruence]]]. destruct (firstReady l); [done|].
    by rewrite reconcileTaintedNodeTimeouts_act.
Qed.

(** When calls do not fail, a tainted node that is ready, or whose timeout
    expired under the remove policy, is untainted by one reconcile, which asks
    for no retry; the node keeps its other taints and no longer has this one. *)
Theorem untaint_when_due node s :
  hasTaint node = true →
  nw_nodes (world s) !! n_Name node = Some node →
  mustUntaint node (world s) →
  ∃ s', Reconcile r now (n_Name node) s = (s', Ret 0%Z) ∧
        world s' = set_node (untainted node) (world s) ∧ hasTaint (untainted node) = false ∧
        ∀ t, t ∈ n_Taints (untainted node) ↔ t ∈ n_Taints node ∧ IsAgentNotReadyTaint t = false.
Proof.
  intros Ht Hnode Hmust. destruct (Reconcile_reliable node s Ht Hnode) as (agents & csis & s1 & -> & Hw & Hsame).
  destruct (act_reliable node (nodeVerdict node agents csis) s1) as (s' & Hact & Hs').
  - by eapply nodeVerdict_sound.
  - done.
  - by rewrite Hw.
  - exists s'. rewrite Hs', Hw. split_and!; [done..| |].
    + apply ContainsFunc_false. intros t. simpl. by intros [_ ?]%elem_of_reject.
    + intros t. simpl. apply elem_of_reject.
Qed.

(** Timeouts a started controller can have. *)
Definition configured : Prop :=
  (0 < readinessTimeout r ≤ int64_max)%Z ∧ (0 < schedulingTimeout r ≤ int64_max)%Z.

(** A clock is running for the node, anchored no later than now. *)
Definition clockRunning (node : Node) (agents csis : list Pod) : Prop :=
  unscheduled r agents csis ∧ (n_CreationTimestamp node ≠ 0 ∧ n_CreationTimestamp node ≤ now)%Z ∨
  ¬ unscheduled r agents csis ∧ allStarted r agents csis ∧
  ∀ p t, p ∈ clockPods r agents csis → p_StartTime p = Some t → (t ≤ now)%Z.

Lemma remaining_bounds timeout t :
  (0 < timeout ≤ int64_max)%Z → (t ≤ now)%Z → (Time_Sub now t < timeout)%Z →
  let d := wrap64 (timeout - Time_Sub now t) in
  (0 < d ≤ timeout)%Z ∧ Time_Sub (now + d) t = timeout.
Proof.
  intros Hrange Ht Hlt. assert (Hsub : Time_Sub now t = (now - t)%Z).
  { unfold Time_Sub, int64_min, int64_max in *. lia. }
  cbv zeta. rewrite Hsub in *. rewrite wrap64_id.
  - split; [lia|]. unfold Time_Sub, int64_min, int64_max in *. lia.
  - unfold int64_range, int64_min, int64_max in *. lia.
Qed.

Lemma timeoutVerdict_wait node agents csis d :
  configured → timeoutVerdict r now node agents csis = VWait d →
  (clockRunning node agents csis →
     (0 < d)%Z ∧ timeoutExpired r (now + d) node agents csis) ∧
  (¬ unscheduled r agents csis → ¬ allStarted r agents csis → d = readinessTimeout r).
Proof.
  intros [Hr Hs] Hv. pose proof (timeoutVerdict_spec r now node agents csis) as Hspec. rewrite Hv in Hspec.
  destruct Hspec as [Hno Hcases]. unfold clockRunning.
  destruct Hcases as [(Hu & [[Hc ->]|[Hc ->]])|(Hu & [(Hst & ->)|(t & Hst & (p & Hp & Hpt) & Hmax & ->)])].
  - naive_solver.
  - split; [|naive_solver]. intros [(_ & _ & Hle)|[? _]]; [|done].
    assert (Hlt : (Time_Sub now (n_CreationTimestamp node) < schedulingTimeout r)%Z).
    { apply Z.nle_gt. intros Hge. apply Hno. left. by split. }
    destruct (remaining_bounds _ _ Hs Hle Hlt) as [Hd Heq]. split; [lia|]. left. split; [done|]. split; [done|]. lia.
  - naive_solver.
  - split; [|naive_solver]. intros [[? _]|(_ & _ & Hle)]; [done|]. specialize (Hle p t Hp Hpt).
    assert (Hlt : (Time_Sub now t < readinessTimeout r)%Z).
    { apply Z.nle_gt. intros Hge. apply Hno. right. split_and!; [done..|]. intros q t' Hq Ht'.
      pose proof (Time_Sub_mono now t' t (Hmax q t' Hq Ht')). lia. }
    destruct (remaining_bounds _ _ Hr Hle Hlt) as [Hd Heq]. split; [lia|]. right. split_and!; [done..|].
    intros q t' Hq Ht'. rewrite <-Heq at 1. apply Time_Sub_mono. eauto.
Qed.

(** A tainted node that is neither ready nor past its timeout is left
    alone, and the reconcile comes back: while a clock runs, after a positive
    delay at which, the pods being the same, the timeout has expired, so that a
    node does not stay tainted for want of an event; while a required pod has
    no start time yet, after a whole readiness timeout. *)
Theorem untaint_retries_at_expiry node s :
  configured →
  hasTaint node = true →
  nw_nodes (world s) !! n_Name node = Some node →
  let agents := agentsOn (n_Name node) (world s) in
  let csis := csisOn (n_Name node) (world s) in
  ¬ nodeReady r agents csis →
  ¬ timeoutExpired r now node agents csis →
  ∃ s' d, Reconcile r now (n_Name node) s = (s', Ret d) ∧ world s' = world s ∧
    (clockRunning node agents csis → (0 < d)%Z ∧ timeoutExpired r (now + d) node agents csis) ∧
    (¬ unscheduled r agents csis → ¬ allStarted r agents csis → d = readinessTimeout r).
Proof.
  intros Hconf Ht Hnode agents csis Hnr Hne.
  destruct (Reconcile_reliable node s Ht Hnode) as (ags & cs & s1 & -> & Hw & Hsame).
  pose proof (same_pods_base _ _ _ _ Hsame) as (Hr & Hu & Hst & Hp).
  pose proof (λ t, same_pods_expired t node _ _ _ _ Hsame) as He.
  unfold agents, csis, clockRunning in *. rewrite <-Hr in Hnr. rewrite <-He in Hne. setoid_rewrite <-Hu.
  setoid_rewrite <-Hst. setoid_rewrite <-Hp. setoid_rewrite <-He. clear Hr Hu Hst Hp He Hsame.
  destruct (nodeVerdict_ready node ags cs) as [[_ ?]|[-> _]]; [done|].
  pose proof (timeoutVerdict_spec r now node ags cs) as Hspec.
  destruct (timeoutVerdict r now node ags cs) as [|reason|d] eqn:Hv; [done..|].
  exists s1, d. split_and!; [done..|by apply timeoutVerdict_wait|by apply (timeoutVerdict_wait node ags cs d)].
Qed.
End Controller.

(** ** Configuration and watches *)

Section Environment.
Context (ParseDuration : string → Duration + error).
(** A parsed duration is a [time.Duration]. *)
Hypothesis ParseDuration_range : ∀ s d, ParseDuration s = inl d → int64_range d.

Lemma durationFromEnv_range environ envVar def d :
  (0 < def ≤ int64_max)%Z → durationFromEnv ParseDuration environ envVar def = inl d → (0 < d ≤ int64_max)%Z.
Proof.
  intros Hdef. unfold durationFromEnv. destruct (environ !! envVar) as [raw|]; [|naive_solver].
  case_bool_decide; [naive_solver|]. destruct (ParseDuration raw) as [d'|e] eqn:E; [|done].
  apply ParseDuration_range in E. unfold int64_range in E. case_bool_decide; [done|]. intros. simplify_eq. lia.
Qed.

(** A controller that starts has both timeouts positive, so that waits
    are bounded and strictly positive, and keeps the taint on a timeout only
    when its policy variable says "keep"; any policy that is not "", "remove"
    or "keep" keeps it from starting. *)
Theorem started_controller_is_configured environ csi r :
  NewUntaintReconciler ParseDuration environ csi = inl r →
  configured r ∧ waitForCSIDriver r = csi ∧
  (timeoutPolicy r = PolicyKeep ∧ Getenv environ EnvTimeoutPolicy = "keep" ∨
   timeoutPolicy r = PolicyRemove ∧ Getenv environ EnvTimeoutPolicy ∈ [""; "remove"]).
Proof.
  unfold NewUntaintReconciler, ParseTimeoutPolicy. set (pol := Getenv environ EnvTimeoutPolicy).
  destruct (if _ || _ then _ else _) as [policy|e] eqn:Hpol; [|done].
  destruct (durationFromEnv _ _ EnvReadinessTimeout _) as [rd|e] eqn:Hrd; [|done].
  destruct (durationFromEnv _ _ EnvSchedulingTimeout _) as [sc|e] eqn:Hsc; [|done].
  intros Heq. injection Heq as <-. apply durationFromEnv_range in Hrd, Hsc; [|done..].
  split; [done|]. split; [done|]. simpl. destruct (bool_decide (pol = "")) eqn:E1;
    [|destruct (bool_decide (pol = "remove")) eqn:E2]; simpl in Hpol.
  - apply bool_decide_eq_true in E1. right. split; [congruence|]. rewrite E1. set_solver.
  - apply bool_decide_eq_true in E2. right. split; [congruence|]. rewrite E2. set_solver.
  - case_bool_decide; [|done]. left. split; [congruence|done].
Qed.
End Environment.

(** Every pod the verdict on a node counts is watched: creating, updating or
    deleting it enqueues a reconcile of exactly that node. *)
Lemma counted_pods_are_watched r name w p :
  name ≠ "" →
  p ∈ agentsOn name w ∨ waitForCSIDriver r = true ∧ p ∈ csisOn name w →
  (∀ e, e ∈ [CreateEvent (PodObject p); UpdateEvent OtherObject (PodObject p); DeleteEvent (PodObject p)] →
        podWatchPredicate r e = true) ∧
  podToNodeRequest (PodObject p) = [name].
Proof.
  intros Hname Hp.
  assert (Hrel : isAgentPod p || (waitForCSIDriver r && isCSINodeServerPod p) = true ∧ p_NodeName p = name).
  { unfold agentsOn, csisOn, podsOn in Hp. unfold isAgentPod, isCSINodeServerPod.
    destruct Hp as [Hp|[-> Hp]]; apply list_elem_of_filter in Hp as [[-> <-] _]; simpl;
      rewrite ?orb_true_r; done. }
  destruct Hrel as [Hrel Hn]. split.
  - intros e He. repeat (apply elem_of_cons in He as [->|He]; [exact Hrel|]). set_solver.
  - simpl. rewrite Hn, bool_decide_false; done.
Qed.
