(* ===== verification/Status.v ===== *)
(** * Status conditions and component statuses of a DatadogAgent.

    Models [pkg/condition/condition.go], the status helpers of
    [internal/controller/datadogagent] ([generateNewStatusFromDDA],
    [addDDAIStatusToDDAStatus], [IsEqualStatus]) and the cluster provider kept
    in the status ([resolveClusterProvider], [setClusterProviderStatus]).  A
    status is passed by value and returned; a nil pointer is [None]. *)

From Stdlib Require Import ZArith.
From stdpp Require Import base gmap strings list sorting pretty.
From S2P Require Import Prelude Cluster.

(** ** Conditions *)

Record Condition := mkCondition {
  cond_Type : string;
  cond_Status : string;
  cond_LastTransitionTime : Time;
  cond_Reason : string;
  cond_Message : string
}.

#[export] Instance Condition_eq_dec : EqDecision Condition.
Proof. solve_decision. Defined.

Definition ConditionTrue : string := "True".
Definition ConditionFalse : string := "False".

Definition GetMetav1ConditionStatus (status : bool) : string := if status then ConditionTrue else ConditionFalse.

Definition newDatadogAgentStatusCondition (conditionType conditionStatus : string) (now : Time)
    (reason message : string) : Condition :=
  mkCondition conditionType conditionStatus now reason message.

Definition updateDatadogAgentStatusCondition (condition : Condition) (now : Time)
    (conditionStatus reason message : string) : Condition :=
  if bool_decide (cond_Status condition ≠ conditionStatus)
  then mkCondition (cond_Type condition) conditionStatus now reason message
  else mkCondition (cond_Type condition) (cond_Status condition) (cond_LastTransitionTime condition) reason message.

(** The index of the first condition of a type, [None] for -1. *)
Fixpoint getIndexForConditionType (conditions : list Condition) (t : string) : option nat :=
  match conditions with
  | [] => None
  | c :: conditions => if bool_decide (cond_Type c = t) then Some 0
                       else S <$> getIndexForConditionType conditions t
  end.

Definition GetCondition (conditions : list Condition) (t : string) : option Condition :=
  i ← getIndexForConditionType conditions t; conditions !! i.

Definition UpdateDatadogAgentStatusConditions (conditions : list Condition) (now : Time)
    (t conditionStatus reason message : string) (writeFalseIfNotExist : bool) : list Condition :=
  match getIndexForConditionType conditions t with
  | Some i => alter (λ c, updateDatadogAgentStatusCondition c now conditionStatus reason message) i conditions
  | None => if bool_decide (conditionStatus = ConditionTrue) || writeFalseIfNotExist
            then conditions ++ [newDatadogAgentStatusCondition t conditionStatus now reason message]
            else conditions
  end.

Definition DeleteDatadogAgentStatusCondition (conditions : list Condition) (conditionType : string) : list Condition :=
  match getIndexForConditionType conditions conditionType with
  | Some i => take i conditions ++ drop (i + 1) conditions
  | None => conditions
  end.

Definition IsEqualCondition (current newCond : Condition) : bool :=
  bool_decide (cond_Type current = cond_Type newCond) && bool_decide (cond_Status current = cond_Status newCond)
  && bool_decide (cond_Reason current = cond_Reason newCond)
  && bool_decide (cond_Message current = cond_Message newCond).

Definition type_le (a b : Condition) : Prop := String.le (cond_Type a) (cond_Type b).

#[export] Instance type_le_dec : RelDecision type_le.
Proof. intros a b. unfold type_le. apply _. Defined.

Definition IsEqualConditions (current newCond : list Condition) : bool :=
  if negb (bool_decide (length current = length newCond)) then false
  else forallb (λ '(a, b), IsEqualCondition a b) (zip (sort_by type_le current) (sort_by type_le newCond)).

(** ** Component statuses *)

Record DeploymentStatus := mkDeploymentStatus {
  dep_Replicas : Z;
  dep_UpdatedReplicas : Z;
  dep_ReadyReplicas : Z;
  dep_AvailableReplicas : Z;
  dep_UnavailableReplicas : Z;
  dep_LastUpdate : option Time;
  dep_CurrentHash : string;
  dep_GeneratedToken : string;
  dep_Status : string;
  dep_State : string;
  dep_DeploymentName : string
}.

#[export] Instance DeploymentStatus_eq_dec : EqDecision DeploymentStatus.
Proof. solve_decision. Defined.

Definition zeroDeploymentStatus : DeploymentStatus := mkDeploymentStatus 0 0 0 0 0 None "" "" "" "" "".

Record DaemonSetStatus := mkDaemonSetStatus {
  ds_Desired : Z;
  ds_Current : Z;
  ds_Ready : Z;
  ds_Available : Z;
  ds_UpToDate : Z;
  ds_LastUpdate : option Time;
  ds_CurrentHash : string;
  ds_Status : string;
  ds_State : string;
  ds_DaemonsetName : string
}.

#[export] Instance DaemonSetStatus_eq_dec : EqDecision DaemonSetStatus.
Proof. solve_decision. Defined.

Definition zeroDaemonSetStatus : DaemonSetStatus := mkDaemonSetStatus 0 0 0 0 0 None "" "" "" "".

Definition DatadogAgentStateProgressing : string := "Progressing".
Definition DatadogAgentStateRunning : string := "Running".
Definition DatadogAgentStateUpdating : string := "Updating".
Definition DatadogAgentStateCanary : string := "Canary".
Definition DatadogAgentStateFailed : string := "Failed".

(** [fmt.Sprintf("%v (%d/%d/%d)", ...)] *)
Definition formatStatus (state : string) (a b c : Z) : string :=
  state +:+ " (" +:+ pretty a +:+ "/" +:+ pretty b +:+ "/" +:+ pretty c +:+ ")".

(** What is read of a Deployment, a DaemonSet and an ExtendedDaemonSet. *)
Record Deployment := mkDeployment {
  d_Name : string;
  d_Annotations : gmap string string;
  d_Replicas : Z; d_UpdatedReplicas : Z; d_ReadyReplicas : Z; d_AvailableReplicas : Z; d_UnavailableReplicas : Z;
  d_Conditions : list (string * string)   (* type, status *)
}.

Record DaemonSet := mkDaemonSet {
  s_Name : string;
  s_Annotations : gmap string string;
  s_Desired : Z; s_Current : Z; s_Ready : Z; s_Available : Z; s_UpToDate : Z
}.

Definition MD5AgentDeploymentAnnotationKey : string := "agent.datadoghq.com/agentspechash".

Definition UpdateDeploymentStatus (dep : option Deployment) (depStatus : option DeploymentStatus)
    (updateTime : option Time) : DeploymentStatus :=
  let st := default zeroDeploymentStatus depStatus in
  match dep with
  | None =>
      mkDeploymentStatus (dep_Replicas st) (dep_UpdatedReplicas st) (dep_ReadyReplicas st) (dep_AvailableReplicas st)
        (dep_UnavailableReplicas st) (dep_LastUpdate st) (dep_CurrentHash st) (dep_GeneratedToken st)
        DatadogAgentStateFailed DatadogAgentStateFailed (dep_DeploymentName st)
  | Some dep =>
      let hash := default (dep_CurrentHash st) (d_Annotations dep !! MD5AgentDeploymentAnnotationKey) in
      let failed := ContainsFunc (λ '(ty, status), bool_decide (ty = "ReplicaFailure") && bool_decide (status = "True"))
                      (d_Conditions dep) in
      let state := if failed then DatadogAgentStateFailed
                   else if negb (bool_decide (d_UpdatedReplicas dep = d_Replicas dep)) then DatadogAgentStateUpdating
                   else if bool_decide (d_ReadyReplicas dep = 0%Z) then DatadogAgentStateProgressing
                   else DatadogAgentStateRunning in
      mkDeploymentStatus (d_Replicas dep) (d_UpdatedReplicas dep) (d_ReadyReplicas dep) (d_AvailableReplicas dep)
        (d_UnavailableReplicas dep) (match updateTime with Some t => Some t | None => dep_LastUpdate st end)
        hash (dep_GeneratedToken st)
        (formatStatus state (d_Replicas dep) (d_ReadyReplicas dep) (d_UpdatedReplicas dep)) state (d_Name dep)
  end.

(** State of a daemonset from its counts. *)
Definition daemonSetState (upToDate desired ready : Z) : string :=
  if negb (bool_decide (upToDate = desired)) then DatadogAgentStateUpdating
  else if bool_decide (ready = 0%Z) && negb (bool_decide (desired = 0%Z)) then DatadogAgentStateProgressing
  else DatadogAgentStateRunning.

Definition UpdateDaemonSetStatusDDAI (dsName : string) (ds : option DaemonSet) (dsStatus : option DaemonSetStatus)
    (updateTime : option Time) : DaemonSetStatus :=
  let st := default zeroDaemonSetStatus dsStatus in
  match ds with
  | None =>
      mkDaemonSetStatus (ds_Desired st) (ds_Current st) (ds_Ready st) (ds_Available st) (ds_UpToDate st)
        (ds_LastUpdate st) (ds_CurrentHash st) DatadogAgentStateFailed DatadogAgentStateFailed dsName
  | Some ds =>
      let state := daemonSetState (s_UpToDate ds) (s_Desired ds) (s_Ready ds) in
      mkDaemonSetStatus (s_Desired ds) (s_Current ds) (s_Ready ds) (s_Available ds) (s_UpToDate ds)
        (match updateTime with Some t => Some t | None => ds_LastUpdate st end)
        (default (ds_CurrentHash st) (s_Annotations ds !! MD5AgentDeploymentAnnotationKey))
        (formatStatus state (s_Desired ds) (s_Ready ds) (s_UpToDate ds)) state (s_Name ds)
  end.

(** [canary]: the ExtendedDaemonSet has a canary in its status. *)
Definition UpdateExtendedDaemonSetStatusDDAI (eds : DaemonSet) (canary : bool) (dsStatus : option DaemonSetStatus)
    (updateTime : option Time) : DaemonSetStatus :=
  let st := default zeroDaemonSetStatus dsStatus in
  let state := if canary then DatadogAgentStateCanary
               else daemonSetState (s_UpToDate eds) (s_Desired eds) (s_Ready eds) in
  mkDaemonSetStatus (s_Desired eds) (s_Current eds) (s_Ready eds) (s_Available eds) (s_UpToDate eds)
    (match updateTime with Some t => Some t | None => ds_LastUpdate st end)
    (default (ds_CurrentHash st) (s_Annotations eds !! MD5AgentDeploymentAnnotationKey))
    (formatStatus state (s_Desired eds) (s_Ready eds) (s_UpToDate eds)) state (s_Name eds).

(** ** Combining the statuses of the DatadogAgentInternals *)

Definition assignNumeralState (state : string) : Z :=
  if bool_decide (state = DatadogAgentStateFailed) then 1
  else if bool_decide (state = DatadogAgentStateCanary) then 2
  else if bool_decide (state = DatadogAgentStateUpdating) then 3
  else if bool_decide (state = DatadogAgentStateProgressing) then 4
  else if bool_decide (state = DatadogAgentStateRunning) then 5
  else 0.

Definition getCombinedState (currentState newState : string) : string :=
  let currentNum := assignNumeralState currentState in
  let newNum := assignNumeralState newState in
  if bool_decide (currentNum = 0%Z) then newState
  else if bool_decide (newNum = 0%Z) then currentState
  else if bool_decide (currentNum < newNum)%Z then currentState
  else newState.

(** [metav1.Time.Before] on pointers: false when one is nil. *)
Definition metaTime_Before (t u : option Time) : bool :=
  match t, u with
  | Some t, Some u => bool_decide (t < u)%Z
  | _, _ => false
  end.

(** [if x == nil { x = y }; if x.Before(y) { x = y }] *)
Definition combineLastUpdate (x y : option Time) : option Time :=
  let x := match x with None => y | Some _ => x end in
  if metaTime_Before x y then y else x.

Definition CombineDaemonSetStatus (dsStatus ddaiStatus : option DaemonSetStatus) : option DaemonSetStatus :=
  match ddaiStatus with
  | None => dsStatus
  | Some n =>
      let c := default zeroDaemonSetStatus dsStatus in
      let desired := wrap32 (ds_Desired c + ds_Desired n) in
      let ready := wrap32 (ds_Ready c + ds_Ready n) in
      let upToDate := wrap32 (ds_UpToDate c + ds_UpToDate n) in
      let state := getCombinedState (ds_State c) (ds_State n) in
      Some (mkDaemonSetStatus desired (wrap32 (ds_Current c + ds_Current n)) ready
              (wrap32 (ds_Available c + ds_Available n)) upToDate
              (combineLastUpdate (ds_LastUpdate c) (ds_LastUpdate n)) (ds_CurrentHash c)
              (formatStatus state desired ready upToDate) state (ds_DaemonsetName c))
  end.

Definition CombineDeploymentStatus (deploymentStatus ddaiStatus : option DeploymentStatus) : option DeploymentStatus :=
  match ddaiStatus with
  | None => deploymentStatus
  | Some n =>
      let c := default zeroDeploymentStatus deploymentStatus in
      Some (mkDeploymentStatus (wrap32 (dep_Replicas c + dep_Replicas n))
              (wrap32 (dep_UpdatedReplicas c + dep_UpdatedReplicas n))
              (wrap32 (dep_ReadyReplicas c + dep_ReadyReplicas n))
              (wrap32 (dep_AvailableReplicas c + dep_AvailableReplicas n))
              (wrap32 (dep_UnavailableReplicas c + dep_UnavailableReplicas n))
              (combineLastUpdate (dep_LastUpdate c) (dep_LastUpdate n))
              (dep_CurrentHash n) (dep_GeneratedToken c) (dep_Status n) (dep_State n) (dep_DeploymentName n))
  end.

(** ** Comparing statuses *)

Definition IsEqualDaemonSetStatus (current newStatus : option DaemonSetStatus) : bool :=
  match current, newStatus with
  | None, None => true
  | Some c, Some n =>
      bool_decide (ds_Desired c = ds_Desired n) && bool_decide (ds_Current c = ds_Current n)
      && bool_decide (ds_Ready c = ds_Ready n) && bool_decide (ds_Available c = ds_Available n)
      && bool_decide (ds_UpToDate c = ds_UpToDate n) && bool_decide (ds_CurrentHash c = ds_CurrentHash n)
      && bool_decide (ds_Status c = ds_Status n) && bool_decide (ds_State c = ds_State n)
      && bool_decide (ds_DaemonsetName c = ds_DaemonsetName n)
  | _, _ => false
  end.

Definition IsEqualDeploymentStatus (current newStatus : option DeploymentStatus) : bool :=
  match current, newStatus with
  | None, None => true
  | Some c, Some n =>
      bool_decide (dep_Replicas c = dep_Replicas n) && bool_decide (dep_UpdatedReplicas c = dep_UpdatedReplicas n)
      && bool_decide (dep_ReadyReplicas c = dep_ReadyReplicas n)
      && bool_decide (dep_AvailableReplicas c = dep_AvailableReplicas n)
      && bool_decide (dep_UnavailableReplicas c = dep_UnavailableReplicas n)
      && bool_decide (dep_CurrentHash c = dep_CurrentHash n) && bool_decide (dep_GeneratedToken c = dep_GeneratedToken n)
      && bool_decide (dep_Status c = dep_Status n) && bool_decide (dep_State c = dep_State n)
      && bool_decide (dep_DeploymentName c = dep_DeploymentName n)
  | _, _ => false
  end.

(** ** The status of a DatadogAgent *)

Section DDAStatus.
(** [RemoteConfigConfiguration], compared with [Semantic.DeepEqual]. *)
Context {RC : Type} `{EqDecision RC}.

Record DatadogAgentStatus := mkStatus {
  st_Conditions : list Condition;
  st_AgentList : list (option DaemonSetStatus);
  st_Agent : option DaemonSetStatus;
  st_ClusterAgent : option DeploymentStatus;
  st_ClusterChecksRunner : option DeploymentStatus;
  st_OtelAgentGateway : option DeploymentStatus;
  st_RemoteConfig : option RC;
  st_Experiment : option ExperimentStatus;
  st_ClusterProvider : string
}.

Definition set_Conditions (l : list Condition) (s : DatadogAgentStatus) : DatadogAgentStatus :=
  mkStatus l (st_AgentList s) (st_Agent s) (st_ClusterAgent s) (st_ClusterChecksRunner s) (st_OtelAgentGateway s)
    (st_RemoteConfig s) (st_Experiment s) (st_ClusterProvider s).

Definition generateNewStatusFromDDA (ddaStatus : option DatadogAgentStatus) : DatadogAgentStatus :=
  match ddaStatus with
  | None => mkStatus [] [] None None None None None None ""
  | Some s =>
      let clusterAgent :=
        match st_ClusterAgent s with
        | Some ca => if bool_decide (dep_GeneratedToken ca = "") then None
                     else Some (mkDeploymentStatus 0 0 0 0 0 None "" (dep_GeneratedToken ca) "" "" "")
        | None => None
        end in
      mkStatus [] [] None clusterAgent None None (st_RemoteConfig s) (st_Experiment s) ""
  end.

Definition name_le (a b : option DaemonSetStatus) : Prop :=
  String.le (from_option ds_DaemonsetName "" a) (from_option ds_DaemonsetName "" b).

#[export] Instance name_le_dec : RelDecision name_le.
Proof. intros a b. unfold name_le. apply _. Defined.

Definition IsEqualStatus (current newStatus : option DatadogAgentStatus) : bool :=
  match current, newStatus with
  | None, None => true
  | Some c, Some n =>
      if negb (IsEqualDaemonSetStatus (st_Agent c) (st_Agent n))
         || negb (bool_decide (st_RemoteConfig c = st_RemoteConfig n)) then false
      else if negb (bool_decide (length (st_AgentList c) = length (st_AgentList n))) then false
      else if bool_decide (0 < length (st_AgentList c))
              && negb (forallb (λ '(a, b), IsEqualDaemonSetStatus a b)
                         (zip (sort_by name_le (st_AgentList c)) (sort_by name_le (st_AgentList n)))) then false
      else if negb (IsEqualDeploymentStatus (st_ClusterAgent c) (st_ClusterAgent n))
              || negb (IsEqualDeploymentStatus (st_ClusterChecksRunner c) (st_ClusterChecksRunner n)) then false
      else if negb (bool_decide (st_Experiment c = st_Experiment n)) then false
      else IsEqualConditions (st_Conditions c) (st_Conditions n)
  | _, _ => false
  end.

(** *** Status of the DatadogAgentInternals *)

Record DDAI := mkDDAI {
  ddai_Name : string;
  ddai_Labels : gmap string string;
  ddai_Agent : option DaemonSetStatus;
  ddai_ClusterAgent : option DeploymentStatus;
  ddai_ClusterChecksRunner : option DeploymentStatus;
  ddai_Conditions : list Condition
}.

Definition ProfileLabelKey : string := "agent.datadoghq.com/datadogagentprofile".
Definition DatadogAgentReconcileErrorConditionType : string := "DatadogAgentReconcileError".
Definition DatadogAgentInternalReconcileErrorConditionType : string := "DatadogAgentInternalReconcileError".
Definition ClusterProviderDetectedConditionType : string := "ClusterProviderDetected".

(** [current]: the result of reading the DDAI. *)
Definition addDDAIStatusToDDAStatus (status : DatadogAgentStatus) (current : DDAI + error) (now : Time) :
    DatadogAgentStatus + error :=
  match current with
  | inr e => if IsNotFound e then inl status else inr e
  | inl d =>
      let conditions :=
        if bool_decide (get_key (ddai_Labels d) ProfileLabelKey = "") then
          match GetCondition (ddai_Conditions d) DatadogAgentReconcileErrorConditionType with
          | Some c =>
              if bool_decide (cond_Status c = ConditionTrue)
              then UpdateDatadogAgentStatusConditions (st_Conditions status) now
                     DatadogAgentInternalReconcileErrorConditionType ConditionTrue
                     "DatadogAgentInternal_reconcile_error" (ddai_Name d +:+ ": " +:+ cond_Message c) false
              else st_Conditions status
          | None => st_Conditions status
          end
        else st_Conditions status in
      inl (mkStatus conditions (st_AgentList status)
             (CombineDaemonSetStatus (st_Agent status) (ddai_Agent d))
             (CombineDeploymentStatus (st_ClusterAgent status) (ddai_ClusterAgent d))
             (CombineDeploymentStatus (st_ClusterChecksRunner status) (ddai_ClusterChecksRunner d))
             (st_OtelAgentGateway status) (st_RemoteConfig status) (st_Experiment status) (st_ClusterProvider status))
  end.

(** *** Writing the status *)

Record ForwarderCondition := mkForwarderCondition {
  fwd_LastUpdateTime : Time; fwd_Type : string; fwd_Status : bool; fwd_Reason : string; fwd_Message : string }.

(** [forwarder]: the condition of the metrics forwarder, when metrics are
    enabled and it has one. *)
Definition setMetricsForwarderStatus (forwarder : option ForwarderCondition) (newStatus : DatadogAgentStatus) :
    DatadogAgentStatus :=
  match forwarder with
  | Some f => set_Conditions (UpdateDatadogAgentStatusConditions (st_Conditions newStatus) (fwd_LastUpdateTime f)
                (fwd_Type f) (GetMetav1ConditionStatus (fwd_Status f)) (fwd_Reason f) (fwd_Message f) true) newStatus
  | None => newStatus
  end.

(** The status written, if any, and the result of the reconcile: a requeue
    delay or an error.  [update] is the result of the status update. *)
Definition updateStatusIfNeeded (persisted newStatus : DatadogAgentStatus) (forwarder : option ForwarderCondition)
    (result : Duration) (currentError : option error) (now : Time) (update : option error) :
    option DatadogAgentStatus * (Duration * option error) :=
  let ok := bool_decide (currentError = None) in
  let newStatus := set_Conditions (UpdateDatadogAgentStatusConditions (st_Conditions newStatus) now
      DatadogAgentReconcileErrorConditionType (if ok then ConditionFalse else ConditionTrue)
      (if ok then "DatadogAgent_reconcile_ok" else "DatadogAgent_reconcile_error")
      (if ok then "DatadogAgent reconcile ok" else "DatadogAgent reconcile error") false) newStatus in
  let newStatus := setMetricsForwarderStatus forwarder newStatus in
  if IsEqualStatus (Some persisted) (Some newStatus) then (None, (result, currentError))
  else match update with
       | Some e => if IsConflict e then (None, (Second, None)) else (None, (0%Z, Some e))
       | None => (Some newStatus, (result, currentError))
       end.

(** ** Cluster provider *)

Definition ProviderAnnotationKey : string := "agent.datadoghq.com/cluster-provider".
Definition DefaultProvider : string := "default".
Definition IsSpecificProvider (p : string) : bool :=
  negb (bool_decide (p = "")) && negb (bool_decide (p = DefaultProvider)).

Definition clusterProviderSourceUser : string := "UserSpecified".
Definition clusterProviderSourceDetected : string := "Detected".
Definition clusterProviderSourceNone : string := "NoProviderDetected".
Definition clusterProviderSourceDisabled : string := "Disabled".
Definition clusterProviderReasonDetected : string := "ProviderDetected".

(** What the detector of the options answers: the live provider, if detected,
    and whether it is still warming up. *)
Record ProviderReader := mkProviderReader { pr_Provider : option string; pr_InGracePeriod : bool }.

(** [meta.FindStatusCondition]: the first condition of the type. *)
Definition wasProviderDetected (conditions : list Condition) : bool :=
  match GetCondition conditions ClusterProviderDetectedConditionType with
  | Some cond => bool_decide (cond_Reason cond = clusterProviderReasonDetected)
  | None => false
  end.

(** Provider and source, or [None] to hold. *)
Definition resolveClusterProvider (annotations : gmap string string) (status : DatadogAgentStatus)
    (detector : option ProviderReader) : option (string * string) :=
  match annotations !! ProviderAnnotationKey with
  | Some v => Some (v, clusterProviderSourceUser)
  | None =>
  match detector with
  | None => Some ("", clusterProviderSourceDisabled)
  | Some detector =>
      let statusProvider := st_ClusterProvider status in
      let detected := wasProviderDetected (st_Conditions status) in
      match pr_Provider detector with
      | Some live =>
          if detected && IsSpecificProvider statusProvider && negb (IsSpecificProvider live)
          then Some (statusProvider, clusterProviderSourceDetected)
          else Some (live, clusterProviderSourceDetected)
      | None =>
          if negb (bool_decide (statusProvider = "")) && detected
          then Some (statusProvider, clusterProviderSourceDetected)
          else if pr_InGracePeriod detector then None
          else Some ("", clusterProviderSourceNone)
      end
  end end.

(** [quoted] stands for the [%q] verb. *)
Definition setClusterProviderStatus (quoted : string → string) (status : DatadogAgentStatus)
    (provider source : string) (now : Time) : DatadogAgentStatus :=
  if bool_decide (source = clusterProviderSourceDisabled) then status
  else
    let '(reason, message) :=
      if bool_decide (source = clusterProviderSourceUser)
      then (clusterProviderSourceUser, "Cluster provider set to " +:+ quoted provider +:+ " by user annotation.")
      else if bool_decide (source = clusterProviderSourceDetected) && IsSpecificProvider provider
      then (clusterProviderReasonDetected, "Cluster provider detected as " +:+ quoted provider +:+ ".")
      else (clusterProviderSourceNone, "No cloud provider detected; provider-specific configuration not applied.") in
    mkStatus (UpdateDatadogAgentStatusConditions (st_Conditions status) now ClusterProviderDetectedConditionType
                ConditionTrue reason message false)
      (st_AgentList status) (st_Agent status) (st_ClusterAgent status) (st_ClusterChecksRunner status)
      (st_OtelAgentGateway status) (st_RemoteConfig status) (st_Experiment status) provider.
End DDAStatus.
Arguments DatadogAgentStatus : clear implicits.
