(* ===== verification/StatusTheorems.v ===== *)
(** * Properties of the status of a DatadogAgent.

    Conditions as a map by type ([GetCondition]), the order-insensitive
    comparison, the fold that combines the DatadogAgentInternals, the pinning of
    a detected cluster provider and the write of the status. *)

From Stdlib Require Import ZArith Lia.
From stdpp Require Import base gmap strings list sorting.
From S2P Require Import Prelude Cluster Status.

(** ** Conditions by type *)

(** The CRD keys conditions by type. *)
Definition typed (l : list Condition) : Prop := NoDup (cond_Type <$> l).

Lemma GetCondition_cons c l t :
  GetCondition (c :: l) t = if bool_decide (cond_Type c = t) then Some c else GetCondition l t.
Proof.
  unfold GetCondition. simpl. case_bool_decide; [done|]. by destruct (getIndexForConditionType l t).
Qed.

Lemma GetCondition_index l t i : getIndexForConditionType l t = Some i → ∃ c, l !! i = Some c ∧ cond_Type c = t.
Proof.
  revert i; induction l as [|c l IH]; intros i; simpl; [done|]. case_bool_decide; [naive_solver|].
  destruct (getIndexForConditionType l t) as [j|]; [|done]. intros. simplify_eq/=. eauto.
Qed.

Lemma GetCondition_elem l t c : GetCondition l t = Some c → c ∈ l ∧ cond_Type c = t.
Proof.
  unfold GetCondition. intros Hc. apply bind_Some in Hc as (i & Hi & Hl).
  apply GetCondition_index in Hi as (c' & Hc' & Ht). simplify_eq. split; [by eapply list_elem_of_lookup_2|done].
Qed.

Lemma GetCondition_index_None l t : getIndexForConditionType l t = None ↔ t ∉ cond_Type <$> l.
Proof.
  induction l as [|c l IH]; simpl; [set_solver|]. case_bool_decide; [set_solver|].
  destruct (getIndexForConditionType l t); simpl; set_solver.
Qed.

Lemma GetCondition_None l t : GetCondition l t = None ↔ t ∉ cond_Type <$> l.
Proof.
  rewrite <-GetCondition_index_None. unfold GetCondition. split; [|by intros ->].
  destruct (getIndexForConditionType l t) as [i|] eqn:E; [|done].
  apply GetCondition_index in E as (c & Hc & _). simpl. by rewrite Hc.
Qed.

Lemma typed_GetCondition l c : typed l → c ∈ l → GetCondition l (cond_Type c) = Some c.
Proof.
  unfold typed. induction l as [|d l IH]; [set_solver|]. rewrite fmap_cons, NoDup_cons, GetCondition_cons.
  intros [Hd Hnd] [->|Hc]%elem_of_cons; [by rewrite bool_decide_true|].
  rewrite bool_decide_false; [by apply IH|]. intros Heq. apply Hd. rewrite Heq. by apply list_elem_of_fmap_2.
Qed.

Lemma GetCondition_snoc l c t :
  GetCondition (l ++ [c]) t = match GetCondition l t with
                              | Some d => Some d
                              | None => if bool_decide (cond_Type c = t) then Some c else None
                              end.
Proof.
  induction l as [|d l IH]; [by rewrite app_nil_l, GetCondition_cons|].
  rewrite <-app_comm_cons, !GetCondition_cons. destruct (bool_decide (cond_Type d = t)); [done|apply IH].
Qed.

(** Updating in place. *)
Lemma alter_types f i (l : list Condition) :
  (∀ c, cond_Type (f c) = cond_Type c) → cond_Type <$> alter f i l = cond_Type <$> l.
Proof.
  intros Hf. revert i; induction l as [|c l IH]; intros [|i]; [done..| |];
    change (cond_Type <$> ?x :: ?y) with (cond_Type x :: (cond_Type <$> y)); simpl.
  - by rewrite Hf.
  - f_equal. apply IH.
Qed.

Lemma GetCondition_alter f l t i u :
  (∀ c, cond_Type (f c) = cond_Type c) → getIndexForConditionType l t = Some i →
  GetCondition (alter f i l) u = if bool_decide (t = u) then f <$> GetCondition l u else GetCondition l u.
Proof.
  intros Hf. revert i; induction l as [|c l IH]; intros i; cbn [getIndexForConditionType]; [done|].
  destruct (bool_decide (cond_Type c = t)) eqn:Hc.
  - intros Heq. injection Heq as <-. apply bool_decide_eq_true in Hc. change (alter f 0 (c :: l)) with (f c :: l).
    rewrite !GetCondition_cons, Hf, Hc. by case_bool_decide.
  - apply bool_decide_eq_false in Hc. destruct (getIndexForConditionType l t) as [j|]; [|done].
    intros Heq. injection Heq as <-. change (alter f (S j) (c :: l)) with (c :: alter f j l).
    rewrite !GetCondition_cons. destruct (bool_decide (cond_Type c = u)) eqn:Hu; [|by apply IH].
    apply bool_decide_eq_true in Hu. by rewrite bool_decide_false by congruence.
Qed.

Lemma update_keeps_type now s r m c : cond_Type (updateDatadogAgentStatusCondition c now s r m) = cond_Type c.
Proof. unfold updateDatadogAgentStatusCondition. by case_bool_decide. Qed.

(** What an update makes of the condition of its type. *)
Definition updatedCondition (old : option Condition) (now : Time) (t status reason message : string)
    (writeFalse : bool) : option Condition :=
  match old with
  | Some c => Some (mkCondition t status (if decide (cond_Status c = status) then cond_LastTransitionTime c else now)
                      reason message)
  | None => if decide (status = ConditionTrue ∨ writeFalse = true)
            then Some (mkCondition t status now reason message) else None
  end.

(** Updating a condition keeps the types unique, touches the condition of
    that type only, and moves its transition time exactly when the status
    changes; an absent condition is only added when it is True or asked for. *)
Theorem update_condition_spec l now t status reason message writeFalse u :
  let l' := UpdateDatadogAgentStatusConditions l now t status reason message writeFalse in
  (typed l → typed l') ∧
  GetCondition l' u = if decide (u = t) then updatedCondition (GetCondition l t) now t status reason message writeFalse
                      else GetCondition l u.
Proof.
  unfold UpdateDatadogAgentStatusConditions, typed. cbv zeta.
  destruct (getIndexForConditionType l t) as [i|] eqn:Hi.
  - rewrite alter_types by apply update_keeps_type. split; [done|].
    rewrite (GetCondition_alter _ _ t) by (done || apply update_keeps_type).
    destruct (decide (u = t)) as [->|Hne]; [|by rewrite bool_decide_false by congruence].
    rewrite bool_decide_true by done. unfold GetCondition. rewrite Hi.
    apply GetCondition_index in Hi as (c & Hc & Ht). simpl. rewrite Hc. simpl. f_equal.
    unfold updateDatadogAgentStatusCondition. rewrite Ht. case_bool_decide as Hs.
    + by rewrite decide_False.
    + by rewrite decide_True, Hs.
  - pose proof Hi as Hn. rewrite GetCondition_index_None in Hn.
    assert (Hg : GetCondition l t = None) by by apply GetCondition_None.
    destruct (bool_decide (status = ConditionTrue) || writeFalse) eqn:Ew.
    + rewrite fmap_app. split.
      { intros Hnd. apply NoDup_app. split_and!; [done|set_solver|apply NoDup_singleton]. }
      rewrite GetCondition_snoc. cbn [cond_Type newDatadogAgentStatusCondition].
      destruct (decide (u = t)) as [->|Hu].
      * rewrite Hg, bool_decide_true by done. unfold updatedCondition. rewrite decide_True; [done|].
        apply orb_true_iff in Ew as [Ew%bool_decide_eq_true|Ew]; auto.
      * destruct (GetCondition l u); [done|]. by rewrite bool_decide_false by congruence.
    + split; [done|]. destruct (decide (u = t)) as [->|Hu]; [|done]. rewrite Hg. unfold updatedCondition.
      apply orb_false_iff in Ew as [Ew%bool_decide_eq_false ->]. rewrite decide_False; [done|]. naive_solver.
Qed.

(** ** Comparison *)

(** What is compared of a condition: all but the transition time. *)
Definition strip (c : Condition) : string * string * string * string :=
  (cond_Type c, cond_Status c, cond_Reason c, cond_Message c).

Definition strip_le (x y : string * string * string * string) : Prop := String.le x.1.1.1 y.1.1.1.

#[local] Instance strip_le_dec : RelDecision strip_le.
Proof. intros x y. unfold strip_le. apply _. Defined.

Lemma IsEqualCondition_strip a b : IsEqualCondition a b = true ↔ strip a = strip b.
Proof.
  unfold IsEqualCondition, strip. rewrite !andb_true_iff, !bool_decide_eq_true.
  split; [intros (((-> & ->) & ->) & ->); done|intros; by simplify_eq].
Qed.

Lemma forallb_zip_strip x y :
  length x = length y →
  forallb (λ '(a, b), IsEqualCondition a b) (zip x y) = true ↔ strip <$> x = strip <$> y.
Proof.
  revert y; induction x as [|a x IH]; intros [|b y] Hlen; simplify_eq/=; [done|].
  rewrite andb_true_iff, IsEqualCondition_strip, IH by done. split; [intros [? ?]; by f_equal|]. intros Heq. split; [by apply (f_equal head), (inj Some) in Heq|by apply (f_equal tail) in Heq].
Qed.

#[local] Instance strip_le_total : Total strip_le.
Proof. intros x y. apply (total String.le). Qed.
#[local] Instance strip_le_trans : Transitive strip_le.
Proof. intros x y z. unfold strip_le. apply transitivity. Qed.

Lemma typed_strip_inj l x y : typed l → x ∈ strip <$> l → y ∈ strip <$> l → x.1.1.1 = y.1.1.1 → x = y.
Proof.
  intros Hl (c & -> & Hc)%list_elem_of_fmap (d & -> & Hd)%list_elem_of_fmap Heq. simpl in Heq.
  pose proof (typed_GetCondition l c Hl Hc) as H1. rewrite Heq, (typed_GetCondition l d Hl Hd) in H1. congruence.
Qed.

Lemma GetCondition_perm a b :
  typed b → strip <$> a ≡ₚ strip <$> b → ∀ t c, GetCondition a t = Some c → strip <$> GetCondition b t = Some (strip c).
Proof.
  intros Hb Hp t c [Hc <-]%GetCondition_elem. apply (list_elem_of_fmap_2 strip) in Hc. rewrite Hp in Hc.
  apply list_elem_of_fmap in Hc as (d & Hd & Hin).
  assert (Ht : cond_Type c = cond_Type d) by (unfold strip in Hd; congruence).
  rewrite Ht, (typed_GetCondition b d Hb Hin), Hd. done.
Qed.

Lemma strip_perm_iff a b :
  typed a → typed b →
  strip <$> a ≡ₚ strip <$> b ↔ ∀ t, strip <$> GetCondition a t = strip <$> GetCondition b t.
Proof.
  intros Ha Hb. split.
  - intros Hp t. destruct (GetCondition a t) as [c|] eqn:Ec.
    + by rewrite (GetCondition_perm a b Hb Hp t c Ec).
    + destruct (GetCondition b t) as [d|] eqn:Ed; [|done].
      symmetry in Hp. pose proof (GetCondition_perm b a Ha Hp t d Ed) as H1. by rewrite Ec in H1.
  - intros Hg. assert (Hnd : ∀ l, typed l → NoDup (strip <$> l)).
    { intros l Hl. apply (NoDup_fmap_1 (λ x, x.1.1.1)). rewrite <-list_fmap_compose. exact Hl. }
    assert (Hsub : ∀ l l', typed l → (∀ t, strip <$> GetCondition l t = strip <$> GetCondition l' t) →
                   ∀ x, x ∈ strip <$> l → x ∈ strip <$> l').
    { intros l l' Hl Heq x (c & -> & Hc)%list_elem_of_fmap. specialize (Heq (cond_Type c)).
      rewrite (typed_GetCondition l c Hl Hc) in Heq. destruct (GetCondition l' (cond_Type c)) as [d|] eqn:Ed; [|done].
      apply GetCondition_elem in Ed as [Hd _]. apply (inj Some) in Heq. rewrite Heq.
      by apply list_elem_of_fmap_2. }
    apply NoDup_Permutation; [by apply Hnd..|]. intros x. split; apply Hsub; done.
Qed.

(** Comparing the conditions of two statuses ignores their order and their
    transition times and nothing else: for lists keyed by type it is exactly
    the agreement, type by type, of status, reason and message. *)
Theorem IsEqualConditions_iff a b :
  typed a → typed b →
  IsEqualConditions a b = true ↔ ∀ t, strip <$> GetCondition a t = strip <$> GetCondition b t.
Proof.
  intros Ha Hb. rewrite <-strip_perm_iff by done. unfold IsEqualConditions. case_bool_decide as Hlen; simpl.
  - rewrite forallb_zip_strip by (by rewrite !length_sort_by).
    rewrite !(fmap_sort_by strip type_le strip_le) by done. split.
    + intros Heq. by rewrite <-(sort_by_Permutation strip_le (strip <$> a)), Heq, sort_by_Permutation.
    + intros Hp. apply sort_by_ext; [apply _..|done|]. intros x y Hx Hy Hxy Hyx.
      eapply typed_strip_inj; [exact Ha|done..|]. by apply (anti_symm String.le).
  - split; [done|]. intros Hp%Permutation_length. by rewrite !length_fmap in Hp.
Qed.

(** ** Combining daemonset statuses *)

Abbreviation rank d := (assignNumeralState (ds_State d)).

Lemma getCombinedState_cases a b :
  let c := getCombinedState a b in
  (c = a ∧ assignNumeralState a ≠ 0 ∧ (assignNumeralState b = 0 ∨ assignNumeralState a < assignNumeralState b))%Z ∨
  (c = b ∧ (assignNumeralState a = 0 ∨ assignNumeralState b ≠ 0 ∧ assignNumeralState b ≤ assignNumeralState a))%Z.
Proof. unfold getCombinedState. repeat case_bool_decide; simpl; auto with lia. Qed.

Lemma assignNumeralState_range st : (0 ≤ assignNumeralState st ≤ 5)%Z.
Proof. unfold assignNumeralState. repeat case_bool_decide; lia. Qed.

Definition sumOf (f : DaemonSetStatus → Z) (l : list DaemonSetStatus) : Z := foldr (λ d n, f d + n)%Z 0%Z l.

Lemma sumOf_snoc f l d : sumOf f (l ++ [d]) = (sumOf f l + f d)%Z.
Proof. induction l as [|e l IH]; simpl; [lia|]. rewrite IH. lia. Qed.

(** The combination of a list of reported statuses. *)
Definition combineAll (l : list DaemonSetStatus) : option DaemonSetStatus :=
  foldl (λ acc d, CombineDaemonSetStatus acc (Some d)) None l.

(** The worst state among the known ones, in the order Failed, Canary, Updating,
    Progressing, Running. *)
Definition worstState (l : list DaemonSetStatus) (r : DaemonSetStatus) : Prop :=
  (∀ d, d ∈ l → rank d ≠ 0%Z → rank r ≠ 0%Z ∧ (rank r ≤ rank d)%Z) ∧
  (rank r ≠ 0%Z → ∃ d, d ∈ l ∧ ds_State d = ds_State r).

Definition latestUpdate (l : list DaemonSetStatus) (t : option Time) : Prop :=
  (∀ d u, d ∈ l → ds_LastUpdate d = Some u → ∃ v, t = Some v ∧ (u ≤ v)%Z) ∧
  (∀ v, t = Some v → ∃ d, d ∈ l ∧ ds_LastUpdate d = Some v).

Lemma combineLastUpdate_cases x y :
  combineLastUpdate x y = x ∧ (∀ u, y = Some u → ∃ v, x = Some v ∧ (u ≤ v)%Z) ∨
  combineLastUpdate x y = y ∧ (∀ u, x = Some u → ∃ v, y = Some v ∧ (u ≤ v)%Z).
Proof.
  unfold combineLastUpdate, metaTime_Before. destruct x as [x|], y as [y|]; simpl; try case_bool_decide.
  all: first [left; split; [done|]; intros; simplify_eq; eauto with lia; fail
             |right; split; [done|]; intros; simplify_eq; eauto with lia; fail|idtac].
Qed.

Lemma worstState_snoc l d c r :
  (if decide (l = []) then rank c = 0%Z else worstState l c) →
  ds_State r = getCombinedState (ds_State c) (ds_State d) → worstState (l ++ [d]) r.
Proof.
  intros Hc Hr. unfold worstState. rewrite Hr.
  assert (Hw : (∀ e, e ∈ l → rank e ≠ 0%Z → rank c ≠ 0%Z ∧ (rank c ≤ rank e)%Z) ∧
               (rank c ≠ 0%Z → ∃ e, e ∈ l ∧ ds_State e = ds_State c)).
  { destruct (decide (l = [])) as [->|]; [|done]. split; [set_solver|done]. }
  destruct Hw as [Hle Hex].
  pose proof (assignNumeralState_range (ds_State c)). pose proof (assignNumeralState_range (ds_State d)).
  destruct (getCombinedState_cases (ds_State c) (ds_State d)) as [(-> & Hn & Ho)|(-> & Ho)].
  - split.
    + intros e [He| ->%list_elem_of_singleton]%elem_of_app Hne; [by apply Hle|]. lia.
    + intros _. destruct (Hex Hn) as (e & He & Hs). exists e. set_solver.
  - split.
    + intros e [He| ->%list_elem_of_singleton]%elem_of_app Hne; [|lia]. destruct (Hle e He Hne). lia.
    + intros _. exists d. set_solver.
Qed.

Lemma latestUpdate_snoc l d t :
  latestUpdate l t → latestUpdate (l ++ [d]) (combineLastUpdate t (ds_LastUpdate d)).
Proof.
  intros [Hge Hex]. destruct (combineLastUpdate_cases t (ds_LastUpdate d)) as [[-> Hd]|[-> Hd]]; split.
  - intros e u [He| ->%list_elem_of_singleton]%elem_of_app Hu; eauto.
  - intros v Hv. destruct (Hex v Hv) as (e & He & Hs). exists e. set_solver.
  - intros e u [He| ->%list_elem_of_singleton]%elem_of_app Hu; [|eauto with lia].
    destruct (Hge e u He Hu) as (v & Hv & Huv). destruct (Hd v Hv) as (v' & Hv' & ?). exists v'. split; [done|lia].
  - intros v Hv. exists d. set_solver.
Qed.

(** Combining the statuses reported by the DatadogAgentInternals adds up
    the pod counts (in 32 bits), keeps the worst known state and the most
    recent update time, and renders them; nothing is reported when nothing was
    combined. *)
Theorem combineAll_spec l :
  match combineAll l with
  | None => l = []
  | Some r =>
      l ≠ [] ∧
      ds_Desired r = wrap32 (sumOf ds_Desired l) ∧ ds_Current r = wrap32 (sumOf ds_Current l) ∧
      ds_Ready r = wrap32 (sumOf ds_Ready l) ∧ ds_Available r = wrap32 (sumOf ds_Available l) ∧
      ds_UpToDate r = wrap32 (sumOf ds_UpToDate l) ∧
      worstState l r ∧ latestUpdate l (ds_LastUpdate r) ∧
      ds_Status r = formatStatus (ds_State r) (ds_Desired r) (ds_Ready r) (ds_UpToDate r)
  end.
Proof.
  unfold combineAll. induction l as [|d l IH] using rev_ind; [done|]. rewrite foldl_app. simpl.
  set (acc := foldl _ None l) in *. split; [by destruct l|].
  rewrite !sumOf_snoc. set (c := default zeroDaemonSetStatus acc).
  assert (Hc : ds_Desired c = wrap32 (sumOf ds_Desired l) ∧ ds_Current c = wrap32 (sumOf ds_Current l) ∧
    ds_Ready c = wrap32 (sumOf ds_Ready l) ∧ ds_Available c = wrap32 (sumOf ds_Available l) ∧
    ds_UpToDate c = wrap32 (sumOf ds_UpToDate l) ∧ (if decide (l = []) then rank c = 0%Z else worstState l c) ∧
    latestUpdate l (ds_LastUpdate c)).
  { unfold c. destruct acc as [a|]; simpl.
    - destruct IH as (Hne & ? & ? & ? & ? & ? & ? & ? & _). by rewrite decide_False.
    - subst l. rewrite decide_True by done. split_and!; try done. split; [set_solver|done]. }
  destruct Hc as (-> & -> & -> & -> & -> & Hw & Hl). rewrite !wrap32_add_l.
  split_and!; [done..| |by apply latestUpdate_snoc|done]. by eapply worstState_snoc.
Qed.

(** ** Writing the status *)

Section Write.
Context {RC : Type} `{EqDecision RC}.
Implicit Types s : DatadogAgentStatus RC.

(** What the status write leaves out is not lost: when no status is
    written and the update was not refused, the experiment, the node agent and
    the cluster component statuses computed by the reconcile are those already
    persisted; when one is written it carries the computed experiment. *)
Theorem status_write_complete (persisted new : DatadogAgentStatus RC) fwd result err now upd :
  let '(written, (result', err')) := updateStatusIfNeeded persisted new fwd result err now upd in
  match written with
  | Some s => st_Experiment s = st_Experiment new ∧ st_Agent s = st_Agent new ∧ upd = None
  | None =>
      upd = None →
      st_Experiment persisted = st_Experiment new ∧ st_RemoteConfig persisted = st_RemoteConfig new ∧
      IsEqualDaemonSetStatus (st_Agent persisted) (st_Agent new) = true ∧
      IsEqualDeploymentStatus (st_ClusterAgent persisted) (st_ClusterAgent new) = true ∧
      result' = result ∧ err' = err
  end.
Proof.
  unfold updateStatusIfNeeded. set (new1 := set_Conditions _ new).
  assert (H1 : st_Experiment new1 = st_Experiment new ∧ st_Agent new1 = st_Agent new ∧
    st_RemoteConfig new1 = st_RemoteConfig new ∧ st_ClusterAgent new1 = st_ClusterAgent new) by done.
  generalize dependent new1. intros new1 (He & Ha & Hr & Hc).
  assert (H2 : st_Experiment (setMetricsForwarderStatus fwd new1) = st_Experiment new ∧
    st_Agent (setMetricsForwarderStatus fwd new1) = st_Agent new ∧
    st_RemoteConfig (setMetricsForwarderStatus fwd new1) = st_RemoteConfig new ∧
    st_ClusterAgent (setMetricsForwarderStatus fwd new1) = st_ClusterAgent new).
  { by destruct fwd; simpl; rewrite ?He, ?Ha, ?Hr, ?Hc. }
  generalize dependent (setMetricsForwarderStatus fwd new1). intros n (Hen & Han & Hrn & Hcn).
  destruct (IsEqualStatus (Some persisted) (Some n)) eqn:Heq.
  - intros _. simpl in Heq. rewrite <-Hen, <-Han, <-Hrn, <-Hcn.
    destruct (IsEqualDaemonSetStatus (st_Agent persisted) (st_Agent n)); [|done].
    destruct (bool_decide (st_RemoteConfig persisted = st_RemoteConfig n)) eqn:Erc; [|done]. simpl in Heq.
    apply bool_decide_eq_true in Erc.
    destruct (bool_decide (length _ = _)); [|done]. simpl in Heq. destruct (_ && _); [done|].
    destruct (IsEqualDeploymentStatus (st_ClusterAgent persisted) (st_ClusterAgent n)); [|done]. simpl in Heq.
    destruct (IsEqualDeploymentStatus _ _); [|done]. simpl in Heq.
    destruct (bool_decide (st_Experiment persisted = st_Experiment n)) eqn:Eex; [|done].
    apply bool_decide_eq_true in Eex. done.
  - destruct upd as [e|]; [destruct (IsConflict e); done|]. done.
Qed.

(** ** Cluster provider *)

(** The persisted status holds a provider that was detected. *)
Definition pinned s : Prop :=
  wasProviderDetected (st_Conditions s) = true ∧ IsSpecificProvider (st_ClusterProvider s) = true.

(** Detection never downgrades: while no user annotation overrides it and
    detection is enabled, a DatadogAgent whose status records a detected
    provider resolves at once to a specific provider, the live one or else the
    recorded one, whatever the detector lost, and the status it persists next
    records it again. *)
Theorem detected_provider_is_pinned quoted s ann detector now :
  ann !! ProviderAnnotationKey = None →
  pinned s →
  let p := match pr_Provider detector with
           | Some live => if IsSpecificProvider live then live else st_ClusterProvider s
           | None => st_ClusterProvider s
           end in
  resolveClusterProvider ann s (Some detector) = Some (p, clusterProviderSourceDetected) ∧
  pinned (setClusterProviderStatus quoted (generateNewStatusFromDDA (Some s)) p clusterProviderSourceDetected now) ∧
  IsSpecificProvider p = true.
Proof.
  intros Hann [Hdet Hspec]. cbv zeta. unfold resolveClusterProvider. rewrite Hann, Hdet, Hspec. simpl.
  assert (Hset : ∀ p, IsSpecificProvider p = true → pinned
    (setClusterProviderStatus quoted (generateNewStatusFromDDA (Some s)) p clusterProviderSourceDetected now)).
  { intros p Hp. unfold setClusterProviderStatus. simpl. rewrite Hp. done. }
  destruct (pr_Provider detector) as [live|].
  - destruct (IsSpecificProvider live) eqn:El; simpl; auto.
  - unfold IsSpecificProvider in Hspec. destruct (bool_decide (st_ClusterProvider s = "")) eqn:Ee; [done|].
    split_and!; [done| |]; [apply Hset|]; unfold IsSpecificProvider; by rewrite Ee.
Qed.

(** The conditions of a regenerated status start empty: whatever was recorded,
    an update dates its condition now, although its status did not change. *)
Lemma regenerated_condition_is_redated s t reason message now :
  GetCondition (UpdateDatadogAgentStatusConditions (st_Conditions (generateNewStatusFromDDA (Some s))) now t
                  ConditionTrue reason message false) t
  = Some (mkCondition t ConditionTrue now reason message).
Proof. unfold GetCondition. simpl. by rewrite bool_decide_true. Qed.
End Write.
