(* ===== verification/Profiles.v ===== *)
(** * DatadogAgentProfiles.

    Models [pkg/agentprofile/agent_profile.go], [pkg/agentprofile/status.go],
    the profile part of [internal/controller/datadogagent/profile.go]
    ([reconcileProfiles], [enforceCreateStrategy], [syncProfileStatus], ...) and
    [reconcile_agent.go] (node labels, pod cleanup, daemonset names).

    Parameters of the model: label requirements of k8s.io/apimachinery, the
    allowlist validation of a profile's config, the shared-config overlay of the
    features, the MD5 of a profile spec, and the reads from the API server. *)

From Stdlib Require Import ZArith.
From stdpp Require Import base gmap strings list sorting pretty.
From S2P Require Import Prelude Cluster Status Untaint.

(** ** Data *)

Record NamespacedName := mkNSN { nsn_Namespace : string; nsn_Name : string }.

#[export] Instance NamespacedName_eq_dec : EqDecision NamespacedName.
Proof. solve_decision. Defined.

#[export] Program Instance NamespacedName_countable : Countable NamespacedName :=
  inj_countable' (λ n, (nsn_Namespace n, nsn_Name n)) (λ '(a, b), mkNSN a b) _.
Next Obligation. by intros []. Qed.

Record NodeSelectorRequirement := mkNSR { nsr_Key : string; nsr_Operator : string; nsr_Values : list string }.

Inductive CreateStrategyStatus := StrategyUnset | CompletedStatus | InProgressStatus | WaitingStatus.

#[export] Instance CreateStrategyStatus_eq_dec : EqDecision CreateStrategyStatus.
Proof. solve_decision. Defined.

Record CreateStrategy := mkCreateStrategy {
  cs_Status : CreateStrategyStatus;
  cs_NodesLabeled : Z;
  cs_PodsReady : Z;
  cs_MaxUnavailable : Z;
  cs_LastTransition : option Time
}.

Record DatadogAgentProfileStatus := mkProfileStatus {
  prs_LastUpdate : option Time;
  prs_CurrentHash : string;
  prs_Conditions : list Condition;
  prs_Valid : string;
  prs_Applied : string;
  prs_CreateStrategy : option CreateStrategy
}.

(** [Config] is the DatadogAgentSpec of a profile. *)
Record DatadogAgentProfile (Config : Type) := mkProfile {
  prof_Namespace : string;
  prof_Name : string;
  prof_Annotations : gmap string string;
  prof_CreationTimestamp : Time;
  prof_Affinity : option (list NodeSelectorRequirement);
  prof_Config : Config;
  prof_Status : DatadogAgentProfileStatus
}.
Arguments mkProfile {_}.
Arguments prof_Namespace {_}.
Arguments prof_Name {_}.
Arguments prof_Annotations {_}.
Arguments prof_CreationTimestamp {_}.
Arguments prof_Affinity {_}.
Arguments prof_Config {_}.
Arguments prof_Status {_}.

Definition nsname {Config : Type} (p : DatadogAgentProfile Config) : NamespacedName :=
  mkNSN (prof_Namespace p) (prof_Name p).

Definition set_prof_Status {Config : Type} (s : DatadogAgentProfileStatus) (p : DatadogAgentProfile Config) :
    DatadogAgentProfile Config :=
  mkProfile (prof_Namespace p) (prof_Name p) (prof_Annotations p) (prof_CreationTimestamp p) (prof_Affinity p) (prof_Config p) s.

Record ClusterNode := mkClusterNode { cn_Name : string; cn_Labels : gmap string string }.

Record CreateStrategyInfo := mkCSInfo { nodesNeedingLabel : list string; nodesAlreadyLabeled : Z }.

(** ** Names *)

Definition defaultProfileName : string := "default".
Definition OldProfileLabelKey : string := "agent.datadoghq.com/profile".

Definition IsDefaultProfile (profileNamespace profileName : string) : bool :=
  bool_decide (profileNamespace = "") && bool_decide (profileName = defaultProfileName).

Definition DaemonSetName (n : NamespacedName) (useV3Metadata : bool) : string :=
  if IsDefaultProfile (nsn_Namespace n) (nsn_Name n) then ""
  else if useV3Metadata then nsn_Name n +:+ "-" +:+ DefaultAgentResourceSuffix
  else "datadog-agent-with-profile-" +:+ nsn_Namespace n +:+ "-" +:+ nsn_Name n.

Definition getProfileDDAIName (ddaiName profileName profileNamespace : string) : string :=
  if IsDefaultProfile profileNamespace profileName then ddaiName else profileName.

(** ** Conditions of a profile *)

Definition NewDatadogAgentProfileCondition (conditionType conditionStatus : string) (now : Time)
    (reason message : string) : Condition :=
  mkCondition conditionType conditionStatus now reason message.

(** Every entry of the type is overwritten. *)
Definition SetDatadogAgentProfileCondition (conditionsList : list Condition) (newCondition : Condition) : list Condition :=
  if bool_decide (cond_Type newCondition = "") then conditionsList
  else
    let found := ContainsFunc (λ c, bool_decide (cond_Type newCondition = cond_Type c)) conditionsList in
    let replaced := (λ c, if bool_decide (cond_Type newCondition = cond_Type c) then newCondition else c) <$> conditionsList in
    if found then replaced else replaced ++ [newCondition].

Definition set_prs_Conditions (l : list Condition) (s : DatadogAgentProfileStatus) : DatadogAgentProfileStatus :=
  mkProfileStatus (prs_LastUpdate s) (prs_CurrentHash s) l (prs_Valid s) (prs_Applied s) (prs_CreateStrategy s).

Definition setProfileCondition {Config : Type} (profile : DatadogAgentProfile Config)
    (conditionType status : string) (now : Time) (reason message : string) : DatadogAgentProfile Config :=
  set_prof_Status (set_prs_Conditions
    (SetDatadogAgentProfileCondition (prs_Conditions (prof_Status profile))
       (NewDatadogAgentProfileCondition conditionType status now reason message)) (prof_Status profile)) profile.

(** Valid and Applied, from the conditions in order: a later one wins. *)
Definition inferFromConditions (conditions : list Condition) (s : DatadogAgentProfileStatus) : DatadogAgentProfileStatus :=
  foldl (λ s c,
    if bool_decide (cond_Type c = "Valid")
    then mkProfileStatus (prs_LastUpdate s) (prs_CurrentHash s) (prs_Conditions s) (cond_Status c) (prs_Applied s)
           (prs_CreateStrategy s)
    else if bool_decide (cond_Type c = "Applied")
    then mkProfileStatus (prs_LastUpdate s) (prs_CurrentHash s) (prs_Conditions s) (prs_Valid s) (cond_Status c)
           (prs_CreateStrategy s)
    else s) s conditions.

Definition isEqualCreateStrategy (current new : option CreateStrategy) : bool :=
  match current, new with
  | None, None => true
  | Some c, Some n =>
      bool_decide (cs_Status c = cs_Status n) && bool_decide (cs_NodesLabeled c = cs_NodesLabeled n)
      && bool_decide (cs_PodsReady c = cs_PodsReady n) && bool_decide (cs_MaxUnavailable c = cs_MaxUnavailable n)
  | _, _ => false
  end.

Definition IsEqualProfileStatus (current new : DatadogAgentProfileStatus) : bool :=
  if negb (bool_decide (prs_CurrentHash current = prs_CurrentHash new))
     || negb (bool_decide (prs_Valid current = prs_Valid new))
     || negb (bool_decide (prs_Applied current = prs_Applied new)) then false
  else if negb (isEqualCreateStrategy (prs_CreateStrategy current) (prs_CreateStrategy new)) then false
  else IsEqualConditions (prs_Conditions current) (prs_Conditions new).

(** ** Create strategy *)

(** The pruned map, the sorted list and the returned number of nodes to label.
    A capacity that wrapped below zero indexes the list out of range. *)
Definition applyMaxNodesToLabel (profilesByNode : gmap string NamespacedName) (csInfo : CreateStrategyInfo)
    (maxUnavailable currentUnavailable : Z) : outcome (gmap string NamespacedName * CreateStrategyInfo * Z) :=
  let needing := sort_by String.le (nodesNeedingLabel csInfo) in
  let csInfo := mkCSInfo needing (nodesAlreadyLabeled csInfo) in
  let prune (names : list string) := foldl (λ m n, delete n m) profilesByNode names in
  if bool_decide (maxUnavailable ≤ currentUnavailable)%Z then Ret (prune needing, csInfo, 0%Z)
  else
    let capacity := wrap32 (maxUnavailable - currentUnavailable) in
    let nodesToLabel := Z.min capacity (wrap32 (Z.of_nat (length needing))) in
    if bool_decide (nodesToLabel < 0)%Z then Panic
    else Ret (prune (drop (Z.to_nat nodesToLabel) needing), csInfo, nodesToLabel).

(** [ready]: [dsStatus.NumberReady], [None] for a nil [dsStatus]. *)
Definition updateCreateStrategyStatus (strategy : CreateStrategy) (info : CreateStrategyInfo)
    (numNodesToLabel maxUnavailable newUnavailable : Z) (ready : option Z)
    (previousStatus : CreateStrategyStatus) (previousLastTransition : option Time) (now : Time) : CreateStrategy :=
  let totalNodes := wrap32 (nodesAlreadyLabeled info + wrap32 (Z.of_nat (length (nodesNeedingLabel info)))) in
  let newStatus :=
    if bool_decide (totalNodes = 0)%Z then CompletedStatus
    else if bool_decide (nodesAlreadyLabeled info = totalNodes) then CompletedStatus
    else if bool_decide (0 < numNodesToLabel)%Z || bool_decide (newUnavailable < maxUnavailable)%Z then InProgressStatus
    else WaitingStatus in
  mkCreateStrategy newStatus (wrap32 (nodesAlreadyLabeled info + numNodesToLabel))
    (default (cs_PodsReady strategy) ready) maxUnavailable
    (if bool_decide (previousStatus = newStatus) then previousLastTransition else Some now).

(** [maxUnavailable]: the value of [getMaxNodesToLabel], as an int32. *)
Definition ApplyCreateStrategy (profilesByNode : gmap string NamespacedName) (csInfo : CreateStrategyInfo)
    (strategy : option CreateStrategy) (maxUnavailable : Z) (ready : option Z) (now : Time) :
    outcome (gmap string NamespacedName * CreateStrategyInfo * CreateStrategy) :=
  let previousStatus := from_option cs_Status StrategyUnset strategy in
  let previousLastTransition := strategy ≫= cs_LastTransition in
  let strategy := default (mkCreateStrategy StrategyUnset 0 0 0 None) strategy in
  let currentUnavailable := match ready with
                            | Some r => wrap32 (nodesAlreadyLabeled csInfo - r)
                            | None => 0%Z
                            end in
  match applyMaxNodesToLabel profilesByNode csInfo maxUnavailable currentUnavailable with
  | Ret (byNode, csInfo, numNodesToLabel) =>
      let newUnavailable := wrap32 (currentUnavailable + numNodesToLabel) in
      Ret (byNode, csInfo,
           updateCreateStrategyStatus strategy csInfo numNodesToLabel maxUnavailable newUnavailable ready
             previousStatus previousLastTransition now)
  | Fail e => Fail e
  | Panic => Panic
  end.

(** [intstr.IntOrString] *)
Inductive IntOrString := IntVal (n : Z) | StrVal (s : string).

(** ** Order of the profiles *)

(** [compareProfiles a b <= 0]: creation time, then name. *)
Definition profile_le {Config : Type} (a b : DatadogAgentProfile Config) : Prop :=
  (prof_CreationTimestamp a < prof_CreationTimestamp b)%Z ∨
  prof_CreationTimestamp a = prof_CreationTimestamp b ∧ String.le (prof_Name a) (prof_Name b).

#[export] Instance profile_le_dec {Config : Type} : RelDecision (profile_le (Config := Config)).
Proof. intros a b. unfold profile_le. apply _. Defined.

Definition SortProfiles {Config : Type} (profiles : list (DatadogAgentProfile Config)) : list (DatadogAgentProfile Config) :=
  if bool_decide (1 < length profiles) then sort_by profile_le profiles else profiles.

(** ** Node labels and pods *)

(** The labels a node should be patched to, [None] for no patch. *)
Definition profileLabels (profile : NamespacedName) (labels : gmap string string) : option (gmap string string) :=
  let isDefaultProfile := IsDefaultProfile (nsn_Namespace profile) (nsn_Name profile)
                          || bool_decide (nsn_Name profile = "") && bool_decide (nsn_Namespace profile = "") in
  let removeProfile := isDefaultProfile && bool_decide (is_Some (labels !! ProfileLabelKey)) in
  let changeProfile := negb isDefaultProfile && negb (bool_decide (get_key labels ProfileLabelKey = nsn_Name profile)) in
  let removeOld := bool_decide (is_Some (labels !! OldProfileLabelKey)) in
  if removeProfile || removeOld || changeProfile then
    let newLabels := if removeProfile then delete ProfileLabelKey labels else labels in
    let newLabels := if removeOld then delete OldProfileLabelKey newLabels else newLabels in
    let newLabels := if changeProfile then <[ProfileLabelKey := nsn_Name profile]> newLabels else newLabels in
    if bool_decide (newLabels = ∅) then None else Some newLabels
  else None.

(** Whether the agent pod of a node with that profile is deleted. *)
Definition deletePodForProfile (profile : NamespacedName) (podLabels : gmap string string) : bool :=
  let isDefaultProfile := IsDefaultProfile (nsn_Namespace profile) (nsn_Name profile) in
  let exists_ := bool_decide (is_Some (podLabels !! ProfileLabelKey)) in
  (isDefaultProfile && exists_) || (negb isDefaultProfile && negb exists_)
  || (negb isDefaultProfile && negb (bool_decide (get_key podLabels ProfileLabelKey = nsn_Name profile))).

Record AgentPod := mkAgentPod { ap_Name : string; ap_NodeName : string; ap_Labels : gmap string string }.

Class NodeLabelClient (W : Type) := {
  client_GetClusterNode : string → GoM W ClusterNode;
  client_PatchNodeLabels : string → gmap string string → GoM W unit;
  client_ListAgentPods : GoM W (list AgentPod);
  client_DeletePod : string → GoM W unit
}.

Section Nodes.
Context {W : Type} `{NodeLabelClient W}.

Definition labelNode (nodeName : string) (profile : NamespacedName) : GoM W unit :=
  node ← client_GetClusterNode nodeName;
  match profileLabels profile (cn_Labels node) with
  | None => mret tt
  | Some newLabels =>
      p ← attempt (client_PatchNodeLabels (cn_Name node) newLabels);
      match p with
      | inr e => if IsNotFound e then mret tt else fail e
      | inl _ => mret tt
      end
  end.

(** The map is ranged over in some order, here [assignments]. *)
Definition labelNodesWithProfiles (assignments : list (string * NamespacedName)) : GoM W unit :=
  for_each (λ '(nodeName, profile), labelNode nodeName profile) assignments.

Definition cleanupPodsForProfilesThatNoLongerApply (profilesByNode : gmap string NamespacedName) : GoM W unit :=
  agentPods ← client_ListAgentPods;
  for_each (λ agentPod,
    match profilesByNode !! ap_NodeName agentPod with
    | None => mret tt
    | Some profile =>
        if deletePodForProfile profile (ap_Labels agentPod)
        then d ← attempt (client_DeletePod (ap_Name agentPod));
             match d with
             | inr e => if IsNotFound e then mret tt else fail e
             | inl _ => mret tt
             end
        else mret tt
    end) agentPods.
End Nodes.

(** ** Reconciling the profiles *)

Section Reconcile.
Context {Config DSpec Requirement : Type}.
(** [labels.Requirement], its constructor and [Matches]. *)
Context (NewRequirement : string → string → list string → Requirement + error).
Context (Matches : Requirement → gmap string string → bool).
(** [v1alpha1.ValidateDatadogAgentProfileSpec] *)
Context (ValidateDatadogAgentProfileSpec : option (list NodeSelectorRequirement) → Config → option error).
(** [feature.ApplyProfileSharedConfigOverlays candidate base config] *)
Context (ApplyProfileSharedConfigOverlays : DSpec → DSpec → Config → DSpec + error).
(** [comparison.GenerateMD5ForSpec]; "" on an error. *)
Context (SpecHash : option (list NodeSelectorRequirement) → Config → string).
(** The node agent's [updateStrategy.rollingUpdate.maxUnavailable] of a spec. *)
Context (spec_MaxUnavailable : Config → option IntOrString).
(** [intstr.GetScaledValueFromIntOrPercent v total roundUp] with [roundUp] set. *)
Context (GetScaledValue : IntOrString → Z → Z + error).
(** [CreateStrategyEnabled()] *)
Context (createStrategy : bool).
(** Options of the reconciler. *)
Context (IntrospectionEnabled ProfileEnabled EDSEnabled : bool).

Abbreviation Profile := (DatadogAgentProfile Config).
Implicit Types profile : Profile.

Definition profileMatchesNodeWithRequirements (requirements : list Requirement) (nodeLabels : gmap string string) : bool :=
  forallb (λ r, Matches r nodeLabels) requirements.

(** The first matching node that already has a non-default profile. *)
Fixpoint CheckProfileNodeConflicts (name : string) (requirements : list Requirement) (nodes : list ClusterNode)
    (profilesByNode : gmap string NamespacedName) : option error :=
  match nodes with
  | [] => None
  | node :: nodes =>
      if negb (profileMatchesNodeWithRequirements requirements (cn_Labels node))
      then CheckProfileNodeConflicts name requirements nodes profilesByNode
      else
        let existingProfile := default (mkNSN "" "") (profilesByNode !! cn_Name node) in
        if negb (IsDefaultProfile (nsn_Namespace existingProfile) (nsn_Name existingProfile))
        then Some (Errorf ("profile " +:+ name +:+ " conflicts with existing profile: "
                             +:+ nsn_Namespace existingProfile +:+ "/" +:+ nsn_Name existingProfile))
        else CheckProfileNodeConflicts name requirements nodes profilesByNode
  end.

Definition emptyCSInfo : CreateStrategyInfo := mkCSInfo [] 0.

Definition AssignNodesToProfile (n : NamespacedName) (requirements : list Requirement) (nodes : list ClusterNode)
    (profilesByNode : gmap string NamespacedName) (csInfo : gmap NamespacedName CreateStrategyInfo) :
    gmap string NamespacedName * gmap NamespacedName CreateStrategyInfo :=
  let csInfo := if createStrategy && bool_decide (csInfo !! n = None) then <[n := emptyCSInfo]> csInfo else csInfo in
  foldl (λ '(byNode, csInfo) node,
    if negb (profileMatchesNodeWithRequirements requirements (cn_Labels node)) then (byNode, csInfo)
    else
      let byNode := <[cn_Name node := n]> byNode in
      if createStrategy then
        let needsLabel := negb (bool_decide (cn_Labels node !! ProfileLabelKey = Some (nsn_Name n))) in
        (byNode, alter (λ i, if needsLabel then mkCSInfo (nodesNeedingLabel i ++ [cn_Name node]) (nodesAlreadyLabeled i)
                             else mkCSInfo (nodesNeedingLabel i) (wrap32 (nodesAlreadyLabeled i + 1))) n csInfo)
      else (byNode, csInfo)) (profilesByNode, csInfo) nodes.

Definition nodeSelectorOperatorToSelectionOperator (op : string) : string :=
  if bool_decide (op = "In") then "in"
  else if bool_decide (op = "NotIn") then "notin"
  else if bool_decide (op = "Exists") then "exists"
  else if bool_decide (op = "DoesNotExist") then "!"
  else if bool_decide (op = "Gt") then "gt"
  else if bool_decide (op = "Lt") then "lt"
  else "".

Fixpoint parseRequirements (l : list NodeSelectorRequirement) : list Requirement + error :=
  match l with
  | [] => inl []
  | r :: l =>
      match NewRequirement (nsr_Key r) (nodeSelectorOperatorToSelectionOperator (nsr_Operator r)) (nsr_Values r) with
      | inr e => inr e
      | inl selector => match parseRequirements l with
                        | inr e => inr e
                        | inl requirements => inl (selector :: requirements)
                        end
      end
  end.

Definition parseProfileRequirements (profile : Profile) : list Requirement + error :=
  match prof_Affinity profile with
  | None => inl []
  | Some l => parseRequirements l
  end.

Definition validateProfileName (profileName : string) : option error :=
  if bool_decide (profileName = "") then Some (Errorf "Profile name cannot be empty")
  else if bool_decide (63 < String.length profileName) then Some (Errorf "Profile name must be no more than 63 characters")
  else None.

Definition validateProfile (profile : Profile) : option error :=
  match validateProfileName (prof_Name profile) with
  | Some e => Some (Wrapf "profile name is invalid" e)
  | None => match ValidateDatadogAgentProfileSpec (prof_Affinity profile) (prof_Config profile) with
            | Some e => Some (Wrapf "profile spec is invalid" e)
            | None => None
            end
  end.

Definition ValidateProfileAndReturnRequirements (profile : Profile) : list Requirement + error :=
  match validateProfile profile with
  | Some e => inr e
  | None => parseProfileRequirements profile
  end.

(** *** Status of a profile *)

Definition GenerateProfileStatusFromConditions (profile : Profile) (now : Time) : Profile :=
  let s := prof_Status profile in
  let newStatus := mkProfileStatus (Some now) (SpecHash (prof_Affinity profile) (prof_Config profile))
                     (prs_Conditions s) (prs_Valid s) (prs_Applied s) (prs_CreateStrategy s) in
  set_prof_Status (inferFromConditions (prs_Conditions s) newStatus) profile.

Definition DDAIReconcileErrorConditionType : string := "DatadogAgentInternalReconcileError".

(** [ddai]: the result of reading the DDAI of the profile. *)
Definition addDDAIStatusToProfileStatus (ddai : DDAI + error) (profile : Profile) (now : Time) : Profile :=
  let okCondition p := setProfileCondition p DDAIReconcileErrorConditionType ConditionFalse now
                         "DatadogAgentInternal_reconcile_ok" "" in
  match ddai with
  | inr e =>
      if negb (IsNotFound e) then profile
      else match GetCondition (prs_Conditions (prof_Status profile)) DDAIReconcileErrorConditionType with
           | Some _ => okCondition profile
           | None => profile
           end
  | inl d =>
      match GetCondition (ddai_Conditions d) DatadogAgentReconcileErrorConditionType with
      | Some c =>
          if bool_decide (cond_Status c = ConditionTrue)
          then setProfileCondition profile DDAIReconcileErrorConditionType ConditionTrue now
                 "DatadogAgentInternal_reconcile_error" (ddai_Name d +:+ ": " +:+ cond_Message c)
          else okCondition profile
      | None => okCondition profile
      end
  end.

(** *** The loop over the profiles *)

(** What the loop accumulates; [ps_writes] are the profile statuses sent to the
    API server, in order (a failed write is logged and ignored). *)
Record ProfilesState := mkProfilesState {
  ps_byNode : gmap string NamespacedName;
  ps_csInfo : gmap NamespacedName CreateStrategyInfo;
  ps_spec : DSpec;
  ps_applied : list Profile;
  ps_writes : list Profile
}.

Definition syncProfileStatus (profile : Profile) (originalStatus : DatadogAgentProfileStatus) (now : Time)
    (st : ProfilesState) : Profile * ProfilesState :=
  let profile := GenerateProfileStatusFromConditions profile now in
  (profile,
   if IsEqualProfileStatus originalStatus (prof_Status profile) then st
   else mkProfilesState (ps_byNode st) (ps_csInfo st) (ps_spec st) (ps_applied st) (ps_writes st ++ [profile])).

(** One iteration, for the profile whose DDAI reads as [ddai]. *)
Definition reconcileProfile (nodeList : list ClusterNode) (baseDefaultSpec : DSpec) (getDDAI : Profile → DDAI + error)
    (now : Time) (st : ProfilesState) (profile : Profile) : ProfilesState :=
  let originalStatus := prof_Status profile in
  let profile := addDDAIStatusToProfileStatus (getDDAI profile) profile now in
  match ValidateProfileAndReturnRequirements profile with
  | inr e =>
      let profile := setProfileCondition profile "Valid" ConditionFalse now "Invalid" (error_Error e) in
      let profile := setProfileCondition profile "Applied" "Unknown" now "Invalid" "Profile is invalid" in
      (syncProfileStatus profile originalStatus now st).2
  | inl requirements =>
      let profile := setProfileCondition profile "Valid" ConditionTrue now "Valid" "Valid manifest" in
      match CheckProfileNodeConflicts (prof_Name profile) requirements nodeList (ps_byNode st) with
      | Some e =>
          let profile := setProfileCondition profile "Applied" ConditionFalse now "Conflict" "Conflict with existing profile" in
          (syncProfileStatus profile originalStatus now st).2
      | None =>
          match ApplyProfileSharedConfigOverlays (ps_spec st) baseDefaultSpec (prof_Config profile) with
          | inr e =>
              let profile := setProfileCondition profile "Applied" ConditionFalse now "Conflict" (error_Error e) in
              (syncProfileStatus profile originalStatus now st).2
          | inl candidateDefaultSpec =>
              let '(byNode, csInfo) :=
                AssignNodesToProfile (nsname profile) requirements nodeList (ps_byNode st) (ps_csInfo st) in
              let profile := setProfileCondition profile "Applied" ConditionTrue now "Applied" "Profile applied" in
              let '(profile, st') := syncProfileStatus profile originalStatus now
                (mkProfilesState byNode csInfo candidateDefaultSpec (ps_applied st) (ps_writes st)) in
              mkProfilesState (ps_byNode st') (ps_csInfo st') (ps_spec st') (ps_applied st' ++ [profile]) (ps_writes st')
          end
      end
  end.

(** Every node starts with the default profile. *)
Definition initialProfilesByNode (nodeList : list ClusterNode) : gmap string NamespacedName :=
  foldl (λ m node, <[cn_Name node := mkNSN "" "default"]> m) ∅ nodeList.

Definition reconcileProfilesLoop (nodeList : list ClusterNode) (defaultSpec : DSpec) (defaultProfile : Profile)
    (getDDAI : Profile → DDAI + error) (now : Time) (profiles : list Profile) : ProfilesState :=
  foldl (reconcileProfile nodeList defaultSpec getDDAI now)
    (mkProfilesState (initialProfilesByNode nodeList) ∅ defaultSpec [defaultProfile] [])
    (SortProfiles profiles).

(** *** Create strategy *)

Definition GetMaxUnavailable (spec : Config) (customDefault : IntOrString) : IntOrString :=
  match spec_MaxUnavailable spec with
  | Some v => v
  | None => customDefault
  end.

Definition getMaxNodesToLabel (spec : Config) (ddaEDSMaxUnavailable : IntOrString) (numNodes : Z) : Z :=
  match GetScaledValue (GetMaxUnavailable spec ddaEDSMaxUnavailable) numNodes with
  | inr _ => 1%Z
  | inl numToScale => numToScale
  end.

Definition CreateStrategyNeeded (profile : Profile) (csInfo : gmap NamespacedName CreateStrategyInfo) : bool :=
  if IsDefaultProfile (prof_Namespace profile) (prof_Name profile) then false
  else bool_decide (is_Some (csInfo !! nsname profile)).

(** [kubernetes.GetAgentNameWithProvider] *)
Context (GetAgentNameWithProvider : string → string → string).
(** [kubernetes.ShouldUseDefaultDaemonset] *)
Context (ShouldUseDefaultDaemonset : gset string → bool).

Definition useDefaultDaemonset (providerList : gset string) : bool :=
  if bool_decide (size providerList = 0) then false else ShouldUseDefaultDaemonset providerList.

(** The names valid for DaemonSets and for ExtendedDaemonSets. *)
Definition getValidDaemonSetNames (dsName : string) (providerList : gset string) (profiles : list Profile)
    (useV3Metadata : bool) : gset string * gset string :=
  let add (eds : bool) (names : gset string) (acc : gset string * gset string) :=
    if eds then (acc.1, names ∪ acc.2) else (names ∪ acc.1, acc.2) in
  let withProviders (n : string) : gset string := set_map (GetAgentNameWithProvider n) providerList in
  let acc := (∅, ∅) in
  let acc := if IntrospectionEnabled
             then if useDefaultDaemonset providerList
                  then add EDSEnabled {[GetAgentNameWithProvider dsName DefaultProvider]} acc
                  else add EDSEnabled (withProviders dsName) acc
             else acc in
  let acc := if ProfileEnabled
             then foldl (λ acc profile,
                    let dsProfileName := DaemonSetName (nsname profile) useV3Metadata in
                    let acc := if IsDefaultProfile (prof_Namespace profile) (prof_Name profile)
                               then add EDSEnabled (if IntrospectionEnabled then withProviders dsName else {[dsName]}) acc
                               else acc in
                    add false (if IntrospectionEnabled then withProviders dsProfileName else {[dsProfileName]}) acc)
                    acc profiles
             else acc in
  if negb IntrospectionEnabled && negb ProfileEnabled
  then if EDSEnabled then (acc.1, {[dsName]}) else ({[dsName]}, acc.2)
  else acc.

(** [getDS]: the ready count of a daemonset by name. A daemonset that does not
    exist reads as an empty one. *)
Definition getProfileDaemonSet (getDS : string → Z + error) (profile : Profile) (dsName : string) : Z + error :=
  match elements (getValidDaemonSetNames dsName ∅ [profile] true).1 with
  | [name] => match getDS name with
              | inr e => if IsNotFound e then inl 0%Z else inr e
              | inl ready => inl ready
              end
  | names => inr (Errorf ("unexpected number of valid daemonset names: " +:+ pretty (length names)))
  end.

(** The map and the profiles with a new status, or the error. *)
Fixpoint enforceProfiles (getDS : string → Z + error) (dsName : string) (ddaEDSMaxUnavailable : IntOrString)
    (nodeCount : Z) (now : Time) (profiles : list Profile) (byNode : gmap string NamespacedName)
    (csInfo : gmap NamespacedName CreateStrategyInfo) (writes : list Profile) :
    outcome (gmap string NamespacedName * list Profile) :=
  match profiles with
  | [] => Ret (byNode, writes)
  | profile :: profiles =>
      if negb (CreateStrategyNeeded profile csInfo)
      then enforceProfiles getDS dsName ddaEDSMaxUnavailable nodeCount now profiles byNode csInfo writes
      else
        match getProfileDaemonSet getDS profile dsName with
        | inr e => Fail (Wrapf "unable to get profile daemon set" e)
        | inl ready =>
            let s := prof_Status profile in
            let info := default emptyCSInfo (csInfo !! nsname profile) in
            match ApplyCreateStrategy byNode info (prs_CreateStrategy s)
                    (wrap32 (getMaxNodesToLabel (prof_Config profile) ddaEDSMaxUnavailable nodeCount)) (Some ready) now with
            | Ret (byNode, info, strategy) =>
                let s' := mkProfileStatus (prs_LastUpdate s) (prs_CurrentHash s) (prs_Conditions s) (prs_Valid s)
                            (prs_Applied s) (Some strategy) in
                enforceProfiles getDS dsName ddaEDSMaxUnavailable nodeCount now profiles byNode
                  (<[nsname profile := info]> csInfo)
                  (if IsEqualProfileStatus s s' then writes else writes ++ [set_prof_Status s' profile])
            | Fail e => Fail e
            | Panic => Panic
            end
        end
  end.

Definition enforceCreateStrategy (getDS : string → Z + error) (dsName : string) (ddaEDSMaxUnavailable : IntOrString)
    (nodeCount : Z) (now : Time) (appliedProfiles : list Profile) (byNode : gmap string NamespacedName)
    (csInfo : gmap NamespacedName CreateStrategyInfo) : outcome (gmap string NamespacedName * list Profile) :=
  if negb createStrategy then Ret (byNode, [])
  else enforceProfiles getDS dsName ddaEDSMaxUnavailable nodeCount now appliedProfiles byNode csInfo [].

(** *** The whole reconcile *)

Definition DefaultProfile (zeroConfig : Config) : Profile :=
  mkProfile "" defaultProfileName ∅ 0 None zeroConfig (mkProfileStatus None "" [] "" "" None).

(** [profiles], [nodes]: the results of the two lists.  The applied profiles,
    the default spec with the accepted overlays and the status writes. *)
Definition reconcileProfiles {W : Type} `{NodeLabelClient W} (zeroConfig : Config) (profiles : list Profile + error)
    (nodes : list ClusterNode + error) (getDDAI : Profile → DDAI + error) (getDS : string → Z + error)
    (dsName : string) (ddaEDSMaxUnavailable : IntOrString) (defaultSpec : DSpec) (now : Time) :
    GoM W (list Profile * DSpec * list Profile) :=
  match profiles with
  | inr e => fail (Wrapf "unable to list DatadogAgentProfiles" e)
  | inl profiles =>
  match nodes with
  | inr e => fail (Wrapf "unable to get node list" e)
  | inl nodeList =>
      let st := reconcileProfilesLoop nodeList defaultSpec (DefaultProfile zeroConfig) getDDAI now profiles in
      match enforceCreateStrategy getDS dsName ddaEDSMaxUnavailable (Z.of_nat (length nodeList)) now (ps_applied st)
              (ps_byNode st) (ps_csInfo st) with
      | Fail e => fail e
      | Panic => panic
      | Ret (byNode, writes) =>
          _ ← wrap "unable to label nodes with profiles" (labelNodesWithProfiles (map_to_list byNode));
          _ ← wrap "unable to cleanup pods for profiles that no longer apply"
                (cleanupPodsForProfilesThatNoLongerApply byNode);
          mret (ps_applied st, ps_spec st, ps_writes st ++ writes)
      end
  end end.
End Reconcile.
