(* ===== verification/ProfileTheorems.v ===== *)
(** * Properties of DatadogAgentProfiles.

    Node assignment is exclusive and given to the oldest profile; the create
    strategy bounds the pods a rollout makes unavailable; node labels converge. *)

From Stdlib Require Import ZArith Lia.
From stdpp Require Import base gmap strings list sorting.
From S2P Require Import Prelude Cluster Status Untaint Profiles.

(** ** Order *)

#[export] Instance profile_le_total {Config : Type} : Total (profile_le (Config := Config)).
Proof.
  intros a b. unfold profile_le.
  destruct (Z.lt_trichotomy (prof_CreationTimestamp a) (prof_CreationTimestamp b)) as [?|[Heq|?]]; [by auto| |by auto].
  destruct (total String.le (prof_Name a) (prof_Name b)); auto.
Qed.

#[export] Instance profile_le_trans {Config : Type} : Transitive (profile_le (Config := Config)).
Proof.
  intros a b c [Hab|[Hab Hn]] [Hbc|[Hbc Hn']]; unfold profile_le; [left; lia|left; lia|left; lia|].
  right. split; [congruence|]. by trans (prof_Name b).
Qed.

Lemma SortProfiles_spec {Config : Type} (l : list (DatadogAgentProfile Config)) :
  SortProfiles l ≡ₚ l ∧ StronglySorted profile_le (SortProfiles l).
Proof.
  unfold SortProfiles. case_bool_decide as Hlen.
  - split; [apply sort_by_Permutation|apply sort_by_sorted; apply _].
  - split; [done|]. destruct l as [|a [|b l]]; simpl in *; [constructor|repeat constructor|lia].
Qed.

(** ** Assignment of nodes *)

Section Assignment.
Context {Config DSpec Requirement : Type}.
Context (NewRequirement : string → string → list string → Requirement + error).
Context (Matches : Requirement → gmap string string → bool).
Context (ValidateSpec : option (list NodeSelectorRequirement) → Config → option error).
Context (Overlay : DSpec → DSpec → Config → DSpec + error).
Context (SpecHash : option (list NodeSelectorRequirement) → Config → string).
Context (createStrategy : bool).
Abbreviation Profile := (DatadogAgentProfile Config).
Implicit Types p q : Profile.

Abbreviation requirementsOf := (ValidateProfileAndReturnRequirements NewRequirement ValidateSpec).
Abbreviation step := (reconcileProfile NewRequirement Matches ValidateSpec Overlay SpecHash createStrategy).
Abbreviation loop := (reconcileProfilesLoop NewRequirement Matches ValidateSpec Overlay SpecHash createStrategy).

(** A valid profile whose affinity selects the node. *)
Definition claims p (node : ClusterNode) : bool :=
  match requirementsOf p with
  | inl reqs => profileMatchesNodeWithRequirements Matches reqs (cn_Labels node)
  | inr _ => false
  end.

(** Equal up to the status. *)
Definition same_manifest p q : Prop :=
  prof_Namespace p = prof_Namespace q ∧ prof_Name p = prof_Name q ∧
  prof_CreationTimestamp p = prof_CreationTimestamp q ∧ prof_Affinity p = prof_Affinity q ∧
  prof_Config p = prof_Config q.

#[local] Instance same_manifest_equiv : Equivalence same_manifest.
Proof. unfold same_manifest. split; red; naive_solver congruence. Qed.

Lemma same_manifest_condition p a b c d e : same_manifest (setProfileCondition p a b c d e) p.
Proof. done. Qed.

Lemma same_manifest_ddai d p now : same_manifest (addDDAIStatusToProfileStatus d p now) p.
Proof. unfold addDDAIStatusToProfileStatus. repeat case_match; done. Qed.

Lemma requirementsOf_same p q : same_manifest p q → requirementsOf p = requirementsOf q.
Proof.
  intros (_ & Hn & _ & Ha & Hc). unfold ValidateProfileAndReturnRequirements, validateProfile, parseProfileRequirements.
  by rewrite Hn, Ha, Hc.
Qed.

Lemma claims_same p q node : same_manifest p q → claims p node = claims q node.
Proof. intros Hs. unfold claims. by rewrite (requirementsOf_same p q). Qed.

Lemma nsname_same p q : same_manifest p q → nsname p = nsname q.
Proof. intros (Hns & Hn & _). unfold nsname. by rewrite Hns, Hn. Qed.

Lemma sync_same p orig now (st : ProfilesState (Config := Config) (DSpec := DSpec)) :
  same_manifest (syncProfileStatus SpecHash p orig now st).1 p ∧
  ∃ w, (syncProfileStatus SpecHash p orig now st).2
       = mkProfilesState (ps_byNode st) (ps_csInfo st) (ps_spec st) (ps_applied st) w.
Proof.
  unfold syncProfileStatus. split; [done|]. simpl. destruct (IsEqualProfileStatus _ _); [|eauto].
  exists (ps_writes st). by destruct st.
Qed.

Lemma conflicts_None name reqs nodes byNode :
  CheckProfileNodeConflicts Matches name reqs nodes byNode = None ↔
  ∀ node, node ∈ nodes → profileMatchesNodeWithRequirements Matches reqs (cn_Labels node) = true →
    byNode !! cn_Name node = Some (mkNSN "" "default").
Proof.
  induction nodes as [|node nodes IH]; simpl; [set_solver|].
  destruct (profileMatchesNodeWithRequirements Matches reqs (cn_Labels node)) eqn:Hm; simpl.
  - destruct (byNode !! cn_Name node) as [[ns n]|] eqn:Hb; simpl.
    + unfold IsDefaultProfile, defaultProfileName. repeat case_bool_decide; subst; simpl; rewrite ?IH.
      * split; [intros Hall x [->|Hx]%elem_of_cons; auto|]. intros Hall x Hx. apply Hall. by right.
      * split; [done|]. intros Hall. specialize (Hall node ltac:(by left) Hm). congruence.
      * split; [done|]. intros Hall. specialize (Hall node ltac:(by left) Hm). congruence.
      * split; [done|]. intros Hall. specialize (Hall node ltac:(by left) Hm). congruence.
    + split; [done|]. intros Hall. specialize (Hall node ltac:(by left) Hm). congruence.
  - rewrite IH. split; [intros Hall x [->|Hx]%elem_of_cons ?; [congruence|auto]|]. intros Hall x Hx. apply Hall. by right.
Qed.

Lemma conflicts_Some name reqs nodes byNode e :
  CheckProfileNodeConflicts Matches name reqs nodes byNode = Some e →
  ∃ node, node ∈ nodes ∧ profileMatchesNodeWithRequirements Matches reqs (cn_Labels node) = true ∧
    byNode !! cn_Name node ≠ Some (mkNSN "" "default").
Proof.
  induction nodes as [|node nodes IH]; simpl; [done|].
  destruct (profileMatchesNodeWithRequirements Matches reqs (cn_Labels node)) eqn:Hm; simpl.
  - destruct (IsDefaultProfile _ _) eqn:Hd; simpl.
    + intros He. destruct (IH He) as (n & Hn & ?). exists n. split; [by right|done].
    + intros _. exists node. split; [by left|]. split; [done|]. intros Hb. by rewrite Hb in Hd.
  - intros He. destruct (IH He) as (n & Hn & ?). exists n. split; [by right|done].
Qed.

(** Where the nodes end up after an assignment. *)
Lemma assign_lookup n reqs nodes byNode csInfo name :
  (AssignNodesToProfile Matches createStrategy n reqs nodes byNode csInfo).1 !! name =
  if existsb (λ node, bool_decide (cn_Name node = name)
                      && profileMatchesNodeWithRequirements Matches reqs (cn_Labels node)) nodes
  then Some n else byNode !! name.
Proof.
  unfold AssignNodesToProfile.
  generalize (if createStrategy && bool_decide (csInfo !! n = None) then <[n:=emptyCSInfo]> csInfo else csInfo).
  revert byNode.
  induction nodes as [|node nodes IH]; intros byNode cs0; simpl; [done|].
  destruct (profileMatchesNodeWithRequirements Matches reqs (cn_Labels node)) eqn:Hm; simpl.
  - rewrite andb_true_r. destruct (bool_decide (cn_Name node = name)) eqn:Hn; simpl.
    + apply bool_decide_eq_true in Hn. subst name. destruct createStrategy; rewrite IH, lookup_insert_eq; by destruct (existsb _ nodes).
    + apply bool_decide_eq_false in Hn. destruct createStrategy; rewrite IH, lookup_insert_ne by done; done.
  - by rewrite andb_false_r, IH.
Qed.

Lemma assign_lookup_node n reqs nodes byNode csInfo node :
  NoDup (cn_Name <$> nodes) → node ∈ nodes →
  (AssignNodesToProfile Matches createStrategy n reqs nodes byNode csInfo).1 !! cn_Name node =
  if profileMatchesNodeWithRequirements Matches reqs (cn_Labels node) then Some n else byNode !! cn_Name node.
Proof.
  intros Hnd Hin. rewrite assign_lookup. destruct (existsb _ nodes) eqn:He.
  - apply existsb_exists in He as (m & Hm & [Hname%bool_decide_eq_true Hmatch]%andb_true_iff).
    apply list_elem_of_In in Hm. assert (m = node) as ->; [|by rewrite Hmatch].
    apply list_elem_of_lookup in Hm as [i Hi], Hin as [j Hj].
    assert (i = j); [|by simplify_eq].
    eapply NoDup_lookup; [exact Hnd|by rewrite list_lookup_fmap, Hi|]. rewrite list_lookup_fmap, Hj. simpl. congruence.
  - destruct (profileMatchesNodeWithRequirements _ _ _) eqn:Hm; [|done]. exfalso.
    assert (existsb (λ m, bool_decide (cn_Name m = cn_Name node)
      && profileMatchesNodeWithRequirements Matches reqs (cn_Labels m)) nodes = true); [|congruence].
    apply existsb_exists. exists node. split; [by apply list_elem_of_In|]. rewrite bool_decide_true by done. done.
Qed.

(** The applied profiles that select a node. *)
Definition claimants (A : list Profile) (node : ClusterNode) : list Profile :=
  filter (λ p, claims p node = true) A.

(** [profilesByNode] after the user profiles [A] were applied: every node has at
    most one claimant, which is its profile, and the default profile otherwise. *)
Definition assigned (nodes : list ClusterNode) (A : list Profile) (byNode : gmap string NamespacedName) : Prop :=
  ∀ node, node ∈ nodes →
    claimants A node = [] ∧ byNode !! cn_Name node = Some (mkNSN "" "default") ∨
    ∃ p, claimants A node = [p] ∧ byNode !! cn_Name node = Some (nsname p).

(** Why a profile is not applied. *)
Definition rejected (nodes : list ClusterNode) (base : DSpec) (A : list Profile) p : Prop :=
  (∃ e, requirementsOf p = inr e) ∨
  (∃ q node, q ∈ A ∧ node ∈ nodes ∧ claims q node = true ∧ claims p node = true) ∨
  (∃ acc e, Overlay acc base (prof_Config p) = inr e).

Lemma claimants_snoc A p node :
  claimants (A ++ [p]) node = if claims p node then claimants A node ++ [p] else claimants A node.
Proof.
  unfold claimants. rewrite filter_app, filter_cons. destruct (claims p node); simpl.
  - done.
  - by rewrite app_nil_r.
Qed.

Lemma step_spec nodes base getDDAI now dflt st A p :
  NoDup (cn_Name <$> nodes) →
  (∀ q, q ∈ A → prof_Namespace q ≠ "") →
  ps_applied st = dflt :: A → assigned nodes A (ps_byNode st) →
  let st' := step nodes base getDDAI now st p in
  (∃ p', same_manifest p' p ∧ ps_applied st' = dflt :: A ++ [p'] ∧ assigned nodes (A ++ [p']) (ps_byNode st')) ∨
  (ps_applied st' = dflt :: A ∧ assigned nodes A (ps_byNode st') ∧ rejected nodes base A p).
Proof.
  intros Hnd Hns Happ Hass. cbv zeta. unfold reconcileProfile.
  set (p1 := addDDAIStatusToProfileStatus _ p now).
  assert (Hp1 : same_manifest p1 p) by apply same_manifest_ddai. clearbody p1.
  destruct (requirementsOf p1) as [reqs|e] eqn:Hreq.
  2:{ right. destruct (sync_same (setProfileCondition (setProfileCondition p1 "Valid" ConditionFalse now "Invalid"
        (error_Error e)) "Applied" "Unknown" now "Invalid" "Profile is invalid") (prof_Status p) now st) as [_ [w ->]].
      simpl. split_and!; [done..|]. left. exists e. by rewrite <-(requirementsOf_same p1 p). }
  assert (Hclaims : ∀ node, claims p node = profileMatchesNodeWithRequirements Matches reqs (cn_Labels node)).
  { intros node. rewrite <-(claims_same p1 p) by done. unfold claims. by rewrite Hreq. }
  set (p2 := setProfileCondition p1 "Valid" _ _ _ _).
  assert (Hp2 : same_manifest p2 p) by (etrans; [apply same_manifest_condition|done]). clearbody p2.
  destruct (CheckProfileNodeConflicts _ _ _ _ _) as [e|] eqn:Hcheck.
  { right. destruct (sync_same (setProfileCondition p2 "Applied" ConditionFalse now "Conflict"
      "Conflict with existing profile") (prof_Status p) now st) as [_ [w ->]].
    simpl. split_and!; [done..|]. right. left.
    apply conflicts_Some in Hcheck as (node & Hin & Hm & Hb).
    destruct (Hass node Hin) as [[_ ?]|(q & Hq & _)]; [done|].
    assert (Hqin : q ∈ claimants A node) by (rewrite Hq; set_solver).
    apply list_elem_of_filter in Hqin as [Hcq HqA]. exists q, node. by rewrite Hclaims. }
  assert (Hcfg : prof_Config p2 = prof_Config p) by apply Hp2. rewrite Hcfg.
  destruct (Overlay _ _ _) as [cand|e] eqn:Hov.
  2:{ right. destruct (sync_same (setProfileCondition p2 "Applied" ConditionFalse now "Conflict" (error_Error e))
        (prof_Status p) now st) as [_ [w ->]].
      simpl. split_and!; [done..|]. right. right. eauto. }
  left. destruct (AssignNodesToProfile _ _ _ _ _ _ _) as [byNode csInfo] eqn:Hasg.
  destruct (sync_same (setProfileCondition p2 "Applied" ConditionTrue now "Applied" "Profile applied") (prof_Status p) now
    (mkProfilesState byNode csInfo cand (ps_applied st) (ps_writes st))) as [Hs [w Hw]].
  destruct (syncProfileStatus _ _ _ _ _) as [p3 st3]. cbn [fst snd] in Hs, Hw. subst st3. simpl.
  assert (Hp3 : same_manifest p3 p) by (trans p2; [exact Hs|exact Hp2]).
  exists p3. split; [done|]. split; [by rewrite Happ|]. intros node Hin.
  assert (Hlk : byNode !! cn_Name node = if claims p node then Some (nsname p3) else ps_byNode st !! cn_Name node).
  { rewrite Hclaims, (nsname_same p3 p), <-(nsname_same p2 p) by done.
    rewrite <-(assign_lookup_node (nsname p2) reqs nodes (ps_byNode st) (ps_csInfo st) node)
      by done. by rewrite Hasg. }
  rewrite claimants_snoc, Hlk, (claims_same p3 p) by done. destruct (claims p node) eqn:Hcp; [|by apply Hass].
  right. exists p3. split; [|done]. destruct (Hass node Hin) as [[-> _]|(q & Hq & Hbq)]; [done|]. exfalso.
  rewrite conflicts_None in Hcheck. rewrite (Hcheck node Hin) in Hbq by (by rewrite <-Hclaims).
  assert (Hqin : q ∈ claimants A node) by (rewrite Hq; set_solver).
  apply list_elem_of_filter in Hqin as [_ HqA]. apply (Hns q HqA). unfold nsname in Hbq. congruence.
Qed.

(** The loop over a sorted list, with what was applied before it. *)
Lemma loop_spec nodes base getDDAI now dflt l st A :
  NoDup (cn_Name <$> nodes) →
  (∀ q, q ∈ A ++ l → prof_Namespace q ≠ "") →
  StronglySorted profile_le l → (∀ q p, q ∈ A → p ∈ l → profile_le q p) →
  ps_applied st = dflt :: A → assigned nodes A (ps_byNode st) →
  let st' := foldl (step nodes base getDDAI now) st l in
  ∃ B, ps_applied st' = dflt :: A ++ B ∧ assigned nodes (A ++ B) (ps_byNode st') ∧
    (∀ p', p' ∈ B → ∃ p, p ∈ l ∧ same_manifest p' p) ∧
    ∀ p, p ∈ l → (∃ p', p' ∈ B ∧ same_manifest p' p) ∨
                 ∃ A', (∀ q, q ∈ A' → q ∈ A ++ B ∧ profile_le q p) ∧ rejected nodes base A' p.
Proof.
  intros Hnd. revert st A. induction l as [|p l IH]; intros st A Hns Hsort Hbefore Happ Hass; cbn [foldl].
  { exists []. rewrite app_nil_r. split_and!; [done..|set_solver|set_solver]. }
  apply StronglySorted_cons in Hsort as [Hp Hsort]. rewrite Forall_forall in Hp.
  assert (HnsA : ∀ q, q ∈ A → prof_Namespace q ≠ "") by (intros q Hq; apply Hns; set_solver).
  destruct (step_spec nodes base getDDAI now dflt st A p Hnd HnsA Happ Hass)
    as [(p' & Hsame & Happ' & Hass')|(Happ' & Hass' & Hrej)].
  - destruct (IH (step nodes base getDDAI now st p) (A ++ [p'])) as (B & HB & HassB & Hback & Hall).
    + intros q Hq. rewrite elem_of_app in Hq. destruct Hq as [[Hq|Hq]%elem_of_app|Hq].
      * by apply HnsA.
      * apply list_elem_of_singleton in Hq. subst q. destruct Hsame as [-> _]. apply Hns. set_solver.
      * apply Hns. set_solver.
    + done.
    + intros q r [Hq|Hq]%elem_of_app Hr; [apply Hbefore; set_solver|].
      apply list_elem_of_singleton in Hq. subst q. specialize (Hp r Hr). unfold profile_le in *.
      destruct Hsame as (_ & -> & -> & _). done.
    + done.
    + done.
    + exists (p' :: B). rewrite <-app_assoc in HB, HassB. split_and!; [done..| |].
      * intros q [->|Hq]%elem_of_cons; [exists p; set_solver|]. destruct (Hback q Hq) as (r & ? & ?). exists r. set_solver.
      * intros r [->|Hr]%elem_of_cons; [left; exists p'; set_solver|].
        destruct (Hall r Hr) as [(q & Hq & ?)|(A' & HA' & ?)]; [left; exists q; set_solver|right].
        exists A'. split; [|done]. intros q Hq. destruct (HA' q Hq). set_solver.
  - destruct (IH (step nodes base getDDAI now st p) A) as (B & HB & HassB & Hback & Hall).
    + intros q Hq. apply Hns. set_solver.
    + done.
    + intros q r Hq Hr. apply Hbefore; set_solver.
    + done.
    + done.
    + exists B. split_and!; [done..| |].
      * intros q Hq. destruct (Hback q Hq) as (r & ? & ?). exists r. set_solver.
      * intros r [->|Hr]%elem_of_cons; [|by apply Hall]. right. exists A. split; [|done].
        intros q Hq. split; [set_solver|]. apply Hbefore; [done|by left].
Qed.

Lemma initial_lookup nodes node :
  node ∈ nodes → initialProfilesByNode nodes !! cn_Name node = Some (mkNSN "" "default").
Proof.
  unfold initialProfilesByNode. generalize (∅ : gmap string NamespacedName).
  assert (Hkeep : ∀ l (m : gmap string NamespacedName) k, m !! k = Some (mkNSN "" "default") →
    foldl (λ m node, <[cn_Name node := mkNSN "" "default"]> m) m l !! k = Some (mkNSN "" "default")).
  { induction l as [|x l IH]; intros m k Hk; simpl; [done|]. apply IH.
    destruct (decide (cn_Name x = k)) as [<-|]; [by rewrite lookup_insert_eq|by rewrite lookup_insert_ne]. }
  induction nodes as [|x nodes IH]; intros m; [set_solver|]. intros [->|Hin]%elem_of_cons; simpl; [|by apply IH].
  apply Hkeep. by rewrite lookup_insert_eq.
Qed.

(** C26: profiles partition the nodes and the oldest wins.  After the loop over
    the profiles of a cluster, every node is claimed by at most one applied
    profile, which is the one recorded for it, and has the default profile
    otherwise; every applied profile is one of the cluster's; and a profile that
    is not applied is invalid, or loses a node to an applied profile that is
    older (or as old and before it by name), or had its shared configuration
    refused. *)
Theorem profiles_exclusive_oldest_first nodes base dflt getDDAI now profiles :
  NoDup (cn_Name <$> nodes) →
  (∀ p, p ∈ profiles → prof_Namespace p ≠ "") →
  let st := loop nodes base dflt getDDAI now profiles in
  ∃ A, ps_applied st = dflt :: A ∧ assigned nodes A (ps_byNode st) ∧
    (∀ p', p' ∈ A → ∃ p, p ∈ profiles ∧ same_manifest p' p) ∧
    ∀ p, p ∈ profiles → (∃ p', p' ∈ A ∧ same_manifest p' p) ∨
      ∃ A', (∀ q, q ∈ A' → q ∈ A ∧ profile_le q p) ∧ rejected nodes base A' p.
Proof.
  intros Hnd Hns. cbv zeta. unfold reconcileProfilesLoop.
  destruct (SortProfiles_spec profiles) as [Hperm Hsort].
  destruct (loop_spec nodes base getDDAI now dflt (SortProfiles profiles)
    (mkProfilesState (initialProfilesByNode nodes) ∅ base [dflt] []) []) as (A & HA & Hass & Hback & Hall).
  - done.
  - intros q Hq. simpl in Hq. apply Hns. by rewrite <-Hperm.
  - done.
  - set_solver.
  - done.
  - intros node Hin. left. split; [done|]. by apply initial_lookup.
  - exists A. setoid_rewrite Hperm in Hback. setoid_rewrite Hperm in Hall. done.
Qed.
End Assignment.

(** ** Create strategy *)

Lemma prune_lookup (m : gmap string NamespacedName) names k :
  foldl (λ m n, delete n m) m names !! k = if decide (k ∈ names) then None else m !! k.
Proof.
  revert m; induction names as [|n names IH]; intros m; cbn [foldl].
  { rewrite decide_False; [done|set_solver]. }
  rewrite IH. destruct (decide (k ∈ names)) as [Hin|Hin]; [by rewrite decide_True by set_solver|].
  destruct (decide (k = n)) as [->|Hne].
  - rewrite lookup_delete_eq, decide_True; [done|set_solver].
  - rewrite lookup_delete_ne by done. rewrite decide_False; [done|set_solver].
Qed.

(** C27: the create strategy labels as many nodes as fit.  Within 32-bit counts
    it does not panic.  It lets through the first [k] nodes needing a label in
    name order and takes every other one out of the map, where [k] is the room
    under the limit, none if the limit is reached, or all of them if they fit; so
    that with them the number of unavailable pods does not exceed the limit, or
    grow if it was already above; and it counts them as labelled. *)
Theorem create_strategy_bounds_rollout byNode info strategy maxUnavailable ready now :
  let current := (nodesAlreadyLabeled info - ready)%Z in
  let n := Z.of_nat (length (nodesNeedingLabel info)) in
  let k := Z.to_nat (Z.min n (Z.max 0 (maxUnavailable - current))) in
  int32_range current → int32_range maxUnavailable → int32_range (maxUnavailable - current) → (n < 2^31)%Z →
  int32_range (nodesAlreadyLabeled info + n) →
  (0 ≤ nodesAlreadyLabeled info)%Z →
  ∃ byNode' info' cs,
    ApplyCreateStrategy byNode info strategy maxUnavailable (Some ready) now = Ret (byNode', info', cs) ∧
    cs_NodesLabeled cs = (nodesAlreadyLabeled info + Z.of_nat k)%Z ∧
    (∀ node, byNode' !! node = if decide (node ∈ drop k (sort_by String.le (nodesNeedingLabel info)))
                               then None else byNode !! node) ∧
    (current + Z.of_nat k ≤ Z.max current maxUnavailable)%Z ∧
    (Z.of_nat k = n ∨ maxUnavailable ≤ current + Z.of_nat k)%Z.
Proof.
  intros current n k Hcur Hmax Hdiff Hn Htot Hlab. unfold ApplyCreateStrategy, applyMaxNodesToLabel.
  rewrite !length_sort_by. fold n. fold current. rewrite (wrap32_id current) by done.
  assert (Hwn : wrap32 n = n) by (apply wrap32_id; unfold int32_range, n in *; lia).
  case_bool_decide as Hcap.
  - assert (k = 0%nat) as -> by (unfold k, n; lia). do 3 eexists. split; [done|].
    unfold updateCreateStrategyStatus. cbn [cs_NodesLabeled nodesAlreadyLabeled]. rewrite drop_0. split_and!.
    + change (Z.of_nat 0) with 0%Z. rewrite Z.add_0_r. apply wrap32_id. unfold int32_range, n in *. lia.
    + intros node. apply prune_lookup.
    + lia.
    + lia.
  - rewrite Hwn, (wrap32_id (maxUnavailable - current)) by done.
    assert (Hk : Z.min (maxUnavailable - current) n = Z.of_nat k) by (unfold k, n; lia). rewrite Hk.
    rewrite bool_decide_false by lia. do 3 eexists. split; [done|]. unfold updateCreateStrategyStatus.
    cbn [cs_NodesLabeled nodesAlreadyLabeled]. rewrite Nat2Z.id. split_and!.
    + apply wrap32_id. unfold int32_range, n in *. lia.
    + intros node. apply prune_lookup.
    + lia.
    + lia.
Qed.

(** ** Node labels *)

(** The label a node of the profile should carry. *)
Definition wantedLabel (profile : NamespacedName) : option string :=
  if IsDefaultProfile (nsn_Namespace profile) (nsn_Name profile) then None else Some (nsn_Name profile).

(** The labels of a node once its profile is applied. *)
Definition targetLabels (profile : NamespacedName) (labels : gmap string string) : gmap string string :=
  let labels := delete OldProfileLabelKey labels in
  match wantedLabel profile with
  | None => delete ProfileLabelKey labels
  | Some n => <[ProfileLabelKey := n]> labels
  end.

Lemma targetLabels_lookup profile labels :
  targetLabels profile labels !! ProfileLabelKey = wantedLabel profile ∧
  targetLabels profile labels !! OldProfileLabelKey = None ∧
  ∀ k, k ≠ ProfileLabelKey → k ≠ OldProfileLabelKey → targetLabels profile labels !! k = labels !! k.
Proof.
  assert (HPO : ProfileLabelKey ≠ OldProfileLabelKey) by done.
  unfold targetLabels. destruct (wantedLabel profile); split_and!; intros; by simplify_map_eq.
Qed.

Lemma delete_absent (m : gmap string string) k : m !! k = None → delete k m = m.
Proof. intros Hk. by apply delete_id. Qed.

Lemma profileLabels_target profile labels :
  nsn_Name profile ≠ "" → targetLabels profile labels ≠ ∅ →
  default labels (profileLabels profile labels) = targetLabels profile labels.
Proof.
  intros Hname Hne. unfold profileLabels, targetLabels, wantedLabel, get_key in *.
  rewrite (bool_decide_false (nsn_Name profile = "")), orb_false_r by done.
  destruct (IsDefaultProfile _ _); simpl in *.
  - rewrite orb_false_r.
    destruct (labels !! ProfileLabelKey) as [pl|] eqn:EP, (labels !! OldProfileLabelKey) as [ol|] eqn:EO; simpl.
    + rewrite delete_delete, (bool_decide_false _ Hne). done.
    + rewrite (delete_absent labels OldProfileLabelKey) in * by done. by rewrite (bool_decide_false _ Hne).
    + rewrite (delete_absent _ ProfileLabelKey) in * by (by rewrite lookup_delete_ne).
      by rewrite (bool_decide_false _ Hne).
    + by rewrite !delete_absent by (rewrite ?lookup_delete_ne; done).
  - destruct (bool_decide (default "" (labels !! ProfileLabelKey) = nsn_Name profile)) eqn:Ed; simpl.
    + apply bool_decide_eq_true in Ed. destruct (labels !! ProfileLabelKey) as [pl|] eqn:EP; [|by subst]. simpl in Ed.
      subst pl. assert (Hid : <[ProfileLabelKey:=nsn_Name profile]> (delete OldProfileLabelKey labels)
        = delete OldProfileLabelKey labels) by (apply insert_id; by rewrite lookup_delete_ne).
      rewrite Hid in *. destruct (labels !! OldProfileLabelKey) as [ol|] eqn:EO; simpl.
      * by rewrite (bool_decide_false _ Hne).
      * by rewrite delete_absent.
    + rewrite orb_true_r. destruct (labels !! OldProfileLabelKey) as [ol|] eqn:EO; simpl.
      * by rewrite (bool_decide_false _ Hne).
      * rewrite (delete_absent labels) in * by done. by rewrite (bool_decide_false _ Hne).
Qed.

Lemma profileLabels_settled profile labels :
  nsn_Name profile ≠ "" → labels !! ProfileLabelKey = wantedLabel profile → labels !! OldProfileLabelKey = None →
  profileLabels profile labels = None.
Proof.
  intros Hname HP HO. unfold profileLabels, get_key. rewrite HP, HO. unfold wantedLabel.
  rewrite (bool_decide_false (nsn_Name profile = "")), orb_false_r by done.
  destruct (IsDefaultProfile _ _); simpl; [done|]. by rewrite (bool_decide_true (nsn_Name profile = _)).
Qed.

(** Labelling a node of a (valid) profile converges in one patch: unless
    its only labels are profile labels to be removed, the node then has exactly
    the label of its profile, no deprecated label and its other labels, and the
    next reconcile does not patch it again. *)
Theorem node_labels_converge profile labels :
  nsn_Name profile ≠ "" →
  targetLabels profile labels ≠ ∅ →
  let labels' := default labels (profileLabels profile labels) in
  labels' !! ProfileLabelKey = wantedLabel profile ∧
  labels' !! OldProfileLabelKey = None ∧
  (∀ k, k ≠ ProfileLabelKey → k ≠ OldProfileLabelKey → labels' !! k = labels !! k) ∧
  profileLabels profile labels' = None.
Proof.
  intros Hname Hne. cbv zeta. rewrite profileLabels_target by done.
  destruct (targetLabels_lookup profile labels) as (HP & HO & Hk).
  split_and!; [done..|]. by apply profileLabels_settled.
Qed.

(** A node with nothing but the label of a profile it lost keeps it: the empty
    map of labels left is taken for nothing to change. *)
Lemma only_profile_label_is_kept n :
  profileLabels (mkNSN "" "default") {[ProfileLabelKey := n]} = None.
Proof. unfold profileLabels. by rewrite lookup_singleton_eq, lookup_singleton_ne. Qed.

(** ** Names *)

(** Profiles of the same name in different namespaces share their
    DatadogAgentInternal, their DaemonSet and the label of their nodes. *)
Lemma same_name_profiles_collide ddai ns1 ns2 n :
  ns1 ≠ "" → ns2 ≠ "" →
  getProfileDDAIName ddai n ns1 = getProfileDDAIName ddai n ns2 ∧
  DaemonSetName (mkNSN ns1 n) true = DaemonSetName (mkNSN ns2 n) true ∧
  wantedLabel (mkNSN ns1 n) = wantedLabel (mkNSN ns2 n).
Proof.
  intros H1 H2. unfold getProfileDDAIName, DaemonSetName, wantedLabel, IsDefaultProfile. simpl.
  by rewrite (bool_decide_false (ns1 = "")), (bool_decide_false (ns2 = "")).
Qed.

(** With introspection enabled the create strategy finds no daemonset name for
    any profile, and fails. *)
Lemma introspection_disables_create_strategy {Config : Type} profiles eds withProvider useDefault getDS
    (p : DatadogAgentProfile Config) dsName :
  ∃ e, getProfileDaemonSet true profiles eds withProvider useDefault getDS p dsName = inr e.
Proof.
  unfold getProfileDaemonSet, getValidDaemonSetNames, useDefaultDaemonset.
  rewrite size_empty, bool_decide_true by done. simpl.
  assert (Hmap : ∀ n, set_map (withProvider n) (∅ : gset string) = (∅ : gset string)) by (intros; set_solver).
  rewrite !Hmap. destruct profiles, eds, (IsDefaultProfile (prof_Namespace p) (prof_Name p)); simpl; rewrite ?(left_id_L ∅ (∪)), elements_empty; eauto.
Qed.
