(* ===== verification/Witnesses.v ===== *)
(** * Witnesses: the properties on concrete objects.

    Each property with hypotheses is applied to concrete objects on which they
    hold: the in-memory API servers of [Cluster.v] and [UntaintTheorems.v], the
    codec and sample objects of [Testbed.v]. *)

From Stdlib Require Import ZArith Lia Ascii.
From stdpp Require Import base gmap strings list relations sorting.
From S2P Require Import Prelude Cluster Revision Experiment RevisionFacts Testbed ExperimentProofs.
From S2P Require Import ExperimentTheorems RollbackTheorems RevisionTheorems.
From S2P Require Import Untaint UntaintTheorems Status StatusTheorems Profiles ProfileTheorems.

(** A running experiment on the candidate revision, started at time 0. *)
Definition w_running : DatadogAgent string := test_dda "candidate" ∅ (Some (test_running 0)).
Definition w_rollback : DatadogAgent string :=
  test_dda "candidate" (test_signal ExperimentSignalRollback "exp-1") (Some (test_running 0)).
Definition w_manual : DatadogAgent string :=
  test_dda "edited by hand" (test_signal ExperimentSignalPromote "exp-1") (Some (test_running 0)).

Lemma manageExperiment_refines_exp_step_witness :
  (manageExperiment 0 w_rollback 5 (test_state w_rollback)).2 ≠ Panic ∧
  exp_step (dda_Experiment w_rollback) (st_newExp (manageExperiment 0 w_rollback 5 (test_state w_rollback)).1).
Proof. apply (manageExperiment_refines_exp_step 0 (test_state w_rollback) w_rollback 5). reflexivity. Defined.

(** One start of an experiment, from no experiment. *)
Definition w_start : DatadogAgent string := test_dda "candidate" (test_signal ExperimentSignalStart "exp-1") None.

Lemma experiment_status_invariant_witness :
  status_wf (st_newExp (manageExperiment 0 w_start 5 (test_state w_start)).1).
Proof.
  apply (experiment_status_invariant (W := Cluster string) (Spec := string) 0).
  eapply rtc_l; [|apply rtc_refl].
  apply (reconciled_written 0 (test_state w_start) w_start 5). reflexivity.
Defined.

Lemma experiment_identity_kept_witness :
  ∃ e', st_newExp (manageExperiment 0 w_rollback 5 (test_state w_rollback)).1 = Some e' ∧
    (exp_Phase (test_running 0) = ExperimentPhaseRunning →
       exp_ID e' = "exp-1" ∧ exp_StartedAt e' = Some 0%Z ∧ exp_StartTaskID e' = "task-1" ∧
       (e' = test_running 0 ∨ isTerminalPhase (exp_Phase e') = true)) ∧
    (isTerminalPhase (exp_Phase (test_running 0)) = true →
       e' = test_running 0 ∨ exp_Phase e' = ExperimentPhaseRunning ∧ exp_ID e' ≠ "exp-1").
Proof. apply (experiment_identity_kept 0 (test_state w_rollback) w_rollback 5 (test_running 0)); reflexivity. Defined.

(** Twenty minutes after the start, past the default timeout. *)
Lemma running_experiment_times_out_witness :
  let r := manageExperiment 0 w_running (20 * Minute) (test_state w_running) in
  st_newExp r.1 = match r.2 with
                  | Ret _ => Some (terminated ExperimentTerminationReasonTimedOut (test_running 0))
                  | _ => Some (test_running 0)
                  end.
Proof.
  apply (running_experiment_times_out 0 (test_state w_running) w_running (20 * Minute) (test_running 0) 0 (1, candidateRev));
    [reflexivity..|left; reflexivity|vm_compute; reflexivity|split; [reflexivity|discriminate]|discriminate].
Defined.

Lemma running_experiment_before_timeout_witness :
  let r := manageExperiment 0 w_running Minute (test_state w_running) in
  r.2 = Ret tt ∧
  cl_ddas (view (st_world r.1)) = cl_ddas (view (st_world (test_state w_running))) ∧
  st_newExp r.1 = Some (if specManuallyChanged (st_revs (test_state w_running)) w_running
                        then set_Phase ExperimentPhaseAborted (test_running 0) else test_running 0).
Proof.
  apply (running_experiment_before_timeout 0 (test_state w_running) w_running Minute (test_running 0));
    [reflexivity..|left; reflexivity|]. intros t0 Ht0. injection Ht0 as <-. reflexivity.
Defined.

Lemma manual_change_aborts_witness :
  let r := manageExperiment 0 w_manual (20 * Minute) (test_state w_manual) in
  r.2 = Ret tt ∧ st_newExp r.1 = Some (set_Phase ExperimentPhaseAborted (test_running 0)) ∧
  cl_ddas (view (st_world r.1)) = cl_ddas (view (st_world (test_state w_manual))).
Proof.
  apply (manual_change_aborts 0 (test_state w_manual) w_manual (20 * Minute) (test_running 0)); reflexivity.
Defined.

Lemma transition_event_iff_phase_change_witness :
  let new := st_newExp (manageExperiment 0 w_start 5 (test_state w_start)).1 in
  match emitExperimentTransitionEvent true (dda_Experiment w_start) new with
  | Some ev => phase_of new ≠ phase_of (dda_Experiment w_start) ∧ ev.2 = id_of new
  | None => phase_of new = phase_of (dda_Experiment w_start)
  end.
Proof. apply (transition_event_iff_phase_change 0 (test_state w_start) w_start 5). reflexivity. Defined.

(** ** Rollback *)

Lemma w_keyed d : keyed (test_cluster d).
Proof.
  intros k d' Hk. unfold test_cluster in Hk. cbn [cl_ddas] in Hk.
  apply lookup_singleton_Some in Hk as [Hk <-]. exact Hk.
Qed.

Definition w_rolled : ReconcileState (Cluster string) := (rollback w_running "dda-1" (test_state w_running)).1.

Lemma rollback_restores_snapshot_witness :
  ∃ d', cl_ddas (view (st_world w_rolled)) !! dda_key w_running = Some d' ∧
    buildRevisionSnapshot (dda_Spec d') (dda_Annotations d') = inl (cr_Raw baseline) ∧
    (∀ k, isSnapshotAnnotation k = false → dda_Annotations d' !! k = dda_Annotations w_running !! k) ∧
    dda_Experiment d' = dda_Experiment w_running ∧
    st_instRV w_rolled = dda_ResourceVersion d' ∧
    cl_revs (view (st_world w_rolled)) = cl_revs (view (st_world (test_state w_running))) ∧
    (∀ k, k ≠ dda_key w_running →
       cl_ddas (view (st_world w_rolled)) !! k = cl_ddas (view (st_world (test_state w_running))) !! k).
Proof.
  apply (rollback_restores_snapshot w_running "dda-1" (test_state w_running) w_rolled baseline "baseline" ∅ w_running);
    [apply w_keyed|discriminate|vm_compute; reflexivity..| |vm_compute; reflexivity].
  intros k Hk. vm_compute in Hk. done.
Defined.

Definition w_baseline : DatadogAgent string := test_dda "baseline" ∅ (Some (test_running 0)).

Lemma rollback_idempotent_witness :
  view (st_world (rollback w_baseline "dda-1" (test_state w_baseline)).1) = view (st_world (test_state w_baseline)).
Proof.
  apply (rollback_idempotent w_baseline "dda-1" (test_state w_baseline) _ baseline w_baseline);
    [apply w_keyed|vm_compute; reflexivity..].
Defined.

Definition w_preview : string := "agent.datadoghq.com/preview".
Definition w_extra : DatadogAgent string := test_dda "candidate" {[w_preview := "on"]} (Some (test_running 0)).

Lemma rollback_keeps_extra_annotation_witness :
  ∃ d', cl_ddas (view (st_world (rollback w_extra "dda-1" (test_state w_extra)).1)) !! dda_key w_extra = Some d' ∧
    dda_Annotations d' !! w_preview = dda_Annotations w_extra !! w_preview ∧
    buildRevisionSnapshot (dda_Spec d') (dda_Annotations d') ≠ inl (cr_Raw baseline).
Proof.
  apply (rollback_keeps_extra_annotation w_extra "dda-1" (test_state w_extra) _ baseline "baseline" ∅ w_extra w_preview);
    [apply w_keyed|discriminate|..]; vm_compute; (reflexivity || discriminate).
Defined.

Lemma annotation_path_roundtrip_witness :
  path_annotation (annotationToJSONPatchPath AnnotationExperimentSignal) = Some AnnotationExperimentSignal.
Proof. apply (annotation_path_roundtrip AnnotationExperimentSignal). reflexivity. Defined.

(** ** Revision history *)

Definition w_state : ReconcileState (Cluster string) := test_state w_running.

Lemma w_two x : x ∈ st_revs w_state → x = baseline ∨ x = candidateRev.
Proof. unfold w_state, test_state. cbn [st_revs]. rewrite !elem_of_cons, elem_of_nil. tauto. Qed.

Lemma w_consistent : consistent "ns" w_state.
Proof.
  split; [|split; [split|]].
  - apply (bool_decide_unpack (NoDup (cr_key <$> [baseline; candidateRev]))). vm_compute. exact I.
  - apply (bool_decide_unpack (NoDup (cr_Revision <$> [baseline; candidateRev]))). vm_compute. exact I.
  - intros x [->| ->]%w_two; discriminate.
  - intros x [->| ->]%w_two; (split; [reflexivity|]); vm_compute; reflexivity.
Qed.

Lemma w_highest : highest candidateRev (st_revs w_state).
Proof.
  split; [unfold w_state, test_state; cbn [st_revs]; rewrite !elem_of_cons; auto|]. split; [discriminate|].
  intros x [->| ->]%w_two; [right; reflexivity|left; reflexivity].
Qed.

Abbreviation w_fresh := (freshRevision id (λ _, None) test_gvk w_running (snap_bytes "new") (st_revs w_state)).

(** Of three revisions, with the third one current, the first one is collected. *)
Definition w_third : ControllerRevision := set_cr_Revision 3 (set_cr_Name "dda-3" candidateRev).
Definition w_three : ReconcileState (Cluster string) :=
  let c := test_cluster w_running in
  mkRState (set_revs (<[cr_key w_third := w_third]>) c) (st_revs w_state ++ [w_third])
    (st_newExp w_state) (st_instRV w_state).

Lemma w_three_in x : x ∈ st_revs w_three → x = baseline ∨ x = candidateRev ∨ x = w_third.
Proof. unfold w_three. cbn [st_revs]. rewrite elem_of_app, list_elem_of_singleton. intros [?%w_two|?]; tauto. Qed.

Lemma w_three_consistent : consistent "ns" w_three.
Proof.
  split; [|split; [split|]].
  - apply (bool_decide_unpack (NoDup (cr_key <$> [baseline; candidateRev; w_third]))). vm_compute. exact I.
  - apply (bool_decide_unpack (NoDup (cr_Revision <$> [baseline; candidateRev; w_third]))). vm_compute. exact I.
  - intros x [->|[->| ->]]%w_three_in; discriminate.
  - intros x [->|[->| ->]]%w_three_in; (split; [reflexivity|]); vm_compute; reflexivity.
Qed.

Lemma gc_deletes_only_superseded_witness :
  let r := gcOldRevisions "dda-3" w_three in
  cl_revs (view (st_world r.1)) !! cr_key baseline = None ∧
  cl_ddas (view (st_world r.1)) = cl_ddas (view (st_world w_three)) ∧
  (∀ k, cl_revs (view (st_world r.1)) !! k = cl_revs (view (st_world w_three)) !! k ∨
        cl_revs (view (st_world r.1)) !! k = None ∧
        ∃ x, x ∈ st_revs w_three ∧ cr_key x = k ∧ doomed "dda-3" (st_revs w_three) x) ∧
  (∀ (_ : ReliableClient (Cluster string) string), r.2 = Ret tt ∧
     ∀ x, x ∈ st_revs w_three → doomed "dda-3" (st_revs w_three) x → cl_revs (view (st_world r.1)) !! cr_key x = None).
Proof.
  split; [vm_compute; reflexivity|]. apply (gc_deletes_only_superseded "ns" "dda-3" w_three w_three_consistent).
Defined.


(** The user goes back to the baseline spec, with the candidate above it. *)
Definition w_reverted : DatadogAgent string := test_dda "baseline" ∅ None.
Definition w_reverted_state : ReconcileState (Cluster string) := test_state w_reverted.

Lemma reverted_spec_is_bumped_witness :
  ∃ s', manageRevision id (λ _, None) (inl [test_gvk]) w_reverted "baseline" w_reverted_state = (s', Ret tt) ∧
        leaves_two (set_cr_Revision 3 baseline) candidateRev w_reverted_state s' ∧
        ∀ l, NoDup l → (∀ x, x ∈ l ↔ x = set_cr_Revision 3 baseline ∨ x = candidateRev) → findRollbackTarget l = "dda-2".
Proof.
  apply (reverted_spec_is_bumped id (λ _, None) test_gvk [] w_reverted "baseline" (snap_bytes "baseline")
           w_reverted_state candidateRev 0 baseline).
  - exact w_consistent.
  - exact w_highest.
  - vm_compute. reflexivity.
  - vm_compute. reflexivity.
  - vm_compute. discriminate.
  - vm_compute. discriminate.
  - reflexivity.
Defined.

(** ** Untaint controller *)

Definition w_csi : Taint := mkTaint "other" "x" "NoSchedule" None.
Definition w_node : Node := mkNode "node-1" (1000 * Second)%Z [AgentNotReadyTaint; w_csi].
Definition w_pod (ready : string) : Pod :=
  mkPod {[AgentDeploymentComponentLabelKey := DefaultAgentResourceSuffix]} "node-1"
    [mkPodCondition "Ready" ready (1100 * Second)] (Some (1050 * Second)%Z).
Definition w_world (pods : list Pod) : UntaintState NodeWorld :=
  mkUState (mkNodeWorld {["node-1" := w_node]} pods) [].
Definition w_untaint : UntaintReconciler :=
  mkUntaintReconciler false true DefaultReadinessTimeout DefaultSchedulingTimeout PolicyRemove.

Lemma w_configured : configured w_untaint.
Proof. split; split; vm_compute; (reflexivity || discriminate). Qed.

Lemma w_lookup pods : nw_nodes (nview (us_world (w_world pods))) !! n_Name w_node = Some w_node.
Proof. vm_compute. reflexivity. Qed.

Lemma untaint_when_due_witness :
  ∃ s', Reconcile w_untaint (1200 * Second) "node-1" (w_world [w_pod "True"]) = (s', Ret 0%Z) ∧
        nview (us_world s') = set_node (untainted w_node) (nview (us_world (w_world [w_pod "True"]))) ∧
        hasTaint (untainted w_node) = false ∧
        ∀ t, t ∈ n_Taints (untainted w_node) ↔ t ∈ n_Taints w_node ∧ IsAgentNotReadyTaint t = false.
Proof.
  apply (untaint_when_due w_untaint (1200 * Second) w_node (w_world [w_pod "True"])).
  - reflexivity.
  - apply w_lookup.
  - left. split; [|discriminate]. exists (w_pod "True"). split; [|reflexivity].
    apply list_elem_of_filter. split; [|left]. split; reflexivity.
Defined.

Lemma w_agents pod : pod ∈ agentsOn "node-1" (nview (us_world (w_world [w_pod "False"]))) → pod = w_pod "False".
Proof. intros [_ Hp]%list_elem_of_filter. by apply list_elem_of_singleton in Hp. Qed.

Lemma untaint_retries_at_expiry_witness :
  let w := nview (us_world (w_world [w_pod "False"])) in
  ∃ s' d, Reconcile w_untaint (1200 * Second) "node-1" (w_world [w_pod "False"]) = (s', Ret d) ∧
    nview (us_world s') = w ∧
    (clockRunning w_untaint (1200 * Second) w_node (agentsOn "node-1" w) (csisOn "node-1" w) →
       (0 < d)%Z ∧ timeoutExpired w_untaint (1200 * Second + d) w_node (agentsOn "node-1" w) (csisOn "node-1" w)) ∧
    (¬ unscheduled w_untaint (agentsOn "node-1" w) (csisOn "node-1" w) →
     ¬ allStarted w_untaint (agentsOn "node-1" w) (csisOn "node-1" w) → d = readinessTimeout w_untaint).
Proof.
  apply (untaint_retries_at_expiry w_untaint (1200 * Second) w_node (w_world [w_pod "False"])).
  - exact w_configured.
  - reflexivity.
  - apply w_lookup.
  - intros [(p & Hp & Hr) _]. apply w_agents in Hp. subst p. discriminate.
  - intros [[[Hu|[Hu _]] _]|(_ & _ & He)].
    + vm_compute in Hu. discriminate.
    + discriminate.
    + assert (Hle : (readinessTimeout w_untaint ≤ Time_Sub (1200 * Second) (1050 * Second))%Z).
      { apply (He (w_pod "False")); [|reflexivity]. vm_compute. left. }
      vm_compute in Hle. apply Hle. reflexivity.
Defined.

Lemma started_controller_is_configured_witness :
  let r := mkUntaintReconciler true false (7 * Second)%Z DefaultSchedulingTimeout PolicyKeep in
  configured r ∧ waitForCSIDriver r = true ∧
  (timeoutPolicy r = PolicyKeep ∧ Getenv {[EnvTimeoutPolicy := "keep"; EnvReadinessTimeout := "7s"]} EnvTimeoutPolicy = "keep" ∨
   timeoutPolicy r = PolicyRemove ∧
   Getenv {[EnvTimeoutPolicy := "keep"; EnvReadinessTimeout := "7s"]} EnvTimeoutPolicy ∈ [""; "remove"]).
Proof.
  apply (started_controller_is_configured (λ s, if bool_decide (s = "7s") then inl (7 * Second)%Z else inr (Errorf "bad"))).
  - intros s d. case_bool_decide; [|discriminate]. intros Hd. injection Hd as <-. split; discriminate.
  - vm_compute. reflexivity.
Defined.

(** ** Status *)

Definition w_c1 : Condition := mkCondition "A" "True" 1 "r" "m".
Definition w_c1' : Condition := mkCondition "A" "True" 9 "r" "m".
Definition w_c2 : Condition := mkCondition "B" "False" 2 "r" "m".

Lemma w_typed : typed [w_c1; w_c2] ∧ typed [w_c2; w_c1'].
Proof.
  unfold typed. split.
  - apply (bool_decide_unpack (NoDup (cond_Type <$> [w_c1; w_c2]))). vm_compute. exact I.
  - apply (bool_decide_unpack (NoDup (cond_Type <$> [w_c2; w_c1']))). vm_compute. exact I.
Qed.

Lemma IsEqualConditions_iff_witness :
  IsEqualConditions [w_c1; w_c2] [w_c2; w_c1'] = true ↔
  ∀ t, strip <$> GetCondition [w_c1; w_c2] t = strip <$> GetCondition [w_c2; w_c1'] t.
Proof. apply (IsEqualConditions_iff [w_c1; w_c2] [w_c2; w_c1']); apply w_typed. Defined.

Definition w_status : DatadogAgentStatus unit :=
  mkStatus [mkCondition ClusterProviderDetectedConditionType ConditionTrue 1 clusterProviderReasonDetected "m"]
    [] None None None None None None "eks".

(** The detector lost the provider and only sees the default one. *)
Lemma detected_provider_is_pinned_witness :
  resolveClusterProvider ∅ w_status (Some (mkProviderReader (Some "default") false))
    = Some ("eks", clusterProviderSourceDetected) ∧
  pinned (setClusterProviderStatus id (generateNewStatusFromDDA (Some w_status)) "eks" clusterProviderSourceDetected 7) ∧
  IsSpecificProvider "eks" = true.
Proof.
  apply (detected_provider_is_pinned id w_status ∅ (mkProviderReader (Some "default") false) 7).
  - reflexivity.
  - split; reflexivity.
Defined.

(** ** Profiles *)

(** A requirement is a label a node must have. *)
Definition w_newreq (k _ : string) (_ : list string) : string + error := inl k.
Definition w_matches (k : string) (l : gmap string string) : bool := bool_decide (is_Some (l !! k)).
Definition w_profile (ns name : string) (t : Time) (k : string) : DatadogAgentProfile unit :=
  mkProfile ns name ∅ t (Some [mkNSR k "Exists" []]) tt (mkProfileStatus None "" [] "" "" None).
Definition w_nodes : list ClusterNode := [mkClusterNode "n1" {["gpu" := ""]}; mkClusterNode "n2" {["cpu" := ""]}].
(** The second one is older and claims the same node as the first. *)
Definition w_profiles : list (DatadogAgentProfile unit) :=
  [w_profile "ns" "young" 20 "gpu"; w_profile "ns" "old" 10 "gpu"; w_profile "ns" "cpu" 30 "cpu"].

Abbreviation w_loop := (reconcileProfilesLoop (DSpec := unit) w_newreq w_matches (λ _ _, None) (λ acc _ _, inl acc)
  (λ _ _, "hash") true w_nodes tt (DefaultProfile tt) (λ _, inr (ApiError ReasonNotFound)) 100 w_profiles).

Lemma profiles_exclusive_oldest_first_witness :
  ∃ A, ps_applied w_loop = DefaultProfile tt :: A ∧
    assigned w_newreq w_matches (λ _ _, None) w_nodes A (ps_byNode w_loop) ∧
    (∀ p', p' ∈ A → ∃ p, p ∈ w_profiles ∧ same_manifest p' p) ∧
    ∀ p, p ∈ w_profiles → (∃ p', p' ∈ A ∧ same_manifest p' p) ∨
      ∃ A', (∀ q, q ∈ A' → q ∈ A ∧ profile_le q p) ∧
            rejected w_newreq w_matches (λ _ _, None) (λ acc _ _, inl acc) w_nodes tt A' p.
Proof.
  apply (profiles_exclusive_oldest_first w_newreq w_matches (λ _ _, None) (λ acc _ _, inl acc) (λ _ _, "hash") true
           w_nodes tt (DefaultProfile tt) (λ _, inr (ApiError ReasonNotFound)) 100 w_profiles).
  - apply (bool_decide_unpack (NoDup (cn_Name <$> w_nodes))). vm_compute. exact I.
  - intros p Hp. unfold w_profiles in Hp. rewrite !elem_of_cons, elem_of_nil in Hp.
    destruct Hp as [->|[->|[->|[]]]]; discriminate.
Defined.

Definition w_info : CreateStrategyInfo := mkCSInfo ["n3"; "n1"; "n2"] 2.

(** Two labelled nodes, one ready, at most two unavailable: one more fits. *)
(** With one pod unavailable and a limit of three, two of the three nodes. *)
Lemma create_strategy_bounds_rollout_witness :
  ∃ byNode' info' cs,
    ApplyCreateStrategy ∅ w_info None 3 (Some 1%Z) 50 = Ret (byNode', info', cs) ∧
    cs_NodesLabeled cs = (2 + Z.of_nat 2)%Z ∧
    (∀ node, byNode' !! node = if decide (node ∈ drop 2 (sort_by String.le ["n3"; "n1"; "n2"]))
                               then None else (∅ : gmap string NamespacedName) !! node) ∧
    (2 - 1 + Z.of_nat 2 ≤ Z.max (2 - 1) 3)%Z ∧
    (Z.of_nat 2 = 3 ∨ 3 ≤ 2 - 1 + Z.of_nat 2)%Z.
Proof.
  apply (create_strategy_bounds_rollout ∅ w_info None 3 1 50);
    first [split; vm_compute; (reflexivity || discriminate) | vm_compute; (reflexivity || discriminate)].
Defined.

Lemma node_labels_converge_witness :
  let labels' := default {[ProfileLabelKey := "old"; "k" := "v"]}
                   (profileLabels (mkNSN "ns" "gpu") {[ProfileLabelKey := "old"; "k" := "v"]}) in
  labels' !! ProfileLabelKey = wantedLabel (mkNSN "ns" "gpu") ∧
  labels' !! OldProfileLabelKey = None ∧
  (∀ k, k ≠ ProfileLabelKey → k ≠ OldProfileLabelKey →
        labels' !! k = ({[ProfileLabelKey := "old"; "k" := "v"]} : gmap string string) !! k) ∧
  profileLabels (mkNSN "ns" "gpu") labels' = None.
Proof.
  apply (node_labels_converge (mkNSN "ns" "gpu") {[ProfileLabelKey := "old"; "k" := "v"]}).
  - discriminate.
  - intros Heq. apply (f_equal (lookup "k")) in Heq. vm_compute in Heq. discriminate.
Defined.
