(* ===== verification/Rbac.v ===== *)
(** * RBAC policy rules.

    Models [pkg/kubernetes/rbac/normalize.go]: the normalization every Role and
    ClusterRole goes through before it is compared with, and written to, the API
    server. *)

From Stdlib Require Import ZArith Ascii.
From stdpp Require Import base gmap strings list.
From S2P Require Import Prelude.

(** [rbacv1.PolicyRule] *)
Record PolicyRule := mkPolicyRule {
  Verbs : list string;
  APIGroups : list string;
  Resources : list string;
  ResourceNames : list string;
  NonResourceURLs : list string
}.

#[export] Instance PolicyRule_eq_dec : EqDecision PolicyRule.
Proof. solve_decision. Defined.

Definition comma : ascii := ","%char.

(** [slices.Sort] on strings *)
Definition sortStrings : list string → list string := sort_by String.le.

Abbreviation verbSet := (gset string).

Record resourceRuleKey := mkResourceRuleKey { rk_apiGroup : string; rk_resource : string; rk_resourceNames : string }.

Record resourceConsolidationKey := mkResourceConsolidationKey {
  ck_apiGroup : string;
  ck_verbs : string;
  ck_resourceNames : string
}.

#[export] Instance resourceRuleKey_eq_dec : EqDecision resourceRuleKey.
Proof. solve_decision. Defined.
#[export] Instance resourceRuleKey_countable : Countable resourceRuleKey.
Proof.
  apply (inj_countable' (λ k, (rk_apiGroup k, rk_resource k, rk_resourceNames k))
           (λ '(g, r, n), mkResourceRuleKey g r n)). by intros [].
Defined.

#[export] Instance resourceConsolidationKey_eq_dec : EqDecision resourceConsolidationKey.
Proof. solve_decision. Defined.
#[export] Instance resourceConsolidationKey_countable : Countable resourceConsolidationKey.
Proof.
  apply (inj_countable' (λ k, (ck_apiGroup k, ck_verbs k, ck_resourceNames k))
           (λ '(g, v, n), mkResourceConsolidationKey g v n)). by intros [].
Defined.

(** ** Collecting the verbs *)

Definition addVerbs (s : verbSet) (verbs : list string) : verbSet := s ∪ list_to_set verbs.

Definition resourceNamesKey (rule : PolicyRule) : string :=
  match ResourceNames rule with
  | [] => ""
  | names => JoinChar comma (sortStrings names)
  end.

(** The keys a rule contributes to, each with the rule's verbs. *)
Definition resourceRuleKeys (rule : PolicyRule) : list (resourceRuleKey * list string) :=
  match NonResourceURLs rule with
  | _ :: _ => []
  | [] =>
      apiGroup ← APIGroups rule;
      resource ← Resources rule;
      [(mkResourceRuleKey apiGroup resource (resourceNamesKey rule), Verbs rule)]
  end.

Definition mapResourceRulesToVerbs (rules : list PolicyRule) : gmap resourceRuleKey verbSet :=
  accum_all ∅ addVerbs (rules ≫= resourceRuleKeys).

(** [nonResourceRuleKey] is the URL. *)
Definition nonResourceRuleKeys (rule : PolicyRule) : list (string * list string) :=
  (λ url, (url, Verbs rule)) <$> NonResourceURLs rule.

Definition mapNonResourceRulesToVerbs (rules : list PolicyRule) : gmap string verbSet :=
  accum_all ∅ addVerbs (rules ≫= nonResourceRuleKeys).

(** ** Grouping by verbs *)

Definition verbsKey (s : verbSet) : string := JoinChar comma (sortStrings (elements s)).

Definition append {A : Type} (l : list A) (x : A) : list A := l ++ [x].

Definition consolidationKey (key : resourceRuleKey) (s : verbSet) : resourceConsolidationKey :=
  mkResourceConsolidationKey (rk_apiGroup key) (verbsKey s) (rk_resourceNames key).

Definition consolidateResourceRules (ruleVerbs : gmap resourceRuleKey verbSet) :
    gmap resourceConsolidationKey (list string) :=
  sortStrings <$>
    accum_all [] append ((λ '(key, s), (consolidationKey key s, rk_resource key)) <$> map_to_list ruleVerbs).

Definition consolidateNonResourceRules (urlVerbs : gmap string verbSet) : gmap string (list string) :=
  sortStrings <$> accum_all [] append ((λ '(url, s), (verbsKey s, url)) <$> map_to_list urlVerbs).

(** ** Building the rules *)

(** The comparison of [buildResourcePolicyRules], as an order. *)
Definition consolidationKey_le (a b : resourceConsolidationKey) : Prop :=
  if decide (ck_apiGroup a = ck_apiGroup b)
  then if decide (ck_verbs a = ck_verbs b)
       then String.le (ck_resourceNames a) (ck_resourceNames b)
       else String.le (ck_verbs a) (ck_verbs b)
  else String.le (ck_apiGroup a) (ck_apiGroup b).

#[export] Instance consolidationKey_le_dec : RelDecision consolidationKey_le.
Proof. intros a b. unfold consolidationKey_le. repeat case_decide; apply _. Defined.

Definition resourceRule (key : resourceConsolidationKey) (resources : list string) : PolicyRule :=
  mkPolicyRule (SplitChar comma (ck_verbs key)) [ck_apiGroup key] resources
    (if bool_decide (ck_resourceNames key = "") then [] else SplitChar comma (ck_resourceNames key)) [].

Definition buildResourcePolicyRules (consolidated : gmap resourceConsolidationKey (list string)) : list PolicyRule :=
  (λ key, resourceRule key (default [] (consolidated !! key))) <$>
    sort_by consolidationKey_le (elements (dom consolidated)).

Definition nonResourceRule (verbs : string) (urls : list string) : PolicyRule :=
  mkPolicyRule (SplitChar comma verbs) [] [] [] urls.

Definition buildNonResourcePolicyRules (urlsByVerbs : gmap string (list string)) : list PolicyRule :=
  (λ key, nonResourceRule key (default [] (urlsByVerbs !! key))) <$> sortStrings (elements (dom urlsByVerbs)).

Definition NormalizePolicyRules (rules : list PolicyRule) : list PolicyRule :=
  match rules with
  | [] => []
  | _ =>
      let resourceVerbs := mapResourceRulesToVerbs rules in
      let urlVerbs := mapNonResourceRulesToVerbs rules in
      (if decide (resourceVerbs = ∅) then [] else buildResourcePolicyRules (consolidateResourceRules resourceVerbs)) ++
      (if decide (urlVerbs = ∅) then [] else buildNonResourcePolicyRules (consolidateNonResourceRules urlVerbs))
  end.
