(* ===== verification/RbacTheorems.v ===== *)
(** * Properties of the normalization of policy rules.

    It grants exactly what the rules granted, does not depend on their order and
    is stable, so that a reconciled role is never rewritten. *)

From Stdlib Require Import ZArith Lia Ascii.
From stdpp Require Import base gmap strings list.
From S2P Require Import Prelude Rbac.

(** ** What rules grant *)

(** A verb on a resource of a group, for an object name; wildcards are matched by
    the API server on these strings. *)
Definition permits (rules : list PolicyRule) (group resource name verb : string) : Prop :=
  ∃ rule, rule ∈ rules ∧ NonResourceURLs rule = [] ∧ group ∈ APIGroups rule ∧ resource ∈ Resources rule ∧
          verb ∈ Verbs rule ∧ (ResourceNames rule = [] ∨ name ∈ ResourceNames rule).

Definition permitsURL (rules : list PolicyRule) (url verb : string) : Prop :=
  ∃ rule, rule ∈ rules ∧ url ∈ NonResourceURLs rule ∧ verb ∈ Verbs rule.

Abbreviation no_comma := (λ s, ContainsChar comma s = false).

(** What the API server's validation asks of a rule, no comma in a verb or an
    object name, and not the empty name alone. *)
Definition valid_rule (rule : PolicyRule) : Prop :=
  Verbs rule ≠ [] ∧ Forall no_comma (Verbs rule) ∧
  ResourceNames rule ≠ [""] ∧ Forall no_comma (ResourceNames rule).

#[export] Instance valid_rule_dec rule : Decision (valid_rule rule).
Proof. unfold valid_rule. apply _. Defined.

(** A rule for the empty name alone is read as one for every name. *)
Definition widened (rule : PolicyRule) : PolicyRule :=
  if decide (ResourceNames rule = [""])
  then mkPolicyRule (Verbs rule) (APIGroups rule) (Resources rule) [] (NonResourceURLs rule)
  else rule.

(** ** Sorting strings *)

Lemma sortStrings_Permutation l : sortStrings l ≡ₚ l.
Proof. apply sort_by_Permutation. Qed.

Lemma sortStrings_ext l1 l2 : l1 ≡ₚ l2 → sortStrings l1 = sortStrings l2.
Proof. intros Hp. apply sort_by_ext; [apply _..|done|]. intros x y _ _. apply (anti_symm String.le). Qed.

Lemma sortStrings_idemp l : sortStrings (sortStrings l) = sortStrings l.
Proof. apply sortStrings_ext, sortStrings_Permutation. Qed.

#[export] Instance consolidationKey_le_total : Total consolidationKey_le.
Proof.
  intros [g1 v1 n1] [g2 v2 n2]. unfold consolidationKey_le. simpl.
  repeat case_decide; try congruence; apply (total String.le).
Qed.

#[export] Instance consolidationKey_le_trans : Transitive consolidationKey_le.
Proof.
  intros [g1 v1 n1] [g2 v2 n2] [g3 v3 n3]. unfold consolidationKey_le. simpl.
  repeat case_decide; subst; intros; try done; try (by etrans; [eassumption|eassumption]);
    by match goal with H1 : String.le ?a ?b, H2 : String.le ?b ?a |- _ => destruct (anti_symm String.le _ _ H1 H2) end.
Qed.

(** ** The maps of verbs *)

Section VerbMaps.
Context `{Countable K}.
Implicit Types l : list (K * list string).

Lemma elem_of_addVerbs_all xs (s : verbSet) v : v ∈ foldl addVerbs s xs ↔ v ∈ s ∨ ∃ vs, vs ∈ xs ∧ v ∈ vs.
Proof.
  revert s; induction xs as [|vs xs IH]; intros s; simpl; [set_solver|].
  rewrite IH. unfold addVerbs. set_solver.
Qed.

Lemma verb_map_spec l k s :
  accum_all ∅ addVerbs l !! k = Some s ↔
  (∃ vs, (k, vs) ∈ l) ∧ ∀ v, v ∈ s ↔ ∃ vs, (k, vs) ∈ l ∧ v ∈ vs.
Proof.
  rewrite lookup_accum_all. setoid_rewrite <-elem_of_values_at.
  destruct (values_at k l) as [|x xs] eqn:Hv; [set_solver|]. split.
  - intros [= <-]. split; [set_solver|]. intros v. rewrite elem_of_addVerbs_all. unfold addVerbs. set_solver.
  - intros [_ Hs]. f_equal. apply set_eq. intros v. change (foldl addVerbs (addVerbs ∅ x) xs) with (foldl addVerbs ∅ (x :: xs)).
    rewrite elem_of_addVerbs_all, Hs. set_solver.
Qed.

Lemma verb_map_grants l k v :
  (∃ s, accum_all ∅ addVerbs l !! k = Some s ∧ v ∈ s) ↔ ∃ vs, (k, vs) ∈ l ∧ v ∈ vs.
Proof.
  split; [by intros (s & [_ Hs]%verb_map_spec & Hv); apply Hs|]. intros (vs & Hin & Hv).
  destruct (accum_all ∅ addVerbs l !! k) as [s|] eqn:E.
  - exists s. split; [done|]. apply verb_map_spec in E as [_ ->]. eauto.
  - rewrite lookup_accum_all_None in E. by destruct (E vs).
Qed.

Lemma verb_map_ext l l' :
  (∀ p, p ∈ l ↔ p ∈ l') → accum_all ∅ addVerbs l = accum_all ∅ addVerbs l'.
Proof.
  intros Hl. apply map_eq. intros k. apply option_eq. intros s. rewrite !verb_map_spec. by setoid_rewrite Hl.
Qed.

(** A map of verbs is rebuilt from its own entries. *)
Lemma verb_map_rebuild l (m : gmap K verbSet) :
  (∀ k vs, (k, vs) ∈ l ↔ ∃ s, m !! k = Some s ∧ vs = sortStrings (elements s)) → accum_all ∅ addVerbs l = m.
Proof.
  intros Hl. apply map_eq. intros k. apply option_eq. intros s. rewrite verb_map_spec. setoid_rewrite Hl. split.
  - intros [(vs & s' & Hk & _) Hs]. rewrite Hk. f_equal. apply set_eq. intros v. rewrite Hs. split.
    + intros Hv. exists (sortStrings (elements s')). rewrite sortStrings_Permutation. set_solver.
    + intros (? & (s'' & Hk' & ->) & Hv). simplify_eq. rewrite sortStrings_Permutation in Hv. set_solver.
  - intros Hk. split; [eauto|]. intros v. split.
    + intros Hv. exists (sortStrings (elements s)). rewrite sortStrings_Permutation. set_solver.
    + intros (? & (s'' & Hk' & ->) & Hv). simplify_eq. rewrite sortStrings_Permutation in Hv. set_solver.
Qed.
End VerbMaps.

(** ** Buckets *)

Section Buckets.
Context `{Countable K}.
Implicit Types l : list (K * string).

Lemma foldl_append {A} (xs ys : list A) : foldl append ys xs = ys ++ xs.
Proof.
  revert ys; induction xs as [|x xs IH]; intros ys; simpl; [by rewrite app_nil_r|].
  rewrite IH. unfold append. by rewrite <-app_assoc.
Qed.

Lemma bucket_spec l k xs :
  (sortStrings <$> accum_all [] append l) !! k = Some xs →
  xs ≠ [] ∧ ∀ x, x ∈ xs ↔ (k, x) ∈ l.
Proof.
  rewrite lookup_fmap, lookup_accum_all, fmap_Some. intros (ys & Hy & ->).
  setoid_rewrite <-elem_of_values_at.
  destruct (values_at k l) as [|y ys'] eqn:Hv; [done|]. injection Hy as <-.
  change (foldl append (append [] y) ys') with (foldl append [] (y :: ys')). rewrite foldl_append. split.
  - intros Hn. pose proof (sortStrings_Permutation ([] ++ y :: ys')) as Hp. rewrite Hn in Hp.
    by apply Permutation_nil_cons in Hp.
  - intros x. by rewrite sortStrings_Permutation.
Qed.

Lemma bucket_exists l k x :
  (k, x) ∈ l → is_Some ((sortStrings <$> accum_all [] append l) !! k).
Proof.
  intros Hin. rewrite lookup_fmap. apply fmap_is_Some.
  destruct (accum_all [] append l !! k) eqn:E; [done|]. rewrite lookup_accum_all_None in E. by destruct (E x).
Qed.

(** The order in which a map is ranged over does not matter. *)
Lemma bucket_order l l' :
  l ≡ₚ l' → sortStrings <$> accum_all [] append l = sortStrings <$> accum_all [] append l'.
Proof.
  intros Hp. apply map_eq. intros k. rewrite !lookup_fmap, !lookup_accum_all.
  assert (Hv : values_at k l ≡ₚ values_at k l') by (unfold values_at; by rewrite Hp).
  destruct (values_at k l) as [|x xs], (values_at k l') as [|x' xs']; try done.
  - by apply Permutation_nil_cons in Hv.
  - by apply symmetry, Permutation_nil_cons in Hv.
  - simpl. f_equal. change (append [] x) with ([] ++ [x]). change (append [] x') with ([] ++ [x']).
    rewrite !foldl_append. by apply sortStrings_ext.
Qed.
End Buckets.

(** ** The rules that are built *)

(** The object names a key stands for. *)
Definition namesOf (key : string) : list string := if bool_decide (key = "") then [] else SplitChar comma key.

(** Keys and verbs are read back as they were joined. *)
Definition readable (m : gmap resourceRuleKey verbSet) : Prop :=
  ∀ k s, m !! k = Some s →
    SplitChar comma (verbsKey s) = sortStrings (elements s) ∧
    JoinChar comma (sortStrings (SplitChar comma (rk_resourceNames k))) = rk_resourceNames k.

Lemma verbsKey_read s :
  s ≠ ∅ → (∀ v, v ∈ s → no_comma v) → SplitChar comma (verbsKey s) = sortStrings (elements s).
Proof.
  intros Hs Hc. apply SplitChar_JoinChar.
  - intros Hn. pose proof (sortStrings_Permutation (elements s)) as Hp. rewrite Hn in Hp.
    apply Permutation_nil_l in Hp. symmetry in Hp. by apply elements_empty_inv, leibniz_equiv in Hp.
  - rewrite sortStrings_Permutation. apply Forall_forall. intros v Hv. apply Hc. by apply elem_of_elements.
Qed.

Lemma resourceNamesKey_read rule :
  valid_rule rule → namesOf (resourceNamesKey rule) ≡ₚ ResourceNames rule ∧
  JoinChar comma (sortStrings (SplitChar comma (resourceNamesKey rule))) = resourceNamesKey rule.
Proof.
  intros (_ & _ & Hone & Hn). unfold resourceNamesKey, namesOf. destruct (ResourceNames rule) as [|n ns] eqn:E; [done|].
  rewrite <-E in *. assert (Hs : SplitChar comma (JoinChar comma (sortStrings (ResourceNames rule))) = sortStrings (ResourceNames rule)).
  { apply SplitChar_JoinChar.
    - intros H0. pose proof (sortStrings_Permutation (ResourceNames rule)) as Hp. rewrite H0, E in Hp.
      by apply Permutation_nil_cons in Hp.
    - by rewrite sortStrings_Permutation. }
  rewrite Hs, sortStrings_idemp. split; [|done]. rewrite bool_decide_false; [by rewrite sortStrings_Permutation|].
  intros H0. rewrite H0 in Hs. simpl in Hs. pose proof (sortStrings_Permutation (ResourceNames rule)) as Hp.
  rewrite <-Hs in Hp. by apply symmetry, Permutation_singleton_r in Hp.
Qed.

Lemma elem_of_resourceRuleKeys rule k vs :
  (k, vs) ∈ resourceRuleKeys rule ↔
  NonResourceURLs rule = [] ∧ rk_apiGroup k ∈ APIGroups rule ∧ rk_resource k ∈ Resources rule ∧
  rk_resourceNames k = resourceNamesKey rule ∧ vs = Verbs rule.
Proof.
  unfold resourceRuleKeys. destruct (NonResourceURLs rule); [|set_solver].
  rewrite list_elem_of_bind. setoid_rewrite list_elem_of_bind. setoid_rewrite list_elem_of_singleton.
  destruct k as [g r n]. naive_solver.
Qed.

Lemma elem_of_keys rules k vs :
  (k, vs) ∈ rules ≫= resourceRuleKeys ↔ ∃ rule, rule ∈ rules ∧ (k, vs) ∈ resourceRuleKeys rule.
Proof. rewrite list_elem_of_bind. naive_solver. Qed.

Lemma elem_of_urls rules u vs :
  (u, vs) ∈ rules ≫= nonResourceRuleKeys ↔ ∃ rule, rule ∈ rules ∧ u ∈ NonResourceURLs rule ∧ vs = Verbs rule.
Proof. rewrite list_elem_of_bind. unfold nonResourceRuleKeys. setoid_rewrite list_elem_of_fmap. naive_solver. Qed.

Lemma readable_rules rules : Forall valid_rule rules → readable (mapResourceRulesToVerbs rules).
Proof.
  rewrite Forall_forall. intros Hv k s Hk. unfold mapResourceRulesToVerbs in Hk. rewrite verb_map_spec in Hk.
  destruct Hk as [(vs & Hin) Hs]. setoid_rewrite elem_of_keys in Hs.
  apply elem_of_keys in Hin as (rule & Hr & Hk). apply elem_of_resourceRuleKeys in Hk as Hk'.
  destruct Hk' as (_ & _ & _ & Hnk & ->). split.
  - destruct (Hv _ Hr) as (Hne & _ & _). apply verbsKey_read.
    + destruct (Verbs rule) as [|v vs] eqn:E; [done|]. assert (v ∈ s); [|set_solver].
      apply Hs. exists (Verbs rule). rewrite E. split; [eauto|by left].
    + intros v (vs & (rule' & Hr' & Hk') & Hin)%Hs. apply elem_of_resourceRuleKeys in Hk' as (_ & _ & _ & _ & ->).
      destruct (Hv _ Hr') as (_ & Hc & _). rewrite Forall_forall in Hc. auto.
  - rewrite Hnk. apply resourceNamesKey_read; auto.
Qed.

(** What is granted, read off the keys. *)
Lemma permits_keys rules g r n v :
  Forall valid_rule rules →
  permits rules g r n v ↔
  ∃ k s, mapResourceRulesToVerbs rules !! k = Some s ∧ rk_apiGroup k = g ∧ rk_resource k = r ∧ v ∈ s ∧
         (namesOf (rk_resourceNames k) = [] ∨ n ∈ namesOf (rk_resourceNames k)).
Proof.
  rewrite Forall_forall. intros Hv. split.
  - intros (rule & Hr & Hu & Hg & Hres & Hverb & Hn). destruct (resourceNamesKey_read rule (Hv _ Hr)) as [Hp _].
    set (k := mkResourceRuleKey g r (resourceNamesKey rule)).
    assert (Hk : (k, Verbs rule) ∈ rules ≫= resourceRuleKeys).
    { apply elem_of_keys. exists rule. split; [done|]. by apply elem_of_resourceRuleKeys. }
    destruct (mapResourceRulesToVerbs rules !! k) as [s|] eqn:E.
    2:{ unfold mapResourceRulesToVerbs in E. rewrite lookup_accum_all_None in E. by destruct (E (Verbs rule)). }
    exists k, s. split_and!; [done..| |]; [|simpl].
    + unfold mapResourceRulesToVerbs in E. apply verb_map_spec in E as [_ ->]. eauto.
    + destruct Hn as [Hn|Hn]; [left|right; by rewrite Hp]. rewrite Hn in Hp. by apply Permutation_nil_r in Hp.
  - intros (k & s & E & <- & <- & Hvs & Hn). unfold mapResourceRulesToVerbs in E. apply verb_map_spec in E as [_ Hs].
    apply Hs in Hvs as (vs & (rule & Hr & Hk)%elem_of_keys & Hvs).
    apply elem_of_resourceRuleKeys in Hk as (Hu & Hg & Hres & Hnk & ->). exists rule. split_and!; try done.
    destruct (resourceNamesKey_read rule (Hv _ Hr)) as [Hp _]. rewrite Hnk in Hn.
    destruct Hn as [Hn|Hn]; [left|right; by rewrite <-Hp]. rewrite Hn in Hp. by apply Permutation_nil_l in Hp.
Qed.

Lemma NormalizePolicyRules_unfold rules :
  NormalizePolicyRules rules =
  buildResourcePolicyRules (consolidateResourceRules (mapResourceRulesToVerbs rules)) ++
  buildNonResourcePolicyRules (consolidateNonResourceRules (mapNonResourceRulesToVerbs rules)).
Proof. unfold NormalizePolicyRules. destruct rules; [done|]. f_equal; case_decide as E; try done; by rewrite E. Qed.

Lemma elem_of_buildResource cons rule :
  rule ∈ buildResourcePolicyRules cons ↔ ∃ ck xs, cons !! ck = Some xs ∧ rule = resourceRule ck xs.
Proof.
  unfold buildResourcePolicyRules. rewrite list_elem_of_fmap. setoid_rewrite sort_by_Permutation.
  setoid_rewrite elem_of_elements. setoid_rewrite elem_of_dom. split.
  - intros (ck & -> & xs & E). exists ck, xs. by rewrite E.
  - intros (ck & xs & E & ->). exists ck. rewrite E. eauto.
Qed.

Lemma elem_of_buildNonResource cons rule :
  rule ∈ buildNonResourcePolicyRules cons ↔ ∃ vk xs, cons !! vk = Some xs ∧ rule = nonResourceRule vk xs.
Proof.
  unfold buildNonResourcePolicyRules. rewrite list_elem_of_fmap. setoid_rewrite sortStrings_Permutation.
  setoid_rewrite elem_of_elements. setoid_rewrite elem_of_dom. split.
  - intros (ck & -> & xs & E). exists ck, xs. by rewrite E.
  - intros (ck & xs & E & ->). exists ck. rewrite E. eauto.
Qed.

Lemma elem_of_consolidated m ck xs :
  consolidateResourceRules m !! ck = Some xs →
  xs ≠ [] ∧ ∀ x, x ∈ xs ↔ ∃ k s, m !! k = Some s ∧ consolidationKey k s = ck ∧ rk_resource k = x.
Proof.
  intros [Hne Hx]%bucket_spec. split; [done|]. intros x. rewrite Hx, list_elem_of_fmap. split.
  - intros ([k s] & Heq & Hin%elem_of_map_to_list). simplify_eq. eauto.
  - intros (k & s & Hk & <- & <-). exists (k, s). by rewrite elem_of_map_to_list.
Qed.

Lemma elem_of_consolidatedURL n vk xs :
  consolidateNonResourceRules n !! vk = Some xs →
  xs ≠ [] ∧ ∀ x, x ∈ xs ↔ ∃ s, n !! x = Some s ∧ verbsKey s = vk.
Proof.
  intros [Hne Hx]%bucket_spec. split; [done|]. intros x. rewrite Hx, list_elem_of_fmap. split.
  - intros ([k s] & Heq & Hin%elem_of_map_to_list). simplify_eq. eauto.
  - intros (s & Hk & <-). exists (x, s). by rewrite elem_of_map_to_list.
Qed.

Lemma consolidated_exists m k s :
  m !! k = Some s → is_Some (consolidateResourceRules m !! consolidationKey k s).
Proof.
  intros Hk. eapply (bucket_exists _ _ (rk_resource k)), list_elem_of_fmap.
  exists (k, s). by rewrite elem_of_map_to_list.
Qed.

Lemma consolidatedURL_exists n u s :
  n !! u = Some s → is_Some (consolidateNonResourceRules n !! verbsKey s).
Proof.
  intros Hk. eapply (bucket_exists _ _ u), list_elem_of_fmap. exists (u, s). by rewrite elem_of_map_to_list.
Qed.

Lemma resourceNamesKey_resourceRule ck xs :
  JoinChar comma (sortStrings (SplitChar comma (ck_resourceNames ck))) = ck_resourceNames ck →
  resourceNamesKey (resourceRule ck xs) = ck_resourceNames ck.
Proof.
  intros Hc. unfold resourceNamesKey, resourceRule. simpl. case_bool_decide as E; [by rewrite E|].
  destruct (SplitChar comma (ck_resourceNames ck)) as [|w ws] eqn:Hs; [by destruct (SplitChar_not_nil _ _ Hs)|done].
Qed.

(** The keys of the rules that are built are the keys they were built from. *)
Lemma built_keys m n k vs :
  readable m →
  (k, vs) ∈ (buildResourcePolicyRules (consolidateResourceRules m) ++
             buildNonResourcePolicyRules (consolidateNonResourceRules n)) ≫= resourceRuleKeys ↔
  ∃ s, m !! k = Some s ∧ vs = sortStrings (elements s).
Proof.
  intros Hm. rewrite elem_of_keys. setoid_rewrite elem_of_app. setoid_rewrite elem_of_resourceRuleKeys. split.
  - intros (rule & [Hr|Hr] & Hu & Hg & Hres & Hn & ->).
    2:{ apply elem_of_buildNonResource in Hr as (vk & xs & [Hne _]%elem_of_consolidatedURL & ->). done. }
    apply elem_of_buildResource in Hr as (ck & xs & Hck & ->). apply elem_of_consolidated in Hck as [_ Hx].
    apply Hx in Hres as (k' & s & Hk' & <- & Hres). destruct (Hm _ _ Hk') as [Hs Hc].
    rewrite resourceNamesKey_resourceRule in Hn by done. apply list_elem_of_singleton in Hg.
    assert (k = k') as -> by (destruct k, k'; simpl in *; congruence). by exists s.
  - intros (s & Hk & ->). destruct (Hm _ _ Hk) as [Hs Hc]. destruct (consolidated_exists m k s Hk) as [xs Hxs].
    exists (resourceRule (consolidationKey k s) xs). split; [left; apply elem_of_buildResource; eauto|].
    rewrite resourceNamesKey_resourceRule by done. split_and!; [done|by left| |done|done].
    simpl. apply elem_of_consolidated in Hxs as [_ Hx]. apply Hx. eauto.
Qed.

Definition readableURL (n : gmap string verbSet) : Prop :=
  ∀ u s, n !! u = Some s → SplitChar comma (verbsKey s) = sortStrings (elements s).

Lemma built_urls m n u vs :
  readableURL n →
  (u, vs) ∈ (buildResourcePolicyRules (consolidateResourceRules m) ++
             buildNonResourcePolicyRules (consolidateNonResourceRules n)) ≫= nonResourceRuleKeys ↔
  ∃ s, n !! u = Some s ∧ vs = sortStrings (elements s).
Proof.
  intros Hn. rewrite elem_of_urls. setoid_rewrite elem_of_app. split.
  - intros (rule & [Hr|Hr] & Hu & ->).
    { apply elem_of_buildResource in Hr as (ck & xs & _ & ->). simpl in Hu. by apply not_elem_of_nil in Hu. }
    apply elem_of_buildNonResource in Hr as (vk & xs & Hvk & ->). apply elem_of_consolidatedURL in Hvk as [_ Hx].
    apply Hx in Hu as (s & Hs & <-). exists s. split; [done|]. by apply (Hn u).
  - intros (s & Hs & ->). destruct (consolidatedURL_exists n u s Hs) as [xs Hxs].
    exists (nonResourceRule (verbsKey s) xs). split; [right; apply elem_of_buildNonResource; eauto|].
    apply elem_of_consolidatedURL in Hxs as [_ Hx]. split; [apply Hx; eauto|]. symmetry. by apply (Hn u).
Qed.

Lemma readable_urls rules : Forall valid_rule rules → readableURL (mapNonResourceRulesToVerbs rules).
Proof.
  rewrite Forall_forall. intros Hv u s Hu. unfold mapNonResourceRulesToVerbs in Hu. apply verb_map_spec in Hu as [(vs & Hin) Hs].
  setoid_rewrite elem_of_urls in Hs. apply elem_of_urls in Hin as (rule & Hr & Hu & ->). apply verbsKey_read.
  - destruct (Hv _ Hr) as (Hne & _). destruct (Verbs rule) as [|v vs] eqn:E; [done|]. assert (v ∈ s); [|set_solver].
    apply Hs. exists (Verbs rule). rewrite E. split; [eauto|by left].
  - intros v (vs & (rule' & Hr' & Hu' & ->) & Hin)%Hs. destruct (Hv _ Hr') as (_ & Hc & _).
    rewrite Forall_forall in Hc. auto.
Qed.

Lemma normalized_maps rules :
  Forall valid_rule rules →
  mapResourceRulesToVerbs (NormalizePolicyRules rules) = mapResourceRulesToVerbs rules ∧
  mapNonResourceRulesToVerbs (NormalizePolicyRules rules) = mapNonResourceRulesToVerbs rules.
Proof.
  intros Hv. rewrite NormalizePolicyRules_unfold. split; apply verb_map_rebuild; intros k vs.
  - by apply built_keys, readable_rules.
  - by apply built_urls, readable_urls.
Qed.

Lemma normalized_valid rules : Forall valid_rule (NormalizePolicyRules rules).
Proof.
  rewrite NormalizePolicyRules_unfold. apply Forall_app. split; apply Forall_forall; intros rule Hr.
  - apply elem_of_buildResource in Hr as (ck & xs & _ & ->). unfold valid_rule; simpl.
    split_and!; [apply SplitChar_not_nil|auto with go| |]; case_bool_decide as E; [done| |constructor|auto with go].
    intros Hs. by rewrite <- (JoinChar_SplitChar comma (ck_resourceNames ck)), Hs in E.
  - apply elem_of_buildNonResource in Hr as (vk & xs & _ & ->).
    unfold valid_rule; simpl; split_and!; [apply SplitChar_not_nil|auto with go|done|constructor].
Qed.

#[export] Hint Resolve normalized_valid : go.

Lemma normalize_permits rules :
  Forall valid_rule rules →
  ∀ g r n v, permits (NormalizePolicyRules rules) g r n v ↔ permits rules g r n v.
Proof.
  intros Hv g r n v. destruct (normalized_maps rules Hv) as [Hm _].
  by rewrite !permits_keys, Hm by auto with go.
Qed.

Lemma permits_app rules rules' g r n v :
  permits (rules ++ rules') g r n v ↔ permits rules g r n v ∨ permits rules' g r n v.
Proof. unfold permits. setoid_rewrite elem_of_app. naive_solver. Qed.

(** ** Theorems *)

Lemma normalize_permitsURL rules :
  Forall valid_rule rules → ∀ u v, permitsURL (NormalizePolicyRules rules) u v ↔ permitsURL rules u v.
Proof.
  intros Hv u v. destruct (normalized_maps rules Hv) as [_ Hn].
  assert (Hu : ∀ rs, permitsURL rs u v ↔ ∃ s, mapNonResourceRulesToVerbs rs !! u = Some s ∧ v ∈ s).
  { intros rs. unfold permitsURL, mapNonResourceRulesToVerbs. rewrite verb_map_grants.
    setoid_rewrite elem_of_urls. naive_solver. }
  by rewrite !Hu, Hn.
Qed.

(** Normalization does not see the difference between no name and the empty one. *)
Lemma normalize_widened rules : NormalizePolicyRules (widened <$> rules) = NormalizePolicyRules rules.
Proof.
  rewrite !NormalizePolicyRules_unfold. unfold mapResourceRulesToVerbs, mapNonResourceRulesToVerbs.
  assert (Hk : ∀ rule, resourceRuleKeys (widened rule) = resourceRuleKeys rule ∧
                       nonResourceRuleKeys (widened rule) = nonResourceRuleKeys rule).
  { intros rule. unfold widened. case_decide as E; [|done]. unfold resourceRuleKeys, nonResourceRuleKeys, resourceNamesKey.
    simpl. by rewrite E. }
  assert (H1 : (widened <$> rules) ≫= resourceRuleKeys = rules ≫= resourceRuleKeys).
  { induction rules as [|r rules IH]; [done|]. simpl. destruct (Hk r) as [-> _]. by f_equal. }
  assert (H2 : (widened <$> rules) ≫= nonResourceRuleKeys = rules ≫= nonResourceRuleKeys).
  { clear H1. induction rules as [|r rules IH]; [done|]. simpl. destruct (Hk r) as [_ ->]. by f_equal. }
  by rewrite H1, H2.
Qed.

Lemma permitsURL_widened rules u v : permitsURL (widened <$> rules) u v ↔ permitsURL rules u v.
Proof.
  assert (Hw : ∀ rule, NonResourceURLs (widened rule) = NonResourceURLs rule ∧ Verbs (widened rule) = Verbs rule)
    by (intros rule; unfold widened; by case_decide).
  unfold permitsURL. setoid_rewrite list_elem_of_fmap. split.
  - intros (? & (rule & -> & Hr) & Hu). destruct (Hw rule) as [E1 E2]. rewrite E1, E2 in Hu. by exists rule.
  - intros (rule & Hr & Hu). exists (widened rule). destruct (Hw rule) as [-> ->]. eauto.
Qed.

(** C36: normalizing the rules of a role changes what they grant in one case
    only.  For rules with at least one verb each and no comma in a verb or an
    object name, a verb on a resource, for an object name, or on a URL, is granted
    after exactly when it was before, or a rule for the empty name alone grants it
    for every name (the names of a rule are joined, and no name is joined alike);
    so that without such a rule nothing changes. *)
Theorem normalize_preserves_permissions rules :
  Forall valid_rule (widened <$> rules) →
  (∀ group resource name verb,
     permits (NormalizePolicyRules rules) group resource name verb ↔
     ∃ rule, rule ∈ rules ∧ NonResourceURLs rule = [] ∧ group ∈ APIGroups rule ∧ resource ∈ Resources rule ∧
             verb ∈ Verbs rule ∧ (ResourceNames rule = [] ∨ ResourceNames rule = [""] ∨ name ∈ ResourceNames rule)) ∧
  (∀ url verb, permitsURL (NormalizePolicyRules rules) url verb ↔ permitsURL rules url verb) ∧
  ((∀ rule, rule ∈ rules → ResourceNames rule ≠ [""]) → ∀ group resource name verb,
     permits (NormalizePolicyRules rules) group resource name verb ↔ permits rules group resource name verb).
Proof.
  intros Hv. rewrite <- (normalize_widened rules).
  assert (Hw : ∀ g r n v, permits (widened <$> rules) g r n v ↔
    ∃ rule, rule ∈ rules ∧ NonResourceURLs rule = [] ∧ g ∈ APIGroups rule ∧ r ∈ Resources rule ∧
            v ∈ Verbs rule ∧ (ResourceNames rule = [] ∨ ResourceNames rule = [""] ∨ n ∈ ResourceNames rule)).
  { intros g r n v. unfold permits. setoid_rewrite list_elem_of_fmap. split.
    - intros (? & (rule & -> & Hr) & Hu & Hg & Hres & Hverb & Hn). exists rule. split; [done|].
      revert Hu Hg Hres Hverb Hn. unfold widened. case_decide; simpl; naive_solver.
    - intros (rule & Hr & Hu & Hg & Hres & Hverb & Hn). exists (widened rule). split; [eauto|].
      unfold widened. case_decide; simpl; naive_solver. }
  split_and!.
  - intros g r n v. by rewrite normalize_permits.
  - intros u v. rewrite normalize_permitsURL by done. apply permitsURL_widened.
  - intros Hone g r n v. rewrite normalize_permits, Hw by done. unfold permits. naive_solver.
Qed.

(** A role for the empty name alone, which the API server accepts and the
    configuration of the secret backend can give, becomes one for every name. *)
Lemma empty_name_grants_every_name groups resources verbs g r n v :
  verbs ≠ [] → Forall no_comma verbs → g ∈ groups → r ∈ resources → v ∈ verbs →
  permits (NormalizePolicyRules [mkPolicyRule verbs groups resources [""] []]) g r n v.
Proof.
  intros Hne Hc Hg Hr Hv. rewrite <- normalize_widened. cbn [fmap list_fmap].
  assert (widened (mkPolicyRule verbs groups resources [""] []) = mkPolicyRule verbs groups resources [] []) as -> by done.
  rewrite normalize_permits; [|apply Forall_singleton; split_and!; done || constructor].
  eexists. split; [by left|]. cbn. split_and!; auto.
Qed.

(** Normalization is stable, so that a role that was written normalized is
    found equal at every later reconcile and is not written again. *)
Theorem normalize_idempotent rules :
  Forall valid_rule rules → NormalizePolicyRules (NormalizePolicyRules rules) = NormalizePolicyRules rules.
Proof.
  intros Hv. destruct (normalized_maps rules Hv) as [Hm Hn].
  by rewrite (NormalizePolicyRules_unfold (NormalizePolicyRules rules)), Hm, Hn, <-NormalizePolicyRules_unfold.
Qed.

(** The normal form depends on the rules and not on their order or
    repetition, so that features may contribute rules in any order. *)
Theorem normalize_order_independent rules rules' :
  (∀ rule, rule ∈ rules ↔ rule ∈ rules') → NormalizePolicyRules rules = NormalizePolicyRules rules'.
Proof.
  intros Hr. rewrite !NormalizePolicyRules_unfold. unfold mapResourceRulesToVerbs, mapNonResourceRulesToVerbs.
  f_equal; do 2 f_equal; apply verb_map_ext; intros [k vs].
  - rewrite !elem_of_keys. by setoid_rewrite Hr.
  - rewrite !elem_of_urls. by setoid_rewrite Hr.
Qed.
