(* ===== verification/Objects.v ===== *)
(** * Dependency objects.

    Models what the operator does to an object whatever its kind:
    [pkg/kubernetes/{const,objects,platforminfo}.go] (kinds and the platform),
    [object/{labels,owner_ref,partof}.go] (labels, annotations and owner
    reference), [pkg/equality/equality.go] (when an object is up to date) and
    [store/preprocess.go] (what is done to it before it is compared).

    [Spec] stands for the types of the Kubernetes API that the operator only
    copies and compares; their equality is [apiequality.Semantic.DeepEqual], for
    which nil and empty slices and maps are equal.  Where the operator compares
    JSON instead, nil and empty differ and the model has an [option]. *)

From Stdlib Require Import ZArith Ascii.
From stdpp Require Import base gmap strings list.
From S2P Require Import Prelude Cluster Rbac.

(** ** Kinds *)

Definition APIServiceKind : string := "apiservices".
Definition CiliumNetworkPoliciesKind : string := "ciliumnetworkpolicies".
Definition ClusterRolesKind : string := "clusterroles".
Definition ClusterRoleBindingKind : string := "clusterrolebindings".
Definition ConfigMapKind : string := "configmaps".
Definition MutatingWebhookConfigurationsKind : string := "mutatingwebhookconfigurations".
Definition NetworkPoliciesKind : string := "networkpolicies".
Definition NodeKind : string := "nodes".
Definition PodDisruptionBudgetsKind : string := "poddisruptionbudgets".
Definition RoleBindingKind : string := "rolebindings".
Definition RolesKind : string := "roles".
Definition SecretsKind : string := "secrets".
Definition ServiceAccountsKind : string := "serviceaccounts".
Definition ServicesKind : string := "services".
Definition ValidatingWebhookConfigurationsKind : string := "validatingwebhookconfigurations".

Definition getResourcesKind (withCiliumResources : bool) : list string :=
  let resources :=
    [APIServiceKind; ClusterRolesKind; ClusterRoleBindingKind; ConfigMapKind; MutatingWebhookConfigurationsKind;
     NetworkPoliciesKind; PodDisruptionBudgetsKind; RolesKind; RoleBindingKind; SecretsKind; ServiceAccountsKind;
     ServicesKind; ValidatingWebhookConfigurationsKind] in
  if withCiliumResources then resources ++ [CiliumNetworkPoliciesKind] else resources.

(** ** The platform *)

(** The group versions by kind: of the preferred and of the other versions. *)
Record PlatformInfo := mkPlatformInfo {
  apiPreferredVersions : gmap string string;
  apiOtherVersions : gmap string string
}.

(** [metav1.APIResourceList]: a group version and the kinds it serves. *)
Record APIResourceList := mkAPIResourceList { rl_GroupVersion : string; rl_Kinds : list string }.

(** The group version of each kind, the last list that has it winning. *)
Definition versionsByKind (lists : list APIResourceList) : gmap string string :=
  foldl (λ m l, foldl (λ m kind, <[kind := rl_GroupVersion l]> m) m (rl_Kinds l)) ∅ lists.

(** [groups]: the preferred group version of each API group. *)
Definition NewPlatformInfo (groups : list string) (resources : list APIResourceList) : PlatformInfo :=
  mkPlatformInfo (versionsByKind (filter (λ l, rl_GroupVersion l ∈ groups) resources))
                 (versionsByKind (filter (λ l, rl_GroupVersion l ∉ groups) resources)).

Definition UseV1Beta1PDB (platformInfo : PlatformInfo) : bool :=
  bool_decide (get_key (apiPreferredVersions platformInfo) "PodDisruptionBudget" = "policy/v1beta1").

(** [None] for a nil [PlatformInfo]. *)
Definition IsResourceSupported (platformInfo : option PlatformInfo) (resource : string) : bool :=
  match platformInfo with
  | None => false
  | Some p =>
      match apiPreferredVersions p !! resource with
      | Some _ => true
      | None => bool_decide (is_Some (apiOtherVersions p !! resource))
      end
  end.

Definition GetApiVersions (platformInfo : PlatformInfo) (name : string) : string * string :=
  (get_key (apiPreferredVersions platformInfo) name, get_key (apiOtherVersions platformInfo) name).

(** ** Objects *)

Record RoleRef := mkRoleRef { rr_APIGroup : string; rr_Kind : string; rr_Name : string }.
Record Subject := mkSubject { sub_Kind : string; sub_Name : string; sub_Namespace : string }.

#[export] Instance RoleRef_eq_dec : EqDecision RoleRef.
Proof. solve_decision. Defined.
#[export] Instance Subject_eq_dec : EqDecision Subject.
Proof. solve_decision. Defined.

Section Types.
Context (Spec : Type).

(** [sp_Rest]: protocol, target port, node port and application protocol. *)
Record ServicePort := mkServicePort { sp_Name : string; sp_Port : Z; sp_Rest : Spec }.

Record ServiceSpec := mkServiceSpec {
  svc_Selector : gmap string string;
  svc_Ports : list ServicePort;
  svc_Type : string;
  svc_InternalTrafficPolicy : option string;
  svc_ClusterIP : string;
  svc_ClusterIPs : list string
}.

Record NetworkPolicySpec := mkNetworkPolicySpec {
  np_PodSelector : Spec;
  np_PolicyTypes : list string;
  np_Ingress : list Spec;
  np_Egress : list Spec
}.

(** What an object has beyond its metadata, by its Go type.  A PodDisruptionBudget
    is of [policy/v1] or of [policy/v1beta1]; a Cilium policy is unstructured. *)
Inductive Body :=
| ConfigMap (Data BinaryData : option (gmap string string))
| ClusterRole (Rules : list PolicyRule)
| ClusterRoleBinding (Ref : RoleRef) (Subjects : list Subject)
| Role (Rules : list PolicyRule)
| RoleBinding (Ref : RoleRef) (Subjects : list Subject)
| ValidatingWebhookConfiguration (Webhooks : list Spec)
| MutatingWebhookConfiguration (Webhooks : list Spec)
| APIService (spec : Spec)
| Secret (Data : option (gmap string string))
| Service (spec : ServiceSpec)
| ServiceAccount
| PodDisruptionBudget (v1beta1 : bool) (spec : Spec)
| NetworkPolicy (spec : NetworkPolicySpec)
| CiliumNetworkPolicy (Specs : list Spec)
| Node.

Record Object := mkObject {
  o_Namespace : string;
  o_Name : string;
  o_Labels : gmap string string;
  o_Annotations : gmap string string;
  o_OwnerReferences : list OwnerReference;
  o_ResourceVersion : string;
  o_Body : Body
}.
End Types.

Arguments mkServicePort {_}.
Arguments sp_Name {_}.
Arguments sp_Port {_}.
Arguments sp_Rest {_}.
Arguments mkServiceSpec {_}.
Arguments svc_Selector {_}.
Arguments svc_Ports {_}.
Arguments svc_Type {_}.
Arguments svc_InternalTrafficPolicy {_}.
Arguments svc_ClusterIP {_}.
Arguments svc_ClusterIPs {_}.
Arguments mkNetworkPolicySpec {_}.
Arguments np_PodSelector {_}.
Arguments np_PolicyTypes {_}.
Arguments np_Ingress {_}.
Arguments np_Egress {_}.
Arguments ConfigMap {_}.
Arguments ClusterRole {_}.
Arguments ClusterRoleBinding {_}.
Arguments Role {_}.
Arguments RoleBinding {_}.
Arguments ValidatingWebhookConfiguration {_}.
Arguments MutatingWebhookConfiguration {_}.
Arguments APIService {_}.
Arguments Secret {_}.
Arguments Service {_}.
Arguments ServiceAccount {_}.
Arguments PodDisruptionBudget {_}.
Arguments NetworkPolicy {_}.
Arguments CiliumNetworkPolicy {_}.
Arguments Node {_}.
Arguments mkObject {_}.
Arguments o_Namespace {_}.
Arguments o_Name {_}.
Arguments o_Labels {_}.
Arguments o_Annotations {_}.
Arguments o_OwnerReferences {_}.
Arguments o_ResourceVersion {_}.
Arguments o_Body {_}.

#[export] Instance ServicePort_eq_dec `{EqDecision Spec} : EqDecision (ServicePort Spec).
Proof. solve_decision. Defined.
#[export] Instance NetworkPolicySpec_eq_dec `{EqDecision Spec} : EqDecision (NetworkPolicySpec Spec).
Proof. solve_decision. Defined.
#[export] Instance ServiceSpec_eq_dec `{EqDecision Spec} : EqDecision (ServiceSpec Spec).
Proof. solve_decision. Defined.
#[export] Instance Body_eq_dec `{EqDecision Spec} : EqDecision (Body Spec).
Proof. solve_decision. Defined.
#[export] Instance Object_eq_dec `{EqDecision Spec} : EqDecision (Object Spec).
Proof. solve_decision. Defined.

Definition set_Labels {Spec} (l : gmap string string) (o : Object Spec) : Object Spec :=
  mkObject (o_Namespace o) (o_Name o) l (o_Annotations o) (o_OwnerReferences o) (o_ResourceVersion o) (o_Body o).
Definition set_Annotations {Spec} (a : gmap string string) (o : Object Spec) : Object Spec :=
  mkObject (o_Namespace o) (o_Name o) (o_Labels o) a (o_OwnerReferences o) (o_ResourceVersion o) (o_Body o).
Definition set_OwnerReferences {Spec} (r : list OwnerReference) (o : Object Spec) : Object Spec :=
  mkObject (o_Namespace o) (o_Name o) (o_Labels o) (o_Annotations o) r (o_ResourceVersion o) (o_Body o).
Definition set_ResourceVersion {Spec} (v : string) (o : Object Spec) : Object Spec :=
  mkObject (o_Namespace o) (o_Name o) (o_Labels o) (o_Annotations o) (o_OwnerReferences o) v (o_Body o).
Definition set_Body {Spec} (b : Body Spec) (o : Object Spec) : Object Spec :=
  mkObject (o_Namespace o) (o_Name o) (o_Labels o) (o_Annotations o) (o_OwnerReferences o) (o_ResourceVersion o) b.

(** ** Owner, labels and owner reference *)

(** A DatadogAgent or a DatadogAgentInternal.  [own_GVK] is
    [apiutil.GVKForObject]; [own_CommonLabels] is [None] for a nil [Spec.Global]. *)
Record Owner := mkOwner {
  own_Namespace : string;
  own_Name : string;
  own_UID : string;
  own_GVK : GroupVersionKind + error;
  own_Labels : gmap string string;
  own_CommonLabels : option (gmap string string)
}.

Definition DatadogAgentNameLabelKey : string := "agent.datadoghq.com/datadogagent".

(** The DatadogAgent's name, from the label of a DatadogAgentInternal. *)
Definition GetDDAName (labels : gmap string string) (name : string) : string :=
  match labels !! DatadogAgentNameLabelKey with
  | Some val => if bool_decide (val = "") then name else val
  | None => name
  end.

(** *** The part-of label *)

Definition dash : ascii := "-"%char.

(** [strings.ReplaceAll(s, "-", "--")] *)
Definition partOfEscape (s : string) : string := ReplaceAllChar dash "--" s.

(** [strings.ReplaceAll(s, "--", "-")]: from the left, without overlap. *)
Fixpoint partOfUnescape (s : string) : string :=
  match s with
  | String a s1 =>
      match s1 with
      | String b s2 => if decide (a = dash ∧ b = dash) then String dash (partOfUnescape s2)
                       else String a (partOfUnescape s1)
      | EmptyString => String a EmptyString
      end
  | EmptyString => EmptyString
  end.

(** The value for an object with this namespace, these labels and this name. *)
Definition NewPartOfLabelValue (namespace : string) (labels : gmap string string) (name : string) : string :=
  partOfEscape namespace +:+ "-" +:+ partOfEscape (GetDDAName labels name).

(** The text before and after the first lone dash that is neither the first nor
    the last character; [before] is what was read, [prev] its last character. *)
Fixpoint partOfSplit (before : string) (prev : option ascii) (s : string) : option (string * string) :=
  match s with
  | EmptyString => None
  | String c s' =>
      if bool_decide (c = dash)
         && match prev with Some p => negb (bool_decide (p = dash)) | None => false end
         && match s' with String n _ => negb (bool_decide (n = dash)) | EmptyString => false end
      then Some (before, s')
      else partOfSplit (before +:+ String c EmptyString) (Some c) s'
  end.

(** Namespace and name; both empty when there is no lone dash. *)
Definition PartOf_NamespacedName (value : string) : string * string :=
  match partOfSplit "" None value with
  | Some (ns, name) => (partOfUnescape ns, partOfUnescape name)
  | None => ("", "")
  end.

(** *** Default labels and annotations *)

Definition AppKubernetesInstanceLabelKey : string := "app.kubernetes.io/instance".
Definition AppKubernetesManageByLabelKey : string := "app.kubernetes.io/managed-by".
Definition AppKubernetesNameLabelKey : string := "app.kubernetes.io/name".
Definition AppKubernetesPartOfLabelKey : string := "app.kubernetes.io/part-of".
Definition AppKubernetesVersionLabelKey : string := "app.kubernetes.io/version".
Definition DatadogTagPrefix : string := "tags.datadoghq.com".

Definition reservedLabelPrefixes : list string := ["agent.datadoghq.com/"; "operator.datadoghq.com/"; "datadoghq.com/"].

Definition isReservedLabelKey (key : string) : bool := ContainsFunc (HasPrefix key) reservedLabelPrefixes.

Definition getCommonLabels (dda : Owner) : gmap string string :=
  filter (λ '(k, _), isReservedLabelKey k = false) (default ∅ (own_CommonLabels dda)).

Definition GetDefaultLabels (dda : Owner) (instanceName version : string) : gmap string string :=
  let labels : gmap string string :=
    <[AppKubernetesManageByLabelKey := "datadog-operator"]>
    (<[AppKubernetesVersionLabelKey := version]>
    (<[AppKubernetesPartOfLabelKey := NewPartOfLabelValue (own_Namespace dda) (own_Labels dda) (own_Name dda)]>
    (<[AppKubernetesInstanceLabelKey := instanceName]>
    (<[AppKubernetesNameLabelKey := "datadog-agent-deployment"]> ∅)))) in
  let labels := filter (λ '(k, _), HasPrefix k DatadogTagPrefix = true) (own_Labels dda) ∪ labels in
  labels ∪ getCommonLabels dda.

Definition GetDefaultAnnotations (dda : Owner) : gmap string string := ∅.

Definition GetAgentVersion (dda : Owner) : string := "".

Section Glob.
(** [glob.Compile]: the matcher of a filter, or an error. *)
Context (glob_Compile : string → (string → bool) + error).

Definition MergeAnnotationsLabels (previousVal newVal : gmap string string) (filter_ : string) : gmap string string :=
  let globFilter := if bool_decide (filter_ = "") then None
                    else match glob_Compile filter_ with inl g => Some g | inr _ => None end in
  newVal ∪ filter (λ '(k, _), match globFilter with Some g => g k | None => false end || Contains k "datadoghq.com" = true)
             previousVal.
End Glob.

(** *** Owner reference *)

Section OwnerRef.
(** [schema.ParseGroupVersion] *)
Context (ParseGroupVersion : string → (string * string) + error).

Definition referSameObject (a b : OwnerReference) : bool :=
  match ParseGroupVersion (or_APIVersion a), ParseGroupVersion (or_APIVersion b) with
  | inl aGV, inl bGV =>
      bool_decide (aGV = bGV) && bool_decide (or_Kind a = or_Kind b) && bool_decide (or_Name a = or_Name b)
  | _, _ => false
  end.

(** The last position where [f] holds. *)
Fixpoint lastIndex {A : Type} (f : A → bool) (i : nat) (l : list A) : option nat :=
  match l with
  | [] => None
  | x :: l =>
      match lastIndex f (S i) l with
      | Some j => Some j
      | None => if f x then Some i else None
      end
  end.

Definition newOwnerRef (owner : Owner) (gvk : GroupVersionKind) : OwnerReference :=
  NewControllerRef (own_Name owner) (own_UID owner) gvk.

Definition SetOwnerReference {Spec} (owner : Owner) (obj : Object Spec) : Object Spec + error :=
  match own_GVK owner with
  | inr e => inr e
  | inl gvk =>
      let ref := newOwnerRef owner gvk in
      let existingRefs := o_OwnerReferences obj in
      inl (set_OwnerReferences
             (match lastIndex (referSameObject ref) 0 existingRefs with
              | None => existingRefs ++ [ref]
              | Some fi => <[fi := ref]> existingRefs
              end) obj)
  end.
End OwnerRef.

Section Bodies.
Context {Spec : Type} `{EqDecision Spec}.
(** the zero value of a field of the Kubernetes API *)
Context (zeroSpec : Spec).

Definition zeroServiceSpec : ServiceSpec Spec := mkServiceSpec ∅ [] "" None "" [].

(** [None] for an unknown kind. *)
Definition ObjectFromKind (kind : string) (platformInfo : PlatformInfo) : option (Body Spec) :=
  if bool_decide (kind = ConfigMapKind) then Some (ConfigMap None None)
  else if bool_decide (kind = ClusterRolesKind) then Some (ClusterRole [])
  else if bool_decide (kind = ClusterRoleBindingKind) then Some (ClusterRoleBinding (mkRoleRef "" "" "") [])
  else if bool_decide (kind = RolesKind) then Some (Role [])
  else if bool_decide (kind = RoleBindingKind) then Some (RoleBinding (mkRoleRef "" "" "") [])
  else if bool_decide (kind = ValidatingWebhookConfigurationsKind) then Some (ValidatingWebhookConfiguration [])
  else if bool_decide (kind = MutatingWebhookConfigurationsKind) then Some (MutatingWebhookConfiguration [])
  else if bool_decide (kind = APIServiceKind) then Some (APIService zeroSpec)
  else if bool_decide (kind = SecretsKind) then Some (Secret None)
  else if bool_decide (kind = ServicesKind) then Some (Service zeroServiceSpec)
  else if bool_decide (kind = ServiceAccountsKind) then Some ServiceAccount
  else if bool_decide (kind = PodDisruptionBudgetsKind) then Some (PodDisruptionBudget (UseV1Beta1PDB platformInfo) zeroSpec)
  else if bool_decide (kind = NetworkPoliciesKind) then Some (NetworkPolicy (mkNetworkPolicySpec zeroSpec [] [] []))
  else if bool_decide (kind = CiliumNetworkPoliciesKind) then Some (CiliumNetworkPolicy [])
  else if bool_decide (kind = NodeKind) then Some Node
  else None.

(** ** Equality *)

Definition IsEqualOperatorAnnotations (a b : Object Spec) : bool := bool_decide (o_Annotations a = o_Annotations b).

Definition IsEqualOperatorLabels (a b : Object Spec) : bool := bool_decide (o_Labels a = o_Labels b).

Definition IsEqualOperatorObjectMeta (a b : Object Spec) : bool :=
  if negb (bool_decide (o_Name a = o_Name b)) || negb (bool_decide (o_Namespace a = o_Namespace b)) then false
  else bool_decide (o_OwnerReferences a = o_OwnerReferences b) && IsEqualOperatorAnnotations a b
       && IsEqualOperatorLabels a b.

(** [apiutils.IsEqualStruct] on maps of strings: their JSON, so that a nil map
    and an empty one differ. *)
Definition IsEqualStruct (a b : option (gmap string string)) : bool := bool_decide (a = b).

(** [BinaryData] is compared with itself. *)
Definition IsEqualConfigMap (a b : Body Spec) : bool :=
  match a, b with
  | ConfigMap dataA binaryA, ConfigMap dataB binaryB =>
      if negb (IsEqualStruct dataA dataB) then false
      else if negb (IsEqualStruct binaryA binaryA) then false
      else true
  | _, _ => false
  end.

Definition IsEqualClusterRoles (a b : Body Spec) : bool :=
  match a, b with ClusterRole ra, ClusterRole rb => bool_decide (ra = rb) | _, _ => false end.

Definition IsEqualClusterRoleBinding (a b : Body Spec) : bool :=
  match a, b with
  | ClusterRoleBinding ra sa, ClusterRoleBinding rb sb => bool_decide (ra = rb) && bool_decide (sa = sb)
  | _, _ => false
  end.

Definition IsEqualRoles (a b : Body Spec) : bool :=
  match a, b with Role ra, Role rb => bool_decide (ra = rb) | _, _ => false end.

Definition IsEqualRoleBinding (a b : Body Spec) : bool :=
  match a, b with
  | RoleBinding ra sa, RoleBinding rb sb => bool_decide (ra = rb) && bool_decide (sa = sb)
  | _, _ => false
  end.

Definition IsEqualValidatingWebhookConfigurations (a b : Body Spec) : bool :=
  match a, b with
  | ValidatingWebhookConfiguration wa, ValidatingWebhookConfiguration wb => bool_decide (wa = wb)
  | _, _ => false
  end.

Definition IsEqualMutatingWebhookConfigurations (a b : Body Spec) : bool :=
  match a, b with
  | MutatingWebhookConfiguration wa, MutatingWebhookConfiguration wb => bool_decide (wa = wb)
  | _, _ => false
  end.

Definition IsEqualAPIService (a b : Body Spec) : bool :=
  match a, b with APIService sa, APIService sb => bool_decide (sa = sb) | _, _ => false end.

Definition IsEqualSecrets (a b : Body Spec) : bool :=
  match a, b with Secret da, Secret db => IsEqualStruct da db | _, _ => false end.

(** Only the fields the operator configures. *)
Definition isEqualServiceSpec (a b : ServiceSpec Spec) : bool :=
  bool_decide (svc_Selector a = svc_Selector b) && bool_decide (svc_Ports a = svc_Ports b)
  && bool_decide (svc_InternalTrafficPolicy a = svc_InternalTrafficPolicy b).

Definition IsEqualServices (a b : Body Spec) : bool :=
  match a, b with Service sa, Service sb => isEqualServiceSpec sa sb | _, _ => false end.

Definition IsEqualServiceAccounts (a b : Body Spec) : bool :=
  match a, b with ServiceAccount, ServiceAccount => true | _, _ => false end.

Definition IsEqualPodDisruptionBudgets (a b : Body Spec) : bool :=
  match a, b with
  | PodDisruptionBudget va sa, PodDisruptionBudget vb sb => bool_decide (va = vb) && bool_decide (sa = sb)
  | _, _ => false
  end.

Definition IsEqualNetworkPolicies (a b : Body Spec) : bool :=
  match a, b with NetworkPolicy sa, NetworkPolicy sb => bool_decide (sa = sb) | _, _ => false end.

(** The [specs] of an object's unstructured content: only a Cilium policy has
    the field. *)
Definition unstructuredSpecs (b : Body Spec) : list Spec :=
  match b with CiliumNetworkPolicy specs => specs | _ => [] end.

Definition IsEqualCiliumNetworkPolicies (a b : Body Spec) : bool :=
  bool_decide (unstructuredSpecs a = unstructuredSpecs b).

Definition IsEqualObject (kind : string) (a b : Object Spec) : bool :=
  if negb (IsEqualOperatorObjectMeta a b) then false
  else if bool_decide (kind = ConfigMapKind) then IsEqualConfigMap (o_Body a) (o_Body b)
  else if bool_decide (kind = ClusterRolesKind) then IsEqualClusterRoles (o_Body a) (o_Body b)
  else if bool_decide (kind = ClusterRoleBindingKind) then IsEqualClusterRoleBinding (o_Body a) (o_Body b)
  else if bool_decide (kind = RolesKind) then IsEqualRoles (o_Body a) (o_Body b)
  else if bool_decide (kind = RoleBindingKind) then IsEqualRoleBinding (o_Body a) (o_Body b)
  else if bool_decide (kind = ValidatingWebhookConfigurationsKind) then IsEqualValidatingWebhookConfigurations (o_Body a) (o_Body b)
  else if bool_decide (kind = MutatingWebhookConfigurationsKind) then IsEqualMutatingWebhookConfigurations (o_Body a) (o_Body b)
  else if bool_decide (kind = APIServiceKind) then IsEqualAPIService (o_Body a) (o_Body b)
  else if bool_decide (kind = SecretsKind) then IsEqualSecrets (o_Body a) (o_Body b)
  else if bool_decide (kind = ServicesKind) then IsEqualServices (o_Body a) (o_Body b)
  else if bool_decide (kind = ServiceAccountsKind) then IsEqualServiceAccounts (o_Body a) (o_Body b)
  else if bool_decide (kind = PodDisruptionBudgetsKind) then IsEqualPodDisruptionBudgets (o_Body a) (o_Body b)
  else if bool_decide (kind = NetworkPoliciesKind) then IsEqualNetworkPolicies (o_Body a) (o_Body b)
  else if bool_decide (kind = CiliumNetworkPoliciesKind) then IsEqualCiliumNetworkPolicies (o_Body a) (o_Body b)
  else false.

(** ** Preprocessing *)

Definition normalizeIfAny (rules : list PolicyRule) : list PolicyRule :=
  match rules with [] => [] | _ => NormalizePolicyRules rules end.

Definition preprocessClusterRole (objStore : Object Spec) (objAPIServer : option (Object Spec)) : Object Spec + error :=
  match o_Body objStore with
  | ClusterRole rules => inl (set_Body (ClusterRole (normalizeIfAny rules)) objStore)
  | _ => inr (Errorf "expected *rbacv1.ClusterRole")
  end.

Definition preprocessRole (objStore : Object Spec) (objAPIServer : option (Object Spec)) : Object Spec + error :=
  match o_Body objStore with
  | Role rules => inl (set_Body (Role (normalizeIfAny rules)) objStore)
  | _ => inr (Errorf "expected *rbacv1.Role")
  end.

(** The cluster addresses of a service are immutable and kept. *)
Definition preprocessService (objStore : Object Spec) (objAPIServer : option (Object Spec)) : Object Spec + error :=
  match o_Body objStore with
  | Service s =>
      match objAPIServer with
      | None => inl objStore
      | Some api =>
          match o_Body api with
          | Service sAPI =>
              inl (set_ResourceVersion (o_ResourceVersion api)
                     (set_Body (Service (mkServiceSpec (svc_Selector s) (svc_Ports s) (svc_Type s)
                        (svc_InternalTrafficPolicy s) (svc_ClusterIP sAPI) (svc_ClusterIPs sAPI))) objStore))
          | _ => inr (Errorf "expected *v1.Service from API server")
          end
      end
  | _ => inr (Errorf "expected *v1.Service")
  end.

Definition preprocessResourceVersion (objStore : Object Spec) (objAPIServer : option (Object Spec)) : Object Spec + error :=
  match objAPIServer with
  | Some api => inl (set_ResourceVersion (o_ResourceVersion api) objStore)
  | None => inl objStore
  end.

Definition applyPreprocessing (kind : string) (objStore : Object Spec) (objAPIServer : option (Object Spec)) :
    Object Spec + error :=
  if bool_decide (kind = ClusterRolesKind) then preprocessClusterRole objStore objAPIServer
  else if bool_decide (kind = RolesKind) then preprocessRole objStore objAPIServer
  else if bool_decide (kind = ServicesKind) then preprocessService objStore objAPIServer
  else if bool_decide (kind = APIServiceKind) then preprocessResourceVersion objStore objAPIServer
  else if bool_decide (kind = CiliumNetworkPoliciesKind) then preprocessResourceVersion objStore objAPIServer
  else if bool_decide (kind = PodDisruptionBudgetsKind) then preprocessResourceVersion objStore objAPIServer
  else inl objStore.
End Bodies.
