(* ===== verification/Store.v ===== *)
(** * The dependencies store.

    Models [internal/controller/datadogagent/store/store.go]: the objects the
    agents depend on, kept by kind and identifier, applied to the API server and
    cleaned up from it.

    A stored object is a pointer that the resource managers and [Apply] also
    write through.  An [AddOrUpdate] that fails after such a write fails because
    of the owner and the kind alone, so that no object of that kind was stored
    before; and nothing reads the stored objects after [Apply] but by their
    identifiers.  Stored values therefore stand for the pointers. *)

From Stdlib Require Import ZArith Ascii.
From stdpp Require Import base gmap strings list.
From S2P Require Import Prelude Cluster Objects.

(** ** Identifiers *)

Definition slash : ascii := "/"%char.

Definition buildID (ns name : string) : string :=
  if bool_decide (ns = "") then name else ns +:+ "/" +:+ name.

Definition buildObjectKey (key : string) : string * string :=
  match SplitChar slash key with
  | ns :: name :: _ => (ns, name)
  | _ => ("", key)
  end.

Definition OperatorStoreLabelKey : string := "operator.datadoghq.com/managed-by-store".
Definition ManagedByDDAControllerLabelKey : string := "operator.datadoghq.com/managed-by-dda-controller".

Definition shouldSetOwnerReference (kind objNamespace ownerNamespace : string) : bool :=
  if bool_decide (kind = ClusterRoleBindingKind) then false
  else if bool_decide (kind = ClusterRolesKind) then false
  else if bool_decide (kind = APIServiceKind) then false
  else if negb (bool_decide (objNamespace = "")) && negb (bool_decide (ownerNamespace = ""))
          && negb (bool_decide (objNamespace = ownerNamespace)) then false
  else true.

(** ** The client *)

Class ObjectClient (W Spec : Type) := {
  client_GetObject : string → string * string → GoM W (Object Spec);
  client_CreateObject : string → Object Spec → GoM W unit;
  client_UpdateObject : string → Object Spec → GoM W unit;
  client_DeleteObject : string → string * string → GoM W unit;
  (** the objects of a kind that have all the labels *)
  client_ListObjects : string → list string → GoM W (list (Object Spec))
}.

(** ** The store *)

Record Store (Spec : Type) := mkStore {
  deps : gmap string (gmap string (Object Spec));
  supportCilium : bool;
  platformInfo : PlatformInfo;
  isDDAControllerStore : bool;
  owner : option Owner
}.
Arguments mkStore {_}.
Arguments deps {_}.
Arguments supportCilium {_}.
Arguments platformInfo {_}.
Arguments isDDAControllerStore {_}.
Arguments owner {_}.

Section Store.
Context {W Spec : Type} `{ObjectClient W Spec} `{EqDecision Spec}.
Context (zeroSpec : Spec).
Context (ParseGroupVersion : string → (string * string) + error).

Record StoreOptions := mkStoreOptions {
  opt_SupportCilium : bool;
  opt_PlatformInfo : PlatformInfo;
  opt_IsDDAControllerStore : bool
}.

(** [None] for nil options. *)
Definition NewStore (own : option Owner) (options : option StoreOptions) : Store Spec :=
  match options with
  | Some o => mkStore ∅ (opt_SupportCilium o) (opt_PlatformInfo o) (opt_IsDDAControllerStore o) own
  | None => mkStore ∅ false (mkPlatformInfo ∅ ∅) false own
  end.

Definition set_deps (d : gmap string (gmap string (Object Spec))) (ds : Store Spec) : Store Spec :=
  mkStore d (supportCilium ds) (platformInfo ds) (isDDAControllerStore ds) (owner ds).

(** The labels, annotations and owner reference given to an object. *)
Definition decorate (ds : Store Spec) (kind : string) (obj : Object Spec) : Object Spec + error :=
  let obj := set_Labels (<[OperatorStoreLabelKey := "true"]> (o_Labels obj)) obj in
  let obj := if isDDAControllerStore ds
             then set_Labels (<[ManagedByDDAControllerLabelKey := "true"]> (o_Labels obj)) obj else obj in
  match owner ds with
  | None => inl obj
  | Some own =>
      let obj := set_Labels (GetDefaultLabels own (own_Name own) (GetAgentVersion own) ∪ o_Labels obj) obj in
      let obj := set_Annotations (GetDefaultAnnotations own ∪ o_Annotations obj) obj in
      if shouldSetOwnerReference kind (o_Namespace obj) (own_Namespace own)
      then match SetOwnerReference ParseGroupVersion own obj with
           | inr e => inr (Wrapf "store.AddOrUpdate" e)
           | inl obj => inl obj
           end
      else inl obj
  end.

(** With the error, if any; the map of the kind is made first. *)
Definition AddOrUpdate (ds : Store Spec) (kind : string) (obj : Object Spec) : Store Spec * option error :=
  let id := buildID (o_Namespace obj) (o_Name obj) in
  let objs := default ∅ (deps ds !! kind) in
  match decorate ds kind obj with
  | inr e => (set_deps (<[kind := objs]> (deps ds)) ds, Some e)
  | inl obj => (set_deps (<[kind := <[id := obj]> objs]> (deps ds)) ds, None)
  end.

Definition AddOrUpdateStore (ds : Store Spec) (kind : string) (obj : Object Spec) : Store Spec :=
  (AddOrUpdate ds kind obj).1.

Definition Get (ds : Store Spec) (kind namespace name : string) : option (Object Spec) :=
  objs ← deps ds !! kind; objs !! buildID namespace name.

(** A kind without a Go type makes it panic. *)
Definition GetOrCreate (ds : Store Spec) (kind namespace name : string) : outcome (Object Spec * bool) :=
  match Get ds kind namespace name with
  | Some obj => Ret (obj, true)
  | None =>
      match ObjectFromKind zeroSpec kind (platformInfo ds) with
      | Some body => Ret (mkObject namespace name ∅ ∅ [] "" body, false)
      | None => Panic
      end
  end.

Definition Delete (ds : Store Spec) (kind namespace name : string) : Store Spec * bool :=
  match Get ds kind namespace name with
  | Some _ => (set_deps (alter (delete (buildID namespace name)) kind (deps ds)) ds, true)
  | None => (ds, false)
  end.

(** *** Apply *)

(** What one stored object needs: to be created, to be updated, nothing, or an error. *)
Inductive Plan := PlanCreate (obj : Object Spec) | PlanUpdate (obj : Object Spec) | PlanNone | PlanError (e : error).

Definition planObject (kind objID : string) (objStore : Object Spec) : GoM W Plan :=
  g ← attempt (client_GetObject kind (buildObjectKey objID));
  match g with
  | inr e =>
      if IsNotFound e
      then mret (match applyPreprocessing kind objStore None with
                 | inr e => PlanError e
                 | inl obj => PlanCreate obj
                 end)
      else mret (PlanError e)
  | inl objAPIServer =>
      mret (match applyPreprocessing kind objStore (Some objAPIServer) with
            | inr e => PlanError e
            | inl obj => if IsEqualObject kind obj objAPIServer then PlanNone else PlanUpdate obj
            end)
  end.

(** A loop that collects the errors of its iterations. *)
Fixpoint collect {A : Type} (f : A → GoM W unit) (l : list A) : GoM W (list error) :=
  match l with
  | [] => mret []
  | x :: l => r ← attempt (f x); errs ← collect f l; mret (match r with inr e => e :: errs | inl _ => errs end)
  end.

Fixpoint planAll (l : list (string * string * Object Spec)) : GoM W (list (string * Plan)) :=
  match l with
  | [] => mret []
  | (kind, objID, obj) :: l => p ← planObject kind objID obj; ps ← planAll l; mret ((kind, p) :: ps)
  end.

(** The stored objects, in the order the maps are ranged over. *)
Definition storedObjects (ds : Store Spec) : list (string * string * Object Spec) :=
  '(kind, objs) ← map_to_list (deps ds); (λ '(i, o), (kind, i, o)) <$> map_to_list objs.

(** [objsToCreate], [objsToUpdate] and the errors of the plans. *)
Definition isCreate (p : Plan) : option (Object Spec) := match p with PlanCreate o => Some o | _ => None end.
Definition isUpdate (p : Plan) : option (Object Spec) := match p with PlanUpdate o => Some o | _ => None end.
Definition planErrors (plans : list (string * Plan)) : list error :=
  omap (λ kp : string * Plan, match kp.2 with PlanError e => Some e | _ => None end) plans.
Definition selected (sel : Plan → option (Object Spec)) (plans : list (string * Plan)) : list (string * Object Spec) :=
  omap (λ kp : string * Plan, q ← sel kp.2; Some (kp.1, q)) plans.

Definition Apply (ds : Store Spec) : GoM W (list error) :=
  plans ← planAll (storedObjects ds);
  createErrs ← collect (λ '(k, o), client_CreateObject k o) (selected isCreate plans);
  updateErrs ← collect (λ '(k, o), client_UpdateObject k o) (selected isUpdate plans);
  mret (planErrors plans ++ createErrs ++ updateErrs).

(** *** Cleanup *)

(** A listed object is a candidate when it is not in the store, is not left to
    the DatadogAgent controller and has a part-of label. *)
Definition candidate (ds : Store Spec) (kind : string) (exclude : bool) (obj : Object Spec) : option string :=
  match Get ds kind (o_Namespace obj) (o_Name obj) with
  | Some _ => None
  | None =>
      if exclude && bool_decide (is_Some (o_Labels obj !! ManagedByDDAControllerLabelKey)) then None
      else o_Labels obj !! AppKubernetesPartOfLabelKey
  end.

(** The candidates that belong to the owner, by its name and namespace without its
    labels; a nil owner is dereferenced for any candidate. *)
Definition listObjectToDelete (ds : Store Spec) (kind : string) (objList : list (Object Spec)) (exclude : bool) :
    outcome (list (string * string)) :=
  match owner ds with
  | Some own =>
      Ret ((λ o, (o_Namespace o, o_Name o)) <$>
           filter (λ o, candidate ds kind exclude o
                        = Some (NewPartOfLabelValue (own_Namespace own) ∅ (own_Name own))) objList)
  | None => if ContainsFunc (λ o, bool_decide (is_Some (candidate ds kind exclude o))) objList then Panic else Ret []
  end.

Definition deleteObjects (kind : string) (objsToDelete : list (string * string)) : GoM W (list error) :=
  collect (λ key,
    d ← attempt (client_DeleteObject kind key);
    match d with
    | inr e => if IsNotFound e || IsGone e then mret tt else fail e
    | inl _ => mret tt
    end) objsToDelete.

Definition cleanupLabels (ds : Store Spec) : list string :=
  if isDDAControllerStore ds then [OperatorStoreLabelKey; ManagedByDDAControllerLabelKey] else [OperatorStoreLabelKey].

Fixpoint cleanupKinds (ds : Store Spec) (exclude : bool) (kinds : list string) : GoM W (list error) :=
  match kinds with
  | [] => mret []
  | kind :: kinds =>
      l ← attempt (client_ListObjects kind (cleanupLabels ds));
      errs ← match l with
             | inr e => mret [e]
             | inl objList =>
                 match listObjectToDelete ds kind objList exclude with
                 | Ret objsToDelete => deleteObjects kind objsToDelete
                 | Fail e => mret [e]
                 | Panic => panic
                 end
             end;
      rest ← cleanupKinds ds exclude kinds;
      mret (errs ++ rest)
  end.

Definition Cleanup (ds : Store Spec) (excludeDDAManagedResources : bool) : GoM W (list error) :=
  cleanupKinds ds excludeDDAManagedResources (getResourcesKind (supportCilium ds)).

(** The stored objects of each kind that the API server has. *)
Fixpoint listAll (ds : Store Spec) (kinds : list string) : GoM W (list (string * (string * string)) + error) :=
  match kinds with
  | [] => mret (inl [])
  | kind :: kinds =>
      l ← attempt (client_ListObjects kind [OperatorStoreLabelKey]);
      match l with
      | inr e => mret (inr e)
      | inl items =>
          rest ← listAll ds kinds;
          mret (match rest with
                | inr e => inr e
                | inl rest =>
                    inl (((λ o, (kind, (o_Namespace o, o_Name o))) <$>
                          filter (λ o, is_Some (Get ds kind (o_Namespace o) (o_Name o))) items) ++ rest)
                end)
      end
  end.

Definition DeleteAll (ds : Store Spec) : GoM W (list error) :=
  l ← listAll ds (getResourcesKind (supportCilium ds));
  match l with
  | inr e => mret [e]
  | inl objs =>
      collect (λ '(kind, key),
        d ← attempt (client_DeleteObject kind key);
        match d with
        | inr e => if IsNotFound e || IsGone e then mret tt else fail e
        | inl _ => mret tt
        end) objs
  end.
End Store.
