(* ===== verification/StoreTheorems.v ===== *)
(** * Properties of the dependencies store.

    Identifiers and part-of labels are read back as written, lookups after
    updates, and what a cleanup may delete. *)

From Stdlib Require Import ZArith Lia Ascii.
From stdpp Require Import base gmap strings list.
From S2P Require Import Prelude Cluster Rbac Objects Store.

(** ** Identifiers *)

(** An object's identifier is read back as its namespace and name. *)
Lemma buildObjectKey_buildID ns name :
  ContainsChar slash ns = false → ContainsChar slash name = false →
  buildObjectKey (buildID ns name) = (ns, name).
Proof.
  intros Hns Hname. unfold buildObjectKey, buildID. case_bool_decide as He.
  - subst ns. by rewrite SplitChar_no_sep.
  - change (ns +:+ "/" +:+ name) with (ns +:+ String slash name).
    by rewrite SplitChar_app_sep, SplitChar_no_sep.
Qed.

Lemma buildID_inj ns name ns' name' :
  ContainsChar slash ns = false → ContainsChar slash name = false →
  ContainsChar slash ns' = false → ContainsChar slash name' = false →
  buildID ns name = buildID ns' name' → (ns, name) = (ns', name').
Proof. intros. rewrite <-(buildObjectKey_buildID ns name), <-(buildObjectKey_buildID ns' name') by done. congruence. Qed.

(** ** The part-of label *)

Lemma partOfEscape_cons c s :
  partOfEscape (String c s) = if decide (c = dash) then String dash (String dash (partOfEscape s))
                              else String c (partOfEscape s).
Proof. unfold partOfEscape. simpl. by case_decide. Qed.

Lemma partOfUnescape_escape s : partOfUnescape (partOfEscape s) = s.
Proof.
  induction s as [|c s IH]; [done|]. rewrite partOfEscape_cons. case_decide as Hc.
  - subst c. cbn [partOfUnescape]. rewrite decide_True by done. by rewrite IH.
  - assert (Hcons : ∀ t, partOfUnescape (String c t) = String c (partOfUnescape t)).
    { intros [|d t]; [done|]. cbn [partOfUnescape]. rewrite decide_False by naive_solver. done. }
    by rewrite Hcons, IH.
Qed.

(** The last character of an escaped string, when there is one. *)
Fixpoint lastOr (prev : option ascii) (s : string) : option ascii :=
  match s with
  | EmptyString => prev
  | String c s => lastOr (Some c) s
  end.

(** An escaped string has no lone dash to split at. *)
Lemma partOfSplit_escape s before prev rest :
  partOfSplit before prev (partOfEscape s +:+ rest) = partOfSplit (before +:+ partOfEscape s) (lastOr prev s) rest.
Proof.
  revert before prev. induction s as [|c s IH]; intros before prev.
  { rewrite string_app_nil_l. unfold partOfEscape. simpl. by rewrite string_app_nil_r. }
  rewrite partOfEscape_cons. case_decide as Hc.
  - subst c. rewrite !string_app_cons.
    assert (Hnext : ∀ b p t, partOfSplit b p (String dash (String dash t)) =
      partOfSplit (b +:+ "--") (Some dash) t).
    { intros b p t. simpl. rewrite andb_false_r. simpl. f_equal. by rewrite string_app_assoc. }
    rewrite Hnext, IH. cbn [lastOr]. by rewrite string_app_assoc.
  - rewrite string_app_cons.
    assert (Hnext : ∀ b p t, partOfSplit b p (String c t) = partOfSplit (b +:+ String c "") (Some c) t).
    { intros b p t. cbn [partOfSplit]. by rewrite (bool_decide_false (c = dash)). }
    rewrite Hnext, IH. cbn [lastOr]. by rewrite string_app_assoc.
Qed.

(** As in an RFC 1123 name: no dash at either end. *)
Definition startsPlain (s : string) : Prop := ∃ c s', s = String c s' ∧ c ≠ dash.
Definition endsPlain (s : string) : Prop := ∃ c, lastOr None s = Some c ∧ c ≠ dash.

(** The part-of label is decoded to the namespace and name it was built
    from, whatever dashes they contain, for namespaces that do not end and names
    that do not start with one: two DatadogAgents never share a label, and a
    cleanup by label never reaches the objects of another one. *)
Theorem part_of_roundtrip ns labels name :
  endsPlain ns → startsPlain (GetDDAName labels name) →
  PartOf_NamespacedName (NewPartOfLabelValue ns labels name) = (ns, GetDDAName labels name).
Proof.
  unfold NewPartOfLabelValue. generalize (GetDDAName labels name) as dda. intros dda (l & Hl & Hld) (c & s' & -> & Hc). unfold PartOf_NamespacedName.
  rewrite partOfSplit_escape, Hl, string_app_nil_l.
  change ("-" +:+ partOfEscape (String c s')) with (String dash (partOfEscape (String c s'))).
  rewrite partOfEscape_cons, decide_False by done. cbn [partOfSplit].
  rewrite bool_decide_true, !bool_decide_false by done. cbn [negb andb].
  rewrite partOfUnescape_escape. f_equal.
  pose proof (partOfUnescape_escape (String c s')) as Hu. by rewrite partOfEscape_cons, decide_False in Hu.
Qed.

(** ** The object API *)

Abbreviation ObjectsView Spec := (gmap (string * (string * string)) (Object Spec)).

Definition has_labels {Spec : Type} (labels : list string) (o : Object Spec) : Prop :=
  ∀ k, k ∈ labels → is_Some (o_Labels o !! k).

Definition key_of {Spec : Type} (o : Object Spec) : string * string := (o_Namespace o, o_Name o).

(** The API as documented: a read is exact, an object is read back as written but
    for the resource version the server gives it, a failed write changes nothing,
    and one that fails as not found or gone has no object to delete. *)
Class SoundObjectClient (W Spec : Type) `{ObjectClient W Spec} := {
  oview : W → ObjectsView Spec;
  sound_GetObject kind key w :
    match client_GetObject kind key w with
    | (w', Ret o) => oview w' = oview w ∧ oview w !! (kind, key) = Some o
    | (w', Fail e) => oview w' = oview w ∧ (IsNotFound e = true → oview w !! (kind, key) = None)
    | (_, Panic) => False
    end;
  sound_CreateObject kind o w :
    match client_CreateObject kind o w with
    | (w', Ret _) => ∃ rv, oview w' = <[(kind, key_of o) := set_ResourceVersion rv o]> (oview w)
    | (w', Fail _) => oview w' = oview w
    | (_, Panic) => False
    end;
  sound_UpdateObject kind o w :
    match client_UpdateObject kind o w with
    | (w', Ret _) => ∃ rv, oview w' = <[(kind, key_of o) := set_ResourceVersion rv o]> (oview w)
    | (w', Fail _) => oview w' = oview w
    | (_, Panic) => False
    end;
  sound_ListObjects kind labels w :
    match client_ListObjects kind labels w with
    | (w', Ret l) => oview w' = oview w ∧
        ∀ o, o ∈ l ↔ oview w !! (kind, key_of o) = Some o ∧ has_labels labels o
    | (w', Fail _) => oview w' = oview w
    | (_, Panic) => False
    end;
  sound_DeleteObject kind key w :
    match client_DeleteObject kind key w with
    | (w', Ret _) => oview w' = delete (kind, key) (oview w)
    | (w', Fail e) => oview w' = oview w ∧ (IsNotFound e || IsGone e = true → oview w !! (kind, key) = None)
    | (_, Panic) => False
    end
}.

Section Cleanup.
Context {W Spec : Type} `{SoundObjectClient W Spec}.
Implicit Types ds : Store Spec.
Implicit Types o : Object Spec.

(** The objects a cleanup of the store is meant to delete: they carry the label
    of every store, that of the DatadogAgent controller's if the store is its, and
    are part of the store's DatadogAgent; the store does not hold them; and they
    are not the other controller's, if those are to be left alone. *)
Definition orphan ds (exclude : bool) (kind : string) o : Prop :=
  is_Some (o_Labels o !! "operator.datadoghq.com/managed-by-store") ∧
  (isDDAControllerStore ds = true → is_Some (o_Labels o !! "operator.datadoghq.com/managed-by-dda-controller")) ∧
  Get ds kind (o_Namespace o) (o_Name o) = None ∧
  (exclude = true → o_Labels o !! ManagedByDDAControllerLabelKey = None) ∧
  ∃ own, owner ds = Some own ∧
         o_Labels o !! AppKubernetesPartOfLabelKey = Some (NewPartOfLabelValue (own_Namespace own) ∅ (own_Name own)).

(** The selector of the lists asks for those labels. *)
Lemma has_cleanupLabels ds o :
  has_labels (cleanupLabels ds) o ↔
  is_Some (o_Labels o !! "operator.datadoghq.com/managed-by-store") ∧
  (isDDAControllerStore ds = true → is_Some (o_Labels o !! "operator.datadoghq.com/managed-by-dda-controller")).
Proof.
  unfold has_labels, cleanupLabels. destruct (isDDAControllerStore ds); setoid_rewrite elem_of_cons;
    setoid_rewrite list_elem_of_singleton || setoid_rewrite elem_of_nil; naive_solver.
Qed.

Lemma candidate_Some ds kind exclude o v :
  candidate ds kind exclude o = Some v ↔
  Get ds kind (o_Namespace o) (o_Name o) = None ∧
  (exclude = true → o_Labels o !! ManagedByDDAControllerLabelKey = None) ∧
  o_Labels o !! AppKubernetesPartOfLabelKey = Some v.
Proof.
  unfold candidate. destruct (Get ds kind (o_Namespace o) (o_Name o)); [naive_solver|].
  destruct exclude; simpl; [|naive_solver].
  destruct (o_Labels o !! ManagedByDDAControllerLabelKey); simpl; naive_solver.
Qed.

Lemma listObjectToDelete_spec ds kind exclude l own :
  owner ds = Some own →
  ∃ keys, listObjectToDelete ds kind l exclude = Ret keys ∧
    ∀ key, key ∈ keys ↔ ∃ o, o ∈ l ∧ key_of o = key ∧
      Get ds kind (o_Namespace o) (o_Name o) = None ∧
      (exclude = true → o_Labels o !! ManagedByDDAControllerLabelKey = None) ∧
      o_Labels o !! AppKubernetesPartOfLabelKey = Some (NewPartOfLabelValue (own_Namespace own) ∅ (own_Name own)).
Proof.
  intros Hown. unfold listObjectToDelete. rewrite Hown. eexists. split; [done|]. intros key.
  rewrite list_elem_of_fmap. setoid_rewrite list_elem_of_filter. setoid_rewrite candidate_Some.
  unfold key_of. naive_solver.
Qed.

(** One deletion of [deleteObjects]. *)
Definition deleteOne (kind : string) (key : string * string) : GoM W unit :=
  d ← attempt (client_DeleteObject kind key);
  match d with
  | inr e => if IsNotFound e || IsGone e then mret tt else fail e
  | inl _ => mret tt
  end.

Lemma deleteOne_spec kind key w :
  match deleteOne kind key w with
  | (w', Ret _) => oview w' = delete (kind, key) (oview w)
  | (w', Fail _) => oview w' = oview w
  | (_, Panic) => False
  end.
Proof.
  unfold deleteOne, attempt, mbind, GoM_bind. pose proof (sound_DeleteObject kind key w) as Hd.
  destruct (client_DeleteObject kind key w) as [w' [[]|e|]]; [done| |done].
  destruct Hd as [Hw Hn]. destruct (IsNotFound e || IsGone e) eqn:E; simpl; [|done].
  rewrite Hw. symmetry. apply delete_id. by apply Hn.
Qed.

(** Deleting a list of keys removes some of them, all of them if there is no
    error, and nothing else. *)
Lemma collect_delete kind keys w :
  ∃ w' errs, collect (deleteOne kind) keys w = (w', Ret errs) ∧
    (∀ k, oview w' !! k = oview w !! k ∨ oview w' !! k = None ∧ ∃ key, key ∈ keys ∧ k = (kind, key)) ∧
    (errs = [] → ∀ key, key ∈ keys → oview w' !! (kind, key) = None).
Proof.
  revert w; induction keys as [|key keys IH]; intros w; simpl.
  { exists w, []. split_and!; [done|by left|set_solver]. }
  pose proof (deleteOne_spec kind key w) as Hd. unfold mbind, GoM_bind, attempt.
  destruct (deleteOne kind key w) as [w1 [[]|e|]]; [| |done].
  - destruct (IH w1) as (w2 & errs & -> & Hk & Hall). exists w2, errs. split_and!; [done| |].
    + intros k. destruct (Hk k) as [Hk'|(Hn & key' & ? & ->)]; [|right; set_solver]. rewrite Hk', Hd.
      destruct (decide (k = (kind, key))) as [->|Hne]; [right|left; by rewrite lookup_delete_ne].
      rewrite lookup_delete_eq. set_solver.
    + intros -> key' [->|Hin]%elem_of_cons; [|by apply Hall].
      destruct (Hk (kind, key)) as [Hk'|[Hn _]]; [|done]. rewrite Hk', Hd. apply lookup_delete_eq.
  - destruct (IH w1) as (w2 & errs & -> & Hk & Hall). exists w2, (e :: errs). split_and!; [done| |done].
    intros k. destruct (Hk k) as [Hk'|(Hn & key' & ? & ->)]; [left; congruence|right; set_solver].
Qed.

(** A kind's turn: only its orphans go, and all of them without an error. *)
Lemma cleanup_kind ds exclude kind own w :
  owner ds = Some own →
  ∃ w' errs,
    (l ← attempt (client_ListObjects kind (cleanupLabels ds));
     match l with
     | inr e => mret [e]
     | inl objList =>
         match listObjectToDelete ds kind objList exclude with
         | Ret objsToDelete => deleteObjects kind objsToDelete
         | Fail e => mret [e]
         | Panic => panic
         end
     end) w = (w', Ret errs) ∧
    (∀ k, oview w' !! k = oview w !! k ∨
          oview w' !! k = None ∧ ∃ o, oview w !! k = Some o ∧ k = (kind, key_of o) ∧ orphan ds exclude kind o) ∧
    (errs = [] → ∀ o, oview w !! (kind, key_of o) = Some o → orphan ds exclude kind o → oview w' !! (kind, key_of o) = None).
Proof.
  intros Hown. unfold mbind, GoM_bind, attempt. pose proof (sound_ListObjects kind (cleanupLabels ds) w) as Hl.
  destruct (client_ListObjects kind (cleanupLabels ds) w) as [w1 [l|e|]]; [| |done].
  2:{ exists w1, [e]. split_and!; [done|by intros; left; rewrite Hl|done]. }
  destruct Hl as [Hw1 Hl]. destruct (listObjectToDelete_spec ds kind exclude l own Hown) as (keys & -> & Hkeys).
  destruct (collect_delete kind keys w1) as (w2 & errs & Hrun & Hk & Hall). rewrite Hw1 in Hk.
  exists w2, errs. split_and!; [exact Hrun| |].
  - intros k. destruct (Hk k) as [?|(Hn & key & Hin & ->)]; [by left|right]. split; [done|].
    apply Hkeys in Hin as (o & Ho & <- & Hg & Hex & Hp). apply Hl in Ho as [Ho Hlab].
    apply has_cleanupLabels in Hlab as [? ?]. exists o. split_and!; [done..|]. split_and!; [done..|]. eauto.
  - intros -> o Ho (Hs & Hd & Hg & Hex & own' & Hown' & Hp). assert (Hlab : has_labels (cleanupLabels ds) o) by by apply has_cleanupLabels.
    assert (own' = own) as -> by congruence.
    apply Hall; [done|]. apply Hkeys. exists o. split_and!; [by apply Hl|done..].
Qed.

Lemma cleanupKinds_spec ds exclude kinds own w :
  owner ds = Some own →
  ∃ w' errs, cleanupKinds ds exclude kinds w = (w', Ret errs) ∧
    (∀ k, oview w' !! k = oview w !! k ∨
          oview w' !! k = None ∧ ∃ o, oview w !! k = Some o ∧ k = (k.1, key_of o) ∧ orphan ds exclude k.1 o) ∧
    (errs = [] → ∀ kind o, kind ∈ kinds → oview w !! (kind, key_of o) = Some o → orphan ds exclude kind o →
       oview w' !! (kind, key_of o) = None).
Proof.
  intros Hown. revert w. induction kinds as [|kind kinds IH]; intros w.
  { exists w, []. split_and!; [done|by left|set_solver]. }
  destruct (cleanup_kind ds exclude kind own w Hown) as (w1 & errs & Hrun & Hk & Hall).
  destruct (IH w1) as (w2 & rest & Hrun2 & Hk2 & Hall2).
  exists w2, (errs ++ rest). split_and!.
  - cbn [cleanupKinds]. unfold mbind, GoM_bind, attempt in *.
    destruct (client_ListObjects kind (cleanupLabels ds) w) as [w0 [l|e|]]; [| |done].
    + simpl in *. rewrite Hrun. by rewrite Hrun2.
    + simpl in *. injection Hrun as -> <-. by rewrite Hrun2.
  - intros k. destruct (Hk2 k) as [Hk2'|(Hn & o & Ho & Hko & Horph)].
    + rewrite Hk2'. destruct (Hk k) as [?|(Hn & o & Ho & -> & Horph)]; [by left|right; eauto].
    + destruct (Hk k) as [Hk1|(Hn1 & _)]; [|congruence]. right. rewrite <-Hk1. eauto.
  - intros [-> ->]%app_nil kind' o Hin Ho Horph.
    destruct (Hk2 (kind', key_of o)) as [Hk2'|[Hn _]]; [|done].
    destruct (Hk (kind', key_of o)) as [Hk1|[Hn _]]; [|by rewrite Hk2', Hn].
    apply elem_of_cons in Hin as [->|Hin]; [by rewrite Hk2'; apply Hall|].
    apply Hall2; [done..|by rewrite Hk1|done].
Qed.

(** C34: a cleanup deletes the orphans and nothing else.  The cleanup of a store
    that has an owner never panics.  Whatever calls fail, the objects it deletes
    carry the label of the stores (and the DatadogAgent controller's, if the store
    is that controller's), are part of the store's DatadogAgent, are not held by
    the store and, on request, are not the DatadogAgent controller's; every other
    object is unchanged.  If it returns no error, no such object of the kinds the
    store manages is left. *)
Theorem cleanup_deletes_only_orphans ds exclude w own :
  owner ds = Some own →
  ∃ w' errs, Cleanup ds exclude w = (w', Ret errs) ∧
    (∀ k, oview w' !! k = oview w !! k ∨
          oview w' !! k = None ∧ ∃ o, oview w !! k = Some o ∧ k = (k.1, key_of o) ∧ orphan ds exclude k.1 o) ∧
    (errs = [] → ∀ kind o, kind ∈ getResourcesKind (supportCilium ds) →
       oview w' !! (kind, key_of o) = Some o → ¬ orphan ds exclude kind o).
Proof.
  intros Hown. destruct (cleanupKinds_spec ds exclude (getResourcesKind (supportCilium ds)) own w Hown)
    as (w' & errs & Hrun & Hk & Hall). exists w', errs. split_and!; [done..|]. intros Herrs kind o Hkind Ho Horph.
  destruct (Hk (kind, key_of o)) as [Hk'|[Hn _]]; [|congruence].
  rewrite (Hall Herrs kind o) in Ho by (done || congruence). done.
Qed.
End Cleanup.
