(* ===== verification/ApplyTheorems.v ===== *)
(** * Applying a store.

    The invariant of a store and its lookups, what [Apply] writes, that it
    converges and then writes nothing, and that an object the store stops holding
    is one its cleanup deletes. *)

From Stdlib Require Import ZArith Lia Ascii.
From stdpp Require Import base gmap strings list.
From S2P Require Import Prelude Cluster Rbac Objects Store StoreTheorems.

(** ** Well-formed stores *)

(** The kind of the Go type of an object. *)
Definition kindOf {Spec : Type} (b : Body Spec) : string :=
  match b with
  | ConfigMap _ _ => ConfigMapKind
  | ClusterRole _ => ClusterRolesKind
  | ClusterRoleBinding _ _ => ClusterRoleBindingKind
  | Role _ => RolesKind
  | RoleBinding _ _ => RoleBindingKind
  | ValidatingWebhookConfiguration _ => ValidatingWebhookConfigurationsKind
  | MutatingWebhookConfiguration _ => MutatingWebhookConfigurationsKind
  | APIService _ => APIServiceKind
  | Secret _ => SecretsKind
  | Service _ => ServicesKind
  | ServiceAccount => ServiceAccountsKind
  | PodDisruptionBudget _ _ => PodDisruptionBudgetsKind
  | NetworkPolicy _ => NetworkPoliciesKind
  | CiliumNetworkPolicy _ => CiliumNetworkPoliciesKind
  | Node => NodeKind
  end.

(** A name or namespace of the API: without a slash. *)
Definition plain_key {Spec : Type} (o : Object Spec) : Prop :=
  ContainsChar slash (o_Namespace o) = false ∧ ContainsChar slash (o_Name o) = false.

Section Apply.
Context {W Spec : Type} `{SoundObjectClient W Spec} `{EqDecision Spec}.
Implicit Types ds : Store Spec.
Implicit Types o : Object Spec.

(** Objects are stored under their own identifier and kind. *)
Definition wf_store ds : Prop :=
  ∀ kind objs id o, deps ds !! kind = Some objs → objs !! id = Some o →
    id = buildID (o_Namespace o) (o_Name o) ∧ plain_key o ∧ kindOf (o_Body o) = kind ∧ kind ≠ NodeKind.

Section Adding.
Context (ParseGroupVersion : string → (string * string) + error).

Lemma decorate_meta ds kind o o' :
  decorate ParseGroupVersion ds kind o = inl o' →
  o_Namespace o' = o_Namespace o ∧ o_Name o' = o_Name o ∧ o_Body o' = o_Body o.
Proof.
  unfold decorate. destruct (isDDAControllerStore ds), (owner ds) as [own|]; intros; simplify_eq; try done;
    unfold SetOwnerReference in *; repeat case_match; simplify_eq; done.
Qed.

Lemma lookup_deps ds kind ns name o :
  Get ds kind ns name = Some o ↔ ∃ objs, deps ds !! kind = Some objs ∧ objs !! buildID ns name = Some o.
Proof. unfold Get. apply bind_Some. Qed.

Lemma Get_set_deps ds d kind ns name :
  Get (set_deps d ds) kind ns name = objs ← d !! kind; objs !! buildID ns name.
Proof. done. Qed.

(** Adding an object keeps the store well formed and changes exactly one lookup;
    when it fails, none. *)
Lemma AddOrUpdate_Get ds kind o :
  wf_store ds → plain_key o → kindOf (o_Body o) = kind → kind ≠ NodeKind →
  let r := AddOrUpdate ParseGroupVersion ds kind o in
  wf_store r.1 ∧
  ∀ kind' ns name, ContainsChar slash ns = false → ContainsChar slash name = false →
    Get r.1 kind' ns name =
      match decorate ParseGroupVersion ds kind o with
      | inl o' => if decide ((kind', (ns, name)) = (kind, key_of o)) then Some o' else Get ds kind' ns name
      | inr _ => Get ds kind' ns name
      end.
Proof.
  intros Hwf [Hp1 Hp2] Hkind Hnode. unfold AddOrUpdate. destruct (decorate ParseGroupVersion ds kind o) as [o'|e] eqn:Hdec; simpl.
  - destruct (decorate_meta _ _ _ _ Hdec) as (Hns & Hname & Hbody). split.
    + intros kind' objs id o''. simpl. destruct (decide (kind' = kind)) as [->|Hne].
      * rewrite lookup_insert_eq. intros [= <-]. destruct (decide (id = buildID (o_Namespace o) (o_Name o))) as [->|Hid].
        -- rewrite lookup_insert_eq. intros [= <-]. unfold plain_key. by rewrite Hns, Hname, Hbody.
        -- rewrite lookup_insert_ne by done. destruct (deps ds !! kind) as [objs0|] eqn:Hk; [|done]. by apply Hwf.
      * rewrite lookup_insert_ne by done. apply Hwf.
    + intros kind' ns name Hc1 Hc2. rewrite Get_set_deps. destruct (decide (kind' = kind)) as [->|Hne].
      * rewrite lookup_insert_eq. simpl. case_decide as Hkey.
        -- unfold key_of in Hkey. simplify_eq. by rewrite lookup_insert_eq.
        -- rewrite lookup_insert_ne. { unfold Get. by destruct (deps ds !! kind). }
           intros Heq. apply Hkey. unfold key_of. f_equal. symmetry. by apply buildID_inj.
      * rewrite lookup_insert_ne, decide_False by congruence. done.
  - split.
    + intros kind' objs id o''. simpl. destruct (decide (kind' = kind)) as [->|Hne].
      * rewrite lookup_insert_eq. intros [= <-]. destruct (deps ds !! kind) as [objs0|] eqn:Hk; [|done]. by apply Hwf.
      * rewrite lookup_insert_ne by done. apply Hwf.
    + intros kind' ns name _ _. rewrite Get_set_deps. destruct (decide (kind' = kind)) as [->|Hne].
      * rewrite lookup_insert_eq. unfold Get. by destruct (deps ds !! kind).
      * by rewrite lookup_insert_ne.
Qed.

End Adding.

(** ** Planning *)

Abbreviation pre := (applyPreprocessing (Spec := Spec)).

(** The content of an object of the API server is that of the stored one: the
    rules normalized, [BinaryData] aside, and of a service only what the operator
    configures. *)
Definition same_body (b api : Body Spec) : Prop :=
  match b, api with
  | ConfigMap data _, ConfigMap data' _ => data' = data
  | ClusterRole rules, ClusterRole rules' | Role rules, Role rules' => rules' = NormalizePolicyRules rules
  | Service s, Service s' =>
      svc_Selector s' = svc_Selector s ∧ svc_Ports s' = svc_Ports s ∧
      svc_InternalTrafficPolicy s' = svc_InternalTrafficPolicy s
  | CiliumNetworkPolicy specs, _ => match api with CiliumNetworkPolicy specs' => specs' | _ => [] end = specs
  | _, _ => api = b
  end.

(** The content that is written over [old]: all of the stored one, but for the
    cluster addresses that a service keeps. *)
Definition full_body (old : option (Body Spec)) (b : Body Spec) : Body Spec :=
  match b, old with
  | ClusterRole rules, _ => ClusterRole (NormalizePolicyRules rules)
  | Role rules, _ => Role (NormalizePolicyRules rules)
  | Service s, Some (Service api) =>
      Service (mkServiceSpec (svc_Selector s) (svc_Ports s) (svc_Type s) (svc_InternalTrafficPolicy s)
                 (svc_ClusterIP api) (svc_ClusterIPs api))
  | _, _ => b
  end.

(** The object of the API server has the labels, annotations, owners and content
    of the stored one. *)
Definition up_to_date o (api : Object Spec) : Prop :=
  key_of api = key_of o ∧ o_OwnerReferences api = o_OwnerReferences o ∧ o_Annotations api = o_Annotations o ∧
  o_Labels api = o_Labels o ∧ same_body (o_Body o) (o_Body api).

(** What the code takes for it. *)
Definition compared (kind : string) o (api : Object Spec) : Prop :=
  ∃ p, pre kind o (Some api) = inl p ∧ IsEqualObject kind p api = true.

Definition plan_ok (v : ObjectsView Spec) (kind : string) (o : Object Spec) (p : Plan) : Prop :=
  match p with
  | PlanError _ => True
  | PlanCreate p => v !! (kind, key_of o) = None ∧ pre kind o None = inl p
  | PlanUpdate p => ∃ api, v !! (kind, key_of o) = Some api ∧ pre kind o (Some api) = inl p ∧ IsEqualObject kind p api = false
  | PlanNone => ∃ api, v !! (kind, key_of o) = Some api ∧ compared kind o api
  end.

Lemma pre_key kind o api p : pre kind o api = inl p → key_of p = key_of o.
Proof.
  unfold applyPreprocessing, preprocessClusterRole, preprocessRole, preprocessService, preprocessResourceVersion, key_of.
  intros. repeat case_match; simplify_eq/=; done.
Qed.

#[local] Hint Resolve pre_key : go.

Lemma planObject_spec kind id o w :
  buildObjectKey id = key_of o →
  ∃ w' p, planObject kind id o w = (w', Ret p) ∧ oview w' = oview w ∧ plan_ok (oview w) kind o p.
Proof.
  intros Hid. unfold planObject, mbind, GoM_bind, attempt. rewrite Hid.
  pose proof (sound_GetObject kind (key_of o) w) as Hg.
  destruct (client_GetObject kind (key_of o) w) as [w' [api|e|]]; [| |done]; destruct Hg as [Hw Hg].
  - destruct (pre kind o (Some api)) as [p|e] eqn:Hp; [|by exists w', (PlanError e)].
    destruct (IsEqualObject kind p api) eqn:He; [exists w', PlanNone|exists w', (PlanUpdate p)];
      (split; [done|split; [done|simpl]]); unfold compared; eauto.
  - destruct (IsNotFound e); [|by exists w', (PlanError e)]. destruct (pre kind o None) as [p|e'] eqn:Hp.
    + exists w', (PlanCreate p). simpl. auto.
    + by exists w', (PlanError e').
Qed.

Lemma planAll_spec l w :
  Forall (λ '(_, id, o), buildObjectKey id = key_of o) l →
  ∃ w' ps, planAll l w = (w', Ret ps) ∧ oview w' = oview w ∧
    Forall2 (λ '(kind, _, o) kp, kp.1 = kind ∧ plan_ok (oview w) kind o kp.2) l ps.
Proof.
  intros Hl. revert w. induction Hl as [|[[kind id] o] l Hid Hl IH]; intros w; simpl; [by exists w, []|].
  destruct (planObject_spec kind id o w Hid) as (w1 & p & Hrun & Hv & Hp).
  destruct (IH w1) as (w2 & ps & Hrun2 & Hv2 & Hps). exists w2, ((kind, p) :: ps).
  unfold mbind, GoM_bind. rewrite Hrun, Hrun2. split_and!; [done|congruence|].
  rewrite Hv in Hps. by constructor.
Qed.
(** ** Writing *)

Definition writes (f : string → Object Spec → GoM W unit) : Prop :=
  ∀ kind o w, match f kind o w with
  | (w', Ret _) => ∃ rv, oview w' = <[(kind, key_of o) := set_ResourceVersion rv o]> (oview w)
  | (w', Fail _) => oview w' = oview w
  | (_, Panic) => False
  end.

Lemma collect_writes f (l : list (string * Object Spec)) w :
  writes f → NoDup ((λ '(k, o), (k, key_of o)) <$> l) →
  ∃ w' errs, collect (λ '(k, o), f k o) l w = (w', Ret errs) ∧
    (∀ k, k ∉ ((λ '(k, o), (k, key_of o)) <$> l) → oview w' !! k = oview w !! k) ∧
    (errs = [] → ∀ k o, (k, o) ∈ l → ∃ rv, oview w' !! (k, key_of o) = Some (set_ResourceVersion rv o)).
Proof.
  intros Hf. revert w. induction l as [|[k o] l IH]; intros w Hnd; simpl; [exists w, []; split_and!; [done..|set_solver]|].
  rewrite fmap_cons in Hnd. apply NoDup_cons in Hnd as [Hni Hnd]. pose proof (Hf k o w) as Hw. unfold mbind, GoM_bind, attempt.
  destruct (f k o w) as [w1 [[]|e|]]; [| |done]; destruct (IH w1 Hnd) as (w2 & errs & -> & Hk & Hall).
  - destruct Hw as [rv Hw]. exists w2, errs. split_and!; [done| |].
    + intros k' [Hne Hni']%not_elem_of_cons. by rewrite Hk, Hw, lookup_insert_ne by done.
    + intros -> k' o' [Heq|Hin]%elem_of_cons; [|by apply Hall]. simplify_eq. exists rv.
      by rewrite Hk, Hw, lookup_insert_eq.
  - exists w2, (e :: errs). split_and!; [done| |done].
    intros k' [Hne Hni']%not_elem_of_cons. by rewrite Hk, Hw.
Qed.

(** *** What was written is up to date *)

Lemma IsEqualOperatorObjectMeta_iff (a b : Object Spec) :
  IsEqualOperatorObjectMeta a b = true ↔
  key_of b = key_of a ∧ o_OwnerReferences b = o_OwnerReferences a ∧ o_Annotations b = o_Annotations a ∧
  o_Labels b = o_Labels a.
Proof.
  unfold IsEqualOperatorObjectMeta, IsEqualOperatorAnnotations, IsEqualOperatorLabels, key_of. repeat case_bool_decide; simpl;
    rewrite ?andb_true_iff; split; intros; destruct_and?; simplify_eq/=; try done; split_and!; congruence.
Qed.

Lemma normalizeIfAny_spec rules : normalizeIfAny rules = NormalizePolicyRules rules.
Proof. by destruct rules. Qed.

Ltac expand_pre_in_goal :=
  unfold applyPreprocessing, preprocessClusterRole, preprocessRole, preprocessService, preprocessResourceVersion; simpl.
Tactic Notation "expand_pre" := expand_pre_in_goal.
Tactic Notation "expand_pre" "in" hyp(H) := revert H; expand_pre_in_goal; intros H.

(** The preprocessing gives an object all of its content. *)
Lemma pre_full kind o api p :
  kindOf (o_Body o) = kind → kind ≠ NodeKind → pre kind o api = inl p →
  ∃ rv, p = set_ResourceVersion rv (set_Body (full_body (o_Body <$> api) (o_Body o)) o).
Proof.
  intros <- Hnode Hp. destruct o as [ns name labels ann owners rv b]. cbn [o_Body] in *. exists (o_ResourceVersion p).
  destruct b; try done; cbn [kindOf] in *; expand_pre in Hp; destruct api as [api|]; simpl in *;
    repeat case_match; simplify_eq/=; by rewrite ?normalizeIfAny_spec.
Qed.

Lemma full_body_same old b : same_body b (full_body old b).
Proof. by destruct b, old as [[]|]. Qed.

Lemma written_is_up_to_date kind o api p rv :
  kindOf (o_Body o) = kind → kind ≠ NodeKind → pre kind o api = inl p → up_to_date o (set_ResourceVersion rv p).
Proof.
  intros Hkind Hnode Hp. destruct (pre_full _ _ _ _ Hkind Hnode Hp) as [rv' ->].
  split_and!; try done. apply full_body_same.
Qed.

(** The comparison decides it. *)
Lemma compared_up_to_date kind o api :
  kindOf (o_Body o) = kind → kind ≠ NodeKind → compared kind o api ↔ up_to_date o api.
Proof.
  intros <- Hnode. unfold compared, up_to_date. split.
  - intros (p & Hp & Heq). destruct (pre_full _ _ _ _ eq_refl Hnode Hp) as [rv ->]. clear Hp.
    unfold IsEqualObject in Heq. destruct (IsEqualOperatorObjectMeta _ _) eqn:Hm; [|done].
    apply IsEqualOperatorObjectMeta_iff in Hm as (? & ? & ? & ?). split_and!; try done. simpl in Heq.
    destruct (o_Body o), (o_Body api); try done; simpl in *;
      unfold isEqualServiceSpec, IsEqualStruct, IsEqualCiliumNetworkPolicies in *; simpl in *;
      rewrite ?andb_true_iff, ?bool_decide_eq_true, ?normalizeIfAny_spec in *;
      repeat case_bool_decide; destruct_and?; simplify_eq/=; split_and?; congruence.
  - intros (Hk & Ho & Ha & Hl & Hb). destruct (o_Body o) eqn:Eb, (o_Body api) eqn:Ea; try done; simpl in Hb;
      (eexists; split; [expand_pre; rewrite ?Eb, ?Ea; reflexivity|]); unfold IsEqualObject;
      rewrite (proj2 (IsEqualOperatorObjectMeta_iff _ _)) by done; simpl; rewrite ?Eb, ?Ea; simpl;
      unfold isEqualServiceSpec, IsEqualCiliumNetworkPolicies, IsEqualStruct; simpl; rewrite ?normalizeIfAny_spec;
      destruct_and?; simplify_eq; rewrite ?bool_decide_true by done; try done.
    all: repeat (rewrite bool_decide_true by congruence); done.
Qed.
(** ** Applying *)

Lemma elem_of_storedObjects ds kind id o :
  (kind, id, o) ∈ storedObjects ds ↔ ∃ objs, deps ds !! kind = Some objs ∧ objs !! id = Some o.
Proof.
  unfold storedObjects. rewrite list_elem_of_bind. split.
  - intros ([k objs] & Hin & Hk%elem_of_map_to_list). apply list_elem_of_fmap in Hin as ([i o'] & Heq & Hin%elem_of_map_to_list).
    simplify_eq. eauto.
  - intros (objs & Hk & Ho). exists (kind, objs). split; [|by apply elem_of_map_to_list]. apply list_elem_of_fmap.
    exists (id, o). by rewrite elem_of_map_to_list.
Qed.

Definition entryKey (e : string * string * Object Spec) : string * (string * string) := (e.1.1, key_of e.2).
Definition writeKey (e : string * Object Spec) : string * (string * string) := let '(k, o) := e in (k, key_of o).

Lemma NoDup_storedObjects ds : NoDup (storedObjects ds).
Proof.
  unfold storedObjects. apply NoDup_bind.
  - intros [k1 m1] [k2 m2] [[k i] o] Hk1 Hk2 ([i1 o1] & Heq1 & _)%list_elem_of_fmap ([i2 o2] & Heq2 & _)%list_elem_of_fmap.
    simplify_eq. apply elem_of_map_to_list in Hk1, Hk2. congruence.
  - intros [k m] _. apply NoDup_fmap_2; [|apply NoDup_map_to_list]. by intros [??] [??] [= -> ->].
  - apply NoDup_map_to_list.
Qed.

Lemma stored_key ds kind id o :
  wf_store ds → (kind, id, o) ∈ storedObjects ds →
  buildObjectKey id = key_of o ∧ kindOf (o_Body o) = kind ∧ kind ≠ NodeKind.
Proof.
  intros Hwf (objs & Hk & Ho)%elem_of_storedObjects. destruct (Hwf _ _ _ _ Hk Ho) as (-> & [Hp1 Hp2] & ? & ?).
  by rewrite buildObjectKey_buildID.
Qed.

Lemma NoDup_entryKeys ds : wf_store ds → NoDup (entryKey <$> storedObjects ds).
Proof.
  intros Hwf. apply NoDup_fmap_2_strong; [|apply NoDup_storedObjects].
  intros [[k1 i1] o1] [[k2 i2] o2] H1 H2 Heq. unfold entryKey in Heq. simpl in Heq. injection Heq as -> Hns Hname.
  apply elem_of_storedObjects in H1 as (m1 & Hm1 & Ho1), H2 as (m2 & Hm2 & Ho2).
  destruct (Hwf _ _ _ _ Hm1 Ho1) as (-> & _). destruct (Hwf _ _ _ _ Hm2 Ho2) as (-> & _).
  rewrite Hns, Hname in *. congruence.
Qed.

(** The objects a kind of plan selects, with the entries they come from. *)
Section Selected.
Context (v : ObjectsView Spec) (l : list (string * string * Object Spec)) (ps : list (string * Plan (Spec := Spec))).
Context (sel : Plan (Spec := Spec) → option (Object Spec)).
Hypothesis (Hps : Forall2 (λ '(kind, _, o) kp, kp.1 = kind ∧ plan_ok v kind o kp.2) l ps).
Hypothesis (Hsel : ∀ kind o p q, plan_ok v kind o p → sel p = Some q → key_of q = key_of o).

Lemma selected_sublist : writeKey <$> selected sel ps `sublist_of` entryKey <$> l.
Proof.
  unfold selected. induction Hps as [|[[kind id] o] [k p] l' ps' [Hk Hp] Hrest IH]; simpl; [done|].
  specialize (IH Hrest). simpl in *. subst k.
  destruct (sel p) as [q|] eqn:Hq; simpl; [|by apply sublist_cons].
  unfold entryKey at 1. simpl. rewrite (Hsel _ _ _ _ Hp Hq). by apply sublist_skip.
Qed.

Lemma selected_entry kind q :
  (kind, q) ∈ selected sel ps → ∃ i id o p, l !! i = Some (kind, id, o) ∧ ps !! i = Some (kind, p) ∧ sel p = Some q ∧ plan_ok v kind o p.
Proof.
  unfold selected. intros ([k p] & Hin & Hq)%list_elem_of_omap. simpl in Hq.
  destruct (sel p) as [q'|] eqn:Hs; [|done]. simplify_eq/=. apply list_elem_of_lookup in Hin as [i Hi].
  destruct (Forall2_lookup_r _ _ _ _ _ Hps Hi) as ([[k id] o] & Hl & Hk & Hp). simpl in *. subst k. by exists i, id, o, p.
Qed.
End Selected.

Lemma isCreate_key v kind o p q : plan_ok v kind o p → isCreate p = Some q → key_of q = key_of o.
Proof. destruct p; simpl; intros; simplify_eq. naive_solver eauto with go. Qed.
Lemma isUpdate_key v kind o p q : plan_ok v kind o p → isUpdate p = Some q → key_of q = key_of o.
Proof. destruct p; simpl; intros; simplify_eq. naive_solver eauto with go. Qed.

#[local] Hint Resolve isCreate_key isUpdate_key : go.

(** The store is in sync with the API server: each of its objects is there and up
    to date. *)
Definition in_sync (v : ObjectsView Spec) ds : Prop :=
  ∀ kind id o, (kind, id, o) ∈ storedObjects ds → ∃ api, v !! (kind, key_of o) = Some api ∧ up_to_date o api.

Definition in_syncb (v : ObjectsView Spec) ds : bool :=
  forallb (λ e : string * string * Object Spec,
    match v !! entryKey e with
    | Some api => match pre e.1.1 e.2 (Some api) with inl p => IsEqualObject e.1.1 p api | inr _ => false end
    | None => false
    end) (storedObjects ds).

Lemma in_syncb_true v ds : wf_store ds → in_syncb v ds = true → in_sync v ds.
Proof.
  intros Hwf. unfold in_syncb. rewrite forallb_forall. intros Hall kind id o Hin.
  destruct (stored_key _ _ _ _ Hwf Hin) as (_ & Hkind & Hnode). apply list_elem_of_In, Hall in Hin. simpl in Hin.
  unfold entryKey in Hin. simpl in Hin. destruct (v !! (kind, key_of o)) as [api|]; [|done]. exists api. split; [done|].
  apply (compared_up_to_date kind); [done..|].
  destruct (pre kind o (Some api)) as [p|] eqn:Hp; [|done]. by exists p.
Qed.

(** An apply runs the plans of the view it started from. *)
Lemma Apply_run ds w :
  wf_store ds →
  ∃ w' (v1 : ObjectsView Spec) ps createErrs updateErrs,
    Apply ds w = (w', Ret (planErrors ps ++ createErrs ++ updateErrs)) ∧
    Forall2 (λ '(kind, _, o) kp, kp.1 = kind ∧ plan_ok (oview w) kind o kp.2) (storedObjects ds) ps ∧
    (∀ k, k ∉ (writeKey <$> selected isCreate ps) → v1 !! k = oview w !! k) ∧
    (createErrs = [] → ∀ k o, (k, o) ∈ selected isCreate ps → ∃ rv, v1 !! (k, key_of o) = Some (set_ResourceVersion rv o)) ∧
    (∀ k, k ∉ (writeKey <$> selected isUpdate ps) → oview w' !! k = v1 !! k) ∧
    (updateErrs = [] → ∀ k o, (k, o) ∈ selected isUpdate ps → ∃ rv, oview w' !! (k, key_of o) = Some (set_ResourceVersion rv o)).
Proof.
  intros Hwf. destruct (planAll_spec (storedObjects ds) w) as (w0 & ps & Hplan & Hv & Hps).
  { apply Forall_forall. intros [[kind id] o] Hin. by apply (stored_key ds kind). }
  pose proof (NoDup_entryKeys ds Hwf) as Hnd.
  destruct (collect_writes client_CreateObject (selected isCreate ps) w0 (λ kind o w, sound_CreateObject kind o w))
    as (w1 & ce & Hc & Hck & Hcall).
  { eapply sublist_NoDup; [exact Hnd|]. eapply selected_sublist; eauto with go. }
  destruct (collect_writes client_UpdateObject (selected isUpdate ps) w1 (λ kind o w, sound_UpdateObject kind o w))
    as (w2 & ue & Hu & Huk & Huall).
  { eapply sublist_NoDup; [exact Hnd|]. eapply selected_sublist; eauto with go. }
  exists w2, (oview w1), ps, ce, ue. rewrite <-Hv in Hps |- *. split; [|by auto].
  unfold Apply, mbind, GoM_bind. by rewrite Hplan, Hc, Hu.
Qed.

Lemma planErrors_nil ps k e : planErrors ps = [] → (k, PlanError (Spec := Spec) e) ∉ ps.
Proof.
  intros Hn Hin. assert (e ∈ planErrors ps); [|rewrite Hn in *; by apply not_elem_of_nil in Hin || set_solver].
  apply list_elem_of_omap. by exists (k, PlanError e).
Qed.

(** Distinct entries have distinct keys: what another plan writes is elsewhere. *)
Lemma not_selected ds v ps sel i kind id o p :
  wf_store ds → Forall2 (λ '(kind, _, o) kp, kp.1 = kind ∧ plan_ok v kind o kp.2) (storedObjects ds) ps →
  (∀ kind o p q, plan_ok v kind o p → sel p = Some q → key_of q = key_of o) →
  storedObjects ds !! i = Some (kind, id, o) → ps !! i = Some (kind, p) → sel p = None →
  (kind, key_of o) ∉ (writeKey <$> selected sel ps).
Proof.
  intros Hwf Hps Hsel Hi Hp Hn ([k q] & Heq & Hin)%list_elem_of_fmap. change ((kind, key_of o) = (k, key_of q)) in Heq.
  assert (k = kind ∧ key_of q = key_of o) as [-> Hkey] by (split; congruence).
  destruct (selected_entry v _ _ _ Hps _ _ Hin) as (j & id' & o' & p' & Hj & Hpj & Hq & Hok).
  assert (i = j) as ->; [|congruence].
  eapply (NoDup_lookup _ i j (kind, key_of o) (NoDup_entryKeys ds Hwf)); rewrite list_lookup_fmap, ?Hi, ?Hj; simpl; [done|].
  unfold entryKey. simpl. by rewrite <-(Hsel _ _ _ _ Hok Hq), Hkey.
Qed.

Lemma is_selected (ps : list (string * Plan (Spec := Spec))) sel i kind p q :
  ps !! i = Some (kind, p) → sel p = Some q → (kind, q) ∈ selected sel ps.
Proof.
  intros Hp Hq. apply list_elem_of_omap. exists (kind, p). split; [by eapply list_elem_of_lookup_2|]. simpl. by rewrite Hq.
Qed.

(** C35: an apply without error converges.  Afterwards every object of the store
    exists on the API server with the store's labels, annotations, owner
    references and content: the rules of a role normalized, of a ConfigMap its
    [Data] (its [BinaryData] is not compared, so that it can be older) and of a
    service its selector, ports and internal traffic policy.  Each is the object
    that was there before or was written whole, keeping only the cluster addresses
    of a service; and objects that are not in the store are not touched. *)
Theorem apply_converges ds w w' :
  wf_store ds → Apply ds w = (w', Ret []) →
  in_sync (oview w') ds ∧
  (∀ kind id o, (kind, id, o) ∈ storedObjects ds →
     let old := oview w !! (kind, key_of o) in
     oview w' !! (kind, key_of o) = old ∨
     ∃ rv, oview w' !! (kind, key_of o) = Some (set_ResourceVersion rv (set_Body (full_body (o_Body <$> old) (o_Body o)) o))) ∧
  ∀ k, k ∉ (entryKey <$> storedObjects ds) → oview w' !! k = oview w !! k.
Proof.
  intros Hwf Hrun. destruct (Apply_run ds w Hwf) as (w2 & v1 & ps & ce & ue & Hrun2 & Hps & Hck & Hcall & Huk & Huall).
  rewrite Hrun in Hrun2. injection Hrun2 as <- Hnil. symmetry in Hnil. apply app_nil in Hnil as [Hpe [-> ->]%app_nil].
  pose proof (isCreate_key (oview w)) as Hc. pose proof (isUpdate_key (oview w)) as Hu.
  assert (Hone : ∀ kind id o, (kind, id, o) ∈ storedObjects ds → kindOf (o_Body o) = kind ∧ kind ≠ NodeKind ∧
    ((∃ p rv, pre kind o (oview w !! (kind, key_of o)) = inl p ∧
              oview w' !! (kind, key_of o) = Some (set_ResourceVersion rv p)) ∨
     ∃ api, oview w' !! (kind, key_of o) = Some api ∧ oview w !! (kind, key_of o) = Some api ∧ compared kind o api)).
  { intros kind id o Hin. destruct (stored_key _ _ _ _ Hwf Hin) as (_ & Hkind & Hnode). split_and!; [done..|].
    apply list_elem_of_lookup in Hin as [i Hi].
    destruct (Forall2_lookup_l _ _ _ _ _ Hps Hi) as ([k p] & Hp & Hk & Hok). simpl in Hk, Hok. subst k. destruct p as [p|p| |e].
    - destruct Hok as [Hnone Hpre]. destruct (Hcall eq_refl kind p) as [rv Hrv]; [by eapply is_selected|].
      rewrite (pre_key _ _ _ _ Hpre) in Hrv. left. exists p, rv. rewrite Hnone. split; [done|].
      by rewrite Huk by (by eapply not_selected).
    - destruct Hok as (api & Hapi & Hpre & _). destruct (Huall eq_refl kind p) as [rv Hrv]; [by eapply is_selected|].
      rewrite (pre_key _ _ _ _ Hpre) in Hrv. left. exists p, rv. by rewrite Hapi.
    - destruct Hok as (api & Hapi & Hup). right. exists api. by rewrite Huk, Hck by (by eapply not_selected).
    - destruct (planErrors_nil ps kind e Hpe). by eapply list_elem_of_lookup_2. }
  split_and!.
  - intros kind id o Hin. destruct (Hone kind id o Hin) as (Hkind & Hnode & [(p & rv & Hpre & ->)|(api & -> & _ & Hcmp)]).
    + eexists. split; [done|]. by eapply written_is_up_to_date.
    + eexists. split; [done|]. by eapply compared_up_to_date.
  - intros kind id o Hin old. destruct (Hone kind id o Hin) as (Hkind & Hnode & [(p & rv & Hpre & ->)|(api & -> & <- & _)]); [right|by left].
    destruct (pre_full _ _ _ _ Hkind Hnode Hpre) as [rv' ->]. by exists rv.
  - intros k Hk. rewrite Huk, Hck; [done| |]; intros Hin; apply Hk;
      (eapply elem_of_sublist; [exact Hin|]); eapply selected_sublist; eauto.
Qed.

(** An apply of a store that is in sync writes nothing, whatever reads fail:
    reconciling again does not rewrite the dependencies. *)
Theorem apply_quiescent ds w :
  wf_store ds → in_sync (oview w) ds →
  ∃ w' errs, Apply ds w = (w', Ret errs) ∧ oview w' = oview w.
Proof.
  intros Hwf Hsync. destruct (Apply_run ds w Hwf) as (w2 & v1 & ps & ce & ue & Hrun & Hps & Hck & _ & Huk & _).
  exists w2. eexists. split; [exact Hrun|].
  assert (Hplans : ∀ kind q i p, ps !! i = Some (kind, p) → isCreate p = Some q ∨ isUpdate p = Some q → False).
  { intros kind q i p Hp Hq. destruct (Forall2_lookup_r _ _ _ _ _ Hps Hp) as ([[k id] o] & Hi & Hk & Hok). simpl in *. subst k.
    apply list_elem_of_lookup_2 in Hi. destruct (stored_key _ _ _ _ Hwf Hi) as (_ & Hkind & Hnode).
    destruct (Hsync kind id o Hi) as (api & Hapi & (p' & Hpre & Heq)%(compared_up_to_date kind)); [|done..].
    destruct p as [q'|q'| |]; [destruct Hok; congruence|destruct Hok as (api' & ? & ? & ?); congruence|by destruct Hq..]. }
  apply map_eq. intros k. rewrite Huk, Hck; [done| |]; intros ([kind q] & _ & Hin)%list_elem_of_fmap;
    destruct (selected_entry (oview w) _ _ _ Hps _ _ Hin) as (i & _ & _ & p & _ & Hp & Hq & _); eauto.
Qed.

(** ** Who deletes an object *)

Lemma default_label_partOf own name version :
  GetDefaultLabels own name version !! AppKubernetesPartOfLabelKey =
  Some (NewPartOfLabelValue (own_Namespace own) (own_Labels own) (own_Name own)).
Proof.
  unfold GetDefaultLabels. apply lookup_union_Some_l. rewrite lookup_union_r; [by simplify_map_eq|].
  apply map_lookup_filter_None. right. by intros v _.
Qed.

Lemma default_label_managedBy own name version :
  GetDefaultLabels own name version !! AppKubernetesManageByLabelKey = Some "datadog-operator".
Proof.
  unfold GetDefaultLabels. apply lookup_union_Some_l. rewrite lookup_union_r; [by simplify_map_eq|].
  apply map_lookup_filter_None. right. by intros v _.
Qed.

Lemma default_label_store own name version : GetDefaultLabels own name version !! OperatorStoreLabelKey = None.
Proof.
  unfold GetDefaultLabels. apply lookup_union_None. split; [apply lookup_union_None; split|].
  - apply map_lookup_filter_None. right. by intros v _.
  - by simplify_map_eq.
  - unfold getCommonLabels. apply map_lookup_filter_None. right. by intros v _.
Qed.

(** A user's [commonLabels] cannot give an object the label of the DatadogAgent controller. *)
Lemma default_label_managed own name version :
  GetDefaultLabels own name version !! ManagedByDDAControllerLabelKey = None.
Proof.
  unfold GetDefaultLabels. apply lookup_union_None. split; [apply lookup_union_None; split|].
  - apply map_lookup_filter_None. right. by intros v _.
  - by simplify_map_eq.
  - unfold getCommonLabels. apply map_lookup_filter_None. right. by intros v _.
Qed.

Section Ownership.
Context (ParseGroupVersion : string → (string * string) + error).

Lemma decorate_labels ds kind o o' own :
  owner ds = Some own → decorate ParseGroupVersion ds kind o = inl o' →
  o_Labels o' = GetDefaultLabels own (own_Name own) (GetAgentVersion own) ∪
    (if isDDAControllerStore ds then <[ManagedByDDAControllerLabelKey := "true"]> else id)
      (<[OperatorStoreLabelKey := "true"]> (o_Labels o)).
Proof.
  intros Hown. unfold decorate. rewrite Hown. destruct (isDDAControllerStore ds); simpl;
    unfold SetOwnerReference; intros; repeat case_match; simplify_eq; done.
Qed.

(** The controllers' cleanups partition the objects.  An object added by a
    store is an orphan for a later store of the same controller and DatadogAgent
    that no longer holds it, so that its cleanup deletes it; and is never one for
    the other controller, whatever labels the user configured. *)
Theorem stored_object_ownership ds kind o o' own :
  owner ds = Some own → GetDDAName (own_Labels own) (own_Name own) = own_Name own →
  (isDDAControllerStore ds = false → o_Labels o !! ManagedByDDAControllerLabelKey = None) →
  decorate ParseGroupVersion ds kind o = inl o' →
  (∀ ds', owner ds' = owner ds → isDDAControllerStore ds' = isDDAControllerStore ds →
     Get ds' kind (o_Namespace o) (o_Name o) = None → orphan ds' (negb (isDDAControllerStore ds')) kind o') ∧
  (∀ ds', isDDAControllerStore ds' ≠ isDDAControllerStore ds → ¬ orphan ds' (negb (isDDAControllerStore ds')) kind o').
Proof.
  intros Hown Hname Hlab Hdec. pose proof (decorate_labels _ _ _ _ _ Hown Hdec) as HL.
  destruct (decorate_meta _ _ _ _ _ Hdec) as (Hns & Hn & _).
  assert (Hmanaged : o_Labels o' !! ManagedByDDAControllerLabelKey = if isDDAControllerStore ds then Some "true" else None).
  { rewrite HL, lookup_union_r by apply default_label_managed. destruct (isDDAControllerStore ds); [by simplify_map_eq|].
    unfold id. rewrite lookup_insert_ne by done. by apply Hlab. }
  split.
  - intros ds' Hown' Hdda Hget. split_and!.
    + rewrite HL. apply lookup_union_is_Some. right. destruct (isDDAControllerStore ds); unfold id.
      * rewrite lookup_insert_ne, lookup_insert_eq by done. done.
      * by rewrite lookup_insert_eq.
    + rewrite Hdda. intros Hd. fold ManagedByDDAControllerLabelKey. by rewrite Hmanaged, Hd.
    + by rewrite Hns, Hn.
    + rewrite Hdda, Hmanaged. by destruct (isDDAControllerStore ds).
    + exists own. split; [congruence|]. rewrite HL. apply lookup_union_Some_l. rewrite default_label_partOf.
      unfold NewPartOfLabelValue. by rewrite Hname.
  - intros ds' Hne (_ & Hlabel & _ & Hex & _). fold ManagedByDDAControllerLabelKey in Hlabel, Hex.
    rewrite Hmanaged in Hlabel, Hex. destruct (isDDAControllerStore ds'), (isDDAControllerStore ds); try done.
    + by destruct (Hlabel eq_refl).
    + by specialize (Hex eq_refl).
Qed.

End Ownership.

(** A change of [BinaryData] alone is not seen: the ConfigMap is not updated. *)
Lemma binary_data_is_not_compared o data binary binary' :
  o_Body o = ConfigMap data binary → IsEqualObject ConfigMapKind o (set_Body (ConfigMap data binary') o) = true.
Proof.
  intros Hb. unfold IsEqualObject. rewrite (proj2 (IsEqualOperatorObjectMeta_iff _ _)) by done.
  simpl. rewrite Hb. unfold IsEqualConfigMap, IsEqualStruct. by rewrite !bool_decide_true.
Qed.
End Apply.
