(* ===== verification/PodMerger.v ===== *)
(** * Pod template managers.

    Models [internal/controller/datadogagent/merger/{envvars,envvarfrom,volume,
    volume_mount,port,security_context,annotation,utils}.go]: what features add to
    the pod template of an agent, merged with what is already there.

    A [Spec] is a part of an API type that is only copied. *)

From Stdlib Require Import ZArith Ascii.
From stdpp Require Import base gmap strings list.
From S2P Require Import Prelude Cluster.

(** ** Pod templates *)

Section Types.
Context (Spec : Type).

Record EnvVar := mkEnvVar { env_Name : string; env_Value : string; env_ValueFrom : Spec }.

(** A reference to a ConfigMap or a Secret: its name and [Optional]. *)
Record EnvSourceRef := mkEnvSourceRef { esr_Name : string; esr_Optional : option bool }.

Record EnvFromSource := mkEnvFromSource {
  ef_Prefix : string;
  ef_ConfigMapRef : option EnvSourceRef;
  ef_SecretRef : option EnvSourceRef
}.

Record VolumeMount := mkVolumeMount { vm_Name : string; vm_MountPath : string; vm_Rest : Spec }.

Record ContainerPort := mkContainerPort { cp_Name : string; cp_Rest : Spec }.

Record KeyToPath := mkKeyToPath { kp_Key : string; kp_Path : string; kp_Mode : option Z }.

Record ConfigMapVolumeSource := mkConfigMapVolumeSource { cms_Name : string; cms_Items : list KeyToPath; cms_Rest : Spec }.

Record Volume := mkVolume { vol_Name : string; vol_ConfigMap : option ConfigMapVolumeSource; vol_Rest : Spec }.

(** [sc_Add]: the added capabilities, [None] for nil [Capabilities]. *)
Record SecurityContext := mkSecurityContext { sc_Add : option (list string); sc_Rest : Spec }.

Record Container := mkContainer {
  c_Name : string;
  c_Env : list EnvVar;
  c_EnvFrom : list EnvFromSource;
  c_VolumeMounts : list VolumeMount;
  c_Ports : list ContainerPort;
  c_SecurityContext : option SecurityContext;
  c_Rest : Spec
}.

(** [pod_Annotations] is [None] for a nil map. *)
Record PodTemplateSpec := mkPodTemplateSpec {
  pod_Annotations : option (gmap string string);
  pod_Containers : list Container;
  pod_InitContainers : list Container;
  pod_Volumes : list Volume
}.
End Types.

Arguments mkEnvVar {_}.
Arguments env_Name {_}.
Arguments env_Value {_}.
Arguments env_ValueFrom {_}.
Arguments mkVolumeMount {_}.
Arguments vm_Name {_}.
Arguments vm_MountPath {_}.
Arguments vm_Rest {_}.
Arguments mkContainerPort {_}.
Arguments cp_Name {_}.
Arguments cp_Rest {_}.
Arguments mkConfigMapVolumeSource {_}.
Arguments cms_Name {_}.
Arguments cms_Items {_}.
Arguments cms_Rest {_}.
Arguments mkVolume {_}.
Arguments vol_Name {_}.
Arguments vol_ConfigMap {_}.
Arguments vol_Rest {_}.
Arguments mkSecurityContext {_}.
Arguments sc_Add {_}.
Arguments sc_Rest {_}.
Arguments mkContainer {_}.
Arguments c_Name {_}.
Arguments c_Env {_}.
Arguments c_EnvFrom {_}.
Arguments c_VolumeMounts {_}.
Arguments c_Ports {_}.
Arguments c_SecurityContext {_}.
Arguments c_Rest {_}.
Arguments mkPodTemplateSpec {_}.
Arguments pod_Annotations {_}.
Arguments pod_Containers {_}.
Arguments pod_InitContainers {_}.
Arguments pod_Volumes {_}.

(** ** Merging into a list

    The loop the managers share: every element that matches is replaced by its
    merge with the new one, which is appended when none does.  An error stops the
    loop and leaves what was already replaced. *)
Section MergeLoop.
Context {A : Type}.

(** With whether an element matched. *)
Fixpoint mergeLoop (matches : A → bool) (merge : A → outcome A) (l : list A) : list A * outcome bool :=
  match l with
  | [] => ([], Ret false)
  | c :: l =>
      if matches c
      then match merge c with
           | Ret c' =>
               let '(l', r) := mergeLoop matches merge l in
               (c' :: l', match r with Ret _ => Ret true | Fail e => Fail e | Panic => Panic end)
           | Fail e => (c :: l, Fail e)
           | Panic => (c :: l, Panic)
           end
      else let '(l', r) := mergeLoop matches merge l in (c :: l', r)
  end.

Definition addItem (matches : A → bool) (merge : A → outcome A) (new : A) : GoM (list A) unit := λ l,
  match mergeLoop matches merge l with
  | (l', Ret true) => (l', Ret tt)
  | (l', Ret false) => (l' ++ [new], Ret tt)
  | (l', Fail e) => (l', Fail e)
  | (l', Panic) => (l', Panic)
  end.
End MergeLoop.

(** The merge functions every kind of item has: keep the new one, keep the
    current one, or refuse. *)
Definition MergeFunction (A : Type) : Type := A → A → outcome A.
Definition OverrideCurrent {A : Type} : MergeFunction A := λ current new, Ret new.
Definition IgnoreNew {A : Type} : MergeFunction A := λ current new, Ret current.
Definition errMergeAttempted : error := Errorf "merge attempted".
Definition ErrorOnMergeAttempt {A : Type} : MergeFunction A := λ current new, Fail errMergeAttempted.

(** A nil function is the default one, which overrides. *)
Definition orDefault {A : Type} (mergeFunc : option (MergeFunction A)) : MergeFunction A :=
  default OverrideCurrent mergeFunc.

Section Managers.
Context {Spec : Type}.
Abbreviation EnvVar := (EnvVar Spec).
Abbreviation VolumeMount := (VolumeMount Spec).
Abbreviation ContainerPort := (ContainerPort Spec).
Abbreviation Volume := (Volume Spec).
Abbreviation ConfigMapVolumeSource := (ConfigMapVolumeSource Spec).
Abbreviation Container := (Container Spec).
Abbreviation PodTemplateSpec := (PodTemplateSpec Spec).

Definition set_Env (l : list EnvVar) (c : Container) : Container :=
  mkContainer (c_Name c) l (c_EnvFrom c) (c_VolumeMounts c) (c_Ports c) (c_SecurityContext c) (c_Rest c).
Definition set_EnvFrom (l : list EnvFromSource) (c : Container) : Container :=
  mkContainer (c_Name c) (c_Env c) l (c_VolumeMounts c) (c_Ports c) (c_SecurityContext c) (c_Rest c).
Definition set_VolumeMounts (l : list VolumeMount) (c : Container) : Container :=
  mkContainer (c_Name c) (c_Env c) (c_EnvFrom c) l (c_Ports c) (c_SecurityContext c) (c_Rest c).
Definition set_Ports (l : list ContainerPort) (c : Container) : Container :=
  mkContainer (c_Name c) (c_Env c) (c_EnvFrom c) (c_VolumeMounts c) l (c_SecurityContext c) (c_Rest c).
Definition set_SecurityContext (s : option (SecurityContext Spec)) (c : Container) : Container :=
  mkContainer (c_Name c) (c_Env c) (c_EnvFrom c) (c_VolumeMounts c) (c_Ports c) s (c_Rest c).
Definition set_Containers (l : list Container) (p : PodTemplateSpec) : PodTemplateSpec :=
  mkPodTemplateSpec (pod_Annotations p) l (pod_InitContainers p) (pod_Volumes p).
Definition set_InitContainers (l : list Container) (p : PodTemplateSpec) : PodTemplateSpec :=
  mkPodTemplateSpec (pod_Annotations p) (pod_Containers p) l (pod_Volumes p).
Definition set_Volumes (l : list Volume) (p : PodTemplateSpec) : PodTemplateSpec :=
  mkPodTemplateSpec (pod_Annotations p) (pod_Containers p) (pod_InitContainers p) l.

(** An update of one field of a container or pod. *)
Definition zoom {S A : Type} (get : S → A) (set : A → S → S) (m : GoM A unit) : GoM S unit := λ s,
  let '(a, r) := m (get s) in (set a s, r).

(** *** Containers of a pod *)

Definition AllAgentContainers : list string :=
  ["agent"; "trace-agent"; "process-agent"; "security-agent"; "system-probe"; "otel-agent"; "host-profiler";
   "agent-data-plane"; "private-action-runner"; "flightrecorder"; "cluster-agent"; "unprivileged-single-agent"].

Definition isAgentContainer (name : string) : bool := bool_decide (name ∈ AllAgentContainers).

(** Each selected container in turn, up to the first error. *)
Fixpoint onContainers (sel : string → bool) (f : GoM Container unit) (l : list Container) : list Container * outcome unit :=
  match l with
  | [] => ([], Ret tt)
  | c :: l =>
      if sel (c_Name c)
      then match f c with
           | (c', Ret _) => let '(l', r) := onContainers sel f l in (c' :: l', r)
           | (c', r) => (c' :: l, r)
           end
      else let '(l', r) := onContainers sel f l in (c :: l', r)
  end.

(** Only the first selected container. *)
Fixpoint onFirstContainer (sel : string → bool) (f : GoM Container unit) (l : list Container) : list Container * outcome unit :=
  match l with
  | [] => ([], Ret tt)
  | c :: l =>
      if sel (c_Name c) then let '(c', r) := f c in (c' :: l, r)
      else let '(l', r) := onFirstContainer sel f l in (c :: l', r)
  end.

(** [_ = f()]: the error is dropped. *)
Definition ignoreError {S : Type} (m : GoM S unit) : GoM S unit := _ ← attempt m; mret tt.

Definition named (containerName name : string) : bool := bool_decide (name = containerName).

(** *** Environment variables *)

Definition AppendToValueEnvVarMergeFunction : MergeFunction EnvVar := λ current newEnv,
  Ret (mkEnvVar (env_Name current) (env_Value current +:+ " " +:+ env_Value newEnv) (env_ValueFrom current)).

Definition AddEnvVarToContainer (envvar : EnvVar) (mergeFunc : option (MergeFunction EnvVar)) : GoM Container unit :=
  zoom c_Env set_Env
    (addItem (λ c, bool_decide (env_Name envvar = env_Name c)) (λ c, orDefault mergeFunc c envvar) envvar).

Definition AddEnvVarWithMergeFunc (newEnvVar : EnvVar) (mergeFunc : option (MergeFunction EnvVar)) : GoM PodTemplateSpec unit :=
  zoom pod_Containers set_Containers (onContainers isAgentContainer (AddEnvVarToContainer newEnvVar mergeFunc)).

Definition AddEnvVar (newEnvVar : EnvVar) : GoM PodTemplateSpec unit :=
  ignoreError (AddEnvVarWithMergeFunc newEnvVar (Some OverrideCurrent)).

Definition AddEnvVarToContainerWithMergeFunc (containerName : string) (newEnvVar : EnvVar)
    (mergeFunc : option (MergeFunction EnvVar)) : GoM PodTemplateSpec unit :=
  zoom pod_Containers set_Containers (onContainers (named containerName) (AddEnvVarToContainer newEnvVar mergeFunc)).

Definition AddEnvVarToContainers (containerNames : list string) (newEnvVar : EnvVar) : GoM PodTemplateSpec unit :=
  for_each (λ containerName, ignoreError (AddEnvVarToContainerWithMergeFunc containerName newEnvVar (Some OverrideCurrent)))
    containerNames.

Definition AddEnvVarToInitContainerWithMergeFunc (initContainerName : string) (newEnvVar : EnvVar)
    (mergeFunc : option (MergeFunction EnvVar)) : GoM PodTemplateSpec unit :=
  zoom pod_InitContainers set_InitContainers
    (onContainers (named initContainerName) (AddEnvVarToContainer newEnvVar mergeFunc)).

(** *** Environment sources *)

Definition sameRef (a b : option EnvSourceRef) : bool :=
  match a, b with Some a, Some b => bool_decide (esr_Name a = esr_Name b) | _, _ => false end.

Definition matchesEnvFrom (new c : EnvFromSource) : bool :=
  sameRef (ef_ConfigMapRef c) (ef_ConfigMapRef new) || sameRef (ef_SecretRef c) (ef_SecretRef new).

(** [found] is not reset: the elements after a match are merged too. *)
Fixpoint envFromLoop (merge : EnvFromSource → outcome EnvFromSource) (matches : EnvFromSource → bool) (found : bool)
    (l : list EnvFromSource) : list EnvFromSource * outcome bool :=
  match l with
  | [] => ([], Ret found)
  | c :: l =>
      let found := found || matches c in
      if found
      then match merge c with
           | Ret c' => let '(l', r) := envFromLoop merge matches found l in (c' :: l', r)
           | Fail e => (c :: l, Fail e)
           | Panic => (c :: l, Panic)
           end
      else let '(l', r) := envFromLoop merge matches found l in (c :: l', r)
  end.

Definition AddEnvFromSourceFromToContainer (envFromSource : EnvFromSource)
    (mergeFunc : option (MergeFunction EnvFromSource)) : GoM Container unit :=
  zoom c_EnvFrom set_EnvFrom (λ l,
    match envFromLoop (λ c, orDefault mergeFunc c envFromSource) (matchesEnvFrom envFromSource) false l with
    | (l', Ret true) => (l', Ret tt)
    | (l', Ret false) => (l' ++ [envFromSource], Ret tt)
    | (l', Fail e) => (l', Fail e)
    | (l', Panic) => (l', Panic)
    end).

Definition AddEnvFromVarWithMergeFunc (newEnvFromVar : EnvFromSource) (mergeFunc : option (MergeFunction EnvFromSource)) :
    GoM PodTemplateSpec unit :=
  zoom pod_Containers set_Containers (onContainers isAgentContainer (AddEnvFromSourceFromToContainer newEnvFromVar mergeFunc)).

Definition AddEnvFromVar (newEnvFromVar : EnvFromSource) : GoM PodTemplateSpec unit :=
  ignoreError (AddEnvFromVarWithMergeFunc newEnvFromVar (Some OverrideCurrent)).

Definition AddEnvFromVarToContainerWithMergeFunc (containerName : string) (newEnvFromVar : EnvFromSource)
    (mergeFunc : option (MergeFunction EnvFromSource)) : GoM PodTemplateSpec unit :=
  zoom pod_Containers set_Containers
    (onContainers (named containerName) (AddEnvFromSourceFromToContainer newEnvFromVar mergeFunc)).

Definition AddEnvFromVarToContainers (containerNames : list string) (newEnvFromVar : EnvFromSource) : GoM PodTemplateSpec unit :=
  for_each (λ containerName,
    ignoreError (AddEnvFromVarToContainerWithMergeFunc containerName newEnvFromVar (Some OverrideCurrent))) containerNames.

Definition AddEnvFromVarToInitContainerWithMergeFunc (initContainerName : string) (newEnvFromVar : EnvFromSource)
    (mergeFunc : option (MergeFunction EnvFromSource)) : GoM PodTemplateSpec unit :=
  zoom pod_InitContainers set_InitContainers
    (onContainers (named initContainerName) (AddEnvFromSourceFromToContainer newEnvFromVar mergeFunc)).

(** *** Volumes *)

Definition mergeMode (a b : option Z) : option Z :=
  match a, b with
  | None, _ => b
  | _, None => a
  | Some x, Some y => if bool_decide (x < y)%Z then b else a
  end.

(** The items of [b] are added to those of [a]: the paths already used, and the
    items so far. *)
Fixpoint mergeItems (allPath : gmap string string) (items : list KeyToPath) (b : list KeyToPath) : list KeyToPath + error :=
  match b with
  | [] => inl items
  | item :: b =>
      match allPath !! kp_Path item with
      | Some oldKey =>
          if bool_decide (kp_Key item = oldKey)
          then let items := (λ tmpItem, if bool_decide (kp_Key tmpItem = kp_Key item)
                                        then mkKeyToPath (kp_Key tmpItem) (kp_Path tmpItem) (mergeMode (kp_Mode tmpItem) (kp_Mode item))
                                        else tmpItem) <$> items in
               mergeItems (<[kp_Path item := kp_Key item]> allPath) items b
          else inr (Errorf ("path " +:+ kp_Path item +:+ " already used"))
      | None => mergeItems (<[kp_Path item := kp_Key item]> allPath) (items ++ [item]) b
      end
  end.

Definition mergeConfigMapVolumeSource (a b : ConfigMapVolumeSource) : ConfigMapVolumeSource + error :=
  let allPath := foldl (λ m item, <[kp_Path item := kp_Key item]> m) ∅ (cms_Items a) in
  match mergeItems allPath (cms_Items a) (cms_Items b) with
  | inl items => inl (mkConfigMapVolumeSource (cms_Name a) items (cms_Rest a))
  | inr e => inr e
  end.

(** Both volumes are dereferenced as ConfigMaps. *)
Definition MergeConfigMapItemsVolumeMergeFunction : MergeFunction Volume := λ current newVolume,
  match vol_ConfigMap current, vol_ConfigMap newVolume with
  | Some a, Some b =>
      if negb (bool_decide (cms_Name a = cms_Name b)) then Ret newVolume
      else match mergeConfigMapVolumeSource a b with
           | inl merged => Ret (mkVolume (vol_Name current) (Some merged) (vol_Rest current))
           | inr e => Fail e
           end
  | _, _ => Panic
  end.

Definition AddVolumeToPod (volume : Volume) (mergeFunc : option (MergeFunction Volume)) : GoM PodTemplateSpec unit :=
  zoom pod_Volumes set_Volumes
    (addItem (λ c, bool_decide (vol_Name volume = vol_Name c)) (λ c, orDefault mergeFunc c volume) volume).

Definition AddVolume (volume : Volume) : GoM PodTemplateSpec unit :=
  ignoreError (AddVolumeToPod volume (Some OverrideCurrent)).

(** *** Volume mounts *)

(** Same name or same path. *)
Definition matchesVolumeMount (new c : VolumeMount) : bool :=
  bool_decide (vm_Name new = vm_Name c) || bool_decide (vm_MountPath new = vm_MountPath c).

Definition AddVolumeMountToContainerWithMergeFunc (volumeMount : VolumeMount)
    (mergeFunc : option (MergeFunction VolumeMount)) : GoM Container unit :=
  zoom c_VolumeMounts set_VolumeMounts
    (addItem (matchesVolumeMount volumeMount) (λ c, orDefault mergeFunc c volumeMount) volumeMount).

Definition AddVolumeMountWithMergeFunc (volumeMount : VolumeMount) (mergeFunc : option (MergeFunction VolumeMount)) :
    GoM PodTemplateSpec unit :=
  zoom pod_Containers set_Containers
    (onContainers isAgentContainer (AddVolumeMountToContainerWithMergeFunc volumeMount mergeFunc)).

Definition AddVolumeMount (volumeMount : VolumeMount) : GoM PodTemplateSpec unit :=
  ignoreError (AddVolumeMountWithMergeFunc volumeMount (Some OverrideCurrent)).

Definition AddVolumeMountToContainer (volumeMount : VolumeMount) (containerName : string) : GoM PodTemplateSpec unit :=
  zoom pod_Containers set_Containers
    (onContainers (named containerName) (ignoreError (AddVolumeMountToContainerWithMergeFunc volumeMount (Some OverrideCurrent)))).

Definition AddVolumeMountToInitContainer (volumeMount : VolumeMount) (containerName : string) : GoM PodTemplateSpec unit :=
  zoom pod_InitContainers set_InitContainers
    (onContainers (named containerName) (ignoreError (AddVolumeMountToContainerWithMergeFunc volumeMount (Some OverrideCurrent)))).

Definition AddVolumeMountToContainers (volumeMount : VolumeMount) (containerNames : list string) : GoM PodTemplateSpec unit :=
  for_each (AddVolumeMountToContainer volumeMount) containerNames.

(** The manager's method: the first container of that name. *)
Definition Manager_AddVolumeMountToContainerWithMergeFunc (volumeMount : VolumeMount) (containerName : string)
    (mergeFunc : option (MergeFunction VolumeMount)) : GoM PodTemplateSpec unit :=
  zoom pod_Containers set_Containers
    (onFirstContainer (named containerName) (AddVolumeMountToContainerWithMergeFunc volumeMount mergeFunc)).

(** *** Ports *)

Definition AddPortToContainer (newPort : ContainerPort) (mergeFunc : option (MergeFunction ContainerPort)) : GoM Container unit :=
  zoom c_Ports set_Ports
    (addItem (λ c, bool_decide (cp_Name c = cp_Name newPort)) (λ c, orDefault mergeFunc c newPort) newPort).

Definition AddPortToContainerWithMergeFunc (containerName : string) (newPort : ContainerPort)
    (mergeFunc : option (MergeFunction ContainerPort)) : GoM PodTemplateSpec unit :=
  zoom pod_Containers set_Containers (onContainers (named containerName) (AddPortToContainer newPort mergeFunc)).

(** *** Capabilities *)

(** The distinct elements of a sorted list, by the swaps of the Go loop: the one
    kept last is compared with the next. *)
Fixpoint uniqueSorted (prev : string) (l : list string) : list string :=
  match l with
  | [] => []
  | x :: l => if bool_decide (prev = x) then uniqueSorted prev l else x :: uniqueSorted x l
  end.

Definition SortAndUnique (l : list string) : list string :=
  match sort_by String.le l with
  | [] => []
  | x :: l => x :: uniqueSorted x l
  end.

Context (zeroSpec : Spec).

Definition addCapabilities (capabilities : list string) : GoM Container unit := λ c,
  let sc := default (mkSecurityContext None zeroSpec) (c_SecurityContext c) in
  let add := default [] (sc_Add sc) in
  (set_SecurityContext (Some (mkSecurityContext (Some (SortAndUnique (add ++ capabilities))) (sc_Rest sc))) c, Ret tt).

Definition AddCapabilitiesToContainer (capabilities : list string) (containerName : string) : GoM PodTemplateSpec unit :=
  zoom pod_Containers set_Containers (onFirstContainer (named containerName) (addCapabilities capabilities)).

(** *** Annotations *)

(** An assignment to a nil map panics. *)
Definition AddAnnotation (key value : string) : GoM PodTemplateSpec unit := λ p,
  match pod_Annotations p with
  | None => (p, Panic)
  | Some m => (mkPodTemplateSpec (Some (<[key := value]> m)) (pod_Containers p) (pod_InitContainers p) (pod_Volumes p), Ret tt)
  end.
End Managers.
