(* ===== verification/PodMergerTheorems.v ===== *)
(** * Properties of the pod template managers.

    Items that are merged by name stay unique and are set exactly where they
    should be; ConfigMap volumes are merged without losing or remapping a path. *)

From Stdlib Require Import ZArith Lia Ascii.
From stdpp Require Import base gmap strings list.
From S2P Require Import Prelude Cluster PodMerger.

(** ** Items merged by key *)

Lemma mergeLoop_total {A} (matches : A → bool) merge l :
  (∀ c, ∃ c', merge c = Ret c') → ∃ l' b, mergeLoop matches merge l = (l', Ret b).
Proof.
  intros Hm. induction l as [|x l (l' & b & IH)]; simpl; [eauto|].
  destruct (Hm x) as [x' Hx']. rewrite IH, Hx'. destruct (matches x); eauto.
Qed.

Section Keyed.
Context {A : Type} (key : A → string).
Implicit Types l : list A.

(** The first item of a key. *)
Definition item_of (k : string) l : option A := head (filter (λ x, key x = k) l).

Lemma item_of_app k l1 l2 : item_of k (l1 ++ l2) = match item_of k l1 with Some x => Some x | None => item_of k l2 end.
Proof. unfold item_of. rewrite filter_app. by destruct (filter (λ x, key x = k) l1). Qed.

Lemma item_of_cons k x l : item_of k (x :: l) = if decide (key x = k) then Some x else item_of k l.
Proof. unfold item_of. rewrite filter_cons. by case_decide. Qed.

Lemma item_of_None k l : item_of k l = None ↔ k ∉ (key <$> l).
Proof.
  unfold item_of. rewrite list_elem_of_fmap. destruct (filter (λ x, key x = k) l) as [|y ys] eqn:E; simpl.
  - split; [|done]. intros _ (x & -> & Hin). by apply (filter_nil_not_elem_of _ _ x) in E.
  - split; [done|]. intros []. exists y. assert (y ∈ filter (λ x, key x = k) l) as Hy by (rewrite E; by left).
    apply list_elem_of_filter in Hy as [??]. done.
Qed.

Context (new : A) (merge : A → outcome A).
Abbreviation matches := (λ c, bool_decide (key new = key c)).

Lemma mergeLoop_none l : key new ∉ (key <$> l) → mergeLoop matches merge l = (l, Ret false).
Proof.
  induction l as [|c l IH]; [done|]. rewrite fmap_cons, not_elem_of_cons. intros [Hne Hni]. simpl.
  rewrite bool_decide_false by done. by rewrite IH.
Qed.

(** With unique keys, one item at most is merged, in place. *)
Lemma addItem_keyed l :
  NoDup (key <$> l) →
  (∀ c, c ∈ l → key c = key new → ∃ c', merge c = Ret c' ∧ key c' = key new) →
  ∃ l', addItem matches merge new l = (l', Ret tt) ∧
    (((key new ∉ (key <$> l)) ∧ l' = l ++ [new]) ∨
     ∃ l1 c c' l2, l = l1 ++ c :: l2 ∧ key c = key new ∧ merge c = Ret c' ∧ key c' = key new ∧ l' = l1 ++ c' :: l2).
Proof.
  intros Hnd Hm. destruct (decide (key new ∈ (key <$> l))) as [Hin|Hni].
  2:{ exists (l ++ [new]). unfold addItem. rewrite mergeLoop_none by done. auto. }
  apply list_elem_of_fmap in Hin as (c & Hkey & Hin). destruct (Hm c Hin (eq_sym Hkey)) as (c' & Hc' & Hkc').
  apply list_elem_of_split in Hin as (l1 & l2 & ->).
  rewrite fmap_app, fmap_cons in Hnd. apply NoDup_app in Hnd as (_ & Hdis & [Hni2 _]%NoDup_cons).
  exists (l1 ++ c' :: l2). split; [|right; by exists l1, c, c', l2].
  assert (Hloop : mergeLoop matches merge (l1 ++ c :: l2) = (l1 ++ c' :: l2, Ret true)).
  { assert (Hni1 : key new ∉ (key <$> l1)) by (intros Hin; apply (Hdis _ Hin); rewrite Hkey; by left). clear Hdis Hm.
    induction l1 as [|x l1 IH]; simpl.
    - rewrite bool_decide_true, Hc' by done. by rewrite mergeLoop_none by congruence.
    - rewrite fmap_cons, not_elem_of_cons in Hni1. destruct Hni1 as [Hne Hni1].
      rewrite bool_decide_false by done. by rewrite IH. }
  unfold addItem. by rewrite Hloop.
Qed.

Lemma addItem_item_of l :
  NoDup (key <$> l) →
  (∀ c, c ∈ l → key c = key new → ∃ c', merge c = Ret c' ∧ key c' = key new) →
  ∃ l', addItem matches merge new l = (l', Ret tt) ∧ NoDup (key <$> l') ∧
    (∀ k, k ≠ key new → item_of k l' = item_of k l) ∧
    match item_of (key new) l with
    | None => item_of (key new) l' = Some new
    | Some c => ∃ c', merge c = Ret c' ∧ item_of (key new) l' = Some c'
    end.
Proof.
  intros Hnd Hm. destruct (addItem_keyed l Hnd Hm) as (l' & Hrun & Hcase). exists l'. split; [done|].
  destruct Hcase as [[Hni ->]|(l1 & c & c' & l2 & -> & Hkc & Hc' & Hkc' & ->)].
  - rewrite fmap_app. split_and!.
    + apply NoDup_app. split_and!; [done| |by apply NoDup_singleton]. intros k Hin ->%list_elem_of_singleton. done.
    + intros k Hk. rewrite item_of_app, item_of_cons, decide_False by done. by destruct (item_of k l).
    + pose proof Hni as ->%item_of_None. rewrite item_of_app, item_of_cons, decide_True by done.
      by apply item_of_None in Hni as ->.
  - split_and!.
    + rewrite fmap_app, fmap_cons in *. by rewrite Hkc', <-Hkc.
    + intros k Hk. rewrite !item_of_app, !item_of_cons, !decide_False by congruence. done.
    + rewrite fmap_app, fmap_cons in Hnd. apply NoDup_app in Hnd as (_ & Hdis & _).
      assert (Hn1 : item_of (key new) l1 = None) by (apply item_of_None; intros Hin; apply (Hdis _ Hin); rewrite Hkc; by left).
      rewrite !item_of_app, Hn1, !item_of_cons, !decide_True by done. eauto.
Qed.
End Keyed.

(** ** Environment variables *)

Section EnvVars.
Context {Spec : Type}.
Implicit Types c : Container Spec.

Definition env_names c : list string := env_Name <$> c_Env c.
Definition env_of (name : string) c : option (EnvVar Spec) := item_of env_Name name (c_Env c).

Lemma AddEnvVarToContainer_total new c : (AddEnvVarToContainer new (Some OverrideCurrent) c).2 = Ret tt.
Proof.
  unfold AddEnvVarToContainer, zoom, addItem.
  destruct (mergeLoop_total (λ x, bool_decide (env_Name new = env_Name x)) (λ x, orDefault (Some OverrideCurrent) x new) (c_Env c))
    as (l' & [] & ->); [by intros; exists new|done..].
Qed.

Lemma AddEnvVarToContainer_sets new c :
  NoDup (env_names c) →
  let c' := (AddEnvVarToContainer new (Some OverrideCurrent) c).1 in
  NoDup (env_names c') ∧ env_of (env_Name new) c' = Some new ∧
  (∀ name, name ≠ env_Name new → env_of name c' = env_of name c) ∧ c' = set_Env (c_Env c') c.
Proof.
  intros Hnd. destruct (addItem_item_of env_Name new (λ x, orDefault (Some OverrideCurrent) x new) (c_Env c) Hnd)
    as (l' & Hrun & Hnd' & Hother & Hnew); [by intros; exists new|].
  unfold AddEnvVarToContainer, zoom. rewrite Hrun. simpl. split_and!; [done| |done|done].
  unfold env_of. simpl. destruct (item_of env_Name (env_Name new) (c_Env c)); [|done].
  destruct Hnew as (c' & Hc' & ->). by injection Hc' as <-.
Qed.

Lemma onContainers_total sel (f : GoM (Container Spec) unit) l :
  (∀ c, (f c).2 = Ret tt) → onContainers sel f l = ((λ c, if sel (c_Name c) then (f c).1 else c) <$> l, Ret tt).
Proof.
  intros Hf. induction l as [|c l IH]; simpl; [done|]. rewrite IH. destruct (sel (c_Name c)); [|done].
  specialize (Hf c). destruct (f c) as [c' r]. simpl in Hf. by subst r.
Qed.

(** Adding a variable to a pod reaches every container of an agent and no
    other: such a container has the variable with the new value, its other
    variables as before and unique names still, and nothing else of the pod
    changes. *)
Theorem pod_env_var_added new (p : PodTemplateSpec Spec) :
  ∃ p', AddEnvVar new p = (p', Ret tt) ∧ p' = set_Containers (pod_Containers p') p ∧
    Forall2 (λ c c',
      (isAgentContainer (c_Name c) = false → c' = c) ∧
      (isAgentContainer (c_Name c) = true → NoDup (env_names c) →
         NoDup (env_names c') ∧ env_of (env_Name new) c' = Some new ∧
         (∀ name, name ≠ env_Name new → env_of name c' = env_of name c) ∧ c' = set_Env (c_Env c') c))
      (pod_Containers p) (pod_Containers p').
Proof.
  unfold AddEnvVar, ignoreError, AddEnvVarWithMergeFunc, zoom, mbind, GoM_bind, attempt.
  rewrite onContainers_total by (intros; apply AddEnvVarToContainer_total).
  eexists. split; [done|]. split; [done|]. simpl. apply Forall2_fmap_r, Forall_Forall2_diag, Forall_true.
  intros c. split; intros Ha; rewrite Ha; [done|]. apply AddEnvVarToContainer_sets.
Qed.

(** A source after the one that matches is overwritten too, and lost. *)
Lemma env_from_overwrites_followers (c : Container Spec) :
  let cm := mkEnvFromSource "" (Some (mkEnvSourceRef "settings" None)) None in
  let secret := mkEnvFromSource "" None (Some (mkEnvSourceRef "token" None)) in
  let new := mkEnvFromSource "DD_" (Some (mkEnvSourceRef "settings" None)) None in
  c_EnvFrom c = [cm; secret] →
  AddEnvFromSourceFromToContainer new None c = (set_EnvFrom [new; new] c, Ret tt).
Proof. intros cm secret new Hc. unfold AddEnvFromSourceFromToContainer, zoom. by rewrite Hc. Qed.

(** A mount that matches one mount by name and another by path replaces both, and
    the container has the same mount twice. *)
Lemma volume_mount_duplicated (c : Container Spec) (s : Spec) :
  let new := mkVolumeMount "config" "/b" s in
  c_VolumeMounts c = [mkVolumeMount "config" "/a" s; mkVolumeMount "data" "/b" s] →
  AddVolumeMountToContainerWithMergeFunc new None c = (set_VolumeMounts [new; new] c, Ret tt).
Proof. intros new Hc. unfold AddVolumeMountToContainerWithMergeFunc, zoom. by rewrite Hc. Qed.
End EnvVars.

(** ** ConfigMap volumes *)

(** A path of the volume is mapped to a key of the ConfigMap. *)
Definition binds (items : list KeyToPath) (path key : string) : Prop :=
  ∃ item, item ∈ items ∧ kp_Path item = path ∧ kp_Key item = key.

Lemma binds_app l1 l2 path key : binds (l1 ++ l2) path key ↔ binds l1 path key ∨ binds l2 path key.
Proof. unfold binds. setoid_rewrite elem_of_app. naive_solver. Qed.

Lemma binds_cons item l path key :
  binds (item :: l) path key ↔ (kp_Path item = path ∧ kp_Key item = key) ∨ binds l path key.
Proof. unfold binds. setoid_rewrite elem_of_cons. naive_solver. Qed.

Lemma binds_nil path key : ¬ binds [] path key.
Proof. unfold binds. set_solver. Qed.

(** Changing modes changes no path and no key. *)
Lemma binds_fmap (f : KeyToPath → KeyToPath) l path key :
  (∀ x, kp_Path (f x) = kp_Path x ∧ kp_Key (f x) = kp_Key x) → binds (f <$> l) path key ↔ binds l path key.
Proof.
  intros Hf. unfold binds. setoid_rewrite list_elem_of_fmap. split.
  - intros (? & (x & -> & Hin) & Hp & Hk). destruct (Hf x). exists x. split_and!; congruence.
  - intros (x & Hin & Hp & Hk). destruct (Hf x). exists (f x). split_and!; [eauto|congruence..].
Qed.

Lemma paths_fmap (f : KeyToPath → KeyToPath) (l : list KeyToPath) :
  (∀ x, kp_Path (f x) = kp_Path x ∧ kp_Key (f x) = kp_Key x) → kp_Path <$> (f <$> l) = kp_Path <$> l.
Proof. intros Hf. rewrite <-list_fmap_compose. apply list_fmap_ext. intros i x _. apply Hf. Qed.

(** The paths used, with the keys they map to. *)
Definition tracks (allPath : gmap string string) (items : list KeyToPath) : Prop :=
  NoDup (kp_Path <$> items) ∧ ∀ path key, allPath !! path = Some key ↔ binds items path key.

Lemma tracks_snoc allPath items item :
  tracks allPath items → allPath !! kp_Path item = None → tracks (<[kp_Path item := kp_Key item]> allPath) (items ++ [item]).
Proof.
  intros [Hnd Hb] Hnone. split.
  - rewrite fmap_app. apply NoDup_app. split_and!; [done| |by apply NoDup_singleton].
    intros p (x & -> & Hin)%list_elem_of_fmap Heq%list_elem_of_singleton. rewrite <-Heq in Hnone.
    assert (allPath !! kp_Path x = Some (kp_Key x)) by (apply Hb; by exists x). congruence.
  - intros path key. rewrite binds_app, binds_cons, <-Hb. destruct (decide (kp_Path item = path)) as [<-|Hne].
    + rewrite lookup_insert_eq, Hnone. pose proof (binds_nil (kp_Path item) key). naive_solver.
    + rewrite lookup_insert_ne by done. pose proof (binds_nil path key). naive_solver.
Qed.

Lemma tracks_all items :
  NoDup (kp_Path <$> items) → tracks (foldl (λ m item, <[kp_Path item := kp_Key item]> m) ∅ items) items.
Proof.
  induction items as [|item items IH] using rev_ind; intros Hnd.
  { split; [done|]. intros path key. simpl. rewrite lookup_empty. pose proof (binds_nil path key). naive_solver. }
  rewrite fmap_app in Hnd. apply NoDup_app in Hnd as (Hnd & Hdis & _). rewrite foldl_snoc.
  apply tracks_snoc; [auto|]. destruct (IH Hnd) as [_ Hb]. apply eq_None_not_Some. intros [key Hk].
  apply Hb in Hk as (x & Hin & Hp & _). apply (Hdis (kp_Path x)); [by apply list_elem_of_fmap_2|]. rewrite Hp. by left.
Qed.

Lemma mergeItems_spec allPath items b :
  tracks allPath items →
  match mergeItems allPath items b with
  | inl r => NoDup (kp_Path <$> r) ∧ ∀ path key, binds r path key ↔ binds items path key ∨ binds b path key
  | inr _ => ∃ path key key', key ≠ key' ∧ binds (items ++ b) path key ∧ binds (items ++ b) path key'
  end.
Proof.
  revert allPath items. induction b as [|item b IH]; intros allPath items Ht; simpl.
  { split; [apply Ht|]. intros path key. pose proof (binds_nil path key). naive_solver. }
  destruct (allPath !! kp_Path item) as [oldKey|] eqn:Hp.
  - pose proof (proj2 Ht) as Hb. case_bool_decide as Hk.
    + set (f := λ x : KeyToPath, if bool_decide (kp_Key x = kp_Key item) then _ else x).
      assert (Hf : ∀ x, kp_Path (f x) = kp_Path x ∧ kp_Key (f x) = kp_Key x) by (intros x; unfold f; by case_bool_decide).
      assert (Hsame : binds items (kp_Path item) (kp_Key item)) by (apply Hb; congruence).
      specialize (IH (<[kp_Path item := kp_Key item]> allPath) (f <$> items)).
      rewrite insert_id in IH |- * by congruence.
      assert (Ht' : tracks allPath (f <$> items)).
      { split; [rewrite paths_fmap by done; apply Ht|]. intros path key. by rewrite binds_fmap, Hb. }
      specialize (IH Ht'). destruct (mergeItems allPath (f <$> items) b) as [r|e].
      * destruct IH as [Hnd Hr]. split; [done|]. intros path key. rewrite Hr, binds_fmap, binds_cons by done.
        split; [naive_solver|]. intros [?|[[<- <-]|?]]; auto.
      * destruct IH as (path & key & key' & Hne & H1 & H2). exists path, key, key'.
        rewrite binds_app, binds_fmap in H1, H2 by done. rewrite !binds_app, !binds_cons. naive_solver.
    + exists (kp_Path item), (kp_Key item), oldKey. split; [done|]. rewrite !binds_app, !binds_cons, <-!Hb. auto.
  - specialize (IH _ _ (tracks_snoc _ _ _ Ht Hp)). destruct (mergeItems _ (items ++ [item]) b) as [r|e].
    + destruct IH as [Hnd Hr]. split; [done|]. intros path key. rewrite Hr, binds_app, !binds_cons.
      pose proof (binds_nil path key). naive_solver.
    + by rewrite <-app_assoc in IH.
Qed.

(** Merging the items of two ConfigMap volumes keeps every path of both with
    its key and adds no other, with no path twice; and it fails only when the two
    map one path to different keys. *)
Theorem configmap_volume_merge {Spec : Type} (a b : ConfigMapVolumeSource Spec) :
  NoDup (kp_Path <$> cms_Items a) →
  match mergeConfigMapVolumeSource a b with
  | inl r => cms_Name r = cms_Name a ∧ NoDup (kp_Path <$> cms_Items r) ∧
             ∀ path key, binds (cms_Items r) path key ↔ binds (cms_Items a) path key ∨ binds (cms_Items b) path key
  | inr _ => ∃ path key key', key ≠ key' ∧ binds (cms_Items a ++ cms_Items b) path key ∧
                              binds (cms_Items a ++ cms_Items b) path key'
  end.
Proof.
  intros Hnd. unfold mergeConfigMapVolumeSource.
  pose proof (mergeItems_spec _ _ (cms_Items b) (tracks_all _ Hnd)) as Hm.
  by destruct (mergeItems _ (cms_Items a) (cms_Items b)).
Qed.
