(* ===== verification/ResourceManagers.v ===== *)
(** * Resource managers.

    Models [internal/controller/datadogagent/merger/{configmap,secret,service,rbac,
    network_policy,cilium,apiservice}.go]: what features add to the dependencies
    store.  A manager reads an object of the store or starts an empty one, merges
    its contribution and puts it back. *)

From Stdlib Require Import ZArith Ascii.
From stdpp Require Import base gmap strings list.
From S2P Require Import Prelude Cluster Rbac Objects Store.

Section Managers.
Context {Spec : Type} `{EqDecision Spec}.
Context (zeroSpec : Spec) (ParseGroupVersion : string → (string * string) + error).
Context (glob_Compile : string → (string → bool) + error).

(** ** The store, as the managers see it *)

Definition getOrCreate (kind namespace name : string) : GoM (Store Spec) (Object Spec) := λ ds,
  (ds, match GetOrCreate zeroSpec ds kind namespace name with
       | Ret (obj, _) => Ret obj
       | Fail e => Fail e
       | Panic => Panic
       end).

Definition addOrUpdate (kind : string) (obj : Object Spec) : GoM (Store Spec) unit := λ ds,
  match AddOrUpdate ParseGroupVersion ds kind obj with
  | (ds', None) => (ds', Ret tt)
  | (ds', Some e) => (ds', Fail e)
  end.

(** ** ConfigMaps and Secrets *)

(** [data] is [None] for a nil map. *)
Definition AddConfigMap (name namespace : string) (data : option (gmap string string)) : GoM (Store Spec) unit :=
  obj ← getOrCreate ConfigMapKind namespace name;
  match o_Body obj with
  | ConfigMap _ binaryData => addOrUpdate ConfigMapKind (set_Body (ConfigMap data binaryData) obj)
  | _ => fail (Errorf ("unable to get from the store the ConfigMap " +:+ namespace +:+ "/" +:+ name))
  end.

Definition AddSecret (secretNamespace secretName key value : string) : GoM (Store Spec) unit :=
  obj ← getOrCreate SecretsKind secretNamespace secretName;
  match o_Body obj with
  | Secret data => addOrUpdate SecretsKind (set_Body (Secret (Some (<[key := value]> (default ∅ data)))) obj)
  | _ => fail (Errorf ("unable to get the Secret " +:+ secretNamespace +:+ "/" +:+ secretName +:+ " from the store"))
  end.

Definition AddAnnotations (secretNamespace secretName : string) (extraAnnotations : gmap string string) : GoM (Store Spec) unit :=
  obj ← getOrCreate SecretsKind secretNamespace secretName;
  match o_Body obj with
  | Secret _ =>
      addOrUpdate SecretsKind
        (if decide (extraAnnotations = ∅) then obj
         else set_Annotations (MergeAnnotationsLabels glob_Compile (o_Annotations obj) extraAnnotations "*") obj)
  | _ => fail (Errorf ("unable to get the Secret " +:+ secretNamespace +:+ "/" +:+ secretName +:+ " from the store"))
  end.

(** ** Services *)

Definition ErrServicePortConflict : error := Errorf "service port conflict".

(** The new ports, one at a time: the ports so far and the index of each name. *)
Fixpoint addServicePorts (ports : list (ServicePort Spec)) (portsByName : gmap string nat) (newPorts : list (ServicePort Spec)) :
    list (ServicePort Spec) + error :=
  match newPorts with
  | [] => inl ports
  | port :: newPorts =>
      if bool_decide (sp_Name port = "") then addServicePorts (ports ++ [port]) portsByName newPorts
      else match portsByName !! sp_Name port with
           | Some existingIndex =>
               if bool_decide (ports !! existingIndex = Some port) then addServicePorts ports portsByName newPorts
               else inr (Wrapf ("port " +:+ sp_Name port +:+ " conflicts with existing port") ErrServicePortConflict)
           | None => addServicePorts (ports ++ [port]) (<[sp_Name port := length ports]> portsByName) newPorts
           end
  end.

(** The index of each name, the last port of a name winning. *)
Fixpoint indexPorts (i : nat) (portsByName : gmap string nat) (ports : list (ServicePort Spec)) : gmap string nat :=
  match ports with
  | [] => portsByName
  | port :: ports =>
      indexPorts (S i) (if bool_decide (sp_Name port = "") then portsByName else <[sp_Name port := i]> portsByName) ports
  end.

Definition mergeServicePorts (existingPorts newPorts : list (ServicePort Spec)) : list (ServicePort Spec) + error :=
  addServicePorts existingPorts (indexPorts 0 ∅ existingPorts) newPorts.

(** [selector] is [None] for a nil map. *)
Definition AddService (name namespace : string) (selector : option (gmap string string)) (ports : list (ServicePort Spec))
    (internalTrafficPolicy : option string) : GoM (Store Spec) unit :=
  obj ← getOrCreate ServicesKind namespace name;
  match o_Body obj with
  | Service s =>
      match (match ports with [] => inl (svc_Ports s) | _ => mergeServicePorts (svc_Ports s) ports end) with
      | inr e => fail (Wrapf ("unable to add ports to Service " +:+ name) e)
      | inl mergedPorts =>
          addOrUpdate ServicesKind
            (set_Body (Service (mkServiceSpec (default (svc_Selector s) selector) mergedPorts "ClusterIP"
               (match internalTrafficPolicy with Some p => Some p | None => Some "Cluster" end)
               (svc_ClusterIP s) (svc_ClusterIPs s))) obj)
      end
  | _ => fail (Errorf ("unable to get from the store the Service " +:+ name))
  end.

(** ** Network policies and API services *)

Definition AddKubernetesNetworkPolicy (name namespace : string) (podSelector : Spec) (policyTypes : list string)
    (ingress egress : list Spec) : GoM (Store Spec) unit :=
  obj ← getOrCreate NetworkPoliciesKind namespace name;
  match o_Body obj with
  | NetworkPolicy s =>
      addOrUpdate NetworkPoliciesKind
        (set_Body (NetworkPolicy (mkNetworkPolicySpec podSelector (np_PolicyTypes s ++ policyTypes)
           (np_Ingress s ++ ingress) (np_Egress s ++ egress))) obj)
  | _ => fail (Errorf ("unable to get from the store the NetworkPolicy " +:+ namespace +:+ "/" +:+ name))
  end.

(** The object is found or made without a namespace, whatever [namespace] is. *)
Definition AddAPIService (name namespace : string) (spec : Spec) : GoM (Store Spec) unit :=
  obj ← getOrCreate APIServiceKind "" name;
  match o_Body obj with
  | APIService _ => addOrUpdate APIServiceKind (set_Body (APIService spec) obj)
  | _ => fail (Errorf ("unable to get from the store the APIService " +:+ name))
  end.

(** ** RBAC *)

Definition RbacAPIGroup : string := "rbac.authorization.k8s.io".
Definition RoleKind : string := "Role".
Definition ClusterRoleKind : string := "ClusterRole".
Definition ServiceAccountKind : string := "ServiceAccount".

(** The store and the names each component added. *)
Record rbacManagerImpl := mkRbacManager {
  m_store : Store Spec;
  serviceAccountByComponent : gmap string (list string);
  roleByComponent : gmap string (list string);
  clusterRoleByComponent : gmap string (list string)
}.

Definition NewRBACManager (store : Store Spec) : rbacManagerImpl := mkRbacManager store ∅ ∅ ∅.

Definition onStore {A : Type} (m : GoM (Store Spec) A) : GoM rbacManagerImpl A := λ s,
  let '(ds, r) := m (m_store s) in
  (mkRbacManager ds (serviceAccountByComponent s) (roleByComponent s) (clusterRoleByComponent s), r).

Definition appendTo (component name : string) (m : gmap string (list string)) : gmap string (list string) :=
  <[component := default [] (m !! component) ++ [name]]> m.

(** [errors.NewAggregate]: nil when no error is. *)
Definition NewAggregate (errs : list (option error)) : option error :=
  match omap id errs with
  | [] => None
  | [e] => Some e
  | l => Some (Errorf ("[" +:+ JoinChar ","%char (error_Error <$> l) +:+ "]"))
  end.

Definition failIf (e : option error) {S : Type} : GoM S unit := match e with Some e => fail e | None => mret tt end.

Definition AddServiceAccount (namespace name : string) : GoM (Store Spec) unit :=
  obj ← getOrCreate ServiceAccountsKind namespace name;
  match o_Body obj with
  | ServiceAccount => addOrUpdate ServiceAccountsKind obj
  | _ => fail (Errorf ("unable to get from the store the ServiceAccount " +:+ namespace +:+ "/" +:+ name))
  end.

Definition AddServiceAccountByComponent (namespace name component : string) : GoM rbacManagerImpl unit :=
  _ ← modify (λ s, mkRbacManager (m_store s) (appendTo component name (serviceAccountByComponent s))
                     (roleByComponent s) (clusterRoleByComponent s));
  onStore (AddServiceAccount namespace name).

(** [Delete] of the store, failing when there is no object. *)
Definition deleteFound (kind namespace name : string) : GoM (Store Spec) unit := λ ds,
  match Delete ds kind namespace name with
  | (ds', true) => (ds', Ret tt)
  | (ds', false) => (ds', Fail (Errorf ("unable to delete from the store because it was not found: " +:+ namespace +:+ "/" +:+ name)))
  end.

(** Each name in turn; the errors are collected. *)
Fixpoint deleteEach (f : string → GoM (Store Spec) unit) (names : list string) : GoM (Store Spec) (list (option error)) :=
  match names with
  | [] => mret []
  | name :: names =>
      r ← attempt (f name);
      rest ← deleteEach f names;
      mret ((match r with inr e => Some e | inl _ => None end) :: rest)
  end.

Definition DeleteServiceAccount (namespace name : string) : GoM (Store Spec) unit :=
  deleteFound ServiceAccountsKind namespace name.

Definition DeleteServiceAccountByComponent (component namespace : string) : GoM rbacManagerImpl unit :=
  names ← gets (λ s, default [] (serviceAccountByComponent s !! component));
  errs ← onStore (deleteEach (DeleteServiceAccount namespace) names);
  failIf (NewAggregate errs).

Definition AddServiceAccountAnnotations (namespace saName : string) (annotations : gmap string string) : GoM (Store Spec) unit :=
  obj ← gets (λ ds, Get ds ServiceAccountsKind namespace saName);
  match obj with
  | Some obj =>
      match o_Body obj with
      | ServiceAccount => addOrUpdate ServiceAccountsKind (set_Annotations (annotations ∪ o_Annotations obj) obj)
      | _ => fail (Errorf ("unable to get from the store the ServiceAccount " +:+ namespace +:+ "/" +:+ saName))
      end
  | None => fail (Errorf ("unable to get from the store the ServiceAccount " +:+ namespace +:+ "/" +:+ saName))
  end.

(** The subjects with the service account, once. *)
Definition addSubject (saNamespace saName : string) (subjects : list Subject) : list Subject :=
  if ContainsFunc (λ sub, bool_decide (sub_Namespace sub = saNamespace) && bool_decide (sub_Name sub = saName)
                          && bool_decide (sub_Kind sub = ServiceAccountKind)) subjects
  then subjects else subjects ++ [mkSubject ServiceAccountKind saName saNamespace].

Definition AddRoleBinding (roleNamespace roleName saNamespace saName : string) (roleRef : RoleRef) : GoM (Store Spec) unit :=
  obj ← getOrCreate RoleBindingKind roleNamespace roleName;
  match o_Body obj with
  | RoleBinding _ subjects =>
      addOrUpdate RoleBindingKind (set_Body (RoleBinding roleRef (addSubject saNamespace saName subjects)) obj)
  | _ => fail (Errorf ("unable to get from the store the RoleBinding " +:+ roleNamespace +:+ "/" +:+ roleName))
  end.

Definition AddClusterRoleBinding (namespace roleName saName : string) (roleRef : RoleRef) : GoM (Store Spec) unit :=
  obj ← getOrCreate ClusterRoleBindingKind "" roleName;
  match o_Body obj with
  | ClusterRoleBinding _ subjects =>
      addOrUpdate ClusterRoleBindingKind (set_Body (ClusterRoleBinding roleRef (addSubject namespace saName subjects)) obj)
  | _ => fail (Errorf ("unable to get from the store the ClusterRoleBinding " +:+ roleName))
  end.

(** [saNamespace]: the variadic argument. *)
Definition AddPolicyRules (namespace roleName saName : string) (policies : list PolicyRule) (saNamespace : list string) :
    GoM (Store Spec) unit :=
  obj ← getOrCreate RolesKind namespace roleName;
  match o_Body obj with
  | Role rules =>
      _ ← addOrUpdate RolesKind (set_Body (Role (rules ++ policies)) obj);
      AddRoleBinding namespace roleName (match saNamespace with ns :: _ => ns | [] => namespace end) saName
        (mkRoleRef RbacAPIGroup RoleKind roleName)
  | _ => fail (Errorf ("unable to get from the store the Role " +:+ namespace +:+ "/" +:+ roleName))
  end.

Definition AddPolicyRulesByComponent (namespace roleName saName : string) (policies : list PolicyRule) (component : string) :
    GoM rbacManagerImpl unit :=
  _ ← modify (λ s, mkRbacManager (m_store s) (serviceAccountByComponent s)
                     (appendTo component roleName (roleByComponent s)) (clusterRoleByComponent s));
  onStore (AddPolicyRules namespace roleName saName policies []).

Definition AddClusterPolicyRules (namespace roleName saName : string) (policies : list PolicyRule) : GoM (Store Spec) unit :=
  obj ← getOrCreate ClusterRolesKind "" roleName;
  match o_Body obj with
  | ClusterRole rules =>
      _ ← addOrUpdate ClusterRolesKind (set_Body (ClusterRole (rules ++ policies)) obj);
      AddClusterRoleBinding namespace roleName saName (mkRoleRef RbacAPIGroup ClusterRoleKind roleName)
  | _ => fail (Errorf ("unable to get from the store the ClusterRole " +:+ roleName))
  end.

Definition AddClusterPolicyRulesByComponent (namespace roleName saName : string) (policies : list PolicyRule)
    (component : string) : GoM rbacManagerImpl unit :=
  _ ← modify (λ s, mkRbacManager (m_store s) (serviceAccountByComponent s) (roleByComponent s)
                     (appendTo component roleName (clusterRoleByComponent s)));
  onStore (AddClusterPolicyRules namespace roleName saName policies).

Definition DeleteRole (namespace roleName : string) : GoM (Store Spec) unit :=
  _ ← deleteFound RolesKind namespace roleName;
  deleteFound RoleBindingKind namespace roleName.

Definition DeleteRoleByComponent (component namespace : string) : GoM rbacManagerImpl unit :=
  names ← gets (λ s, default [] (roleByComponent s !! component));
  errs ← onStore (deleteEach (DeleteRole namespace) names);
  failIf (NewAggregate errs).

Definition DeleteClusterRole (roleName : string) : GoM (Store Spec) unit :=
  _ ← deleteFound ClusterRolesKind "" roleName;
  deleteFound ClusterRoleBindingKind "" roleName.

Definition DeleteClusterRoleByComponent (component : string) : GoM rbacManagerImpl unit :=
  names ← gets (λ s, default [] (clusterRoleByComponent s !! component));
  errs ← onStore (deleteEach DeleteClusterRole names);
  failIf (NewAggregate errs).
End Managers.
