(* ===== verification/ManagerTheorems.v ===== *)
(** * Properties of the resource managers.

    Ports of a service are merged without a conflict or refused, and the rules a
    feature contributes to a role end up granted to its service account. *)

From Stdlib Require Import ZArith Lia Ascii.
From stdpp Require Import base gmap strings list.
From S2P Require Import Prelude Cluster Rbac RbacTheorems Objects Store StoreTheorems ApplyTheorems ResourceManagers.

(** ** Service ports *)

Section Ports.
Context {Spec : Type} `{EqDecision Spec}.
Implicit Types ports : list (ServicePort Spec).

(** Names identify ports, but for the empty one. *)
Definition unique_names ports : Prop :=
  ∀ i j p q, ports !! i = Some p → ports !! j = Some q → sp_Name p = sp_Name q → sp_Name p ≠ "" → i = j.

Definition indexes (m : gmap string nat) ports : Prop :=
  ∀ name i, m !! name = Some i ↔ name ≠ "" ∧ ∃ p, ports !! i = Some p ∧ sp_Name p = name.

Lemma unique_names_snoc ports p :
  unique_names ports → (sp_Name p = "" ∨ ∀ q, q ∈ ports → sp_Name q ≠ sp_Name p) → unique_names (ports ++ [p]).
Proof.
  intros Hu Hp i j x y Hi Hj Heq Hne. apply lookup_snoc_Some in Hi as [[_ Hi]|[-> <-]], Hj as [[_ Hj]|[-> <-]].
  - eauto.
  - apply list_elem_of_lookup_2 in Hi. destruct Hp as [He|Hp]; [congruence|by destruct (Hp _ Hi)].
  - apply list_elem_of_lookup_2 in Hj. destruct Hp as [He|Hp]; [congruence|by destruct (Hp _ Hj)].
  - done.
Qed.

Lemma indexes_snoc m ports p :
  indexes m ports → m !! sp_Name p = None →
  indexes (if bool_decide (sp_Name p = "") then m else <[sp_Name p := length ports]> m) (ports ++ [p]).
Proof.
  unfold indexes. intros Hm Hnone name i. setoid_rewrite lookup_snoc_Some. case_bool_decide as He.
  - rewrite Hm. split; [intros (? & q & Hq & ?); pose proof (lookup_lt_Some _ _ _ Hq); naive_solver|].
    intros (Hne & q & [[_ Hq]|[-> <-]] & Hn); [eauto|congruence].
  - destruct (decide (sp_Name p = name)) as [<-|Hne].
    + rewrite lookup_insert_eq. split; [intros [= <-]; split; [done|]; exists p; auto|].
      intros (_ & q & [[_ Hq]|[-> _]] & Hn); [|done].
      assert (m !! sp_Name p = Some i) by (apply Hm; eauto). congruence.
    + rewrite lookup_insert_ne, Hm by done. split; [intros (? & q & Hq & ?); pose proof (lookup_lt_Some _ _ _ Hq); naive_solver|].
      intros (Hn0 & q & [[_ Hq]|[-> <-]] & Hn); [eauto|congruence].
Qed.

Lemma indexPorts_indexes ports :
  ∀ done_ m, indexes m done_ → unique_names (done_ ++ ports) → indexes (indexPorts (length done_) m ports) (done_ ++ ports).
Proof.
  induction ports as [|p ports IH]; intros done_ m Hm Hu; simpl; [by rewrite app_nil_r|].
  specialize (IH (done_ ++ [p]) (if bool_decide (sp_Name p = "") then m else <[sp_Name p := length done_]> m)).
  rewrite <-app_assoc, length_app, Nat.add_1_r in IH. simpl in IH. apply IH; [|done].
  apply indexes_snoc; [done|]. apply eq_None_not_Some. intros [i Hi]. apply Hm in Hi as (Hne & q & Hq & Hn).
  pose proof (lookup_lt_Some _ _ _ Hq). assert (i = length done_); [|lia].
  apply (Hu i (length done_) q p); [by apply lookup_app_l_Some| |done|congruence].
  rewrite lookup_app_r, Nat.sub_diag by lia. done.
Qed.

Lemma addServicePorts_spec ports m new :
  unique_names ports → indexes m ports →
  match addServicePorts ports m new with
  | inl r => unique_names r ∧ ∃ added, r = ports ++ added ∧ (∀ p, p ∈ added → p ∈ new) ∧ (∀ p, p ∈ new → p ∈ r)
  | inr e => (∃ msg, e = Wrapf msg ErrServicePortConflict) ∧
             ∃ p q, p ∈ ports ++ new ∧ q ∈ new ∧ sp_Name p = sp_Name q ∧ sp_Name q ≠ "" ∧ p ≠ q
  end.
Proof.
  revert ports m. induction new as [|port new IH]; intros ports m Hu Hm; simpl.
  { split; [done|]. exists []. rewrite app_nil_r. set_solver. }
  assert (Happend : ∀ m', unique_names (ports ++ [port]) → indexes m' (ports ++ [port]) →
    match addServicePorts (ports ++ [port]) m' new with
    | inl r => unique_names r ∧ ∃ added, r = ports ++ added ∧ (∀ p, p ∈ added → p ∈ port :: new) ∧ (∀ p, p ∈ port :: new → p ∈ r)
    | inr e => (∃ msg, e = Wrapf msg ErrServicePortConflict) ∧
               ∃ p q, p ∈ ports ++ port :: new ∧ q ∈ port :: new ∧ sp_Name p = sp_Name q ∧ sp_Name q ≠ "" ∧ p ≠ q
    end).
  { intros m' Hu' Hm'. specialize (IH _ _ Hu' Hm'). destruct (addServicePorts (ports ++ [port]) m' new).
    - destruct IH as (Hr & added & -> & Hin & Hall). split; [done|]. exists (port :: added). rewrite <-app_assoc. split; [done|].
      split; [set_solver|]. intros p [->|Hp]%elem_of_cons; [set_solver|]. apply Hall in Hp. by rewrite <-app_assoc in Hp.
    - destruct IH as (He & p & q & Hp & Hq & Hrest). split; [done|]. exists p, q. rewrite <-app_assoc in Hp. set_solver. }
  pose proof (indexes_snoc m ports port Hm) as Hsnoc. case_bool_decide as He.
  { apply Happend; [apply unique_names_snoc; auto|]. apply Hsnoc. apply eq_None_not_Some.
    intros [i Hi]. apply Hm in Hi. naive_solver. }
  destruct (m !! sp_Name port) as [i|] eqn:Hi.
  - apply Hm in Hi as (Hne & p & Hp & Hn). apply list_elem_of_lookup_2 in Hp as Hin. rewrite Hp. case_bool_decide as Heq.
    + injection Heq as ->. specialize (IH ports m Hu Hm). destruct (addServicePorts ports m new).
      * destruct IH as (Hr & added & -> & Hadd & Hall). split; [done|]. exists added. split; [done|]. set_solver.
      * destruct IH as (He' & x & y & Hx & Hy & Hrest). split; [done|]. exists x, y. set_solver.
    + split; [eauto|]. exists p, port. split_and!; [set_solver|by left|done|done|congruence].
  - apply Happend; [|by apply Hsnoc]. apply unique_names_snoc; [done|]. right. intros q [j Hj]%list_elem_of_lookup Hn.
    assert (m !! sp_Name port = Some j) by (apply Hm; eauto). congruence.
Qed.

(** Merging the ports of a service keeps the existing ports in place, adds
    only ports that were asked for and has all of them, with unique names; and it
    fails only for two different ports of one name, with a conflict error. *)
Theorem service_ports_merge (existing new : list (ServicePort Spec)) :
  unique_names existing →
  match mergeServicePorts existing new with
  | inl r => unique_names r ∧ ∃ added, r = existing ++ added ∧ (∀ p, p ∈ added → p ∈ new) ∧ (∀ p, p ∈ new → p ∈ r)
  | inr e => (∃ msg, e = Wrapf msg ErrServicePortConflict) ∧
             ∃ p q, p ∈ existing ++ new ∧ q ∈ new ∧ sp_Name p = sp_Name q ∧ sp_Name q ≠ "" ∧ p ≠ q
  end.
Proof.
  intros Hu. apply addServicePorts_spec; [done|]. apply (indexPorts_indexes existing []); [|done].
  intros name i. rewrite lookup_empty. split; [done|]. intros (_ & p & Hp & _). done.
Qed.
End Ports.

(** ** Roles *)

Section Roles.
Context {Spec : Type} `{EqDecision Spec}.
Context (zeroSpec : Spec) (ParseGroupVersion : string → (string * string) + error).
Implicit Types ds : Store Spec.
Implicit Types o : Object Spec.

Abbreviation add := (addOrUpdate ParseGroupVersion).

(** Cluster-scoped RBAC objects have no owner reference, and are always stored. *)
Lemma decorate_cluster ds kind o :
  kind = ClusterRolesKind ∨ kind = ClusterRoleBindingKind → ∃ o', decorate ParseGroupVersion ds kind o = inl o'.
Proof.
  intros Hkind. unfold decorate. assert (Hs : ∀ a b, shouldSetOwnerReference kind a b = false) by (by destruct Hkind as [->| ->]).
  destruct (owner ds); rewrite ?Hs; eauto.
Qed.

Lemma addOrUpdate_cluster ds kind o :
  wf_store ds → kind = ClusterRolesKind ∨ kind = ClusterRoleBindingKind → plain_key o → kindOf (o_Body o) = kind →
  ∃ ds' o', add kind o ds = (ds', Ret tt) ∧ wf_store ds' ∧ o_Body o' = o_Body o ∧
    ∀ kind' ns name, ContainsChar slash ns = false → ContainsChar slash name = false →
      Get ds' kind' ns name = if decide ((kind', (ns, name)) = (kind, key_of o)) then Some o' else Get ds kind' ns name.
Proof.
  intros Hwf Hkind Hplain Hbody. assert (Hnode : kind ≠ NodeKind) by (by destruct Hkind as [->| ->]).
  destruct (AddOrUpdate_Get ParseGroupVersion ds kind o Hwf Hplain Hbody Hnode) as [Hwf' Hget].
  destruct (decorate_cluster ds kind o Hkind) as [o' Ho']. rewrite Ho' in Hget.
  destruct (decorate_meta _ _ _ _ _ Ho') as (_ & _ & Hb). exists (AddOrUpdate ParseGroupVersion ds kind o).1, o'.
  split_and!; try done. unfold addOrUpdate. by unfold AddOrUpdate; rewrite Ho'.
Qed.

(** The rules of a stored cluster role, and the subjects of a stored binding. *)
Definition rules_of ds (name : string) : list PolicyRule :=
  match o_Body <$> Get ds ClusterRolesKind "" name with Some (ClusterRole rules) => rules | _ => [] end.

Definition subjects_of ds (name : string) : list Subject :=
  match o_Body <$> Get ds ClusterRoleBindingKind "" name with Some (ClusterRoleBinding _ subjects) => subjects | _ => [] end.

Lemma getOrCreate_role ds name :
  wf_store ds → ContainsChar slash name = false →
  ∃ o, getOrCreate zeroSpec ClusterRolesKind "" name ds = (ds, Ret o) ∧ key_of o = ("", name) ∧
       o_Body o = ClusterRole (rules_of ds name).
Proof.
  intros Hwf Hname. unfold getOrCreate, GetOrCreate, rules_of.
  destruct (Get ds ClusterRolesKind "" name) as [o|] eqn:Hget; simpl; [|by eexists].
  exists o. split; [done|]. apply lookup_deps in Hget as (objs & Hk & Ho).
  destruct (Hwf _ _ _ _ Hk Ho) as (Hid & [Hp1 Hp2] & Hkind & _). split.
  - symmetry. by apply buildID_inj.
  - by destruct (o_Body o).
Qed.

Lemma getOrCreate_binding ds name :
  wf_store ds → ContainsChar slash name = false →
  ∃ o ref, getOrCreate zeroSpec ClusterRoleBindingKind "" name ds = (ds, Ret o) ∧ key_of o = ("", name) ∧
       o_Body o = ClusterRoleBinding ref (subjects_of ds name).
Proof.
  intros Hwf Hname. unfold getOrCreate, GetOrCreate, subjects_of.
  destruct (Get ds ClusterRoleBindingKind "" name) as [o|] eqn:Hget; simpl; [|by do 2 eexists].
  apply lookup_deps in Hget as (objs & Hk & Ho). destruct (Hwf _ _ _ _ Hk Ho) as (Hid & [Hp1 Hp2] & Hkind & _).
  destruct (o_Body o) eqn:Hb; try done. exists o. eexists. split_and!; [done| |by rewrite Hb]. symmetry. by apply buildID_inj.
Qed.

Lemma elem_of_addSubject ns name subjects :
  mkSubject ServiceAccountKind name ns ∈ addSubject ns name subjects ∧
  (∀ s, s ∈ subjects → s ∈ addSubject ns name subjects) ∧
  (NoDup subjects → NoDup (addSubject ns name subjects)).
Proof.
  unfold addSubject. destruct (ContainsFunc _ subjects) eqn:E.
  - apply ContainsFunc_true in E as ([k n m] & Hin & Hm). simpl in Hm.
    apply andb_true_iff in Hm as [[Hm%bool_decide_eq_true Hn%bool_decide_eq_true]%andb_true_iff Hk%bool_decide_eq_true].
    simpl in *. subst. auto.
  - rewrite ContainsFunc_false in E. split_and!; [set_solver|set_solver|]. intros Hnd. apply NoDup_app.
    split_and!; [done| |by apply NoDup_singleton]. intros s Hin ->%list_elem_of_singleton.
    apply E in Hin. simpl in Hin. by rewrite !bool_decide_true in Hin.
Qed.

(** Contributing rules to a cluster role always succeeds on a well-formed
    store, and grants them: the role that is written has, normalized, every
    permission it had and every one contributed, and no other; and it is bound to
    the service account, with the accounts it was bound to. *)
Theorem cluster_policy_rules_granted ds namespace role sa policies :
  wf_store ds → ContainsChar slash role = false →
  Forall valid_rule (rules_of ds role ++ policies) →
  ∃ ds', AddClusterPolicyRules zeroSpec ParseGroupVersion namespace role sa policies ds = (ds', Ret tt) ∧ wf_store ds' ∧
    (∀ g r n v, permits (NormalizePolicyRules (rules_of ds' role)) g r n v ↔
                permits (rules_of ds role) g r n v ∨ permits policies g r n v) ∧
    (∃ b ref, Get ds' ClusterRoleBindingKind "" role = Some b ∧ o_Body b = ClusterRoleBinding ref (subjects_of ds' role) ∧
              ref = mkRoleRef RbacAPIGroup ClusterRoleKind role) ∧
    mkSubject ServiceAccountKind sa namespace ∈ subjects_of ds' role ∧
    (∀ s, s ∈ subjects_of ds role → s ∈ subjects_of ds' role).
Proof.
  intros Hwf Hrole Hvalid. destruct (getOrCreate_role ds role Hwf Hrole) as (o & Hget & Hkey & Hbody).
  destruct (addOrUpdate_cluster ds ClusterRolesKind (set_Body (ClusterRole (rules_of ds role ++ policies)) o) Hwf)
    as (ds1 & o1 & Hadd1 & Hwf1 & Hb1 & Hget1); [by left|by injection Hkey as Hk1 Hk2; split; simpl; rewrite ?Hk1, ?Hk2|done|].
  destruct (getOrCreate_binding ds1 role Hwf1 Hrole) as (ob & ref & Hgetb & Hkeyb & Hbodyb).
  set (subjects := addSubject namespace sa (subjects_of ds1 role)).
  destruct (addOrUpdate_cluster ds1 ClusterRoleBindingKind
    (set_Body (ClusterRoleBinding (mkRoleRef RbacAPIGroup ClusterRoleKind role) subjects) ob) Hwf1)
    as (ds2 & o2 & Hadd2 & Hwf2 & Hb2 & Hget2); [by right|by injection Hkeyb as Hk1 Hk2; split; simpl; rewrite ?Hk1, ?Hk2|done|].
  change (key_of (set_Body _ o)) with (key_of o) in Hget1. change (key_of (set_Body _ ob)) with (key_of ob) in Hget2.
  rewrite Hkey in Hget1. rewrite Hkeyb in Hget2.
  assert (Hrules : rules_of ds2 role = rules_of ds role ++ policies).
  { unfold rules_of at 1. rewrite Hget2, decide_False, Hget1, decide_True by done. simpl. by rewrite Hb1. }
  assert (Hsubj1 : subjects_of ds1 role = subjects_of ds role).
  { unfold subjects_of. by rewrite Hget1, decide_False by done. }
  assert (Hsubj : subjects_of ds2 role = subjects).
  { unfold subjects_of at 1. rewrite Hget2, decide_True by done. simpl. by rewrite Hb2. }
  exists ds2. split_and!; [|done| | | |].
  - unfold AddClusterPolicyRules, AddClusterRoleBinding, mbind, GoM_bind. rewrite Hget, Hbody, Hadd1, Hgetb, Hbodyb. done.
  - intros g r n v. rewrite Hrules, normalize_permits by done. apply permits_app.
  - exists o2. eexists. rewrite Hget2, decide_True by done. split_and!; [done|by rewrite Hb2, Hsubj|done].
  - rewrite Hsubj. apply (proj1 (elem_of_addSubject _ _ _)).
  - rewrite Hsubj, <-Hsubj1. apply (proj1 (proj2 (elem_of_addSubject _ _ _))).
Qed.
End Roles.
