(* ===== verification/StoreWitnesses.v ===== *)
(** * Witnesses for the dependencies store, the roles and the managers.

    A sound in-memory client of the object API, and concrete inputs. *)

From Stdlib Require Import ZArith Lia Ascii.
From stdpp Require Import base gmap strings list.
From S2P Require Import Prelude Cluster Rbac RbacTheorems Objects Store StoreTheorems ApplyTheorems.
From S2P Require Import PodMerger PodMergerTheorems ResourceManagers ManagerTheorems.

(** ** A client in memory *)

Abbreviation Mem := (ObjectsView nat).

Definition mem_GetObject (kind : string) (key : string * string) : GoM Mem (Object nat) := λ m,
  match m !! (kind, key) with Some o => (m, Ret o) | None => (m, Fail (ApiError ReasonNotFound)) end.

Definition mem_CreateObject (kind : string) (o : Object nat) : GoM Mem unit := λ m,
  match m !! (kind, key_of o) with
  | Some _ => (m, Fail (ApiError ReasonAlreadyExists))
  | None => (<[(kind, key_of o) := set_ResourceVersion "1" o]> m, Ret tt)
  end.

Definition mem_UpdateObject (kind : string) (o : Object nat) : GoM Mem unit := λ m,
  match m !! (kind, key_of o) with
  | None => (m, Fail (ApiError ReasonNotFound))
  | Some old => (<[(kind, key_of o) := set_ResourceVersion (o_ResourceVersion old +:+ "1") o]> m, Ret tt)
  end.

Definition mem_DeleteObject (kind : string) (key : string * string) : GoM Mem unit := λ m,
  match m !! (kind, key) with
  | None => (m, Fail (ApiError ReasonNotFound))
  | Some _ => (delete (kind, key) m, Ret tt)
  end.

Definition mem_listed_object (kind : string) (labels : list string) (e : string * (string * string) * Object nat) : bool :=
  bool_decide (e.1 = (kind, key_of e.2)) && forallb (λ k, bool_decide (is_Some (o_Labels e.2 !! k))) labels.

Definition mem_ListObjects (kind : string) (labels : list string) : GoM Mem (list (Object nat)) := λ m,
  (m, Ret (snd <$> filter (λ e, mem_listed_object kind labels e = true) (map_to_list m))).

#[export] Instance mem_objects : ObjectClient Mem nat := {|
  client_GetObject := mem_GetObject;
  client_CreateObject := mem_CreateObject;
  client_UpdateObject := mem_UpdateObject;
  client_DeleteObject := mem_DeleteObject;
  client_ListObjects := mem_ListObjects
|}.

Lemma mem_list_exact (kind : string) (labels : list string) (m : Mem) (o : Object nat) :
  o ∈ (snd <$> filter (λ e, mem_listed_object kind labels e = true) (map_to_list m)) ↔
  m !! (kind, key_of o) = Some o ∧ has_labels labels o.
Proof.
  rewrite list_elem_of_fmap. setoid_rewrite list_elem_of_filter. unfold mem_listed_object, has_labels.
  setoid_rewrite andb_true_iff. setoid_rewrite bool_decide_eq_true. setoid_rewrite forallb_forall.
  setoid_rewrite bool_decide_eq_true. setoid_rewrite <-list_elem_of_In. split.
  - intros ([k o'] & -> & [Hk Hl] & Hin%elem_of_map_to_list). simpl in *. by subst k.
  - intros [Hm Hl]. exists ((kind, key_of o), o). split_and!; [done..|]. by apply elem_of_map_to_list.
Qed.

#[export] Instance mem_objects_sound : SoundObjectClient Mem nat.
Proof.
  refine {| oview := id |}.
  - intros kind key m. simpl. unfold mem_GetObject. by destruct (m !! (kind, key)).
  - intros kind o m. simpl. unfold mem_CreateObject. destruct (m !! (kind, key_of o)); simpl; eauto.
  - intros kind o m. simpl. unfold mem_UpdateObject. destruct (m !! (kind, key_of o)); simpl; eauto.
  - intros kind labels m. split; [done|]. intros o. apply mem_list_exact.
  - intros kind key m. simpl. unfold mem_DeleteObject. by destruct (m !! (kind, key)).
Defined.

(** ** A store *)

Definition t_ParseGroupVersion (s : string) : (string * string) + error :=
  match SplitChar slash s with [v] => inl ("", v) | [g; v] => inl (g, v) | _ => inr (Errorf "unexpected GroupVersion string") end.

Definition t_owner : Owner :=
  mkOwner "ns" "dda" "uid" (inl (mkGVK "datadoghq.com/v1alpha1" "DatadogAgentInternal")) ∅ (Some {["team" := "a"]}).

Definition t_store : Store nat := NewStore (Some t_owner) None.

Definition t_role : Object nat :=
  mkObject "" "dda-agent" ∅ ∅ [] "" (ClusterRole [mkPolicyRule ["list"; "get"] [""] ["pods"] [] []]).

Definition t_added : Store nat := (AddOrUpdate t_ParseGroupVersion t_store ClusterRolesKind t_role).1.

Lemma t_store_wf : wf_store t_store.
Proof. intros kind objs id o. simpl. by rewrite lookup_empty. Qed.

Lemma t_added_wf : wf_store t_added.
Proof. apply (AddOrUpdate_Get t_ParseGroupVersion t_store ClusterRolesKind t_role t_store_wf); [split; reflexivity|reflexivity|discriminate]. Qed.

(** The object as the store gives it. *)
Definition t_stored : Object nat :=
  match Get t_added ClusterRolesKind "" "dda-agent" with Some o => o | None => t_role end.

Lemma part_of_roundtrip_witness :
  PartOf_NamespacedName (NewPartOfLabelValue "my-ns" ∅ "dda-a") = ("my-ns", GetDDAName ∅ "dda-a").
Proof.
  apply (part_of_roundtrip "my-ns" ∅ "dda-a").
  - exists "s"%char. split; [reflexivity|discriminate].
  - exists "d"%char, "da-a". split; [reflexivity|discriminate].
Defined.

(** The decision procedures evaluate; the maps themselves need not be printed. *)
Ltac decide_by_vm := lazymatch goal with |- ?P => apply (bool_decide_eq_true_1 P); vm_compute; reflexivity end.

Definition t_world : Mem := {[(ClusterRolesKind, ("", "dda-agent")) := t_stored]}.

Lemma run_snd {S A} (m : GoM S A) s r : (m s).2 = r → m s = ((m s).1, r).
Proof. intros <-. apply surjective_pairing. Qed.

(** The stored cluster role is an orphan of the empty store, and goes. *)
Lemma cleanup_deletes_only_orphans_witness :
  (Cleanup t_store true t_world).2 = Ret [] ∧ orphan t_store true ClusterRolesKind t_stored ∧
  ∃ w' errs, Cleanup t_store true t_world = (w', Ret errs) ∧
    (∀ k, oview w' !! k = oview t_world !! k ∨
          oview w' !! k = None ∧
          ∃ o, oview t_world !! k = Some o ∧ k = (k.1, key_of o) ∧ orphan t_store true k.1 o) ∧
    (errs = [] → ∀ kind o, kind ∈ getResourcesKind (supportCilium t_store) →
       oview w' !! (kind, key_of o) = Some o → ¬ orphan t_store true kind o).
Proof.
  split; [vm_compute; reflexivity|]. split; [|apply (cleanup_deletes_only_orphans t_store true t_world t_owner); reflexivity].
  split_and!; [by eexists|done|reflexivity|reflexivity|]. by exists t_owner.
Defined.

Definition t_applied : Mem := (Apply t_added (∅ : Mem)).1.

Lemma apply_converges_witness :
  Apply t_added (∅ : Mem) = (t_applied, Ret []) ∧
  in_sync (oview t_applied) t_added ∧
  (∀ kind id o, (kind, id, o) ∈ storedObjects t_added →
     let old := oview (∅ : Mem) !! (kind, key_of o) in
     oview t_applied !! (kind, key_of o) = old ∨
     ∃ rv, oview t_applied !! (kind, key_of o)
           = Some (set_ResourceVersion rv (set_Body (full_body (o_Body <$> old) (o_Body o)) o))) ∧
  ∀ k, k ∉ (entryKey <$> storedObjects t_added) → oview t_applied !! k = oview (∅ : Mem) !! k.
Proof.
  assert (H : Apply t_added (∅ : Mem) = (t_applied, Ret [])) by (apply run_snd; vm_compute; reflexivity).
  split; [exact H|]. apply (apply_converges t_added (∅ : Mem) t_applied t_added_wf H).
Defined.

Lemma apply_quiescent_witness :
  in_sync (oview t_applied) t_added ∧
  ∃ w' errs, Apply t_added t_applied = (w', Ret errs) ∧ oview w' = oview t_applied.
Proof.
  assert (Hsync : in_sync (oview t_applied) t_added) by (apply in_syncb_true; [exact t_added_wf|vm_compute; reflexivity]).
  split; [exact Hsync|]. apply (apply_quiescent t_added t_applied t_added_wf Hsync).
Defined.

Lemma stored_object_ownership_witness :
  (∀ ds', owner ds' = owner t_store → isDDAControllerStore ds' = isDDAControllerStore t_store →
     Get ds' ClusterRolesKind (o_Namespace t_role) (o_Name t_role) = None →
     orphan ds' (negb (isDDAControllerStore ds')) ClusterRolesKind t_stored) ∧
  (∀ ds', isDDAControllerStore ds' ≠ isDDAControllerStore t_store →
     ¬ orphan ds' (negb (isDDAControllerStore ds')) ClusterRolesKind t_stored).
Proof.
  apply (stored_object_ownership t_ParseGroupVersion t_store ClusterRolesKind t_role t_stored t_owner);
    [reflexivity..|decide_by_vm].
Defined.

(** ** Rules *)

Definition t_rules : list PolicyRule :=
  [mkPolicyRule ["watch"; "list"] [""] ["pods"; "nodes"] [] []; mkPolicyRule ["get"] [""] ["secrets"] ["b"; "a"] [];
   mkPolicyRule ["list"] [""] ["pods"] [] []; mkPolicyRule ["get"] [] [] [] ["/metrics"]].

Lemma normalize_preserves_permissions_witness :
  let rules := mkPolicyRule ["get"] [""] ["secrets"] [""] [] :: t_rules in
  (∀ group resource name verb,
     permits (NormalizePolicyRules rules) group resource name verb ↔
     ∃ rule, rule ∈ rules ∧ NonResourceURLs rule = [] ∧ group ∈ APIGroups rule ∧ resource ∈ Resources rule ∧
             verb ∈ Verbs rule ∧ (ResourceNames rule = [] ∨ ResourceNames rule = [""] ∨ name ∈ ResourceNames rule)) ∧
  (∀ url verb, permitsURL (NormalizePolicyRules rules) url verb ↔ permitsURL rules url verb) ∧
  ((∀ rule, rule ∈ rules → ResourceNames rule ≠ [""]) → ∀ group resource name verb,
     permits (NormalizePolicyRules rules) group resource name verb ↔ permits rules group resource name verb).
Proof.
  apply (normalize_preserves_permissions (mkPolicyRule ["get"] [""] ["secrets"] [""] [] :: t_rules)). decide_by_vm.
Defined.

Lemma normalize_idempotent_witness :
  NormalizePolicyRules (NormalizePolicyRules t_rules) = NormalizePolicyRules t_rules.
Proof. apply (normalize_idempotent t_rules). decide_by_vm. Defined.

Lemma normalize_order_independent_witness :
  NormalizePolicyRules t_rules = NormalizePolicyRules (reverse t_rules ++ t_rules).
Proof. apply (normalize_order_independent t_rules (reverse t_rules ++ t_rules)). intros rule. rewrite elem_of_app, elem_of_reverse. tauto. Defined.

Example normalized_rules :
  NormalizePolicyRules t_rules =
  [mkPolicyRule ["get"] [""] ["secrets"] ["a"; "b"] []; mkPolicyRule ["list"; "watch"] [""] ["nodes"; "pods"] [] [];
   mkPolicyRule ["get"] [] [] [] ["/metrics"]].
Proof. vm_compute. reflexivity. Qed.

(** ** Managers *)

Definition t_volume (items : list KeyToPath) : ConfigMapVolumeSource nat := mkConfigMapVolumeSource "cm" items 0.

Lemma configmap_volume_merge_witness :
  match mergeConfigMapVolumeSource (t_volume [mkKeyToPath "k" "p" None]) (t_volume [mkKeyToPath "k" "p" (Some 420%Z); mkKeyToPath "l" "q" None]) with
  | inl r => cms_Name r = "cm" ∧ NoDup (kp_Path <$> cms_Items r) ∧
             ∀ path key, binds (cms_Items r) path key ↔
               binds [mkKeyToPath "k" "p" None] path key ∨ binds [mkKeyToPath "k" "p" (Some 420%Z); mkKeyToPath "l" "q" None] path key
  | inr _ => ∃ path key key', key ≠ key' ∧
      binds ([mkKeyToPath "k" "p" None] ++ [mkKeyToPath "k" "p" (Some 420%Z); mkKeyToPath "l" "q" None]) path key ∧
      binds ([mkKeyToPath "k" "p" None] ++ [mkKeyToPath "k" "p" (Some 420%Z); mkKeyToPath "l" "q" None]) path key'
  end.
Proof.
  apply (configmap_volume_merge (t_volume [mkKeyToPath "k" "p" None])
    (t_volume [mkKeyToPath "k" "p" (Some 420%Z); mkKeyToPath "l" "q" None])). decide_by_vm.
Defined.

Definition t_ports : list (ServicePort nat) := [mkServicePort "http" 80 0].

Lemma service_ports_merge_witness :
  match mergeServicePorts t_ports [mkServicePort "http" 80 0; mkServicePort "dogstatsd" 8125 0] with
  | inl r => unique_names r ∧ ∃ added, r = t_ports ++ added ∧
               (∀ p, p ∈ added → p ∈ [mkServicePort "http" 80 0; mkServicePort "dogstatsd" 8125 0]) ∧
               (∀ p, p ∈ [mkServicePort "http" 80 0; mkServicePort "dogstatsd" 8125 0] → p ∈ r)
  | inr e => (∃ msg, e = Wrapf msg ErrServicePortConflict) ∧
             ∃ p q, p ∈ t_ports ++ [mkServicePort "http" 80 0; mkServicePort "dogstatsd" 8125 0] ∧
                    q ∈ [mkServicePort "http" 80 0; mkServicePort "dogstatsd" 8125 0] ∧
                    sp_Name p = sp_Name q ∧ sp_Name q ≠ "" ∧ p ≠ q
  end.
Proof.
  apply (service_ports_merge t_ports [mkServicePort "http" 80 0; mkServicePort "dogstatsd" 8125 0]).
  intros [|i] [|j] p q Hi Hj; try done; simpl in *; by rewrite ?lookup_nil in *.
Defined.

Lemma cluster_policy_rules_granted_witness :
  ∃ ds', AddClusterPolicyRules 0 t_ParseGroupVersion "ns" "dda-agent" "dda-sa" t_rules t_added = (ds', Ret tt) ∧ wf_store ds' ∧
    (∀ g r n v, permits (NormalizePolicyRules (rules_of ds' "dda-agent")) g r n v ↔
                permits (rules_of t_added "dda-agent") g r n v ∨ permits t_rules g r n v) ∧
    (∃ b ref, Get ds' ClusterRoleBindingKind "" "dda-agent" = Some b ∧
              o_Body b = ClusterRoleBinding ref (subjects_of ds' "dda-agent") ∧
              ref = mkRoleRef RbacAPIGroup ClusterRoleKind "dda-agent") ∧
    mkSubject ServiceAccountKind "dda-sa" "ns" ∈ subjects_of ds' "dda-agent" ∧
    (∀ s, s ∈ subjects_of t_added "dda-agent" → s ∈ subjects_of ds' "dda-agent").
Proof.
  apply (cluster_policy_rules_granted 0 t_ParseGroupVersion t_added "ns" "dda-agent" "dda-sa" t_rules t_added_wf);
    [reflexivity|decide_by_vm].
Defined.
