(* ===== verification/FleetData.v ===== *)
(** * Data of the fleet daemon, and the client it reaches DatadogAgents through.

    The messages of [pkg/fleet/remote_config.go], the installer state the daemon
    reports ([setTaskState], [setPackageConfigVersions] of
    [pkg/fleet/daemon.go]), the bounded error text of a task, JSON values and
    merge patches, and the class of client calls with its laws.  The remote
    configuration client only keeps the list of package states it is given; it
    is that list.  JSON documents are values: encoding and decoding again what
    the daemon itself builds gives it back. *)

From Stdlib Require Import ZArith Ascii.
From stdpp Require Import base gmap strings list.
From S2P Require Import Prelude Cluster.

(** ** JSON *)

Inductive json :=
  | JNull
  | JBool (b : bool)
  | JNumber (text : string)
  | JStr (s : string)
  | JArr (l : list json)
  | JObj (m : gmap string json).

(** [json.Unmarshal(raw, &m)] for a [map[string]any]: [null] is the nil map. *)
Definition unmarshalMap (j : json) : gmap string json + error :=
  match j with
  | JObj m => inl m
  | JNull => inl ∅
  | _ => inr (Errorf "json: cannot unmarshal into Go value of type map[string]interface {}")
  end.

(** [m[k].(map[string]any)], the empty map when the assertion fails. *)
Definition object_at (k : string) (m : gmap string json) : gmap string json :=
  match m !! k with Some (JObj o) => o | _ => ∅ end.

(** ** Task messages *)

Abbreviation NamespacedName := (string * string)%type (only parsing).

Record fleetManagementOperation := mkFleetOperation {
  fo_Operation : string;
  fo_Config : option json          (* json.RawMessage, nil when absent *)
}.

Record installerConfig := mkInstallerConfig {
  ic_ID : string;
  ic_Operations : list fleetManagementOperation
}.

Definition OperationUpdate : string := "update".

Record experimentParams := mkParams {
  par_Version : string;
  par_Kind : string;               (* GroupVersionKind.Kind *)
  par_NamespacedName : NamespacedName
}.

(** The fields of [expected_state] the daemon reads. *)
Record expectedState := mkExpected {
  exs_StableConfig : string;
  exs_ExperimentConfig : string
}.

Record remoteAPIRequest := mkRequest {
  req_ID : string;
  req_Package : string;
  req_ExpectedState : expectedState;
  req_Method : string;
  req_Params : experimentParams
}.

Definition methodStartDatadogAgentExperiment : string := "operator/start_datadogagent_experiment".
Definition methodStopDatadogAgentExperiment : string := "operator/stop_datadogagent_experiment".
Definition methodPromoteDatadogAgentExperiment : string := "operator/promote_datadogagent_experiment".

(** ** The text of a task error

    At most 1024 runes of the message, with each run of bytes that are not
    UTF-8 replaced by a question mark. *)

Definition in_range (lo hi : nat) (a : ascii) : bool :=
  (lo <=? nat_of_ascii a)%nat && (nat_of_ascii a <=? hi)%nat.

Definition tail_byte : ascii → bool := in_range 128 191.

(** The number of bytes of the rune [s] starts with, 0 when it starts with none. *)
Definition rune_width (s : string) : nat :=
  match s with
  | EmptyString => 0
  | String a s =>
      if in_range 0 127 a then 1
      else if in_range 194 223 a then
        match s with String b _ => if tail_byte b then 2 else 0 | _ => 0 end
      else if in_range 224 239 a then
        match s with
        | String b (String c _) =>
            let lo := if bool_decide (nat_of_ascii a = 224) then 160 else 128 in
            let hi := if bool_decide (nat_of_ascii a = 237) then 159 else 191 in
            if in_range lo hi b && tail_byte c then 3 else 0
        | _ => 0
        end
      else if in_range 240 244 a then
        match s with
        | String b (String c (String d _)) =>
            let lo := if bool_decide (nat_of_ascii a = 240) then 144 else 128 in
            let hi := if bool_decide (nat_of_ascii a = 244) then 143 else 191 in
            if in_range lo hi b && tail_byte c && tail_byte d then 4 else 0
        | _ => 0
        end
      else 0
  end.

(** The runes of a string in order, [None] for a byte that belongs to none;
    [skip] bytes are left of the rune at the head of the result. *)
Fixpoint runes_from (skip : nat) (s : string) : list (option string) :=
  match s with
  | EmptyString => []
  | String a s' =>
      match skip with
      | S skip => runes_from skip s'
      | 0 => match rune_width s with
             | 0 => None :: runes_from 0 s'
             | S w => Some (String.substring 0 (S w) s) :: runes_from w s'
             end
      end
  end.

(** [strings.ToValidUTF8(s, "?")], as the list of its runes. *)
Fixpoint toValid (inRun : bool) (l : list (option string)) : list string :=
  match l with
  | [] => []
  | Some r :: l => r :: toValid false l
  | None :: l => if inRun then toValid true l else "?" :: toValid true l
  end.

Definition maxRunes : nat := 1024.

Definition boundedTaskErrorMessage (err : error) : string :=
  String.concat "" (take maxRunes (toValid false (runes_from 0 (error_Error err)))).

(** ** Installer state *)

Inductive TaskState :=
  | TaskState_IDLE | TaskState_RUNNING | TaskState_DONE | TaskState_INVALID_STATE | TaskState_ERROR.

#[export] Instance TaskState_eq_dec : EqDecision TaskState.
Proof. solve_decision. Defined.

Record PackageStateTask := mkTask {
  task_Id : string;
  task_State : TaskState;
  task_Error : option string
}.

#[export] Instance PackageStateTask_eq_dec : EqDecision PackageStateTask.
Proof. solve_decision. Defined.

Record PackageState := mkPackageState {
  ps_Package : string;
  ps_StableVersion : string;
  ps_ExperimentVersion : string;
  ps_Task : option PackageStateTask;
  ps_StableConfigVersion : string;
  ps_ExperimentConfigVersion : string
}.

#[export] Instance PackageState_eq_dec : EqDecision PackageState.
Proof. solve_decision. Defined.

Definition set_ps_Task (t : PackageStateTask) (p : PackageState) : PackageState :=
  mkPackageState (ps_Package p) (ps_StableVersion p) (ps_ExperimentVersion p) (Some t)
    (ps_StableConfigVersion p) (ps_ExperimentConfigVersion p).
Definition set_ps_Configs (stable experiment : string) (p : PackageState) : PackageState :=
  mkPackageState (ps_Package p) (ps_StableVersion p) (ps_ExperimentVersion p) (ps_Task p)
    stable experiment.

(** The loop both updates share: every entry of the package is rewritten, and
    one is added at the end when there is none. *)
Definition updatePackage (pkgName : string) (f : PackageState → PackageState) (current : list PackageState) :
    list PackageState :=
  let updated := (λ pkg, if bool_decide (ps_Package pkg = pkgName) then f pkg else pkg) <$> current in
  if existsb (λ pkg, bool_decide (ps_Package pkg = pkgName)) current then updated
  else updated ++ [f (mkPackageState pkgName "" "" None "" "")].

Definition taskOf (taskID : string) (taskState : TaskState) (taskErr : option error) : PackageStateTask :=
  mkTask taskID taskState (boundedTaskErrorMessage <$> taskErr).

Definition rcTaskState (pkgName taskID : string) (taskState : TaskState) (taskErr : option error) :
    list PackageState → list PackageState :=
  updatePackage pkgName (set_ps_Task (taskOf taskID taskState taskErr)).

Definition rcConfigVersions (pkgName stable experiment : string) : list PackageState → list PackageState :=
  updatePackage pkgName (set_ps_Configs stable experiment).

(** The first entry of the package. *)
Definition rcPackage (pkgName : string) (current : list PackageState) : option PackageState :=
  snd <$> list_find (λ pkg, ps_Package pkg = pkgName) current.

Definition rcVersions (pkgName : string) (current : list PackageState) : string * string :=
  match rcPackage pkgName current with
  | Some pkg => (ps_StableConfigVersion pkg, ps_ExperimentConfigVersion pkg)
  | None => ("", "")
  end.

(** ** Merge patches (RFC 7386) of the metadata of an object *)

(** A merge patch of a map of strings: [null] removes, a string sets. *)
Definition merge_value (p : option json) (v : option string) : option string :=
  match p with
  | None => v
  | Some (JStr s) => Some s
  | Some _ => None
  end.

Definition is_string_or_null (j : json) : bool :=
  match j with JStr _ | JNull => true | _ => false end.

Definition merge_strings (p : gmap string json) (m : gmap string string) : option (gmap string string) :=
  if forallb (λ kv, is_string_or_null kv.2) (map_to_list p)
  then Some (merge merge_value p m) else None.

(** What a patch makes of [metadata.labels] or [metadata.annotations]; [None]
    for a patch the API server refuses. *)
Definition patch_metadata (field : string) (patch : gmap string json) (m : gmap string string) :
    option (gmap string string) :=
  match patch !! "metadata" with
  | None => Some m
  | Some (JObj metadata) =>
      match metadata !! field with
      | None => Some m
      | Some JNull => Some ∅
      | Some (JObj p) => merge_strings p m
      | Some _ => None
      end
  | Some _ => None
  end.

(** ** The client *)

Class FleetClient (W Spec : Type) := {
  (** [d.client.Get] *)
  fleet_Get : NamespacedName → GoM W (DatadogAgent Spec);
  (** [d.managedAgentInstallationReader().Get] *)
  fleet_Read : NamespacedName → GoM W (DatadogAgent Spec);
  (** [d.apiReader.List] *)
  fleet_List : GoM W (list (DatadogAgent Spec));
  (** [d.client.Patch] with a raw merge patch *)
  fleet_MergePatch : NamespacedName → gmap string json → GoM W unit;
  (** [d.client.Patch(dda, MergeFrom(base, OptimisticLock))]: base, dda *)
  fleet_PatchFrom : DatadogAgent Spec → DatadogAgent Spec → GoM W unit
}.

(** A patched object: labels and annotations as the patch says, the spec as it
    was when the patch has none, the status, a subresource, as it was. *)
Definition patched_by {Spec : Type} (patch : gmap string json) (d d' : DatadogAgent Spec) : Prop :=
  patch_metadata "labels" patch (dda_Labels d) = Some (dda_Labels d') ∧
  patch_metadata "annotations" patch (dda_Annotations d) = Some (dda_Annotations d') ∧
  (patch !! "spec" = None → dda_Spec d' = dda_Spec d) ∧
  dda_Experiment d' = dda_Experiment d ∧
  dda_Namespace d' = dda_Namespace d ∧ dda_Name d' = dda_Name d ∧ dda_UID d' = dda_UID d.

(** Calls take effect as documented, or fail and leave the objects alone, and
    reads see what was written. *)
Class SoundFleetClient (W Spec : Type) `{FleetClient W Spec} := {
  fleet_view : W → gmap NamespacedName (DatadogAgent Spec);
  sound_fleet_keyed w k d : fleet_view w !! k = Some d → dda_key d = k;
  sound_fleet_Get nsn w :
    match fleet_Get nsn w with
    | (w', Ret d) => fleet_view w' = fleet_view w ∧ fleet_view w !! nsn = Some d
    | (w', Fail _) => fleet_view w' = fleet_view w
    | (_, Panic) => False
    end;
  sound_fleet_Read nsn w :
    match fleet_Read nsn w with
    | (w', Ret d) => fleet_view w' = fleet_view w ∧ fleet_view w !! nsn = Some d
    | (w', Fail _) => fleet_view w' = fleet_view w
    | (_, Panic) => False
    end;
  sound_fleet_List w :
    match fleet_List w with
    | (w', Ret l) => fleet_view w' = fleet_view w ∧ NoDup (dda_key <$> l) ∧
                     ∀ d, d ∈ l ↔ fleet_view w !! dda_key d = Some d
    | (w', Fail _) => fleet_view w' = fleet_view w
    | (_, Panic) => False
    end;
  sound_fleet_MergePatch nsn patch w :
    match fleet_MergePatch nsn patch w with
    | (w', Ret _) => ∃ d d', fleet_view w !! nsn = Some d ∧ patched_by patch d d' ∧
                       fleet_view w' = <[nsn := d']> (fleet_view w)
    | (w', Fail _) => fleet_view w' = fleet_view w
    | (_, Panic) => False
    end;
  sound_fleet_PatchFrom base d w :
    match fleet_PatchFrom base d w with
    | (w', Ret _) => ∃ d0 rv, fleet_view w !! dda_key base = Some d0 ∧
                       dda_ResourceVersion d0 = dda_ResourceVersion base ∧
                       fleet_view w' = <[dda_key base := apply_dda_update rv d d0]> (fleet_view w)
    | (w', Fail _) => fleet_view w' = fleet_view w
    | (_, Panic) => False
    end
}.
