(* ===== verification/GoRun.v ===== *)
(** * Running effectful code.

    Checks and retries as the operator's code writes them, and the rules that
    compute what a run of the state and error monad can leave behind; and numbers in
    strings: [strconv.ParseInt(s, 10, 64)] (and [strconv.Atoi], the same function on
    a 64-bit machine), [strconv.FormatInt], and where a substring of a composed
    message lies. *)

From Stdlib Require Import ZArith Lia Ascii.
From stdpp Require Import base strings list pretty.
From S2P Require Import Prelude.

(** [if err := ...; err != nil { return err }] for a check without effect. *)
Definition check {S : Type} (e : option error) : GoM S unit :=
  match e with None => mret tt | Some e => fail e end.

Definition of_sum {S A : Type} (r : A + error) : GoM S A :=
  match r with inl a => mret a | inr e => fail e end.

(** ** Retries and polls

    [retry.OnError] of client-go and [wait.PollUntilContextTimeout] of
    apimachinery are not part of the repository. *)

Section Repeats.
Context {S : Type}.

(** [fn] is run again while it fails with a retriable error, at most [n] times
    more; the last run's outcome is the outcome. *)
Inductive retried {A : Type} (retriable : error → bool) (fn : GoM S A) : nat → S → S * outcome A → Prop :=
  | retried_last n s :
      (∀ s' e, fn s = (s', Fail e) → retriable e = true → n = 0) → retried retriable fn n s (fn s)
  | retried_again n s s' e r :
      fn s = (s', Fail e) → retriable e = true → retried retriable fn n s' r → retried retriable fn (Datatypes.S n) s r.

(** [condition] is run at once, and again while it is false, at most [n] times
    more; after that the poll fails. *)
Inductive polled (condition : GoM S bool) : nat → S → S * outcome unit → Prop :=
  | polled_true n s s' : condition s = (s', Ret true) → polled condition n s (s', Ret tt)
  | polled_error n s s' e : condition s = (s', Fail e) → polled condition n s (s', Fail e)
  | polled_panic n s s' : condition s = (s', Panic) → polled condition n s (s', Panic)
  | polled_timeout s s' e : condition s = (s', Ret false) → polled condition 0 s (s', Fail e)
  | polled_again n s s' r :
      condition s = (s', Ret false) → polled condition n s' r → polled condition (Datatypes.S n) s r.
End Repeats.

(** What their documentation promises; the number is that of the retries the
    backoff, or of the polls the timeout, leaves. *)
Class Repeating := {
  retryOnError {S A : Type} : (error → bool) → nat → GoM S A → GoM S A;
  pollImmediate {S : Type} : nat → GoM S bool → GoM S unit;
  law_retryOnError {S A : Type} retriable n (fn : GoM S A) s :
    retried retriable fn n s (retryOnError retriable n fn s);
  law_pollImmediate {S : Type} n (condition : GoM S bool) s : polled condition n s (pollImmediate n condition s)
}.

(** They can be met: one run after the other. *)
Fixpoint retryInSequence {S A : Type} (retriable : error → bool) (n : nat) (fn : GoM S A) : GoM S A := λ s,
  match fn s, n with
  | (s', Fail e), Datatypes.S n => if retriable e then retryInSequence retriable n fn s' else (s', Fail e)
  | r, _ => r
  end.

Fixpoint pollInSequence {S : Type} (n : nat) (condition : GoM S bool) : GoM S unit := λ s,
  match condition s, n with
  | (s', Ret true), _ => (s', Ret tt)
  | (s', Ret false), Datatypes.S n => pollInSequence n condition s'
  | (s', Ret false), 0 => (s', Fail (Errorf "context deadline exceeded"))
  | (s', Fail e), _ => (s', Fail e)
  | (s', Panic), _ => (s', Panic)
  end.

Definition inSequence : Repeating.
Proof.
  refine {| retryOnError _ _ := retryInSequence; pollImmediate _ := pollInSequence |}.
  - intros S A retriable n fn. induction n as [|n IH]; intros s.
    + assert (retryInSequence retriable 0 fn s = fn s) as -> by (simpl; by destruct (fn s) as [s' []]).
      by apply retried_last.
    + simpl. destruct (fn s) as [s' [a|e|]] eqn:E; [rewrite <- E; apply retried_last; congruence..| |
        rewrite <- E; apply retried_last; congruence].
      destruct (retriable e) eqn:He; [by eapply retried_again|]. rewrite <- E. apply retried_last. congruence.
  - intros S n condition. induction n as [|n IH]; intros s; simpl;
      destruct (condition s) as [s' [[]|e|]] eqn:E; eauto using polled.
Defined.

(** ** Runs

    [wp m Q s]: the state and outcome of [m] from [s] satisfy [Q]. *)

Definition wp {S A : Type} (m : GoM S A) (Q : S → outcome A → Prop) (s : S) : Prop := Q (m s).1 (m s).2.

(** A client's call that obeys its law: seen through [view], success
    establishes [post], failure changes nothing, and it does not panic. *)
Definition lawful {W V A : Type} (view : W → V) (post : V → V → A → Prop) (m : GoM W A) : Prop :=
  ∀ w, match m w with
       | (w', Ret a) => post (view w) (view w') a
       | (w', Fail _) => view w' = view w
       | (_, Panic) => False
       end.

Section Wp.
Context {S : Type}.
Implicit Types s : S.

Lemma wp_mono {A} (m : GoM S A) (Q Q' : S → outcome A → Prop) s :
  wp m Q s → (∀ s' o, Q s' o → Q' s' o) → wp m Q' s.
Proof. unfold wp. auto. Qed.

Lemma wp_run {A} (m : GoM S A) (Q : S → outcome A → Prop) s s' o : m s = (s', o) → wp m Q s → Q s' o.
Proof. unfold wp. by intros ->. Qed.

Lemma wp_bind {A B} (m : GoM S A) (f : A → GoM S B) Q s :
  wp m (λ s' o, match o with Ret a => wp (f a) Q s' | Fail e => Q s' (Fail e) | Panic => Q s' Panic end) s →
  wp (m ≫= f) Q s.
Proof. unfold wp, mbind, GoM_bind. by destruct (m s) as [s' []]. Qed.

Lemma wp_wrap {A} msg (m : GoM S A) Q s :
  wp m (λ s' o, Q s' (match o with Fail e => Fail (Wrapf msg e) | o => o end)) s → wp (wrap msg m) Q s.
Proof. unfold wp, wrap. by destruct (m s) as [s' []]. Qed.

Lemma wp_attempt {A} (m : GoM S A) Q s :
  wp m (λ s' o, Q s' (match o with Ret a => Ret (inl a) | Fail e => Ret (inr e) | Panic => Panic end)) s →
  wp (attempt m) Q s.
Proof. unfold wp, attempt. by destruct (m s) as [s' []]. Qed.

Lemma wp_ret {A} (a : A) (Q : S → outcome A → Prop) s : Q s (Ret a) → wp (mret a) Q s.
Proof. done. Qed.

Lemma wp_fail {A} e (Q : S → outcome A → Prop) s : Q s (Fail e) → wp (fail e) Q s.
Proof. done. Qed.

Lemma wp_gets {A} (f : S → A) (Q : S → outcome A → Prop) s : Q s (Ret (f s)) → wp (gets f) Q s.
Proof. done. Qed.

Lemma wp_modify (f : S → S) (Q : S → outcome unit → Prop) s : Q (f s) (Ret tt) → wp (modify f) Q s.
Proof. done. Qed.

(** [if err := check; err != nil { return err }], the error wrapped or not. *)
Lemma wp_check {B} e (k : unit → GoM S B) Q s :
  (∀ err, e = Some err → Q s (Fail err)) → (e = None → wp (k tt) Q s) → wp (check e ≫= k) Q s.
Proof. intros Hf Hr. destruct e; [by apply Hf|by apply Hr]. Qed.

Lemma wp_wrap_check {B} msg e (k : unit → GoM S B) Q s :
  (∀ err, e = Some err → Q s (Fail (Wrapf msg err))) → (e = None → wp (k tt) Q s) →
  wp (wrap msg (check e) ≫= k) Q s.
Proof. intros Hf Hr. destruct e; [by apply Hf|by apply Hr]. Qed.

Lemma wp_of_sum {A B} (r : A + error) (k : A → GoM S B) Q s :
  (∀ err, r = inr err → Q s (Fail err)) → (∀ a, r = inl a → wp (k a) Q s) → wp (of_sum r ≫= k) Q s.
Proof. intros Hf Hr. destruct r; [by apply Hr|by apply Hf]. Qed.

Lemma wp_wrap_of_sum {A B} msg (r : A + error) (k : A → GoM S B) Q s :
  (∀ err, r = inr err → Q s (Fail (Wrapf msg err))) → (∀ a, r = inl a → wp (k a) Q s) →
  wp (wrap msg (of_sum r) ≫= k) Q s.
Proof. intros Hf Hr. destruct r; [by apply Hr|by apply Hf]. Qed.

Lemma wp_gets_then {A B} (f : S → A) (k : A → GoM S B) Q s : wp (k (f s)) Q s → wp (gets f ≫= k) Q s.
Proof. done. Qed.

Lemma wp_modify_then {B} (f : S → S) (k : unit → GoM S B) Q s : wp (k tt) Q (f s) → wp (modify f ≫= k) Q s.
Proof. done. Qed.

Lemma wp_lawful {V A} (view : S → V) post (m : GoM S A) (Q : S → outcome A → Prop) s :
  lawful view post m →
  (∀ s' a, post (view s) (view s') a → Q s' (Ret a)) → (∀ s' e, view s' = view s → Q s' (Fail e)) → wp m Q s.
Proof. intros Hm Hr Hf. specialize (Hm s). unfold wp. destruct (m s) as [s' []]; cbn in *; auto. done. Qed.

(** A loop of attempts whose failures keep [I]. *)
Lemma wp_retryOnError `{Repeating} {A} (I : S → Prop) retriable attempts (fn : GoM S A) Q s :
  (∀ s, I s → wp fn (λ s' o, Q s' o ∧ match o with Fail _ => I s' | _ => True end) s) →
  I s → wp (retryOnError retriable attempts fn) Q s.
Proof.
  intros Hfn. unfold wp. pose proof (law_retryOnError retriable attempts fn s) as Hr.
  induction Hr as [n s _|n s s' e r E _ _ IH]; intros Hs; [by apply Hfn|].
  apply IH. specialize (Hfn s Hs). unfold wp in Hfn. rewrite E in Hfn. by destruct Hfn.
Qed.

(** An attempt that does not fail is the only one. *)
Lemma retryOnError_Ret `{Repeating} {A} retriable attempts (fn : GoM S A) s s' a :
  fn s = (s', Ret a) → retryOnError retriable attempts fn s = (s', Ret a).
Proof.
  intros E. rewrite <- E. destruct (law_retryOnError retriable attempts fn s); [done|congruence].
Qed.
End Wp.

(** Runs the checks at the head of the program; [tac] closes their failures. *)
Ltac wp_checks tac :=
  repeat first
    [ apply wp_check; [by intros; tac|intros ?]
    | apply wp_wrap_check; [by intros; tac|intros ?]
    | apply wp_of_sum; [by intros; tac|intros ? ?]
    | apply wp_wrap_of_sum; [by intros; tac|intros ? ?]
    | apply wp_gets_then | apply wp_modify_then ].

(** ** Runs that stay in a relation *)

Section Stays.
Context {S : Type} (Rel : relation S) `{!PreOrder Rel}.

Definition stays {A} (m : GoM S A) : Prop := ∀ s, Rel s (m s).1.

Lemma stays_bind {A B} (m : GoM S A) (f : A → GoM S B) : stays m → (∀ a, stays (f a)) → stays (m ≫= f).
Proof.
  intros Hm Hf s. specialize (Hm s). unfold mbind, GoM_bind. destruct (m s) as [s' [a|e|]]; cbn in *; [|done..].
  etrans; [exact Hm|apply Hf].
Qed.
Lemma stays_ret {A} (a : A) : stays (mret a).
Proof. intros s. cbn. reflexivity. Qed.
Lemma stays_fail {A} e : stays (fail (A := A) e).
Proof. intros s. cbn. reflexivity. Qed.
Lemma stays_panic {A} : stays (panic (A := A)).
Proof. intros s. cbn. reflexivity. Qed.
Lemma stays_gets {A} (f : S → A) : stays (gets f).
Proof. intros s. cbn. reflexivity. Qed.
Lemma stays_modify f : (∀ s, Rel s (f s)) → stays (modify f).
Proof. intros Hf s. apply Hf. Qed.
Lemma stays_attempt {A} (m : GoM S A) : stays m → stays (attempt m).
Proof. intros Hm s. specialize (Hm s). unfold attempt. by destruct (m s) as [s' []]. Qed.
Lemma stays_wrap {A} msg (m : GoM S A) : stays m → stays (wrap msg m).
Proof. intros Hm s. specialize (Hm s). unfold wrap. by destruct (m s) as [s' []]. Qed.
Lemma stays_when b (m : GoM S unit) : stays m → stays (when b m).
Proof. destruct b; [done|]. intros _. apply stays_ret. Qed.
Lemma stays_of_sum {A} (r : A + error) : stays (of_sum r).
Proof. destruct r; [apply stays_ret|apply stays_fail]. Qed.
Lemma stays_check e : stays (check e).
Proof. destruct e; [apply stays_fail|apply stays_ret]. Qed.
Lemma stays_for_each {A} (f : A → GoM S unit) l : (∀ a, stays (f a)) → stays (for_each f l).
Proof. intros Hf. induction l as [|a l IH]; [apply stays_ret|]. cbn. apply stays_bind; auto. Qed.
End Stays.

Create HintDb stays.
#[export] Hint Resolve stays_ret stays_fail stays_panic stays_gets stays_of_sum stays_check stays_attempt : stays.

(** Splits a program at its binds and branches. *)
Ltac stays_step :=
  match goal with
  | |- stays _ (_ ≫= _) => apply stays_bind; [..|intros ?]
  | |- stays _ (attempt _) => apply stays_attempt
  | |- stays _ (wrap _ _) => apply stays_wrap
  | |- stays _ (when _ _) => apply stays_when; [typeclasses eauto|]
  | |- stays _ (for_each _ _) => apply stays_for_each; [typeclasses eauto|intros ?]
  | |- stays _ (if ?b then _ else _) => destruct b
  | |- stays _ (match ?x with _ => _ end) => destruct x
  end.
Ltac stays := repeat (first [solve [auto 4 with stays typeclass_instances] | stays_step]).

(** ** Parsing and printing integers *)

Definition digit (a : ascii) : option Z :=
  let n := Z.of_N (N_of_ascii a) in
  if bool_decide (48 ≤ n ≤ 57)%Z then Some (n - 48)%Z else None.

Fixpoint parseDigits (acc : Z) (s : string) : option Z :=
  match s with
  | EmptyString => Some acc
  | String a s => d ← digit a; parseDigits (10 * acc + d) s
  end.

Definition parseUint (s : string) : option Z :=
  match s with EmptyString => None | s => parseDigits 0 s end.

Definition parseSigned (s : string) : option Z :=
  match s with
  | String "-"%char s => Z.opp <$> parseUint s
  | String "+"%char s => parseUint s
  | s => parseUint s
  end.

(** A [strconv.NumError]; the quoted number is given without escapes. *)
Definition numError (fn s reason : string) : error :=
  let quote := String (ascii_of_nat 34) "" in
  Typed "*strconv.NumError" ("strconv." +:+ fn +:+ ": parsing " +:+ quote +:+ s +:+ quote +:+ ": " +:+ reason).

Definition parseInt (fn s : string) : Z + error :=
  match parseSigned s with
  | None => inr (numError fn s "invalid syntax")
  | Some n => if bool_decide (int64_min ≤ n ≤ int64_max)%Z then inl n
              else inr (numError fn s "value out of range")
  end.

Definition ParseInt (s : string) : Z + error := parseInt "ParseInt" s.
Definition Atoi (s : string) : Z + error := parseInt "Atoi" s.

Definition FormatInt (n : Z) : string := pretty n.

Lemma digit_pretty (x : N) : (x < 10)%N → digit (pretty_N_char x) = Some (Z.of_N x).
Proof.
  intros Hx. assert (x = 0 ∨ x = 1 ∨ x = 2 ∨ x = 3 ∨ x = 4 ∨ x = 5 ∨ x = 6 ∨ x = 7 ∨ x = 8 ∨ x = 9)%N as H by lia.
  by repeat destruct H as [->|H]; [..|subst].
Qed.

(** The digits of [x] are read as [x], before those that follow. *)
Lemma parseDigits_pretty (x : N) (s : string) :
  ∃ k : Z, ∀ acc : Z, parseDigits acc (pretty_N_go x s) = parseDigits (k * acc + Z.of_N x)%Z s.
Proof.
  revert s. induction (N.lt_wf_0 x) as [x _ IH]; intros s.
  destruct (decide (x = 0)%N) as [->|Hx].
  - exists 1%Z. intros acc. rewrite pretty_N_go_0. f_equal. lia.
  - pose proof (N.Div0.div_mod x 10) as Hdm.
    destruct (IH (x `div` 10)%N ltac:(apply N.div_lt; lia) (String (pretty_N_char (x `mod` 10)) s)) as [k Hk].
    exists (10 * k)%Z. intros acc. rewrite pretty_N_go_step by lia. rewrite Hk. cbn [parseDigits].
    rewrite digit_pretty by (apply N.mod_lt; lia). cbn. f_equal. lia.
Qed.

Lemma pretty_N_go_head x a s : digit a ≠ None → ∃ b t, pretty_N_go x (String a s) = String b t ∧ digit b ≠ None.
Proof.
  revert a s. induction (N.lt_wf_0 x) as [x _ IH]; intros a s Ha.
  destruct (decide (x = 0)%N) as [->|Hx]; [by exists a, s; rewrite pretty_N_go_0|].
  rewrite pretty_N_go_step by lia. apply IH; [apply N.div_lt; lia|].
  rewrite digit_pretty by (apply N.mod_lt; lia). done.
Qed.

(** A printed natural number starts with a digit and is read back. *)
Lemma parse_pretty_N (x : N) : ∃ a t, pretty x = String a t ∧ digit a ≠ None ∧ parseDigits 0 (pretty x) = Some (Z.of_N x).
Proof.
  unfold pretty, pretty_N. case_decide as Hx; [subst; by exists "0"%char, ""|].
  destruct (parseDigits_pretty x "") as [k Hk]. specialize (Hk 0%Z).
  rewrite pretty_N_go_step in * by lia.
  destruct (pretty_N_go_head (x `div` 10)%N (pretty_N_char (x `mod` 10)) "") as (b & t & E & Hb).
  { rewrite digit_pretty by (apply N.mod_lt; lia). done. }
  exists b, t. rewrite E in *. split; [done|]. split; [done|]. rewrite Hk. cbn. f_equal. lia.
Qed.

Lemma parseSigned_digit a t : digit a ≠ None → parseSigned (String a t) = parseUint (String a t).
Proof. intros Ha. unfold parseSigned. destruct a as [[] [] [] [] [] [] [] []]; try done; by vm_compute in Ha. Qed.

Lemma parseSigned_pretty (n : Z) : parseSigned (pretty n) = Some n.
Proof.
  destruct n as [|p|p]; [done|..]; destruct (parse_pretty_N (N.pos p)) as (a & t & E & Ha & Hp).
  - change (parseSigned (pretty (N.pos p)) = Some (Z.pos p)). rewrite E in *.
    rewrite parseSigned_digit by done. exact Hp.
  - change (Z.opp <$> parseUint (pretty (N.pos p)) = Some (Z.neg p)). rewrite E in *.
    unfold parseUint. by rewrite Hp.
Qed.

(** Every 64-bit integer is read back from its decimal form. *)
Lemma ParseInt_FormatInt (n : Z) : int64_range n → ParseInt (FormatInt n) = inl n.
Proof.
  intros Hn. unfold ParseInt, parseInt, FormatInt. rewrite parseSigned_pretty. by rewrite bool_decide_true.
Qed.

Lemma FormatInt_nonempty (n : Z) : FormatInt n ≠ "".
Proof.
  intros E. pose proof (parseSigned_pretty n) as Hp. unfold FormatInt in E. rewrite E in Hp. done.
Qed.

Lemma FormatInt_inj : Inj (=) (=) FormatInt.
Proof. intros n m E. pose proof (parseSigned_pretty n) as Hn. pose proof (parseSigned_pretty m) as Hm. unfold FormatInt in E. congruence. Qed.

(** What is accepted is in range. *)
Lemma parseInt_range fn s n : parseInt fn s = inl n → int64_range n.
Proof. unfold parseInt. repeat case_match; intros; simplify_eq. by eapply bool_decide_eq_true. Qed.

(** ** Substrings *)

(** A prefix of [s ++ c :: t] without [c] is a prefix of [s]. *)
Lemma prefix_app_sep c sub s t :
  ContainsChar c sub = false → String.prefix sub (s +:+ String c t) = String.prefix sub s.
Proof.
  revert s. induction sub as [|a sub IH]; intros [|b s] Hc; try done;
    cbn in Hc; apply orb_false_iff in Hc as [Ha Hs]; apply bool_decide_eq_false in Ha.
  - rewrite string_app_nil_l. cbn. by case_match.
  - rewrite string_app_cons. cbn. case_match; [by apply IH|done].
Qed.

(** A text without [c] that occurs in [s ++ c :: t] occurs in [s] or in [t]. *)
Lemma Contains_app_sep c sub s t :
  ContainsChar c sub = false → sub ≠ "" → Contains (s +:+ String c t) sub = Contains s sub || Contains t sub.
Proof.
  intros Hc Hne. induction s as [|a s IH].
  - rewrite string_app_nil_l. destruct sub as [|b sub]; [done|]. cbn in Hc. apply orb_false_iff in Hc as [Hb _].
    apply bool_decide_eq_false in Hb. cbn. case_match; done.
  - rewrite string_app_cons. cbn [Contains]. rewrite IH, orb_assoc. f_equal. f_equal.
    rewrite <-string_app_cons. by apply prefix_app_sep.
Qed.
