(* ===== verification/Fleet.v ===== *)
(** * The fleet daemon.

    Models [pkg/fleet/daemon.go], [daemon_operations.go], [daemon_worker.go],
    [experiment.go] and [remote_config.go]: tasks received from Fleet Automation
    are checked and turned into experiment signals and pending-task annotations
    on a DatadogAgent; a worker watches the DatadogAgents and reports the
    outcome in the installer state.  Of [managed_agent_installation.go] it has
    the checks and the write that experiment tasks make on a managed Agent
    installation.  Both handlers run under [transitionMu], so they are
    sequential; events and logs are left out.  [isTerminalPhase], which the package
    has a copy of, is that of [Experiment]; quoted ([%q]) parts of messages are
    printed without the quotes. *)

From Stdlib Require Import ZArith Ascii.
From stdpp Require Import base gmap strings list pretty.
From S2P Require Import Prelude GoRun Cluster Experiment FleetData.

Definition stateDoesntMatchError (msg : string) : error := Typed "stateDoesntMatchError" msg.
Definition isStateDoesntMatch (e : error) : bool := errors_As "stateDoesntMatchError" e.

(** ** Pending operations *)

Definition pendingIntentStart : string := "start".
Definition pendingIntentStop : string := "stop".
Definition pendingIntentPromote : string := "promote".

Record pendingOperation := mkPending {
  po_intent : string;
  po_taskID : string;
  po_packageName : string;
  po_nsn : NamespacedName;
  po_experimentID : string;
  po_resultVersion : string
}.

#[export] Instance pendingOperation_eq_dec : EqDecision pendingOperation.
Proof. solve_decision. Defined.

(** [op.matches(other)] *)
Definition po_matches (op other : pendingOperation) : bool :=
  bool_decide (po_intent op = po_intent other) &&
  bool_decide (po_taskID op = po_taskID other) &&
  bool_decide (po_packageName op = po_packageName other) &&
  bool_decide (po_nsn op = po_nsn other) &&
  bool_decide (po_experimentID op = po_experimentID other) &&
  bool_decide (po_resultVersion op = po_resultVersion other).

Definition pendingOperationFromAnnotations (nsn : NamespacedName) (annotations : gmap string string) :
    option pendingOperation :=
  let op := mkPending
    (get_key annotations AnnotationPendingAction)
    (get_key annotations AnnotationPendingTaskID)
    (get_key annotations AnnotationPendingPackage)
    nsn
    (get_key annotations AnnotationPendingExperimentID)
    (get_key annotations AnnotationPendingResultVersion) in
  if bool_decide (po_taskID op = "") || bool_decide (po_intent op = "") ||
     bool_decide (po_experimentID op = "") || bool_decide (po_packageName op = "") then None
  else if bool_decide (po_intent op = pendingIntentStart) || bool_decide (po_intent op = pendingIntentStop) ||
          bool_decide (po_intent op = pendingIntentPromote) then Some op
  else None.

Definition newPendingOperation (intent : string) (req : remoteAPIRequest) (nsn : NamespacedName)
    (experimentID : string) : pendingOperation :=
  mkPending intent (req_ID req) (req_Package req) nsn experimentID "".

Definition guardPendingOperationSlot (annotations : gmap string string) (nsn : NamespacedName)
    (next : pendingOperation) : option error :=
  match pendingOperationFromAnnotations nsn annotations with
  | None => None
  | Some current =>
      if po_matches current next then None
      else if bool_decide (po_intent current = pendingIntentStart) && bool_decide (po_intent next = pendingIntentStop)
      then None
      else Some (stateDoesntMatchError
        ("pending " +:+ po_intent current +:+ " task " +:+ po_taskID current +:+ " already exists for " +:+
         nsn.1 +:+ "/" +:+ nsn.2 +:+ "; DDA pending annotations can track only one task, refusing to overwrite with " +:+
         po_intent next +:+ " task " +:+ po_taskID next))
  end.

(** ** Snapshots and their evaluation *)

(** The value of a phase in the API. *)
Definition phaseText (p : ExperimentPhase) : string :=
  match p with
  | PhaseUnset => ""
  | ExperimentPhaseRunning => "running"
  | ExperimentPhaseTerminated => "terminated"
  | ExperimentPhasePromoted => "promoted"
  | ExperimentPhaseAborted => "aborted"
  end.

Record ddaStatusSnapshot := mkStatusSnapshot {
  sn_nsn : NamespacedName;
  sn_annotations : gmap string string;
  sn_experiment : option ExperimentStatus
}.

Definition newDDAStatusSnapshot {Spec : Type} (dda : DatadogAgent Spec) : ddaStatusSnapshot :=
  mkStatusSnapshot (dda_key dda) (dda_Annotations dda) (dda_Experiment dda).

(** [evaluatePendingTask]: [None] while the task is not done, else the error
    it ended with, if any. *)
Definition evaluatePendingTask (snapshot : ddaStatusSnapshot) (task : pendingOperation) : option (option error) :=
  match sn_experiment snapshot with
  | None => None
  | Some experiment =>
      if negb (bool_decide (sn_nsn snapshot = po_nsn task)) ||
         negb (bool_decide (exp_ID experiment = po_experimentID task)) then None
      else
        let phase := exp_Phase experiment in
        let unfinished :=
          if isTerminalPhase phase
          then Some (Some (Errorf ("expected " +:+ po_intent task +:+ " to finish, got terminal phase " +:+ phaseText phase)))
          else None in
        if bool_decide (po_intent task = pendingIntentStart) then
          if bool_decide (phase = ExperimentPhaseRunning) then Some None else unfinished
        else if bool_decide (po_intent task = pendingIntentStop) then
          if isTerminalPhase phase then Some None else None
        else if bool_decide (po_intent task = pendingIntentPromote) then
          if bool_decide (phase = ExperimentPhasePromoted) then Some None else unfinished
        else Some (Some (Errorf ("unknown pending intent " +:+ po_intent task)))
  end.

Definition localTerminationReason (exp : option ExperimentStatus) : string :=
  match exp with
  | None => ""
  | Some exp =>
      if bool_decide (exp_Phase exp = ExperimentPhaseTerminated) && bool_decide (exp_TerminationReason exp = "timed_out")
      then "experiment " +:+ exp_ID exp +:+ " timed out"
      else if bool_decide (exp_Phase exp = ExperimentPhaseAborted)
      then "experiment " +:+ exp_ID exp +:+ " aborted (manual spec change)"
      else ""
  end.

(** ** Experiment signals *)

Definition signalStartDatadogAgentExperiment : string := "start DatadogAgent experiment".
Definition signalStopDatadogAgentExperiment : string := "stop DatadogAgent experiment".
Definition signalPromoteDatadogAgentExperiment : string := "promote DatadogAgent experiment".

Definition validateParams (p : experimentParams) : option error :=
  if bool_decide ((par_NamespacedName p).2 = "") then
    Some (Errorf "params namespaced_name must have a non-empty name")
  else if bool_decide ((par_NamespacedName p).1 = "") then
    Some (Errorf "params namespaced_name must have a non-empty namespace")
  else if negb (bool_decide (par_Kind p = "DatadogAgent")) then
    Some (Errorf ("params kind must be DatadogAgent, got " +:+ par_Kind p))
  else None.

(** The configuration's top-level keys overwrite those of the patch. *)
Definition buildSignalPatch (signal id : string) (config : option json) : gmap string json + error :=
  let patch : gmap string json := {[ "metadata" := JObj {[ "annotations" := JObj
    (<[AnnotationExperimentSignal := JStr signal]> {[ AnnotationExperimentID := JStr id ]}) ]} ]} in
  match config with
  | None => inl patch
  | Some raw =>
      match unmarshalMap raw with
      | inr e => inr (Wrapf "failed to unmarshal config" e)
      | inl specPatch => inl (specPatch ∪ patch)
      end
  end.

(** The pending-task annotations [applyOperation] adds to a patch. *)
Definition pendingPatch (pending : pendingOperation) (patchMap : gmap string json) : gmap string json :=
  let metadata := object_at "metadata" patchMap in
  let annotations := object_at "annotations" metadata in
  let annotations :=
    <[AnnotationPendingResultVersion :=
        if bool_decide (po_resultVersion pending = "") then JNull else JStr (po_resultVersion pending)]>
    (<[AnnotationPendingPackage := JStr (po_packageName pending)]>
    (<[AnnotationPendingExperimentID := JStr (po_experimentID pending)]>
    (<[AnnotationPendingAction := JStr (po_intent pending)]>
    (<[AnnotationPendingTaskID := JStr (po_taskID pending)]> annotations)))) in
  <["metadata" := JObj (<["annotations" := JObj annotations]> metadata)]> patchMap.

(** The patch of [clearPendingAnnotationsIfCurrent]. *)
Definition clearPendingAnnotations : gmap string json :=
  <[AnnotationPendingTaskID := JNull]> (<[AnnotationPendingAction := JNull]>
  (<[AnnotationPendingExperimentID := JNull]> (<[AnnotationPendingPackage := JNull]>
  {[ AnnotationPendingResultVersion := JNull ]}))).

Definition clearPendingPatch : gmap string json :=
  {[ "metadata" := JObj {[ "annotations" := JObj clearPendingAnnotations ]} ]}.

Definition experimentHasPhase {Spec : Type} (dda : DatadogAgent Spec) (experimentID : string)
    (phase : ExperimentPhase) : bool :=
  match dda_Experiment dda with
  | None => false
  | Some e => bool_decide (exp_ID e = experimentID) && bool_decide (exp_Phase e = phase)
  end.

Definition runningExperimentID {Spec : Type} (dda : DatadogAgent Spec) : string :=
  match dda_Experiment dda with
  | Some e => if bool_decide (exp_Phase e = ExperimentPhaseRunning) then exp_ID e else ""
  | None => ""
  end.

(** Status first, then the annotation, then [fallback]. *)
Definition currentExperimentID {Spec : Type} (dda : DatadogAgent Spec) (fallback : string) : string :=
  let experimentID := get_key (dda_Annotations dda) AnnotationExperimentID in
  let experimentID :=
    match dda_Experiment dda with
    | Some e => if bool_decide (exp_ID e = "") then experimentID else exp_ID e
    | None => experimentID
    end in
  if bool_decide (experimentID = "") then fallback else experimentID.

(** ** Managed Agent installations *)

Definition fleetManagedByLabel : string := "fleet.datadoghq.com/managed-by".
Definition fleetConfigIDLabel : string := "fleet.datadoghq.com/config-id".
Definition fleetManagedAgentInstallationStateLabel : string := "fleet.datadoghq.com/managed-agent-installation-state".
Definition fleetManagedAgentInstallationProviderLabel : string :=
  "fleet.datadoghq.com/managed-agent-installation-provider".
Definition fleetInstallationIDLabel : string := "fleet.datadoghq.com/installation-id".
Definition fleetTargetIDLabel : string := "fleet.datadoghq.com/target-id".
Definition fleetConfigHashAnnotation : string := "fleet.datadoghq.com/config-hash".
Definition fleetCreateTaskIDAnnotation : string := "fleet.datadoghq.com/create-task-id".
Definition fleetManagedByValue : string := "fleet-automation".
Definition fleetManagedAgentInstallationStatePartial : string := "partial".
Definition fleetManagedAgentInstallationStateReady : string := "ready".
Definition fleetPartialConfigVersionPrefix : string := "partial:".
Definition fleetDatadogAgentName : string := "datadog-agent".
Definition packageDatadogOperator : string := "datadog-operator".
Definition fleetUnmanagedConfigVersion : string := "unmanaged".
Definition InstallerStateUnknownConfigVersion : string := "unknown".

(** [managedAgentInstallationProviderIdentity], by what its methods return; a
    [ManagedAgentInstallationIdentity] is one or, unconfigured, none. *)
Record ManagedAgentInstallationIdentity := mkIdentity {
  mi_Provider : string;
  mi_InstallationID : string;
  mi_TargetID : string;
  mi_Validate : option error;
  mi_UpdaterTags : list string
}.

Section Ownership.
Context {Spec : Type}.
Implicit Types dda : DatadogAgent Spec.

Definition on_dda (dda : DatadogAgent Spec) (msg : string) : error :=
  stateDoesntMatchError ("DatadogAgent " +:+ dda_Namespace dda +:+ "/" +:+ dda_Name dda +:+ msg).

(** None of the eight ownership keys is present. *)
Definition noOwnershipMetadata (dda : DatadogAgent Spec) : bool :=
  forallb (λ k, bool_decide (dda_Labels dda !! k = None))
    [fleetManagedByLabel; fleetConfigIDLabel; fleetManagedAgentInstallationStateLabel;
     fleetManagedAgentInstallationProviderLabel; fleetInstallationIDLabel; fleetTargetIDLabel] &&
  forallb (λ k, bool_decide (dda_Annotations dda !! k = None))
    [fleetConfigHashAnnotation; fleetCreateTaskIDAnnotation].

Definition classifyFleetDatadogAgentOwnership (dda : DatadogAgent Spec) : bool + error :=
  if noOwnershipMetadata dda then inl false
  else
    let state := get_key (dda_Labels dda) fleetManagedAgentInstallationStateLabel in
    if negb (bool_decide (get_key (dda_Labels dda) fleetManagedByLabel = fleetManagedByValue)) ||
       bool_decide (get_key (dda_Labels dda) fleetConfigIDLabel = "") ||
       bool_decide (dda_Annotations dda !! fleetConfigHashAnnotation = None) ||
       (negb (bool_decide (state = fleetManagedAgentInstallationStatePartial)) &&
        negb (bool_decide (state = fleetManagedAgentInstallationStateReady)))
    then inr (on_dda dda " has incomplete or conflicting Fleet ownership metadata")
    else inl true.

Definition classifyFleetDatadogAgentOwnershipForRehydration (dda : DatadogAgent Spec) : bool + error :=
  if noOwnershipMetadata dda then inl false
  else if negb (bool_decide (get_key (dda_Labels dda) fleetManagedByLabel = fleetManagedByValue)) ||
          bool_decide (get_key (dda_Labels dda) fleetConfigIDLabel = "")
  then inr (on_dda dda " has incomplete or conflicting Fleet ownership metadata")
  else inl true.

Definition validateFleetDatadogAgentExperimentOperationState (dda : DatadogAgent Spec) (intent : string) : option error :=
  match classifyFleetDatadogAgentOwnership dda with
  | inr e => Some e
  | inl false => Some (on_dda dda " is not managed by Fleet Automation")
  | inl true =>
      let state := get_key (dda_Labels dda) fleetManagedAgentInstallationStateLabel in
      let partial := bool_decide (state = fleetManagedAgentInstallationStatePartial) in
      let current := pendingOperationFromAnnotations (dda_key dda) (dda_Annotations dda) in
      let pending_is i := from_option (λ op, bool_decide (po_intent op = i)) false current in
      if bool_decide (state = fleetManagedAgentInstallationStateReady) then None
      else if bool_decide (intent = pendingIntentStop) && partial &&
              (from_option (λ e, negb (bool_decide (exp_ID e = "")) && negb (isTerminalPhase (exp_Phase e)))
                 false (dda_Experiment dda) ||
               negb (bool_decide (get_key (dda_Annotations dda) AnnotationExperimentID = "")) ||
               pending_is pendingIntentStop) then None
      else if bool_decide (intent = pendingIntentPromote) && partial && pending_is pendingIntentPromote &&
              from_option (λ op, experimentHasPhase dda (po_experimentID op) ExperimentPhasePromoted) false current
      then None
      else Some (stateDoesntMatchError ("Fleet-managed DatadogAgent " +:+ dda_Namespace dda +:+ "/" +:+ dda_Name dda +:+
                   " has not completed its install gate"))
  end.

Definition validateFleetDatadogAgentManagedAgentInstallationReady (dda : DatadogAgent Spec) : option error :=
  validateFleetDatadogAgentExperimentOperationState dda pendingIntentStart.

Definition validateFleetDatadogAgentInstallation (identity : option ManagedAgentInstallationIdentity)
    (dda : DatadogAgent Spec) : option error :=
  let provider := get_key (dda_Labels dda) fleetManagedAgentInstallationProviderLabel in
  let installationID := get_key (dda_Labels dda) fleetInstallationIDLabel in
  let targetID := get_key (dda_Labels dda) fleetTargetIDLabel in
  match identity with
  | None =>
      if negb (bool_decide (provider = "")) || negb (bool_decide (installationID = "")) ||
         negb (bool_decide (targetID = ""))
      then Some (on_dda dda " has managed Agent installation identity metadata but the local managed Agent installation identity is not configured")
      else None
  | Some i =>
      if negb (bool_decide (provider = mi_Provider i)) then
        Some (on_dda dda " belongs to a different managed installation provider")
      else if negb (bool_decide (installationID = mi_InstallationID i)) then
        Some (on_dda dda " belongs to a different managed installation")
      else if negb (bool_decide (targetID = mi_TargetID i)) then
        Some (on_dda dda " belongs to a different managed target")
      else None
  end.

Definition validateBridgeExperimentTarget (identity : option ManagedAgentInstallationIdentity)
    (dda : DatadogAgent Spec) : option error :=
  match identity with
  | None => None
  | Some _ =>
      match validateFleetDatadogAgentInstallation identity dda with
      | Some e => Some e
      | None => validateFleetDatadogAgentManagedAgentInstallationReady dda
      end
  end.
End Ownership.

(** ** The daemon *)

Record DaemonState (W : Type) := mkDaemon {
  ds_world : W;
  ds_rc : option (list PackageState);       (* the client's installer state; None for a nil client *)
  ds_configs : gmap string installerConfig;
  ds_active : bool;                         (* managedAgentInstallationActive *)
  ds_reserved : bool;                       (* managedAgentInstallationTaskReserved *)
  ds_waiting : bool;                        (* managedAgentInstallationWaitingForFleet *)
  ds_updates : bool;                        (* managedAgentInstallationUpdates holds its one element *)
  ds_operationID : string;                  (* managedAgentInstallationOperationID *)
  ds_cancel : option bool;                  (* managedAgentInstallationCancel, and whether it was called *)
  ds_done : bool;                           (* managedAgentInstallationDone is not nil *)
  ds_retryIndex : nat;                      (* managedAgentInstallationCredentialRetryIndex *)
  ds_timers : list Z;                       (* delays after which a retry is requested *)
  ds_statusUpdates : list ddaStatusSnapshot (* snapshots the worker sent itself *)
}.
Arguments mkDaemon {_}.
Arguments ds_world {_}.
Arguments ds_rc {_}.
Arguments ds_configs {_}.
Arguments ds_active {_}.
Arguments ds_reserved {_}.
Arguments ds_waiting {_}.
Arguments ds_updates {_}.
Arguments ds_operationID {_}.
Arguments ds_cancel {_}.
Arguments ds_done {_}.
Arguments ds_retryIndex {_}.
Arguments ds_timers {_}.
Arguments ds_statusUpdates {_}.

Definition set_ds_world {W : Type} (x : W) (s : DaemonState W) : DaemonState W :=
  mkDaemon x (ds_rc s) (ds_configs s) (ds_active s) (ds_reserved s) (ds_waiting s) (ds_updates s)
    (ds_operationID s) (ds_cancel s) (ds_done s) (ds_retryIndex s) (ds_timers s) (ds_statusUpdates s).
Definition set_ds_rc {W : Type} (x : option (list PackageState)) (s : DaemonState W) : DaemonState W :=
  mkDaemon (ds_world s) x (ds_configs s) (ds_active s) (ds_reserved s) (ds_waiting s) (ds_updates s)
    (ds_operationID s) (ds_cancel s) (ds_done s) (ds_retryIndex s) (ds_timers s) (ds_statusUpdates s).
Definition set_ds_configs {W : Type} (x : gmap string installerConfig) (s : DaemonState W) : DaemonState W :=
  mkDaemon (ds_world s) (ds_rc s) x (ds_active s) (ds_reserved s) (ds_waiting s) (ds_updates s)
    (ds_operationID s) (ds_cancel s) (ds_done s) (ds_retryIndex s) (ds_timers s) (ds_statusUpdates s).
Definition set_ds_active {W : Type} (x : bool) (s : DaemonState W) : DaemonState W :=
  mkDaemon (ds_world s) (ds_rc s) (ds_configs s) x (ds_reserved s) (ds_waiting s) (ds_updates s)
    (ds_operationID s) (ds_cancel s) (ds_done s) (ds_retryIndex s) (ds_timers s) (ds_statusUpdates s).
Definition set_ds_reserved {W : Type} (x : bool) (s : DaemonState W) : DaemonState W :=
  mkDaemon (ds_world s) (ds_rc s) (ds_configs s) (ds_active s) x (ds_waiting s) (ds_updates s)
    (ds_operationID s) (ds_cancel s) (ds_done s) (ds_retryIndex s) (ds_timers s) (ds_statusUpdates s).
Definition set_ds_waiting {W : Type} (x : bool) (s : DaemonState W) : DaemonState W :=
  mkDaemon (ds_world s) (ds_rc s) (ds_configs s) (ds_active s) (ds_reserved s) x (ds_updates s)
    (ds_operationID s) (ds_cancel s) (ds_done s) (ds_retryIndex s) (ds_timers s) (ds_statusUpdates s).
Definition set_ds_updates {W : Type} (x : bool) (s : DaemonState W) : DaemonState W :=
  mkDaemon (ds_world s) (ds_rc s) (ds_configs s) (ds_active s) (ds_reserved s) (ds_waiting s) x
    (ds_operationID s) (ds_cancel s) (ds_done s) (ds_retryIndex s) (ds_timers s) (ds_statusUpdates s).
Definition set_ds_operationID {W : Type} (x : string) (s : DaemonState W) : DaemonState W :=
  mkDaemon (ds_world s) (ds_rc s) (ds_configs s) (ds_active s) (ds_reserved s) (ds_waiting s) (ds_updates s)
    x (ds_cancel s) (ds_done s) (ds_retryIndex s) (ds_timers s) (ds_statusUpdates s).
Definition set_ds_cancel {W : Type} (x : option bool) (s : DaemonState W) : DaemonState W :=
  mkDaemon (ds_world s) (ds_rc s) (ds_configs s) (ds_active s) (ds_reserved s) (ds_waiting s) (ds_updates s)
    (ds_operationID s) x (ds_done s) (ds_retryIndex s) (ds_timers s) (ds_statusUpdates s).
Definition set_ds_done {W : Type} (x : bool) (s : DaemonState W) : DaemonState W :=
  mkDaemon (ds_world s) (ds_rc s) (ds_configs s) (ds_active s) (ds_reserved s) (ds_waiting s) (ds_updates s)
    (ds_operationID s) (ds_cancel s) x (ds_retryIndex s) (ds_timers s) (ds_statusUpdates s).
Definition set_ds_retryIndex {W : Type} (x : nat) (s : DaemonState W) : DaemonState W :=
  mkDaemon (ds_world s) (ds_rc s) (ds_configs s) (ds_active s) (ds_reserved s) (ds_waiting s) (ds_updates s)
    (ds_operationID s) (ds_cancel s) (ds_done s) x (ds_timers s) (ds_statusUpdates s).
Definition set_ds_timers {W : Type} (x : list Z) (s : DaemonState W) : DaemonState W :=
  mkDaemon (ds_world s) (ds_rc s) (ds_configs s) (ds_active s) (ds_reserved s) (ds_waiting s) (ds_updates s)
    (ds_operationID s) (ds_cancel s) (ds_done s) (ds_retryIndex s) x (ds_statusUpdates s).
Definition set_ds_statusUpdates {W : Type} (x : list ddaStatusSnapshot) (s : DaemonState W) : DaemonState W :=
  mkDaemon (ds_world s) (ds_rc s) (ds_configs s) (ds_active s) (ds_reserved s) (ds_waiting s) (ds_updates s)
    (ds_operationID s) (ds_cancel s) (ds_done s) (ds_retryIndex s) (ds_timers s) x.

(** [resolvedOperation] *)
Record resolvedOperation := mkResolved { ro_nsn : NamespacedName; ro_Config : option json }.

(** The credential fields of [spec.global] a remote configuration must leave out. *)
Record GlobalCredentials := mkGlobalCredentials {
  gc_Credentials : bool;                    (* set when the pointer is not nil *)
  gc_ClusterAgentToken : bool;
  gc_ClusterAgentTokenSecret : bool
}.

Definition isRetryable (e : error) : bool :=
  negb (IsNotFound e) && negb (IsForbidden e) && negb (IsInvalid e) && negb (IsMethodNotSupported e).

Section Daemon.
Context {W Spec : Type} `{FleetClient W Spec}.
Context {HRepeating : Repeating}.
Context (revisionsEnabled : bool).
(** [managedAgentInstallationIdentity], [None] when it is not configured. *)
Context (identity : option ManagedAgentInstallationIdentity).
Context (managedAgentInstallationNamespace : string).
Context (managedAgentInstallationIntentsEnabled : bool).
(** Strict decoding of a configuration to its spec, the pointers of
    [spec.global], and the SHA-256 of the JSON of a spec. *)
Context (decodeConfig : option json → option Spec + error).
Context (spec_Global : Spec → option GlobalCredentials).
Context (fleetDatadogAgentSpecHash : Spec → string + error).
(** How often the backoffs, and the context's three minutes, let a call be retried. *)
Context (retries conflictRetries : nat).

Abbreviation M := (GoM (DaemonState W)).
Implicit Types dda : DatadogAgent Spec.

Definition dcall {A : Type} (m : GoM W A) : M A := λ s,
  let (w', o) := m (ds_world s) in (set_ds_world w' s, o).

Definition retryWithBackoff {A : Type} (fn : M A) : M A := retryOnError isRetryable retries fn.
Definition RetryOnConflict {A : Type} (fn : M A) : M A := retryOnError IsConflict conflictRetries fn.

(** *** Installer state *)

Definition setTaskState (pkgName taskID : string) (taskState : TaskState) (taskErr : option error) : M unit :=
  modify (λ s, set_ds_rc (rcTaskState pkgName taskID taskState taskErr <$> ds_rc s) s).

Definition getPackageConfigVersions (pkgName : string) : M (string * string) :=
  gets (λ s, from_option (rcVersions pkgName) ("", "") (ds_rc s)).

Definition setPackageConfigVersions (pkgName stable experiment : string) : M unit :=
  modify (λ s, set_ds_rc (rcConfigVersions pkgName stable experiment <$> ds_rc s) s).

Definition clearExperimentConfigVersion (pkgName : string) : M unit :=
  versions ← getPackageConfigVersions pkgName;
  setPackageConfigVersions pkgName versions.1 "".

(** *** Configurations *)

Definition handleConfigs (configs : list (string * installerConfig)) : M unit :=
  modify (set_ds_configs (foldl (λ m cfg, <[ic_ID cfg := cfg]> m) ∅ (snd <$> configs))).

Definition getConfig (id : string) : M installerConfig :=
  configs ← gets ds_configs;
  match configs !! id with
  | Some cfg => mret cfg
  | None => fail (Errorf ("config " +:+ id +:+ " not found"))
  end.

Definition verifyExpectedState (req : remoteAPIRequest) : M unit :=
  versions ← getPackageConfigVersions (req_Package req);
  if negb (bool_decide (exs_StableConfig (req_ExpectedState req) = versions.1)) ||
     negb (bool_decide (exs_ExperimentConfig (req_ExpectedState req) = versions.2))
  then fail (stateDoesntMatchError ("state mismatch for package " +:+ req_Package req +:+
         ": expected stable_config=" +:+ exs_StableConfig (req_ExpectedState req) +:+
         " experiment_config=" +:+ exs_ExperimentConfig (req_ExpectedState req) +:+
         ", got stable_config=" +:+ versions.1 +:+ " experiment_config=" +:+ versions.2))
  else mret tt.

Definition resolveOperation (req : remoteAPIRequest) (signal : string) : M resolvedOperation :=
  _ ← wrap (signal +:+ ": invalid params") (check (validateParams (req_Params req)));
  if negb (bool_decide (signal = signalStartDatadogAgentExperiment))
  then mret (mkResolved (par_NamespacedName (req_Params req)) None)
  else
    let id := par_Version (req_Params req) in
    if bool_decide (id = "") then fail (Errorf (signal +:+ ": version is required"))
    else
      cfg ← wrap signal (getConfig id);
      match ic_Operations cfg with
      | [op] =>
          if negb (bool_decide (fo_Operation op = OperationUpdate))
          then fail (Errorf (signal +:+ ": invalid operation: " +:+ fo_Operation op))
          else mret (mkResolved (par_NamespacedName (req_Params req)) (fo_Config op))
      | _ => fail (Errorf (signal +:+ ": config " +:+ ic_ID cfg +:+ " must have exactly 1 operation, got " +:+
                          pretty (length (ic_Operations cfg))))
      end.

(** *** Managed Agent installations *)

Definition rejectRemoteManagedAgentInstallationCredentialFields (config : option Spec) : option error :=
  match config ≫= spec_Global with
  | None => None
  | Some global =>
      if gc_Credentials global then Some (Errorf "config must not contain spec.global.credentials")
      else if gc_ClusterAgentToken global || gc_ClusterAgentTokenSecret global
      then Some (Errorf "config must not contain cluster Agent credentials")
      else None
  end.

Definition decodeRemoteDatadogAgentConfig (raw : option json) (requireSpec : bool) : option Spec + error :=
  match decodeConfig raw with
  | inr e => inr (Wrapf "invalid config" e)
  | inl config =>
      match rejectRemoteManagedAgentInstallationCredentialFields config with
      | Some e => inr e
      | None =>
          match config with
          | None => if requireSpec then inr (Errorf "config must contain spec") else inl None
          | Some spec => inl (Some spec)
          end
      end
  end.

Definition persistManagedAgentInstallationStableConfig (nsn : NamespacedName) (experimentID configID : string) : M unit :=
  match identity with
  | None => mret tt
  | Some _ =>
      if bool_decide (experimentID = "") || bool_decide (configID = "")
      then fail (Errorf "promoted managed Agent installation config is incomplete")
      else RetryOnConflict (
        dda ← dcall (fleet_Read nsn);
        _ ← check (validateFleetDatadogAgentInstallation identity dda);
        _ ← check (validateFleetDatadogAgentExperimentOperationState dda pendingIntentPromote);
        if negb (experimentHasPhase dda experimentID ExperimentPhasePromoted)
        then fail (on_dda dda (" has not promoted experiment " +:+ experimentID))
        else
          liveHash ← of_sum (fleetDatadogAgentSpecHash (dda_Spec dda));
          if bool_decide (get_key (dda_Labels dda) fleetConfigIDLabel = configID) &&
             bool_decide (get_key (dda_Annotations dda) fleetConfigHashAnnotation = liveHash)
          then mret tt
          else dcall (fleet_PatchFrom dda (mkDatadogAgent (dda_Namespace dda) (dda_Name dda) (dda_UID dda)
                 (dda_ResourceVersion dda) (<[fleetConfigIDLabel := configID]> (dda_Labels dda))
                 (<[fleetConfigHashAnnotation := liveHash]> (dda_Annotations dda)) (dda_Spec dda)
                 (dda_Experiment dda))))
  end.

(** *** Planning a task: the operation to wait for and the patch, both nil when
    there is nothing left to do. *)

Definition TaskPlan : Type := option pendingOperation * option (gmap string json).

Definition planStart (req : remoteAPIRequest) (op : resolvedOperation) : M TaskPlan :=
  let experimentID := par_Version (req_Params req) in
  let pending := newPendingOperation pendingIntentStart req (ro_nsn op) experimentID in
  _ ← (match identity with
       | None => mret tt
       | Some _ => _ ← wrap signalStartDatadogAgentExperiment
                         (of_sum (decodeRemoteDatadogAgentConfig (ro_Config op) false)); mret tt
       end : M unit);
  dda ← wrap "start DatadogAgent experiment: failed to get DatadogAgent" (dcall (fleet_Get (ro_nsn op)));
  _ ← wrap signalStartDatadogAgentExperiment (check (validateBridgeExperimentTarget identity dda));
  if experimentHasPhase dda experimentID ExperimentPhaseRunning then
    versions ← getPackageConfigVersions (req_Package req);
    _ ← setPackageConfigVersions (req_Package req) versions.1 (par_Version (req_Params req));
    mret (None, None)
  else if bool_decide (get_key (dda_Annotations dda) AnnotationExperimentID = experimentID) then
    _ ← check (guardPendingOperationSlot (dda_Annotations dda) (ro_nsn op) pending);
    mret (Some pending, None)
  else if negb (bool_decide (runningExperimentID dda = "")) then
    fail (Errorf ("start DatadogAgent experiment: experiment " +:+ runningExperimentID dda +:+ " already running"))
  else
    _ ← check (guardPendingOperationSlot (dda_Annotations dda) (ro_nsn op) pending);
    patch ← wrap signalStartDatadogAgentExperiment
              (of_sum (buildSignalPatch ExperimentSignalStart experimentID (ro_Config op)));
    mret (Some pending, Some patch).

Definition planStop (req : remoteAPIRequest) (op : resolvedOperation) : M TaskPlan :=
  dda ← wrap "stop DatadogAgent experiment: failed to get DatadogAgent" (dcall (fleet_Get (ro_nsn op)));
  _ ← wrap signalStopDatadogAgentExperiment (check (validateBridgeExperimentTarget identity dda));
  versions ← getPackageConfigVersions (req_Package req);
  let experimentID := currentExperimentID dda versions.2 in
  let signal_rollback : M TaskPlan :=
    let pending := newPendingOperation pendingIntentStop req (ro_nsn op) experimentID in
    _ ← check (guardPendingOperationSlot (dda_Annotations dda) (ro_nsn op) pending);
    patch ← wrap signalStopDatadogAgentExperiment
              (of_sum (buildSignalPatch ExperimentSignalRollback experimentID None));
    mret (Some pending, Some patch) in
  let nothing : M TaskPlan := _ ← clearExperimentConfigVersion (req_Package req); mret (None, None) in
  match dda_Experiment dda with
  | None =>
      if bool_decide (experimentID = "") ||
         negb (bool_decide (get_key (dda_Annotations dda) AnnotationExperimentSignal = ExperimentSignalStart))
      then nothing else signal_rollback
  | Some e =>
      if isTerminalPhase (exp_Phase e) then nothing
      else match exp_Phase e with
           | ExperimentPhaseRunning =>
               if bool_decide (experimentID = "")
               then fail (Errorf "stop DatadogAgent experiment: running experiment is missing an ID")
               else signal_rollback
           | PhaseUnset =>
               if bool_decide (experimentID = "")
               then fail (Errorf "stop DatadogAgent experiment: current experiment is missing an ID")
               else signal_rollback
           | phase =>
               fail (Errorf ("stop DatadogAgent experiment: cannot stop, current phase is " +:+ phaseText phase))
           end
  end.

Definition planPromote (req : remoteAPIRequest) (op : resolvedOperation) : M TaskPlan :=
  versions ← getPackageConfigVersions (req_Package req);
  let experiment := versions.2 in
  if bool_decide (experiment = "") then
    fail (Errorf "promote DatadogAgent experiment: no experiment config version set")
  else
    dda ← wrap "promote DatadogAgent experiment: failed to get DatadogAgent" (dcall (fleet_Get (ro_nsn op)));
    _ ← wrap signalPromoteDatadogAgentExperiment (check (validateBridgeExperimentTarget identity dda));
    let experimentID := currentExperimentID dda experiment in
    if experimentHasPhase dda experimentID ExperimentPhasePromoted then
      _ ← wrap "promote DatadogAgent experiment: persist promoted config"
            (persistManagedAgentInstallationStableConfig (ro_nsn op) experimentID experiment);
      _ ← setPackageConfigVersions (req_Package req) experiment "";
      mret (None, None)
    else if negb (experimentHasPhase dda experimentID ExperimentPhaseRunning) then
      fail (Errorf ("promote DatadogAgent experiment: cannot promote, current phase is " +:+
                    from_option (λ e, phaseText (exp_Phase e)) "" (dda_Experiment dda)))
    else
      let pending := mkPending pendingIntentPromote (req_ID req) (req_Package req) (ro_nsn op) experimentID experiment in
      _ ← check (guardPendingOperationSlot (dda_Annotations dda) (ro_nsn op) pending);
      patch ← wrap signalPromoteDatadogAgentExperiment
                (of_sum (buildSignalPatch ExperimentSignalPromote experimentID None));
      mret (Some pending, Some patch).

Definition applyOperation (nsn : NamespacedName) (signalLog : string) (plan : TaskPlan) : M (option pendingOperation) :=
  match plan with
  | (None, None) => mret None
  | (pending, patch) =>
      let patch := default ∅ patch in
      let patch := match pending with Some pending => pendingPatch pending patch | None => patch end in
      _ ← wrap (signalLog +:+ ": failed to patch DatadogAgent")
            (retryWithBackoff (dcall (fleet_MergePatch nsn patch)));
      mret pending
  end.

Definition startDatadogAgentExperiment (req : remoteAPIRequest) : M (option pendingOperation) :=
  op ← resolveOperation req signalStartDatadogAgentExperiment;
  plan ← planStart req op;
  applyOperation (ro_nsn op) signalStartDatadogAgentExperiment plan.

Definition stopDatadogAgentExperiment (req : remoteAPIRequest) : M (option pendingOperation) :=
  op ← resolveOperation req signalStopDatadogAgentExperiment;
  plan ← planStop req op;
  applyOperation (ro_nsn op) signalStopDatadogAgentExperiment plan.

Definition promoteDatadogAgentExperiment (req : remoteAPIRequest) : M (option pendingOperation) :=
  op ← resolveOperation req signalPromoteDatadogAgentExperiment;
  plan ← planPromote req op;
  applyOperation (ro_nsn op) signalPromoteDatadogAgentExperiment plan.

Definition revisionsRequired : error :=
  Errorf "experiment signals require the CreateControllerRevisions and DatadogAgentInternal feature gates".

Definition dispatchRemoteAPIRequest (req : remoteAPIRequest) : M (option pendingOperation) :=
  if bool_decide (req_Method req = methodStartDatadogAgentExperiment) then
    if negb revisionsEnabled then fail revisionsRequired else startDatadogAgentExperiment req
  else if bool_decide (req_Method req = methodStopDatadogAgentExperiment) then
    if negb revisionsEnabled then fail revisionsRequired else stopDatadogAgentExperiment req
  else if bool_decide (req_Method req = methodPromoteDatadogAgentExperiment) then
    if negb revisionsEnabled then fail revisionsRequired else promoteDatadogAgentExperiment req
  else fail (Errorf ("unknown method: " +:+ req_Method req)).

Definition handleRemoteAPIRequest (req : remoteAPIRequest) : M (option pendingOperation) :=
  _ ← verifyExpectedState req;
  dispatchRemoteAPIRequest req.

Definition installationInProgress : error :=
  stateDoesntMatchError "a DatadogAgent managed Agent installation transition is already in progress".

Definition handleTask (req : remoteAPIRequest) : M unit :=
  busy ← gets (λ s, ds_active s || ds_reserved s);
  if (busy : bool) then fail installationInProgress
  else
    r ← attempt (handleRemoteAPIRequest req);
    match r with
    | inr err =>
        _ ← setTaskState (req_Package req) (req_ID req)
              (if isStateDoesntMatch err then TaskState_INVALID_STATE else TaskState_ERROR) (Some err);
        fail err
    | inl None => setTaskState (req_Package req) (req_ID req) TaskState_DONE None
    | inl (Some _) => mret tt
    end.

(** *** The status worker *)

(** The send on a full channel is dropped. *)
Definition requestManagedAgentInstallationRetry : M unit := modify (set_ds_updates true).

Definition requestManagedAgentInstallationRetryIfWaiting : M unit :=
  waiting ← gets (λ s, managedAgentInstallationIntentsEnabled && ds_waiting s && negb (ds_active s));
  when waiting requestManagedAgentInstallationRetry.

Definition clearPendingAnnotationsIfCurrent (task : pendingOperation) : M unit :=
  current ← dcall (fleet_Get (po_nsn task));
  match pendingOperationFromAnnotations (po_nsn task) (dda_Annotations current) with
  | None => mret tt
  | Some currentTask =>
      if negb (po_matches currentTask task) then mret tt
      else retryWithBackoff (dcall (fleet_MergePatch (po_nsn task) clearPendingPatch))
  end.

(** The installer state of a task that ended without error, or the error of an
    intent that is none of the three. *)
Definition publishResult (task : pendingOperation) : M (option error) :=
  if bool_decide (po_intent task = pendingIntentStart) then
    versions ← getPackageConfigVersions (po_packageName task);
    _ ← setPackageConfigVersions (po_packageName task) versions.1 (po_experimentID task);
    mret None
  else if bool_decide (po_intent task = pendingIntentStop) then
    versions ← getPackageConfigVersions (po_packageName task);
    _ ← setPackageConfigVersions (po_packageName task) versions.1 "";
    mret None
  else if bool_decide (po_intent task = pendingIntentPromote) then
    _ ← setPackageConfigVersions (po_packageName task) (po_resultVersion task) "";
    mret None
  else mret (Some (Errorf ("unknown pending intent " +:+ po_intent task))).

Definition finishPendingOperation (task : pendingOperation) (resultErr : option error) : M unit :=
  resultErr ← (if bool_decide (resultErr = None) && bool_decide (po_intent task = pendingIntentPromote) then
                 r ← attempt (persistManagedAgentInstallationStableConfig (po_nsn task) (po_experimentID task)
                                (po_resultVersion task));
                 mret match r with
                      | inl _ => None
                      | inr e => Some (Wrapf "persist promoted managed Agent installation config" e)
                      end
               else mret resultErr : M (option error));
  resultErr ← (match resultErr with None => publishResult task | Some _ => mret resultErr end : M (option error));
  _ ← setTaskState (po_packageName task) (po_taskID task)
        (match resultErr with Some _ => TaskState_ERROR | None => TaskState_DONE end) resultErr;
  (* a failure to clear is logged *)
  _ ← attempt (clearPendingAnnotationsIfCurrent task);
  requestManagedAgentInstallationRetryIfWaiting.

(** The body of the loop over the packages. *)
Definition publishLocalTermination (experiment : ExperimentStatus) (errMsg : string) (pkg : PackageState) : M unit :=
  if negb (bool_decide (ps_ExperimentConfigVersion pkg = exp_ID experiment)) then mret tt
  else
    _ ← when (negb (bool_decide (exp_StartTaskID experiment = "")))
          (setTaskState (ps_Package pkg) (exp_StartTaskID experiment) TaskState_ERROR (Some (Errorf errMsg)));
    setPackageConfigVersions (ps_Package pkg) (ps_StableConfigVersion pkg) "".

Definition reconcileLocallyTerminatedExperiment (snapshot : ddaStatusSnapshot) : M unit :=
  rc ← gets ds_rc;
  match rc, sn_experiment snapshot with
  | Some packages, Some experiment =>
      let errMsg := localTerminationReason (Some experiment) in
      if bool_decide (errMsg = "") then mret tt
      else for_each (publishLocalTermination experiment errMsg) packages
  | _, _ => mret tt
  end.

Definition onStatusUpdate (snapshot : ddaStatusSnapshot) : M unit :=
  active ← gets ds_active;
  if (active : bool) then mret tt
  else
    _ ← reconcileLocallyTerminatedExperiment snapshot;
    match pendingOperationFromAnnotations (sn_nsn snapshot) (sn_annotations snapshot) with
    | None => mret tt
    | Some op =>
        match evaluatePendingTask snapshot op with
        | None => setTaskState (po_packageName op) (po_taskID op) TaskState_RUNNING None
        | Some resultErr => finishPendingOperation op resultErr
        end
    end.

(** *** Start-up *)

Definition rehydrateLegacyInstallerState : M unit :=
  ddas ← wrap "list DatadogAgents" (dcall fleet_List);
  for_each (λ dda : DatadogAgent Spec,
    match dda_Experiment dda with
    | None => mret tt
    | Some experiment =>
        if bool_decide (exp_ID experiment = "") || isTerminalPhase (exp_Phase experiment) then mret tt
        else
          versions ← getPackageConfigVersions packageDatadogOperator;
          setPackageConfigVersions packageDatadogOperator versions.1 (exp_ID experiment)
    end) ddas.

Definition managedAgentInstallationTarget : NamespacedName :=
  (managedAgentInstallationNamespace, fleetDatadogAgentName).

(** The stable and experiment versions of an owned DatadogAgent. *)
Definition ownedConfigVersions (dda : DatadogAgent Spec) : string * string :=
  let configID :=
    if bool_decide (get_key (dda_Labels dda) fleetManagedByLabel = fleetManagedByValue)
    then get_key (dda_Labels dda) fleetConfigIDLabel else "" in
  let stable :=
    if negb (bool_decide (configID = "")) &&
       (negb (bool_decide (get_key (dda_Labels dda) fleetManagedAgentInstallationStateLabel
                           = fleetManagedAgentInstallationStateReady)) ||
        bool_decide (get_key (dda_Annotations dda) fleetConfigHashAnnotation = ""))
    then fleetPartialConfigVersionPrefix +:+ configID else configID in
  let experiment :=
    match dda_Experiment dda with
    | None => ""
    | Some exp =>
        if bool_decide (exp_ID exp = "") then ""
        else if negb (isTerminalPhase (exp_Phase exp)) then exp_ID exp
        else if bool_decide (exp_Phase exp = ExperimentPhasePromoted) && negb (bool_decide (configID = "")) &&
                negb (bool_decide (configID = exp_ID exp)) then exp_ID exp
        else ""
    end in
  (stable, experiment).

Definition rehydrateInstallerState : M unit :=
  rc ← gets ds_rc;
  match rc, identity with
  | None, _ => mret tt
  | Some _, None => rehydrateLegacyInstallerState
  | Some _, Some _ =>
      ddas ← wrap "list DatadogAgents" (dcall fleet_List);
      match list_find (λ dda : DatadogAgent Spec, dda_key dda = managedAgentInstallationTarget) ddas with
      | None => setPackageConfigVersions packageDatadogOperator "" ""
      | Some (_, dda) =>
          owned ← of_sum (classifyFleetDatadogAgentOwnershipForRehydration dda);
          if negb (owned : bool)
          then setPackageConfigVersions packageDatadogOperator fleetUnmanagedConfigVersion ""
          else
            _ ← check (validateFleetDatadogAgentInstallation identity dda);
            let versions := ownedConfigVersions dda in
            if bool_decide (versions.1 = "") && bool_decide (versions.2 = "")
            then setPackageConfigVersions packageDatadogOperator "" ""
            else
              current ← getPackageConfigVersions packageDatadogOperator;
              let stable :=
                if negb (bool_decide (versions.1 = "")) then versions.1
                else if bool_decide (current.1 = "empty") || bool_decide (current.1 = InstallerStateUnknownConfigVersion)
                then "" else current.1 in
              setPackageConfigVersions packageDatadogOperator stable versions.2
      end
  end.
End Daemon.

(** ** Remote configuration callbacks

    A payload is what decoding its bytes gives.  [updates] lists the map in the
    order it is ranged over; the result has the status applied to each path, in
    order. *)

Inductive ApplyState := ApplyStateUnacknowledged | ApplyStateAcknowledged | ApplyStateError (msg : string).

Section Callbacks.
Context {S : Type}.

(** Stops at the first payload that cannot be decoded. *)
Fixpoint decodeConfigs (updates : list (string * (installerConfig + error))) :
    list (string * installerConfig) + (string * error) :=
  match updates with
  | [] => inl []
  | (cfgPath, inr e) :: _ => inr (cfgPath, e)
  | (cfgPath, inl cfg) :: updates =>
      match decodeConfigs updates with
      | inl configs => inl ((cfgPath, cfg) :: configs)
      | inr e => inr e
      end
  end.

Definition handleInstallerConfigUpdate (h : list (string * installerConfig) → GoM S unit)
    (updates : list (string * (installerConfig + error))) : GoM S (list (string * ApplyState)) :=
  match decodeConfigs updates with
  | inr (cfgPath, e) =>
      mret [(cfgPath, ApplyStateError ("failed to unmarshal installer config: " +:+ error_Error e))]
  | inl configs =>
      r ← attempt (h configs);
      mret match r with
           | inr e => (λ u, (u.1, ApplyStateError (error_Error e))) <$> updates
           | inl _ => (λ u, (u.1, ApplyStateAcknowledged)) <$> updates
           end
  end.

(** The closure's [seen] set is threaded through. *)
Fixpoint handleUpdaterTaskUpdate (h : remoteAPIRequest → GoM S unit) (seen : gset string)
    (updates : list (string * (remoteAPIRequest + error))) : GoM S (gset string * list (string * ApplyState)) :=
  match updates with
  | [] => mret (seen, [])
  | (cfgPath, inr e) :: updates =>
      r ← handleUpdaterTaskUpdate h seen updates;
      mret (r.1, (cfgPath, ApplyStateError ("failed to unmarshal remote API request: " +:+ error_Error e)) :: r.2)
  | (cfgPath, inl req) :: updates =>
      if bool_decide (req_ID req ∈ seen) then
        r ← handleUpdaterTaskUpdate h seen updates;
        mret (r.1, (cfgPath, ApplyStateAcknowledged) :: r.2)
      else
        x ← attempt (h req);
        match x with
        | inr e =>
            r ← handleUpdaterTaskUpdate h seen updates;
            mret (r.1, (cfgPath, ApplyStateUnacknowledged) :: (cfgPath, ApplyStateError (error_Error e)) :: r.2)
        | inl _ =>
            r ← handleUpdaterTaskUpdate h ({[req_ID req]} ∪ seen) updates;
            mret (r.1, (cfgPath, ApplyStateUnacknowledged) :: (cfgPath, ApplyStateAcknowledged) :: r.2)
        end
  end.
End Callbacks.
