(* ===== verification/FleetFacts.v ===== *)
(** * Facts about the fleet daemon.

    The installer state as a table of packages, the pending-task annotations
    through a merge patch, and what a run of each operation of the daemon can
    do, for every sound client. *)

From Stdlib Require Import ZArith Ascii.
From stdpp Require Import base gmap strings list.
From S2P Require Import Prelude GoRun Cluster Experiment FleetData Fleet.

(** ** The installer state *)

Lemma rcPackage_cons pkg p l :
  rcPackage pkg (p :: l) = if decide (ps_Package p = pkg) then Some p else rcPackage pkg l.
Proof. unfold rcPackage. simpl. case_decide; [done|]. by destruct (list_find _ l) as [[]|]. Qed.

Lemma rcPackage_Some pkg l p : rcPackage pkg l = Some p → ps_Package p = pkg.
Proof. induction l as [|q l IH]; [done|]. rewrite rcPackage_cons. case_decide; naive_solver. Qed.

Lemma rcPackage_fmap pkg pkg' f l :
  (∀ p, ps_Package (f p) = ps_Package p) →
  rcPackage pkg ((λ p, if bool_decide (ps_Package p = pkg') then f p else p) <$> l)
  = (λ p, if bool_decide (pkg = pkg') then f p else p) <$> rcPackage pkg l.
Proof.
  intros Hf. induction l as [|p l IH]; [done|]. rewrite fmap_cons, !rcPackage_cons, IH.
  repeat case_bool_decide; repeat case_decide; simplify_eq/=; rewrite ?Hf in *; try congruence.
Qed.

Lemma rcPackage_app pkg l k :
  rcPackage pkg (l ++ k) = match rcPackage pkg l with Some p => Some p | None => rcPackage pkg k end.
Proof. induction l as [|p l IH]; [done|]. simpl. rewrite !rcPackage_cons, IH. by case_decide. Qed.

Lemma rcPackage_None pkg l :
  rcPackage pkg l = None ↔ existsb (λ p, bool_decide (ps_Package p = pkg)) l = false.
Proof.
  induction l as [|p l IH]; [done|]. rewrite rcPackage_cons. simpl.
  case_decide; case_bool_decide; simplify_eq/=; done.
Qed.

(** The entry a package has, the blank one when it has none. *)
Definition rcEntry (pkg : string) (l : list PackageState) : PackageState :=
  default (mkPackageState pkg "" "" None "" "") (rcPackage pkg l).

Section Update.
Context (f : PackageState → PackageState) (Hf : ∀ p, ps_Package (f p) = ps_Package p).

Lemma rcPackage_update_eq pkg l : rcPackage pkg (updatePackage pkg f l) = Some (f (rcEntry pkg l)).
Proof using Hf.
  unfold updatePackage, rcEntry. destruct (rcPackage pkg l) as [p|] eqn:E.
  - destruct (existsb _ l) eqn:Ex; [|by apply rcPackage_None in Ex; congruence].
    rewrite rcPackage_fmap, E by done. simpl. by rewrite bool_decide_true.
  - rewrite (proj1 (rcPackage_None pkg l)) by done.
    rewrite rcPackage_app, rcPackage_fmap, E, rcPackage_cons, Hf by done. simpl. by rewrite decide_True.
Qed.

Lemma rcPackage_update_ne pkg pkg' l : pkg ≠ pkg' → rcPackage pkg (updatePackage pkg' f l) = rcPackage pkg l.
Proof using Hf.
  intros Hne. unfold updatePackage.
  assert (Hm : rcPackage pkg ((λ p, if bool_decide (ps_Package p = pkg') then f p else p) <$> l) = rcPackage pkg l).
  { rewrite rcPackage_fmap by done. rewrite bool_decide_false by done. by destruct (rcPackage pkg l). }
  destruct (existsb _ l); [done|]. rewrite rcPackage_app, Hm, rcPackage_cons, Hf. simpl.
  rewrite decide_False by done. by destruct (rcPackage pkg l).
Qed.
End Update.

Lemma rcPackage_task pkg pkg' id st err l :
  rcPackage pkg (rcTaskState pkg' id st err l)
  = if decide (pkg = pkg') then Some (set_ps_Task (taskOf id st err) (rcEntry pkg l)) else rcPackage pkg l.
Proof.
  case_decide as E; [subst|]; [by apply rcPackage_update_eq|by apply rcPackage_update_ne].
Qed.

Lemma rcPackage_configs pkg pkg' st ex l :
  rcPackage pkg (rcConfigVersions pkg' st ex l)
  = if decide (pkg = pkg') then Some (set_ps_Configs st ex (rcEntry pkg l)) else rcPackage pkg l.
Proof.
  case_decide as E; [subst|]; [by apply rcPackage_update_eq|by apply rcPackage_update_ne].
Qed.

Lemma rcVersions_entry pkg l :
  rcVersions pkg l = (ps_StableConfigVersion (rcEntry pkg l), ps_ExperimentConfigVersion (rcEntry pkg l)).
Proof. unfold rcVersions, rcEntry. by destruct (rcPackage pkg l). Qed.

Lemma rcEntry_configs pkg pkg' st ex l :
  rcEntry pkg (rcConfigVersions pkg' st ex l)
  = if decide (pkg = pkg') then set_ps_Configs st ex (rcEntry pkg l) else rcEntry pkg l.
Proof. unfold rcEntry at 1. rewrite rcPackage_configs. by case_decide. Qed.

Lemma rcEntry_task pkg pkg' id st err l :
  rcEntry pkg (rcTaskState pkg' id st err l)
  = if decide (pkg = pkg') then set_ps_Task (taskOf id st err) (rcEntry pkg l) else rcEntry pkg l.
Proof. unfold rcEntry at 1. rewrite rcPackage_task. by case_decide. Qed.

(** ** Pending operations and their annotations *)

Lemma po_matches_eq op other : po_matches op other = true ↔ op = other.
Proof.
  unfold po_matches. rewrite !andb_true_iff, !bool_decide_eq_true. split; [|by intros ->].
  destruct op, other; naive_solver.
Qed.

(** An operation the annotations can hold. *)
Definition po_valid (op : pendingOperation) : Prop :=
  po_taskID op ≠ "" ∧ po_packageName op ≠ "" ∧ po_experimentID op ≠ "" ∧
  (po_intent op = pendingIntentStart ∨ po_intent op = pendingIntentStop ∨ po_intent op = pendingIntentPromote).

Definition pendingKeys : list string :=
  [AnnotationPendingTaskID; AnnotationPendingAction; AnnotationPendingExperimentID;
   AnnotationPendingPackage; AnnotationPendingResultVersion].

Lemma hash_not_pending : fleetConfigHashAnnotation ∉ pendingKeys.
Proof. apply (bool_decide_unpack _). by vm_compute. Qed.
Lemma signal_not_pending : AnnotationExperimentSignal ∉ pendingKeys.
Proof. apply (bool_decide_unpack _). by vm_compute. Qed.
Lemma id_not_pending : AnnotationExperimentID ∉ pendingKeys.
Proof. apply (bool_decide_unpack _). by vm_compute. Qed.
#[export] Hint Resolve hash_not_pending signal_not_pending id_not_pending : go.

Lemma pending_decoded nsn a op :
  pendingOperationFromAnnotations nsn a = Some op →
  op = mkPending (get_key a AnnotationPendingAction) (get_key a AnnotationPendingTaskID)
         (get_key a AnnotationPendingPackage) nsn (get_key a AnnotationPendingExperimentID)
         (get_key a AnnotationPendingResultVersion) ∧ po_valid op.
Proof.
  unfold pendingOperationFromAnnotations. simpl.
  destruct (_ || _) eqn:E1; [done|]. destruct (_ || bool_decide (_ = pendingIntentPromote)) eqn:E2; [|done].
  intros [= <-]. split; [done|]. unfold po_valid. simpl.
  rewrite !orb_false_iff, !bool_decide_eq_false in E1. rewrite !orb_true_iff, !bool_decide_eq_true in E2.
  naive_solver.
Qed.

Lemma pending_decode nsn a op :
  po_valid op → po_nsn op = nsn →
  get_key a AnnotationPendingAction = po_intent op →
  get_key a AnnotationPendingTaskID = po_taskID op →
  get_key a AnnotationPendingPackage = po_packageName op →
  get_key a AnnotationPendingExperimentID = po_experimentID op →
  get_key a AnnotationPendingResultVersion = po_resultVersion op →
  pendingOperationFromAnnotations nsn a = Some op.
Proof.
  intros (Ht & Hp & He & Hi) Hn H1 H2 H3 H4 H5. unfold pendingOperationFromAnnotations.
  rewrite H1, H2, H3, H4, H5. simpl.
  rewrite (bool_decide_false (po_taskID op = "")), (bool_decide_false (po_intent op = "")),
    (bool_decide_false (po_experimentID op = "")), (bool_decide_false (po_packageName op = ""))
    by (done || by destruct Hi as [->|[->| ->]]). simpl.
  assert (bool_decide (po_intent op = pendingIntentStart) || bool_decide (po_intent op = pendingIntentStop) ||
          bool_decide (po_intent op = pendingIntentPromote) = true) as ->.
  { rewrite !orb_true_iff, !bool_decide_eq_true. tauto. }
  rewrite <- Hn. by destruct op.
Qed.

(** Annotations that agree on the five keys hold the same operation. *)
Lemma pending_ext nsn a a' :
  (∀ k, k ∈ pendingKeys → a' !! k = a !! k) →
  pendingOperationFromAnnotations nsn a' = pendingOperationFromAnnotations nsn a.
Proof.
  intros Hk. unfold pendingOperationFromAnnotations, get_key. unfold pendingKeys in Hk.
  rewrite !Hk by set_solver. done.
Qed.

Lemma merge_strings_Some p m m' : merge_strings p m = Some m' → ∀ k, m' !! k = merge_value (p !! k) (m !! k).
Proof.
  unfold merge_strings. destruct (forallb _ _); [|done]. intros [= <-] k. rewrite lookup_merge.
  unfold diag_None. by destruct (p !! k), (m !! k).
Qed.

(** The annotations after the patch of [applyOperation], whatever it extends. *)
Lemma pendingPatch_annotations op patch m m' :
  patch_metadata "annotations" (pendingPatch op patch) m = Some m' →
  (∀ k, k ∉ pendingKeys →
     m' !! k = merge_value (object_at "annotations" (object_at "metadata" patch) !! k) (m !! k)) ∧
  (∀ nsn, po_valid op → po_nsn op = nsn → pendingOperationFromAnnotations nsn m' = Some op).
Proof.
  unfold patch_metadata, pendingPatch. rewrite lookup_insert_eq, lookup_insert_eq. intros Hm.
  pose proof (merge_strings_Some _ _ _ Hm) as Hl. clear Hm. split.
  - intros k Hk. unfold pendingKeys in Hk. rewrite Hl, !lookup_insert_ne by set_solver. done.
  - intros nsn Hv Hn. apply pending_decode; try done; unfold get_key; rewrite Hl;
      repeat first [rewrite lookup_insert_eq | rewrite lookup_insert_ne by done]; simpl; try done.
    by case_bool_decide as E; simpl; rewrite ?E.
Qed.

Lemma clearPendingAnnotations_lookup k : k ∈ pendingKeys → clearPendingAnnotations !! k = Some JNull.
Proof.
  unfold pendingKeys. intros Hk.
  repeat (apply elem_of_cons in Hk as [->|Hk]; [vm_compute; reflexivity|]). by apply elem_of_nil in Hk.
Qed.

Lemma clearPendingAnnotations_other k : k ∉ pendingKeys → clearPendingAnnotations !! k = None.
Proof.
  unfold pendingKeys, clearPendingAnnotations. rewrite !not_elem_of_cons. intros (? & ? & ? & ? & ? & _).
  rewrite !lookup_insert_ne, lookup_singleton_ne by congruence. reflexivity.
Qed.

Lemma clearPendingPatch_annotations m m' :
  patch_metadata "annotations" clearPendingPatch m = Some m' →
  ∀ k, m' !! k = if bool_decide (k ∈ pendingKeys) then None else m !! k.
Proof.
  unfold patch_metadata, clearPendingPatch. rewrite !lookup_singleton_eq. intros Hm k.
  rewrite (merge_strings_Some _ _ _ Hm k). clear Hm. case_bool_decide.
  - by rewrite clearPendingAnnotations_lookup.
  - by rewrite clearPendingAnnotations_other.
Qed.

(** ** Signals in a patch *)

(** A configuration that leaves the metadata alone. *)
Definition config_spec_only (config : option json) : Prop :=
  ∀ m, config = Some (JObj m) → m !! "metadata" = None.

Lemma signalPatch_annotations signal id config patch :
  buildSignalPatch signal id config = inl patch → config_spec_only config →
  object_at "annotations" (object_at "metadata" patch)
  = <[AnnotationExperimentSignal := JStr signal]> {[ AnnotationExperimentID := JStr id ]}.
Proof.
  intros Hb Hc.
  assert (Hm : patch !! "metadata" = Some (JObj {[ "annotations" := JObj
    (<[AnnotationExperimentSignal := JStr signal]> {[ AnnotationExperimentID := JStr id ]}) ]})).
  { unfold buildSignalPatch in Hb. destruct config as [raw|]; [|simplify_eq; by rewrite lookup_singleton_eq].
    destruct raw as [| | | | |m]; simplify_eq/=.
    - by rewrite map_empty_union, lookup_singleton_eq.
    - rewrite lookup_union_r by (by apply Hc). by rewrite lookup_singleton_eq. }
  unfold object_at at 2. rewrite Hm. unfold object_at. by rewrite lookup_singleton_eq.
Qed.

Lemma pendingPatch_spec op patch : pendingPatch op patch !! "spec" = patch !! "spec".
Proof. unfold pendingPatch. by rewrite lookup_insert_ne. Qed.

Lemma signalPatch_no_spec signal id patch : buildSignalPatch signal id None = inl patch → patch !! "spec" = None.
Proof. intros [= <-]. by rewrite lookup_singleton_ne. Qed.

(** The signal of an intent: a stop is a rollback on the DatadogAgent. *)
Definition signalOf (intent : string) : string :=
  if bool_decide (intent = pendingIntentStop) then ExperimentSignalRollback else intent.

(** The annotations of a signal, once patched. *)
Lemma signalled_annotations op signal id config patch m m' :
  buildSignalPatch signal id config = inl patch → config_spec_only config →
  patch_metadata "annotations" (pendingPatch op patch) m = Some m' →
  get_key m' AnnotationExperimentSignal = signal ∧ get_key m' AnnotationExperimentID = id.
Proof.
  intros Hb Hc Hm. destruct (pendingPatch_annotations _ _ _ _ Hm) as [Hk _]. clear Hm.
  rewrite (signalPatch_annotations _ _ _ _ Hb Hc) in Hk. unfold get_key. rewrite !Hk by auto with go.
  by rewrite lookup_insert_eq, lookup_insert_ne, lookup_singleton_eq by done.
Qed.
