(* ===== verification/FleetRuns.v ===== *)
(** * What a run of the fleet daemon does.

    Every operation of [Fleet] is specified by what it can leave behind, for
    every sound client and whatever call fails: [planned] and [settled] are the
    decisions of the planning functions, [handled] what a request makes of the
    DatadogAgents and of the installer state. *)

From Stdlib Require Import ZArith Ascii.
From stdpp Require Import base gmap strings list.
From S2P Require Import Prelude GoRun Cluster Experiment FleetData Fleet FleetFacts.

Section Runs.
Context {W Spec : Type} `{SoundFleetClient W Spec}.
Context {HRepeating : Repeating}.
Implicit Types (s : DaemonState W) (req : remoteAPIRequest) (op : pendingOperation) (nsn : NamespacedName).
Abbreviation V s := (fleet_view (ds_world s)).
Abbreviation M := (GoM (DaemonState W)).

(** Only reads happened. *)
Definition reads_only (s s' : DaemonState W) : Prop := ∃ w, s' = set_ds_world w s ∧ fleet_view w = V s.

Lemma reads_refl s : reads_only s s.
Proof. exists (ds_world s). by destruct s. Qed.

Lemma reads_trans s1 s2 s3 : reads_only s1 s2 → reads_only s2 s3 → reads_only s1 s3.
Proof. intros (w & -> & Hw) (w' & -> & Hw'). exists w'. split; [done|]. simpl in *. congruence. Qed.

Lemma reads_view s s' : reads_only s s' → V s' = V s.
Proof. by intros (w & -> & Hw). Qed.

Lemma reads_rc s s' : reads_only s s' → ds_rc s' = ds_rc s.
Proof. by intros (w & -> & Hw). Qed.

Lemma wp_Get nsn s :
  wp (dcall (fleet_Get nsn)) (λ s' o, reads_only s s' ∧
    match o with Ret d => V s !! nsn = Some d | Fail _ => True | Panic => False end) s.
Proof.
  pose proof (sound_fleet_Get nsn (ds_world s)) as Hg. unfold wp, dcall, reads_only.
  destruct (fleet_Get nsn (ds_world s)) as [w [d|e|]]; simpl; naive_solver.
Qed.

Lemma wp_Read nsn s :
  wp (dcall (fleet_Read nsn)) (λ s' o, reads_only s s' ∧
    match o with Ret d => V s !! nsn = Some d | Fail _ => True | Panic => False end) s.
Proof.
  pose proof (sound_fleet_Read nsn (ds_world s)) as Hg. unfold wp, dcall, reads_only.
  destruct (fleet_Read nsn (ds_world s)) as [w [d|e|]]; simpl; naive_solver.
Qed.

(** The patch took effect, or nothing changed. *)
Lemma wp_MergePatch retries nsn patch s :
  wp (retryWithBackoff retries (dcall (fleet_MergePatch nsn patch))) (λ s' o,
    match o with
    | Ret _ => ∃ w d d', s' = set_ds_world w s ∧ V s !! nsn = Some d ∧ patched_by patch d d' ∧
                 fleet_view w = <[nsn := d']> (V s)
    | Fail _ => reads_only s s'
    | Panic => False
    end) s.
Proof.
  apply (wp_retryOnError (reads_only s)); [|apply reads_refl]. intros s1 (w1 & -> & Hw1).
  pose proof (sound_fleet_MergePatch nsn patch w1) as Hp. unfold wp, dcall. simpl.
  destruct (fleet_MergePatch nsn patch w1) as [w [[]|e|]]; simpl; [|split; exists w; (split; [done|simpl; congruence])|done].
  destruct Hp as (d & d' & Hd & Hpd & Hw). split; [|done]. exists w, d, d'.
  rewrite Hw1 in *. destruct s; done.
Qed.

(** ** Planning *)

Section Plans.
Context (identity : option ManagedAgentInstallationIdentity).
Context (decodeConfig : option json → option Spec + error).
Context (spec_Global : Spec → option GlobalCredentials).
Context (fleetDatadogAgentSpecHash : Spec → string + error).
Context (retries conflictRetries : nat).

(** The versions the daemon reports for a package. *)
Definition versions (s : DaemonState W) (pkg : string) : string * string :=
  from_option (rcVersions pkg) ("", "") (ds_rc s).

(** The operation and patch a request is turned into, on the DatadogAgent [d]. *)
Inductive planned (s : DaemonState W) (req : remoteAPIRequest) (config : option json) (d : DatadogAgent Spec)
    (nsn : NamespacedName) : pendingOperation → option (gmap string json) → Prop :=
  | planned_start_again :
      get_key (dda_Annotations d) AnnotationExperimentID = par_Version (req_Params req) →
      planned s req config d nsn
        (newPendingOperation pendingIntentStart req nsn (par_Version (req_Params req))) None
  | planned_start patch :
      get_key (dda_Annotations d) AnnotationExperimentID ≠ par_Version (req_Params req) →
      runningExperimentID d = "" →
      buildSignalPatch ExperimentSignalStart (par_Version (req_Params req)) config = inl patch →
      planned s req config d nsn
        (newPendingOperation pendingIntentStart req nsn (par_Version (req_Params req))) (Some patch)
  | planned_stop id patch :
      id = currentExperimentID d (versions s (req_Package req)).2 → id ≠ "" →
      isTerminalPhase (phase_of (dda_Experiment d)) = false →
      buildSignalPatch ExperimentSignalRollback id None = inl patch →
      planned s req config d nsn (newPendingOperation pendingIntentStop req nsn id) (Some patch)
  | planned_promote id patch :
      id = currentExperimentID d (versions s (req_Package req)).2 →
      (versions s (req_Package req)).2 ≠ "" →
      experimentHasPhase d id ExperimentPhaseRunning = true →
      buildSignalPatch ExperimentSignalPromote id None = inl patch →
      planned s req config d nsn
        (mkPending pendingIntentPromote (req_ID req) (req_Package req) nsn id (versions s (req_Package req)).2)
        (Some patch).

(** The intent of a method, and the versions reported when there is nothing
    left to do for it. *)
Inductive settled (s : DaemonState W) (req : remoteAPIRequest) (d : DatadogAgent Spec) : string → string * string → Prop :=
  | settled_start :
      experimentHasPhase d (par_Version (req_Params req)) ExperimentPhaseRunning = true →
      settled s req d pendingIntentStart ((versions s (req_Package req)).1, par_Version (req_Params req))
  | settled_stop :
      phase_of (dda_Experiment d) ≠ ExperimentPhaseRunning →
      settled s req d pendingIntentStop ((versions s (req_Package req)).1, "")
  | settled_promote :
      experimentHasPhase d (currentExperimentID d (versions s (req_Package req)).2) ExperimentPhasePromoted = true →
      settled s req d pendingIntentPromote ((versions s (req_Package req)).2, "").

(** The accepted configuration of a managed installation is recorded on [d]. *)
Definition recorded (configID hash : string) (d : DatadogAgent Spec) : DatadogAgent Spec :=
  mkDatadogAgent (dda_Namespace d) (dda_Name d) (dda_UID d) (dda_ResourceVersion d)
    (<[fleetConfigIDLabel := configID]> (dda_Labels d))
    (<[fleetConfigHashAnnotation := hash]> (dda_Annotations d)) (dda_Spec d) (dda_Experiment d).

(** Nothing was written, or only that record. *)
Definition at_most_recorded (nsn : NamespacedName) (s s' : DaemonState W) : Prop :=
  ∃ w, s' = set_ds_world w s ∧
    (fleet_view w = V s ∨
     is_Some identity ∧ ∃ d configID hash rv, V s !! nsn = Some d ∧
       fleet_view w = <[nsn := apply_dda_update rv (recorded configID hash d) d]> (V s)).

Lemma reads_at_most_recorded nsn s s' : reads_only s s' → at_most_recorded nsn s s'.
Proof. intros (w & -> & Hw). exists w. auto. Qed.

Lemma wp_persist nsn id configID s :
  wp (persistManagedAgentInstallationStableConfig identity fleetDatadogAgentSpecHash conflictRetries nsn id configID)
    (λ s' o, match o with Ret _ => at_most_recorded nsn s s' | Fail _ => reads_only s s' | Panic => False end) s.
Proof.
  unfold persistManagedAgentInstallationStableConfig. destruct identity as [i|] eqn:Ei.
  2: { apply wp_ret, reads_at_most_recorded, reads_refl. }
  case_match; [apply wp_fail, reads_refl|].
  apply (wp_retryOnError (reads_only s)); [|apply reads_refl]. intros s1 Hs1.
  apply wp_bind. eapply wp_mono; [apply wp_Read|]. intros s2 [d|e|] [Hq Hd]; simpl;
    [|split; by eapply reads_trans|done].
  assert (Hs2 : reads_only s s2) by (by eapply reads_trans). wp_checks done.
  destruct (negb (experimentHasPhase _ _ _)); [done|]. wp_checks done. destruct (bool_decide _ && bool_decide _).
  { apply wp_ret. split; [|done]. by apply reads_at_most_recorded. }
  destruct Hs2 as (w2 & -> & Hw2). rewrite (reads_view _ _ Hs1) in Hd.
  pose proof (sound_fleet_keyed _ _ _ Hd) as Hk.
  change (mkDatadogAgent _ _ _ _ _ _ _ _) with (recorded configID a d).
  pose proof (sound_fleet_PatchFrom d (recorded configID a d) w2) as Hp. unfold wp, dcall. simpl.
  destruct (fleet_PatchFrom _ _ w2) as [w [[]|e|]]; simpl;
    [|split; exists w; (split; [done|simpl; congruence])|done].
  destruct Hp as (d0 & rv & Hd0 & _ & Hw). rewrite Hw2, Hk in *. assert (d0 = d) as -> by congruence.
  split; [|done]. exists w. split; [done|]. right. split; [by rewrite Ei|]. exists d, configID, a, rv.
  by rewrite Hw.
Qed.

(** What planning leaves behind and decides. *)
Definition plan_post (s : DaemonState W) (req : remoteAPIRequest) (config : option json) (nsn : NamespacedName)
    (intent : string) (s' : DaemonState W) (o : outcome TaskPlan) : Prop :=
  match o with
  | Ret (Some op, patch) =>
      reads_only s s' ∧ po_intent op = intent ∧
      ∃ d, V s !! nsn = Some d ∧ planned s req config d nsn op patch ∧
           guardPendingOperationSlot (dda_Annotations d) nsn op = None
  | Ret (None, None) =>
      ∃ d v s1, V s !! nsn = Some d ∧ settled s req d intent v ∧ at_most_recorded nsn s s1 ∧
           s' = set_ds_rc (rcConfigVersions (req_Package req) v.1 v.2 <$> ds_rc s) s1
  | Ret (None, Some _) => False
  | Fail _ => reads_only s s'
  | Panic => False
  end.

Lemma wp_planStart req (op : resolvedOperation) s :
  wp (planStart identity decodeConfig spec_Global req op)
    (plan_post s req (ro_Config op) (ro_nsn op) pendingIntentStart) s.
Proof.
  unfold planStart. apply wp_bind. apply (wp_mono _ (λ s' o, reads_only s s' ∧ o ≠ Panic)).
  { destruct identity; [|by split; [apply reads_refl|]].
    apply wp_wrap_of_sum; intros; split; try done; apply reads_refl. }
  intros s1 [[]|e|] [Hs1 Hn]; simpl; [|done|done]. apply wp_bind, wp_wrap.
  eapply wp_mono; [apply wp_Get|]. intros s2 [d|e|] [Hq Hd]; simpl; [|by eapply reads_trans|done].
  assert (Hs2 : reads_only s s2) by (by eapply reads_trans). rewrite (reads_view _ _ Hs1) in Hd. clear Hq Hs1.
  wp_checks done. destruct (experimentHasPhase d _ _) eqn:Ehas.
  { wp_checks done. apply wp_ret. eexists d, _, s2. split_and!; [done|by apply settled_start| |].
    - by apply reads_at_most_recorded.
    - unfold versions. by rewrite (reads_rc _ _ Hs2). }
  case_bool_decide as Eann.
  { wp_checks done. apply wp_ret. simpl. split_and!; [done..|].
    exists d. split_and!; [done| |done]. by constructor. }
  case_bool_decide as Erun; [|by apply wp_fail]. wp_checks done. apply wp_ret. simpl. split_and!; [done..|].
  exists d. split_and!; [done| |done]. by constructor.
Qed.

Lemma wp_planStop req (op : resolvedOperation) s :
  wp (planStop identity req op) (plan_post s req (ro_Config op) (ro_nsn op) pendingIntentStop) s.
Proof.
  unfold planStop. apply wp_bind, wp_wrap.
  eapply wp_mono; [apply wp_Get|]. intros s2 [d|e|] [Hs2 Hd]; simpl; [|done|done].
  wp_checks done. set (id := currentExperimentID _ _).
  assert (Hid : id = currentExperimentID d (versions s (req_Package req)).2).
  { unfold id, versions. by rewrite (reads_rc _ _ Hs2). }
  clearbody id.
  assert (Hgo : id ≠ "" → isTerminalPhase (phase_of (dda_Experiment d)) = false →
    wp (check (guardPendingOperationSlot (dda_Annotations d) (ro_nsn op)
                 (newPendingOperation pendingIntentStop req (ro_nsn op) id)) ≫= λ _,
        wrap signalStopDatadogAgentExperiment (of_sum (buildSignalPatch ExperimentSignalRollback id None)) ≫= λ patch,
        mret (Some (newPendingOperation pendingIntentStop req (ro_nsn op) id), Some patch))
      (plan_post s req (ro_Config op) (ro_nsn op) pendingIntentStop) s2).
  { intros Hne Hterm. wp_checks done. apply wp_ret. simpl. split_and!; [done..|].
    exists d. split_and!; [done| |done]. by constructor. }
  assert (Hnothing : phase_of (dda_Experiment d) ≠ ExperimentPhaseRunning →
    wp (clearExperimentConfigVersion (req_Package req) ≫= λ _, mret (None, None))
      (plan_post s req (ro_Config op) (ro_nsn op) pendingIntentStop) s2).
  { intros Hne. unfold wp. cbn. eexists d, _, s2. split_and!; [done|by apply settled_stop| |].
    - by apply reads_at_most_recorded.
    - unfold versions. by rewrite <- (reads_rc _ _ Hs2). }
  destruct (dda_Experiment d) as [e|] eqn:Ee; simpl in *.
  - destruct (isTerminalPhase (exp_Phase e)) eqn:Et.
    { apply Hnothing. by destruct (exp_Phase e). }
    destruct (exp_Phase e); try done; (case_bool_decide; [by apply wp_fail|by apply Hgo]).
  - case_bool_decide; simpl; [by apply Hnothing|]. case_bool_decide; simpl; [by apply Hgo|by apply Hnothing].
Qed.

Lemma wp_planPromote req (op : resolvedOperation) s :
  wp (planPromote identity fleetDatadogAgentSpecHash conflictRetries req op)
    (plan_post s req (ro_Config op) (ro_nsn op) pendingIntentPromote) s.
Proof.
  unfold planPromote, getPackageConfigVersions. apply wp_gets_then. fold (versions s (req_Package req)).
  case_bool_decide as Eexp; [apply wp_fail, reads_refl|]. apply wp_bind, wp_wrap.
  eapply wp_mono; [apply wp_Get|]. intros s2 [d|e|] [Hs2 Hd]; simpl; [|done|done].
  wp_checks done. destruct (experimentHasPhase d _ ExperimentPhasePromoted) eqn:Ep.
  { apply wp_bind, wp_wrap. eapply wp_mono; [apply wp_persist|]. intros s3 [[]|e|] Hs3; simpl; [| |done].
    - unfold setPackageConfigVersions. eexists d, _, s3.
      destruct Hs2 as (w2 & -> & Hw2), Hs3 as (w3 & -> & Hw3). simpl in *. rewrite Hw2 in *.
      split_and!; [done|by apply settled_promote| |done]. by exists w3.
    - by eapply reads_trans. }
  destruct (experimentHasPhase d _ ExperimentPhaseRunning) eqn:Er; [|by apply wp_fail].
  wp_checks done. apply wp_ret. simpl. split_and!; [done..|].
  exists d. split_and!; [done| |done]. by constructor.
Qed.

(** ** Requests *)

Definition methodIntent (method : string) : option string :=
  if bool_decide (method = methodStartDatadogAgentExperiment) then Some pendingIntentStart
  else if bool_decide (method = methodStopDatadogAgentExperiment) then Some pendingIntentStop
  else if bool_decide (method = methodPromoteDatadogAgentExperiment) then Some pendingIntentPromote
  else None.

(** The configuration of a start is that of the one update the version names. *)
Definition resolved_from (s : DaemonState W) (version : string) (config : option json) : Prop :=
  version ≠ "" ∧ ∃ cfg, ds_configs s !! version = Some cfg ∧ ic_Operations cfg = [mkFleetOperation OperationUpdate config].

(** What a request leaves behind: refused, nothing left to do, or dispatched
    to the reconciler through a patch of its DatadogAgent. *)
Inductive handled (s : DaemonState W) (req : remoteAPIRequest) :
    DaemonState W → outcome (option pendingOperation) → Prop :=
  | handled_refused s' e : reads_only s s' → handled s req s' (Fail e)
  | handled_settled s' d v intent s1 :
      methodIntent (req_Method req) = Some intent →
      V s !! par_NamespacedName (req_Params req) = Some d →
      settled s req d intent v →
      at_most_recorded (par_NamespacedName (req_Params req)) s s1 →
      s' = set_ds_rc (rcConfigVersions (req_Package req) v.1 v.2 <$> ds_rc s) s1 →
      handled s req s' (Ret None)
  | handled_dispatched op patch config d d' w :
      methodIntent (req_Method req) = Some (po_intent op) →
      (po_intent op = pendingIntentStart → resolved_from s (par_Version (req_Params req)) config) →
      V s !! par_NamespacedName (req_Params req) = Some d →
      planned s req config d (par_NamespacedName (req_Params req)) op patch →
      guardPendingOperationSlot (dda_Annotations d) (par_NamespacedName (req_Params req)) op = None →
      patched_by (pendingPatch op (default ∅ patch)) d d' →
      fleet_view w = <[par_NamespacedName (req_Params req) := d']> (V s) →
      handled s req (set_ds_world w s) (Ret (Some op)).

Lemma wp_resolve req signal s :
  wp (resolveOperation req signal) (λ s' o, s' = s ∧
    match o with
    | Ret op => ro_nsn op = par_NamespacedName (req_Params req) ∧
                (signal = signalStartDatadogAgentExperiment →
                 resolved_from s (par_Version (req_Params req)) (ro_Config op))
    | Fail _ => True
    | Panic => False
    end) s.
Proof.
  unfold resolveOperation. wp_checks done. case_bool_decide as Es; simpl; [|done].
  case_bool_decide; [done|]. apply wp_bind, wp_wrap. unfold getConfig. apply wp_gets_then.
  destruct (_ !! _) as [cfg|] eqn:Ecfg; [|done]. apply wp_ret.
  destruct (ic_Operations cfg) as [|[o c] [|]] eqn:Eops; [by apply wp_fail| |by apply wp_fail].
  case_bool_decide; simplify_eq/=; [|by apply wp_fail]. apply wp_ret. split_and!; [done..|].
  intros _. split; [done|]. by exists cfg.
Qed.

(** Planning followed by the patch is handling. *)
Lemma wp_apply req (plan : resolvedOperation → M TaskPlan) (intent signal : string) s :
  methodIntent (req_Method req) = Some intent →
  (intent = pendingIntentStart → signal = signalStartDatadogAgentExperiment) →
  (∀ op : resolvedOperation, wp (plan op) (plan_post s req (ro_Config op) (ro_nsn op) intent) s) →
  wp (op ← resolveOperation req signal; p ← plan op; applyOperation retries (ro_nsn op) signal p) (handled s req) s.
Proof.
  intros Hi Hsig Hplan. apply wp_bind. eapply wp_mono; [apply wp_resolve|].
  intros s1 [rop|e|] [-> Hr]; [|apply handled_refused, reads_refl|done]. destruct Hr as [Hn Hv].
  apply wp_bind. eapply wp_mono; [apply Hplan|]. rewrite Hn.
  intros s2 [[[op|] patch]|e|] Hp; simpl in Hp; [| |by apply handled_refused|done].
  - destruct Hp as (Hs2 & Hop & d & Hd & Hpl & Hg). unfold applyOperation. simpl.
    apply wp_bind, wp_wrap. eapply wp_mono; [apply wp_MergePatch|].
    intros s3 [[]|e|] Hs3; simpl; [|apply handled_refused; by eapply reads_trans|done].
    destruct Hs3 as (w & d0 & d' & -> & Hd0 & Hpd & Hw), Hs2 as (w2 & -> & Hw2). simpl in *.
    rewrite Hw2 in *. assert (d0 = d) as -> by congruence.
    change (set_ds_world w _) with (set_ds_world w s).
    apply (handled_dispatched _ _ op patch (ro_Config rop) d d' w); try done; by rewrite Hop; auto.
  - destruct patch; [done|]. destruct Hp as (d & v & s3 & Hd & Hset & Hrec & Hs2). apply wp_ret.
    by eapply handled_settled.
Qed.

(** Every request is refused, settled or dispatched. *)
Lemma wp_request revisionsEnabled req s :
  wp (handleRemoteAPIRequest revisionsEnabled identity decodeConfig spec_Global fleetDatadogAgentSpecHash
        retries conflictRetries req) (handled s req) s.
Proof.
  unfold handleRemoteAPIRequest, verifyExpectedState. apply wp_bind. unfold getPackageConfigVersions.
  apply wp_gets_then. case_match; [apply wp_fail, handled_refused, reads_refl|]. apply wp_ret.
  assert (Hoff : wp (fail revisionsRequired) (handled s req) s) by apply wp_fail, handled_refused, reads_refl.
  unfold dispatchRemoteAPIRequest. pose proof (eq_refl (methodIntent (req_Method req))) as Hm.
  unfold methodIntent at 2 in Hm.
  case_bool_decide; [destruct revisionsEnabled; simpl; [|done]|].
  { apply (wp_apply req _ pendingIntentStart); [done|done|]. intros. apply wp_planStart. }
  case_bool_decide; [destruct revisionsEnabled; simpl; [|done]|].
  { apply (wp_apply req _ pendingIntentStop); [done|done|]. intros. apply wp_planStop. }
  case_bool_decide; [destruct revisionsEnabled; simpl; [|done]|apply wp_fail, handled_refused, reads_refl].
  apply (wp_apply req _ pendingIntentPromote); [done|done|]. intros. apply wp_planPromote.
Qed.

(** ** The worker *)

Context (intentsEnabled : bool).

(** The pending annotations of [d] are gone and nothing else of it changed. *)
Definition cleared (d d' : DatadogAgent Spec) : Prop :=
  (∀ k, dda_Annotations d' !! k = if bool_decide (k ∈ pendingKeys) then None else dda_Annotations d !! k) ∧
  dda_Labels d' = dda_Labels d ∧ dda_Spec d' = dda_Spec d ∧ dda_Experiment d' = dda_Experiment d.

(** Nothing was written, or the annotations of [task] were cleared where it was
    still the pending one. *)
Definition at_most_cleared (task : pendingOperation) (s s' : DaemonState W) : Prop :=
  ∃ w, s' = set_ds_world w s ∧
    (fleet_view w = V s ∨
     ∃ d d', V s !! po_nsn task = Some d ∧
       pendingOperationFromAnnotations (po_nsn task) (dda_Annotations d) = Some task ∧
       cleared d d' ∧ fleet_view w = <[po_nsn task := d']> (V s)).

Lemma reads_at_most_cleared task s s' : reads_only s s' → at_most_cleared task s s'.
Proof. intros (w & -> & Hw). exists w. auto. Qed.

Lemma patched_cleared (d d' : DatadogAgent Spec) : patched_by clearPendingPatch d d' → cleared d d'.
Proof.
  intros (Hl & Ha & Hs & He & _). split; [by apply clearPendingPatch_annotations|].
  split_and!; [|by apply Hs|done].
  unfold patch_metadata, clearPendingPatch in Hl. rewrite lookup_singleton_eq, lookup_singleton_ne in Hl by done.
  congruence.
Qed.

Lemma wp_clear task s :
  wp (clearPendingAnnotationsIfCurrent retries task) (λ s' o, at_most_cleared task s s' ∧ o ≠ Panic) s.
Proof.
  unfold clearPendingAnnotationsIfCurrent. apply wp_bind. eapply wp_mono; [apply wp_Get|].
  intros s1 [d|e|] [Hs1 Hd]; [|by split; [apply reads_at_most_cleared|]|done].
  destruct (pendingOperationFromAnnotations _ _) as [op|] eqn:Eop;
    [|by apply wp_ret; split; [apply reads_at_most_cleared|]].
  destruct (po_matches op task) eqn:Em; simpl; [|by apply wp_ret; split; [apply reads_at_most_cleared|]].
  apply po_matches_eq in Em as ->. eapply wp_mono; [apply wp_MergePatch|].
  intros s2 [[]|e|] Hs2; [|split; [by eapply reads_at_most_cleared, reads_trans|done]|done].
  split; [|done]. destruct Hs1 as (w1 & -> & Hw1), Hs2 as (w2 & d0 & d' & -> & Hd0 & Hpd & Hw2). simpl in *.
  rewrite Hw1 in *. assert (d0 = d) as -> by congruence. exists w2. split; [done|]. right.
  exists d, d'. split_and!; [done..|by apply patched_cleared|done].
Qed.

(** The installer state of a task that ended with [err]. *)
Definition published (task : pendingOperation) (err : option error) (l : list PackageState) : list PackageState :=
  let pkg := po_packageName task in
  match err with
  | Some e => rcTaskState pkg (po_taskID task) TaskState_ERROR (Some e) l
  | None =>
      rcTaskState pkg (po_taskID task) TaskState_DONE None
        (if bool_decide (po_intent task = pendingIntentStart)
         then rcConfigVersions pkg (rcVersions pkg l).1 (po_experimentID task) l
         else if bool_decide (po_intent task = pendingIntentStop)
         then rcConfigVersions pkg (rcVersions pkg l).1 "" l
         else rcConfigVersions pkg (po_resultVersion task) "" l)
  end.

(** The record of a promoted configuration, then the clearing. *)
Definition finished (task : pendingOperation) (s s' : DaemonState W) : Prop :=
  ∃ s1, at_most_recorded (po_nsn task) s s1 ∧ at_most_cleared task s1 s'.

Lemma wp_persist_any task (err : option error) s :
  wp (if bool_decide (err = None) && bool_decide (po_intent task = pendingIntentPromote) then
        r ← attempt (persistManagedAgentInstallationStableConfig identity fleetDatadogAgentSpecHash conflictRetries
                       (po_nsn task) (po_experimentID task) (po_resultVersion task));
        mret match r with
             | inl _ => None
             | inr e => Some (Wrapf "persist promoted managed Agent installation config" e)
             end
      else mret err : M (option error))
    (λ s' o, at_most_recorded (po_nsn task) s s' ∧
       ∃ err', o = Ret err' ∧ (err' = err ∨ po_intent task = pendingIntentPromote ∧ is_Some identity ∧ is_Some err')) s.
Proof.
  case_match eqn:E.
  - apply andb_true_iff in E as [He Hi]. apply bool_decide_eq_true in He as ->. apply bool_decide_eq_true in Hi. apply wp_bind, wp_attempt.
    destruct identity eqn:Ei.
    + rewrite <- Ei. eapply wp_mono; [apply wp_persist|]. intros s1 [[]|e|] Hs1; [| |done]; apply wp_ret.
      * split; [done|]. eexists. split; [done|]. by left.
      * split; [by apply reads_at_most_recorded|]. eexists. split; [done|]. right. by rewrite Ei.
    + apply wp_ret. split; [apply reads_at_most_recorded, reads_refl|]. eexists. split; [done|]. by left.
  - apply wp_ret. split; [apply reads_at_most_recorded, reads_refl|]. eauto.
Qed.

Lemma wp_requestRetry s :
  wp (requestManagedAgentInstallationRetryIfWaiting intentsEnabled) (λ s' o, o = Ret tt ∧ ∃ b, s' = set_ds_updates b s) s.
Proof.
  apply wp_gets_then. unfold when. case_match; (split; [done|]); [by exists true|exists (ds_updates s)].
  by destruct s.
Qed.

Lemma wp_finish task err s :
  po_valid task →
  wp (finishPendingOperation identity intentsEnabled fleetDatadogAgentSpecHash retries conflictRetries task err)
    (λ s' o, o = Ret tt ∧ ∃ err' s1 b,
       finished task s s1 ∧ (err' = err ∨ po_intent task = pendingIntentPromote ∧ is_Some identity ∧ is_Some err') ∧
       s' = set_ds_updates b (set_ds_rc (published task err' <$> ds_rc s) s1)) s.
Proof.
  intros Hv. unfold finishPendingOperation. apply wp_bind. eapply wp_mono; [apply wp_persist_any|].
  intros s1 o (Hs1 & err' & -> & Herr). destruct Hs1 as (w1 & -> & Hw1).
  set (s1 := set_ds_world w1 s) in *.
  assert (Hpub : wp (match err' with None => publishResult task | Some _ => mret err' end ≫= λ err,
      setTaskState (po_packageName task) (po_taskID task)
        (match err with Some _ => TaskState_ERROR | None => TaskState_DONE end) err)
      (λ s2 o, o = Ret tt ∧ s2 = set_ds_rc (published task err' <$> ds_rc s) s1) s1).
  { destruct err' as [e|]; [by split|]. destruct Hv as (_ & _ & _ & Hi). unfold wp, publishResult, published.
    destruct Hi as [Hi|[Hi|Hi]]; rewrite Hi; (split; [done|]); unfold s1; by destruct s as [? []]. }
  unfold wp in Hpub. revert Hpub. unfold wp, mbind, GoM_bind.
  destruct ((match err' with None => publishResult task | Some _ => mret err' end) s1) as [s2 [err2|e|]];
    [|by intros [? _]..].
  destruct (setTaskState _ _ _ _ s2) as [s3 o3]. simpl. intros [-> ->].
  pose proof (wp_clear task (set_ds_rc (published task err' <$> ds_rc s) s1)) as Hc. unfold wp, attempt in *.
  destruct (clearPendingAnnotationsIfCurrent retries task _) as [s4 o4]. destruct Hc as [Hc Hnp]. simpl in Hc.
  assert (Hout : ∀ s4, at_most_cleared task (set_ds_rc (published task err' <$> ds_rc s) s1) s4 →
    ∃ w, s4 = set_ds_rc (published task err' <$> ds_rc s) (set_ds_world w s1) ∧
         at_most_cleared task s1 (set_ds_world w s1)).
  { intros s5 (w & -> & Hw). exists w. split; [done|]. by exists w. }
  destruct (Hout s4 Hc) as (w4 & -> & Hw4).
  assert (Hfin : finished task s (set_ds_world w4 s1)) by (exists s1; split; [by exists w1|done]).
  destruct (wp_requestRetry (set_ds_rc (published task err' <$> ds_rc s) (set_ds_world w4 s1))) as (Ho & b & Hb).
  destruct o4 as [[]|e|]; [| |done];
    (split; [exact Ho|]); exists err', (set_ds_world w4 s1), b; split_and!; done.
Qed.
End Plans.
End Runs.
