(* ===== verification/FleetTheorems.v ===== *)
(** * Properties of the fleet daemon.

    What a task leaves on its DatadogAgent and in the installer state when it
    is refused, settled at once or dispatched; what the worker reports and
    clears; and the publication of experiments the reconciler ended by itself. *)

From Stdlib Require Import ZArith Ascii.
From stdpp Require Import base gmap strings list.
From S2P Require Import Prelude GoRun Cluster Experiment FleetData Fleet FleetFacts FleetRuns.

Section Theorems.
Context {W Spec : Type} `{SoundFleetClient W Spec}.
Context {HRepeating : Repeating}.
Context (revisionsEnabled : bool) (identity : option ManagedAgentInstallationIdentity).
Context (intentsEnabled : bool).
Context (decodeConfig : option json → option Spec + error) (spec_Global : Spec → option GlobalCredentials).
Context (specHash : Spec → string + error) (retries conflictRetries : nat).
Implicit Types (s : DaemonState W) (req : remoteAPIRequest) (op : pendingOperation) (nsn : NamespacedName).

Abbreviation V s := (fleet_view (ds_world s)).
Abbreviation task := (handleTask (W := W) revisionsEnabled identity decodeConfig spec_Global specHash
                        retries conflictRetries).
Abbreviation status := (onStatusUpdate (W := W) (Spec := Spec) identity intentsEnabled specHash
                          retries conflictRetries).
Abbreviation pendingOf nsn d := (pendingOperationFromAnnotations nsn (dda_Annotations d)).
Abbreviation target req := (par_NamespacedName (req_Params req)).

(** [handleTask] over what the request does. *)
Lemma task_cases req s :
  (task req s = (s, Fail installationInProgress) ∧ ds_active s || ds_reserved s = true) ∨
  ds_active s || ds_reserved s = false ∧ ∃ s1 o, handled (Spec := Spec) identity s req s1 o ∧
    task req s = match o with
                 | Fail e => (set_ds_rc (rcTaskState (req_Package req) (req_ID req)
                                (if isStateDoesntMatch e then TaskState_INVALID_STATE else TaskState_ERROR)
                                (Some e) <$> ds_rc s1) s1, Fail e)
                 | Ret None => (set_ds_rc (rcTaskState (req_Package req) (req_ID req) TaskState_DONE None <$> ds_rc s1) s1,
                                Ret tt)
                 | Ret (Some _) => (s1, Ret tt)
                 | Panic => (s1, Panic)
                 end.
Proof.
  unfold handleTask. rewrite (GoM_bind_Ret _ _ _ s (ds_active s || ds_reserved s)) by done.
  destruct (ds_active s || ds_reserved s); [by left|right]. split; [done|].
  pose proof (wp_request identity decodeConfig spec_Global specHash retries conflictRetries revisionsEnabled req s) as Hr.
  unfold wp in Hr. unfold mbind, GoM_bind, attempt.
  destruct (handleRemoteAPIRequest _ _ _ _ _ _ _ req s) as [s1 o]. exists s1, o. split; [done|].
  by destruct o as [[op|]|e|].
Qed.

(** The operation a dispatched request waits for can be held by annotations. *)
Lemma planned_valid s req config d nsn op patch :
  planned (W := W) (Spec := Spec) s req config d nsn op patch →
  (po_intent op = pendingIntentStart → par_Version (req_Params req) ≠ "") →
  req_ID req ≠ "" → req_Package req ≠ "" →
  po_valid op ∧ po_nsn op = nsn ∧ po_taskID op = req_ID req ∧ po_packageName op = req_Package req.
Proof.
  intros Hp Hver Hid Hpkg. destruct Hp as [| |id patch Hi Hne|id patch Hi Hv]; unfold po_valid; simpl in *;
    try (split_and!; auto; fail).
  subst id. split_and!; auto. unfold currentExperimentID. by case_bool_decide.
Qed.

(** The signal on the DatadogAgent of a dispatched operation: that of its intent
    for the operation's experiment; a start already signalled is left as it is. *)
Definition signalled (op : pendingOperation) (d d' : DatadogAgent Spec) : Prop :=
  get_key (dda_Annotations d') AnnotationExperimentID = po_experimentID op ∧
  get_key (dda_Annotations d') AnnotationExperimentSignal =
    if bool_decide (po_intent op = pendingIntentStart) &&
       bool_decide (get_key (dda_Annotations d) AnnotationExperimentID = po_experimentID op)
    then get_key (dda_Annotations d) AnnotationExperimentSignal else signalOf (po_intent op).

(** Only a start depends on a configuration. *)
Lemma planned_without_config s req config d nsn op patch :
  planned (W := W) (Spec := Spec) s req config d nsn op patch → po_intent op ≠ pendingIntentStart →
  planned s req None d nsn op patch.
Proof. intros Hp Hi. destruct Hp; [done|done|by apply planned_stop|by apply planned_promote]. Qed.

Lemma planned_signalled s req config d nsn op patch d' :
  planned (W := W) s req config d nsn op patch → config_spec_only config →
  patched_by (pendingPatch op (default ∅ patch)) d d' → signalled op d d'.
Proof.
  intros Hp Hc (_ & Ha & _). unfold signalled.
  destruct Hp as [Hsame|patch Hne _ Hb|id patch Hid Hne _ Hb|id patch Hid Hne _ Hb]; simpl in Ha |- *.
  - destruct (pendingPatch_annotations _ _ _ _ Ha) as [Hk _]. clear Ha. unfold get_key.
    rewrite !Hk by auto with go.
    fold (get_key (dda_Annotations d) AnnotationExperimentID).
    by rewrite Hsame, bool_decide_true.
  - destruct (signalled_annotations _ _ _ _ _ _ _ Hb Hc Ha) as [-> ->]. by rewrite bool_decide_false.
  - by destruct (signalled_annotations _ _ _ _ _ _ _ Hb ltac:(done) Ha) as [-> ->].
  - by destruct (signalled_annotations _ _ _ _ _ _ _ Hb ltac:(done) Ha) as [-> ->].
Qed.

(** Every configuration the daemon holds leaves the metadata alone. *)
Definition configs_spec_only (s : DaemonState W) : Prop :=
  ∀ id cfg o, ds_configs s !! id = Some cfg → o ∈ ic_Operations cfg → config_spec_only (fo_Config o).

(** A task that is refused changes no DatadogAgent and is reported as such: its
    package, and no other, has the task as invalid state exactly when the error is
    a state mismatch and as an error otherwise, with the versions as before.
    While a managed installation is in progress nothing is even reported.
    [handleTask] never panics. *)
Theorem refused_task_is_reported req s :
  match task req s with
  | (s', Fail e) =>
      V s' = V s ∧
      (if ds_active s || ds_reserved s then s' = s
       else ∀ l, ds_rc s = Some l → ∃ l', ds_rc s' = Some l' ∧
         rcPackage (req_Package req) l' = Some (set_ps_Task
           (taskOf (req_ID req) (if isStateDoesntMatch e then TaskState_INVALID_STATE else TaskState_ERROR) (Some e))
           (rcEntry (req_Package req) l)) ∧
         ∀ pkg, pkg ≠ req_Package req → rcPackage pkg l' = rcPackage pkg l)
  | (s', Ret _) => ds_active s || ds_reserved s = false
  | (_, Panic) => False
  end.
Proof.
  destruct (task_cases req s) as [[-> Hbusy]|(Hfree & s1 & o & Hh & ->)]; [rewrite Hbusy; by split|].
  rewrite Hfree. destruct Hh as [s1 e Hr| |]; [|done|done]. split; [exact (reads_view _ _ Hr)|].
  intros l Hl. simpl. rewrite (reads_rc _ _ Hr), Hl. eexists. split; [done|]. split.
  - rewrite rcPackage_task. by rewrite decide_True.
  - intros pkg Hne. rewrite rcPackage_task. by rewrite decide_False.
Qed.

(** The experiment a request is about: the version of a start, else the one
    recorded on the DatadogAgent or reported. *)
Definition requestedID (s : DaemonState W) (req : remoteAPIRequest) (d : DatadogAgent Spec) (intent : string) : string :=
  if bool_decide (intent = pendingIntentStart) then par_Version (req_Params req)
  else currentExperimentID d (versions s (req_Package req)).2.

Lemma planned_ID s req config d nsn op patch :
  planned (W := W) (Spec := Spec) s req config d nsn op patch →
  po_experimentID op = requestedID s req d (po_intent op).
Proof. by destruct 1. Qed.

Lemma accepted_task req s s' :
  task req s = (s', Ret tt) →
  req_ID req ≠ "" → req_Package req ≠ "" → configs_spec_only s →
  ∃ intent d, methodIntent (req_Method req) = Some intent ∧ V s !! target req = Some d ∧
  ((∃ v, settled s req d intent v ∧
      ds_rc s' = rcTaskState (req_Package req) (req_ID req) TaskState_DONE None
                   ∘ rcConfigVersions (req_Package req) v.1 v.2 <$> ds_rc s) ∨
   (∃ op d', ds_rc s' = ds_rc s ∧ V s' = <[target req := d']> (V s) ∧
      pendingOf (target req) d' = Some op ∧ po_intent op = intent ∧
      po_taskID op = req_ID req ∧ po_packageName op = req_Package req ∧
      po_experimentID op = requestedID s req d intent ∧ signalled op d d' ∧ dda_Experiment d' = dda_Experiment d ∧
      (intent ≠ pendingIntentStart → dda_Spec d' = dda_Spec d))).
Proof.
  intros Ht Hid Hpkg Hcfg.
  destruct (task_cases req s) as [[Hf _]|(_ & s1 & o & Hh & Hf)]; [congruence|]. rewrite Hf in Ht. clear Hf.
  destruct Hh as [s1 e _|s1 d v intent s2 Hm Hd Hset (w & -> & _) ->|op patch config d d' w Hm Hst Hd Hpl _ Hpd Hw];
    [done|exists intent, d|exists (po_intent op), d]; (split_and!; [done..|]); [left|right].
  - exists v. split; [done|]. simplify_eq/=. by destruct (ds_rc s).
  - assert (Hver : po_intent op = pendingIntentStart → par_Version (req_Params req) ≠ "")
      by (intros Hi; by destruct (Hst Hi)).
    destruct (planned_valid _ _ _ _ _ _ _ Hpl Hver Hid Hpkg) as (Hv & Hn & Htid & Hp).
    assert (Hspec : config_spec_only config ∨ po_intent op ≠ pendingIntentStart).
    { destruct (decide (po_intent op = pendingIntentStart)) as [Hi|]; [left|by right].
      destruct (Hst Hi) as (_ & cfg & Hc & Ho). apply (Hcfg _ _ (mkFleetOperation OperationUpdate config) Hc).
      rewrite Ho. by left. }
    exists op, d'. simplify_eq/=. pose proof Hpd as (Hl & Ha & Hs & He & Hrest).
    split_and!; try done.
    + by apply (pendingPatch_annotations _ _ _ _ Ha).
    + by eapply planned_ID.
    + destruct Hspec as [Hspec|Hi]; [by eapply planned_signalled|].
      eapply (planned_signalled s req None); [by eapply planned_without_config|done..].
    + intros Hi. apply Hs. rewrite pendingPatch_spec.
      destruct Hpl as [| |? patch ? ? ? Hb|? patch ? ? ? Hb]; [done|done|..]; by eapply signalPatch_no_spec.
Qed.

(** An accepted task is done or recoverable. Either there was nothing left to do,
    and the package has it as done with the versions of its outcome, other
    packages being untouched; or one patch of the target DatadogAgent carries the
    signal for the experiment together with annotations that decode to exactly
    this task, the installer state, the status and (but for a start) the spec
    being as before, so that a restarted daemon goes on with it. *)
Theorem accepted_task_is_tracked req s s' l :
  task req s = (s', Ret tt) → ds_rc s = Some l →
  req_ID req ≠ "" → req_Package req ≠ "" → configs_spec_only s →
  ∃ intent d l', methodIntent (req_Method req) = Some intent ∧ V s !! target req = Some d ∧ ds_rc s' = Some l' ∧
  ((∃ v, settled s req d intent v ∧ rcVersions (req_Package req) l' = v ∧
      ps_Task (rcEntry (req_Package req) l') = Some (taskOf (req_ID req) TaskState_DONE None) ∧
      ∀ pkg, pkg ≠ req_Package req → rcPackage pkg l' = rcPackage pkg l) ∨
   (∃ op d', l' = l ∧ V s' = <[target req := d']> (V s) ∧ pendingOf (target req) d' = Some op ∧
      po_intent op = intent ∧ po_taskID op = req_ID req ∧ po_packageName op = req_Package req ∧
      po_experimentID op = requestedID s req d intent ∧ signalled op d d' ∧ dda_Experiment d' = dda_Experiment d ∧
      (intent ≠ pendingIntentStart → dda_Spec d' = dda_Spec d))).
Proof.
  intros Ht Hl Hid Hpkg Hcfg.
  destruct (accepted_task req s s' Ht Hid Hpkg Hcfg) as (intent & d & Hm & Hd & [(v & Hset & Hv)|(op & d' & Hrc & Hop)]).
  - rewrite Hl in Hv. eexists intent, d, _. split_and!; [done..|]. left. exists v. simpl. split_and!; [done|..].
    + rewrite rcVersions_entry, rcEntry_task, decide_True by done. simpl.
      rewrite rcEntry_configs, decide_True by done. by destruct v.
    + by rewrite rcEntry_task, decide_True.
    + intros pkg Hp. rewrite rcPackage_task, decide_False by done. by rewrite rcPackage_configs, decide_False.
  - exists intent, d, l. rewrite Hrc. split_and!; [done..|]. right. by exists op, d'.
Qed.

(** C18: the task pending on a DatadogAgent is never lost: whatever task arrives and
    whatever calls fail, it is still there afterwards, unless it was a start and
    the task that replaced it is a stop of the same DatadogAgent. *)
Theorem pending_task_is_not_lost req s nsn d op :
  req_ID req ≠ "" → req_Package req ≠ "" →
  V s !! nsn = Some d → pendingOf nsn d = Some op →
  ∃ d' op', V (task req s).1 !! nsn = Some d' ∧ pendingOf nsn d' = Some op' ∧
    (op' = op ∨ po_intent op = pendingIntentStart ∧ po_intent op' = pendingIntentStop ∧
       methodIntent (req_Method req) = Some pendingIntentStop ∧
       po_taskID op' = req_ID req ∧ nsn = target req).
Proof.
  intros Hid Hpkg Hd Hop.
  assert (Hkeep : ∀ m : gmap NamespacedName (DatadogAgent Spec), m !! nsn = Some d →
    ∃ d' op', m !! nsn = Some d' ∧ pendingOf nsn d' = Some op' ∧
      (op' = op ∨ po_intent op = pendingIntentStart ∧ po_intent op' = pendingIntentStop ∧
       methodIntent (req_Method req) = Some pendingIntentStop ∧ po_taskID op' = req_ID req ∧ nsn = target req)).
  { intros m Hm. exists d, op. auto. }
  destruct (task_cases req s) as [[-> _]|(_ & s1 & o & Hh & ->)]; [by apply Hkeep|].
  destruct Hh as [s1 e Hr|s1 d0 v intent s2 Hm Hd0 Hset (w & -> & Hw) ->
                 |op1 patch config d0 d' w Hm Hst Hd0 Hpl Hg Hpd Hw]; simpl.
  - apply Hkeep. by rewrite (reads_view _ _ Hr).
  - destruct Hw as [-> |(_ & d1 & configID & hash & rv & Hd1 & ->)]; [by apply Hkeep|].
    destruct (decide (nsn = target req)) as [->|Hne]; [|apply Hkeep; by rewrite lookup_insert_ne].
    rewrite lookup_insert_eq. assert (d1 = d) as -> by congruence.
    eexists _, op. split; [done|]. split; [|by left]. rewrite <- Hop. apply pending_ext. simpl.
    intros k Hk. rewrite lookup_insert_ne; [done|]. intros <-. by apply hash_not_pending.
  - rewrite Hw. destruct (decide (nsn = target req)) as [->|Hne]; [|apply Hkeep; by rewrite lookup_insert_ne].
    assert (d0 = d) as -> by congruence. rewrite lookup_insert_eq.
    assert (Hver : po_intent op1 = pendingIntentStart → par_Version (req_Params req) ≠ "")
      by (intros Hi; by destruct (Hst Hi)).
    destruct (planned_valid _ _ _ _ _ _ _ Hpl Hver Hid Hpkg) as (Hv & Hn & Htid & Hp).
    destruct Hpd as (_ & Ha & _). exists d', op1. split; [done|].
    split; [by apply (pendingPatch_annotations _ _ _ _ Ha)|].
    unfold guardPendingOperationSlot in Hg. rewrite Hop in Hg.
    destruct (po_matches op op1) eqn:Em; [left; by apply po_matches_eq in Em|].
    destruct (_ && _) eqn:Es; [|done]. apply andb_true_iff in Es as [E1 E2].
    apply bool_decide_eq_true in E1, E2. right. rewrite E2 in Hm. auto.
Qed.
End Theorems.

(** ** The status worker *)

(** ** Packages are keyed by their names *)

Definition keyed_packages (l : list PackageState) : Prop := NoDup (ps_Package <$> l).

Lemma updatePackage_unique f l1 p l2 :
  keyed_packages (l1 ++ p :: l2) → updatePackage (ps_Package p) f (l1 ++ p :: l2) = l1 ++ f p :: l2.
Proof.
  unfold keyed_packages. rewrite fmap_app, fmap_cons, NoDup_app, NoDup_cons. intros (_ & Hd & Hp & _).
  assert (Hmap : ∀ l : list PackageState, ps_Package p ∉ ps_Package <$> l →
    ((λ q, if bool_decide (ps_Package q = ps_Package p) then f q else q) <$> l) = l).
  { intros l Hl. rewrite <- (list_fmap_id l) at 2. apply list_fmap_ext. intros i q Hq.
    rewrite bool_decide_false; [done|]. intros E. apply Hl. rewrite <- E.
    by apply list_elem_of_fmap_2, (list_elem_of_lookup_2 _ i). }
  unfold updatePackage.
  assert (existsb (λ q, bool_decide (ps_Package q = ps_Package p)) (l1 ++ p :: l2) = true) as ->.
  { rewrite existsb_app. simpl. rewrite bool_decide_true by done. by rewrite orb_true_r. }
  rewrite fmap_app, fmap_cons, bool_decide_true, !Hmap; try done.
  intros Hin. apply (Hd _ Hin). by left.
Qed.

Lemma updatePackage_keyed pkg f l :
  (∀ p, ps_Package (f p) = ps_Package p) → keyed_packages l → keyed_packages (updatePackage pkg f l).
Proof.
  intros Hf Hk. unfold keyed_packages, updatePackage in *.
  assert (Hn : ps_Package <$> ((λ p, if bool_decide (ps_Package p = pkg) then f p else p) <$> l) = ps_Package <$> l).
  { rewrite <- list_fmap_compose. apply list_fmap_ext. intros i p _. simpl. by case_bool_decide. }
  destruct (existsb _ l) eqn:E; [by rewrite Hn|]. rewrite fmap_app, Hn. simpl. rewrite Hf. simpl.
  apply NoDup_app. split_and!; [done| |apply NoDup_singleton]. intros x Hx ->%list_elem_of_singleton.
  apply list_elem_of_fmap in Hx as (p & -> & Hp). rewrite <- not_true_iff_false in E. apply E.
  apply existsb_exists. exists p. split; [by apply list_elem_of_In|by apply bool_decide_eq_true].
Qed.

(** ** Experiments ended by the reconciler *)

(** What is published of a package whose experiment [e] ended with [msg]. *)
Definition localEntry (e : ExperimentStatus) (msg : string) (p : PackageState) : PackageState :=
  if bool_decide (ps_ExperimentConfigVersion p = exp_ID e) then
    set_ps_Configs (ps_StableConfigVersion p) ""
      (if bool_decide (exp_StartTaskID e = "") then p
       else set_ps_Task (taskOf (exp_StartTaskID e) TaskState_ERROR (Some (Errorf msg))) p)
  else p.

Lemma localEntry_Package e msg p : ps_Package (localEntry e msg p) = ps_Package p.
Proof. unfold localEntry. repeat case_bool_decide; done. Qed.

Section Local.
Context {W : Type}.
Implicit Types s : DaemonState W.

(** The effect of one iteration, and of the loop, on the installer state. *)
Definition localStep (e : ExperimentStatus) (msg : string) (l : list PackageState) (p : PackageState) :
    list PackageState :=
  if bool_decide (ps_ExperimentConfigVersion p = exp_ID e) then
    rcConfigVersions (ps_Package p) (ps_StableConfigVersion p) ""
      (if bool_decide (exp_StartTaskID e = "") then l
       else rcTaskState (ps_Package p) (exp_StartTaskID e) TaskState_ERROR (Some (Errorf msg)) l)
  else l.

Lemma set_ds_rc_id s : set_ds_rc (ds_rc s) s = s.
Proof. by destruct s. Qed.

Lemma local_loop e msg packages s l :
  ds_rc s = Some l →
  for_each (publishLocalTermination e msg) packages s
  = (set_ds_rc (Some (foldl (localStep e msg) l packages)) s, Ret tt).
Proof.
  revert s l. induction packages as [|p packages IH]; intros s l Hl; simpl.
  { by rewrite <- Hl, set_ds_rc_id. }
  assert (Hp : publishLocalTermination e msg p s = (set_ds_rc (Some (localStep e msg l p)) s, Ret tt)).
  { unfold publishLocalTermination, localStep. case_bool_decide; simpl; [|by rewrite <- Hl, set_ds_rc_id].
    unfold mbind, GoM_bind, when. by case_bool_decide; simpl; unfold setPackageConfigVersions, modify; simpl; rewrite Hl. }
  rewrite (GoM_bind_Ret _ _ _ _ _ Hp). by rewrite (IH _ (localStep e msg l p)).
Qed.

Lemma local_run snapshot s :
  ∃ rc, reconcileLocallyTerminatedExperiment snapshot s = (set_ds_rc rc s, Ret tt) ∧
        (localTerminationReason (sn_experiment snapshot) = "" → rc = ds_rc s).
Proof.
  unfold reconcileLocallyTerminatedExperiment. rewrite (GoM_bind_Ret _ _ _ s (ds_rc s)) by done.
  destruct (ds_rc s) as [l|] eqn:El; [|by exists None; rewrite <- El, set_ds_rc_id].
  destruct (sn_experiment snapshot) as [e|]; [|by exists (Some l); rewrite <- El, set_ds_rc_id].
  case_bool_decide; [by exists (Some l); rewrite <- El, set_ds_rc_id|].
  rewrite (local_loop _ _ _ _ l) by done. by eexists.
Qed.

(** With packages keyed by name, the loop rewrites each entry in place. *)
Lemma local_fold e msg done_ todo :
  keyed_packages ((localEntry e msg <$> done_) ++ todo) →
  foldl (localStep e msg) ((localEntry e msg <$> done_) ++ todo) todo = localEntry e msg <$> (done_ ++ todo).
Proof.
  revert done_. induction todo as [|p todo IH]; intros done_ Hk; simpl; [by rewrite !app_nil_r|].
  assert (Hp : localStep e msg ((localEntry e msg <$> done_) ++ p :: todo) p
               = (localEntry e msg <$> (done_ ++ [p])) ++ todo).
  { rewrite fmap_app, <- app_assoc. simpl.
    set (l := localEntry e msg <$> done_) in *. unfold localStep, localEntry.
    case_bool_decide; [|done]. unfold rcConfigVersions, rcTaskState. case_bool_decide.
    - by rewrite updatePackage_unique.
    - rewrite updatePackage_unique by done.
      change (ps_Package p) with (ps_Package (set_ps_Task (taskOf (exp_StartTaskID e) TaskState_ERROR (Some (Errorf msg))) p)).
      rewrite updatePackage_unique; [done|]. revert Hk. unfold keyed_packages. by rewrite !fmap_app. }
  rewrite Hp, IH; [by rewrite <- app_assoc|].
  revert Hk. unfold keyed_packages. rewrite !fmap_app, <- app_assoc. simpl.
  by rewrite <- (localEntry_Package e msg p).
Qed.

Lemma local_exact snapshot s l e :
  ds_rc s = Some l → keyed_packages l → sn_experiment snapshot = Some e → localTerminationReason (Some e) ≠ "" →
  reconcileLocallyTerminatedExperiment snapshot s
  = (set_ds_rc (Some (localEntry e (localTerminationReason (Some e)) <$> l)) s, Ret tt).
Proof.
  intros Hl Hk He Hr. unfold reconcileLocallyTerminatedExperiment.
  rewrite (GoM_bind_Ret _ _ _ s (ds_rc s)) by done. rewrite Hl, He, bool_decide_false by done.
  rewrite (local_loop _ _ _ _ l) by done. by rewrite (local_fold e _ [] l).
Qed.
End Local.

Lemma rcPackage_local e msg pkg l : rcPackage pkg (localEntry e msg <$> l) = localEntry e msg <$> rcPackage pkg l.
Proof.
  induction l as [|p l IH]; [done|]. rewrite fmap_cons, !rcPackage_cons, localEntry_Package, IH. by case_decide.
Qed.

Lemma localEntry_Stable e msg p : ps_StableConfigVersion (localEntry e msg p) = ps_StableConfigVersion p.
Proof. unfold localEntry. repeat case_bool_decide; done. Qed.

(** An experiment is published once. *)
Lemma localEntry_idemp e msg p : exp_ID e ≠ "" → localEntry e msg (localEntry e msg p) = localEntry e msg p.
Proof.
  intros He. unfold localEntry at 1. rewrite bool_decide_false; [done|]. unfold localEntry.
  by case_bool_decide.
Qed.

Section Worker.
Context {W Spec : Type} `{SoundFleetClient W Spec}.
Context {HRepeating : Repeating}.
Context (identity : option ManagedAgentInstallationIdentity) (intentsEnabled : bool).
Context (specHash : Spec → string + error) (retries conflictRetries : nat).
Implicit Types (s : DaemonState W) (snapshot : ddaStatusSnapshot) (op : pendingOperation).

Abbreviation V s := (fleet_view (ds_world s)).
Abbreviation status := (onStatusUpdate (W := W) (Spec := Spec) identity intentsEnabled specHash
                          retries conflictRetries).
Abbreviation pendingOf nsn d := (pendingOperationFromAnnotations nsn (dda_Annotations d)).
Abbreviation snapshotTask snapshot := (pendingOperationFromAnnotations (sn_nsn snapshot) (sn_annotations snapshot)).

(** The run of the worker after the experiments ended by the reconciler. *)
Lemma status_run snapshot s :
  ds_active s = false →
  ∃ rc, reconcileLocallyTerminatedExperiment snapshot s = (set_ds_rc rc s, Ret tt) ∧
    (localTerminationReason (sn_experiment snapshot) = "" → rc = ds_rc s) ∧
    status snapshot s =
      match snapshotTask snapshot with
      | None => (set_ds_rc rc s, Ret tt)
      | Some op =>
          match evaluatePendingTask snapshot op with
          | None => (set_ds_rc (rcTaskState (po_packageName op) (po_taskID op) TaskState_RUNNING None <$> rc) s, Ret tt)
          | Some err => finishPendingOperation identity intentsEnabled specHash retries conflictRetries op err (set_ds_rc rc s)
          end
      end.
Proof.
  intros Ha. destruct (local_run snapshot s) as (rc & Hl & Hrc). exists rc. split_and!; [done..|].
  unfold onStatusUpdate. rewrite (GoM_bind_Ret _ _ _ s false) by (by rewrite <- Ha).
  rewrite (GoM_bind_Ret _ _ _ _ _ Hl). destruct (snapshotTask snapshot) as [op|]; [|done].
  by destruct (evaluatePendingTask snapshot op).
Qed.

Lemma cleared_no_task nsn (d d' : DatadogAgent Spec) : cleared d d' → pendingOf nsn d' = None.
Proof.
  intros [Ha _]. destruct (pendingOf nsn d') as [op|] eqn:E; [|done].
  apply pending_decoded in E as [-> (Ht & _)]. simpl in Ht. unfold get_key in Ht.
  rewrite Ha, bool_decide_true in Ht by (unfold pendingKeys; left). done.
Qed.

(** What the worker may do to a stored DatadogAgent [d]. *)
Definition worker_touch (snapshot : ddaStatusSnapshot) (nsn : NamespacedName) (d d' : DatadogAgent Spec) : Prop :=
  dda_Spec d' = dda_Spec d ∧ dda_Experiment d' = dda_Experiment d ∧
  (∀ k, k ∉ pendingKeys → k ≠ fleetConfigHashAnnotation → dda_Annotations d' !! k = dda_Annotations d !! k) ∧
  (pendingOf nsn d' = pendingOf nsn d ∨
   ∃ op err, pendingOf nsn d = Some op ∧ snapshotTask snapshot = Some op ∧
     evaluatePendingTask snapshot op = Some err ∧ pendingOf nsn d' = None).

Lemma worker_touch_refl snapshot nsn d : worker_touch snapshot nsn d d.
Proof. split_and!; auto. Qed.

Lemma finished_touch snapshot op err s s' nsn d :
  snapshotTask snapshot = Some op → evaluatePendingTask snapshot op = Some err →
  finished (Spec := Spec) identity op s s' → V s !! nsn = Some d →
  ∃ d', V s' !! nsn = Some d' ∧ worker_touch snapshot nsn d d'.
Proof.
  intros Hop Hev (s1 & (w1 & -> & Hw1) & (w2 & -> & Hw2)) Hd. simpl in *.
  assert (H1 : ∃ d1, fleet_view w1 !! nsn = Some d1 ∧ dda_Spec d1 = dda_Spec d ∧ dda_Experiment d1 = dda_Experiment d ∧
    (∀ k, k ≠ fleetConfigHashAnnotation → dda_Annotations d1 !! k = dda_Annotations d !! k)).
  { destruct Hw1 as [-> |(_ & d0 & c & h & rv & Hd0 & ->)]; [by exists d|].
    destruct (decide (nsn = po_nsn op)) as [->|Hne]; [|rewrite lookup_insert_ne by done; by exists d].
    rewrite lookup_insert_eq. assert (d0 = d) as -> by congruence. eexists. split; [done|]. simpl.
    split_and!; [done..|]. intros k Hk. by rewrite lookup_insert_ne. }
  destruct H1 as (d1 & Hd1 & Hs1 & He1 & Ha1).
  assert (Hp1 : pendingOf nsn d1 = pendingOf nsn d).
  { apply pending_ext. intros k Hk. apply Ha1. intros ->. by apply hash_not_pending. }
  destruct Hw2 as [Hw2|(d0 & d' & Hd0 & Hp0 & Hc & Hw2)].
  { exists d1. rewrite Hw2. split; [done|]. split_and!; auto. }
  rewrite Hw2. destruct (decide (nsn = po_nsn op)) as [->|Hne].
  2: { rewrite lookup_insert_ne by done. exists d1. split; [done|]. split_and!; auto. }
  rewrite lookup_insert_eq. assert (d0 = d1) as -> by congruence. exists d'. split; [done|].
  pose proof (cleared_no_task (po_nsn op) _ _ Hc) as Hnone. destruct Hc as (Ha & _ & Hs & He).
  split_and!; [congruence..| |].
  - intros k Hk Hh. rewrite Ha, bool_decide_false by done. auto.
  - right. exists op, err. split_and!; [congruence|done..].
Qed.

(** The status worker never fails, and whatever snapshot it is given, a stale one
    included, it leaves the spec, the status and the other annotations of every
    DatadogAgent alone; it clears a pending task only where that task is still
    the one pending, is the one of the snapshot and is over. *)
Theorem worker_clears_only_its_task snapshot s :
  (status snapshot s).2 = Ret tt ∧
  ∀ nsn d, V s !! nsn = Some d →
    ∃ d', V (status snapshot s).1 !! nsn = Some d' ∧ worker_touch snapshot nsn d d'.
Proof.
  pose proof worker_touch_refl as Hrefl. destruct (ds_active s) eqn:Ea.
  { assert (status snapshot s = (s, Ret tt)) as ->; [|by eauto].
    unfold onStatusUpdate. by rewrite (GoM_bind_Ret _ _ _ s true) by (by rewrite <- Ea). }
  destruct (status_run snapshot s Ea) as (rc & _ & _ & ->).
  destruct (snapshotTask snapshot) as [op|] eqn:Eop; [|by split; [done|]; eauto].
  destruct (evaluatePendingTask snapshot op) as [err|] eqn:Ee; [|by split; [done|]; eauto].
  apply pending_decoded in Eop as Hv.
  destruct (wp_finish identity specHash retries conflictRetries intentsEnabled op err (set_ds_rc rc s))
    as (Ho & err' & s1 & b & Hfin & _ & Hs'); [by apply Hv|].
  split; [done|]. intros nsn d Hd. rewrite Hs'. simpl. by eapply finished_touch.
Qed.

(** The versions a finished task leaves, from the stable one before. *)
Definition resultVersions (op : pendingOperation) (stable : string) : string * string :=
  if bool_decide (po_intent op = pendingIntentStart) then (stable, po_experimentID op)
  else if bool_decide (po_intent op = pendingIntentStop) then (stable, "")
  else (po_resultVersion op, "").

Lemma published_entry op err l :
  rcEntry (po_packageName op) (published op err l) =
  set_ps_Task (taskOf (po_taskID op) (match err with Some _ => TaskState_ERROR | None => TaskState_DONE end) err)
    (match err with
     | Some _ => rcEntry (po_packageName op) l
     | None => let v := resultVersions op (rcVersions (po_packageName op) l).1 in
               set_ps_Configs v.1 v.2 (rcEntry (po_packageName op) l)
     end).
Proof.
  unfold published, resultVersions. destruct err; rewrite rcEntry_task, decide_True by done; [done|].
  repeat case_bool_decide; by rewrite rcEntry_configs, decide_True.
Qed.

Lemma published_other op err l pkg :
  pkg ≠ po_packageName op → rcPackage pkg (published op err l) = rcPackage pkg l.
Proof.
  intros Hne. unfold published. destruct err; rewrite rcPackage_task, decide_False by done; [done|].
  repeat case_bool_decide; by rewrite rcPackage_configs, decide_False.
Qed.

Lemma finished_task snapshot s l op err :
  ds_active s = false → ds_rc s = Some l → keyed_packages l →
  snapshotTask snapshot = Some op → evaluatePendingTask snapshot op = Some err →
  ∃ l' err', ds_rc (status snapshot s).1 = Some l' ∧
    (err' = err ∨ po_intent op = pendingIntentPromote ∧ is_Some identity ∧ is_Some err') ∧
    let p := rcEntry (po_packageName op) l' in
    ps_Task p = Some (taskOf (po_taskID op)
                        (match err' with Some _ => TaskState_ERROR | None => TaskState_DONE end) err') ∧
    (err' = None → (ps_StableConfigVersion p, ps_ExperimentConfigVersion p)
                   = resultVersions op (rcVersions (po_packageName op) l).1) ∧
    (localTerminationReason (sn_experiment snapshot) = "" →
     ∀ pkg, pkg ≠ po_packageName op → rcPackage pkg l' = rcPackage pkg l).
Proof.
  intros Ha Hl Hk Hop Hev. destruct (status_run snapshot s Ha) as (rc & Hloc & Hrc & ->). rewrite Hop, Hev.
  apply pending_decoded in Hop as Hv.
  destruct (wp_finish identity specHash retries conflictRetries intentsEnabled op err (set_ds_rc rc s))
    as (Ho & err' & s1 & b & Hfin & Herr & Hs'); [by apply Hv|].
  assert (Hl1 : ∃ l1, rc = Some l1 ∧ (rcVersions (po_packageName op) l1).1 = (rcVersions (po_packageName op) l).1 ∧
    (localTerminationReason (sn_experiment snapshot) = "" → l1 = l)).
  { destruct (decide (localTerminationReason (sn_experiment snapshot) = "")) as [Hr|Hr].
    { exists l. rewrite Hrc by done. done. }
    destruct (sn_experiment snapshot) as [e|] eqn:Ee; [|done].
    rewrite (local_exact snapshot s l e) in Hloc by done. eexists. split; [by injection Hloc as <-|].
    split; [|done]. unfold rcVersions. rewrite rcPackage_local.
    destruct (rcPackage _ l); simpl; [|done]. by rewrite localEntry_Stable. }
  destruct Hl1 as (l1 & -> & Hst & Heq).
  exists (published op err' l1), err'. rewrite Hs'. cbv zeta. split_and!; [done|done|..].
  - by rewrite published_entry.
  - intros ->. rewrite published_entry. simpl. rewrite Hst. by destruct (resultVersions _ _).
  - intros Hr pkg Hne. rewrite (published_other _ _ _ _ Hne). by rewrite (Heq Hr).
Qed.

(** A task that is over is reported: its package has it as done, or as an error
    with the message, and a task without error leaves the versions of its intent
    (the experiment's, none, or the promoted one as stable); other packages are
    untouched unless the reconciler ended the experiment by itself. *)
Theorem finished_task_is_reported snapshot s l op err :
  ds_active s = false → ds_rc s = Some l → keyed_packages l →
  snapshotTask snapshot = Some op → evaluatePendingTask snapshot op = Some err →
  (po_intent op = pendingIntentPromote → identity = None) →
  ∃ l', ds_rc (status snapshot s).1 = Some l' ∧
    ps_Task (rcEntry (po_packageName op) l') = Some (taskOf (po_taskID op)
       (match err with Some _ => TaskState_ERROR | None => TaskState_DONE end) err) ∧
    (err = None → rcVersions (po_packageName op) l' = resultVersions op (rcVersions (po_packageName op) l).1) ∧
    (localTerminationReason (sn_experiment snapshot) = "" →
     ∀ pkg, pkg ≠ po_packageName op → rcPackage pkg l' = rcPackage pkg l).
Proof.
  intros Ha Hl Hk Hop Hev Hid.
  destruct (finished_task snapshot s l op err Ha Hl Hk Hop Hev) as (l' & err' & Hl' & Herr & Ht & Hv & Hother).
  assert (err' = err) as -> by (destruct Herr as [|(Hp & Hs & _)]; [done|]; rewrite (Hid Hp) in Hs; by destruct Hs).
  exists l'. split_and!; [done..| |done]. intros He. rewrite rcVersions_entry. auto.
Qed.

(** An experiment the reconciler ended by itself, by timeout or abort, is published
    once: every package that reported it loses its experiment version and has
    the task that started it as an error, other packages are untouched, and seeing
    the same status again changes nothing. *)
Theorem local_termination_is_published snapshot s l e :
  ds_active s = false → ds_rc s = Some l → keyed_packages l →
  sn_experiment snapshot = Some e → localTerminationReason (Some e) ≠ "" → exp_ID e ≠ "" →
  snapshotTask snapshot = None →
  let s' := set_ds_rc (Some (localEntry e (localTerminationReason (Some e)) <$> l)) s in
  status snapshot s = (s', Ret tt) ∧ status snapshot s' = (s', Ret tt).
Proof.
  intros Ha Hl Hk He Hr Hid Hno. cbv zeta. set (msg := localTerminationReason (Some e)).
  assert (Hone : ∀ s l, ds_active s = false → ds_rc s = Some l → keyed_packages l →
    status snapshot s = (set_ds_rc (Some (localEntry e msg <$> l)) s, Ret tt)).
  { clear s l Ha Hl Hk. intros s l Ha Hl Hk. destruct (status_run snapshot s Ha) as (rc & Hloc & _ & ->).
    rewrite Hno. rewrite (local_exact snapshot s l e) in Hloc by done. f_equal. by apply (f_equal fst) in Hloc. }
  split; [by apply Hone|]. rewrite (Hone _ (localEntry e msg <$> l)).
  - f_equal. unfold set_ds_rc. simpl. f_equal. f_equal. rewrite <- list_fmap_compose. apply list_fmap_ext.
    intros i p _. by apply localEntry_idemp.
  - done.
  - done.
  - revert Hk. unfold keyed_packages. rewrite <- list_fmap_compose. intros Hk.
    erewrite list_fmap_ext; [exact Hk|]. intros i p _. apply localEntry_Package.
Qed.
End Worker.
