(* ===== verification/FleetLifecycle.v ===== *)
(** * The life of a fleet task, from the daemon to the reconciler and back.

    The daemon writes a signal on the DatadogAgent, the reconciler acts on it
    and records the experiment, the worker reports the task: composed, the
    three complete a start and a stop. *)

From Stdlib Require Import ZArith Ascii.
From stdpp Require Import base gmap strings list.
From S2P Require Import Prelude GoRun Cluster Revision Experiment RevisionFacts ExperimentProofs.
From S2P Require Import FleetData Fleet FleetFacts FleetRuns FleetTheorems.

(** ** The reconciler on a signal that changes the phase *)

Section Reconciler.
Context {W Spec : Type} `{SoundClient W Spec} `{SnapshotCodec Spec}.
Context (ExperimentTimeout : Duration).
Implicit Types instance : DatadogAgent Spec.
Abbreviation M := (GoM (ReconcileState W)).

(** The later stages leave an experiment the signal moved to another phase. *)
Lemma triple_manage_moved instance now (P : ExperimentStatus → Prop) (R : Prop) :
  triple (λ e, e = dda_Experiment instance) (processExperimentSignal instance now : M string)
    (λ e o, match o with
            | Ret _ => ∃ e1, e = Some e1 ∧ P e1 ∧ exp_Phase e1 ≠ phase_of (dda_Experiment instance)
            | _ => R
            end) →
  triple (λ e, e = dda_Experiment instance) (manageExperiment ExperimentTimeout instance now : M unit)
    (λ e o, match o with Ret _ => ∃ e1, e = Some e1 ∧ P e1 | _ => R end).
Proof.
  intros Hsig. unfold manageExperiment. apply triple_get. intros old ->.
  eapply triple_bind; [apply Hsig|done|]. intros pend. cbv beta.
  destruct (dda_Experiment instance) as [e0|] eqn:He0.
  2: { apply triple_get. intros e (e1 & -> & HP & _). rewrite (bool_decide_false (_ = None)) by done.
       rewrite andb_false_r. apply triple_ret. intros ? ->. eauto. }
  apply triple_cases. intros e (e1 & -> & HP & Hne). simpl in Hne.
  eapply (triple_bind _ (λ e o, e = Some e1 ∧ o = Ret tt)); [|by intros ? ? [_ ?]|intros []].
  { unfold handleRollback. rewrite He0. apply triple_get. intros ? ->.
    rewrite bool_decide_false by done. apply triple_ret. by intros ? ->. }
  apply (triple_pre _ (λ e, e = Some e1)); [naive_solver|].
  apply triple_best_effort_then.
  { eauto with exp. }
  { destruct (bool_decide _); [apply returns_markHighest|by intros s]. }
  eapply (triple_bind _ (λ e o, e = Some e1 ∧ o = Ret tt)); [|by intros ? ? [_ ?]|intros []].
  { unfold abortExperiment. case_bool_decide as Hr; simpl; [|apply triple_ret; by intros ? ->].
    apply triple_get. intros ? ->. rewrite bool_decide_false by congruence. apply triple_ret. by intros ? ->. }
  apply (triple_pre _ (λ e, e = Some e1)); [naive_solver|].
  apply triple_get. intros ? ->. simpl. rewrite (bool_decide_false (exp_Phase e1 = _)) by done.
  rewrite andb_false_r. apply triple_ret. intros ? ->. eauto.
Qed.

(** A start signal for another experiment than the one recorded. *)
Lemma triple_manage_start instance now :
  get_key (dda_Annotations instance) AnnotationExperimentSignal = ExperimentSignalStart →
  let id := get_key (dda_Annotations instance) AnnotationExperimentID in
  id ≠ "" → id ≠ id_of (dda_Experiment instance) → phase_of (dda_Experiment instance) ≠ ExperimentPhaseRunning →
  triple (λ e, e = dda_Experiment instance) (manageExperiment ExperimentTimeout instance now : M unit)
    (λ e o, o = Ret tt ∧ e = Some (mkExperimentStatus ExperimentPhaseRunning id (Some now)
                                     (get_key (dda_Annotations instance) AnnotationPendingTaskID) "")).
Proof.
  intros Hsig id Hid Hne Hrun. set (e1 := mkExperimentStatus _ _ _ _ _).
  eapply triple_conseq; [apply (triple_manage_moved instance now (λ e, e = e1) False)|].
  - unfold processExperimentSignal. rewrite Hsig. fold id. rewrite (bool_decide_false (id = "")) by done. simpl.
    eapply (triple_bind _ (λ e o, e = Some e1 ∧ o = Ret true)); [|by intros ? ? [_ ?]|].
    + unfold processStartSignal. rewrite !bool_decide_false by done. by intros s _.
    + intros b. apply triple_ret. intros e [-> _]. by exists e1.
  - intros e [[]|er|] He; [|done..]. by destruct He as (? & -> & ->).
Qed.

(** A rollback signal on a running experiment ends it, or fails. *)
Lemma triple_manage_rollback instance now e0 :
  get_key (dda_Annotations instance) AnnotationExperimentSignal = ExperimentSignalRollback →
  get_key (dda_Annotations instance) AnnotationExperimentID ≠ "" →
  dda_Experiment instance = Some e0 → exp_Phase e0 = ExperimentPhaseRunning →
  triple (λ e, e = dda_Experiment instance) (manageExperiment ExperimentTimeout instance now : M unit)
    (λ e o, match o with
            | Ret _ => ∃ e1, e = Some e1 ∧ exp_ID e1 = exp_ID e0 ∧ isTerminalPhase (exp_Phase e1) = true
            | _ => True
            end).
Proof.
  intros Hsig Hid He0 Hrun. apply triple_manage_moved.
  unfold processExperimentSignal. rewrite Hsig, He0. rewrite (bool_decide_false (_ = "")) by done. simpl.
  rewrite (bool_decide_false (get_key _ _ = "")) by done. simpl. rewrite Hrun.
  apply (triple_bind _ (λ e o, match o with
    | Ret _ => ∃ e1, e = Some e1 ∧ (exp_ID e1 = exp_ID e0 ∧ isTerminalPhase (exp_Phase e1) = true) ∧
                     exp_Phase e1 ≠ ExperimentPhaseRunning
    | _ => True end)); [|done|intros b; by apply triple_ret].
  unfold processRollbackSignal. simpl. apply triple_revs. intros l. destruct (specManuallyChanged l instance).
  - eapply triple_bind; [apply triple_abortNow|done|intros []]. apply triple_ret.
    intros ? [-> _]. by eexists.
  - eapply triple_bind; [apply triple_restore|done|intros []]. apply triple_ret.
    intros ? ->. by eexists.
Qed.
End Reconciler.

(** ** Lives of tasks *)

Section Lifecycle.
Context {W Spec : Type} `{SoundFleetClient W Spec}.
Context {HRepeating : Repeating}.
Context {R : Type} `{SoundClient R Spec} `{SnapshotCodec Spec} (ExperimentTimeout : Duration).
Context (revisionsEnabled : bool) (identity : option ManagedAgentInstallationIdentity) (intentsEnabled : bool).
Context (decodeConfig : option json → option Spec + error) (spec_Global : Spec → option GlobalCredentials).
Context (specHash : Spec → string + error) (retries conflictRetries : nat).
Implicit Types (s : DaemonState W) (req : remoteAPIRequest).

Abbreviation V s := (fleet_view (ds_world s)).
Abbreviation task := (handleTask (W := W) revisionsEnabled identity decodeConfig spec_Global specHash
                        retries conflictRetries).
Abbreviation status := (onStatusUpdate (W := W) (Spec := Spec) identity intentsEnabled specHash
                          retries conflictRetries).
Abbreviation reconcile := (manageExperiment (W := R) ExperimentTimeout).
Abbreviation target req := (par_NamespacedName (req_Params req)).

(** The worker, told that [d] now has the experiment [e], reports the task
    done and the experiment version [version]. *)
Definition completes (req : remoteAPIRequest) (d : DatadogAgent Spec) (e : ExperimentStatus) (version : string) : Prop :=
  ∀ s l, ds_active s = false → ds_rc s = Some l → keyed_packages l →
    ∃ l', ds_rc (status (mkStatusSnapshot (target req) (dda_Annotations d) (Some e)) s).1 = Some l' ∧
      ps_Task (rcEntry (req_Package req) l') = Some (taskOf (req_ID req) TaskState_DONE None) ∧
      rcVersions (req_Package req) l' = ((rcVersions (req_Package req) l).1, version).

Lemma completes_intro req d e op version :
  pendingOperationFromAnnotations (target req) (dda_Annotations d) = Some op →
  po_intent op ≠ pendingIntentPromote →
  po_taskID op = req_ID req → po_packageName op = req_Package req →
  evaluatePendingTask (mkStatusSnapshot (target req) (dda_Annotations d) (Some e)) op = Some None →
  (∀ stable, resultVersions op stable = (stable, version)) →
  completes req d e version.
Proof.
  intros Hop Hi Ht Hp Hev Hres s l Ha Hl Hk.
  destruct (finished_task identity intentsEnabled specHash retries conflictRetries
              (mkStatusSnapshot (target req) (dda_Annotations d) (Some e)) s l op None Ha Hl Hk Hop Hev)
    as (l' & err' & Hl' & Herr & Htask & Hv & _).
  assert (err' = None) as -> by (destruct Herr as [|[]]; done). exists l'. rewrite Hp, Ht in *.
  split_and!; [done..|]. rewrite rcVersions_entry, (Hv eq_refl). apply Hres.
Qed.

(** C5: an accepted start completes, when no experiment is running and the requested
    version is neither the ID of the experiment in the status nor the one in the
    annotations.  The reconciler, run on the DatadogAgent the daemon patched, returns
    with the requested version running and this task recorded as its start, and the
    worker, told so, reports the task done and the version as the package's
    experiment.  (The task and the package have names, and the configurations the
    daemon knows set the spec alone.  A start of the version that the status already
    names is accepted as well, and then ignored: [restart_is_ignored].) *)
Theorem start_task_completes req s s' d now rs :
  let version := par_Version (req_Params req) in
  task req s = (s', Ret tt) →
  req_Method req = methodStartDatadogAgentExperiment →
  req_ID req ≠ "" → req_Package req ≠ "" → version ≠ "" → configs_spec_only s →
  V s !! target req = Some d →
  phase_of (dda_Experiment d) ≠ ExperimentPhaseRunning → id_of (dda_Experiment d) ≠ version →
  get_key (dda_Annotations d) AnnotationExperimentID ≠ version →
  st_newExp rs = dda_Experiment d →
  ∃ d' e, V s' !! target req = Some d' ∧
    (reconcile d' now rs).2 = Ret tt ∧ st_newExp (reconcile d' now rs).1 = Some e ∧
    exp_Phase e = ExperimentPhaseRunning ∧ exp_ID e = version ∧ exp_StartTaskID e = req_ID req ∧
    completes req d' e version.
Proof.
  intros version Ht Hm Hid Hpkg Hver Hcfg Hd Hphase Hne Hann Hrs.
  destruct (accepted_task _ _ _ _ _ _ _ req s s' Ht Hid Hpkg Hcfg) as (intent & d0 & Hmi & Hd0 & Hcase).
  assert (d0 = d) as -> by congruence.
  assert (intent = pendingIntentStart) as ->.
  { unfold methodIntent in Hmi. rewrite Hm in Hmi. by injection Hmi as <-. }
  destruct Hcase as [(v & Hset & _)|(op & d' & _ & Hw & Hop & Hi & Htid & Hp & Heid & (Hsid & Hsig) & He & _)].
  { exfalso. apply Hphase. inversion Hset as [Hhas| |]. unfold experimentHasPhase in Hhas.
    destruct (dda_Experiment d) as [e|]; [|done]. apply andb_true_iff in Hhas as [_ Hhas].
    by apply bool_decide_eq_true in Hhas. }
  change (requestedID _ _ _ _) with version in Heid. rewrite Hi, Heid in *.
  rewrite (bool_decide_false (_ = version)), andb_false_r in Hsig by done.
  apply pending_decoded in Hop as Hdec.
  assert (Htask : get_key (dda_Annotations d') AnnotationPendingTaskID = req_ID req)
    by (rewrite <- Htid; by destruct Hdec as [-> _]).
  pose proof (triple_manage_start (W := R) ExperimentTimeout d' now Hsig) as Hman. cbv zeta in Hman.
  rewrite Hsid, He, Htask in Hman. destruct (Hman Hver ltac:(done) Hphase rs Hrs) as [_ [Ho Hnew]].
  exists d'. eexists. rewrite Hw, lookup_insert_eq. split_and!; [done..|].
  eapply completes_intro; [done|by rewrite Hi|done..| |].
  - unfold evaluatePendingTask. simpl. rewrite Hi, Heid.
    rewrite (bool_decide_true (target req = _)) by (by destruct Hdec as [-> _]).
    by rewrite bool_decide_true.
  - intros stable. unfold resultVersions. by rewrite Hi, Heid.
Qed.

(** A start signal for the experiment that the status names changes nothing in it. *)
Lemma restart_is_ignored (instance : DatadogAgent Spec) now :
  get_key (dda_Annotations instance) AnnotationExperimentSignal = ExperimentSignalStart →
  get_key (dda_Annotations instance) AnnotationExperimentID = id_of (dda_Experiment instance) →
  triple (λ e, e = dda_Experiment instance) (processExperimentSignal instance now : GoM (ReconcileState R) string)
    (λ e _, e = dda_Experiment instance).
Proof.
  intros Hsig Hid s Hs. unfold processExperimentSignal. rewrite Hsig, Hid.
  destruct (bool_decide (id_of _ = "")); [done|]. cbn. unfold processStartSignal, mbind, GoM_bind.
  by rewrite (bool_decide_true (id_of (dda_Experiment instance) = id_of (dda_Experiment instance))) by done.
Qed.

(** C6: an accepted stop of a running experiment completes. The reconciler, run on the
    DatadogAgent the daemon patched, ends that same experiment whenever it
    returns, in whatever terminal phase, and the worker, told so, reports the task
    done and no experiment, the stable version being kept. *)
Theorem stop_task_completes req s s' d e now rs :
  task req s = (s', Ret tt) →
  req_Method req = methodStopDatadogAgentExperiment →
  req_ID req ≠ "" → req_Package req ≠ "" → configs_spec_only s →
  V s !! target req = Some d →
  dda_Experiment d = Some e → exp_Phase e = ExperimentPhaseRunning → exp_ID e ≠ "" →
  st_newExp rs = Some e →
  ∃ d', V s' !! target req = Some d' ∧
    match reconcile d' now rs with
    | (rs', Ret _) => ∃ e', st_newExp rs' = Some e' ∧ exp_ID e' = exp_ID e ∧
        isTerminalPhase (exp_Phase e') = true ∧ completes req d' e' ""
    | (_, Fail _) => True
    | (_, Panic) => False
    end.
Proof.
  intros Ht Hm Hid Hpkg Hcfg Hd Hexp Hrun Hne Hrs.
  destruct (accepted_task _ _ _ _ _ _ _ req s s' Ht Hid Hpkg Hcfg) as (intent & d0 & Hmi & Hd0 & Hcase).
  assert (d0 = d) as -> by congruence.
  assert (intent = pendingIntentStop) as ->.
  { unfold methodIntent in Hmi. rewrite Hm in Hmi. by injection Hmi as <-. }
  destruct Hcase as [(v & Hset & _)|(op & d' & _ & Hw & Hop & Hi & Htid & Hp & Heid & (Hsid & Hsig) & He & _)].
  { exfalso. inversion Hset as [|Hph|]. apply Hph. by rewrite Hexp. }
  assert (Hcur : po_experimentID op = exp_ID e).
  { rewrite Heid. unfold requestedID, currentExperimentID. simpl. rewrite Hexp.
    by rewrite !(bool_decide_false (exp_ID e = "")). }
  rewrite Hcur in *. rewrite Hi in Hsig. apply pending_decoded in Hop as Hdec.
  exists d'. rewrite Hw, lookup_insert_eq. split; [done|].
  destruct (triple_manage_rollback (W := R) ExperimentTimeout d' now e Hsig) with (s := rs) as [Hnp Hman];
    [by rewrite Hsid|by rewrite He|done|by rewrite He, Hexp|].
  destruct (reconcile d' now rs) as [rs' [u|er|]]; [|done|done]. simpl in Hman.
  destruct Hman as (e' & Hnew & Hid' & Hterm). exists e'. split_and!; [done..|].
  eapply completes_intro; [done|by rewrite Hi|done..| |].
  - unfold evaluatePendingTask. simpl. rewrite Hi, Hcur, Hid', Hterm.
    rewrite (bool_decide_true (target req = _)) by (by destruct Hdec as [-> _]).
    by rewrite bool_decide_true.
  - intros stable. unfold resultVersions. by rewrite Hi.
Qed.
End Lifecycle.
