(* ===== verification/FleetWitnesses.v ===== *)
(** * The fleet daemon on concrete DatadogAgents.

    A sound client in memory, and the properties of the daemon applied to a
    task on it. *)

From Stdlib Require Import ZArith Ascii.
From stdpp Require Import base gmap strings list fin_maps.
From S2P Require Import Prelude GoRun Cluster Revision Experiment RevisionFacts Testbed ExperimentProofs.
From S2P Require Import FleetData Fleet FleetFacts FleetRuns FleetTheorems FleetLifecycle.

(** Retries and polls one run after the other. *)
#[local] Existing Instance inSequence.

(** ** A client in memory *)

Abbreviation FleetWorld := (gmap (string * string) (DatadogAgent string)).

Definition mem_view (w : FleetWorld) : gmap NamespacedName (DatadogAgent string) :=
  filter (λ kd : NamespacedName * DatadogAgent string, dda_key kd.2 = kd.1) w.

Lemma mem_view_insert w k d : dda_key d = k → mem_view (<[k := d]> w) = <[k := d]> (mem_view w).
Proof. intros Hk. unfold mem_view. by apply map_filter_insert_True. Qed.

Definition mem_fleet_get (nsn : NamespacedName) : GoM FleetWorld (DatadogAgent string) := λ w,
  (w, from_option Ret (Fail (ApiError ReasonNotFound)) (mem_view w !! nsn)).

Definition mem_fleet_list : GoM FleetWorld (list (DatadogAgent string)) := λ w,
  (w, Ret (map_to_list (mem_view w)).*2).

Definition mem_patched (patch : gmap string json) (d : DatadogAgent string) : option (DatadogAgent string) :=
  labels ← patch_metadata "labels" patch (dda_Labels d);
  annotations ← patch_metadata "annotations" patch (dda_Annotations d);
  Some (mkDatadogAgent (dda_Namespace d) (dda_Name d) (dda_UID d) (dda_ResourceVersion d +:+ "'") labels annotations
          (match patch !! "spec" with Some (JStr spec) => spec | _ => dda_Spec d end) (dda_Experiment d)).

Definition mem_fleet_patch (nsn : NamespacedName) (patch : gmap string json) : GoM FleetWorld unit := λ w,
  match mem_view w !! nsn with
  | None => (w, Fail (ApiError ReasonNotFound))
  | Some d => match mem_patched patch d with
              | None => (w, Fail (ApiError ReasonInvalid))
              | Some d' => (<[nsn := d']> w, Ret tt)
              end
  end.

Definition mem_fleet_patch_from (base d : DatadogAgent string) : GoM FleetWorld unit := λ w,
  match mem_view w !! dda_key base with
  | None => (w, Fail (ApiError ReasonNotFound))
  | Some d0 => if decide (dda_ResourceVersion d0 = dda_ResourceVersion base)
               then (<[dda_key base := apply_dda_update (dda_ResourceVersion d0 +:+ "'") d d0]> w, Ret tt)
               else (w, Fail (ApiError ReasonConflict))
  end.

#[export] Instance mem_fleet : FleetClient FleetWorld string := {|
  fleet_Get := mem_fleet_get; fleet_Read := mem_fleet_get; fleet_List := mem_fleet_list;
  fleet_MergePatch := mem_fleet_patch; fleet_PatchFrom := mem_fleet_patch_from |}.

Lemma mem_view_key w k d : mem_view w !! k = Some d → dda_key d = k.
Proof. intros [_ Hk]%map_lookup_filter_Some. done. Qed.

#[export] Program Instance mem_fleet_sound : SoundFleetClient FleetWorld string := {| fleet_view := mem_view |}.
Next Obligation. apply mem_view_key. Qed.
Next Obligation. intros nsn w. simpl. by destruct (mem_view w !! nsn). Qed.
Next Obligation. intros nsn w. simpl. by destruct (mem_view w !! nsn). Qed.
Next Obligation.
  intros w. simpl. split_and!; [done| |].
  - assert (Hk : dda_key <$> (map_to_list (mem_view w)).*2 = (map_to_list (mem_view w)).*1).
    { rewrite <- list_fmap_compose. apply list_fmap_ext. intros i [k d] Hi. simpl.
      apply (mem_view_key w), elem_of_map_to_list. by eapply list_elem_of_lookup_2. }
    rewrite Hk. apply NoDup_fst_map_to_list.
  - intros d. rewrite list_elem_of_fmap. split.
    + intros ([k d'] & -> & Hd%elem_of_map_to_list). simpl. by rewrite (mem_view_key _ _ _ Hd).
    + intros Hd. exists (dda_key d, d). split; [done|]. by apply elem_of_map_to_list.
Qed.
Next Obligation.
  intros nsn patch w. simpl. unfold mem_fleet_patch. destruct (mem_view w !! nsn) as [d|] eqn:Ed; [|done].
  destruct (mem_patched patch d) as [d'|] eqn:Ep; [|done]. unfold mem_patched in Ep.
  apply bind_Some in Ep as (labels & El & Ep). apply bind_Some in Ep as (annotations & Ea & Ep).
  injection Ep as Ep. exists d, d'. subst d'. split; [done|]. split.
  - unfold patched_by. simpl. split_and!; [exact El|exact Ea|intros Hs; by rewrite Hs|done..].
  - apply mem_view_insert. by apply mem_view_key in Ed.
Qed.
Next Obligation.
  intros base d w. simpl. unfold mem_fleet_patch_from. destruct (mem_view w !! dda_key base) as [d0|] eqn:Ed; [|done].
  case_decide; [|done]. eexists d0, _. split_and!; [done..|]. apply mem_view_insert. by apply mem_view_key in Ed.
Qed.

(** ** A daemon *)

Definition fleet_dda (ann : gmap string string) (e : option ExperimentStatus) : DatadogAgent string :=
  test_dda "baseline" ann e.

Definition fleet_daemon (d : DatadogAgent string) (l : list PackageState) : DaemonState FleetWorld :=
  mkDaemon {[ ("ns", "dda") := d ]} (Some l)
    {[ "v2" := mkInstallerConfig "v2" [mkFleetOperation OperationUpdate
                 (Some (JObj {[ "spec" := JStr "candidate" ]}))] ]} false false false false "" None false 0 [] [].

Definition fleet_package (stable experiment : string) : list PackageState :=
  [mkPackageState "datadog-operator" "" "" None stable experiment].

Definition fleet_request (method id version stable experiment : string) : remoteAPIRequest :=
  mkRequest id "datadog-operator" (mkExpected stable experiment) method
    (mkParams version "DatadogAgent" ("ns", "dda")).

Definition fleet_task (req : remoteAPIRequest) : GoM (DaemonState FleetWorld) unit :=
  handleTask (Spec := string) true None (λ _, inl None) (λ _, None) (λ s, inl s) 3 5 req.

Definition fleet_status (sn : ddaStatusSnapshot) : GoM (DaemonState FleetWorld) unit :=
  onStatusUpdate (Spec := string) None false (λ s, inl s) 3 5 sn.

Definition start_request : remoteAPIRequest := fleet_request methodStartDatadogAgentExperiment "t1" "v2" "v1" "".
Definition stop_request : remoteAPIRequest := fleet_request methodStopDatadogAgentExperiment "t2" "" "v1" "v2".

Definition idle_daemon : DaemonState FleetWorld := fleet_daemon (fleet_dda ∅ None) (fleet_package "v1" "").

Definition running_v2 : ExperimentStatus := mkExperimentStatus ExperimentPhaseRunning "v2" (Some 5%Z) "t1" "".
Definition running_daemon : DaemonState FleetWorld :=
  fleet_daemon (fleet_dda ∅ (Some running_v2)) (fleet_package "v1" "v2").

Lemma fleet_configs_spec_only d l : configs_spec_only (fleet_daemon d l).
Proof.
  intros id cfg o Hc Ho m Hm. simpl in Hc. apply lookup_singleton_Some in Hc as [_ <-]. simpl in Ho.
  apply list_elem_of_singleton in Ho as ->. simpl in Hm. injection Hm as <-. by rewrite lookup_singleton_ne.
Qed.

(** ** The properties on a start, a stop and a timeout *)

Definition start_run : DaemonState FleetWorld * outcome unit := fleet_task start_request idle_daemon.

Lemma accepted_task_is_tracked_witness :
  ∃ op d', mem_view (ds_world start_run.1) !! ("ns", "dda") = Some d' ∧
    pendingOperationFromAnnotations ("ns", "dda") (dda_Annotations d') = Some op ∧ po_taskID op = "t1".
Proof.
  destruct (accepted_task_is_tracked true None (λ _, inl None) (λ _, None) (λ s, inl s) 3 5 start_request idle_daemon
              start_run.1 (fleet_package "v1" "")) as (intent & d & l' & Hm & Hd & Hl' & Hcase);
    [vm_compute; reflexivity|reflexivity|done|done|apply fleet_configs_spec_only|].
  destruct Hcase as [(v & _ & _ & Ht & _)|(op & d' & _ & Hw & Hop & _ & Hid & _)].
  - exfalso. revert Hl' Ht. vm_compute. intros [= <-]. done.
  - exists op, d'. split; [|split; [exact Hop|exact Hid]].
    etransitivity; [exact (f_equal (lookup ("ns", "dda")) Hw)|apply lookup_insert_eq].
Defined.

Definition pending_start : gmap string string :=
  <[AnnotationPendingTaskID := "t1"]> (<[AnnotationPendingAction := "start"]>
  (<[AnnotationPendingExperimentID := "v2"]> (<[AnnotationPendingPackage := "datadog-operator"]>
  (test_signal "start" "v2")))).

Definition pending_daemon : DaemonState FleetWorld :=
  fleet_daemon (fleet_dda pending_start None) (fleet_package "v1" "v2").

Lemma pending_task_is_not_lost_witness :
  ∃ d' op', mem_view (ds_world (fleet_task stop_request pending_daemon).1) !! ("ns", "dda") = Some d' ∧
    pendingOperationFromAnnotations ("ns", "dda") (dda_Annotations d') = Some op'.
Proof.
  destruct (pending_task_is_not_lost true None (λ _, inl None) (λ _, None) (λ s, inl s) 3 5 stop_request pending_daemon
              ("ns", "dda") (fleet_dda pending_start None)
              (mkPending "start" "t1" "datadog-operator" ("ns", "dda") "v2" ""))
    as (d' & op' & Hd & Hop & _); [done|done|vm_compute; reflexivity|vm_compute; reflexivity|].
  exists d', op'. split; [exact Hd|exact Hop].
Defined.

Definition running_snapshot : ddaStatusSnapshot :=
  mkStatusSnapshot ("ns", "dda") pending_start (Some running_v2).

Lemma fleet_packages_keyed stable experiment : keyed_packages (fleet_package stable experiment).
Proof. apply NoDup_singleton. Qed.

Lemma finished_task_is_reported_witness :
  ∃ l', ds_rc (fleet_status running_snapshot pending_daemon).1 = Some l' ∧
    rcVersions "datadog-operator" l' = ("v1", "v2").
Proof.
  destruct (finished_task_is_reported None false (λ s, inl s) 3 5 running_snapshot pending_daemon
              (fleet_package "v1" "v2") (mkPending "start" "t1" "datadog-operator" ("ns", "dda") "v2" "") None)
    as (l' & Hl' & _ & Hv & _);
    [reflexivity|reflexivity|apply fleet_packages_keyed|vm_compute; reflexivity|vm_compute; reflexivity|done|].
  exists l'. split; [exact Hl'|exact (Hv eq_refl)].
Defined.

Definition timed_out_v2 : ExperimentStatus :=
  mkExperimentStatus ExperimentPhaseTerminated "v2" (Some 5%Z) "t1" "timed_out".

Lemma local_termination_is_published_witness :
  fleet_status (mkStatusSnapshot ("ns", "dda") ∅ (Some timed_out_v2)) running_daemon
  = (set_ds_rc (Some [mkPackageState "datadog-operator" "" ""
       (Some (mkTask "t1" TaskState_ERROR (Some "experiment v2 timed out"))) "v1" ""]) running_daemon, Ret tt).
Proof.
  destruct (local_termination_is_published None false (λ s, inl s) 3 5
              (mkStatusSnapshot ("ns", "dda") ∅ (Some timed_out_v2)) running_daemon (fleet_package "v1" "v2") timed_out_v2)
    as [Hs _]; [reflexivity|reflexivity|apply fleet_packages_keyed|reflexivity|by vm_compute|done|
                vm_compute; reflexivity|].
  unfold fleet_status. rewrite Hs. vm_compute. reflexivity.
Defined.

Lemma start_task_completes_witness :
  ∃ d' e, mem_view (ds_world start_run.1) !! ("ns", "dda") = Some d' ∧
    st_newExp (manageExperiment (W := Cluster string) 0 d' 5%Z (test_state (fleet_dda ∅ None))).1 = Some e ∧
    exp_ID e = "v2" ∧ exp_StartTaskID e = "t1".
Proof.
  destruct (start_task_completes (R := Cluster string) 0 true None false (λ _, inl None) (λ _, None) (λ s, inl s) 3 5
              start_request idle_daemon start_run.1 (fleet_dda ∅ None) 5%Z (test_state (fleet_dda ∅ None)))
    as (d' & e & Hd & _ & Hn & _ & Hid & Ht & _);
    [vm_compute; reflexivity|reflexivity|done|done|done|apply fleet_configs_spec_only|vm_compute; reflexivity|
     done|done|done|reflexivity|].
  exists d', e. split_and!; [exact Hd|exact Hn|exact Hid|exact Ht].
Defined.

Definition stop_run : DaemonState FleetWorld * outcome unit := fleet_task stop_request running_daemon.

Lemma stop_task_completes_witness :
  ∃ d', mem_view (ds_world stop_run.1) !! ("ns", "dda") = Some d' ∧
    (manageExperiment (W := Cluster string) 0 d' 9%Z (test_state (fleet_dda ∅ (Some running_v2)))).2 ≠ Panic.
Proof.
  destruct (stop_task_completes (R := Cluster string) 0 true None false (λ _, inl None) (λ _, None) (λ s, inl s) 3 5
              stop_request running_daemon stop_run.1 (fleet_dda ∅ (Some running_v2)) running_v2 9%Z
              (test_state (fleet_dda ∅ (Some running_v2)))) as (d' & Hd & Hrun);
    [vm_compute; reflexivity|reflexivity|done|done|apply fleet_configs_spec_only|vm_compute; reflexivity|
     reflexivity|reflexivity|done|reflexivity|].
  exists d'. split; [exact Hd|]. destruct (manageExperiment _ _ _ _) as [? []]; [discriminate..|destruct Hrun].
Defined.
