(* ===== verification/Remote.v ===== *)
(** * Custom resources that mirror a Datadog resource.

    What the DatadogGenericResource, DatadogMonitor, DatadogSLO and
    DatadogDashboard controllers share: the custom resource and its client, the
    result of a reconcile, the conditions of a status
    ([pkg/controller/utils/condition/condition_generic.go]), the events
    ([internal/controller/utils/event.go]), the required tags
    ([internal/controller/utils/tag.go]), the finalizer
    ([internal/controller/finalizer/finalizer.go]) and the translation of an
    error of Datadog's API client. *)

From Stdlib Require Import ZArith.
From stdpp Require Import base gmap strings list pretty.
From S2P Require Import Prelude GoRun Cluster Status.

(** ** Results *)

(** [reconcile.Result]. *)
Record Result := mkResult {
  res_Requeue : bool;
  res_RequeueAfter : Duration;
  res_Priority : option Z
}.

#[export] Instance Result_eq_dec : EqDecision Result.
Proof. solve_decision. Defined.

Definition zeroResult : Result := mkResult false 0 None.
Definition RequeueAfter (d : Duration) : Result := mkResult false d None.
Definition set_RequeueAfter (d : Duration) (r : Result) : Result := mkResult (res_Requeue r) d (res_Priority r).
Definition set_Priority (p : option Z) (r : Result) : Result := mkResult (res_Requeue r) (res_RequeueAfter r) p.
Definition Result_IsZero (r : Result) : bool := bool_decide (r = zeroResult).

Definition ShouldReturn (result : Result) (err : option error) : bool :=
  bool_decide (is_Some err) || negb (Result_IsZero result).

Definition defaultRequeuePeriod : Duration := (60 * Second)%Z.
Definition defaultErrRequeuePeriod : Duration := (5 * Second)%Z.
Definition defaultForceSyncPeriod : Duration := (60 * Minute)%Z.

Definition NotFoundString : string := "404 Not Found".

(** ** Custom resources *)

Record CustomResource (Spec Status : Type) := mkCustomResource {
  co_Namespace : string;
  co_Name : string;
  co_ResourceVersion : string;
  co_DeletionTimestamp : option Time;
  co_Finalizers : list string;
  co_Spec : Spec;
  co_Status : Status
}.
Arguments mkCustomResource {_ _} _ _ _ _ _ _ _.
Arguments co_Namespace {_ _} _. Arguments co_Name {_ _} _. Arguments co_ResourceVersion {_ _} _.
Arguments co_DeletionTimestamp {_ _} _. Arguments co_Finalizers {_ _} _.
Arguments co_Spec {_ _} _. Arguments co_Status {_ _} _.

Section Fields.
Context {Spec Status : Type}.
Implicit Types o : CustomResource Spec Status.

Definition co_key o : string * string := (co_Namespace o, co_Name o).
Definition set_co_Finalizers (l : list string) o :=
  mkCustomResource (co_Namespace o) (co_Name o) (co_ResourceVersion o) (co_DeletionTimestamp o) l (co_Spec o) (co_Status o).
Definition set_co_Spec (sp : Spec) o :=
  mkCustomResource (co_Namespace o) (co_Name o) (co_ResourceVersion o) (co_DeletionTimestamp o) (co_Finalizers o) sp
    (co_Status o).
Definition set_co_Status (st : Status) o :=
  mkCustomResource (co_Namespace o) (co_Name o) (co_ResourceVersion o) (co_DeletionTimestamp o) (co_Finalizers o)
    (co_Spec o) st.
Definition set_co_ResourceVersion (rv : string) o :=
  mkCustomResource (co_Namespace o) (co_Name o) rv (co_DeletionTimestamp o) (co_Finalizers o) (co_Spec o) (co_Status o).

(** [GetDeletionTimestamp().IsZero()]: nil or the zero time. *)
Definition DeletionTimestamp_IsZero o : bool :=
  match co_DeletionTimestamp o with None => true | Some t => Time_IsZero t end.
End Fields.

(** ** The Kubernetes client

    [Update] writes the object and answers with what is stored, the status
    being that of the server (a subresource); [Status().Update] writes the
    status only.  Recording an event does not fail. *)
Class ResourceClient (W Spec Status : Type) := {
  client_Get : string * string → GoM W (CustomResource Spec Status);
  client_Update : CustomResource Spec Status → GoM W (CustomResource Spec Status);
  client_StatusUpdate : CustomResource Spec Status → GoM W (CustomResource Spec Status);
  recorder_Event : string * string → string → string → W → W
}.

(** The finalizers of an object, as [controllerutil] reads and writes them. *)
Class ControllerUtil := {
  ContainsFinalizer : list string → string → bool;
  AddFinalizer : list string → string → list string;
  RemoveFinalizer : list string → string → list string
}.

Class ControllerUtilLaws `{ControllerUtil} := {
  Contains_Add l f g : ContainsFinalizer (AddFinalizer l f) g = bool_decide (g = f) || ContainsFinalizer l g;
  Contains_Remove l f g : ContainsFinalizer (RemoveFinalizer l f) g = negb (bool_decide (g = f)) && ContainsFinalizer l g;
  Contains_nil g : ContainsFinalizer [] g = false
}.

(** ** Conditions

    [meta.SetStatusCondition] and [meta.RemoveStatusCondition], with what the
    documentation says of the condition of each type. *)
Class MetaConditions := {
  SetStatusCondition : list Condition → Condition → list Condition;
  meta_RemoveStatusCondition : list Condition → string → list Condition
}.

Class MetaConditionsLaws `{MetaConditions} := {
  Find_Set l c : ∃ c', GetCondition (SetStatusCondition l c) (cond_Type c) = Some c' ∧ cond_Status c' = cond_Status c ∧
                       cond_Reason c' = cond_Reason c ∧ cond_Message c' = cond_Message c;
  Find_Set_ne l c t : t ≠ cond_Type c → GetCondition (SetStatusCondition l c) t = GetCondition l t;
  Find_Remove l t : GetCondition (meta_RemoveStatusCondition l t) t = None;
  Find_Remove_ne l t t' : t' ≠ t → GetCondition (meta_RemoveStatusCondition l t) t' = GetCondition l t'
}.

Definition DatadogConditionTypeCreated : string := "Created".
Definition DatadogConditionTypeActive : string := "Active".
Definition DatadogConditionTypeUpdated : string := "Updated".
Definition DatadogConditionTypeError : string := "Error".
Definition DatadogConditionTypeStateSynced : string := "StateSynced".

Section Conditions.
Context `{MetaConditions}.

Definition UpdateStatusConditions (conditions : list Condition) (now : Time) (t conditionStatus reason msg : string)
    : list Condition :=
  SetStatusCondition conditions (mkCondition t conditionStatus now reason msg).

Definition UpdateFailureStatusConditions (conditions : list Condition) (now : Time) (conditionType reason : string)
    (err : error) : list Condition :=
  UpdateStatusConditions conditions now conditionType ConditionTrue reason (error_Error err).

Definition RemoveStatusCondition (conditions : list Condition) (conditionType : string) : list Condition :=
  meta_RemoveStatusCondition conditions conditionType.
End Conditions.

(** ** Events *)

Record EventInfo := mkEventInfo {
  objName : string;
  objNamespace : string;
  objKind : string;
  eventType : string
}.

Definition BuildEventInfo (name ns kind eventType : string) : EventInfo := mkEventInfo name ns kind eventType.
Definition EventInfo_GetReason (ei : EventInfo) : string := eventType ei +:+ " " +:+ objKind ei.
Definition EventInfo_GetMessage (ei : EventInfo) : string := objNamespace ei +:+ "/" +:+ objName ei.

Definition CreationEvent : string := "Create".
Definition UpdateEvent : string := "Update".
Definition DeletionEvent : string := "Delete".

Section Recorder.
Context {W Spec Status : Type} `{ResourceClient W Spec Status}.

Definition recordEvent (o : CustomResource Spec Status) (info : EventInfo) : GoM W unit :=
  modify (recorder_Event (co_key o) (EventInfo_GetReason info) (EventInfo_GetMessage info)).
End Recorder.

(** ** Required tags *)

Definition requiredTag : string := "generated:kubernetes".
Definition GetRequiredTags : list string := [requiredTag].

Definition GetTagsToAdd (tags : list string) : list string :=
  foldl (λ tagsToAdd rT, if bool_decide (rT ∈ tags) then tagsToAdd else tagsToAdd ++ [rT]) [] GetRequiredTags.

(** ** Errors of the Datadog API *)

(** [errors.As(err, &errURL)]: the text of the [url.Error] in the chain. *)
Fixpoint errors_AsURL (e : error) : option string :=
  match e with
  | Typed t msg => if bool_decide (t = "*url.Error") then Some msg else None
  | Wrapf _ e | WrapBodyf _ e _ | Surroundf _ e _ => errors_AsURL e
  | Join2f e _ e' => match errors_AsURL e with Some msg => Some msg | None => errors_AsURL e' end
  | ApiError _ | Errorf _ | OpenAPIError _ _ => None
  end.

Definition translateClientError (err : error) (msg : string) : error :=
  let msg := if bool_decide (msg = "") then "an error occurred" else msg in
  match errors_AsOpenAPI err with
  | Some body => WrapBodyf msg err body
  | None => match errors_AsURL err with
            | Some errURL => Errorf (msg +:+ " (url.Error): " +:+ errURL)
            | None => Wrapf msg err
            end
  end.

(** [if err != nil { return ..., translateClientError(err, msg) }] *)
Definition translated {S A : Type} (msg : string) (m : GoM S A) : GoM S A := λ s,
  match m s with
  | (s', Ret a) => (s', Ret a)
  | (s', Fail e) => (s', Fail (translateClientError e msg))
  | (s', Panic) => (s', Panic)
  end.

(** ** The finalizer *)

Section Finalizer.
Context {W Spec Status : Type} `{ResourceClient W Spec Status, ControllerUtil}.

Record Finalizer := mkFinalizer {
  deleteFunc : CustomResource Spec Status → string → GoM W unit;
  fin_defaultRequeuePeriod : Duration;
  fin_defaultErrRequeuePeriod : Duration
}.

Definition NewFinalizer (deleteFunc : CustomResource Spec Status → string → GoM W unit)
    (defaultRequeuePeriod defaultErrRequeuePeriod : Duration) : Finalizer :=
  mkFinalizer deleteFunc defaultRequeuePeriod defaultErrRequeuePeriod.

Definition HandleFinalizer (f : Finalizer) (clientObj : CustomResource Spec Status) (datadogID finalizerName : string)
    : GoM W (Result * option error) :=
  let errResult := mkResult true (fin_defaultErrRequeuePeriod f) None in
  if DeletionTimestamp_IsZero clientObj then
    if negb (ContainsFinalizer (co_Finalizers clientObj) finalizerName) then
      err ← attempt (client_Update (set_co_Finalizers (AddFinalizer (co_Finalizers clientObj) finalizerName) clientObj));
      match err with
      | inr err => mret (errResult, Some err)
      | inl _ => mret (mkResult true 0 None, None)
      end
    else mret (zeroResult, None)
  else if ContainsFinalizer (co_Finalizers clientObj) finalizerName then
    err ← attempt (deleteFunc f clientObj datadogID);
    match err with
    | inr err => mret (errResult, Some err)
    | inl _ =>
        err ← attempt (client_Update
                         (set_co_Finalizers (RemoveFinalizer (co_Finalizers clientObj) finalizerName) clientObj));
        match err with
        | inr err => mret (errResult, Some err)
        | inl _ => mret (RequeueAfter (fin_defaultRequeuePeriod f), None)
        end
    end
  else mret (RequeueAfter (fin_defaultRequeuePeriod f), None).
End Finalizer.
Arguments Finalizer : clear implicits.

(** ** The laws of a client

    [world_view] is what the API server stores and the view [R] of what the
    Datadog API holds.  A call that fails changes neither; an update needs the
    stored resource version, keeps the status and the deletion timestamp of the
    server, and an object that is being deleted goes with its last finalizer. *)

Section Laws.
Context {Spec Status : Type}.
Implicit Types o : CustomResource Spec Status.

Definition apply_update (rv : string) o (old : CustomResource Spec Status) : CustomResource Spec Status :=
  mkCustomResource (co_Namespace o) (co_Name o) rv (co_DeletionTimestamp old) (co_Finalizers o) (co_Spec o)
    (co_Status old).

Definition apply_status (rv : string) o (old : CustomResource Spec Status) : CustomResource Spec Status :=
  set_co_ResourceVersion rv (set_co_Status (co_Status o) old).

Definition store_updated o (m : gmap (string * string) (CustomResource Spec Status)) :=
  if negb (DeletionTimestamp_IsZero o) && bool_decide (co_Finalizers o = []) then delete (co_key o) m
  else <[co_key o := o]> m.
End Laws.

Class RemoteWorld (W Spec Status R : Type) `{ResourceClient W Spec Status} := {
  world_view : W → gmap (string * string) (CustomResource Spec Status) * R;
  world_Get key : lawful world_view (λ v v' o, v' = v ∧ v.1 !! key = Some o ∧ co_key o = key) (client_Get key);
  world_Update o :
    lawful world_view (λ v v' o', ∃ old rv, v.1 !! co_key o = Some old ∧
      co_ResourceVersion old = co_ResourceVersion o ∧ o' = apply_update rv o old ∧
      v' = (store_updated o' v.1, v.2)) (client_Update o);
  world_StatusUpdate o :
    lawful world_view (λ v v' o', ∃ old rv, v.1 !! co_key o = Some old ∧
      co_ResourceVersion old = co_ResourceVersion o ∧ o' = apply_status rv o old ∧
      v' = (<[co_key o := o']> v.1, v.2)) (client_StatusUpdate o);
  world_Event key reason msg w : world_view (recorder_Event key reason msg w) = world_view w
}.

Definition stored {W Spec Status R : Type} `{RemoteWorld W Spec Status R} (w : W) := (world_view w).1.
Definition remote {W Spec Status R : Type} `{RemoteWorld W Spec Status R} (w : W) : R := (world_view w).2.

(** The finalizer is on the stored object. *)
Definition finalizer_stored {W Spec Status R : Type} `{RemoteWorld W Spec Status R, ControllerUtil}
    (w : W) (key : string * string) (name : string) : bool :=
  match stored w !! key with Some o => ContainsFinalizer (co_Finalizers o) name | None => false end.

(** A client none of whose calls fails when it can take effect; a status with a
    stale resource version is refused with a conflict. *)
Class ReliableWorld (W Spec Status R : Type) `{RemoteWorld W Spec Status R} := {
  reliable_Get key (w : W) o : stored w !! key = Some o → co_key o = key → ∃ w', client_Get key w = (w', Ret o);
  reliable_StatusUpdate o (w : W) old :
    stored w !! co_key o = Some old →
    ∃ w' out, client_StatusUpdate o w = (w', out) ∧
      if bool_decide (co_ResourceVersion old = co_ResourceVersion o) then ∃ o', out = Ret o'
      else ∃ e, out = Fail e ∧ IsConflict e = true
}.
