(* ===== verification/GenericResource.v ===== *)
(** * The DatadogGenericResource controller.

    Models [internal/controller/datadoggenericresource/controller.go] and
    [finalizer.go] against the interface of [resource_handler.go]: the
    reconcile that creates, updates, force-syncs and refreshes a Datadog
    resource from its custom resource, its deletion, and the status write that
    survives conflicts.  The status a pointer is passed for is passed and
    returned; an error is returned beside it. *)

From Stdlib Require Import ZArith.
From stdpp Require Import base gmap strings list pretty.
From S2P Require Import Prelude GoRun Cluster Status Remote.

(** ** The custom resource *)

Module SupportedResourcesType.
Definition Dashboard : string := "dashboard".
Definition Downtime : string := "downtime".
Definition Monitor : string := "monitor".
Definition MonitorNotificationRule : string := "monitor_notification_rule".
Definition Notebook : string := "notebook".
Definition SLO : string := "slo".
Definition SyntheticsAPITest : string := "synthetics_api_test".
Definition SyntheticsBrowserTest : string := "synthetics_browser_test".
End SupportedResourcesType.

Record DatadogGenericResourceSpec := mkGRSpec { gr_Type : string; gr_JsonSpec : string }.

#[export] Instance DatadogGenericResourceSpec_eq_dec : EqDecision DatadogGenericResourceSpec.
Proof. solve_decision. Defined.

Record DatadogGenericResourceStatus := mkGRStatus {
  gr_Conditions : list Condition;
  gr_Id : string;
  gr_Creator : string;
  gr_Created : option Time;
  gr_SyncStatus : string;
  gr_CurrentHash : string;
  gr_LastForceSyncTime : option Time;
  gr_State : string;
  gr_StateLastUpdateTime : option Time;
  gr_StateLastTransitionTime : option Time
}.

#[export] Instance DatadogGenericResourceStatus_eq_dec : EqDecision DatadogGenericResourceStatus.
Proof. solve_decision. Defined.

Definition DatadogSyncStatusOK : string := "OK".
Definition DatadogSyncStatusUpdateError : string := "error updating object".
Definition DatadogSyncStatusCreateError : string := "error creating object".
Definition DatadogSyncStatusGetError : string := "error getting object".

Abbreviation DatadogGenericResource := (CustomResource DatadogGenericResourceSpec DatadogGenericResourceStatus).

(** ** The handler of a resource type *)

Record CreateResult := mkCreateResult {
  cre_ID : string;
  cre_CreatedTime : option Time;
  cre_Creator : string
}.

Record ResourceHandler (W : Type) := mkResourceHandler {
  createResource : DatadogGenericResource → GoM W CreateResult;
  getResource : DatadogGenericResource → GoM W unit;
  updateResource : DatadogGenericResource → GoM W unit;
  deleteResource : DatadogGenericResource → GoM W unit;
  refreshState : DatadogGenericResource → GoM W (option string)
}.
Arguments mkResourceHandler {_} _ _ _ _ _.
Arguments createResource {_} _ _. Arguments getResource {_} _ _. Arguments updateResource {_} _ _.
Arguments deleteResource {_} _ _. Arguments refreshState {_} _ _.

(** ** Configuration *)

Definition requeuePeriod (configured : Duration) : Duration :=
  if bool_decide (configured ≤ 0)%Z then defaultRequeuePeriod else configured.

(** [env] is the value of [DD_GENERIC_RESOURCE_FORCE_SYNC_PERIOD], if set. *)
Definition forceSyncPeriodFromEnv (env : option string) : Duration :=
  match env with
  | None => defaultForceSyncPeriod
  | Some userForceSyncPeriod =>
      match Atoi userForceSyncPeriod with
      | inr _ => defaultForceSyncPeriod
      | inl n => if bool_decide (n < 1)%Z then defaultForceSyncPeriod else wrap64 (n * Minute)
      end
  end.

(** ** The status *)

Section Status.
Context `{MetaConditions}.
Implicit Types status : DatadogGenericResourceStatus.

Definition updateErrStatus status (now : Time) (syncStatus reason : string) (err : error)
    : DatadogGenericResourceStatus :=
  mkGRStatus (UpdateFailureStatusConditions (gr_Conditions status) now DatadogConditionTypeError reason err)
    (gr_Id status) (gr_Creator status) (gr_Created status) syncStatus (gr_CurrentHash status)
    (gr_LastForceSyncTime status) (gr_State status) (gr_StateLastUpdateTime status) (gr_StateLastTransitionTime status).

Definition applyResourceState (state : string) status (now : Time) : DatadogGenericResourceStatus :=
  mkGRStatus (gr_Conditions status) (gr_Id status) (gr_Creator status) (gr_Created status) (gr_SyncStatus status)
    (gr_CurrentHash status) (gr_LastForceSyncTime status) state (Some now)
    (if bool_decide (state ≠ gr_State status) then Some now else gr_StateLastTransitionTime status).

Definition set_gr_Conditions (l : list Condition) status : DatadogGenericResourceStatus :=
  mkGRStatus l (gr_Id status) (gr_Creator status) (gr_Created status) (gr_SyncStatus status) (gr_CurrentHash status)
    (gr_LastForceSyncTime status) (gr_State status) (gr_StateLastUpdateTime status) (gr_StateLastTransitionTime status).

Definition set_gr_CurrentHash (h : string) status : DatadogGenericResourceStatus :=
  mkGRStatus (gr_Conditions status) (gr_Id status) (gr_Creator status) (gr_Created status) (gr_SyncStatus status) h
    (gr_LastForceSyncTime status) (gr_State status) (gr_StateLastUpdateTime status) (gr_StateLastTransitionTime status).

(** What a successful update leaves. *)
Definition updatedStatus status (now : Time) : DatadogGenericResourceStatus :=
  let conditions := UpdateStatusConditions (gr_Conditions status) now DatadogConditionTypeUpdated ConditionTrue
                      "UpdatingGenericResource" "DatadogGenericResource Update" in
  mkGRStatus (RemoveStatusCondition conditions DatadogConditionTypeError) (gr_Id status) (gr_Creator status)
    (gr_Created status) DatadogSyncStatusOK (gr_CurrentHash status) (Some now) (gr_State status)
    (gr_StateLastUpdateTime status) (gr_StateLastTransitionTime status).

(** What a successful creation leaves. *)
Definition createdStatus status (now : Time) (hash : string) (result : CreateResult) : DatadogGenericResourceStatus :=
  let createdTime := default now (cre_CreatedTime result) in
  let conditions := UpdateStatusConditions (gr_Conditions status) now DatadogConditionTypeCreated ConditionTrue
                      "CreatingGenericResource" "DatadogGenericResource Created" in
  mkGRStatus (RemoveStatusCondition conditions DatadogConditionTypeError) (cre_ID result) (cre_Creator result)
    (Some createdTime) DatadogSyncStatusOK hash (Some createdTime) (gr_State status)
    (gr_StateLastUpdateTime status) (gr_StateLastTransitionTime status).
End Status.

(** ** The reconciler *)

Definition datadogGenericResourceKind : string := "DatadogGenericResource".
Definition datadogGenericResourceFinalizer : string := "finalizer.datadoghq.com/genericresource".

Section Reconciler.
Context {W : Type} `{ResourceClient W DatadogGenericResourceSpec DatadogGenericResourceStatus}.
Context `{ControllerUtil, MetaConditions}.
Context {HRepeating : Repeating}.
Context (handlers : gmap string (ResourceHandler W)).
Context (r_requeuePeriod r_forceSyncPeriod : Duration).
(** The MD5 of the JSON of a spec, and the low priority of the queue. *)
Context (GenerateMD5ForSpec : DatadogGenericResourceSpec → string + error) (LowPriority : Z).
(** How often [retry.DefaultRetry] retries. *)
Context (conflictRetries : nat).

Implicit Types (instance : DatadogGenericResource) (status : DatadogGenericResourceStatus) (handler : ResourceHandler W).

Definition getHandler (resourceType : string) : GoM W (ResourceHandler W) :=
  match handlers !! resourceType with Some h => mret h | None => panic end.

Definition buildEventInfo (name ns eventType : string) : EventInfo :=
  BuildEventInfo name ns datadogGenericResourceKind eventType.

Definition r_deleteResource handler : DatadogGenericResource → string → GoM W unit := λ k8sObj datadogID,
  let event := buildEventInfo (co_Name k8sObj) (co_Namespace k8sObj) DeletionEvent in
  if bool_decide (datadogID = "") then recordEvent k8sObj event
  else
    _ ← deleteResource handler k8sObj;
    recordEvent k8sObj event.

Definition create handler instance status (now : Time) (hash : string)
    : GoM W (DatadogGenericResourceStatus * option error) :=
  result ← attempt (createResource handler instance);
  match result with
  | inr err => mret (updateErrStatus status now DatadogSyncStatusCreateError "CreatingCustomResource" err, Some err)
  | inl result =>
      _ ← recordEvent instance (buildEventInfo (co_Name instance) (co_Namespace instance) CreationEvent);
      mret (createdStatus status now hash result, None)
  end.

Definition update handler instance status (now : Time) (hash : string)
    : GoM W (DatadogGenericResourceStatus * option error) :=
  let status := set_gr_CurrentHash hash status in
  err ← attempt (updateResource handler instance);
  match err with
  | inr err =>
      if Contains (error_Error err) NotFoundString then create handler instance status now hash
      else mret (updateErrStatus status now DatadogSyncStatusUpdateError "UpdatingGenericResource" err, Some err)
  | inl _ =>
      _ ← recordEvent instance (buildEventInfo (co_Name instance) (co_Namespace instance) UpdateEvent);
      mret (updatedStatus status now, None)
  end.

(** One attempt of the retried status write. *)
Definition retryStatus (key : string * string) (desiredStatus : DatadogGenericResourceStatus) : GoM W unit :=
  latest ← client_Get key;
  if bool_decide (co_Status latest = desiredStatus) then mret tt
  else
    _ ← client_StatusUpdate (set_co_Status desiredStatus latest);
    mret tt.

Definition updateStatusIfNeeded instance status (result : Result) : GoM W (Result * option error) :=
  if bool_decide (co_Status instance = status) then mret (result, None)
  else
    err ← attempt (client_StatusUpdate (set_co_Status status instance));
    err ← match err with
          | inr e => if IsConflict e then attempt (retryOnError IsConflict conflictRetries (retryStatus (co_key instance) status))
                     else mret (inr e)
          | inl _ => mret (inl tt)
          end;
    match err with
    | inl _ => mret (result, None)
    | inr e =>
        if IsConflict e then mret (mkResult true defaultErrRequeuePeriod (res_Priority result), None)
        else mret (mkResult true r_requeuePeriod (res_Priority result), Some e)
    end.

(** [period - now.Sub(last) <= 0], or no last time. *)
Definition due (period : Duration) (now : Time) (last : option Time) : bool :=
  match last with
  | None => true
  | Some last => bool_decide (wrap64 (period - Time_Sub now last) ≤ 0)%Z
  end.

(** What the reconcile decides to do with the remote resource. *)
Inductive Decision_ := ShouldCreate | ShouldUpdate | ShouldRefreshStatus | Nothing.

(** The checks before the resource is written; the force sync asks the API
    whether the resource exists, and its failure is kept in the status. *)
Definition decideAction handler instance status (now : Time) (instanceSpecHash : string)
    : GoM W (Decision_ * DatadogGenericResourceStatus) :=
  let old := co_Status instance in
  if bool_decide (gr_Id old = "") then mret (ShouldCreate, status)
  else if bool_decide (instanceSpecHash ≠ gr_CurrentHash old) then mret (ShouldUpdate, status)
  else if due r_forceSyncPeriod now (gr_LastForceSyncTime old) then
    err ← attempt (getResource handler instance);
    match err with
    | inr err =>
        let status := updateErrStatus status now DatadogSyncStatusGetError "GettingCustomResource" err in
        mret (if Contains (error_Error err) NotFoundString then ShouldCreate else Nothing, status)
    | inl _ => mret (ShouldUpdate, status)
    end
  else if due r_requeuePeriod now (gr_StateLastUpdateTime old) then mret (ShouldRefreshStatus, status)
  else mret (Nothing, status).

Definition refresh handler instance status (now : Time) : GoM W DatadogGenericResourceStatus :=
  state ← attempt (refreshState handler instance);
  mret match state with
       | inr refreshErr =>
           set_gr_Conditions (UpdateStatusConditions (gr_Conditions status) now DatadogConditionTypeStateSynced
                                ConditionFalse "GetError" (error_Error refreshErr)) status
       | inl (Some state) =>
           let status := applyResourceState state status now in
           set_gr_Conditions (UpdateStatusConditions (gr_Conditions status) now DatadogConditionTypeStateSynced
                                ConditionTrue "Synced" "State refreshed from Datadog") status
       | inl None => status
       end.

(** The rest of the reconcile, once the finalizer let it continue. *)
Definition syncResource handler instance (now : Time) (result : Result) : GoM W (Result * option error) :=
  let status := co_Status instance in
  match GenerateMD5ForSpec (co_Spec instance) with
  | inr err =>
      updateStatusIfNeeded instance
        (updateErrStatus status now DatadogSyncStatusUpdateError "GeneratingGenericResourceSpecHash" err) result
  | inl instanceSpecHash =>
      d ← decideAction handler instance status now instanceSpecHash;
      let '(action, status) := d in
      r ← match action with
          | ShouldCreate => r ← create handler instance status now instanceSpecHash;
                            let '(status, err) := r in
                            mret (if bool_decide (is_Some err) then set_RequeueAfter defaultErrRequeuePeriod result else result, status)
          | ShouldUpdate => r ← update handler instance status now instanceSpecHash;
                            let '(status, err) := r in
                            mret (if bool_decide (is_Some err) then set_RequeueAfter defaultErrRequeuePeriod result else result, status)
          | ShouldRefreshStatus => status ← refresh handler instance status now;
                                   mret (set_Priority (Some LowPriority) result, status)
          | Nothing => mret (result, status)
          end;
      let '(result, status) := r in
      let result := if negb (res_Requeue result) && bool_decide (res_RequeueAfter result = 0%Z)
                    then set_RequeueAfter r_requeuePeriod result else result in
      updateStatusIfNeeded instance status result
  end.

(** [credErr] is the error of the credential manager. *)
Definition Reconcile (credErr : option error) (now : Time) instance : GoM W (Result * option error) :=
  match credErr with
  | Some credErr => mret (RequeueAfter defaultErrRequeuePeriod, Some (Wrapf "unable to get credentials" credErr))
  | None =>
      handler ← getHandler (gr_Type (co_Spec instance));
      let final := NewFinalizer (r_deleteResource handler) r_requeuePeriod defaultErrRequeuePeriod in
      r ← HandleFinalizer final instance (gr_Id (co_Status instance)) datadogGenericResourceFinalizer;
      let '(result, err) := r in
      if ShouldReturn result err then mret (result, err) else syncResource handler instance now result
  end.
End Reconciler.
