(* ===== verification/Handlers.v ===== *)
(** * The handlers of the supported resource types.

    Models the eight handlers of [internal/controller/datadoggenericresource]
    ([dashboards.go], [downtimes.go], [monitors.go],
    [monitor_notification_rules.go], [notebooks.go], [slos.go],
    [synthetics.go]) and [utils.go].  The clients of Datadog's API are classes;
    of a response the fields the code reads are kept, a pointer being an
    [option] whose dereference may panic. *)

From Stdlib Require Import ZArith.
From stdpp Require Import base gmap strings list pretty.
From S2P Require Import Prelude GoRun Cluster Status FleetData Remote GenericResource.

(** ** Calls *)

(** [*p] *)
Definition deref {S A : Type} (p : option A) : GoM S A :=
  match p with Some a => mret a | None => panic end.

(** A deletion answers with the status code of the response, if there was one,
    and an error.  A resource that is already gone is deleted. *)
Definition deleteIdempotent {W : Type} (msg : string) (call : GoM W (option Z * option error)) : GoM W unit :=
  r ← call;
  let '(httpResponse, err) := r in
  match err with
  | None => mret tt
  | Some err => if bool_decide (httpResponse = Some 404%Z) then mret tt else fail (translateClientError err msg)
  end.

Definition unmarshal {W A : Type} (msg : string) (r : A + error) : GoM W A := translated msg (of_sum r).

(** ** IDs *)

Definition resourceStringToInt64ID (resourceStringID : string) : Z + error :=
  match ParseInt resourceStringID with
  | inl int64ID => inl int64ID
  | inr err => inr (Wrapf "error parsing resource ID" err)
  end.

Definition resourceInt64ToStringID (resourceInt64ID : Z) : string := FormatInt resourceInt64ID.

(** ** Dashboards *)

Class DashboardsApi (W : Type) := {
  Dashboard : Type;
  json_Dashboard : string → Dashboard + error;
  Dashboard_GetId : Dashboard → string;
  Dashboard_GetCreatedAt : Dashboard → Time;
  Dashboard_GetAuthorHandle : Dashboard → string;
  GetDashboard : string → GoM W Dashboard;
  CreateDashboard : Dashboard → GoM W Dashboard;
  UpdateDashboard : string → Dashboard → GoM W Dashboard;
  DeleteDashboard : string → GoM W (option Z * option error)
}.

Module Dashboards.
Section Handler.
Context {W : Type} `{DashboardsApi W}.
Implicit Types instance : DatadogGenericResource.

Definition getDashboard (dashboardID : string) : GoM W Dashboard :=
  translated "error getting dashboard" (GetDashboard dashboardID).

Definition createDashboard instance : GoM W Dashboard :=
  dashboardCreateData ← unmarshal "error unmarshalling dashboard spec" (json_Dashboard (gr_JsonSpec (co_Spec instance)));
  translated "error creating dashboard" (CreateDashboard dashboardCreateData).

Definition updateDashboard instance : GoM W Dashboard :=
  dashboardUpdateData ← unmarshal "error unmarshalling dashboard spec" (json_Dashboard (gr_JsonSpec (co_Spec instance)));
  translated "error updating dashboard" (UpdateDashboard (gr_Id (co_Status instance)) dashboardUpdateData).

Definition deleteDashboard (dashboardID : string) : GoM W unit :=
  deleteIdempotent "error deleting dashboard" (DeleteDashboard dashboardID).

Definition DashboardHandler : ResourceHandler W := mkResourceHandler
  (λ instance,
    createdDashboard ← createDashboard instance;
    mret (mkCreateResult (Dashboard_GetId createdDashboard) (Some (Dashboard_GetCreatedAt createdDashboard))
            (Dashboard_GetAuthorHandle createdDashboard)))
  (λ instance, _ ← getDashboard (gr_Id (co_Status instance)); mret tt)
  (λ instance, _ ← updateDashboard instance; mret tt)
  (λ instance, deleteDashboard (gr_Id (co_Status instance)))
  (λ _, mret None).
End Handler.
End Dashboards.

(** ** Downtimes *)

(** A nullable field of a response: whether it is set, and its value. *)
Record Nullable (A : Type) := mkNullable { nul_IsSet : bool; nul_Get : option A }.
Arguments mkNullable {_} _ _. Arguments nul_IsSet {_} _. Arguments nul_Get {_} _.

(** [Data.Attributes.Created] and [Data.Relationships.CreatedBy.Data]; of the
    latter the ID. *)
Record DowntimeResponse := mkDowntimeResponse {
  dt_Id : string;
  dt_Attributes : option (option Time);
  dt_Relationships : option (option (Nullable string))
}.

Class DowntimesApi (W : Type) := {
  DowntimeCreateRequest : Type;
  DowntimeUpdateRequestAttributes : Type;
  json_DowntimeCreateRequest : string → DowntimeCreateRequest + error;
  (** The attributes under [data] of the spec, [None] when there are none. *)
  json_DowntimeAttributes : string → option DowntimeUpdateRequestAttributes + error;
  GetDowntime : string → GoM W DowntimeResponse;
  CreateDowntime : DowntimeCreateRequest → GoM W DowntimeResponse;
  UpdateDowntime : string → DowntimeUpdateRequestAttributes → string → GoM W DowntimeResponse;
  CancelDowntime : string → GoM W (option Z * option error)
}.

Module Downtimes.
Section Handler.
Context {W : Type} `{DowntimesApi W}.
Implicit Types instance : DatadogGenericResource.

Definition getDowntime (downtimeID : string) : GoM W DowntimeResponse :=
  if bool_decide (downtimeID = "") then fail (Errorf "cannot get downtime: downtimeID is empty")
  else translated "error getting downtime" (GetDowntime downtimeID).

Definition deleteDowntime (downtimeID : string) : GoM W unit :=
  if bool_decide (downtimeID = "") then fail (Errorf "cannot delete downtime: downtimeID is empty")
  else deleteIdempotent "error deleting downtime" (CancelDowntime downtimeID).

Definition createDowntime instance : GoM W DowntimeResponse :=
  let spec := gr_JsonSpec (co_Spec instance) in
  if bool_decide (spec = "") then fail (Errorf "cannot create downtime: spec.jsonSpec is empty")
  else
    downtimeBody ← unmarshal "error unmarshalling downtime spec" (json_DowntimeCreateRequest spec);
    translated "error creating downtime" (CreateDowntime downtimeBody).

Definition updateDowntime instance : GoM W DowntimeResponse :=
  let spec := gr_JsonSpec (co_Spec instance) in
  let id := gr_Id (co_Status instance) in
  if bool_decide (id = "") then fail (Errorf "cannot update downtime: status.id is empty")
  else if bool_decide (spec = "") then fail (Errorf "cannot update downtime: spec.jsonSpec is empty")
  else
    attributes ← unmarshal "error unmarshalling downtime spec" (json_DowntimeAttributes spec);
    match attributes with
    | None => fail (Errorf "cannot update downtime: spec.jsonSpec.data.attributes is missing")
    | Some attributes => translated "error updating downtime" (UpdateDowntime id attributes id)
    end.

(** [CreatedBy.Data.Get().GetId()] where the path is set. *)
Definition downtimeCreator (created : DowntimeResponse) : string :=
  match dt_Relationships created with
  | Some (Some createdBy) => if nul_IsSet createdBy then default "unknown" (nul_Get createdBy) else "unknown"
  | _ => "unknown"
  end.

Definition DowntimeHandler : ResourceHandler W := mkResourceHandler
  (λ instance,
    createdDowntime ← createDowntime instance;
    mret (mkCreateResult (dt_Id createdDowntime) (mjoin (dt_Attributes createdDowntime)) (downtimeCreator createdDowntime)))
  (λ instance, _ ← getDowntime (gr_Id (co_Status instance)); mret tt)
  (λ instance, _ ← updateDowntime instance; mret tt)
  (λ instance, deleteDowntime (gr_Id (co_Status instance)))
  (λ _, mret None).
End Handler.
End Downtimes.

(** ** Monitors *)

Record MonitorResponse := mkMonitorResponse {
  mon_Id : Z;
  mon_Created : option Time;
  mon_CreatorHandle : option string;
  mon_OverallState : string
}.

Class GenericMonitorsApi (W : Type) := {
  MonitorBody : Type;
  MonitorUpdateBody : Type;
  json_Monitor : string → MonitorBody + error;
  json_MonitorUpdateRequest : string → MonitorUpdateBody + error;
  GetMonitor : Z → GoM W MonitorResponse;
  CreateMonitor : MonitorBody → GoM W MonitorResponse;
  UpdateMonitor : Z → MonitorUpdateBody → GoM W MonitorResponse;
  DeleteMonitor : Z → GoM W (option Z * option error)
}.

Module Monitors.
Section Handler.
Context {W : Type} `{GenericMonitorsApi W}.
Implicit Types instance : DatadogGenericResource.

Definition getMonitor (monitorStringID : string) : GoM W MonitorResponse :=
  monitorID ← of_sum (resourceStringToInt64ID monitorStringID);
  translated "error getting monitor" (GetMonitor monitorID).

Definition deleteMonitor (monitorStringID : string) : GoM W unit :=
  monitorID ← of_sum (resourceStringToInt64ID monitorStringID);
  deleteIdempotent "error deleting monitor" (DeleteMonitor monitorID).

Definition createMonitor instance : GoM W MonitorResponse :=
  monitorBody ← unmarshal "error unmarshalling monitor spec" (json_Monitor (gr_JsonSpec (co_Spec instance)));
  translated "error creating monitor" (CreateMonitor monitorBody).

Definition updateMonitor instance : GoM W MonitorResponse :=
  monitorUpdateData ← unmarshal "error unmarshalling monitor spec"
                        (json_MonitorUpdateRequest (gr_JsonSpec (co_Spec instance)));
  monitorID ← of_sum (resourceStringToInt64ID (gr_Id (co_Status instance)));
  translated "error updating monitor" (UpdateMonitor monitorID monitorUpdateData).

Definition MonitorHandler : ResourceHandler W := mkResourceHandler
  (λ instance,
    createdMonitor ← createMonitor instance;
    createdTime ← deref (mon_Created createdMonitor);
    handle ← deref (mon_CreatorHandle createdMonitor);
    mret (mkCreateResult (resourceInt64ToStringID (mon_Id createdMonitor)) (Some createdTime) handle))
  (λ instance, _ ← getMonitor (gr_Id (co_Status instance)); mret tt)
  (λ instance, _ ← updateMonitor instance; mret tt)
  (λ instance, deleteMonitor (gr_Id (co_Status instance)))
  (λ instance, m ← getMonitor (gr_Id (co_Status instance)); mret (Some (mon_OverallState m))).
End Handler.
End Monitors.

(** ** Monitor notification rules *)

(** [Data], with its [Id], [Attributes.Created] and the ID of
    [Relationships.CreatedBy.Data]. *)
Record RuleData := mkRuleData {
  rd_Id : option string;
  rd_Attributes : option (option Time);
  rd_Relationships : option (option (Nullable (option string)))
}.

Class NotificationRulesApi (W : Type) := {
  RuleCreateRequest : Type;
  RuleAttributes : Type;
  json_RuleCreateRequest : string → RuleCreateRequest + error;
  json_RuleAttributes : string → option RuleAttributes + error;
  GetMonitorNotificationRule : string → GoM W (option RuleData);
  CreateMonitorNotificationRule : RuleCreateRequest → GoM W (option RuleData);
  UpdateMonitorNotificationRule : string → RuleAttributes → string → GoM W (option RuleData);
  DeleteMonitorNotificationRule : string → GoM W (option Z * option error)
}.

Module NotificationRules.
Section Handler.
Context {W : Type} `{NotificationRulesApi W}.
Implicit Types instance : DatadogGenericResource.

Definition getMonitorNotificationRule (ruleID : string) : GoM W (option RuleData) :=
  if bool_decide (ruleID = "") then fail (Errorf "cannot get monitor notification rule: ruleID is empty")
  else translated "error getting monitor notification rule" (GetMonitorNotificationRule ruleID).

Definition deleteMonitorNotificationRule (ruleID : string) : GoM W unit :=
  if bool_decide (ruleID = "") then fail (Errorf "cannot delete monitor notification rule: ruleID is empty")
  else deleteIdempotent "error deleting monitor notification rule" (DeleteMonitorNotificationRule ruleID).

Definition createMonitorNotificationRule instance : GoM W (option RuleData) :=
  let spec := gr_JsonSpec (co_Spec instance) in
  if bool_decide (spec = "") then fail (Errorf "cannot create monitor notification rule: spec.jsonSpec is empty")
  else
    body ← unmarshal "error unmarshalling monitor notification rule spec" (json_RuleCreateRequest spec);
    translated "error creating monitor notification rule" (CreateMonitorNotificationRule body).

Definition updateMonitorNotificationRule instance : GoM W (option RuleData) :=
  let spec := gr_JsonSpec (co_Spec instance) in
  let id := gr_Id (co_Status instance) in
  if bool_decide (id = "") then fail (Errorf "cannot update monitor notification rule: status.id is empty")
  else if bool_decide (spec = "") then fail (Errorf "cannot update monitor notification rule: spec.jsonSpec is empty")
  else
    attributes ← unmarshal "error unmarshalling monitor notification rule spec" (json_RuleAttributes spec);
    match attributes with
    | None => fail (Errorf "cannot update monitor notification rule: spec.jsonSpec.data.attributes is missing")
    | Some attributes =>
        translated "error updating monitor notification rule" (UpdateMonitorNotificationRule id attributes id)
    end.

Definition ruleCreateResult (created : option RuleData) : CreateResult :=
  let createdTime := d ← created; a ← rd_Attributes d; a in
  let creator := d ← created; rel ← rd_Relationships d; createdBy ← rel;
                 if nul_IsSet createdBy then mjoin (nul_Get createdBy) else None in
  let id := d ← created; rd_Id d in
  mkCreateResult (default "" id) createdTime (default "" creator).

Definition MonitorNotificationRuleHandler : ResourceHandler W := mkResourceHandler
  (λ instance, created ← createMonitorNotificationRule instance; mret (ruleCreateResult created))
  (λ instance, _ ← getMonitorNotificationRule (gr_Id (co_Status instance)); mret tt)
  (λ instance, _ ← updateMonitorNotificationRule instance; mret tt)
  (λ instance, deleteMonitorNotificationRule (gr_Id (co_Status instance)))
  (λ _, mret None).
End Handler.
End NotificationRules.

(** ** Notebooks *)

(** [Data], with its [Id], [Attributes.Created] and [Attributes.Author.Handle]. *)
Record NotebookData := mkNotebookData {
  nb_Id : Z;
  nb_Created : option Time;
  nb_Author : option (option string)
}.

Class NotebooksApi (W : Type) := {
  NotebookCreateRequest : Type;
  NotebookUpdateRequest : Type;
  json_NotebookCreateRequest : string → NotebookCreateRequest + error;
  json_NotebookUpdateRequest : string → NotebookUpdateRequest + error;
  GetNotebook : Z → GoM W (option NotebookData);
  CreateNotebook : NotebookCreateRequest → GoM W (option NotebookData);
  UpdateNotebook : Z → NotebookUpdateRequest → GoM W (option NotebookData);
  DeleteNotebook : Z → GoM W (option Z * option error)
}.

Module Notebooks.
Section Handler.
Context {W : Type} `{NotebooksApi W}.
Implicit Types instance : DatadogGenericResource.

Definition getNotebook (notebookStringID : string) : GoM W (option NotebookData) :=
  notebookID ← of_sum (resourceStringToInt64ID notebookStringID);
  translated "error getting notebook" (GetNotebook notebookID).

Definition deleteNotebook (notebookStringID : string) : GoM W unit :=
  notebookID ← of_sum (resourceStringToInt64ID notebookStringID);
  deleteIdempotent "error deleting notebook" (DeleteNotebook notebookID).

Definition createNotebook instance : GoM W (option NotebookData) :=
  notebookCreateData ← unmarshal "error unmarshalling notebook spec"
                         (json_NotebookCreateRequest (gr_JsonSpec (co_Spec instance)));
  translated "error creating notebook" (CreateNotebook notebookCreateData).

Definition updateNotebook instance : GoM W (option NotebookData) :=
  notebookUpdateData ← unmarshal "error unmarshalling notebook spec"
                         (json_NotebookUpdateRequest (gr_JsonSpec (co_Spec instance)));
  notebookID ← of_sum (resourceStringToInt64ID (gr_Id (co_Status instance)));
  translated "error updating notebook" (UpdateNotebook notebookID notebookUpdateData).

(** Without data the getters answer with zero values, whose pointers are nil. *)
Definition NotebookHandler : ResourceHandler W := mkResourceHandler
  (λ instance,
    createdNotebook ← createNotebook instance;
    let data := default (mkNotebookData 0 None None) createdNotebook in
    createdTime ← deref (nb_Created data);
    author ← deref (nb_Author data);
    handle ← deref author;
    mret (mkCreateResult (resourceInt64ToStringID (nb_Id data)) (Some createdTime) handle))
  (λ instance, _ ← getNotebook (gr_Id (co_Status instance)); mret tt)
  (λ instance, _ ← updateNotebook instance; mret tt)
  (λ instance, deleteNotebook (gr_Id (co_Status instance)))
  (λ _, mret None).
End Handler.
End Notebooks.

(** ** SLOs *)

Record SLOData := mkSLOData {
  slo_Id : string;
  slo_CreatedAt : option Z;          (* seconds *)
  slo_CreatorHandle : option string
}.

(** An SLO found by a search: the states of its overall statuses, then the one
    of its status. *)
Record FoundSLO := mkFoundSLO {
  fs_Id : string;
  fs_OverallStatus : list (option string);
  fs_Status : option (option string)
}.

Class GenericSLOsApi (W : Type) := {
  SLORequest : Type;
  SLOUpdate : Type;
  json_SLORequest : string → SLORequest + error;
  json_SLOUpdate : string → SLOUpdate + error;
  (** The [name] of the spec, empty when it has none. *)
  json_SLOName : string → string + error;
  CreateSLO : SLORequest → GoM W (list SLOData);
  GetSLO : string → GoM W unit;
  UpdateSLO : string → SLOUpdate → GoM W unit;
  DeleteSLO : string → string → GoM W (option Z * option error);
  (** The SLOs that match a query, at most a page of them. *)
  SearchSLO : string → Z → GoM W (list FoundSLO);
  (** [metav1.Unix(sec, 0)] *)
  SLO_Unix : Z → Time
}.

Module SLOs.
Definition firstState (l : list (option string)) : option string := head (omap id l).

Definition extractSLOState (response : list FoundSLO) (sloID : string) : string + error :=
  match list_find (λ slo, fs_Id slo = sloID) response with
  | None => inr (Errorf ("error getting SLO state: SLO " +:+ sloID +:+ " not found"))
  | Some (_, slo) =>
      match firstState (fs_OverallStatus slo), mjoin (fs_Status slo) with
      | Some state, _ => inl state
      | None, Some state => inl state
      | None, None => inr (Errorf ("error getting SLO state: SLO " +:+ sloID +:+ " does not include state"))
      end
  end.

Section Handler.
Context {W : Type} `{GenericSLOsApi W}.
Implicit Types instance : DatadogGenericResource.

Definition createSLO instance : GoM W SLOData :=
  sloCreateData ← unmarshal "error unmarshalling SLO spec" (json_SLORequest (gr_JsonSpec (co_Spec instance)));
  data ← translated "error creating SLO" (CreateSLO sloCreateData);
  match data with
  | [] => fail (Errorf "error creating SLO: empty response data")
  | slo :: _ => mret slo
  end.

Definition getSLO (sloID : string) : GoM W unit := translated "error getting SLO" (GetSLO sloID).

Definition updateSLO instance : GoM W unit :=
  sloUpdateData ← unmarshal "error unmarshalling SLO spec" (json_SLOUpdate (gr_JsonSpec (co_Spec instance)));
  translated "error updating SLO" (UpdateSLO (gr_Id (co_Status instance)) sloUpdateData).

Definition deleteSLO (sloID : string) : GoM W unit := deleteIdempotent "error deleting SLO" (DeleteSLO sloID "false").

Definition getSLONameFromSpec instance : string + error :=
  match json_SLOName (gr_JsonSpec (co_Spec instance)) with
  | inr err => inr (translateClientError err "error unmarshalling SLO spec")
  | inl name => if bool_decide (name = "") then inr (Errorf "error getting SLO state: SLO spec does not include name")
                else inl name
  end.

Definition getSLOState (sloID sloName : string) : GoM W (option string) :=
  response ← translated "error searching SLO" (SearchSLO sloName 100);
  state ← of_sum (extractSLOState response sloID);
  mret (Some state).

Definition SLOHandler : ResourceHandler W := mkResourceHandler
  (λ instance,
    createdSLO ← createSLO instance;
    mret (mkCreateResult (slo_Id createdSLO) (SLO_Unix <$> slo_CreatedAt createdSLO)
            (default "" (slo_CreatorHandle createdSLO))))
  (λ instance, getSLO (gr_Id (co_Status instance)))
  (λ instance, updateSLO instance)
  (λ instance, deleteSLO (gr_Id (co_Status instance)))
  (λ instance, sloName ← of_sum (getSLONameFromSpec instance); getSLOState (gr_Id (co_Status instance)) sloName).
End Handler.
End SLOs.

(** ** Synthetic tests *)

Record SyntheticsTest := mkSyntheticsTest {
  syn_PublicId : string;
  syn_AdditionalProperties : gmap string json
}.

Class SyntheticsApi (W : Type) := {
  BrowserTest : Type;
  APITest : Type;
  json_BrowserTest : string → BrowserTest + error;
  json_APITest : string → APITest + error;
  Parse_RFC3339 : string → Time + error;
  GetTest : string → GoM W unit;
  DeleteTests : list string → GoM W (option Z * option error);
  CreateSyntheticsBrowserTest : BrowserTest → GoM W SyntheticsTest;
  UpdateBrowserTest : string → BrowserTest → GoM W SyntheticsTest;
  CreateSyntheticsAPITest : APITest → GoM W SyntheticsTest;
  UpdateAPITest : string → APITest → GoM W SyntheticsTest
}.

Module Synthetics.
Section Handler.
Context {W : Type} `{SyntheticsApi W}.
Implicit Types instance : DatadogGenericResource.

(** The creation time when the property is a string that is a time, the handle
    of the creator when it is there. *)
Definition createResultFromSyntheticsTest (createdTest : SyntheticsTest) : CreateResult :=
  let additionalProperties := syn_AdditionalProperties createdTest in
  let createdTime := match additionalProperties !! "created_at" with
                     | Some (JStr createdTimeString) =>
                         match Parse_RFC3339 createdTimeString with inl t => Some t | inr _ => None end
                     | _ => None
                     end in
  let creator := match additionalProperties !! "created_by" with
                 | Some (JObj createdBy) => match createdBy !! "handle" with Some (JStr handle) => handle | _ => "" end
                 | _ => ""
                 end in
  mkCreateResult (syn_PublicId createdTest) createdTime creator.

Definition getSyntheticsTest (testID : string) : GoM W unit := translated "error getting synthetic test" (GetTest testID).

Definition deleteSyntheticTest (ID : string) : GoM W unit :=
  deleteIdempotent "error deleting synthetic test" (DeleteTests [ID]).

Definition createSyntheticBrowserTest instance : GoM W SyntheticsTest :=
  browserTestBody ← unmarshal "error unmarshalling browser test spec" (json_BrowserTest (gr_JsonSpec (co_Spec instance)));
  translated "error creating browser test" (CreateSyntheticsBrowserTest browserTestBody).

Definition updateSyntheticsBrowserTest instance : GoM W SyntheticsTest :=
  browserTestBody ← unmarshal "error unmarshalling browser test spec" (json_BrowserTest (gr_JsonSpec (co_Spec instance)));
  translated "error updating browser test" (UpdateBrowserTest (gr_Id (co_Status instance)) browserTestBody).

Definition createSyntheticsAPITest instance : GoM W SyntheticsTest :=
  apiTestBody ← unmarshal "error unmarshalling API test spec" (json_APITest (gr_JsonSpec (co_Spec instance)));
  translated "error creating API test" (CreateSyntheticsAPITest apiTestBody).

Definition updateSyntheticsAPITest instance : GoM W SyntheticsTest :=
  apiTestBody ← unmarshal "error unmarshalling API test spec" (json_APITest (gr_JsonSpec (co_Spec instance)));
  translated "error updating API test" (UpdateAPITest (gr_Id (co_Status instance)) apiTestBody).

Definition SyntheticsAPITestHandler : ResourceHandler W := mkResourceHandler
  (λ instance, createdTest ← createSyntheticsAPITest instance; mret (createResultFromSyntheticsTest createdTest))
  (λ instance, getSyntheticsTest (gr_Id (co_Status instance)))
  (λ instance, _ ← updateSyntheticsAPITest instance; mret tt)
  (λ instance, deleteSyntheticTest (gr_Id (co_Status instance)))
  (λ _, mret None).

Definition SyntheticsBrowserTestHandler : ResourceHandler W := mkResourceHandler
  (λ instance, createdTest ← createSyntheticBrowserTest instance; mret (createResultFromSyntheticsTest createdTest))
  (λ instance, getSyntheticsTest (gr_Id (co_Status instance)))
  (λ instance, _ ← updateSyntheticsBrowserTest instance; mret tt)
  (λ instance, deleteSyntheticTest (gr_Id (co_Status instance)))
  (λ _, mret None).
End Handler.
End Synthetics.

(** ** All handlers *)

Definition buildHandlers {W : Type} `{DashboardsApi W, DowntimesApi W, GenericMonitorsApi W, NotificationRulesApi W,
    NotebooksApi W, GenericSLOsApi W, SyntheticsApi W} : gmap string (ResourceHandler W) :=
  list_to_map [
    (SupportedResourcesType.Dashboard, Dashboards.DashboardHandler);
    (SupportedResourcesType.Downtime, Downtimes.DowntimeHandler);
    (SupportedResourcesType.Monitor, Monitors.MonitorHandler);
    (SupportedResourcesType.MonitorNotificationRule, NotificationRules.MonitorNotificationRuleHandler);
    (SupportedResourcesType.Notebook, Notebooks.NotebookHandler);
    (SupportedResourcesType.SLO, SLOs.SLOHandler);
    (SupportedResourcesType.SyntheticsAPITest, Synthetics.SyntheticsAPITestHandler);
    (SupportedResourcesType.SyntheticsBrowserTest, Synthetics.SyntheticsBrowserTestHandler)
  ].
