(* ===== verification/HandlerLaws.v ===== *)
(** * What the handlers promise the controller.

    [SoundHandler] is the contract of [resource_handler.go] the controller's
    theorems are proved against: what each operation does to the IDs of the
    resources that exist, that no operation of the API touches the cluster, and
    that a 404 is answered only for a resource that does not exist.  The eight
    handlers meet it when Datadog's API obeys the laws of [get_law],
    [update_law], [create_law] and [delete_law]. *)

From Stdlib Require Import ZArith.
From stdpp Require Import base gmap strings list pretty.
From S2P Require Import Prelude GoRun Cluster Status FleetData Remote GenericResource Handlers.

(** ** Calls that obey a law *)

Section Lawful.
Context {W V : Type} (view : W → V).

Lemma lawful_ret {A} (post : V → V → A → Prop) a : (∀ v, post v v a) → lawful view post (mret a).
Proof. intros Hp w. apply Hp. Qed.

Lemma lawful_fail {A} (post : V → V → A → Prop) e : lawful view post (fail e).
Proof. intros w. done. Qed.

Lemma lawful_map {A B} (post : V → V → A → Prop) (post' : V → V → B → Prop) m (f : A → B) :
  lawful view post m → (∀ v v' a, post v v' a → post' v v' (f a)) → lawful view post' (a ← m; mret (f a)).
Proof. intros Hm Hp w. specialize (Hm w). unfold mbind, GoM_bind. destruct (m w) as [w' []]; cbn; auto. Qed.

Lemma lawful_mono {A} (post post' : V → V → A → Prop) m :
  lawful view post m → (∀ v v' a, post v v' a → post' v v' a) → lawful view post' m.
Proof. intros Hm Hp w. specialize (Hm w). destruct (m w) as [w' []]; auto. Qed.

Lemma lawful_translated {A} (post : V → V → A → Prop) msg m : lawful view post m → lawful view post (translated msg m).
Proof. intros Hm w. specialize (Hm w). unfold translated. by destruct (m w) as [w' []]. Qed.

(** A check before the call: a value or an error, without effect. *)
Lemma lawful_of_sum {A B} (post : V → V → B → Prop) (r : A + error) (k : A → GoM W B) :
  (∀ a, r = inl a → lawful view post (k a)) → lawful view post (of_sum r ≫= k).
Proof. intros Hk. destruct r; [by apply Hk|by intros w]. Qed.

Lemma lawful_unmarshal {A B} (post : V → V → B → Prop) msg (r : A + error) (k : A → GoM W B) :
  (∀ a, r = inl a → lawful view post (k a)) → lawful view post (unmarshal msg r ≫= k).
Proof. intros Hk. destruct r; [by apply Hk|by intros w]. Qed.

Lemma lawful_if {A} (post : V → V → A → Prop) (b : bool) m1 m2 :
  lawful view post m1 → lawful view post m2 → lawful view post (if b then m1 else m2).
Proof. by destruct b. Qed.

(** A call followed by reads of its result that do not panic. *)
Lemma lawful_bind_pure {A B} (post : V → V → A → Prop) (post' : V → V → B → Prop) (m : GoM W A) (k : A → GoM W B) :
  lawful view post m → (∀ v v' a, post v v' a → ∃ b, k a = mret b ∧ post' v v' b) → lawful view post' (m ≫= k).
Proof.
  intros Hm Hk w. specialize (Hm w). unfold mbind, GoM_bind. destruct (m w) as [w' [a|e|]]; [|done..].
  destruct (Hk _ _ _ Hm) as (b & -> & Hp). exact Hp.
Qed.
End Lawful.

Create HintDb lawful discriminated.
#[export] Hint Resolve lawful_fail lawful_translated : lawful.

(** ** Errors that tell of a missing resource *)

Definition mentions404 (e : error) : Prop :=
  Contains (error_Error e) NotFoundString = true ∨
  (∃ body, errors_AsOpenAPI e = Some body ∧ Contains body NotFoundString = true) ∨
  (∃ text, errors_AsURL e = Some text ∧ Contains text NotFoundString = true).

(** A message, a colon and a text mention a 404 only if one of them does. *)
Lemma Contains_colon s t : Contains (s +:+ ": " +:+ t) NotFoundString = Contains s NotFoundString || Contains t NotFoundString.
Proof.
  rewrite !string_app_cons, string_app_nil_l, Contains_app_sep by done. done.
Qed.

Lemma translateClientError_404 e msg :
  msg ≠ "" → Contains msg NotFoundString = false → Contains (msg +:+ " (url.Error)") NotFoundString = false →
  Contains (error_Error (translateClientError e msg)) NotFoundString = true → mentions404 e.
Proof.
  intros Hmsg H1 H2. unfold translateClientError, mentions404. rewrite bool_decide_false by done.
  destruct (errors_AsOpenAPI e) as [body|] eqn:Eb; cbn [error_Error].
  - rewrite !Contains_colon, H1, orb_false_l. intros [?|?]%orb_true_iff; eauto 6.
  - destruct (errors_AsURL e) as [text|] eqn:Eu; cbn [error_Error].
    + replace (msg +:+ " (url.Error): " +:+ text) with ((msg +:+ " (url.Error)") +:+ ": " +:+ text)
        by (by rewrite string_app_assoc).
      rewrite Contains_colon, H2, orb_false_l. eauto 6.
    + rewrite Contains_colon, H1, orb_false_l. eauto.
Qed.

(** A call whose errors mention a 404 only when [P] held. *)
Section Missing.
Context {W : Type}.

Definition missing {A} (P : W → Prop) (m : GoM W A) : Prop :=
  ∀ w w' e, m w = (w', Fail e) → Contains (error_Error e) NotFoundString = true → P w.

Lemma missing_translated {A} (P : W → Prop) msg (m : GoM W A) :
  msg ≠ "" → Contains msg NotFoundString = false → Contains (msg +:+ " (url.Error)") NotFoundString = false →
  (∀ w w' e, m w = (w', Fail e) → mentions404 e → P w) → missing P (translated msg m).
Proof.
  intros Hmsg H1 H2 Hm w w' e E. unfold translated in E. destruct (m w) as [w1 [a|e1|]] eqn:E1; simplify_eq.
  intros Hc. eapply Hm; [exact E1|]. by eapply translateClientError_404.
Qed.

Lemma missing_map {A B} (P : W → Prop) (m : GoM W A) (f : A → B) : missing P m → missing P (a ← m; mret (f a)).
Proof.
  intros Hm w w' e. unfold mbind, GoM_bind. destruct (m w) as [w1 []] eqn:E; intros; simplify_eq. by eapply Hm.
Qed.

Lemma missing_of_sum {A B} (P : W → Prop) (r : A + error) (k : A → GoM W B) :
  (∀ a, r = inl a → missing P (k a)) →
  (∀ e w, r = inr e → Contains (error_Error e) NotFoundString = true → P w) → missing P (of_sum r ≫= k).
Proof. intros Hk Hf. destruct r as [a|e]; [by apply Hk|]. intros w w' e' E Hc. cbv in E. simplify_eq. by apply (Hf e'). Qed.

Lemma missing_unmarshal {A B} (P : W → Prop) msg (r : A + error) (k : A → GoM W B) a :
  r = inl a → missing P (k a) → missing P (unmarshal msg r ≫= k).
Proof. intros ->. done. Qed.

Lemma missing_fail {A} (P : W → Prop) msg : Contains msg NotFoundString = false → missing P (fail (A := A) (Errorf msg)).
Proof. intros Hm w w' e E. unfold fail in E. simplify_eq. cbn. by rewrite Hm. Qed.

Lemma missing_if {A} (P : W → Prop) (b : bool) (m1 m2 : GoM W A) :
  missing P m1 → missing P m2 → missing P (if b then m1 else m2).
Proof. by destruct b. Qed.
End Missing.

(** ** The contract *)

Class SoundHandler {W R : Type} `{RemoteWorld W DatadogGenericResourceSpec DatadogGenericResourceStatus R}
    (h : ResourceHandler W) := {
  (** The IDs of the resources that exist. *)
  ids : R → gset string;
  (** The spec of the instance decodes. *)
  decodes : DatadogGenericResource → Prop;
  handler_create i :
    lawful world_view (λ v v' r, v'.1 = v.1 ∧ cre_ID r ≠ "" ∧ (cre_ID r ∉ ids v.2) ∧ ids v'.2 = {[cre_ID r]} ∪ ids v.2)
      (createResource h i);
  handler_get i : lawful world_view (λ v v' _, v' = v) (getResource h i);
  handler_get_missing i : missing (λ w, gr_Id (co_Status i) ∉ ids (remote w)) (getResource h i);
  handler_update i : lawful world_view (λ v v' _, v'.1 = v.1 ∧ ids v'.2 = ids v.2) (updateResource h i);
  handler_update_missing i : decodes i → missing (λ w, gr_Id (co_Status i) ∉ ids (remote w)) (updateResource h i);
  handler_delete i :
    lawful world_view (λ v v' _, v'.1 = v.1 ∧ (gr_Id (co_Status i) ∉ ids v'.2) ∧ ids v'.2 ⊆ ids v.2) (deleteResource h i);
  handler_refresh i : lawful world_view (λ v v' _, v' = v) (refreshState h i)
}.

(** ** The laws of the API

    For the resources of one type, with IDs of type [K]. *)
Section ApiLaws.
Context {W R : Type} `{RemoteWorld W DatadogGenericResourceSpec DatadogGenericResourceStatus R}.
Context {K : Type} `{Countable K} (existing : R → gset K).

Definition missing_law {A} (id : K) (m : GoM W A) : Prop :=
  ∀ w w' e, m w = (w', Fail e) → mentions404 e → id ∉ existing (remote w).

Definition get_law {A} (id : K) (m : GoM W A) : Prop := lawful world_view (λ v v' _, v' = v) m ∧ missing_law id m.

Definition update_law {A} (id : K) (m : GoM W A) : Prop :=
  lawful world_view (λ v v' _, v'.1 = v.1 ∧ existing v'.2 = existing v.2) m ∧ missing_law id m.

Definition create_law {A} (GetId : A → K) (ok : A → Prop) (m : GoM W A) : Prop :=
  lawful world_view (λ v v' a, v'.1 = v.1 ∧ ok a ∧ (GetId a ∉ existing v.2) ∧ existing v'.2 = {[GetId a]} ∪ existing v.2) m.

Definition delete_law (id : K) (m : GoM W (option Z * option error)) : Prop :=
  lawful world_view (λ v v' r, v'.1 = v.1 ∧
    match r.2 with
    | None => existing v'.2 = existing v.2 ∖ {[id]}
    | Some _ => v' = v ∧ (r.1 = Some 404%Z → id ∉ existing v.2)
    end) m.

(** Deleting leaves the resource gone, whether it was there or not. *)
Lemma delete_law_idempotent id msg m :
  delete_law id m →
  lawful world_view (λ v v' _, v'.1 = v.1 ∧ (id ∉ existing v'.2) ∧ existing v'.2 ⊆ existing v.2) (deleteIdempotent msg m).
Proof.
  intros Hm w. specialize (Hm w). unfold deleteIdempotent, mbind, GoM_bind.
  destruct (m w) as [w' [[code [err|]]|e|]]; cbn in Hm |- *; [|destruct Hm as [-> ->]; set_solver|done..].
  destruct Hm as (Hk & Hv & Hgone). case_bool_decide as Hc; cbn; [|done]. rewrite Hv in *. subst. eauto.
Qed.
End ApiLaws.

(** ** The handlers meet the contract *)

Section StringIds.
Context {W R : Type} `{RemoteWorld W DatadogGenericResourceSpec DatadogGenericResourceStatus R}.

(** A message of the code before the text of the API. *)
Lemma missing_api {A} (existing : R → gset string) (id msg : string) (m : GoM W A) :
  bool_decide (msg = "") = false → Contains msg NotFoundString = false →
  Contains (msg +:+ " (url.Error)") NotFoundString = false →
  missing_law existing id m → missing (λ w, id ∉ existing (remote w)) (translated msg m).
Proof. intros Hm%bool_decide_eq_false H1 H2 Hl. by apply missing_translated. Qed.
End StringIds.

Class SoundDashboardsApi {W R : Type} `{RemoteWorld W DatadogGenericResourceSpec DatadogGenericResourceStatus R}
    `{DashboardsApi W} := {
  dashboards : R → gset string;
  law_GetDashboard id : get_law dashboards id (GetDashboard id);
  law_CreateDashboard d : create_law dashboards Dashboard_GetId (λ a, Dashboard_GetId a ≠ "") (CreateDashboard d);
  law_UpdateDashboard id d : update_law dashboards id (UpdateDashboard id d);
  law_DeleteDashboard id : delete_law dashboards id (DeleteDashboard id)
}.

(** Closes the laws of a handler: the checks that precede a call have no effect. *)
Ltac handler_law :=
  repeat first
    [ apply lawful_if | apply lawful_fail | apply lawful_translated
    | apply lawful_unmarshal; intros ? ? | apply lawful_of_sum; intros ? ?
    | apply missing_if | (apply missing_fail; vm_compute; reflexivity)
    | (apply missing_api; [vm_compute; reflexivity..|]) ].

#[export] Instance DashboardHandler_sound `{SoundDashboardsApi W R} : SoundHandler (W := W) Dashboards.DashboardHandler.
Proof.
  refine {| ids := dashboards; decodes i := ∃ d, json_Dashboard (gr_JsonSpec (co_Spec i)) = inl d |};
    unfold Dashboards.DashboardHandler, Dashboards.createDashboard, Dashboards.getDashboard,
      Dashboards.updateDashboard, Dashboards.deleteDashboard; cbn; intros i.
  - eapply lawful_map; [handler_law; apply law_CreateDashboard|]. cbn. tauto.
  - eapply lawful_map; [handler_law; apply law_GetDashboard|]. done.
  - apply missing_map. handler_law. apply law_GetDashboard.
  - eapply lawful_map; [handler_law; apply law_UpdateDashboard|]. done.
  - intros [d Hd]. apply missing_map. eapply missing_unmarshal; [exact Hd|]. handler_law. apply law_UpdateDashboard.
  - apply delete_law_idempotent, law_DeleteDashboard.
  - by apply lawful_ret.
Defined.

Class SoundDowntimesApi {W R : Type} `{RemoteWorld W DatadogGenericResourceSpec DatadogGenericResourceStatus R}
    `{DowntimesApi W} := {
  downtimes : R → gset string;
  law_GetDowntime id : get_law downtimes id (GetDowntime id);
  law_CreateDowntime d : create_law downtimes dt_Id (λ a, dt_Id a ≠ "") (CreateDowntime d);
  law_UpdateDowntime id a : update_law downtimes id (UpdateDowntime id a id);
  law_CancelDowntime id : delete_law downtimes id (CancelDowntime id)
}.

#[export] Instance DowntimeHandler_sound `{SoundDowntimesApi W R} : SoundHandler (W := W) Downtimes.DowntimeHandler.
Proof.
  refine {| ids := downtimes; decodes i := ∃ d, json_DowntimeAttributes (gr_JsonSpec (co_Spec i)) = inl d |};
    unfold Downtimes.DowntimeHandler, Downtimes.createDowntime, Downtimes.getDowntime,
      Downtimes.updateDowntime, Downtimes.deleteDowntime; cbn; intros i.
  - eapply lawful_map; [handler_law; apply law_CreateDowntime|]. cbn. tauto.
  - eapply lawful_map; [handler_law; apply law_GetDowntime|]. done.
  - apply missing_map. handler_law. apply law_GetDowntime.
  - eapply lawful_map; [handler_law; case_match; handler_law; apply law_UpdateDowntime|]. done.
  - intros [d Hd]. apply missing_map. handler_law. eapply missing_unmarshal; [exact Hd|].
    destruct d; handler_law. apply law_UpdateDowntime.
  - handler_law. apply delete_law_idempotent, law_CancelDowntime.
  - by apply lawful_ret.
Defined.

Class SoundNotificationRulesApi {W R : Type} `{RemoteWorld W DatadogGenericResourceSpec DatadogGenericResourceStatus R}
    `{NotificationRulesApi W} := {
  rules : R → gset string;
  law_GetRule id : get_law rules id (GetMonitorNotificationRule id);
  law_CreateRule d :
    create_law rules (λ a, default "" (a ≫= rd_Id)) (λ a, default "" (a ≫= rd_Id) ≠ "") (CreateMonitorNotificationRule d);
  law_UpdateRule id a : update_law rules id (UpdateMonitorNotificationRule id a id);
  law_DeleteRule id : delete_law rules id (DeleteMonitorNotificationRule id)
}.

#[export] Instance NotificationRuleHandler_sound `{SoundNotificationRulesApi W R} :
  SoundHandler (W := W) NotificationRules.MonitorNotificationRuleHandler.
Proof.
  refine {| ids := rules; decodes i := ∃ d, json_RuleAttributes (gr_JsonSpec (co_Spec i)) = inl d |};
    unfold NotificationRules.MonitorNotificationRuleHandler, NotificationRules.createMonitorNotificationRule,
      NotificationRules.getMonitorNotificationRule, NotificationRules.updateMonitorNotificationRule,
      NotificationRules.deleteMonitorNotificationRule; cbn; intros i.
  - eapply lawful_map; [handler_law; apply law_CreateRule|]. cbn. tauto.
  - eapply lawful_map; [handler_law; apply law_GetRule|]. done.
  - apply missing_map. handler_law. apply law_GetRule.
  - eapply lawful_map; [handler_law; case_match; handler_law; apply law_UpdateRule|]. done.
  - intros [d Hd]. apply missing_map. handler_law. eapply missing_unmarshal; [exact Hd|].
    destruct d; handler_law. apply law_UpdateRule.
  - handler_law. apply delete_law_idempotent, law_DeleteRule.
  - by apply lawful_ret.
Defined.

(** *** Resources whose IDs are numbers *)

Section IntIds.
Context {W R : Type} `{RemoteWorld W DatadogGenericResourceSpec DatadogGenericResourceStatus R}.
Context (existing : R → gset Z) (Hrange : ∀ r n, n ∈ existing r → int64_range n).

Definition string_ids (r : R) : gset string := set_map FormatInt (existing r).

(** An existing ID is a number that is read back. *)
Lemma elem_of_string_ids r id : id ∈ string_ids r ↔ ∃ n, id = FormatInt n ∧ n ∈ existing r.
Proof using Type. unfold string_ids. clear. set_solver. Qed.

Lemma parse_existing r id : id ∈ string_ids r → ∃ n, resourceStringToInt64ID id = inl n ∧ n ∈ existing r.
Proof.
  intros (n & -> & Hn)%elem_of_string_ids. exists n. split; [|done].
  unfold resourceStringToInt64ID. by rewrite ParseInt_FormatInt by eauto.
Qed.

Lemma missing_int {A} id msg (m : Z → GoM W A) :
  bool_decide (msg = "") = false → Contains msg NotFoundString = false →
  Contains (msg +:+ " (url.Error)") NotFoundString = false →
  (∀ n, missing_law existing n (m n)) →
  missing (λ w, id ∉ string_ids (remote w)) (n ← of_sum (resourceStringToInt64ID id); translated msg (m n)).
Proof.
  intros Hmsg%bool_decide_eq_false H1 H2 Hl. apply missing_of_sum.
  - intros n Hn. apply missing_translated; [done..|]. intros w w' e E Hm (k & Hk & Hin)%parse_existing.
    rewrite Hn in Hk. simplify_eq. by eapply Hl.
  - intros e w He Hc (n & Hn & _)%parse_existing. congruence.
Qed.

Lemma delete_int id msg (m : Z → GoM W (option Z * option error)) :
  (∀ n, delete_law existing n (m n)) →
  lawful world_view (λ v v' _, v'.1 = v.1 ∧ (id ∉ string_ids v'.2) ∧ string_ids v'.2 ⊆ string_ids v.2)
    (n ← of_sum (resourceStringToInt64ID id); deleteIdempotent msg (m n)).
Proof.
  intros Hm. apply lawful_of_sum. intros n Hn. eapply lawful_mono; [apply (delete_law_idempotent existing n), Hm|].
  intros v v' _ (Hk & Hg & Hs). split; [done|]. split; [|unfold string_ids; set_solver].
  intros (k & Hk' & Hin)%parse_existing. rewrite Hn in Hk'. by simplify_eq.
Qed.

Lemma create_int v v' (n : Z) :
  n ∉ existing v → existing v' = {[n]} ∪ existing v →
  FormatInt n ≠ "" ∧ (FormatInt n ∉ string_ids v) ∧ string_ids v' = {[FormatInt n]} ∪ string_ids v.
Proof using Type.
  clear Hrange. intros Hn He. split; [apply FormatInt_nonempty|]. split.
  - intros (k & Hk%FormatInt_inj & Hin)%elem_of_string_ids. by subst.
  - unfold string_ids. rewrite He. set_solver.
Qed.
End IntIds.

Class SoundMonitorsApi {W R : Type} `{RemoteWorld W DatadogGenericResourceSpec DatadogGenericResourceStatus R}
    `{GenericMonitorsApi W} := {
  monitors : R → gset Z;
  monitors_range r n : n ∈ monitors r → int64_range n;
  law_GetMonitor n : get_law monitors n (GetMonitor n);
  (** A created monitor has a creation time and a creator. *)
  law_CreateMonitor d :
    create_law monitors mon_Id (λ a, is_Some (mon_Created a) ∧ is_Some (mon_CreatorHandle a)) (CreateMonitor d);
  law_UpdateMonitor n d : update_law monitors n (UpdateMonitor n d);
  law_DeleteMonitor n : delete_law monitors n (DeleteMonitor n)
}.

#[export] Instance MonitorHandler_sound `{SoundMonitorsApi W R} : SoundHandler (W := W) Monitors.MonitorHandler.
Proof.
  refine {| ids := string_ids monitors;
            decodes i := ∃ d, json_MonitorUpdateRequest (gr_JsonSpec (co_Spec i)) = inl d |};
    unfold Monitors.MonitorHandler, Monitors.createMonitor, Monitors.getMonitor, Monitors.updateMonitor,
      Monitors.deleteMonitor; cbn; intros i.
  - eapply lawful_bind_pure; [handler_law; apply law_CreateMonitor|]. cbn.
    intros v v' [n [t|] [hdl|] st] (Hk & [[? ?] [? ?]] & Hn & He); simplify_eq. eexists. split; [done|].
    split; [done|]. exact (create_int monitors _ _ n Hn He).
  - eapply lawful_map; [handler_law; apply law_GetMonitor|]. done.
  - apply missing_map. apply missing_int; [apply monitors_range|vm_compute; reflexivity..|]. apply law_GetMonitor.
  - eapply lawful_map; [handler_law; apply law_UpdateMonitor|]. unfold string_ids. cbn. intros v v' _ [-> ->]. done.
  - intros [d Hd]. apply missing_map. eapply missing_unmarshal; [exact Hd|].
    apply missing_int; [apply monitors_range|vm_compute; reflexivity..|]. intros n. apply law_UpdateMonitor.
  - apply delete_int; [apply monitors_range|apply law_DeleteMonitor].
  - eapply lawful_map; [handler_law; apply law_GetMonitor|]. done.
Defined.

Class SoundNotebooksApi {W R : Type} `{RemoteWorld W DatadogGenericResourceSpec DatadogGenericResourceStatus R}
    `{NotebooksApi W} := {
  notebooks : R → gset Z;
  notebooks_range r n : n ∈ notebooks r → int64_range n;
  law_GetNotebook n : get_law notebooks n (GetNotebook n);
  (** A created notebook has data with a creation time and an author. *)
  law_CreateNotebook d :
    create_law notebooks (λ a, default 0%Z (nb_Id <$> a))
      (λ a, ∃ n t hdl, a = Some (mkNotebookData n (Some t) (Some (Some hdl)))) (CreateNotebook d);
  law_UpdateNotebook n d : update_law notebooks n (UpdateNotebook n d);
  law_DeleteNotebook n : delete_law notebooks n (DeleteNotebook n)
}.

#[export] Instance NotebookHandler_sound `{SoundNotebooksApi W R} : SoundHandler (W := W) Notebooks.NotebookHandler.
Proof.
  refine {| ids := string_ids notebooks;
            decodes i := ∃ d, json_NotebookUpdateRequest (gr_JsonSpec (co_Spec i)) = inl d |};
    unfold Notebooks.NotebookHandler, Notebooks.createNotebook, Notebooks.getNotebook, Notebooks.updateNotebook,
      Notebooks.deleteNotebook; cbn; intros i.
  - eapply lawful_bind_pure; [handler_law; apply law_CreateNotebook|]. cbn.
    intros v v' a (Hk & (n & t & hdl & ->) & Hn & He). eexists. split; [done|].
    split; [done|]. exact (create_int notebooks _ _ n Hn He).
  - eapply lawful_map; [handler_law; apply law_GetNotebook|]. done.
  - apply missing_map. apply missing_int; [apply notebooks_range|vm_compute; reflexivity..|]. apply law_GetNotebook.
  - eapply lawful_map; [handler_law; apply law_UpdateNotebook|]. unfold string_ids. cbn. intros v v' _ [-> ->]. done.
  - intros [d Hd]. apply missing_map. eapply missing_unmarshal; [exact Hd|].
    apply missing_int; [apply notebooks_range|vm_compute; reflexivity..|]. intros n. apply law_UpdateNotebook.
  - apply delete_int; [apply notebooks_range|apply law_DeleteNotebook].
  - by apply lawful_ret.
Defined.

Class SoundSLOsApi {W R : Type} `{RemoteWorld W DatadogGenericResourceSpec DatadogGenericResourceStatus R}
    `{GenericSLOsApi W} := {
  slos : R → gset string;
  law_GetSLO id : get_law slos id (GetSLO id);
  (** A creation answers with the SLO it created. *)
  law_CreateSLO d :
    create_law slos (λ l, default "" (slo_Id <$> head l)) (λ l, ∃ slo l', l = slo :: l' ∧ slo_Id slo ≠ "") (CreateSLO d);
  law_UpdateSLO id d : update_law slos id (UpdateSLO id d);
  law_DeleteSLO id force : delete_law slos id (DeleteSLO id force);
  law_SearchSLO q n : lawful world_view (λ v v' _, v' = v) (SearchSLO q n)
}.

#[export] Instance SLOHandler_sound `{SoundSLOsApi W R} : SoundHandler (W := W) SLOs.SLOHandler.
Proof.
  refine {| ids := slos; decodes i := ∃ d, json_SLOUpdate (gr_JsonSpec (co_Spec i)) = inl d |};
    unfold SLOs.SLOHandler, SLOs.createSLO, SLOs.getSLO, SLOs.updateSLO, SLOs.deleteSLO, SLOs.getSLOState;
    cbn; intros i.
  - eapply lawful_map; [handler_law; eapply lawful_bind_pure; [handler_law; apply law_CreateSLO|]|].
    + intros v v' l (Hk & (slo & l' & -> & Hid) & Hn & He). eexists. split; [done|].
      instantiate (1 := λ v v' slo, v'.1 = v.1 ∧ slo_Id slo ≠ "" ∧ (slo_Id slo ∉ slos v.2) ∧
                                    slos v'.2 = {[slo_Id slo]} ∪ slos v.2). done.
    + done.
  - handler_law. apply law_GetSLO.
  - handler_law. apply law_GetSLO.
  - handler_law. apply law_UpdateSLO.
  - intros [d Hd]. eapply missing_unmarshal; [exact Hd|]. handler_law. apply law_UpdateSLO.
  - apply delete_law_idempotent, law_DeleteSLO.
  - handler_law. intros w. pose proof (lawful_translated _ _ "error searching SLO" _ (law_SearchSLO a 100) w) as Hl.
    unfold mbind, GoM_bind. destruct (translated _ _ w) as [w' [l|e|]]; [|done..].
    by destruct (SLOs.extractSLOState l _).
Defined.

Class SoundSyntheticsApi {W R : Type} `{RemoteWorld W DatadogGenericResourceSpec DatadogGenericResourceStatus R}
    `{SyntheticsApi W} := {
  tests : R → gset string;
  law_GetTest id : get_law tests id (GetTest id);
  law_DeleteTests id : delete_law tests id (DeleteTests [id]);
  law_CreateBrowserTest d : create_law tests syn_PublicId (λ a, syn_PublicId a ≠ "") (CreateSyntheticsBrowserTest d);
  law_UpdateBrowserTest id d : update_law tests id (UpdateBrowserTest id d);
  law_CreateAPITest d : create_law tests syn_PublicId (λ a, syn_PublicId a ≠ "") (CreateSyntheticsAPITest d);
  law_UpdateAPITest id d : update_law tests id (UpdateAPITest id d)
}.

#[export] Instance SyntheticsAPITestHandler_sound `{SoundSyntheticsApi W R} :
  SoundHandler (W := W) Synthetics.SyntheticsAPITestHandler.
Proof.
  refine {| ids := tests; decodes i := ∃ d, json_APITest (gr_JsonSpec (co_Spec i)) = inl d |};
    unfold Synthetics.SyntheticsAPITestHandler, Synthetics.createSyntheticsAPITest, Synthetics.getSyntheticsTest,
      Synthetics.updateSyntheticsAPITest, Synthetics.deleteSyntheticTest; cbn; intros i.
  - eapply lawful_map; [handler_law; apply law_CreateAPITest|]. cbn. tauto.
  - handler_law. apply law_GetTest.
  - handler_law. apply law_GetTest.
  - eapply lawful_map; [handler_law; apply law_UpdateAPITest|]. done.
  - intros [d Hd]. apply missing_map. eapply missing_unmarshal; [exact Hd|]. handler_law. apply law_UpdateAPITest.
  - apply delete_law_idempotent, law_DeleteTests.
  - by apply lawful_ret.
Defined.

#[export] Instance SyntheticsBrowserTestHandler_sound `{SoundSyntheticsApi W R} :
  SoundHandler (W := W) Synthetics.SyntheticsBrowserTestHandler.
Proof.
  refine {| ids := tests; decodes i := ∃ d, json_BrowserTest (gr_JsonSpec (co_Spec i)) = inl d |};
    unfold Synthetics.SyntheticsBrowserTestHandler, Synthetics.createSyntheticBrowserTest, Synthetics.getSyntheticsTest,
      Synthetics.updateSyntheticsBrowserTest, Synthetics.deleteSyntheticTest; cbn; intros i.
  - eapply lawful_map; [handler_law; apply law_CreateBrowserTest|]. cbn. tauto.
  - handler_law. apply law_GetTest.
  - handler_law. apply law_GetTest.
  - eapply lawful_map; [handler_law; apply law_UpdateBrowserTest|]. done.
  - intros [d Hd]. apply missing_map. eapply missing_unmarshal; [exact Hd|]. handler_law. apply law_UpdateBrowserTest.
  - apply delete_law_idempotent, law_DeleteTests.
  - by apply lawful_ret.
Defined.

(** Every supported type has a sound handler. *)
Lemma buildHandlers_sound `{RemoteWorld W DatadogGenericResourceSpec DatadogGenericResourceStatus R}
    `{!DashboardsApi W, !SoundDashboardsApi, !DowntimesApi W, !SoundDowntimesApi, !GenericMonitorsApi W, !SoundMonitorsApi,
      !NotificationRulesApi W, !SoundNotificationRulesApi, !NotebooksApi W, !SoundNotebooksApi,
      !GenericSLOsApi W, !SoundSLOsApi, !SyntheticsApi W, !SoundSyntheticsApi} t h :
  buildHandlers (W := W) !! t = Some h → inhabited (SoundHandler h).
Proof.
  unfold buildHandlers. cbn [list_to_map foldr fst snd uncurry]. repeat (rewrite lookup_insert; case_decide).
  all: intros; simplify_eq; constructor; apply _.
Qed.
