(* ===== verification/RemoteFacts.v ===== *)
(** * Facts about custom resources and their finalizers.

    What a status write, the finalizer and the retries leave behind, for every
    client that obeys the laws of [RemoteWorld]. *)

From Stdlib Require Import ZArith.
From stdpp Require Import base gmap strings list.
From S2P Require Import Prelude GoRun Cluster Status Remote.

(** A non-zero result, and an error, end a reconcile. *)
Lemma ShouldReturn_err res e : ShouldReturn res (Some e) = true.
Proof. unfold ShouldReturn. by rewrite bool_decide_true. Qed.

Lemma ShouldReturn_requeue d p : ShouldReturn (mkResult true d p) None = true.
Proof. unfold ShouldReturn, Result_IsZero. by rewrite (bool_decide_false (mkResult _ _ _ = _)). Qed.

Lemma ShouldReturn_after d : d ≠ 0%Z → ShouldReturn (RequeueAfter d) None = true.
Proof.
  intros Hd. unfold ShouldReturn, Result_IsZero. rewrite (bool_decide_false (RequeueAfter _ = _)); [done|].
  intros E. by injection E.
Qed.

Section Facts.
Context {W Spec Status R : Type} `{RemoteWorld W Spec Status R}.
Implicit Types (w : W) (o : CustomResource Spec Status) (key : string * string).

(** What a status write does not touch. *)
Definition meta o : option Time * list string * Spec := (co_DeletionTimestamp o, co_Finalizers o, co_Spec o).
Definition metas w : gmap (string * string) (option Time * list string * Spec) := meta <$> stored w.

Lemma view_stored w w' : world_view w' = world_view w → stored w' = stored w.
Proof. unfold stored. by intros ->. Qed.

Lemma view_remote w w' : world_view w' = world_view w → remote w' = remote w.
Proof. unfold remote. by intros ->. Qed.

(** *** Events *)

Lemma wp_recordEvent o info (Q : W → outcome unit → Prop) w :
  (∀ w', world_view w' = world_view w → Q w' (Ret tt)) → wp (recordEvent o info) Q w.
Proof. intros HQ. apply HQ. apply world_Event. Qed.

(** *** Status writes *)

(** A status write succeeded: the object under [key] has the status, and nothing
    else of any object changed. *)
Definition status_written key (st : Status) w w' : Prop :=
  remote w' = remote w ∧ metas w' = metas w ∧ ∃ o, stored w' !! key = Some o ∧ co_Status o = st.

Lemma wp_StatusUpdate o (Q : W → outcome (CustomResource Spec Status) → Prop) w :
  (∀ w' o', status_written (co_key o) (co_Status o) w w' → Q w' (Ret o')) →
  (∀ w' e, world_view w' = world_view w → Q w' (Fail e)) → wp (client_StatusUpdate o) Q w.
Proof.
  intros Hr Hf. eapply wp_lawful; [apply world_StatusUpdate| |done].
  intros w' o' (old & rv & Hold & _ & -> & Hv). apply Hr. unfold status_written, metas, remote, stored.
  rewrite Hv. cbn. split; [done|]. split; [|by eexists; rewrite lookup_insert_eq].
  rewrite fmap_insert. apply insert_id. rewrite lookup_fmap, Hold. done.
Qed.

Lemma wp_client_Get key (Q : W → outcome (CustomResource Spec Status) → Prop) w :
  (∀ w' o, world_view w' = world_view w → stored w !! key = Some o → co_key o = key → Q w' (Ret o)) →
  (∀ w' e, world_view w' = world_view w → Q w' (Fail e)) → wp (client_Get key) Q w.
Proof. intros Hr Hf. eapply wp_lawful; [apply world_Get| |done]. intros w' o (Hv & Ho & Hk). by apply Hr. Qed.

Lemma status_written_view key st w1 w2 w3 :
  world_view w2 = world_view w1 → status_written key st w2 w3 → status_written key st w1 w3.
Proof. unfold status_written, metas, remote, stored. by intros ->. Qed.

(** *** The finalizer *)

Context `{!ControllerUtil, !ControllerUtilLaws}.

Lemma metas_finalizer w w' key name : metas w' = metas w → finalizer_stored w' key name = finalizer_stored w key name.
Proof.
  intros Hm. apply (f_equal (lookup key)) in Hm. unfold metas in Hm. rewrite !lookup_fmap in Hm.
  unfold finalizer_stored, meta in *.
  destruct (stored w !! key) as [o|], (stored w' !! key) as [o'|]; cbn in Hm; congruence.
Qed.

(** After an update of [o], its finalizers are those stored. *)
Lemma wp_Update o (Q : W → outcome (CustomResource Spec Status) → Prop) w :
  (∀ w' o', remote w' = remote w →
            (∀ name, ContainsFinalizer (co_Finalizers o) name = true → finalizer_stored w' (co_key o) name = true) →
            Q w' (Ret o')) →
  (∀ w' e, world_view w' = world_view w → Q w' (Fail e)) → wp (client_Update o) Q w.
Proof.
  intros Hr Hf. eapply wp_lawful; [apply world_Update| |done].
  intros w' o' (old & rv & Hold & _ & -> & Hv). apply Hr; unfold remote, finalizer_stored, stored; rewrite Hv; cbn; [done|].
  intros name Hn. unfold store_updated.
  destruct (negb _ && _) eqn:E.
  - apply andb_true_iff in E as [_ Hnil%bool_decide_eq_true]. cbn in Hnil. rewrite Hnil, Contains_nil in Hn. done.
  - change (co_key o) with (co_key (apply_update rv o old)). by rewrite lookup_insert_eq.
Qed.

(** The finalizer goes only after [deleteFunc] returned without an error, and
    only from an object that is being deleted. *)
Lemma wp_HandleFinalizer (f : Finalizer W Spec Status) o id name (gone : R → R → Prop) w :
  fin_defaultRequeuePeriod f ≠ 0%Z →
  (∀ w, wp (deleteFunc f o id) (λ w' out, stored w' = stored w ∧
          match out with Ret _ => gone (remote w) (remote w') | Fail _ => remote w' = remote w | Panic => False end) w) →
  wp (HandleFinalizer f o id name)
    (λ w' out, ∃ res err, out = Ret (res, err) ∧
       (ShouldReturn res err = false → w' = w ∧ res = zeroResult ∧ DeletionTimestamp_IsZero o = true ∧
                                       ContainsFinalizer (co_Finalizers o) name = true) ∧
       (finalizer_stored w (co_key o) name = true → finalizer_stored w' (co_key o) name = false →
        DeletionTimestamp_IsZero o = false ∧ gone (remote w) (remote w')) ∧
       (remote w' = remote w ∨ DeletionTimestamp_IsZero o = false ∧ gone (remote w) (remote w')) ∧
       (res_Requeue res = false → err = None → ShouldReturn res err = true → DeletionTimestamp_IsZero o = false)) w.
Proof.
  intros Hret%ShouldReturn_after Hdel. unfold HandleFinalizer. destruct (DeletionTimestamp_IsZero o) eqn:Hts.
  - destruct (ContainsFinalizer _ name) eqn:Hc; cbn [negb].
    { apply wp_ret. exists zeroResult, None. split; [done|]. split; [done|]. split; [congruence|]. split; [by left|done]. }
    apply wp_bind, wp_attempt, wp_Update.
    + intros w' o' Hrem Hfin. apply wp_ret. do 2 eexists. split; [done|]. split; [by rewrite ShouldReturn_requeue|].
      split; [|by split; [left|]]. intros _ Hgone. rewrite Hfin in Hgone; [done|]. cbn. by rewrite Contains_Add, bool_decide_true.
    + intros w' e Hv. apply wp_ret. do 2 eexists. split; [done|]. split; [by rewrite ShouldReturn_err|].
      split; [|by split; [left; apply view_remote|]].
      unfold finalizer_stored. rewrite (view_stored _ _ Hv). congruence.
  - destruct (ContainsFinalizer _ name) eqn:Hc.
    2: { apply wp_ret. do 2 eexists. split; [done|]. split; [congruence|]. split; [congruence|]. split; [by left|done]. }
    apply wp_bind, wp_attempt. eapply wp_mono; [apply Hdel|]. intros w1 [[]|e|] [Hs Hg]; [|..|done]; cbn.
    + apply wp_bind, wp_attempt, wp_Update.
      * intros w' o' Hrem _. apply wp_ret. do 2 eexists. split; [done|]. rewrite Hrem. split; [congruence|]. split; [done|]. split; [by right|done].
      * intros w' e Hv. apply wp_ret. do 2 eexists. split; [done|]. rewrite ShouldReturn_err, (view_remote _ _ Hv).
        split; [done|]. split; [done|]. split; [by right|done].
    + apply wp_ret. do 2 eexists. split; [done|]. split; [by rewrite ShouldReturn_err|]. split; [|by split; [left|]].
      unfold finalizer_stored. rewrite Hs. congruence.
Qed.
End Facts.
