(* ===== verification/GenericTheorems.v ===== *)
(** * Correctness of the DatadogGenericResource controller.

    For every sound handler and every sound client, whatever call fails: a
    resource is not orphaned, not created twice, its ID is recorded, its status
    is truthful, a stale status write is retried, and an unchanged resource is
    left alone. *)

From Stdlib Require Import ZArith Lia.
From stdpp Require Import base gmap strings list.
From S2P Require Import Prelude GoRun Cluster Status Remote RemoteFacts GenericResource Handlers HandlerLaws.

(** ** Configuration *)

(** The requeue period is positive whatever is configured. *)
Lemma requeuePeriod_pos d : (0 < requeuePeriod d)%Z.
Proof. unfold requeuePeriod. case_bool_decide; [done|lia]. Qed.

Section Generic.
Context {W R : Type} `{RemoteWorld W DatadogGenericResourceSpec DatadogGenericResourceStatus R}.
Context `{ControllerUtil, !ControllerUtilLaws, MetaConditions}.
Context {HRepeating : Repeating}.
Implicit Types (w : W) (i : DatadogGenericResource) (st : DatadogGenericResourceStatus).

(** A successful write of the resource clears the error condition. *)
Lemma success_clears_error `{!MetaConditionsLaws} st now hash r :
  GetCondition (gr_Conditions (updatedStatus st now)) DatadogConditionTypeError = None ∧
  GetCondition (gr_Conditions (createdStatus st now hash r)) DatadogConditionTypeError = None.
Proof. split; apply Find_Remove. Qed.

(** ** The retried status write *)

Section StatusWrite.
Context (r_requeuePeriod : Duration) (conflictRetries : nat).

(** What a status write can answer: it was written or not needed, or the
    reconcile is requeued and nothing was written. *)
Definition status_answered i st (result : Result) w w' (out : outcome (Result * option error)) : Prop :=
  (out = Ret (result, None) ∧ (co_Status i = st ∧ w' = w ∨ status_written (co_key i) st w w')) ∨
  (∃ res err, out = Ret (res, err) ∧ res_Requeue res = true ∧ world_view w' = world_view w).

Lemma updateStatusIfNeeded_same i result w :
  updateStatusIfNeeded r_requeuePeriod conflictRetries i (co_Status i) result w = (w, Ret (result, None)).
Proof. unfold updateStatusIfNeeded. by rewrite bool_decide_true. Qed.

Lemma wp_retryStatus key st w :
  wp (retryStatus key st)
    (λ w' out, match out with
               | Ret _ => status_written key st w w'
               | Fail _ => world_view w' = world_view w
               | Panic => False
               end) w.
Proof.
  unfold retryStatus. apply wp_bind, wp_client_Get; [|done]. intros w1 o Hv1 Ho Hk. case_bool_decide as Hst.
  - apply wp_ret. unfold status_written, metas, remote, stored in *. rewrite Hv1. eauto.
  - apply wp_bind, wp_StatusUpdate; [|intros w2 e Hv2; by rewrite Hv2]. intros w2 o' Hw. apply wp_ret.
    eapply status_written_view; [exact Hv1|]. by rewrite <-Hk.
Qed.

Lemma wp_updateStatusIfNeeded i st result w :
  res_Requeue result = false →
  wp (updateStatusIfNeeded r_requeuePeriod conflictRetries i st result) (status_answered i st result w) w.
Proof.
  intros Hres. unfold updateStatusIfNeeded. case_bool_decide as Hst.
  { apply wp_ret. left. eauto. }
  apply wp_bind, wp_attempt, wp_StatusUpdate.
  { intros w1 o Hw. apply wp_bind, wp_ret, wp_ret. left. eauto. }
  intros w1 e Hv. apply wp_bind.
  assert (Hretry : wp (attempt (retryOnError IsConflict conflictRetries (retryStatus (co_key i) st)))
    (λ w' out, ∃ r, out = Ret r ∧ match r with inl _ => status_written (co_key i) st w w'
                                            | inr _ => world_view w' = world_view w end) w1).
  { apply wp_attempt. apply (wp_retryOnError (λ w1, world_view w1 = world_view w)); [|done].
    intros w2 Hv2. eapply wp_mono; [apply wp_retryStatus|]. intros w3 [[]|e3|] Hw; [..|done].
    - split; [|done]. eexists. split; [done|]. by eapply status_written_view.
    - rewrite Hv2 in Hw. eauto. }
  assert (Hlast : ∀ w2 (r : unit + error),
    match r with inl _ => status_written (co_key i) st w w2 | inr _ => world_view w2 = world_view w end →
    wp (match r with
        | inl _ => mret (result, None)
        | inr e => if IsConflict e then mret (mkResult true defaultErrRequeuePeriod (res_Priority result), None)
                   else mret (mkResult true r_requeuePeriod (res_Priority result), Some e)
        end) (status_answered i st result w) w2).
  { intros w2 [[]|e2] Hw; [apply wp_ret; left; eauto|]. destruct (IsConflict e2); apply wp_ret; right; do 2 eexists; eauto. }
  destruct (IsConflict e).
  - eapply wp_mono; [exact Hretry|]. intros w2 out (r & -> & Hw). by apply Hlast.
  - apply wp_ret. by apply (Hlast w1 (inr e)).
Qed.
End StatusWrite.

(** ** What a reconcile does to the remote resources *)

Section Actions.
Context (h : ResourceHandler W) `{Hs : !SoundHandler h}.
Abbreviation existing w := (ids (remote w)).
Abbreviation id_of i := (gr_Id (co_Status i)).

(** The status [st] is that after the actions of a reconcile of [i]: the same
    resources exist and the ID is kept, or one was created, whose ID is in the
    status, and the old one was not there.  A status that is [OK] has the hash
    of the spec. *)
Record acted i st (hash : string) w w' : Prop := {
  acted_stored : stored w' = stored w;
  acted_ids : (existing w' = existing w ∧ gr_Id st = id_of i) ∨
              (existing w' = {[gr_Id st]} ∪ existing w ∧ (gr_Id st ∉ existing w) ∧ gr_Id st ≠ "" ∧
               (id_of i = "" ∨ (decodes i → id_of i ∉ existing w)));
  acted_hash : gr_SyncStatus st = DatadogSyncStatusOK → gr_CurrentHash st = hash
}.

(** A world in which the same resources exist can be replaced. *)
Lemma acted_view i st hash w1 w2 w3 :
  stored w2 = stored w1 → existing w2 = existing w1 → acted i st hash w2 w3 → acted i st hash w1 w3.
Proof. intros Hst Hids [Ha Hb Hc]. rewrite Hids in Hb. split; congruence || done. Qed.

Lemma acted_view_r i st hash w1 w2 w3 : world_view w3 = world_view w2 → acted i st hash w1 w2 → acted i st hash w1 w3.
Proof.
  intros Hv [Ha Hb Hc]. split; [by rewrite (view_stored _ _ Hv)|by rewrite (view_remote _ _ Hv)|done].
Qed.

Lemma acted_same i st hash w w' :
  world_view w' = world_view w → gr_Id st = id_of i →
  (gr_SyncStatus st = DatadogSyncStatusOK → gr_CurrentHash st = hash) → acted i st hash w w'.
Proof. intros Hv Hid Hh. split; [by apply view_stored|left; by rewrite (view_remote _ _ Hv)|done]. Qed.

Lemma wp_create i st now hash w :
  gr_Id st = id_of i → (id_of i = "" ∨ (decodes i → id_of i ∉ existing w)) →
  wp (create h i st now hash) (λ w' out, ∃ st' err, out = Ret (st', err) ∧ acted i st' hash w w' ∧
      match err with None => gr_SyncStatus st' = DatadogSyncStatusOK ∧ gr_Id st' ≠ ""
                | Some _ => gr_SyncStatus st' ≠ DatadogSyncStatusOK end) w.
Proof.
  intros Hid Hmiss. unfold create. apply wp_bind, wp_attempt. eapply wp_lawful; [apply handler_create|..].
  - intros w1 r (Hst & Hne & Hnew & Hids). apply wp_bind, wp_recordEvent. intros w2 Hv. apply wp_ret.
    do 2 eexists. split; [done|]. split; [|done]. eapply acted_view_r; [exact Hv|]. split; [done|right; done|done].
  - intros w1 e Hv. apply wp_ret. do 2 eexists. split; [done|]. split; [|discriminate]. apply acted_same; [done..|discriminate].
Qed.

Lemma wp_update i st now hash w :
  gr_Id st = id_of i →
  wp (update h i st now hash) (λ w' out, ∃ st' err, out = Ret (st', err) ∧ acted i st' hash w w' ∧
      match err with None => gr_SyncStatus st' = DatadogSyncStatusOK
                | Some _ => gr_SyncStatus st' ≠ DatadogSyncStatusOK end) w.
Proof.
  intros Hid. unfold update. apply wp_bind, wp_attempt. unfold wp at 1.
  pose proof (handler_update i w) as Hl. pose proof (handler_update_missing i) as Hm.
  destruct (updateResource h i w) as [w1 [[]|e|]] eqn:E; cbn in Hl |- *; [..|done].
  - destruct Hl as [Hst Hids]. apply wp_bind, wp_recordEvent. intros w2 Hv. apply wp_ret. do 2 eexists.
    split; [done|]. split; [|done]. eapply acted_view_r; [exact Hv|]. split; [done|left; done|done].
  - destruct (Contains (error_Error e) NotFoundString) eqn:Hc.
    + eapply wp_mono; [apply wp_create|]; [done|right|].
      { intros Hd. rewrite (view_remote _ _ Hl). by eapply Hm. }
      intros w2 out (st' & err & -> & Ha & Hok). do 2 eexists. split; [done|]. split; [|destruct err; tauto].
      eapply acted_view; [by apply view_stored| |exact Ha]. by rewrite (view_remote _ _ Hl).
    + apply wp_ret. do 2 eexists. split; [done|]. split; [|discriminate]. apply acted_same; [done..|discriminate].
Qed.

(** The whole action of a reconcile whose spec hashes to [hash]. *)
Context (r_requeuePeriod r_forceSyncPeriod : Duration) (conflictRetries : nat) (LowPriority : Z).
Context (GenerateMD5ForSpec : DatadogGenericResourceSpec → string + error).
Abbreviation decide_ := (decideAction r_requeuePeriod r_forceSyncPeriod h).

Lemma wp_decideAction i now hash w :
  wp (decide_ i (co_Status i) now hash)
    (λ w' out, ∃ action st, out = Ret (action, st) ∧ world_view w' = world_view w ∧ gr_Id st = id_of i ∧
       match action with
       | ShouldCreate => id_of i = "" ∨ (decodes i → id_of i ∉ existing w)
       | ShouldUpdate => st = co_Status i
       | ShouldRefreshStatus => st = co_Status i ∧ gr_CurrentHash st = hash
       | Nothing => gr_CurrentHash st = hash ∧ (st = co_Status i ∨ gr_SyncStatus st ≠ DatadogSyncStatusOK)
       end) w.
Proof.
  unfold decideAction. case_bool_decide as Hid; [apply wp_ret; do 2 eexists; eauto 6|].
  case_bool_decide as Hh; [apply wp_ret; do 2 eexists; eauto 6|].
  case_match; [|case_match; apply wp_ret; do 2 eexists; eauto 6].
  apply wp_bind, wp_attempt. unfold wp at 1.
  pose proof (handler_get i w) as Hl. pose proof (handler_get_missing i) as Hm.
  destruct (getResource h i w) as [w1 [[]|e|]] eqn:E; cbn in Hl |- *; [..|done]; apply wp_ret; do 2 eexists.
  - eauto 6.
  - split; [done|]. split; [done|]. split; [done|]. destruct (Contains _ _) eqn:Hc.
    + right. intros _. by eapply Hm.
    + split; [done|]. right. discriminate.
Qed.

Lemma wp_refresh i now w :
  wp (refresh h i (co_Status i) now)
    (λ w' out, ∃ st, out = Ret st ∧ world_view w' = world_view w ∧ gr_Id st = id_of i ∧
       gr_CurrentHash st = gr_CurrentHash (co_Status i)) w.
Proof.
  unfold refresh. apply wp_bind, wp_attempt. eapply wp_lawful; [apply handler_refresh|..].
  - intros w1 [state|] Hv; apply wp_ret; eexists; eauto.
  - intros w1 e Hv. apply wp_ret. eexists; eauto.
Qed.

(** Once the finalizer let it continue, a reconcile acts and then answers with
    the status write. *)
Lemma wp_syncResource i now hash w :
  GenerateMD5ForSpec (co_Spec i) = inl hash →
  wp (syncResource r_requeuePeriod r_forceSyncPeriod GenerateMD5ForSpec LowPriority conflictRetries h i now zeroResult)
    (λ w' out, ∃ w1 st result, acted i st hash w w1 ∧ res_Requeue result = false ∧
                               status_answered i st result w1 w' out) w.
Proof.
  intros Hhash. unfold syncResource. rewrite Hhash. apply wp_bind.
  eapply wp_mono; [apply wp_decideAction|]. intros w1 out (action & st & -> & Hv & Hid & Hact).
  assert (Hend : ∀ w2 st2 result, acted i st2 hash w w2 → res_Requeue result = false →
    wp (updateStatusIfNeeded r_requeuePeriod conflictRetries i st2
          (if negb (res_Requeue result) && bool_decide (res_RequeueAfter result = 0%Z)
           then set_RequeueAfter r_requeuePeriod result else result))
      (λ w' out, ∃ w1 st result, acted i st hash w w1 ∧ res_Requeue result = false ∧
                                 status_answered i st result w1 w' out) w2).
  { intros w2 st2 result Ha Hr. eapply wp_mono; [apply wp_updateStatusIfNeeded; by destruct (negb _ && _)|].
    intros w3 out Hw. do 3 eexists. split; [exact Ha|]. split; [|exact Hw]. by destruct (negb _ && _). }
  assert (Hids : existing w1 = existing w) by by rewrite (view_remote _ _ Hv).
  assert (Hst1 : stored w1 = stored w) by by apply view_stored.
  apply wp_bind. destruct action.
  - apply wp_bind. eapply wp_mono; [apply wp_create; [done|by rewrite Hids]|].
    intros w2 out (st' & err & -> & Ha & _). apply wp_ret. apply Hend; [by eapply acted_view|by case_bool_decide].
  - apply wp_bind. eapply wp_mono; [by apply wp_update|].
    intros w2 out (st' & err & -> & Ha & _). apply wp_ret. apply Hend; [by eapply acted_view|by case_bool_decide].
  - destruct Hact as [-> Hh]. apply wp_bind. eapply wp_mono; [apply wp_refresh|].
    intros w2 out (st' & -> & Hv2 & Hid2 & Hh2). apply wp_ret. apply Hend; [|done].
    apply acted_same; congruence.
  - destruct Hact as [Hh Hok]. apply wp_ret. apply Hend; [|done]. by apply acted_same.
Qed.
End Actions.

(** ** The reconcile *)

Section Reconcile.
Context (handlers : gmap string (ResourceHandler W)) (h : ResourceHandler W) `{Hs : !SoundHandler h}.
Context (r_requeuePeriod r_forceSyncPeriod : Duration) (Hperiod : (0 < r_requeuePeriod)%Z).
Context (GenerateMD5ForSpec : DatadogGenericResourceSpec → string + error) (LowPriority : Z) (conflictRetries : nat).
Abbreviation reconcile := (Reconcile handlers r_requeuePeriod r_forceSyncPeriod GenerateMD5ForSpec LowPriority conflictRetries).
Abbreviation existing w := (ids (remote w)).
Abbreviation id_of i := (gr_Id (co_Status i)).
Abbreviation final := datadogGenericResourceFinalizer.

(** The remote resource of [i] is gone, and no other came. *)
Definition deleted i (r r' : R) : Prop := (id_of i = "" ∨ id_of i ∉ ids r') ∧ ids r' ⊆ ids r.

Lemma wp_r_deleteResource i w :
  wp (r_deleteResource h i (id_of i))
    (λ w' out, stored w' = stored w ∧
       match out with Ret _ => deleted i (remote w) (remote w') | Fail _ => remote w' = remote w | Panic => False end) w.
Proof.
  unfold r_deleteResource, deleted. case_bool_decide as Hid.
  - apply wp_recordEvent. intros w' Hv. rewrite (view_stored _ _ Hv), (view_remote _ _ Hv). eauto.
  - apply wp_bind. eapply wp_lawful; [apply handler_delete|..].
    + intros w1 _ (Hst & Hgone & Hsub). apply wp_recordEvent. intros w2 Hv.
      rewrite (view_stored _ _ Hv), (view_remote _ _ Hv). eauto.
    + intros w1 e Hv. rewrite (view_stored _ _ Hv), (view_remote _ _ Hv). done.
Qed.

(** What a reconcile leaves behind: it ended with the finalizer or acted and
    wrote the status; without a hash it only wrote the status. *)
Definition reconciled (credErr : option error) i w w' (out : outcome (Result * option error)) : Prop :=
  (∃ e, credErr = Some e ∧ w' = w ∧ ∃ err, out = Ret (RequeueAfter defaultErrRequeuePeriod, Some err)) ∨
  (∃ res err, out = Ret (res, err) ∧ ShouldReturn res err = true ∧
     (finalizer_stored w (co_key i) final = true → finalizer_stored w' (co_key i) final = false →
      DeletionTimestamp_IsZero i = false ∧ deleted i (remote w) (remote w')) ∧
     (remote w' = remote w ∨ deleted i (remote w) (remote w')) ∧
     (res_Requeue res = false → err = None → DeletionTimestamp_IsZero i = false)) ∨
  (DeletionTimestamp_IsZero i = true ∧ ∃ w1 st result, res_Requeue result = false ∧ status_answered i st result w1 w' out ∧
     match GenerateMD5ForSpec (co_Spec i) with
     | inl hash => acted h i st hash w w1
     | inr _ => world_view w1 = world_view w ∧ gr_Id st = id_of i ∧ gr_SyncStatus st ≠ DatadogSyncStatusOK
     end).

Lemma wp_Reconcile credErr now i w :
  handlers !! gr_Type (co_Spec i) = Some h → wp (reconcile credErr now i) (reconciled credErr i w) w.
Proof.
  intros Hh. unfold Reconcile. destruct credErr as [e|]; [apply wp_ret; left; eauto 6|].
  unfold getHandler. rewrite Hh. apply wp_bind, wp_ret. cbv zeta. apply wp_bind.
  eapply wp_mono; [apply (wp_HandleFinalizer _ _ _ _ (deleted i)); [cbn; lia|apply wp_r_deleteResource]|].
  intros w1 out (res & err & -> & Hcont & Hfin & Hrem & Hreq). destruct (ShouldReturn res err) eqn:Hret.
  - apply wp_ret. right. left. do 2 eexists. split; [done|]. split; [done|]. split; [done|]. split; [tauto|]. eauto.
  - destruct (Hcont eq_refl) as (-> & -> & Hts & _). unfold reconciled.
    destruct (GenerateMD5ForSpec (co_Spec i)) as [hash|e] eqn:Hhash.
    + eapply wp_mono; [by apply (wp_syncResource h _ _ _ _ _ i now hash)|].
      intros w' out (w1 & st & result & Ha & Hr & Hw). right. right. split; [done|]. eauto 7.
    + unfold syncResource. rewrite Hhash. eapply wp_mono; [by apply wp_updateStatusIfNeeded|].
      intros w' out Hw. right. right. split; [done|]. do 3 eexists. split; [|split; [exact Hw|]]; done.
Qed.

Lemma reconcile_idle now i w :
  handlers !! gr_Type (co_Spec i) = Some h →
  DeletionTimestamp_IsZero i = true → ContainsFinalizer (co_Finalizers i) final = true →
  id_of i ≠ "" → GenerateMD5ForSpec (co_Spec i) = inl (gr_CurrentHash (co_Status i)) →
  due r_forceSyncPeriod now (gr_LastForceSyncTime (co_Status i)) = false →
  due r_requeuePeriod now (gr_StateLastUpdateTime (co_Status i)) = false →
  reconcile None now i w = (w, Ret (RequeueAfter r_requeuePeriod, None)).
Proof.
  intros Hh Hts Hf Hid Hhash Hdue1 Hdue2. unfold Reconcile, getHandler. rewrite Hh. cbn.
  unfold HandleFinalizer. rewrite Hts, Hf. cbn. unfold syncResource. rewrite Hhash. unfold decideAction.
  rewrite bool_decide_false by done. rewrite (bool_decide_false (_ ≠ _)) by tauto. rewrite Hdue1, Hdue2.
  exact (updateStatusIfNeeded_same r_requeuePeriod conflictRetries i (RequeueAfter r_requeuePeriod) w).
Qed.

(** A status write keeps the finalizers and the remote resources. *)
Lemma status_answered_frame i st result w1 w' out :
  status_answered i st result w1 w' out → remote w' = remote w1 ∧ metas w' = metas w1.
Proof.
  intros [(_ & [[_ ->]|(Hr & Hm & _)])|(res & err & _ & _ & Hv)]; [done..|].
  unfold metas. by rewrite (view_stored _ _ Hv), (view_remote _ _ Hv).
Qed.

(** Once acted, the resources that exist are those the action left. *)
Lemma acted_answered i st hash result w w1 w' out :
  acted h i st hash w w1 → status_answered i st result w1 w' out → existing w' = existing w1 ∧ metas w' = metas w.
Proof.
  intros [Hst _ _] [Hr Hm]%status_answered_frame. split; [by rewrite Hr|]. rewrite Hm. unfold metas. by rewrite Hst.
Qed.

Lemma update_fails i st now hash w w1 e :
  updateResource h i w = (w1, Fail e) → Contains (error_Error e) NotFoundString = false →
  update h i st now hash w =
    (w1, Ret (updateErrStatus (set_gr_CurrentHash hash st) now DatadogSyncStatusUpdateError "UpdatingGenericResource" e,
              Some e)).
Proof. intros Hup H404. unfold update, mbind, GoM_bind, attempt. cbv zeta. by rewrite Hup, H404. Qed.

(** What a reconcile of a changed spec does with the answer of the update. *)
Lemma reconcile_update_fails now i w w1 e hash :
  handlers !! gr_Type (co_Spec i) = Some h →
  DeletionTimestamp_IsZero i = true → ContainsFinalizer (co_Finalizers i) final = true →
  id_of i ≠ "" → GenerateMD5ForSpec (co_Spec i) = inl hash → hash ≠ gr_CurrentHash (co_Status i) →
  updateResource h i w = (w1, Fail e) → Contains (error_Error e) NotFoundString = false →
  reconcile None now i w =
    updateStatusIfNeeded r_requeuePeriod conflictRetries i
      (updateErrStatus (set_gr_CurrentHash hash (co_Status i)) now DatadogSyncStatusUpdateError "UpdatingGenericResource" e)
      (RequeueAfter defaultErrRequeuePeriod) w1.
Proof.
  intros Hh Hts Hf Hid Hhash Hne Hup H404. unfold Reconcile, getHandler. rewrite Hh. cbn.
  unfold HandleFinalizer. rewrite Hts, Hf. cbn. unfold syncResource. rewrite Hhash. unfold decideAction.
  rewrite bool_decide_false by done. rewrite (bool_decide_true (_ ≠ _)) by done.
  unfold mbind, GoM_bind, mret, GoM_ret. cbv beta iota. change (ShouldReturn zeroResult None) with false.
  cbv beta iota zeta. rewrite (update_fails i _ now hash w w1 e) by done. reflexivity.
Qed.

(** A failed update is not tried again before the forced sync: its hash was
    recorded, so that the reconcile five seconds later leaves the resource
    alone. *)
Lemma failed_update_waits_for_force_sync now i w w1 w' e hash res :
  handlers !! gr_Type (co_Spec i) = Some h →
  stored w !! co_key i = Some i →
  DeletionTimestamp_IsZero i = true → ContainsFinalizer (co_Finalizers i) final = true →
  id_of i ≠ "" → GenerateMD5ForSpec (co_Spec i) = inl hash → hash ≠ gr_CurrentHash (co_Status i) →
  updateResource h i w = (w1, Fail e) → Contains (error_Error e) NotFoundString = false →
  reconcile None now i w = (w', Ret (res, None)) → res_Requeue res = false →
  res = RequeueAfter defaultErrRequeuePeriod ∧
  ∃ o, stored w' !! co_key i = Some o ∧ gr_SyncStatus (co_Status o) = DatadogSyncStatusUpdateError ∧
    ∀ later, due r_forceSyncPeriod later (gr_LastForceSyncTime (co_Status i)) = false →
             due r_requeuePeriod later (gr_StateLastUpdateTime (co_Status i)) = false →
             reconcile None later o w' = (w', Ret (RequeueAfter r_requeuePeriod, None)).
Proof.
  intros Hh Hst Hts Hf Hid Hhash Hne Hup H404 Hrun Hreq.
  rewrite (reconcile_update_fails now i w w1 e hash) in Hrun by done.
  pose proof (wp_run _ _ _ _ _ Hrun (wp_updateStatusIfNeeded _ _ _ _ (RequeueAfter defaultErrRequeuePeriod) w1 eq_refl)) as Hw.
  pose proof (handler_update i w) as Hl. rewrite Hup in Hl. cbn in Hl.
  destruct Hw as [([= ->] & [[Heq _]|(_ & Hm & o & Ho & Hos)])|(res1 & err1 & [= -> <-] & Hreq1 & _)]; [..|congruence].
  { apply (f_equal gr_CurrentHash) in Heq. cbn in Heq. congruence. }
  split; [done|]. exists o. split; [done|]. rewrite Hos. split; [done|].
  assert (Hmeta : meta o = meta i).
  { apply (f_equal (lookup (co_key i))) in Hm. unfold metas in Hm. rewrite !lookup_fmap, Ho in Hm.
    rewrite (view_stored _ _ Hl), Hst in Hm. cbn in Hm. congruence. }
  unfold meta in Hmeta. injection Hmeta as Hd Hfi Hsp. intros later Hd1 Hd2.
  apply reconcile_idle; rewrite ?Hsp, ?Hfi, ?Hos; try done.
  unfold DeletionTimestamp_IsZero in *. by rewrite Hd.
Qed.

(** C37: a remote resource is not orphaned.  When a reconcile takes the
    finalizer off the stored object, whatever the client answers, the object was
    being deleted and the resource whose ID its status has does not exist any
    more (or there never was one). *)
Theorem remote_resource_not_orphaned credErr now i w w' out :
  handlers !! gr_Type (co_Spec i) = Some h →
  finalizer_stored w (co_key i) final = true →
  reconcile credErr now i w = (w', out) →
  finalizer_stored w' (co_key i) final = false →
  DeletionTimestamp_IsZero i = false ∧ (id_of i = "" ∨ id_of i ∉ existing w').
Proof.
  intros Hh Hf Hrun Hf'. pose proof (wp_run _ _ _ _ _ Hrun (wp_Reconcile credErr now i w Hh)) as Hwp.
  destruct Hwp as [(e & _ & -> & _)|[(res & err & _ & _ & Hfin & _)|(_ & w1 & st & result & _ & Hw & Hact)]].
  - congruence.
  - destruct (Hfin Hf Hf') as [? [? _]]. done.
  - exfalso. apply status_answered_frame in Hw as [_ Hm]. rewrite (metas_finalizer _ _ _ _ Hm) in Hf'.
    assert (Hst : stored w1 = stored w) by (destruct (GenerateMD5ForSpec _); [apply Hact|apply view_stored, Hact]).
    unfold finalizer_stored in *. rewrite Hst in Hf'. congruence.
Qed.

(** C38: a resource is not created twice.  As long as the resource whose ID
    the status has exists, a reconcile of an object whose spec decodes creates no
    other one, whatever calls fail: not on a changed spec, not on a forced sync,
    and not when its update fails. *)
Theorem existing_resource_not_duplicated credErr now i w w' out :
  handlers !! gr_Type (co_Spec i) = Some h →
  id_of i ≠ "" → id_of i ∈ existing w → decodes i →
  reconcile credErr now i w = (w', out) →
  existing w' ⊆ existing w.
Proof.
  intros Hh Hne Hin Hd Hrun. pose proof (wp_run _ _ _ _ _ Hrun (wp_Reconcile credErr now i w Hh)) as Hwp.
  destruct Hwp as [(e & _ & -> & _)|[(res & err & _ & _ & _ & [Hr|[_ Hsub]] & _)|(_ & w1 & st & result & _ & Hw & Hact)]].
  - done.
  - by rewrite Hr.
  - done.
  - destruct (GenerateMD5ForSpec _) as [hash|e].
    + destruct (acted_answered _ _ _ _ _ _ _ _ Hact Hw) as [-> _].
      destruct Hact as [_ [[-> _]|(_ & _ & _ & [?|Hno])] _]; [done..|]. by destruct (Hno Hd).
    + destruct Hact as [Hv _]. apply status_answered_frame in Hw as [-> _]. by rewrite (view_remote _ _ Hv).
Qed.

(** The ID of a created resource is recorded.  If a resource exists
    after a reconcile that did not before, and the reconcile neither failed nor
    asked to be requeued at once, then the status stored for the object has its
    ID: the next reconcile will find it. *)
Theorem created_resource_is_recorded credErr now i w w' res id :
  handlers !! gr_Type (co_Spec i) = Some h →
  co_Status <$> stored w !! co_key i = Some (co_Status i) →
  reconcile credErr now i w = (w', Ret (res, None)) → res_Requeue res = false →
  id ∈ existing w' → id ∉ existing w →
  gr_Id ∘ co_Status <$> stored w' !! co_key i = Some id.
Proof.
  intros Hh Hfresh Hrun Hreq Hin Hout. pose proof (wp_run _ _ _ _ _ Hrun (wp_Reconcile credErr now i w Hh)) as Hwp.
  destruct Hwp as [(e & _ & -> & _)|[(res' & err & _ & _ & _ & [Hr|[_ Hsub]] & _)|(_ & w1 & st & result & _ & Hw & Hact)]].
  - done.
  - rewrite Hr in Hin. done.
  - set_solver.
  - destruct (GenerateMD5ForSpec _) as [hash|e].
    + destruct (acted_answered _ _ _ _ _ _ _ _ Hact Hw) as [He _]. rewrite He in Hin.
      destruct Hact as [Hst [[He1 _]|(He1 & Hnew & _)] _]; rewrite He1 in Hin; [done|].
      assert (id = gr_Id st) as -> by set_solver.
      destruct Hw as [(_ & [[Heq ->]|(_ & _ & o & Ho & <-)])|(res1 & err1 & Eout & Hreq1 & _)].
      * rewrite Hst. destruct (stored w !! co_key i) as [o|]; [|done].
        injection Hfresh as E. cbn. by rewrite E, Heq.
      * by rewrite Ho.
      * simplify_eq. congruence.
    + destruct Hact as [Hv _]. apply status_answered_frame in Hw as [Hr _].
      by rewrite Hr, (view_remote _ _ Hv) in Hin.
Qed.

(** The status is truthful.  After a reconcile of an object that is
    not being deleted which neither failed nor asked to be requeued at once, a
    stored status that says [OK] has the hash of the spec: what was sent to
    Datadog is this spec. *)
Theorem synced_status_is_current credErr now i w w' res hash st :
  handlers !! gr_Type (co_Spec i) = Some h →
  co_Status <$> stored w !! co_key i = Some (co_Status i) →
  DeletionTimestamp_IsZero i = true →
  GenerateMD5ForSpec (co_Spec i) = inl hash →
  reconcile credErr now i w = (w', Ret (res, None)) → res_Requeue res = false →
  co_Status <$> stored w' !! co_key i = Some st → gr_SyncStatus st = DatadogSyncStatusOK →
  gr_CurrentHash st = hash.
Proof.
  intros Hh Hfresh Hts Hhash Hrun Hreq Hst Hok. pose proof (wp_run _ _ _ _ _ Hrun (wp_Reconcile credErr now i w Hh)) as Hwp.
  destruct Hwp as [(e & _ & _ & err & [=])|[(res' & err & [= -> <-] & _ & _ & _ & Hdel)|(_ & w1 & st1 & result & _ & Hw & Hact)]].
  { rewrite Hdel in Hts; done. }
  rewrite Hhash in Hact. destruct Hact as [Hs1 _ Hok1].
  destruct Hw as [(_ & [[Heq ->]|(_ & _ & o & Ho & Ho')])|(res1 & err1 & [= -> <-] & Hreq1 & _)]; [..|congruence].
  - rewrite Hs1, Hfresh in Hst. injection Hst as <-. subst st1. by apply Hok1.
  - rewrite Ho in Hst. injection Hst as <-. rewrite Ho' in *. by apply Hok1.
Qed.

(** An unchanged resource is left alone.  When the object is not being
    deleted and has its finalizer, its status has an ID and the hash of its spec,
    and neither the forced sync nor the refresh of the state is due, a reconcile
    calls neither the API server nor Datadog, and comes back after the requeue
    period. *)
Theorem unchanged_resource_left_alone now i w :
  handlers !! gr_Type (co_Spec i) = Some h →
  DeletionTimestamp_IsZero i = true → ContainsFinalizer (co_Finalizers i) final = true →
  id_of i ≠ "" → GenerateMD5ForSpec (co_Spec i) = inl (gr_CurrentHash (co_Status i)) →
  due r_forceSyncPeriod now (gr_LastForceSyncTime (co_Status i)) = false →
  due r_requeuePeriod now (gr_StateLastUpdateTime (co_Status i)) = false →
  reconcile None now i w = (w, Ret (RequeueAfter r_requeuePeriod, None)).
Proof. by apply reconcile_idle. Qed.
End Reconcile.

(** ** Stale objects *)

Section Stale.
Context `{!ReliableWorld W DatadogGenericResourceSpec DatadogGenericResourceStatus R}.
Context (r_requeuePeriod : Duration) (conflictRetries : nat).

Lemma retryStatus_reliable key st w old :
  stored w !! key = Some old → co_key old = key →
  ∃ w', retryStatus key st w = (w', Ret tt) ∧ co_Status <$> stored w' !! key = Some st.
Proof.
  intros Hold Hk. unfold retryStatus. destruct (reliable_Get key w old Hold Hk) as [w1 E1].
  pose proof (world_Get key w) as Hg. rewrite E1 in Hg. destruct Hg as (Hv1 & _ & _).
  rewrite (GoM_bind_Ret _ _ _ _ _ E1). case_bool_decide as Hst.
  { exists w1. split; [done|]. rewrite (view_stored _ _ Hv1), Hold. cbn. by rewrite Hst. }
  destruct (reliable_StatusUpdate (set_co_Status st old) w1 old) as (w2 & out & E2 & Hout).
  { by rewrite (view_stored _ _ Hv1), <-Hold, <-Hk. }
  rewrite bool_decide_true in Hout by done. destruct Hout as [o' ->].
  exists w2. rewrite (GoM_bind_Ret _ _ _ _ _ E2). split; [done|].
  pose proof (world_StatusUpdate (set_co_Status st old) w1) as Hu. rewrite E2 in Hu.
  destruct Hu as (old' & rv & _ & _ & -> & Hv2). unfold stored. rewrite Hv2. cbn. rewrite <-Hk.
  change (co_key (set_co_Status st old)) with (co_key old). by rewrite lookup_insert_eq.
Qed.

(** However stale the object in hand is, its new status is written to the
    object that is stored. *)
Lemma reliable_status_write i st result w old :
  stored w !! co_key i = Some old → co_key old = co_key i → co_Status i ≠ st →
  ∃ w', updateStatusIfNeeded r_requeuePeriod conflictRetries i st result w = (w', Ret (result, None)) ∧
        co_Status <$> stored w' !! co_key i = Some st.
Proof.
  intros Hold Hk Hne. unfold updateStatusIfNeeded. rewrite bool_decide_false by done.
  destruct (reliable_StatusUpdate (set_co_Status st i) w old Hold) as (w1 & out & E1 & Hout).
  pose proof (world_StatusUpdate (set_co_Status st i) w) as Hu. rewrite E1 in Hu.
  case_bool_decide as Hrv; destruct Hout as [x Hx].
  - subst out. destruct Hu as (old' & rv & _ & _ & -> & Hv1).
    exists w1. unfold mbind, GoM_bind, attempt. rewrite E1. split; [done|]. unfold stored. rewrite Hv1. cbn.
    change (co_key (set_co_Status st i)) with (co_key i). by rewrite lookup_insert_eq.
  - destruct Hx as [-> Hc]. cbn in Hu. rewrite <-(view_stored _ _ Hu) in Hold.
    destruct (retryStatus_reliable (co_key i) st w1 old Hold Hk) as (w2 & E2 & Hst). exists w2. split; [|done].
    unfold mbind, GoM_bind, attempt at 1. rewrite E1. cbn. rewrite Hc.
    unfold attempt. by rewrite (retryOnError_Ret _ _ _ _ _ _ E2).
Qed.
End Stale.

Section StatusWritten.
Context (r_requeuePeriod : Duration) (conflictRetries : nat).

(** C39: a status write survives conflicts, and its answer is true.  Whatever
    calls fail, it answers with the reconcile's result only when the new status
    was there or has been written to the stored object; else it asks for a requeue,
    and nothing was written.  An update that fails other than with a conflict is
    not tried again.  And when no call fails but for the conflicts of a stale
    object, however stale the object in hand is, the new status (and with it the ID
    of a resource just created) is written to the stored one, and the reconcile's
    result stands. *)
Theorem stale_status_is_written i st result w :
  res_Requeue result = false →
  let run := updateStatusIfNeeded r_requeuePeriod conflictRetries i st result w in
  status_answered i st result w run.1 run.2 ∧
  (∀ w1 e, co_Status i ≠ st → client_StatusUpdate (set_co_Status st i) w = (w1, Fail e) → IsConflict e = false →
     run = (w1, Ret (mkResult true r_requeuePeriod (res_Priority result), Some e))) ∧
  (∀ (_ : ReliableWorld W DatadogGenericResourceSpec DatadogGenericResourceStatus R) old,
     stored w !! co_key i = Some old → co_key old = co_key i → co_Status i ≠ st →
     run.2 = Ret (result, None) ∧ co_Status <$> stored run.1 !! co_key i = Some st).
Proof.
  intros Hres run. split_and!.
  - by apply wp_updateStatusIfNeeded.
  - intros w1 e Hst E Hc. unfold run, updateStatusIfNeeded. rewrite bool_decide_false by done.
    unfold mbind, GoM_bind, attempt. rewrite E, Hc. cbn. by rewrite Hc.
  - intros Hrel old Hold Hk Hne. destruct (reliable_status_write r_requeuePeriod conflictRetries i st result w old) as (w' & E & Hst);
      [done..|]. unfold run. by rewrite E.
Qed.
End StatusWritten.
End Generic.
