(* ===== verification/SLOController.v ===== *)
(** * The DatadogSLO controller.

    Models [api/datadoghq/v1alpha1/datadogslo_types.go] and
    [datadogslo_validation.go], and [internal/controller/datadogslo]
    ([controller.go], [slo.go]): the validation of a spec, the requests built
    from it, the reconcile and the deletion.  Quantities and floating point
    numbers are a parameter. *)

From Stdlib Require Import ZArith.
From stdpp Require Import base gmap strings list pretty.
From S2P Require Import Prelude GoRun Cluster Status Remote Handlers.

(** [resource.Quantity] and [float64]: the approximate value, that of the
    decimal, and comparison with integers. *)
Class QuantityOps := {
  Quantity : Type;
  Float64 : Type;
  Quantity_eq_dec :: EqDecision Quantity;
  AsApproximateFloat64 : Quantity → Float64;
  (** [strconv.ParseFloat(q.AsDec().String(), 64)], its error ignored. *)
  DecFloat64 : Quantity → Float64;
  float_le_Z : Float64 → Z → bool;
  float_ge_Z : Float64 → Z → bool
}.

(** A Go [errors.NewAggregate] of the validations: nil when there is none. *)
Definition NewAggregate (errs : list string) : option error :=
  match errs with
  | [] => None
  | [msg] => Some (Errorf msg)
  | msgs => Some (Errorf ("[" +:+ foldr (λ a b, if bool_decide (b = "") then a else a +:+ ", " +:+ b) "" msgs +:+ "]"))
  end.

(** [if cond { errs = append(errs, fmt.Errorf(msg)) }] *)
Definition errIf (cond : bool) (msg : string) : list string := if cond then [msg] else [].

(** The force sync period of an environment variable: any number of minutes. *)
Definition forceSyncPeriodOf (env : option string) : Duration :=
  match env with
  | None => defaultForceSyncPeriod
  | Some v => match Atoi v with inr _ => defaultForceSyncPeriod | inl n => wrap64 (n * Minute) end
  end.

Module SLO.

Definition DatadogSLOTypeMetric : string := "metric".
Definition DatadogSLOTypeMonitor : string := "monitor".
Definition DatadogSLOTypeTimeSlice : string := "time_slice".

Definition SLOType_IsValid (t : string) : bool :=
  bool_decide (t = DatadogSLOTypeMetric) || bool_decide (t = DatadogSLOTypeMonitor)
  || bool_decide (t = DatadogSLOTypeTimeSlice).

Section Types.
Context `{QuantityOps}.

Record DatadogSLOQuery := mkSLOQuery { q_Numerator : string; q_Denominator : string }.
Record DatadogSLOTimeSlice := mkSLOTimeSlice { ts_Query : string; ts_Comparator : string; ts_Threshold : Quantity }.

Record DatadogSLOSpec := mkSLOSpec {
  sp_Name : string;
  sp_Description : option string;
  sp_Groups : list string;
  sp_MonitorIDs : list Z;
  sp_Tags : list string;
  sp_Query : option DatadogSLOQuery;
  sp_TimeSlice : option DatadogSLOTimeSlice;
  sp_Type : string;
  sp_Timeframe : string;
  sp_TargetThreshold : Quantity;
  sp_WarningThreshold : option Quantity;
  (** [ControllerOptions.DisableRequiredTags] *)
  sp_ControllerOptions : option (option bool)
}.

Record DatadogSLOStatus := mkSLOStatus {
  st_Conditions : list Condition;
  st_ID : string;
  st_Creator : string;
  st_Created : option Time;
  st_SyncStatus : string;
  st_LastForceSyncTime : option Time;
  st_CurrentHash : string
}.

#[export] Instance DatadogSLOStatus_eq_dec : EqDecision DatadogSLOStatus.
Proof. solve_decision. Defined.

Definition outOfRange (q : Quantity) : bool :=
  float_le_Z (AsApproximateFloat64 q) 0 || float_ge_Z (AsApproximateFloat64 q) 100.

Definition IsValidDatadogSLO (spec : DatadogSLOSpec) : option error :=
  let isType t := bool_decide (sp_Type spec = t) in
  NewAggregate (
    errIf (bool_decide (sp_Name spec = "")) "spec.Name must be defined" ++
    errIf (isType "") "spec.Type must be defined" ++
    errIf (negb (isType "") && negb (SLOType_IsValid (sp_Type spec)))
      "spec.Type must be one of the values: monitor, metric, or time_slice" ++
    errIf (isType DatadogSLOTypeMetric && bool_decide (sp_Query spec = None))
      "spec.Query must be defined when spec.Type is metric" ++
    errIf (isType DatadogSLOTypeMonitor && bool_decide (sp_MonitorIDs spec = []))
      "spec.MonitorIDs must be defined when spec.Type is monitor" ++
    (if isType DatadogSLOTypeTimeSlice then
       match sp_TimeSlice spec with
       | None => ["spec.TimeSlice must be defined when spec.Type is time_slice"]
       | Some ts => errIf (bool_decide (ts_Query ts = "")) "spec.TimeSlice.Query must be defined"
       end
     else []) ++
    errIf (isType DatadogSLOTypeMetric && bool_decide (is_Some (sp_TimeSlice spec)))
      "spec.TimeSlice must not be defined when spec.Type is metric" ++
    errIf (isType DatadogSLOTypeMonitor && bool_decide (is_Some (sp_TimeSlice spec)))
      "spec.TimeSlice must not be defined when spec.Type is monitor" ++
    errIf (isType DatadogSLOTypeTimeSlice && bool_decide (is_Some (sp_Query spec)))
      "spec.Query must not be defined when spec.Type is time_slice" ++
    errIf (isType DatadogSLOTypeTimeSlice && negb (bool_decide (sp_MonitorIDs spec = [])))
      "spec.MonitorIDs must not be defined when spec.Type is time_slice" ++
    errIf (outOfRange (sp_TargetThreshold spec)) "spec.TargetThreshold must be greater than 0 and less than 100" ++
    errIf (match sp_WarningThreshold spec with Some q => outOfRange q | None => false end)
      "spec.WarningThreshold must be greater than 0 and less than 100" ++
    errIf (negb (bool_decide (sp_Timeframe spec ∈ ["7d"; "30d"; "90d"])))
      "spec.Timeframe must be defined as one of the values: 7d, 30d, or 90d"
  ).

(** ** The requests *)

Record SLOThreshold := mkSLOThreshold { th_Target : Float64; th_Timeframe : string; th_Warning : option Float64 }.

(** A time slice condition over one metric query, named by a formula. *)
Record SLOSliSpec := mkSLOSliSpec {
  sli_Comparator : string;
  sli_Formulas : list string;
  sli_Queries : list (string * string * string);   (* data source, name, query *)
  sli_Threshold : Float64
}.

Record ServiceLevelObjectiveQuery := mkServiceLevelObjectiveQuery { slq_Denominator : string; slq_Numerator : string }.

(** The two types of the API client, each with its setters; a description set to
    nil is [Some None]. *)
Record ServiceLevelObjectiveRequest := mkSLORequest {
  req_Name : string;
  req_Thresholds : list SLOThreshold;
  req_Type : string;
  req_Description : option (option string);
  req_Tags : list string;
  req_Query : option ServiceLevelObjectiveQuery;
  req_MonitorIds : option (list Z);
  req_Groups : option (list string);
  req_SliSpecification : option SLOSliSpec
}.

Definition req_SetDescription (x : string) (r : ServiceLevelObjectiveRequest) : ServiceLevelObjectiveRequest :=
  mkSLORequest (req_Name r) (req_Thresholds r) (req_Type r) (Some (Some x)) (req_Tags r) (req_Query r) (req_MonitorIds r) (req_Groups r) (req_SliSpecification r).
Definition req_SetDescriptionNil (r : ServiceLevelObjectiveRequest) : ServiceLevelObjectiveRequest :=
  mkSLORequest (req_Name r) (req_Thresholds r) (req_Type r) (Some None) (req_Tags r) (req_Query r) (req_MonitorIds r) (req_Groups r) (req_SliSpecification r).
Definition req_SetTags (x : list string) (r : ServiceLevelObjectiveRequest) : ServiceLevelObjectiveRequest :=
  mkSLORequest (req_Name r) (req_Thresholds r) (req_Type r) (req_Description r) x (req_Query r) (req_MonitorIds r) (req_Groups r) (req_SliSpecification r).
Definition req_SetQuery (x : ServiceLevelObjectiveQuery) (r : ServiceLevelObjectiveRequest) : ServiceLevelObjectiveRequest :=
  mkSLORequest (req_Name r) (req_Thresholds r) (req_Type r) (req_Description r) (req_Tags r) (Some x) (req_MonitorIds r) (req_Groups r) (req_SliSpecification r).
Definition req_SetMonitorIds (x : list Z) (r : ServiceLevelObjectiveRequest) : ServiceLevelObjectiveRequest :=
  mkSLORequest (req_Name r) (req_Thresholds r) (req_Type r) (req_Description r) (req_Tags r) (req_Query r) (Some x) (req_Groups r) (req_SliSpecification r).
Definition req_SetGroups (x : list string) (r : ServiceLevelObjectiveRequest) : ServiceLevelObjectiveRequest :=
  mkSLORequest (req_Name r) (req_Thresholds r) (req_Type r) (req_Description r) (req_Tags r) (req_Query r) (req_MonitorIds r) (Some x) (req_SliSpecification r).
Definition req_SetSliSpecification (x : SLOSliSpec) (r : ServiceLevelObjectiveRequest) : ServiceLevelObjectiveRequest :=
  mkSLORequest (req_Name r) (req_Thresholds r) (req_Type r) (req_Description r) (req_Tags r) (req_Query r) (req_MonitorIds r) (req_Groups r) (Some x).
Definition NewServiceLevelObjectiveRequest (name : string) (thresholds : list SLOThreshold) (type : string) : ServiceLevelObjectiveRequest :=
  mkSLORequest name thresholds type None [] None None None None.

Record ServiceLevelObjective := mkSLO {
  slo_Name : string;
  slo_Thresholds : list SLOThreshold;
  slo_Type : string;
  slo_Description : option (option string);
  slo_Tags : list string;
  slo_Query : option ServiceLevelObjectiveQuery;
  slo_MonitorIds : option (list Z);
  slo_Groups : option (list string);
  slo_SliSpecification : option SLOSliSpec
}.

Definition slo_SetDescription (x : string) (r : ServiceLevelObjective) : ServiceLevelObjective :=
  mkSLO (slo_Name r) (slo_Thresholds r) (slo_Type r) (Some (Some x)) (slo_Tags r) (slo_Query r) (slo_MonitorIds r) (slo_Groups r) (slo_SliSpecification r).
Definition slo_SetDescriptionNil (r : ServiceLevelObjective) : ServiceLevelObjective :=
  mkSLO (slo_Name r) (slo_Thresholds r) (slo_Type r) (Some None) (slo_Tags r) (slo_Query r) (slo_MonitorIds r) (slo_Groups r) (slo_SliSpecification r).
Definition slo_SetTags (x : list string) (r : ServiceLevelObjective) : ServiceLevelObjective :=
  mkSLO (slo_Name r) (slo_Thresholds r) (slo_Type r) (slo_Description r) x (slo_Query r) (slo_MonitorIds r) (slo_Groups r) (slo_SliSpecification r).
Definition slo_SetQuery (x : ServiceLevelObjectiveQuery) (r : ServiceLevelObjective) : ServiceLevelObjective :=
  mkSLO (slo_Name r) (slo_Thresholds r) (slo_Type r) (slo_Description r) (slo_Tags r) (Some x) (slo_MonitorIds r) (slo_Groups r) (slo_SliSpecification r).
Definition slo_SetMonitorIds (x : list Z) (r : ServiceLevelObjective) : ServiceLevelObjective :=
  mkSLO (slo_Name r) (slo_Thresholds r) (slo_Type r) (slo_Description r) (slo_Tags r) (slo_Query r) (Some x) (slo_Groups r) (slo_SliSpecification r).
Definition slo_SetGroups (x : list string) (r : ServiceLevelObjective) : ServiceLevelObjective :=
  mkSLO (slo_Name r) (slo_Thresholds r) (slo_Type r) (slo_Description r) (slo_Tags r) (slo_Query r) (slo_MonitorIds r) (Some x) (slo_SliSpecification r).
Definition slo_SetSliSpecification (x : SLOSliSpec) (r : ServiceLevelObjective) : ServiceLevelObjective :=
  mkSLO (slo_Name r) (slo_Thresholds r) (slo_Type r) (slo_Description r) (slo_Tags r) (slo_Query r) (slo_MonitorIds r) (slo_Groups r) (Some x).
Definition NewServiceLevelObjective (name : string) (thresholds : list SLOThreshold) (type : string) : ServiceLevelObjective :=
  mkSLO name thresholds type None [] None None None None.

Context (NewSLOTimeframeFromValue : string → option string).

Definition buildSliSpecification {S : Type} (ts : option DatadogSLOTimeSlice) : GoM S SLOSliSpec :=
  ts ← deref ts;
  mret (mkSLOSliSpec (ts_Comparator ts) ["query1"] [("metrics", "query1", ts_Query ts)] (DecFloat64 (ts_Threshold ts))).

Definition buildThreshold {S : Type} (sloSpec : DatadogSLOSpec) : GoM S (list SLOThreshold) :=
  timeframe ← deref (NewSLOTimeframeFromValue (sp_Timeframe sloSpec));
  mret [mkSLOThreshold (DecFloat64 (sp_TargetThreshold sloSpec)) timeframe (DecFloat64 <$> sp_WarningThreshold sloSpec)].

(** The request that creates the SLO. *)
Definition buildSLORequest {S : Type} (spec : DatadogSLOSpec) : GoM S ServiceLevelObjectiveRequest :=
  thresholds ← buildThreshold spec;
  let r := NewServiceLevelObjectiveRequest (sp_Name spec) thresholds (sp_Type spec) in
  let r := match sp_Description spec with
           | Some description => req_SetDescription description r
           | None => req_SetDescriptionNil r
           end in
  let r := req_SetTags (sp_Tags spec) r in
  r ← (if bool_decide (sp_Type spec = DatadogSLOTypeMetric) then
         query ← deref (sp_Query spec);
         mret (req_SetQuery (mkServiceLevelObjectiveQuery (q_Denominator query) (q_Numerator query)) r)
       else mret r);
  let r := if bool_decide (sp_Type spec = DatadogSLOTypeMonitor)
           then req_SetGroups (sp_Groups spec) (req_SetMonitorIds (sp_MonitorIDs spec) r) else r in
  if bool_decide (sp_Type spec = DatadogSLOTypeTimeSlice) then
    sli ← buildSliSpecification (sp_TimeSlice spec);
    mret (req_SetSliSpecification sli r)
  else mret r.

(** The SLO that updates it, built by code of its own. *)
Definition buildSLOUpdate {S : Type} (spec : DatadogSLOSpec) : GoM S ServiceLevelObjective :=
  thresholds ← buildThreshold spec;
  let r := NewServiceLevelObjective (sp_Name spec) thresholds (sp_Type spec) in
  let r := match sp_Description spec with
           | Some description => slo_SetDescription description r
           | None => slo_SetDescriptionNil r
           end in
  let r := slo_SetTags (sp_Tags spec) r in
  r ← (if bool_decide (sp_Type spec = DatadogSLOTypeMetric) then
         query ← deref (sp_Query spec);
         mret (slo_SetQuery (mkServiceLevelObjectiveQuery (q_Denominator query) (q_Numerator query)) r)
       else mret r);
  let r := if bool_decide (sp_Type spec = DatadogSLOTypeMonitor)
           then slo_SetGroups (sp_Groups spec) (slo_SetMonitorIds (sp_MonitorIDs spec) r) else r in
  if bool_decide (sp_Type spec = DatadogSLOTypeTimeSlice) then
    sli ← buildSliSpecification (sp_TimeSlice spec);
    mret (slo_SetSliSpecification sli r)
  else mret r.

Definition buildSLO {S : Type} (spec : DatadogSLOSpec) : GoM S (ServiceLevelObjectiveRequest * ServiceLevelObjective) :=
  sloReq ← buildSLORequest spec;
  slo ← buildSLOUpdate spec;
  mret (sloReq, slo).
End Types.

(** ** The API *)

Record SLOCreated := mkSLOCreated { sc_Id : string; sc_CreatorEmail : string; sc_CreatedAt : Z }.

Class SLOClient (W : Type) `{QuantityOps} := {
  slo_Create : ServiceLevelObjectiveRequest → GoM W (list SLOCreated);
  slo_Get : string → GoM W unit;
  slo_Update : string → ServiceLevelObjective → GoM W unit;
  slo_Delete : string → string → GoM W (option Z * option error);
  metav1_Unix : Z → Time
}.

Definition DatadogSLOSyncStatusOK : string := "OK".
Definition DatadogSLOSyncStatusValidateError : string := "error validating SLO".
Definition DatadogSLOSyncStatusUpdateError : string := "error updating SLO".
Definition DatadogSLOSyncStatusCreateError : string := "error creating SLO".

Definition datadogSLOKind : string := "DatadogSLO".
Definition datadogSLOFinalizer : string := "finalizer.slo.datadoghq.com".

Section Status.
Context `{MetaConditions}.

Definition updateErrStatus (status : DatadogSLOStatus) (now : Time) (syncStatus reason : string) (err : error)
    : DatadogSLOStatus :=
  mkSLOStatus (UpdateFailureStatusConditions (st_Conditions status) now DatadogConditionTypeError reason err)
    (st_ID status) (st_Creator status) (st_Created status) syncStatus (st_LastForceSyncTime status)
    (st_CurrentHash status).

Definition set_st_CurrentHash (hash : string) (status : DatadogSLOStatus) : DatadogSLOStatus :=
  mkSLOStatus (st_Conditions status) (st_ID status) (st_Creator status) (st_Created status) (st_SyncStatus status)
    (st_LastForceSyncTime status) hash.

Definition set_st_LastForceSyncTime (t : option Time) (status : DatadogSLOStatus) : DatadogSLOStatus :=
  mkSLOStatus (st_Conditions status) (st_ID status) (st_Creator status) (st_Created status) (st_SyncStatus status)
    t (st_CurrentHash status).
End Status.

Section Reconciler.
Context {W : Type} `{QuantityOps} `{ResourceClient W DatadogSLOSpec DatadogSLOStatus} `{!SLOClient W}.
Context `{ControllerUtil, MetaConditions}.
Context (NewSLOTimeframeFromValue : string → option string).
Context (GenerateMD5ForSpec : DatadogSLOSpec → string + error).
Abbreviation DatadogSLO := (CustomResource DatadogSLOSpec DatadogSLOStatus).
Implicit Types (instance : DatadogSLO) (status : DatadogSLOStatus).

Definition createSLO instance : GoM W SLOCreated :=
  bodies ← buildSLO NewSLOTimeframeFromValue (co_Spec instance);
  data ← translated "error creating SLO" (slo_Create bodies.1);
  deref (head data).

Definition getSLO (sloId : string) : GoM W unit := translated "error getting SLO" (slo_Get sloId).

Definition updateSLO instance : GoM W unit :=
  bodies ← buildSLO NewSLOTimeframeFromValue (co_Spec instance);
  translated "error updating SLO" (slo_Update (st_ID (co_Status instance)) bodies.2).

(** The status code is read of the response, with an error and without. *)
Definition deleteSLO (sloID : string) : GoM W (Z * option error) :=
  r ← slo_Delete sloID "false";
  let '(localVarHTTPResponse, err) := r in
  code ← deref localVarHTTPResponse;
  mret (code, (λ err, translateClientError err "error deleting SLO") <$> err).

Definition buildEventInfo (name ns eventType : string) : EventInfo := BuildEventInfo name ns datadogSLOKind eventType.

Definition deleteResource : DatadogSLO → string → GoM W unit := λ k8sObj datadogID,
  _ ← (if bool_decide (datadogID ≠ "") then
         r ← deleteSLO datadogID;
         let '(httpErrorCode, err) := r in
         match err with
         | Some err => if bool_decide (httpErrorCode ≠ 404%Z) then fail err else mret tt
         | None => mret tt
         end
       else mret tt);
  recordEvent k8sObj (buildEventInfo (co_Name k8sObj) (co_Namespace k8sObj) DeletionEvent).

Definition updateStatusIfNeeded instance status (result : Result) : GoM W (Result * option error) :=
  if bool_decide (co_Status instance = status) then mret (result, None)
  else
    err ← attempt (client_StatusUpdate (set_co_Status status instance));
    match err with
    | inl _ => mret (result, None)
    | inr e => if IsConflict e then mret (mkResult true defaultErrRequeuePeriod None, None)
               else mret (mkResult true defaultRequeuePeriod None, Some e)
    end.

Definition create instance status (now : Time) (hash : string) : GoM W (DatadogSLOStatus * option error) :=
  createdSLO ← attempt (createSLO instance);
  match createdSLO with
  | inr err => mret (updateErrStatus status now DatadogSLOSyncStatusCreateError "CreatingSLO" err, Some err)
  | inl createdSLO =>
      let createdTime := metav1_Unix (sc_CreatedAt createdSLO) in
      let conditions := UpdateStatusConditions (st_Conditions status) now DatadogConditionTypeCreated ConditionTrue
                          "CreatingSLO" "DatadogSLO Created" in
      _ ← recordEvent instance (buildEventInfo (co_Name instance) (co_Namespace instance) CreationEvent);
      mret (mkSLOStatus conditions (sc_Id createdSLO) (sc_CreatorEmail createdSLO) (Some createdTime)
              DatadogSLOSyncStatusOK (Some createdTime) hash, None)
  end.

Definition update instance status (now : Time) (hash : string) : GoM W (DatadogSLOStatus * option error) :=
  let status := set_st_CurrentHash hash status in
  err ← attempt (updateSLO instance);
  match err with
  | inr err => mret (updateErrStatus status now DatadogSLOSyncStatusUpdateError "UpdatingSLO" err, Some err)
  | inl _ =>
      _ ← recordEvent instance (buildEventInfo (co_Name instance) (co_Namespace instance) UpdateEvent);
      let conditions := UpdateStatusConditions (st_Conditions status) now DatadogConditionTypeUpdated ConditionTrue
                          "UpdatingSLO" "DatadogSLO Updated" in
      mret (mkSLOStatus conditions (st_ID status) (st_Creator status) (st_Created status) DatadogSLOSyncStatusOK
              (Some now) (st_CurrentHash status), None)
  end.

Definition set_sp_Tags (tags : list string) (sp : DatadogSLOSpec) : DatadogSLOSpec :=
  mkSLOSpec (sp_Name sp) (sp_Description sp) (sp_Groups sp) (sp_MonitorIDs sp) tags (sp_Query sp) (sp_TimeSlice sp)
    (sp_Type sp) (sp_Timeframe sp) (sp_TargetThreshold sp) (sp_WarningThreshold sp) (sp_ControllerOptions sp).

(** The object as it is after the check, whether tags were added, and an error. *)
Definition checkRequiredTags instance : GoM W (DatadogSLO * (bool + error)) :=
  if bool_decide (sp_ControllerOptions (co_Spec instance) = Some (Some true)) then mret (instance, inl false)
  else
    let tags := sp_Tags (co_Spec instance) in
    let tagsToAdd := GetTagsToAdd tags in
    if bool_decide (tagsToAdd = []) then mret (instance, inl false)
    else
      let instance := set_co_Spec (set_sp_Tags (tags ++ tagsToAdd) (co_Spec instance)) instance in
      r ← attempt (client_Update instance);
      match r with
      | inr err => mret (instance, inr err)
      | inl instance => mret (instance, inl true)
      end.

(** Whether to create, to update or neither, with the status after a forced sync. *)
Definition decideAction (forceSyncPeriod : Duration) instance status (now : Time) (instanceSpecHash : string)
    : GoM W (option bool * DatadogSLOStatus) :=
  let old := co_Status instance in
  if bool_decide (st_ID old = "") then mret (Some true, status)
  else if bool_decide (instanceSpecHash ≠ st_CurrentHash old) then mret (Some false, status)
  else if match st_LastForceSyncTime old with
          | None => true
          | Some last => bool_decide (wrap64 (forceSyncPeriod - Time_Sub now last) ≤ 0)%Z
          end then
    err ← attempt (getSLO (st_ID old));
    let status := set_st_LastForceSyncTime (Some now) status in
    mret match err with
         | inr err => (if Contains (error_Error err) NotFoundString then Some true else None, status)
         | inl _ => (Some false, status)
         end
  else mret (None, status).

(** The reconcile of an instance the finalizer let continue. *)
Definition syncSLO (forceSyncPeriod : Duration) instance (now : Time) (result : Result) : GoM W (Result * option error) :=
  let status := co_Status instance in
  match IsValidDatadogSLO (co_Spec instance) with
  | Some err =>
      updateStatusIfNeeded instance (updateErrStatus status now DatadogSLOSyncStatusValidateError "ValidatingSLO" err) result
  | None =>
      match GenerateMD5ForSpec (co_Spec instance) with
      | inr err =>
          updateStatusIfNeeded instance
            (updateErrStatus status now DatadogSLOSyncStatusUpdateError "GeneratingSLOSpecHash" err) result
      | inl instanceSpecHash =>
          d ← decideAction forceSyncPeriod instance status now instanceSpecHash;
          let '(action, status) := d in
          let finish instance status result :=
            updateStatusIfNeeded instance status
              (if Result_IsZero result then set_RequeueAfter defaultRequeuePeriod result else result) in
          match action with
          | None => finish instance status result
          | Some shouldCreate =>
              t ← checkRequiredTags instance;
              let '(instance, tagsUpdated) := t in
              match tagsUpdated with
              | inr _ => updateStatusIfNeeded instance status (set_RequeueAfter defaultErrRequeuePeriod result)
              | inl true => updateStatusIfNeeded instance status result
              | inl false =>
                  r ← (if shouldCreate : bool then create instance status now instanceSpecHash
                       else update instance status now instanceSpecHash);
                  let '(status, err) := r in
                  finish instance status
                    (if bool_decide (is_Some err) then set_RequeueAfter defaultErrRequeuePeriod result else result)
              end
          end
      end
  end.

(** [env] is the value of [DD_SLO_FORCE_SYNC_PERIOD]. *)
Definition internalReconcile (credErr : option error) (env : option string) (now : Time) (req : string * string)
    : GoM W (Result * option error) :=
  match credErr with
  | Some credErr => mret (RequeueAfter defaultErrRequeuePeriod, Some (Wrapf "unable to get credentials" credErr))
  | None =>
      let forceSyncPeriod := forceSyncPeriodOf env in
      r ← attempt (client_Get req);
      match r with
      | inr err => if IsNotFound err then mret (zeroResult, None) else mret (RequeueAfter defaultErrRequeuePeriod, Some err)
      | inl instance =>
          let final := NewFinalizer deleteResource defaultRequeuePeriod defaultErrRequeuePeriod in
          r ← HandleFinalizer final instance (st_ID (co_Status instance)) datadogSLOFinalizer;
          let '(result, err) := r in
          if ShouldReturn result err then mret (result, err) else syncSLO forceSyncPeriod instance now result
      end
  end.
End Reconciler.
End SLO.
