(* ===== verification/DashboardController.v ===== *)
(** * The DatadogDashboard controller.

    Models [api/datadoghq/v1alpha1/datadogdashboard_types.go] and
    [datadogdashboard_validation.go], and [internal/controller/datadogdashboard]
    ([controller.go], [dashboard.go], [finalizer.go]).  The widgets are decoded
    by a parameter whose error the code ignores.  Building a dashboard sorts the
    tags of the object in place, which no later step reads. *)

From Stdlib Require Import ZArith.
From stdpp Require Import base gmap strings list pretty.
From S2P Require Import Prelude GoRun Cluster Status Remote Handlers SLOController.

Module Dashboard.

(** ** The custom resource *)

Record TemplateVariablePresetValue := mkPresetValue { pv_Name : option string; pv_Values : option (list string) }.
Record TemplateVariablePreset := mkPreset { pr_Name : option string; pr_TemplateVariables : list TemplateVariablePresetValue }.

Record TemplateVariable := mkTemplateVariable {
  tv_AvailableValues : option (list string);
  tv_Defaults : option (list string);
  tv_Name : string;
  tv_Prefix : option string
}.

Record DatadogDashboardSpec := mkDashboardSpec {
  da_Description : string;
  da_LayoutType : string;
  da_NotifyList : option (list string);
  da_ReflowType : option string;
  da_Tags : list string;
  da_TemplateVariablePresets : option (list TemplateVariablePreset);
  da_TemplateVariables : option (list TemplateVariable);
  da_Title : string;
  da_Widgets : string
}.

Record DatadogDashboardStatus := mkDashboardStatus {
  ds_Conditions : list Condition;
  ds_ID : string;
  ds_Creator : string;
  ds_Created : option Time;
  ds_SyncStatus : string;
  ds_CurrentHash : string;
  ds_LastForceSyncTime : option Time
}.

#[export] Instance DatadogDashboardStatus_eq_dec : EqDecision DatadogDashboardStatus.
Proof. solve_decision. Defined.

Definition IsValidDatadogDashboard (spec : DatadogDashboardSpec) : option error :=
  NewAggregate (
    errIf (bool_decide (da_Title spec = "")) "spec.Title must be defined" ++
    errIf (bool_decide (da_LayoutType spec = "")) "spec.LayoutType must be defined").

(** ** The request *)

Record PresetValueBody := mkPresetValueBody { pvb_Name : string; pvb_Values : option (list string) }.
Record PresetBody := mkPresetBody { prb_Name : string; prb_TemplateVariables : list PresetValueBody }.
Record VariableBody := mkVariableBody {
  vb_Name : string; vb_Defaults : option (list string); vb_AvailableValues : option (list string); vb_Prefix : option string
}.

(** The loop [for _, x := range l { l' = append(l', f(x)) }] with an [f] that may panic. *)
Fixpoint mapGo {S A B : Type} (f : A → GoM S B) (l : list A) : GoM S (list B) :=
  match l with
  | [] => mret []
  | x :: l => y ← f x; ys ← mapGo f l; mret (y :: ys)
  end.

Definition convertTempVarPresets {S : Type} (tempVarPresets : list TemplateVariablePreset) : GoM S (list PresetBody) :=
  mapGo (λ variablePreset,
    name ← deref (pr_Name variablePreset);
    values ← mapGo (λ presetValue, n ← deref (pv_Name presetValue); mret (mkPresetValueBody n (pv_Values presetValue)))
               (pr_TemplateVariables variablePreset);
    mret (mkPresetBody name values)) tempVarPresets.

Definition convertTempVars (tempVars : list TemplateVariable) : list VariableBody :=
  map (λ v, mkVariableBody (tv_Name v) (tv_Defaults v) (tv_AvailableValues v) (tv_Prefix v)) tempVars.

(** The fields set on a [datadogV1.Dashboard]; a description set to nil is
    [Some None]. *)
Record DashboardBody (Widget : Type) := mkDashboardBody {
  db_LayoutType : string;
  db_Title : string;
  db_Widgets : list Widget;
  db_Description : option (option string);
  db_ReflowType : option string;
  db_TemplateVariablePresets : option (list PresetBody);
  db_Tags : list string;
  db_NotifyList : option (list string);
  db_TemplateVariables : option (list VariableBody)
}.
Arguments mkDashboardBody {_} _ _ _ _ _ _ _ _ _.

Record DashboardCreated := mkDashboardCreated { dc_Id : string; dc_CreatedAt : Time; dc_AuthorHandle : string }.

Class DashboardClient (W : Type) := {
  Widget : Type;
  (** What [json.Unmarshal] leaves in the list, whether it fails or not. *)
  json_Widgets : string → list Widget;
  dash_Get : string → GoM W unit;
  dash_Create : DashboardBody Widget → GoM W DashboardCreated;
  dash_Update : string → DashboardBody Widget → GoM W unit;
  dash_Delete : string → GoM W unit
}.

Definition DatadogDashboardSyncStatusOK : string := "OK".
Definition DatadogDashboardSyncStatusValidateError : string := "error validating dashboard".
Definition DatadogDashboardSyncStatusUpdateError : string := "error updating dashboard".
Definition DatadogDashboardSyncStatusCreateError : string := "error creating dashboard".
Definition DatadoggDashboardSyncStatusGetError : string := "error getting dashboard".

Definition datadogDashboardKind : string := "DatadogDashboard".
Definition datadogDashboardFinalizer : string := "finalizer.datadoghq.com/dashboard".

Section Reconciler.
Context {W : Type} `{ResourceClient W DatadogDashboardSpec DatadogDashboardStatus} `{!DashboardClient W}.
Context `{ControllerUtil, MetaConditions}.
Context (GenerateMD5ForSpec : DatadogDashboardSpec → string + error).
Abbreviation DatadogDashboard := (CustomResource DatadogDashboardSpec DatadogDashboardStatus).
Implicit Types (instance : DatadogDashboard) (status : DatadogDashboardStatus).

Definition buildDashboard (ddb : DatadogDashboard) : GoM W (DashboardBody Widget) :=
  let spec := co_Spec ddb in
  presets ← match da_TemplateVariablePresets spec with
            | Some presets => l ← convertTempVarPresets presets; mret (Some l)
            | None => mret None
            end;
  mret (mkDashboardBody (da_LayoutType spec) (da_Title spec) (json_Widgets (da_Widgets spec))
          (Some (if bool_decide (da_Description spec = "") then None else Some (da_Description spec)))
          (da_ReflowType spec) presets (sort_by String.le (da_Tags spec)) (da_NotifyList spec)
          (convertTempVars <$> da_TemplateVariables spec)).

Definition getDashboard (dashboardID : string) : GoM W unit := translated "error creating Dashboard" (dash_Get dashboardID).

Definition createDashboard instance : GoM W DashboardCreated :=
  db ← buildDashboard instance;
  translated "error creating dashboard" (dash_Create db).

Definition updateDashboard instance : GoM W unit :=
  dashboard ← buildDashboard instance;
  translated "error updating dashboard" (dash_Update (ds_ID (co_Status instance)) dashboard).

Definition deleteDashboard (dashboardID : string) : GoM W unit :=
  translated "error deleting Dashboard" (dash_Delete dashboardID).

Definition buildEventInfo (name ns eventType : string) : EventInfo := BuildEventInfo name ns datadogDashboardKind eventType.

(** A failed deletion is logged and no error is returned. *)
Definition deleteResource : DatadogDashboard → string → GoM W unit := λ k8sObj datadogID,
  let event := recordEvent k8sObj (buildEventInfo (co_Name k8sObj) (co_Namespace k8sObj) DeletionEvent) in
  if bool_decide (datadogID ≠ "") then
    err ← attempt (deleteDashboard datadogID);
    match err with inr _ => mret tt | inl _ => event end
  else event.

Definition updateErrStatus status (now : Time) (syncStatus reason : string) (err : error) : DatadogDashboardStatus :=
  mkDashboardStatus (UpdateFailureStatusConditions (ds_Conditions status) now DatadogConditionTypeError reason err)
    (ds_ID status) (ds_Creator status) (ds_Created status) syncStatus (ds_CurrentHash status) (ds_LastForceSyncTime status).

Definition updateStatusIfNeeded instance status (result : Result) : GoM W (Result * option error) :=
  if bool_decide (co_Status instance = status) then mret (result, None)
  else
    err ← attempt (client_StatusUpdate (set_co_Status status instance));
    match err with
    | inl _ => mret (result, None)
    | inr e => if IsConflict e then mret (mkResult true defaultErrRequeuePeriod None, None)
               else mret (mkResult true defaultRequeuePeriod None, Some e)
    end.

Definition create instance status (now : Time) (hash : string) : GoM W (DatadogDashboardStatus * option error) :=
  created ← attempt (createDashboard instance);
  match created with
  | inr err => mret (updateErrStatus status now DatadogDashboardSyncStatusCreateError "CreatingDashboard" err, Some err)
  | inl created =>
      _ ← recordEvent instance (buildEventInfo (co_Name instance) (co_Namespace instance) CreationEvent);
      mret (mkDashboardStatus
              (UpdateStatusConditions (ds_Conditions status) now DatadogConditionTypeCreated ConditionTrue
                 "CreatingDashboard" "DatadogDashboard Created")
              (dc_Id created) (dc_AuthorHandle created) (Some (dc_CreatedAt created)) DatadogDashboardSyncStatusOK hash
              (Some (dc_CreatedAt created)), None)
  end.

Definition update instance status (now : Time) (hash : string) : GoM W (DatadogDashboardStatus * option error) :=
  let status := mkDashboardStatus (ds_Conditions status) (ds_ID status) (ds_Creator status) (ds_Created status)
                  (ds_SyncStatus status) hash (ds_LastForceSyncTime status) in
  err ← attempt (updateDashboard instance);
  match err with
  | inr err => mret (updateErrStatus status now DatadogDashboardSyncStatusUpdateError "UpdatingDasboard" err, Some err)
  | inl _ =>
      _ ← recordEvent instance (buildEventInfo (co_Name instance) (co_Namespace instance) UpdateEvent);
      mret (mkDashboardStatus
              (UpdateStatusConditions (ds_Conditions status) now DatadogConditionTypeUpdated ConditionTrue
                 "UpdatingDashboard" "DatadogDashboard Update")
              (ds_ID status) (ds_Creator status) (ds_Created status) DatadogDashboardSyncStatusOK (ds_CurrentHash status)
              (Some now), None)
  end.

(** Whether to create, to update or neither, with the status after a forced sync. *)
Definition decideAction (forceSyncPeriod : Duration) instance status (now : Time) (instanceSpecHash : string)
    : GoM W (option bool * DatadogDashboardStatus) :=
  let old := co_Status instance in
  if bool_decide (ds_ID old = "") then mret (Some true, status)
  else if bool_decide (instanceSpecHash ≠ ds_CurrentHash old) then mret (Some false, status)
  else if match ds_LastForceSyncTime old with
          | None => true
          | Some last => bool_decide (wrap64 (forceSyncPeriod - Time_Sub now last) ≤ 0)%Z
          end then
    err ← attempt (getDashboard (ds_ID old));
    let '(action, status) :=
      match err with
      | inr err => (if Contains (error_Error err) NotFoundString then Some true else None,
                    updateErrStatus status now DatadoggDashboardSyncStatusGetError "GettingDashboard" err)
      | inl _ => (Some false, status)
      end in
    mret (action, mkDashboardStatus (ds_Conditions status) (ds_ID status) (ds_Creator status) (ds_Created status)
                    (ds_SyncStatus status) (ds_CurrentHash status) (Some now))
  else mret (None, status).

Definition syncDashboard (forceSyncPeriod : Duration) instance (now : Time) (result : Result)
    : GoM W (Result * option error) :=
  let status := co_Status instance in
  match IsValidDatadogDashboard (co_Spec instance) with
  | Some err =>
      updateStatusIfNeeded instance
        (updateErrStatus status now DatadogDashboardSyncStatusValidateError "ValidatingDashboard" err) result
  | None =>
      match GenerateMD5ForSpec (co_Spec instance) with
      | inr err =>
          updateStatusIfNeeded instance
            (updateErrStatus status now DatadogDashboardSyncStatusUpdateError "GeneratingDashboardSpecHash" err) result
      | inl instanceSpecHash =>
          d ← decideAction forceSyncPeriod instance status now instanceSpecHash;
          let '(action, status) := d in
          r ← match action with
              | Some true => create instance status now instanceSpecHash
              | Some false => update instance status now instanceSpecHash
              | None => mret (status, None)
              end;
          let '(status, err) := r in
          let result := if bool_decide (is_Some err) then set_RequeueAfter defaultErrRequeuePeriod result else result in
          updateStatusIfNeeded instance status
            (if Result_IsZero result then set_RequeueAfter defaultRequeuePeriod result else result)
      end
  end.

(** [env] is the value of [DD_DASHBOARD_FORCE_SYNC_PERIOD]. *)
Definition internalReconcile (credErr : option error) (env : option string) (now : Time) (req : string * string)
    : GoM W (Result * option error) :=
  match credErr with
  | Some credErr => mret (RequeueAfter defaultErrRequeuePeriod, Some (Wrapf "unable to get credentials" credErr))
  | None =>
      let forceSyncPeriod := forceSyncPeriodOf env in
      r ← attempt (client_Get req);
      match r with
      | inr err => mret (zeroResult, if IsNotFound err then None else Some err)
      | inl instance =>
          let final := NewFinalizer deleteResource defaultRequeuePeriod defaultErrRequeuePeriod in
          r ← HandleFinalizer final instance (ds_ID (co_Status instance)) datadogDashboardFinalizer;
          let '(result, err) := r in
          if ShouldReturn result err then mret (result, err) else syncDashboard forceSyncPeriod instance now result
      end
  end.
End Reconciler.
End Dashboard.
