(* ===== verification/MonitorController.v ===== *)
(** * The DatadogMonitor controller.

    Models [api/datadoghq/v1alpha1/datadogmonitor_types.go] and
    [datadogmonitor_validation.go], [pkg/controller/utils/condition/datadogmonitor.go]
    and [internal/controller/datadogmonitor] ([controller.go], [monitor.go],
    [finalizer.go], [event.go]).  Building a monitor sorts the tags of the object
    in place, which only the sorted tags of the requests show.  The parsing of a
    threshold is a parameter; a threshold that is not a number is left out. *)

From Stdlib Require Import ZArith.
From stdpp Require Import base gmap strings list pretty.
From S2P Require Import Prelude GoRun Cluster Status Remote Handlers SLOController.

Module Monitor.

(** ** The custom resource *)

Record Thresholds (F : Type) := mkThresholds {
  th_Critical : option F; th_CriticalRecovery : option F; th_OK : option F;
  th_Unknown : option F; th_Warning : option F; th_WarningRecovery : option F
}.
Arguments mkThresholds {_} _ _ _ _ _ _.
Arguments th_Critical {_} _. Arguments th_CriticalRecovery {_} _. Arguments th_OK {_} _.
Arguments th_Unknown {_} _. Arguments th_Warning {_} _. Arguments th_WarningRecovery {_} _.

Record ThresholdWindows := mkThresholdWindows { tw_RecoveryWindow : option string; tw_TriggerWindow : option string }.

Record Recurrence := mkRecurrence { rc_Rrule : option string; rc_Timezone : option string; rc_Start : option string }.
Record EvaluationWindow := mkEvaluationWindow {
  ew_DayStarts : option string; ew_HourStarts : option Z; ew_MonthStarts : option Z
}.

(** The custom schedule is its recurrence. *)
Record SchedulingOptions := mkSchedulingOptions {
  so_CustomSchedule : option Recurrence;
  so_EvaluationWindow : option EvaluationWindow
}.

Record DatadogMonitorOptions := mkMonitorOptions {
  mo_EnableLogsSample : option bool;
  mo_EscalationMessage : option string;
  mo_EvaluationDelay : option Z;
  mo_IncludeTags : option bool;
  mo_GroupRetentionDuration : option string;
  mo_GroupbySimpleMonitor : option bool;
  mo_Locked : option bool;
  mo_NewGroupDelay : option Z;
  mo_NoDataTimeframe : option Z;
  mo_NotificationPresetName : string;
  mo_NotifyAudit : option bool;
  mo_NotifyBy : option (list string);
  mo_NotifyNoData : option bool;
  mo_OnMissingData : string;
  mo_RenotifyInterval : option Z;
  mo_RenotifyOccurrences : option Z;
  mo_RenotifyStatuses : option (list string);
  mo_RequireFullWindow : option bool;
  mo_SchedulingOptions : option SchedulingOptions;
  mo_TimeoutH : option Z;
  mo_Thresholds : option (Thresholds string);
  mo_ThresholdWindows : option ThresholdWindows
}.

Record DatadogMonitorSpec := mkMonitorSpec {
  ms_Name : string;
  ms_Message : string;
  ms_Priority : Z;
  ms_Query : string;
  ms_RestrictedRoles : list string;
  ms_Tags : list string;
  ms_Type : string;
  ms_Options : DatadogMonitorOptions;
  (** [ControllerOptions.DisableRequiredTags] *)
  ms_DisableRequiredTags : option bool
}.

Record DatadogMonitorCondition := mkMonitorCondition {
  mc_Type : string;
  mc_Status : string;
  mc_LastTransitionTime : Time;
  mc_LastUpdateTime : Time;
  mc_Reason : string;
  mc_Message : string
}.

#[export] Instance DatadogMonitorCondition_eq_dec : EqDecision DatadogMonitorCondition.
Proof. solve_decision. Defined.

Record DatadogMonitorTriggeredState := mkTriggeredState {
  tr_MonitorGroup : string;
  tr_State : string;
  tr_LastTransitionTime : Time
}.

#[export] Instance DatadogMonitorTriggeredState_eq_dec : EqDecision DatadogMonitorTriggeredState.
Proof. solve_decision. Defined.

Record DatadogMonitorStatus := mkMonitorStatus {
  mst_Conditions : list DatadogMonitorCondition;
  mst_ID : Z;
  mst_Creator : string;
  mst_Created : option Time;
  mst_MonitorState : string;
  mst_MonitorLastForceSyncTime : option Time;
  mst_MonitorStateLastUpdateTime : option Time;
  mst_MonitorStateLastTransitionTime : option Time;
  mst_MonitorStateSyncStatus : string;
  mst_TriggeredState : list DatadogMonitorTriggeredState;
  mst_DowntimeStatus : bool * Z;
  mst_Primary : bool;
  mst_CurrentHash : string
}.

#[export] Instance DatadogMonitorStatus_eq_dec : EqDecision DatadogMonitorStatus.
Proof. solve_decision. Defined.

Definition MonitorStateSyncStatusOK : string := "OK".
Definition MonitorStateSyncStatusValidateError : string := "error validating monitor".
Definition MonitorStateSyncStatusUpdateError : string := "error updating monitor".
Definition MonitorStateSyncStatusGetError : string := "error getting monitor".

Definition DatadogMonitorStateAlert : string := "Alert".
Definition DatadogMonitorStateWarn : string := "Warn".
Definition DatadogMonitorStateNoData : string := "No Data".

Definition IsValidDatadogMonitor (spec : DatadogMonitorSpec) : option error :=
  NewAggregate (
    errIf (bool_decide (ms_Query spec = "")) "spec.Query must be defined" ++
    errIf (bool_decide (ms_Type spec = "")) "spec.Type must be defined" ++
    errIf (bool_decide (ms_Name spec = "")) "spec.Name must be defined" ++
    errIf (bool_decide (ms_Message spec = "")) "spec.Message must be defined").

Definition supportedMonitorTypes : list string :=
  ["metric alert"; "query alert"; "service check"; "event alert"; "log alert"; "process alert"; "rum alert";
   "trace-analytics alert"; "slo alert"; "event-v2 alert"; "audit alert"; "error-tracking alert"].

Definition isSupportedMonitorType (monitorType : string) : bool := bool_decide (monitorType ∈ supportedMonitorTypes).

(** ** Field updates of a status *)

Section Fields.
Implicit Types st : DatadogMonitorStatus.

Definition set_mst_Conditions (l : list DatadogMonitorCondition) st : DatadogMonitorStatus :=
  mkMonitorStatus l (mst_ID st) (mst_Creator st) (mst_Created st) (mst_MonitorState st) (mst_MonitorLastForceSyncTime st)
    (mst_MonitorStateLastUpdateTime st) (mst_MonitorStateLastTransitionTime st) (mst_MonitorStateSyncStatus st)
    (mst_TriggeredState st) (mst_DowntimeStatus st) (mst_Primary st) (mst_CurrentHash st).

Definition set_mst_SyncStatus (s : string) st : DatadogMonitorStatus :=
  mkMonitorStatus (mst_Conditions st) (mst_ID st) (mst_Creator st) (mst_Created st) (mst_MonitorState st)
    (mst_MonitorLastForceSyncTime st) (mst_MonitorStateLastUpdateTime st) (mst_MonitorStateLastTransitionTime st) s
    (mst_TriggeredState st) (mst_DowntimeStatus st) (mst_Primary st) (mst_CurrentHash st).

Definition set_mst_ID (id : Z) st : DatadogMonitorStatus :=
  mkMonitorStatus (mst_Conditions st) id (mst_Creator st) (mst_Created st) (mst_MonitorState st)
    (mst_MonitorLastForceSyncTime st) (mst_MonitorStateLastUpdateTime st) (mst_MonitorStateLastTransitionTime st)
    (mst_MonitorStateSyncStatus st) (mst_TriggeredState st) (mst_DowntimeStatus st) (mst_Primary st) (mst_CurrentHash st).
End Fields.

(** ** Conditions *)

Definition DatadogMonitorConditionTypeCreated : string := "Created".
Definition DatadogMonitorConditionTypeActive : string := "Active".
Definition DatadogMonitorConditionTypeUpdated : string := "Updated".
Definition DatadogMonitorConditionTypeError : string := "Error".

Definition NewDatadogMonitorCondition (conditionType conditionStatus : string) (now : Time) (reason message : string)
    : DatadogMonitorCondition :=
  mkMonitorCondition conditionType conditionStatus now now reason message.

Definition SetDatadogMonitorCondition (c : DatadogMonitorCondition) (now : Time) (conditionStatus desc : string)
    : DatadogMonitorCondition :=
  if bool_decide (mc_Status c ≠ conditionStatus) then mkMonitorCondition (mc_Type c) conditionStatus now now (mc_Reason c) desc
  else if bool_decide (mc_Message c ≠ desc)
       then mkMonitorCondition (mc_Type c) (mc_Status c) (mc_LastTransitionTime c) now (mc_Reason c) desc
       else c.

(** The index of the first condition of the type, [None] for -1. *)
Fixpoint getIndexForDatadogMonitorConditionType (l : list DatadogMonitorCondition) (t : string) : option nat :=
  match l with
  | [] => None
  | c :: l => if bool_decide (mc_Type c = t) then Some 0 else S <$> getIndexForDatadogMonitorConditionType l t
  end.

Definition UpdateDatadogMonitorConditions (status : DatadogMonitorStatus) (now : Time) (t conditionStatus desc : string)
    : DatadogMonitorStatus :=
  let l := mst_Conditions status in
  match getIndexForDatadogMonitorConditionType l t with
  | Some i => set_mst_Conditions (alter (λ c, SetDatadogMonitorCondition c now conditionStatus desc) i l) status
  | None => if bool_decide (conditionStatus = ConditionTrue)
            then set_mst_Conditions (l ++ [NewDatadogMonitorCondition t conditionStatus now "" desc]) status
            else status
  end.

Definition SetErrorActiveConditions (status : DatadogMonitorStatus) (now : Time) (err : option error)
    : DatadogMonitorStatus :=
  match err with
  | Some err =>
      let status := UpdateDatadogMonitorConditions status now DatadogMonitorConditionTypeError ConditionTrue (error_Error err) in
      UpdateDatadogMonitorConditions status now DatadogMonitorConditionTypeActive ConditionFalse "DatadogMonitor error"
  | None =>
      let status := UpdateDatadogMonitorConditions status now DatadogMonitorConditionTypeError ConditionFalse "" in
      UpdateDatadogMonitorConditions status now DatadogMonitorConditionTypeActive ConditionTrue "DatadogMonitor ready"
  end.

(** ** The requests *)

Record SchedulingBody := mkSchedulingBody {
  sb_CustomSchedule : option (list Recurrence);
  sb_EvaluationWindow : option EvaluationWindow
}.

(** The fields set on [datadogV1.MonitorOptions]. *)
Record OptionsBody (F : Type) := mkOptionsBody {
  ob_Thresholds : Thresholds F;
  ob_ThresholdWindows : option ThresholdWindows;
  ob_EscalationMessage : option string;
  ob_EvaluationDelay : option Z;
  ob_GroupRetentionDuration : option string;
  ob_GroupbySimpleMonitor : option bool;
  ob_IncludeTags : option bool;
  ob_Locked : option bool;
  ob_NewGroupDelay : option Z;
  ob_EnableLogsSample : option bool;
  ob_NoDataTimeframe : option Z;
  ob_NotifyAudit : option bool;
  ob_NotifyBy : option (list string);
  ob_NotifyNoData : option bool;
  ob_RequireFullWindow : option bool;
  ob_RenotifyInterval : option Z;
  ob_RenotifyOccurrences : option Z;
  ob_RenotifyStatuses : option (list string);
  ob_SchedulingOptions : option SchedulingBody;
  ob_TimeoutH : option Z;
  ob_NotificationPresetName : option string;
  ob_OnMissingData : option string
}.
Arguments mkOptionsBody {_} _ _ _ _ _ _ _ _ _ _ _ _ _ _ _ _ _ _ _ _ _ _.

Record MonitorBody (F : Type) := mkMonitorBody {
  mb_Query : string; mb_Type : string; mb_Name : string; mb_Message : string; mb_Priority : Z;
  mb_Options : OptionsBody F; mb_Tags : list string
}.
Arguments mkMonitorBody {_} _ _ _ _ _ _ _.

Record MonitorUpdateBody (F : Type) := mkMonitorUpdateBody {
  ub_Type : string; ub_Name : string; ub_Message : string; ub_Priority : Z; ub_Query : string;
  ub_RestrictedRoles : list string; ub_Options : OptionsBody F; ub_Tags : list string
}.
Arguments mkMonitorUpdateBody {_} _ _ _ _ _ _ _ _.

Definition nonEmpty (s : string) : option string := if bool_decide (s = "") then None else Some s.

Section Build.
Context {F : Type} (ParseFloat : string → option F).

Definition buildThresholds (t : option (Thresholds string)) : Thresholds F :=
  match t with
  | None => mkThresholds None None None None None None
  | Some t => mkThresholds (th_Critical t ≫= ParseFloat) (th_CriticalRecovery t ≫= ParseFloat) (th_OK t ≫= ParseFloat)
                (th_Unknown t ≫= ParseFloat) (th_Warning t ≫= ParseFloat) (th_WarningRecovery t ≫= ParseFloat)
  end.

Definition buildThresholdWindows (w : option ThresholdWindows) : option ThresholdWindows :=
  w ← w;
  if bool_decide (is_Some (tw_RecoveryWindow w)) || bool_decide (is_Some (tw_TriggerWindow w)) then Some w else None.

Definition buildSchedulingOptions (so : SchedulingOptions) : SchedulingBody :=
  mkSchedulingBody ((λ r, [r]) <$> so_CustomSchedule so) (so_EvaluationWindow so).

Definition buildOptions (options : DatadogMonitorOptions) : OptionsBody F :=
  mkOptionsBody (buildThresholds (mo_Thresholds options)) (buildThresholdWindows (mo_ThresholdWindows options))
    (mo_EscalationMessage options) (mo_EvaluationDelay options) (mo_GroupRetentionDuration options)
    (mo_GroupbySimpleMonitor options) (mo_IncludeTags options) (mo_Locked options) (mo_NewGroupDelay options)
    (mo_EnableLogsSample options) (mo_NoDataTimeframe options) (mo_NotifyAudit options) (mo_NotifyBy options)
    (mo_NotifyNoData options) (mo_RequireFullWindow options) (mo_RenotifyInterval options)
    (mo_RenotifyOccurrences options) (mo_RenotifyStatuses options)
    (buildSchedulingOptions <$> mo_SchedulingOptions options) (mo_TimeoutH options)
    (nonEmpty (mo_NotificationPresetName options)) (nonEmpty (mo_OnMissingData options)).

Definition buildMonitor (spec : DatadogMonitorSpec) : MonitorBody F * MonitorUpdateBody F :=
  let o := buildOptions (ms_Options spec) in
  let tags := sort_by String.le (ms_Tags spec) in
  (mkMonitorBody (ms_Query spec) (ms_Type spec) (ms_Name spec) (ms_Message spec) (ms_Priority spec) o tags,
   mkMonitorUpdateBody (ms_Type spec) (ms_Name spec) (ms_Message spec) (ms_Priority spec) (ms_Query spec)
     (ms_RestrictedRoles spec) o tags).
End Build.

(** ** The state of a monitor *)

(** A group of the state: its status and when it last triggered and had no data. *)
Record StateGroup := mkStateGroup { sg_Status : string; sg_LastTriggeredTs : Z; sg_LastNodataTs : Z }.

(** What is read of a [datadogV1.Monitor]; the state and its groups may be unset. *)
Record MonitorRead := mkMonitorRead {
  mr_Id : Z;
  mr_CreatorEmail : string;
  mr_Created : Time;
  mr_State : option (option (gmap string StateGroup));
  mr_OverallState : string
}.

(** [datadogV1.Monitor{}] *)
Definition zeroMonitor : MonitorRead := mkMonitorRead 0 "" 0 None "".

Definition GetMax (val1 val2 : Z) : Z := if bool_decide (val2 ≤ val1)%Z then val1 else val2.

Definition maxTriggeredStateGroups : nat := 10.

Definition isTriggered (groupStatus : string) : bool :=
  bool_decide (groupStatus = DatadogMonitorStateAlert) || bool_decide (groupStatus = DatadogMonitorStateWarn)
  || bool_decide (groupStatus = DatadogMonitorStateNoData).

Definition group_le (a b : DatadogMonitorTriggeredState) : Prop := String.le (tr_MonitorGroup a) (tr_MonitorGroup b).

#[export] Instance group_le_dec : RelDecision group_le.
Proof. intros a b. unfold group_le. apply _. Defined.

Section State.
Context (metav1_Unix : Z → Time).

Definition triggeredOf (p : string * StateGroup) : option DatadogMonitorTriggeredState :=
  let '(group, g) := p in
  if isTriggered (sg_Status g)
  then Some (mkTriggeredState group (sg_Status g) (metav1_Unix (GetMax (sg_LastTriggeredTs g) (sg_LastNodataTs g))))
  else None.

(** The triggered groups, sorted by name, at most ten. *)
Definition triggeredStates (monitor : MonitorRead) : list DatadogMonitorTriggeredState :=
  let groups := match mr_State monitor with Some (Some groups) => map_to_list groups | _ => [] end in
  let states := sort_by group_le (omap triggeredOf groups) in
  if bool_decide (maxTriggeredStateGroups < length states) then take maxTriggeredStateGroups states else states.

Definition convertStateToStatus (monitor : MonitorRead) (st : DatadogMonitorStatus) (now : Time) : DatadogMonitorStatus :=
  mkMonitorStatus (mst_Conditions st) (mst_ID st) (mst_Creator st) (mst_Created st) (mr_OverallState monitor)
    (mst_MonitorLastForceSyncTime st) (mst_MonitorStateLastUpdateTime st)
    (if bool_decide (mr_OverallState monitor ≠ mst_MonitorState st) then Some now else mst_MonitorStateLastTransitionTime st)
    (mst_MonitorStateSyncStatus st) (triggeredStates monitor) (false, 0%Z) (mst_Primary st) (mst_CurrentHash st).

Definition updateMonitorState (m : MonitorRead) (now : Time) (st : DatadogMonitorStatus) : DatadogMonitorStatus :=
  let st := convertStateToStatus m st now in
  mkMonitorStatus (mst_Conditions st) (mst_ID st) (mst_Creator st) (mst_Created st) (mst_MonitorState st)
    (mst_MonitorLastForceSyncTime st) (Some now) (mst_MonitorStateLastTransitionTime st) MonitorStateSyncStatusOK
    (mst_TriggeredState st) (mst_DowntimeStatus st) (mst_Primary st) (mst_CurrentHash st).
End State.

(** ** The API *)

Class MonitorClient (W : Type) := {
  Float : Type;
  ParseFloat : string → option Float;
  (** [metav1.Unix(sec, 0)] *)
  Unix : Z → Time;
  mon_Get : Z → string → GoM W MonitorRead;
  mon_Validate : MonitorBody Float → GoM W unit;
  mon_Create : MonitorBody Float → GoM W MonitorRead;
  mon_Update : Z → MonitorUpdateBody Float → GoM W MonitorRead;
  mon_Delete : Z → string → GoM W (option Z * option error)
}.

Definition datadogMonitorKind : string := "DatadogMonitor".
Definition datadogMonitorFinalizer : string := "finalizer.monitor.datadoghq.com".

Section Reconciler.
Context {W : Type} `{ResourceClient W DatadogMonitorSpec DatadogMonitorStatus} `{!MonitorClient W}.
Context {HRepeating : Repeating}.
Context `{ControllerUtil}.
Context (GenerateMD5ForSpec : DatadogMonitorSpec → string + error).
Context (conflictRetries : nat).
(** The metrics forwarders, [None] when there are none. *)
Context (Unregister : option (string * string → W → W)) (ProcessError : string * string → option error → W → W).
Abbreviation DatadogMonitor := (CustomResource DatadogMonitorSpec DatadogMonitorStatus).
Implicit Types (dm : DatadogMonitor) (status : DatadogMonitorStatus).

Definition getMonitor (monitorID : Z) : GoM W MonitorRead := translated "error getting monitor" (mon_Get monitorID "all").

Definition validateMonitor dm : GoM W unit :=
  translated "error validating monitor" (mon_Validate (buildMonitor ParseFloat (co_Spec dm)).1).

Definition createMonitor dm : GoM W MonitorRead :=
  translated "error creating monitor" (mon_Create (buildMonitor ParseFloat (co_Spec dm)).1).

Definition updateMonitor dm : GoM W MonitorRead :=
  translated "error updating monitor" (mon_Update (mst_ID (co_Status dm)) (buildMonitor ParseFloat (co_Spec dm)).2).

Definition deleteMonitor (monitorID : Z) : GoM W unit :=
  deleteIdempotent "error deleting monitor" (mon_Delete monitorID "false").

Definition buildEventInfo (name ns eventType : string) : EventInfo := BuildEventInfo name ns datadogMonitorKind eventType.

Definition deleteResource : DatadogMonitor → string → GoM W unit := λ dm _,
  _ ← match Unregister with Some f => modify (f (co_key dm)) | None => mret tt end;
  if mst_Primary (co_Status dm) then
    _ ← deleteMonitor (mst_ID (co_Status dm));
    recordEvent dm (buildEventInfo (co_Name dm) (co_Namespace dm) DeletionEvent)
  else mret tt.

(** What a creation adds to the status. *)
Definition createdStatus status (now : Time) (m : MonitorRead) (hash : string) : DatadogMonitorStatus :=
  let status := mkMonitorStatus (mst_Conditions status) (mr_Id m) (mr_CreatorEmail m) (Some (mr_Created m))
    (mst_MonitorState status) (mst_MonitorLastForceSyncTime status) (mst_MonitorStateLastUpdateTime status)
    (mst_MonitorStateLastTransitionTime status) "" (mst_TriggeredState status) (mst_DowntimeStatus status) true hash in
  UpdateDatadogMonitorConditions status now DatadogMonitorConditionTypeCreated ConditionTrue "DatadogMonitor Created".

Definition create dm status (now : Time) (instanceSpecHash : string) : GoM W (DatadogMonitorStatus * option error) :=
  r ← attempt (validateMonitor dm);
  match r with
  | inr err => mret (status, Some err)
  | inl _ =>
      m ← attempt (createMonitor dm);
      match m with
      | inr err => mret (status, Some err)
      | inl m =>
          _ ← recordEvent dm (buildEventInfo (co_Name dm) (co_Namespace dm) CreationEvent);
          mret (createdStatus status now m instanceSpecHash, None)
      end
  end.

(** What an update adds to the status. *)
Definition updatedStatus status (now : Time) (hash : string) : DatadogMonitorStatus :=
  let status := UpdateDatadogMonitorConditions status now DatadogMonitorConditionTypeUpdated ConditionTrue
                  "DatadogMonitor Updated" in
  mkMonitorStatus (mst_Conditions status) (mst_ID status) (mst_Creator status) (mst_Created status)
    (mst_MonitorState status) (Some now) (mst_MonitorStateLastUpdateTime status)
    (mst_MonitorStateLastTransitionTime status) MonitorStateSyncStatusOK (mst_TriggeredState status)
    (mst_DowntimeStatus status) (mst_Primary status) hash.

Definition update dm status (now : Time) (instanceSpecHash : string) : GoM W (DatadogMonitorStatus * option error) :=
  r ← attempt (validateMonitor dm);
  match r with
  | inr err => mret (set_mst_SyncStatus MonitorStateSyncStatusValidateError status, Some err)
  | inl _ =>
      r ← attempt (updateMonitor dm);
      match r with
      | inr err => mret (set_mst_SyncStatus MonitorStateSyncStatusUpdateError status, Some err)
      | inl _ =>
          _ ← recordEvent dm (buildEventInfo (co_Name dm) (co_Namespace dm) UpdateEvent);
          mret (updatedStatus status now instanceSpecHash, None)
      end
  end.

(** The monitor (the zero one when it cannot be read), the status, and an error. *)
Definition get dm status : GoM W (MonitorRead * DatadogMonitorStatus * option error) :=
  m ← attempt (getMonitor (mst_ID (co_Status dm)));
  mret match m with
       | inr err => (zeroMonitor, set_mst_SyncStatus MonitorStateSyncStatusGetError status, Some err)
       | inl m => (m, status, None)
       end.

Definition retryStatus (key : string * string) (desiredStatus : DatadogMonitorStatus) : GoM W unit :=
  latest ← client_Get key;
  if bool_decide (co_Status latest = desiredStatus) then mret tt
  else
    _ ← client_StatusUpdate (set_co_Status desiredStatus latest);
    mret tt.

Definition updateStatusIfNeeded dm (now : Time) status (currentErr : option error) (result : Result)
    : GoM W (Result * option error) :=
  let status := SetErrorActiveConditions status now currentErr in
  if bool_decide (co_Status dm = status) then mret (result, None)
  else
    err ← attempt (client_StatusUpdate (set_co_Status status dm));
    err ← match err with
          | inr e => if IsConflict e then attempt (retryOnError IsConflict conflictRetries (retryStatus (co_key dm) status))
                     else mret (inr e)
          | inl _ => mret (inl tt)
          end;
    match err with
    | inr e => if IsConflict e then mret (RequeueAfter defaultErrRequeuePeriod, None) else mret (zeroResult, Some e)
    | inl _ => mret (RequeueAfter defaultRequeuePeriod, None)
    end.

Definition getRequiredTags : list string := [requiredTag].

Definition set_ms_Tags (tags : list string) (sp : DatadogMonitorSpec) : DatadogMonitorSpec :=
  mkMonitorSpec (ms_Name sp) (ms_Message sp) (ms_Priority sp) (ms_Query sp) (ms_RestrictedRoles sp) tags (ms_Type sp)
    (ms_Options sp) (ms_DisableRequiredTags sp).

(** The object as it is after the check, whether tags were added, and an error. *)
Definition checkRequiredTags dm : GoM W (DatadogMonitor * (bool + error)) :=
  let tags := ms_Tags (co_Spec dm) in
  let tagsToAdd := reject (λ rT, bool_decide (rT ∈ tags)) getRequiredTags in
  if bool_decide (tagsToAdd = []) then mret (dm, inl false)
  else
    let dm := set_co_Spec (set_ms_Tags (tags ++ tagsToAdd) (co_Spec dm)) dm in
    r ← attempt (client_Update dm);
    match r with
    | inr err => mret (dm, inr err)
    | inl dm => mret (dm, inl true)
    end.

Definition isDue (period : Duration) (now : Time) (last : option Time) : bool :=
  match last with
  | None => true
  | Some last => bool_decide (wrap64 (period - Time_Sub now last) ≤ 0)%Z
  end.

(** Whether to create ([Some true]), to update ([Some false]) or neither, the
    status and the error of the read. *)
Definition decideAction (forceSyncPeriod : Duration) dm status (now : Time) (instanceSpecHash : string)
    : GoM W (option bool * DatadogMonitorStatus * option error) :=
  let old := co_Status dm in
  let missing err := match err with Some err => Contains (error_Error err) NotFoundString | None => false end in
  if bool_decide (mst_ID old = 0%Z) then mret (Some true, status, None)
  else if bool_decide (instanceSpecHash ≠ mst_CurrentHash old) || isDue forceSyncPeriod now (mst_MonitorLastForceSyncTime old) then
    r ← get dm status;
    let '(_, status, err) := r in
    mret (match err with None => Some false | Some _ => if missing err then Some true else None end, status, err)
  else if isDue defaultRequeuePeriod now (mst_MonitorStateLastUpdateTime old) then
    r ← get dm status;
    let '(m, status, err) := r in
    mret (if missing err then Some true else None, updateMonitorState Unix m now status, err)
  else mret (None, status, None).

(** The write of the monitor, after the tags of the object were checked; the
    continuation writes the status. *)
Definition actOn dm status (now : Time) (instanceSpecHash : string) (shouldCreate : bool) (result : Result)
    : GoM W (Result * option error) :=
  let finish dm status err result :=
    updateStatusIfNeeded dm now status err
      (if Result_IsZero result then set_RequeueAfter defaultRequeuePeriod result else result) in
  let write dm :=
    if shouldCreate then
      r ← create dm status now instanceSpecHash;
      let '(status, err) := r in
      finish dm status err result
    else
      r ← update dm status now instanceSpecHash;
      let '(status, err) := r in
      match err with
      | Some e => if Contains (error_Error e) NotFoundString
                  then finish dm (set_mst_ID 0 status) err (set_RequeueAfter defaultErrRequeuePeriod result)
                  else finish dm status err result
      | None => finish dm status err result
      end in
  if shouldCreate && negb (isSupportedMonitorType (ms_Type (co_Spec dm))) then
    finish dm status (Some (Errorf ("monitor type " +:+ ms_Type (co_Spec dm) +:+ " not supported"))) result
  else if bool_decide (ms_DisableRequiredTags (co_Spec dm) = Some true) then write dm
  else
    t ← checkRequiredTags dm;
    let '(dm, tagsUpdated) := t in
    match tagsUpdated with
    | inr err => updateStatusIfNeeded dm now status (Some err) (set_RequeueAfter defaultErrRequeuePeriod result)
    | inl true => updateStatusIfNeeded dm now status None result
    | inl false => write dm
    end.

Definition syncMonitor (forceSyncPeriod : Duration) dm (now : Time) (result : Result) : GoM W (Result * option error) :=
  let newStatus := co_Status dm in
  match IsValidDatadogMonitor (co_Spec dm) with
  | Some err => updateStatusIfNeeded dm now newStatus (Some err) result
  | None =>
      match GenerateMD5ForSpec (co_Spec dm) with
      | inr err => updateStatusIfNeeded dm now newStatus (Some err) result
      | inl instanceSpecHash =>
          d ← decideAction forceSyncPeriod dm newStatus now instanceSpecHash;
          let '(action, newStatus, err) := d in
          match action with
          | Some shouldCreate => actOn dm newStatus now instanceSpecHash shouldCreate result
          | None =>
              updateStatusIfNeeded dm now newStatus err
                (if Result_IsZero result then set_RequeueAfter defaultRequeuePeriod result else result)
          end
      end
  end.

(** [env] is the value of [DD_MONITOR_FORCE_SYNC_PERIOD]. *)
Definition internalReconcile (credErr : option error) (env : option string) (now : Time) dm : GoM W (Result * option error) :=
  match credErr with
  | Some credErr => mret (RequeueAfter defaultErrRequeuePeriod, Some (Wrapf "unable to get credentials" credErr))
  | None =>
      let final := NewFinalizer deleteResource defaultRequeuePeriod defaultErrRequeuePeriod in
      r ← HandleFinalizer final dm (pretty (mst_ID (co_Status dm))) datadogMonitorFinalizer;
      let '(result, err) := r in
      if ShouldReturn result err then mret (result, err) else syncMonitor (forceSyncPeriodOf env) dm now result
  end.

Definition Reconcile (operatorMetricsEnabled : bool) (credErr : option error) (env : option string) (now : Time) dm
    : GoM W (Result * option error) :=
  r ← internalReconcile credErr env now dm;
  _ ← when operatorMetricsEnabled (modify (ProcessError (co_key dm) r.2));
  mret r.
End Reconciler.
End Monitor.
