(* ===== verification/MonitorTheorems.v ===== *)
(** * Correctness of the DatadogMonitor, DatadogSLO and DatadogDashboard controllers.

    The conditions and the triggered groups of a monitor's status, the requests
    built from a valid SLO, and what a failed deletion, a failed read and a
    conflict leave behind. *)

From Stdlib Require Import ZArith Lia.
From stdpp Require Import base gmap strings list sorting.
From S2P Require Import Prelude GoRun Cluster Status Remote RemoteFacts Handlers HandlerLaws.
From S2P Require Import SLOController DashboardController MonitorController.

Section Conditions.
Import Monitor.
Implicit Types (st : DatadogMonitorStatus) (l : list DatadogMonitorCondition).

(** The status of the condition of a type, if there is one. *)
Definition cond_of l (t : string) : option string :=
  i ← getIndexForDatadogMonitorConditionType l t; mc_Status <$> l !! i.

(** The first condition of a type is changed by a function that keeps its type. *)
Lemma cond_of_alter l t t' i (f : DatadogMonitorCondition → DatadogMonitorCondition) :
  (∀ c, mc_Type (f c) = mc_Type c) → getIndexForDatadogMonitorConditionType l t = Some i →
  cond_of (alter f i l) t' = if decide (t' = t) then (λ c, mc_Status (f c)) <$> l !! i else cond_of l t'.
Proof.
  intros Hf. revert i. unfold cond_of. induction l as [|c l IH]; intros i Hi; [done|].
  cbn in Hi. case_bool_decide as Hc.
  - injection Hi as <-. cbn. rewrite Hf. case_decide as Ht; [subst; by rewrite bool_decide_true|].
    case_bool_decide; [congruence|]. by destruct (getIndexForDatadogMonitorConditionType l t').
  - destruct (getIndexForDatadogMonitorConditionType l t) as [j|] eqn:Ej; [|done]. injection Hi as <-.
    specialize (IH j eq_refl). cbn. destruct (bool_decide (mc_Type c = t')) eqn:Hc'.
    + apply bool_decide_eq_true in Hc'. rewrite decide_False by congruence. done.
    + destruct (getIndexForDatadogMonitorConditionType (alter f j l) t') eqn:E1,
        (getIndexForDatadogMonitorConditionType l t') eqn:E2; cbn in *; done.
Qed.

Lemma cond_of_app l t t' c :
  getIndexForDatadogMonitorConditionType l t = None → mc_Type c = t →
  cond_of (l ++ [c]) t' = if decide (t' = t) then Some (mc_Status c) else cond_of l t'.
Proof.
  intros Hn Hc. unfold cond_of. induction l as [|d l IH]; cbn in *.
  - case_decide; [subst; by rewrite bool_decide_true|]. by rewrite bool_decide_false by congruence.
  - case_bool_decide as Hd; [done|]. destruct (getIndexForDatadogMonitorConditionType l t) eqn:E; [done|].
    specialize (IH eq_refl). case_bool_decide as Hd'; [rewrite decide_False by congruence; done|].
    destruct (getIndexForDatadogMonitorConditionType (l ++ [c]) t') eqn:E1,
      (getIndexForDatadogMonitorConditionType l t') eqn:E2; cbn in *; done.
Qed.

Lemma index_lookup l t i : getIndexForDatadogMonitorConditionType l t = Some i → is_Some (l !! i).
Proof.
  revert i. induction l as [|c l IH]; intros i; [done|]. cbn. case_bool_decide; [intros [= <-]; eauto|].
  destruct (getIndexForDatadogMonitorConditionType l t) as [j|]; [|done]. intros [= <-]. cbn. eauto.
Qed.

Lemma SetDatadogMonitorCondition_status c now s desc : mc_Status (SetDatadogMonitorCondition c now s desc) = s.
Proof. unfold SetDatadogMonitorCondition. by repeat case_bool_decide. Qed.

Lemma SetDatadogMonitorCondition_type c now s desc : mc_Type (SetDatadogMonitorCondition c now s desc) = mc_Type c.
Proof. unfold SetDatadogMonitorCondition. by repeat case_bool_decide. Qed.

(** An update sets the condition of its type, a missing one only to true, and no
    other. *)
Lemma cond_of_update st now t s desc t' :
  cond_of (mst_Conditions (UpdateDatadogMonitorConditions st now t s desc)) t' =
  if decide (t' = t)
  then match cond_of (mst_Conditions st) t with
       | Some _ => Some s
       | None => if bool_decide (s = ConditionTrue) then Some s else None
       end
  else cond_of (mst_Conditions st) t'.
Proof.
  unfold UpdateDatadogMonitorConditions. destruct (getIndexForDatadogMonitorConditionType _ t) as [i|] eqn:Ei;
    unfold set_mst_Conditions; cbn [mst_Conditions].
  - rewrite (cond_of_alter _ t t' i); [|intros c; apply SetDatadogMonitorCondition_type|done].
    destruct (index_lookup _ _ _ Ei) as [c Hc]. case_decide; [|done].
    unfold cond_of. rewrite Ei. cbn. rewrite Hc. cbn. by rewrite SetDatadogMonitorCondition_status.
  - assert (Hnone : cond_of (mst_Conditions st) t = None) by (unfold cond_of; by rewrite Ei).
    rewrite Hnone. case_bool_decide as Hs; cbn [mst_Conditions].
    + rewrite (cond_of_app _ t) by done. done.
    + case_decide; [by subst|done].
Qed.

(** Exactly one of the conditions [Error] and [Active] of a monitor is
    true after a reconcile, the one that says whether it failed; the other
    conditions are untouched. *)
Theorem error_active_exclusive st now err :
  let l := mst_Conditions (SetErrorActiveConditions st now err) in
  (cond_of l DatadogMonitorConditionTypeError = Some ConditionTrue ↔ is_Some err) ∧
  (cond_of l DatadogMonitorConditionTypeActive = Some ConditionTrue ↔ err = None) ∧
  (∀ t, t ≠ DatadogMonitorConditionTypeError → t ≠ DatadogMonitorConditionTypeActive →
        cond_of l t = cond_of (mst_Conditions st) t).
Proof.
  assert (Hea : DatadogMonitorConditionTypeError ≠ DatadogMonitorConditionTypeActive) by done.
  cbv zeta. destruct err as [err|]; cbn [SetErrorActiveConditions]; repeat split; intros;
    rewrite ?cond_of_update in *; repeat case_decide; try done;
    destruct (cond_of (mst_Conditions st) _); try done; try (by rewrite bool_decide_false in * by done).
Qed.
End Conditions.

Section Triggered.
Import Monitor.

#[local] Instance group_le_total : Total group_le.
Proof. intros a b. unfold group_le. apply (total String.le). Qed.

#[local] Instance group_le_trans : Transitive group_le.
Proof. intros a b c. unfold group_le. apply transitivity. Qed.

Definition groups_of (m : MonitorRead) : gmap string StateGroup :=
  match mr_State m with Some (Some groups) => groups | _ => ∅ end.

Context (Unix : Z → Time).
Implicit Types m : MonitorRead.

Definition all_triggered m : list DatadogMonitorTriggeredState :=
  sort_by group_le (omap (triggeredOf Unix) (map_to_list (groups_of m))).

Lemma triggeredStates_take m : triggeredStates Unix m = take maxTriggeredStateGroups (all_triggered m).
Proof.
  unfold triggeredStates, all_triggered, groups_of.
  assert (Hg : match mr_State m with Some (Some groups) => map_to_list groups | _ => [] end =
               map_to_list (match mr_State m with Some (Some groups) => groups | _ => ∅ end)).
  { destruct (mr_State m) as [[g|]|]; by rewrite ?map_to_list_empty. }
  rewrite Hg. case_bool_decide as Hlen; [done|]. rewrite take_ge; [done|lia].
Qed.

Lemma elem_of_all_triggered m t :
  t ∈ all_triggered m ↔ ∃ g, groups_of m !! tr_MonitorGroup t = Some g ∧ triggeredOf Unix (tr_MonitorGroup t, g) = Some t.
Proof.
  unfold all_triggered. rewrite sort_by_Permutation, list_elem_of_omap. split.
  - intros ([group g] & Hin%elem_of_map_to_list & Ht). exists g.
    assert (tr_MonitorGroup t = group) as ->; [|done]. unfold triggeredOf in Ht. case_match; by simplify_eq.
  - intros (g & Hg & Ht). exists (tr_MonitorGroup t, g). by rewrite elem_of_map_to_list.
Qed.

(** The groups of the triggered states of distinct groups are distinct. *)
Lemma NoDup_triggered (l : list (string * StateGroup)) :
  NoDup l.*1 → NoDup (tr_MonitorGroup <$> omap (triggeredOf Unix) l).
Proof.
  assert (Hsub : ∀ l group, group ∈ tr_MonitorGroup <$> omap (triggeredOf Unix) l → group ∈ l.*1).
  { intros l' group. rewrite list_elem_of_fmap. intros (t & -> & ([k g] & Hin & Ht)%list_elem_of_omap).
    unfold triggeredOf in Ht. case_match; simplify_eq. cbn. apply list_elem_of_fmap. by exists (k, g). }
  induction l as [|[group g] l IH]; cbn; [constructor|]. intros [Hn Hd]%NoDup_cons.
  destruct (isTriggered _); cbn; [|by apply IH]. constructor; [|by apply IH]. intros Hin. by apply Hn, Hsub.
Qed.

(** The triggered groups recorded in a monitor's status are at most
    ten, sorted by name and distinct; each is a group of the monitor that is in
    alert, warning or without data, with that state; and a triggered group that
    is left out comes after ten that are not. *)
Theorem triggered_states_spec m :
  let l := triggeredStates Unix m in
  length l ≤ 10 ∧ StronglySorted group_le l ∧ NoDup (tr_MonitorGroup <$> l) ∧
  (∀ t, t ∈ l → ∃ g, groups_of m !! tr_MonitorGroup t = Some g ∧ isTriggered (sg_Status g) = true ∧
                     tr_State t = sg_Status g) ∧
  (∀ group g, groups_of m !! group = Some g → isTriggered (sg_Status g) = true →
     group ∈ tr_MonitorGroup <$> l ∨ length l = 10 ∧ ∀ t, t ∈ l → String.le (tr_MonitorGroup t) group).
Proof.
  cbv zeta. rewrite triggeredStates_take. set (all := all_triggered m).
  assert (Hsort : StronglySorted group_le all) by (apply sort_by_sorted; apply _).
  assert (Hsplit : all = take maxTriggeredStateGroups all ++ drop maxTriggeredStateGroups all) by by rewrite take_drop.
  split; [rewrite length_take; unfold maxTriggeredStateGroups; lia|].
  split; [by rewrite Hsplit in Hsort; apply StronglySorted_app_1_l in Hsort|].
  split.
  { rewrite fmap_take. eapply sublist_NoDup; [|apply sublist_take]. unfold all, all_triggered.
    rewrite sort_by_Permutation. apply NoDup_triggered, NoDup_fst_map_to_list. }
  split.
  - intros t Ht. assert (Hin : t ∈ all) by (rewrite Hsplit, elem_of_app; by left).
    apply elem_of_all_triggered in Hin as (g & Hg & Hto). exists g. split; [done|].
    unfold triggeredOf in Hto. destruct (isTriggered (sg_Status g)); [|done]. injection Hto as <-. done.
  - intros group g Hg Htr. set (t := mkTriggeredState group (sg_Status g) (Unix (GetMax (sg_LastTriggeredTs g) (sg_LastNodataTs g)))).
    assert (Hin : t ∈ all). { apply elem_of_all_triggered. exists g. split; [done|]. unfold triggeredOf. by rewrite Htr. }
    rewrite Hsplit, elem_of_app in Hin. destruct Hin as [Hin|Hin].
    + left. apply list_elem_of_fmap. by exists t.
    + right. split.
      * rewrite length_take. destruct (decide (10 ≤ length all)) as [|Hlt]; [unfold maxTriggeredStateGroups; lia|].
        rewrite drop_ge in Hin by (unfold maxTriggeredStateGroups; lia). by apply not_elem_of_nil in Hin.
      * intros t' Ht'. rewrite Hsplit in Hsort. by apply (StronglySorted_app_1_elem_of _ _ _ t' t Hsort).
Qed.
End Triggered.

(** ** SLOs *)

Lemma NewAggregate_None errs : NewAggregate errs = None → errs = [].
Proof. destruct errs as [|a [|b errs]]; done. Qed.

Lemma errIf_nil c msg : errIf c msg = [] → c = false.
Proof. by destruct c. Qed.

Section SLO.
Import SLO.
Context `{QuantityOps} (NewSLOTimeframeFromValue : string → option string).
Implicit Types spec : DatadogSLOSpec.

(** What the code dereferences is there in a valid spec. *)
Lemma valid_slo_pointers spec :
  IsValidDatadogSLO spec = None →
  (sp_Type spec = DatadogSLOTypeMetric → is_Some (sp_Query spec)) ∧
  (sp_Type spec = DatadogSLOTypeTimeSlice → is_Some (sp_TimeSlice spec)) ∧
  sp_Timeframe spec ∈ ["7d"; "30d"; "90d"].
Proof.
  intros Hv%NewAggregate_None. repeat apply app_eq_nil in Hv as [? Hv].
  repeat match goal with E : errIf _ _ = [] |- _ => apply errIf_nil in E end.
  split; [|split].
  - intros Ht. destruct (sp_Query spec); [done|]. exfalso.
    match goal with E : bool_decide (_ = DatadogSLOTypeMetric) && bool_decide (None = None) = false |- _ =>
      rewrite Ht in E; vm_compute in E; discriminate end.
  - intros Ht. destruct (sp_TimeSlice spec); [done|]. exfalso.
    match goal with E : (if bool_decide (_ = DatadogSLOTypeTimeSlice) then _ else _) = [] |- _ =>
      rewrite Ht in E; vm_compute in E; discriminate end.
  - by apply negb_false_iff, bool_decide_eq_true in Hv.
Qed.

(** What a request is to say of a spec, field by field. *)
Record SLOContent := mkSLOContent {
  c_Name : string;
  c_Thresholds : list SLOThreshold;
  c_Type : string;
  c_Description : option (option string);
  c_Tags : list string;
  c_Query : option ServiceLevelObjectiveQuery;
  c_MonitorIds : option (list Z);
  c_Groups : option (list string);
  c_SliSpecification : option SLOSliSpec
}.

Definition wanted spec : SLOContent := {|
  c_Name := sp_Name spec;
  c_Thresholds := [mkSLOThreshold (DecFloat64 (sp_TargetThreshold spec)) (sp_Timeframe spec)
                     (DecFloat64 <$> sp_WarningThreshold spec)];
  c_Type := sp_Type spec;
  c_Description := Some (sp_Description spec);
  c_Tags := sp_Tags spec;
  c_Query := if decide (sp_Type spec = "metric")
             then (λ q, mkServiceLevelObjectiveQuery (q_Denominator q) (q_Numerator q)) <$> sp_Query spec else None;
  c_MonitorIds := if decide (sp_Type spec = "monitor") then Some (sp_MonitorIDs spec) else None;
  c_Groups := if decide (sp_Type spec = "monitor") then Some (sp_Groups spec) else None;
  c_SliSpecification := if decide (sp_Type spec = "time_slice")
    then (λ ts, mkSLOSliSpec (ts_Comparator ts) ["query1"] [("metrics", "query1", ts_Query ts)] (DecFloat64 (ts_Threshold ts)))
           <$> sp_TimeSlice spec
    else None
|}.

Definition requested (r : ServiceLevelObjectiveRequest) : SLOContent :=
  mkSLOContent (req_Name r) (req_Thresholds r) (req_Type r) (req_Description r) (req_Tags r) (req_Query r)
    (req_MonitorIds r) (req_Groups r) (req_SliSpecification r).
Definition updated (r : ServiceLevelObjective) : SLOContent :=
  mkSLOContent (slo_Name r) (slo_Thresholds r) (slo_Type r) (slo_Description r) (slo_Tags r) (slo_Query r)
    (slo_MonitorIds r) (slo_Groups r) (slo_SliSpecification r).

(** The three types are told apart by the same tests in both. *)
Lemma slo_type_cases spec :
  IsValidDatadogSLO spec = None →
  (sp_Type spec = "metric" ∧ is_Some (sp_Query spec)) ∨ sp_Type spec = "monitor" ∨
  (sp_Type spec = "time_slice" ∧ is_Some (sp_TimeSlice spec)) ∨
  (sp_Type spec ≠ "metric" ∧ sp_Type spec ≠ "monitor" ∧ sp_Type spec ≠ "time_slice").
Proof.
  intros Hv. destruct (valid_slo_pointers spec Hv) as (Hq & Hts & _).
  destruct (decide (sp_Type spec = "metric")); [left; auto|]. destruct (decide (sp_Type spec = "monitor")); [auto|].
  destruct (decide (sp_Type spec = "time_slice")); auto 10.
Qed.

Lemma buildThreshold_valid {S : Type} spec (s : S) :
  (∀ tf, tf ∈ ["7d"; "30d"; "90d"] → NewSLOTimeframeFromValue tf = Some tf) →
  IsValidDatadogSLO spec = None →
  buildThreshold NewSLOTimeframeFromValue spec s = (s, Ret (c_Thresholds (wanted spec))).
Proof.
  intros Htf Hv. destruct (valid_slo_pointers spec Hv) as (_ & _ & Hframe).
  unfold buildThreshold. by rewrite (Htf _ Hframe).
Qed.

(** One builder, followed through the cases of the type and the description. *)
Ltac slo_cases spec Hv Hth :=
  unfold buildSLORequest, buildSLOUpdate, requested, updated, wanted in *; cbn [c_Thresholds] in Hth;
  destruct (slo_type_cases spec Hv) as [[Ht [q Hq]]|[Ht|[[Ht [ts Hts]]|(Ht1 & Ht2 & Ht3)]]];
  destruct (sp_Description spec) as [d|];
  eexists; (split; [intros s0; rewrite (GoM_bind_Ret _ _ _ _ _ (Hth s0));
    unfold DatadogSLOTypeMetric, DatadogSLOTypeMonitor, DatadogSLOTypeTimeSlice, buildSliSpecification;
    rewrite ?Ht, ?Hq, ?Hts, ?bool_decide_false by done; reflexivity
   |cbn; rewrite ?Ht, ?Hq, ?Hts, ?decide_False by done; reflexivity]).

(** C40: a valid SLO can be built.  From a spec that passes validation the
    requests are built without a nil dereference, given that the API client knows
    the three timeframes.  The request that creates the SLO and the one that
    updates it, built by separate code, both say what the spec does: its name,
    type, description and tags, one threshold with its target, warning and
    timeframe, and the query, the monitors with their groups, or the time slice,
    exactly for the type they belong to. *)
Theorem valid_slo_builds {S : Type} spec (s : S) :
  (∀ tf, tf ∈ ["7d"; "30d"; "90d"] → NewSLOTimeframeFromValue tf = Some tf) →
  IsValidDatadogSLO spec = None →
  ∃ req slo, buildSLO NewSLOTimeframeFromValue spec s = (s, Ret (req, slo)) ∧
    requested req = wanted spec ∧ updated slo = wanted spec.
Proof.
  intros Htf Hv. pose proof (λ s : S, buildThreshold_valid spec s Htf Hv) as Hth.
  assert (Hreq : ∃ req, (∀ s : S, buildSLORequest NewSLOTimeframeFromValue spec s = (s, Ret req)) ∧ requested req = wanted spec).
  { slo_cases spec Hv Hth. }
  assert (Hslo : ∃ slo, (∀ s : S, buildSLOUpdate NewSLOTimeframeFromValue spec s = (s, Ret slo)) ∧ updated slo = wanted spec).
  { slo_cases spec Hv Hth. }
  destruct Hreq as (req & Hreq & Hr), Hslo as (slo & Hslo & Hs). exists req, slo. split; [|done].
  unfold buildSLO. by rewrite (GoM_bind_Ret _ _ _ _ _ (Hreq s)), (GoM_bind_Ret _ _ _ _ _ (Hslo s)).
Qed.
End SLO.

(** ** What goes wrong *)

(** The error condition of an SLO outlives the update that repairs it. *)
Lemma slo_error_condition_survives `{MetaConditions, !MetaConditionsLaws} (l : list Condition) now :
  GetCondition (UpdateStatusConditions l now DatadogConditionTypeUpdated ConditionTrue "UpdatingSLO" "DatadogSLO Updated")
    DatadogConditionTypeError = GetCondition l DatadogConditionTypeError.
Proof. apply Find_Set_ne. done. Qed.

Section SLOFailures.
Context {W R : Type} `{QuantityOps} `{RemoteWorld W SLO.DatadogSLOSpec SLO.DatadogSLOStatus R} `{!SLO.SLOClient W}.

(** A deletion that got no response panics: the status code is read of a nil
    response. *)
Lemma slo_deletion_without_response_panics id (w w1 : W) e :
  SLO.slo_Delete id "false" w = (w1, Ret (None, Some e)) → SLO.deleteSLO id w = (w1, Panic).
Proof. intros Hd. unfold SLO.deleteSLO, mbind, GoM_bind. by rewrite Hd. Qed.

(** A conflict loses the status of an SLO, the ID of one just created with it:
    nothing is stored, and the reconcile is only run again. *)
Lemma slo_status_lost_on_conflict instance st result (w w1 : W) e :
  co_Status instance ≠ st → client_StatusUpdate (set_co_Status st instance) w = (w1, Fail e) → IsConflict e = true →
  SLO.updateStatusIfNeeded instance st result w = (w1, Ret (mkResult true defaultErrRequeuePeriod None, None)) ∧
  stored w1 = stored w.
Proof.
  intros Hne Hu Hc. pose proof (world_StatusUpdate (set_co_Status st instance) w) as Hl. rewrite Hu in Hl.
  split; [|by apply view_stored]. unfold SLO.updateStatusIfNeeded. rewrite bool_decide_false by done.
  unfold mbind, GoM_bind, attempt. by rewrite Hu, Hc.
Qed.
End SLOFailures.

Section DashboardFailures.
Context {W : Type} `{ResourceClient W Dashboard.DatadogDashboardSpec Dashboard.DatadogDashboardStatus}.
Context `{!Dashboard.DashboardClient W, ControllerUtil}.

(** A dashboard that could not be deleted loses its finalizer all the same: the
    deletion answers without an error, and the finalizer is taken off. *)
Lemma dashboard_orphaned_by_failed_deletion o (w w1 w2 : W) o' e :
  DeletionTimestamp_IsZero o = false →
  ContainsFinalizer (co_Finalizers o) Dashboard.datadogDashboardFinalizer = true →
  Dashboard.ds_ID (co_Status o) ≠ "" →
  Dashboard.dash_Delete (Dashboard.ds_ID (co_Status o)) w = (w1, Fail e) →
  client_Update (set_co_Finalizers (RemoveFinalizer (co_Finalizers o) Dashboard.datadogDashboardFinalizer) o) w1 =
    (w2, Ret o') →
  HandleFinalizer (NewFinalizer Dashboard.deleteResource defaultRequeuePeriod defaultErrRequeuePeriod) o
    (Dashboard.ds_ID (co_Status o)) Dashboard.datadogDashboardFinalizer w =
    (w2, Ret (RequeueAfter defaultRequeuePeriod, None)).
Proof.
  intros Hts Hf Hid Hd Hu. unfold HandleFinalizer. rewrite Hts, Hf.
  assert (Hdel : deleteFunc (NewFinalizer Dashboard.deleteResource defaultRequeuePeriod defaultErrRequeuePeriod) o
                   (Dashboard.ds_ID (co_Status o)) w = (w1, Ret tt)).
  { cbn. unfold Dashboard.deleteResource, Dashboard.deleteDashboard. rewrite bool_decide_true by done.
    unfold mbind, GoM_bind, attempt, translated. by rewrite Hd. }
  unfold mbind, GoM_bind, attempt at 1. rewrite Hdel. unfold attempt. by rewrite Hu.
Qed.
End DashboardFailures.

Section MonitorFailures.
Import Monitor.
Context {W : Type} `{ResourceClient W DatadogMonitorSpec DatadogMonitorStatus} `{!MonitorClient W}.
Context {HRepeating : Repeating}.

(** A refresh whose read failed is recorded as synced: the sync status says
    [OK], the state and the triggered groups are emptied. *)
Lemma failed_refresh_recorded_as_synced period now hash dm (w w1 : W) e :
  mst_ID (co_Status dm) ≠ 0%Z → hash = mst_CurrentHash (co_Status dm) →
  isDue period now (mst_MonitorLastForceSyncTime (co_Status dm)) = false →
  isDue defaultRequeuePeriod now (mst_MonitorStateLastUpdateTime (co_Status dm)) = true →
  getMonitor (mst_ID (co_Status dm)) w = (w1, Fail e) → Contains (error_Error e) NotFoundString = false →
  ∃ st, decideAction period dm (co_Status dm) now hash w = (w1, Ret (None, st, Some e)) ∧
        mst_MonitorStateSyncStatus st = MonitorStateSyncStatusOK ∧ mst_MonitorState st = "" ∧ mst_TriggeredState st = [].
Proof.
  intros Hid Hh Hd1 Hd2 Hg Hc. unfold decideAction. rewrite bool_decide_false by done.
  rewrite (bool_decide_false (_ ≠ _)) by tauto. rewrite Hd1, Hd2. cbn [orb].
  exists (updateMonitorState Unix zeroMonitor now (set_mst_SyncStatus MonitorStateSyncStatusGetError (co_Status dm))).
  split; [|split_and!; reflexivity].
  unfold get, mbind, GoM_bind, attempt. rewrite Hg. cbn. by rewrite Hc.
Qed.

(** The shorter requeue a failed update asked for is lost once the status is
    written, as it is when the ID was cleared. *)
Lemma status_write_overrides_requeue n dm now st err result (w w1 : W) o' :
  co_Status dm ≠ SetErrorActiveConditions st now err →
  client_StatusUpdate (set_co_Status (SetErrorActiveConditions st now err) dm) w = (w1, Ret o') →
  updateStatusIfNeeded n dm now st err result w = (w1, Ret (RequeueAfter defaultRequeuePeriod, None)).
Proof.
  intros Hne Hu. unfold updateStatusIfNeeded. rewrite bool_decide_false by done.
  unfold mbind, GoM_bind, attempt. by rewrite Hu.
Qed.
End MonitorFailures.
