(* ===== verification/RemoteWitnesses.v ===== *)
(** * A world in memory, and the properties of the remote resources on it.

    The API server stores the custom resources and refuses a stale resource
    version; Datadog holds dashboards, whose IDs are numbered.  The witnesses
    apply the properties of the DatadogGenericResource controller to it. *)

From Stdlib Require Import ZArith Lia.
From stdpp Require Import base gmap strings list pretty.
From S2P Require Import Prelude GoRun Cluster Status Remote RemoteFacts GenericResource Handlers HandlerLaws.
From S2P Require Import GenericTheorems SLOController MonitorController MonitorTheorems.

(** Retries and polls one run after the other. *)
#[local] Existing Instance inSequence.

(** ** The world *)

Record Mem := mkMem {
  mem_objects : gmap (string * string) DatadogGenericResource;
  mem_dashboards : gset string;
  mem_next : string;
  mem_writes : nat
}.

Definition set_objects (m : gmap (string * string) DatadogGenericResource) (w : Mem) : Mem :=
  mkMem m (mem_dashboards w) (mem_next w) (S (mem_writes w)).
Definition set_dashboards (d : gset string) (w : Mem) : Mem :=
  mkMem (mem_objects w) d (mem_next w) (mem_writes w).

#[export] Instance Mem_client : ResourceClient Mem DatadogGenericResourceSpec DatadogGenericResourceStatus := {
  client_Get key w :=
    match mem_objects w !! key with
    | Some o => if bool_decide (co_key o = key) then (w, Ret o) else (w, Fail (ApiError ReasonUnknown))
    | None => (w, Fail (ApiError ReasonNotFound))
    end;
  client_Update o w :=
    match mem_objects w !! co_key o with
    | Some old =>
        if bool_decide (co_ResourceVersion old = co_ResourceVersion o) then
          let o' := apply_update (co_ResourceVersion old +:+ "+") o old in
          (set_objects (store_updated o' (mem_objects w)) w, Ret o')
        else (w, Fail (ApiError ReasonConflict))
    | None => (w, Fail (ApiError ReasonNotFound))
    end;
  client_StatusUpdate o w :=
    match mem_objects w !! co_key o with
    | Some old =>
        if bool_decide (co_ResourceVersion old = co_ResourceVersion o) then
          let o' := apply_status (co_ResourceVersion old +:+ "+") o old in
          (set_objects (<[co_key o := o']> (mem_objects w)) w, Ret o')
        else (w, Fail (ApiError ReasonConflict))
    | None => (w, Fail (ApiError ReasonNotFound))
    end;
  recorder_Event _ _ _ w := w
}.

#[export] Instance Mem_world : RemoteWorld Mem DatadogGenericResourceSpec DatadogGenericResourceStatus (gset string).
Proof.
  refine {| world_view w := (mem_objects w, mem_dashboards w) |}.
  - intros key w. cbn. destruct (mem_objects w !! key) as [o|] eqn:E; [|done]. by case_bool_decide.
  - intros o w. cbn. destruct (mem_objects w !! co_key o) as [old|] eqn:E; [|done].
    case_bool_decide; [|done]. cbn. eauto 10.
  - intros o w. cbn. destruct (mem_objects w !! co_key o) as [old|] eqn:E; [|done].
    case_bool_decide; [|done]. cbn. eauto 10.
  - done.
Defined.

#[export] Instance Mem_reliable : ReliableWorld Mem DatadogGenericResourceSpec DatadogGenericResourceStatus (gset string).
Proof.
  split.
  - intros key w o Ho Hk. exists w. unfold stored in Ho. cbn in *. rewrite Ho. by rewrite bool_decide_true.
  - intros o w old Hold. unfold stored in Hold. cbn in *. rewrite Hold.
    case_bool_decide; cbn; do 2 eexists; eauto.
Qed.

#[export] Instance Mem_util : ControllerUtil := {
  ContainsFinalizer l f := bool_decide (f ∈ l);
  AddFinalizer l f := if bool_decide (f ∈ l) then l else l ++ [f];
  RemoveFinalizer l f := filter (λ g, g ≠ f) l
}.

#[export] Instance Mem_util_laws : ControllerUtilLaws.
Proof.
  split; unfold ContainsFinalizer, AddFinalizer, RemoveFinalizer, Mem_util.
  - intros l f g. rewrite <-bool_decide_or. apply bool_decide_ext. case_bool_decide; [set_solver|].
    rewrite elem_of_app, list_elem_of_singleton. tauto.
  - intros l f g. rewrite <-bool_decide_not, <-bool_decide_and. apply bool_decide_ext. by rewrite list_elem_of_filter.
  - done.
Qed.

#[export] Instance Mem_conditions : MetaConditions := {
  SetStatusCondition l c := c :: reject (λ d, bool_decide (cond_Type d = cond_Type c)) l;
  meta_RemoveStatusCondition l t := reject (λ d, bool_decide (cond_Type d = t)) l
}.

(** The body of a dashboard is its title; a created one is given the next ID, and
    a missing one is answered with a 404. *)
Definition mem404 : error := OpenAPIError "404 Not Found" "".

#[export] Instance Mem_dashboards : DashboardsApi Mem := {
  Dashboard := string;
  json_Dashboard s := inl s;
  Dashboard_GetId d := d;
  Dashboard_GetCreatedAt _ := 0%Z;
  Dashboard_GetAuthorHandle _ := "author";
  GetDashboard id w := if bool_decide (id ∈ mem_dashboards w) then (w, Ret id) else (w, Fail mem404);
  CreateDashboard _ w :=
    if bool_decide (mem_next w = "" ∨ mem_next w ∈ mem_dashboards w) then (w, Fail (Errorf "busy"))
    else (mkMem (mem_objects w) ({[mem_next w]} ∪ mem_dashboards w) (mem_next w +:+ "+") (mem_writes w), Ret (mem_next w));
  UpdateDashboard id _ w := if bool_decide (id ∈ mem_dashboards w) then (w, Ret id) else (w, Fail mem404);
  DeleteDashboard id w :=
    if bool_decide (id ∈ mem_dashboards w) then (set_dashboards (mem_dashboards w ∖ {[id]}) w, Ret (Some 200%Z, None))
    else (w, Ret (Some 404%Z, Some mem404))
}.

#[export] Instance Mem_dashboards_sound : SoundDashboardsApi (W := Mem) (R := gset string).
Proof.
  refine {| dashboards r := r |}.
  - intros id. split.
    + intros w. cbn. by case_bool_decide.
    + intros w w' e. cbn. case_bool_decide; [done|]. by intros.
  - intros d w. cbn. case_bool_decide as Hn; [done|]. cbn. split; [done|].
    split; [|split; [|done]]; intros ?; apply Hn; auto.
  - intros id d. split.
    + intros w. cbn. by case_bool_decide.
    + intros w w' e. cbn. case_bool_decide; [done|]. by intros.
  - intros id w. cbn. by case_bool_decide.
Defined.

Definition mem_handlers : gmap string (ResourceHandler Mem) :=
  {[ SupportedResourcesType.Dashboard := Dashboards.DashboardHandler ]}.

Definition mem_hash (sp : DatadogGenericResourceSpec) : string + error := inl (gr_JsonSpec sp).

(** A dashboard that was created, with its finalizer. *)
Definition mem_status (id hash : string) : DatadogGenericResourceStatus :=
  mkGRStatus [] id "author" (Some 0%Z) DatadogSyncStatusOK hash (Some 0%Z) "" (Some 0%Z) None.

Definition mem_object (deletion : option Time) (id hash : string) : DatadogGenericResource :=
  mkCustomResource "default" "board" "1" deletion [datadogGenericResourceFinalizer]
    (mkGRSpec SupportedResourcesType.Dashboard "spec") (mem_status id hash).

Definition mem_of (o : DatadogGenericResource) (ds : gset string) : Mem := mkMem {[ co_key o := o ]} ds "new" 0.

Abbreviation mem_reconcile := (Reconcile mem_handlers defaultRequeuePeriod defaultForceSyncPeriod mem_hash (-100) 4).

(** ** Witnesses *)

Lemma mem_handler_of (o : DatadogGenericResource) : gr_Type (co_Spec o) = SupportedResourcesType.Dashboard →
  mem_handlers !! gr_Type (co_Spec o) = Some Dashboards.DashboardHandler.
Proof. intros ->. reflexivity. Qed.

Definition mem_deleted : DatadogGenericResource := mem_object (Some 1%Z) "d1" "spec".

Lemma remote_resource_not_orphaned_witness :
  let w := mem_of mem_deleted {["d1"]} in
  let w' := (mem_reconcile None 0 mem_deleted w).1 in
  finalizer_stored w' (co_key mem_deleted) datadogGenericResourceFinalizer = false ∧
  (gr_Id (co_Status mem_deleted) = "" ∨ gr_Id (co_Status mem_deleted) ∉ mem_dashboards w').
Proof.
  cbv zeta. split; [vm_compute; reflexivity|].
  eapply (remote_resource_not_orphaned mem_handlers Dashboards.DashboardHandler defaultRequeuePeriod
    defaultForceSyncPeriod ltac:(done) mem_hash (-100) 4 None 0 mem_deleted (mem_of mem_deleted {["d1"]})
    (mem_reconcile None 0 mem_deleted (mem_of mem_deleted {["d1"]})).1 (mem_reconcile None 0 mem_deleted (mem_of mem_deleted {["d1"]})).2).
  - by apply mem_handler_of.
  - vm_compute. reflexivity.
  - apply surjective_pairing.
  - vm_compute. reflexivity.
Defined.

Definition mem_changed : DatadogGenericResource := mem_object None "d1" "old".

Lemma existing_resource_not_duplicated_witness :
  mem_dashboards (mem_reconcile None 0 mem_changed (mem_of mem_changed {["d1"]})).1 ⊆ {["d1"]}.
Proof.
  refine (existing_resource_not_duplicated mem_handlers Dashboards.DashboardHandler defaultRequeuePeriod
    defaultForceSyncPeriod ltac:(done) mem_hash (-100) 4 None 0 mem_changed (mem_of mem_changed {["d1"]})
    (mem_reconcile None 0 mem_changed (mem_of mem_changed {["d1"]})).1
    (mem_reconcile None 0 mem_changed (mem_of mem_changed {["d1"]})).2 _ _ _ _ _).
  - by apply mem_handler_of.
  - discriminate.
  - cbn. set_solver.
  - cbn. by eexists.
  - apply surjective_pairing.
Defined.

Definition mem_new : DatadogGenericResource := mem_object None "" "".

Lemma created_resource_is_recorded_witness :
  let w' := (mem_reconcile None 0 mem_new (mem_of mem_new ∅)).1 in
  gr_Id ∘ co_Status <$> stored w' !! co_key mem_new = Some "new".
Proof.
  cbv zeta.
  eapply (created_resource_is_recorded mem_handlers Dashboards.DashboardHandler defaultRequeuePeriod
    defaultForceSyncPeriod ltac:(done) mem_hash (-100) 4 None 0 mem_new (mem_of mem_new ∅)
    (mem_reconcile None 0 mem_new (mem_of mem_new ∅)).1).
  - by apply mem_handler_of.
  - vm_compute. reflexivity.
  - vm_compute. reflexivity.
  - reflexivity.
  - vm_compute. reflexivity.
  - cbn. set_solver.
Defined.

Lemma synced_status_is_current_witness :
  let w' := (mem_reconcile None 0 mem_changed (mem_of mem_changed {["d1"]})).1 in
  gr_CurrentHash <$> (co_Status <$> stored w' !! co_key mem_changed) = Some "spec".
Proof.
  cbv zeta.
  assert (Hst : ∃ st, co_Status <$> stored (mem_reconcile None 0 mem_changed (mem_of mem_changed {["d1"]})).1
                        !! co_key mem_changed = Some st ∧ gr_SyncStatus st = DatadogSyncStatusOK).
  { eexists. split; [vm_compute; reflexivity|reflexivity]. }
  destruct Hst as (st & Hst & Hok). rewrite Hst. cbn. f_equal.
  eapply (synced_status_is_current mem_handlers Dashboards.DashboardHandler defaultRequeuePeriod
    defaultForceSyncPeriod ltac:(done) mem_hash (-100) 4 None 0 mem_changed (mem_of mem_changed {["d1"]})
    (mem_reconcile None 0 mem_changed (mem_of mem_changed {["d1"]})).1); [..|exact Hst|exact Hok].
  - by apply mem_handler_of.
  - vm_compute. reflexivity.
  - reflexivity.
  - reflexivity.
  - vm_compute. reflexivity.
  - reflexivity.
Defined.

Definition mem_idle : DatadogGenericResource := mem_object None "d1" "spec".

Lemma unchanged_resource_left_alone_witness :
  mem_reconcile None 1 mem_idle (mem_of mem_idle {["d1"]}) =
    (mem_of mem_idle {["d1"]}, Ret (RequeueAfter defaultRequeuePeriod, None)).
Proof.
  apply (unchanged_resource_left_alone mem_handlers Dashboards.DashboardHandler).
  - by apply mem_handler_of.
  - reflexivity.
  - vm_compute. reflexivity.
  - discriminate.
  - reflexivity.
  - vm_compute. reflexivity.
  - vm_compute. reflexivity.
Defined.

(** The object in hand has an older resource version than the one stored. *)
Definition mem_stale : DatadogGenericResource := set_co_ResourceVersion "0" mem_new.

Lemma stale_status_is_written_witness :
  let run := updateStatusIfNeeded defaultRequeuePeriod 4 mem_stale (mem_status "new" "spec")
               (RequeueAfter defaultRequeuePeriod) (mem_of mem_new ∅) in
  IsConflict <$> (match (client_StatusUpdate (set_co_Status (mem_status "new" "spec") mem_stale) (mem_of mem_new ∅)).2 with
                  | Fail e => Some e | _ => None end) = Some true ∧
  run.2 = Ret (RequeueAfter defaultRequeuePeriod, None) ∧
  status_answered mem_stale (mem_status "new" "spec") (RequeueAfter defaultRequeuePeriod) (mem_of mem_new ∅) run.1 run.2 ∧
  (∀ w1 e, co_Status mem_stale ≠ mem_status "new" "spec" →
     client_StatusUpdate (set_co_Status (mem_status "new" "spec") mem_stale) (mem_of mem_new ∅) = (w1, Fail e) →
     IsConflict e = false →
     run = (w1, Ret (mkResult true defaultRequeuePeriod (res_Priority (RequeueAfter defaultRequeuePeriod)), Some e))) ∧
  (∀ (_ : ReliableWorld Mem DatadogGenericResourceSpec DatadogGenericResourceStatus (gset string)) old,
     stored (mem_of mem_new ∅) !! co_key mem_stale = Some old → co_key old = co_key mem_stale →
     co_Status mem_stale ≠ mem_status "new" "spec" →
     run.2 = Ret (RequeueAfter defaultRequeuePeriod, None) ∧
     co_Status <$> stored run.1 !! co_key mem_stale = Some (mem_status "new" "spec")).
Proof.
  split; [vm_compute; reflexivity|]. split; [vm_compute; reflexivity|].
  apply (stale_status_is_written (W := Mem) (R := gset string) defaultRequeuePeriod 4 mem_stale). reflexivity.
Defined.

(** ** SLOs *)

(** Quantities are numbers of hundredths. *)
#[export] Instance Mem_quantity : QuantityOps := {
  Quantity := Z; Float64 := Z; Quantity_eq_dec := _; AsApproximateFloat64 q := q; DecFloat64 q := q;
  float_le_Z f n := bool_decide (f ≤ 100 * n)%Z; float_ge_Z f n := bool_decide (100 * n ≤ f)%Z
}.

Definition mem_slo : SLO.DatadogSLOSpec :=
  SLO.mkSLOSpec "availability" None [] [] [] (Some (SLO.mkSLOQuery "good" "all")) None SLO.DatadogSLOTypeMetric "30d"
    9990%Z (Some 9995%Z) None.

Definition mem_timeframe (tf : string) : option string :=
  if bool_decide (tf ∈ ["7d"; "30d"; "90d"; "custom"]) then Some tf else None.

Lemma valid_slo_builds_witness :
  ∃ req slo, SLO.buildSLO mem_timeframe mem_slo tt = (tt, Ret (req, slo)) ∧
    requested req = wanted mem_slo ∧ updated slo = wanted mem_slo.
Proof.
  apply (valid_slo_builds mem_timeframe mem_slo tt).
  - intros tf Htf. unfold mem_timeframe. rewrite bool_decide_true; [done|set_solver].
  - vm_compute. reflexivity.
Defined.
