(* ===== verification/Affinity.v ===== *)
(** * Merging affinities.

    Models [internal/controller/datadogagent/common/affinity.go].  The terms of
    two node selectors are multiplied out with [append] on the slices of the
    first, which writes into their arrays when these have room: slices are
    headers into a store of arrays. *)

From stdpp Require Import base strings list.
From S2P Require Import Prelude GoRun FleetData Profiles.

(** ** Slices of requirements *)

Record Slice := mkSlice { sl_array : nat; sl_len : nat; sl_cap : nat }.

(** The arrays, by the order of their allocation. *)
Abbreviation Arrays := (list (list NodeSelectorRequirement)).

Definition zeroRequirement : NodeSelectorRequirement := mkNSR "" "" [].

Definition read (h : Arrays) (s : Slice) : list NodeSelectorRequirement :=
  take (sl_len s) (default [] (h !! sl_array s)).

(** [append(s, t...)]: in place when the array of [s] has room, and otherwise
    into a new one, whose capacity the runtime chooses: [slack] more than needed. *)
Definition append (slack : nat → nat) (s t : Slice) : GoM Arrays Slice := λ h,
  let new := read h t in
  let len := sl_len s + length new in
  if bool_decide (len ≤ sl_cap s)
  then (alter (λ a, take (sl_len s) a ++ new ++ drop len a) (sl_array s) h, Ret (mkSlice (sl_array s) len (sl_cap s)))
  else (h ++ [read h s ++ new ++ replicate (slack len) zeroRequirement],
        Ret (mkSlice (length h) len (len + slack len))).

(** ** Affinities *)

Record NodeSelectorTerm := mkTerm { MatchExpressions : Slice; MatchFields : Slice }.

(** Preferences and the requirements on pods are copied as they are. *)
Record NodeAffinity := mkNodeAffinity {
  na_Required : option (list NodeSelectorTerm);
  na_Preferred : list json
}.
Record PodAffinity := mkPodAffinity { pa_Required : list json; pa_Preferred : list json }.
Record PodAntiAffinity := mkPodAntiAffinity { paa_Required : list json; paa_Preferred : list json }.
Record Affinity := mkAffinity {
  aff_Node : option NodeAffinity;
  aff_Pod : option PodAffinity;
  aff_PodAnti : option PodAntiAffinity
}.

(** Both nil, one of them, or the merge of both. *)
Definition mergePointers {A : Type} (merge : A → A → GoM Arrays A) (a b : option A) : GoM Arrays (option A) :=
  match a, b with
  | Some a, Some b => c ← merge a b; mret (Some c)
  | None, b => mret b
  | a, None => mret a
  end.

Section Merge.
Context (slack : nat → nat).

Definition mergeTerms (term1 term2 : NodeSelectorTerm) : GoM Arrays NodeSelectorTerm :=
  expressions ← append slack (MatchExpressions term1) (MatchExpressions term2);
  fields ← append slack (MatchFields term1) (MatchFields term2);
  mret (mkTerm expressions fields).

(** The inner loop. *)
Fixpoint mergeTermWith (term1 : NodeSelectorTerm) (terms2 : list NodeSelectorTerm) : GoM Arrays (list NodeSelectorTerm) :=
  match terms2 with
  | [] => mret []
  | term2 :: terms2 =>
      term ← mergeTerms term1 term2;
      terms ← mergeTermWith term1 terms2;
      mret (term :: terms)
  end.

Fixpoint mergeSelectorTerms (terms1 terms2 : list NodeSelectorTerm) : GoM Arrays (list NodeSelectorTerm) :=
  match terms1 with
  | [] => mret []
  | term1 :: terms1 =>
      merged ← mergeTermWith term1 terms2;
      others ← mergeSelectorTerms terms1 terms2;
      mret (merged ++ others)
  end.

Definition mergeNodeSelectors : option (list NodeSelectorTerm) → option (list NodeSelectorTerm)
    → GoM Arrays (option (list NodeSelectorTerm)) := mergePointers mergeSelectorTerms.

Definition mergeNodeAffinities : option NodeAffinity → option NodeAffinity → GoM Arrays (option NodeAffinity) :=
  mergePointers (λ affinity1 affinity2,
    required ← mergeNodeSelectors (na_Required affinity1) (na_Required affinity2);
    mret (mkNodeAffinity required (na_Preferred affinity1 ++ na_Preferred affinity2))).

Definition mergePodAffinities : option PodAffinity → option PodAffinity → GoM Arrays (option PodAffinity) :=
  mergePointers (λ affinity1 affinity2,
    mret (mkPodAffinity (pa_Required affinity1 ++ pa_Required affinity2) (pa_Preferred affinity1 ++ pa_Preferred affinity2))).

Definition mergePodAntiAffinities : option PodAntiAffinity → option PodAntiAffinity → GoM Arrays (option PodAntiAffinity) :=
  mergePointers (λ affinity1 affinity2,
    mret (mkPodAntiAffinity (paa_Required affinity1 ++ paa_Required affinity2)
            (paa_Preferred affinity1 ++ paa_Preferred affinity2))).

Definition MergeAffinities : option Affinity → option Affinity → GoM Arrays (option Affinity) :=
  mergePointers (λ affinity1 affinity2,
    node ← mergeNodeAffinities (aff_Node affinity1) (aff_Node affinity2);
    pod ← mergePodAffinities (aff_Pod affinity1) (aff_Pod affinity2);
    anti ← mergePodAntiAffinities (aff_PodAnti affinity1) (aff_PodAnti affinity2);
    mret (mkAffinity node pod anti)).
End Merge.
