(* ===== verification/AffinityTheorems.v ===== *)
(** * A merged node selector selects the nodes both select.

    The terms of a selector are alternatives, the requirements of a term are all
    required, and an empty term selects nothing.  Over slices without spare
    capacity the merged selector is the conjunction; with spare capacity a merged
    term overwrites the one before it. *)

From Stdlib Require Import Lia.
From stdpp Require Import base strings list.
From S2P Require Import Prelude GoRun FleetData Profiles Affinity.

(** ** What a selector selects *)

Section Selects.
(** Whether the node has the label, or the field, that is required. *)
Context (label field : NodeSelectorRequirement → bool).

Definition term_selects (h : Arrays) (t : NodeSelectorTerm) : bool :=
  let expressions := read h (MatchExpressions t) in
  let fields := read h (MatchFields t) in
  negb (bool_decide (expressions = [] ∧ fields = [])) && forallb label expressions && forallb field fields.

Definition selects (h : Arrays) (terms : list NodeSelectorTerm) : bool := existsb (term_selects h) terms.
End Selects.

(** ** Slices *)

(** The array is there, as long as the capacity says. *)
Definition valid (h : Arrays) (s : Slice) : Prop :=
  sl_len s ≤ sl_cap s ∧ (sl_cap s = 0 ∨ ∃ a, h !! sl_array s = Some a ∧ length a = sl_cap s).
Definition full (s : Slice) : Prop := sl_len s = sl_cap s.

Lemma length_read h s : valid h s → length (read h s) = sl_len s.
Proof.
  intros [Hle [Hz|(a & Ha & Hl)]]; unfold read.
  - rewrite length_take. lia.
  - rewrite Ha, length_take. cbn. lia.
Qed.

Lemma read_prefix h h' s : valid h s → h `prefix_of` h' → read h' s = read h s.
Proof.
  intros [Hle [Hz|(a & Ha & Hl)]] Hp; unfold read.
  - assert (sl_len s = 0) as -> by lia. done.
  - by rewrite Ha, (prefix_lookup_Some _ _ _ _ Ha Hp).
Qed.

Lemma valid_prefix h h' s : valid h s → h `prefix_of` h' → valid h' s.
Proof.
  intros [Hle [Hz|(a & Ha & Hl)]] Hp; (split; [done|]); [by left|right].
  exists a. by split; [eapply prefix_lookup_Some|].
Qed.

(** Appending to a slice without room writes to no array there was. *)
Lemma append_full slack h s t :
  valid h s → full s → valid h t →
  ∃ h' s', append slack s t h = (h', Ret s') ∧ h `prefix_of` h' ∧ read h' s' = read h s ++ read h t.
Proof.
  intros Hs Hf Ht. unfold append. pose proof (length_read h s Hs) as Hlen. case_bool_decide as Hle.
  - assert (read h t = []) as He by (apply nil_length_inv; unfold full in Hf; lia). rewrite He in *. cbn in *.
    rewrite Nat.add_0_r in *. eexists _, _. split; [done|]. rewrite app_nil_r.
    assert (alter (λ a, take (sl_len s) a ++ drop (sl_len s) a) (sl_array s) h = h) as ->.
    { apply list_eq. intros i. destruct (decide (i = sl_array s)) as [->|Hi].
      - rewrite list_lookup_alter_eq. destruct (h !! _); cbn; [by rewrite take_drop|done].
      - by rewrite list_lookup_alter_ne by done. }
    done.
  - eexists _, _. split; [done|]. split; [by eexists|]. unfold read at 1. cbn.
    rewrite lookup_app_r, Nat.sub_diag by lia. cbn. rewrite app_assoc, take_app_le by (rewrite length_app; lia).
    apply take_ge. rewrite length_app. lia.
Qed.

(** ** Terms *)

Definition valid_term (h : Arrays) (t : NodeSelectorTerm) : Prop :=
  valid h (MatchExpressions t) ∧ valid h (MatchFields t).
Definition full_term (t : NodeSelectorTerm) : Prop := full (MatchExpressions t) ∧ full (MatchFields t).
Definition nonempty_term (h : Arrays) (t : NodeSelectorTerm) : Prop :=
  ¬ (read h (MatchExpressions t) = [] ∧ read h (MatchFields t) = []).

Section Terms.
Context (slack : nat → nat) (label field : NodeSelectorRequirement → bool).
Abbreviation selects := (selects label field).
Abbreviation term_selects := (term_selects label field).

Lemma valid_term_prefix h h' t : valid_term h t → h `prefix_of` h' → valid_term h' t.
Proof. intros [? ?] ?. split; by eapply valid_prefix. Qed.

Lemma term_selects_prefix h h' t : valid_term h t → h `prefix_of` h' → term_selects h' t = term_selects h t.
Proof. intros [? ?] ?. unfold term_selects. by rewrite !(read_prefix h h') by done. Qed.

Lemma nonempty_prefix h h' t : valid_term h t → h `prefix_of` h' → nonempty_term h t → nonempty_term h' t.
Proof. intros [? ?] ?. unfold nonempty_term. by rewrite !(read_prefix h h') by done. Qed.

(** What a run of the merge leaves: the arrays there were, and terms that
    select as [sel] says. *)
Definition merged h (m : GoM Arrays (list NodeSelectorTerm)) (sel : bool) : Prop :=
  ∃ h' terms, m h = (h', Ret terms) ∧ h `prefix_of` h' ∧ Forall (valid_term h') terms ∧ selects h' terms = sel.

Lemma append_valid h s t h' s' :
  valid h s → valid h t → append slack s t h = (h', Ret s') → valid h' s'.
Proof.
  intros Hs Ht. unfold append. pose proof (length_read h s Hs) as Hl. case_bool_decide as Hle; intros [= <- <-].
  - split; cbn; [done|]. destruct Hs as [_ [Hz|(a & Ha & Hla)]]; [by left|right].
    rewrite list_lookup_alter_eq, Ha. cbn. eexists. split; [done|]. rewrite !length_app, length_take, length_drop. lia.
  - split; cbn; [lia|right]. rewrite lookup_app_r, Nat.sub_diag by lia. cbn. eexists. split; [done|].
    rewrite !length_app, length_replicate. lia.
Qed.

Lemma mergeTerms_selects h t1 t2 :
  valid_term h t1 → full_term t1 → nonempty_term h t1 → valid_term h t2 → nonempty_term h t2 →
  ∃ h' t, mergeTerms slack t1 t2 h = (h', Ret t) ∧ h `prefix_of` h' ∧ valid_term h' t ∧
          term_selects h' t = term_selects h t1 && term_selects h t2.
Proof.
  intros [He1 Hf1] [Fe Ff] Hn1 [He2 Hf2] Hn2. unfold mergeTerms.
  destruct (append_full slack h _ _ He1 Fe He2) as (h1 & e & Ha1 & Hp1 & Hr1).
  assert (valid h1 e) as Hve by (by eapply append_valid in Ha1).
  destruct (append_full slack h1 (MatchFields t1) (MatchFields t2)) as (h2 & f & Ha2 & Hp2 & Hr2);
    [by eapply valid_prefix|done|by eapply valid_prefix|].
  assert (valid h2 f) as Hvf by (eapply append_valid in Ha2; [done|by eapply valid_prefix..]).
  exists h2, (mkTerm e f). unfold mbind, GoM_bind. rewrite Ha1, Ha2. split; [done|].
  split; [by etrans|]. split; [split; [by eapply valid_prefix|done]|].
  unfold AffinityTheorems.term_selects. cbn. rewrite Hr2, (read_prefix h1 h2 e Hve Hp2), Hr1, !(read_prefix h h1) by done.
  rewrite !forallb_app. unfold nonempty_term in *. rewrite !bool_decide_false by (try done; intros [[]%app_nil []%app_nil]; auto).
  cbn. destruct (forallb label _), (forallb field _), (forallb label _), (forallb field _); done.
Qed.

Lemma selects_cons h t terms : selects h (t :: terms) = term_selects h t || selects h terms.
Proof. done. Qed.

Lemma selects_app h a b : selects h (a ++ b) = selects h a || selects h b.
Proof. apply existsb_app. Qed.

Lemma selects_prefix h h' terms :
  Forall (valid_term h) terms → h `prefix_of` h' → selects h' terms = selects h terms.
Proof.
  intros Hv Hp. induction Hv as [|t terms Ht _ IH]; [done|].
  by rewrite !selects_cons, IH, (term_selects_prefix h h' t).
Qed.

Lemma Forall_valid_prefix h h' terms :
  Forall (valid_term h) terms → h `prefix_of` h' → Forall (valid_term h') terms.
Proof. intros Hv Hp. eapply Forall_impl; [exact Hv|]. intros t Ht. by eapply valid_term_prefix. Qed.

(** Terms that can be merged. *)
Definition mergeable h (terms : list NodeSelectorTerm) : Prop :=
  Forall (λ t, valid_term h t ∧ nonempty_term h t) terms.

Lemma mergeable_prefix h h' terms : mergeable h terms → h `prefix_of` h' → mergeable h' terms.
Proof.
  intros Hm Hp. eapply Forall_impl; [exact Hm|]. intros t [Hv Hn].
  split; [by eapply valid_term_prefix|by eapply nonempty_prefix].
Qed.

Lemma mergeable_valid h terms : mergeable h terms → Forall (valid_term h) terms.
Proof. intros Hm. eapply Forall_impl; [exact Hm|]. by intros t [? _]. Qed.

Lemma mergeTermWith_selects h t1 terms2 :
  valid_term h t1 → full_term t1 → nonempty_term h t1 → mergeable h terms2 →
  merged h (mergeTermWith slack t1 terms2) (term_selects h t1 && selects h terms2).
Proof.
  intros Hv1 Hf1 Hn1 Hm. revert h Hv1 Hn1 Hm. induction terms2 as [|t2 terms2 IH]; intros h Hv1 Hn1 Hm.
  - exists h, []. by rewrite andb_false_r.
  - apply Forall_cons in Hm as [[Hv2 Hn2] Hm].
    destruct (mergeTerms_selects h t1 t2 Hv1 Hf1 Hn1 Hv2 Hn2) as (h1 & t & Ht & Hp1 & Hvt & Hst).
    destruct (IH h1) as (h2 & terms & Hts & Hp2 & Hvs & Hss);
      [by eapply valid_term_prefix|by eapply nonempty_prefix|by eapply mergeable_prefix|].
    exists h2, (t :: terms). cbn [mergeTermWith]. unfold mbind, GoM_bind. rewrite Ht, Hts.
    split; [done|]. split; [by etrans|]. split; [constructor; [by eapply valid_term_prefix|done]|].
    rewrite !selects_cons, (term_selects_prefix h1 h2 t), Hst, Hss, (term_selects_prefix h h1 t1) by done.
    rewrite (selects_prefix h h1) by (try done; by apply mergeable_valid).
    by destruct (term_selects h t1), (term_selects h t2).
Qed.

Lemma mergeSelectorTerms_selects h terms1 terms2 :
  mergeable h terms1 → Forall full_term terms1 → mergeable h terms2 →
  merged h (mergeSelectorTerms slack terms1 terms2) (selects h terms1 && selects h terms2).
Proof.
  intros Hm1 Hf1 Hm2. revert h Hm1 Hm2. induction Hf1 as [|t1 terms1 Ht1 _ IH]; intros h Hm1 Hm2; [by exists h, []|].
  apply Forall_cons in Hm1 as [[Hv1 Hn1] Hm1].
  destruct (mergeTermWith_selects h t1 terms2 Hv1 Ht1 Hn1 Hm2) as (h1 & a & Ha & Hp1 & Hva & Hsa).
  destruct (IH h1) as (h2 & b & Hb & Hp2 & Hvb & Hsb); [by eapply mergeable_prefix..|].
  exists h2, (a ++ b). cbn [mergeSelectorTerms]. unfold mbind, GoM_bind. rewrite Ha, Hb.
  split; [done|]. split; [by etrans|]. split; [apply Forall_app; split; [by eapply Forall_valid_prefix|done]|].
  rewrite selects_app, selects_cons, (selects_prefix h1 h2 a), Hsa, Hsb by done.
  rewrite (selects_prefix h h1 terms1), (selects_prefix h h1 terms2) by (try done; by apply mergeable_valid).
  by destruct (term_selects h t1), (selects h terms1), (selects h terms2).
Qed.
End Terms.

(** C32: the merge of two node selectors selects the nodes that both select.  For
    selectors without empty terms, if the slices of the first have no spare
    capacity, the merged selector selects a node exactly when both selectors do,
    and neither of them was changed. *)
Theorem merged_selector_is_conjunction slack h terms1 terms2 :
  mergeable h terms1 → mergeable h terms2 → Forall full_term terms1 →
  ∃ h' terms, mergeNodeSelectors slack (Some terms1) (Some terms2) h = (h', Ret (Some terms)) ∧
    ∀ label field,
      selects label field h' terms = selects label field h terms1 && selects label field h terms2 ∧
      selects label field h' terms1 = selects label field h terms1 ∧
      selects label field h' terms2 = selects label field h terms2.
Proof.
  intros Hm1 Hm2 Hf.
  destruct (mergeSelectorTerms_selects slack (λ _, true) (λ _, true) h terms1 terms2 Hm1 Hf Hm2)
    as (h' & terms & Hr & Hp & Hv & _).
  exists h', terms. cbn. unfold mbind, GoM_bind. rewrite Hr. split; [done|]. intros label field.
  destruct (mergeSelectorTerms_selects slack label field h terms1 terms2 Hm1 Hf Hm2) as (h2 & terms' & Hr' & _ & _ & Hs).
  rewrite Hr in Hr'. injection Hr' as <- <-. split; [done|].
  split; apply selects_prefix; try done; by apply mergeable_valid.
Qed.

(** ** A cluster with two zones *)

Definition on (key value : string) : NodeSelectorRequirement := mkNSR key "In" [value].
Definition nilSlice : Slice := mkSlice 0 0 0.
Definition linux (cap : nat) : NodeSelectorTerm := mkTerm (mkSlice 0 1 cap) nilSlice.
Definition zone (n : nat) : NodeSelectorTerm := mkTerm (mkSlice n 1 1) nilSlice.

Ltac slices_valid :=
  repeat (apply Forall_cons; split); try apply Forall_nil; try done;
  (split; [split; (split; [cbn; lia|first [by left|right; eexists; by split]])|intros [Hread _]; discriminate Hread]).

Lemma merged_selector_is_conjunction_witness :
  let h := [[on "os" "linux"]; [on "zone" "a"]; [on "zone" "b"]] in
  ∃ h' terms, mergeNodeSelectors id (Some [linux 1]) (Some [zone 1; zone 2]) h = (h', Ret (Some terms)) ∧
    (read h' ∘ MatchExpressions) <$> terms = [[on "os" "linux"; on "zone" "a"]; [on "os" "linux"; on "zone" "b"]] ∧
    ∀ label field, selects label field h' terms = selects label field h [linux 1] && selects label field h [zone 1; zone 2].
Proof.
  intros h.
  destruct (merged_selector_is_conjunction id h [linux 1] [zone 1; zone 2]) as (h' & terms & Hr & Hs).
  - slices_valid.
  - slices_valid.
  - by repeat constructor.
  - exists h', terms. split; [exact Hr|]. split.
    + vm_compute in Hr. injection Hr as <- <-. reflexivity.
    + intros label field. apply Hs.
Defined.

(** With room for one more requirement in the array of the first selector, the
    second merged term overwrites the first: zone [a] is lost. *)
Example spare_capacity_loses_a_term :
  let h := [[on "os" "linux"; zeroRequirement]; [on "zone" "a"]; [on "zone" "b"]] in
  let '(h', r) := mergeNodeSelectors id (Some [linux 2]) (Some [zone 1; zone 2]) h in
  match r with
  | Ret (Some terms) => (read h' ∘ MatchExpressions) <$> terms
  | _ => []
  end = [[on "os" "linux"; on "zone" "b"]; [on "os" "linux"; on "zone" "b"]].
Proof. vm_compute. reflexivity. Qed.

(** An empty term selects nothing, but its merge with another does. *)
Example empty_term_is_dropped :
  let h := [[on "zone" "a"]] in
  let '(h', r) := mergeNodeSelectors id (Some [mkTerm nilSlice nilSlice]) (Some [zone 0]) h in
  match r with
  | Ret (Some terms) => selects (λ _, true) (λ _, true) h' terms
  | _ => false
  end = true ∧ selects (λ _, true) (λ _, true) h [mkTerm nilSlice nilSlice] = false.
Proof. vm_compute. split; reflexivity. Qed.
