(* ===== verification/AgentSpec.v ===== *)
(** * The spec of a DatadogAgent.

    Models the structs of [api/datadoghq/v2alpha1/datadogagent_types.go]: a
    pointer is an option, an embedded struct a field of its own name, a string
    type its text.  Values of Kubernetes types the operator only hands on are
    their JSON.  A slice is a list and a map a finite one, nil being
    the empty one, but where the code compares it with nil. *)

From Stdlib Require Import ZArith.
From stdpp Require Import base gmap strings list.
From S2P Require Import Prelude PodMerger FleetData Affinity.

(** ** Structs *)

(** [api/datadoghq/common/types.go] *)
Record RollingUpdate := mkRollingUpdate { ru_MaxUnavailable : option json; ru_MaxSurge : option json }.
Record UpdateStrategy := mkUpdateStrategy { us_Type : string; us_RollingUpdate : option RollingUpdate }.

Record ConfigMapConfig := mkConfigMapConfig { ConfigMap_Name : string; ConfigMap_Items : list KeyToPath }.

Record CustomConfig := mkCustomConfig { Custom_ConfigData : option string; Custom_ConfigMap : option ConfigMapConfig }.

Record CoreConfig := mkCoreConfig {
  Core_Enabled : option bool;
  Core_ExtensionURL : option string;
  Core_ExtensionTimeout : option Z
}.

Record OtelCollectorFeatureConfig := mkOtelCollectorFeatureConfig {
  OtelCollector_Enabled : option bool;
  OtelCollector_Conf : option CustomConfig;
  OtelCollector_Ports : list (option (ContainerPort json));
  OtelCollector_CoreConfig : option CoreConfig
}.

Record OtelAgentGatewayFeatureConfig := mkOtelAgentGatewayFeatureConfig {
  OtelAgentGateway_Enabled : option bool;
  OtelAgentGateway_Conf : option CustomConfig;
  OtelAgentGateway_Ports : list (option (ContainerPort json));
  OtelAgentGateway_FeatureGates : option string
}.

Record LogCollectionFeatureConfig := mkLogCollectionFeatureConfig {
  LogCollection_Enabled : option bool;
  LogCollection_ContainerCollectAll : option bool;
  LogCollection_ContainerCollectUsingFiles : option bool;
  LogCollection_ContainerLogsPath : option string;
  LogCollection_PodLogsPath : option string;
  LogCollection_ContainerSymlinksPath : option string;
  LogCollection_TempStoragePath : option string;
  LogCollection_OpenFilesLimit : option Z;
  LogCollection_AutoMultiLineDetection : option bool
}.

Record LiveProcessCollectionFeatureConfig := mkLiveProcessCollectionFeatureConfig {
  LiveProcessCollection_Enabled : option bool;
  LiveProcessCollection_ScrubProcessArguments : option bool;
  LiveProcessCollection_StripProcessArguments : option bool
}.

Record LiveContainerCollectionFeatureConfig := mkLiveContainerCollectionFeatureConfig { LiveContainerCollection_Enabled : option bool }.

Record ProcessDiscoveryFeatureConfig := mkProcessDiscoveryFeatureConfig { ProcessDiscovery_Enabled : option bool }.

Record OOMKillFeatureConfig := mkOOMKillFeatureConfig { OOMKill_Enabled : option bool }.

Record TCPQueueLengthFeatureConfig := mkTCPQueueLengthFeatureConfig { TCPQueueLength_Enabled : option bool }.

Record EBPFCheckFeatureConfig := mkEBPFCheckFeatureConfig { EBPFCheck_Enabled : option bool }.

Record HostPortConfig := mkHostPortConfig { HostPort_Enabled : option bool; HostPort_Port : option Z }.

Record UnixDomainSocketConfig := mkUnixDomainSocketConfig { UnixDomainSocket_Enabled : option bool; UnixDomainSocket_Path : option string }.

Record LanguageDetectionConfig := mkLanguageDetectionConfig { LanguageDetection_Enabled : option bool }.

Record InjectorConfig := mkInjectorConfig { Injector_ImageTag : string }.

Record NamespaceSelector := mkNamespaceSelector {
  NamespaceSelector_MatchNames : list string;
  NamespaceSelector_MatchLabels : gmap string string;
  NamespaceSelector_MatchExpressions : list json
}.

Record SSITarget := mkSSITarget {
  SSITarget_Name : string;
  SSITarget_PodSelector : option json;
  SSITarget_NamespaceSelector : option NamespaceSelector;
  SSITarget_TracerVersions : gmap string string;
  SSITarget_TracerConfigs : list (EnvVar json)
}.

Record SingleStepInstrumentation := mkSingleStepInstrumentation {
  SingleStepInstrumentation_Enabled : option bool;
  SingleStepInstrumentation_EnabledNamespaces : list string;
  SingleStepInstrumentation_DisabledNamespaces : list string;
  SingleStepInstrumentation_LibVersions : gmap string string;
  SingleStepInstrumentation_LanguageDetection : option LanguageDetectionConfig;
  SingleStepInstrumentation_Injector : option InjectorConfig;
  SingleStepInstrumentation_InjectionMode : string;
  SingleStepInstrumentation_Targets : list SSITarget
}.

Record ErrorTrackingStandalone := mkErrorTrackingStandalone { ErrorTrackingStandalone_Enabled : option bool }.

Record APMFeatureConfig := mkAPMFeatureConfig {
  APM_Enabled : option bool;
  APM_HostPortConfig : option HostPortConfig;
  APM_UnixDomainSocketConfig : option UnixDomainSocketConfig;
  APM_SingleStepInstrumentation : option SingleStepInstrumentation;
  APM_ErrorTrackingStandalone : option ErrorTrackingStandalone
}.

Record ASMThreatsConfig := mkASMThreatsConfig { ASMThreats_Enabled : option bool }.

Record ASMSCAConfig := mkASMSCAConfig { ASMSCA_Enabled : option bool }.

Record ASMIASTConfig := mkASMIASTConfig { ASMIAST_Enabled : option bool }.

Record ASMFeatureConfig := mkASMFeatureConfig {
  ASM_Threats : option ASMThreatsConfig;
  ASM_SCA : option ASMSCAConfig;
  ASM_IAST : option ASMIASTConfig
}.

Record CSPMHostBenchmarksConfig := mkCSPMHostBenchmarksConfig { CSPMHostBenchmarks_Enabled : option bool }.

Record CSPMFeatureConfig := mkCSPMFeatureConfig {
  CSPM_Enabled : option bool;
  CSPM_CheckInterval : option Z;
  CSPM_CustomBenchmarks : option CustomConfig;
  CSPM_HostBenchmarks : option CSPMHostBenchmarksConfig;
  CSPM_RunInSystemProbe : option bool
}.

Record CWSEnforcementConfig := mkCWSEnforcementConfig { CWSEnforcement_Enabled : option bool }.

Record CWSNetworkConfig := mkCWSNetworkConfig { CWSNetwork_Enabled : option bool }.

Record CWSSecurityProfilesConfig := mkCWSSecurityProfilesConfig { CWSSecurityProfiles_Enabled : option bool }.

Record CWSRemoteConfigurationConfig := mkCWSRemoteConfigurationConfig { CWSRemoteConfiguration_Enabled : option bool }.

Record CWSFeatureConfig := mkCWSFeatureConfig {
  CWS_Enabled : option bool;
  CWS_SyscallMonitorEnabled : option bool;
  CWS_DirectSendFromSystemProbe : option bool;
  CWS_Enforcement : option CWSEnforcementConfig;
  CWS_Network : option CWSNetworkConfig;
  CWS_SecurityProfiles : option CWSSecurityProfilesConfig;
  CWS_RemoteConfiguration : option CWSRemoteConfigurationConfig;
  CWS_CustomPolicies : option CustomConfig
}.

Record NPMFeatureConfig := mkNPMFeatureConfig {
  NPM_Enabled : option bool;
  NPM_EnableConntrack : option bool;
  NPM_CollectDNSStats : option bool
}.

Record USMFeatureConfig := mkUSMFeatureConfig { USM_Enabled : option bool }.

Record DynamicInstrumentationFeatureConfig := mkDynamicInstrumentationFeatureConfig { DynamicInstrumentation_Enabled : option bool }.

Record DogstatsdFeatureConfig := mkDogstatsdFeatureConfig {
  Dogstatsd_OriginDetectionEnabled : option bool;
  Dogstatsd_TagCardinality : option string;
  Dogstatsd_HostPortConfig : option HostPortConfig;
  Dogstatsd_UnixDomainSocketConfig : option UnixDomainSocketConfig;
  Dogstatsd_MapperProfiles : option CustomConfig;
  Dogstatsd_NonLocalTraffic : option bool
}.

Record OTLPGRPCConfig := mkOTLPGRPCConfig {
  OTLPGRPC_Enabled : option bool;
  OTLPGRPC_HostPortConfig : option HostPortConfig;
  OTLPGRPC_Endpoint : option string
}.

Record OTLPHTTPConfig := mkOTLPHTTPConfig {
  OTLPHTTP_Enabled : option bool;
  OTLPHTTP_HostPortConfig : option HostPortConfig;
  OTLPHTTP_Endpoint : option string
}.

Record OTLPProtocolsConfig := mkOTLPProtocolsConfig {
  OTLPProtocols_GRPC : option OTLPGRPCConfig;
  OTLPProtocols_HTTP : option OTLPHTTPConfig
}.

Record OTLPReceiverConfig := mkOTLPReceiverConfig { OTLPReceiver_Protocols : OTLPProtocolsConfig }.

Record OTLPFeatureConfig := mkOTLPFeatureConfig { OTLP_Receiver : OTLPReceiverConfig }.

Record RemoteConfigurationFeatureConfig := mkRemoteConfigurationFeatureConfig { RemoteConfiguration_Enabled : option bool }.

Record SBOMContainerImageConfig := mkSBOMContainerImageConfig {
  SBOMContainerImage_Enabled : option bool;
  SBOMContainerImage_Analyzers : list string;
  SBOMContainerImage_UncompressedLayersSupport : bool;
  SBOMContainerImage_OverlayFSDirectScan : bool
}.

Record SBOMHostConfig := mkSBOMHostConfig { SBOMHost_Enabled : option bool; SBOMHost_Analyzers : list string }.

Record SBOMEnrichmentUsageConfig := mkSBOMEnrichmentUsageConfig { SBOMEnrichmentUsage_Enabled : option bool }.

Record SBOMEnrichmentConfig := mkSBOMEnrichmentConfig { SBOMEnrichment_Usage : option SBOMEnrichmentUsageConfig }.

Record SBOMFeatureConfig := mkSBOMFeatureConfig {
  SBOM_Enabled : option bool;
  SBOM_ContainerImage : option SBOMContainerImageConfig;
  SBOM_Host : option SBOMHostConfig;
  SBOM_Enrichment : option SBOMEnrichmentConfig
}.

Record ServiceDiscoveryFeatureConfig := mkServiceDiscoveryFeatureConfig { ServiceDiscovery_Enabled : option bool }.

Record GPUFeatureConfig := mkGPUFeatureConfig {
  GPU_Enabled : option bool;
  GPU_PrivilegedMode : option bool;
  GPU_PodRuntimeClassName : option string;
  GPU_PatchCgroupPermissions : option bool
}.

Record DataPlaneDogstatsdConfig := mkDataPlaneDogstatsdConfig { DataPlaneDogstatsd_Enabled : option bool }.

Record DataPlaneFeatureConfig := mkDataPlaneFeatureConfig {
  DataPlane_Enabled : option bool;
  DataPlane_Dogstatsd : option DataPlaneDogstatsdConfig
}.

Record EventTypes := mkEventTypes { EventTypes_Kind : string; EventTypes_Reasons : list string }.

Record EventCollectionFeatureConfig := mkEventCollectionFeatureConfig {
  EventCollection_CollectKubernetesEvents : option bool;
  EventCollection_UnbundleEvents : option bool;
  EventCollection_CollectedEventTypes : option (list EventTypes)
}.

Record OrchestratorExplorerFeatureConfig := mkOrchestratorExplorerFeatureConfig {
  OrchestratorExplorer_Enabled : option bool;
  OrchestratorExplorer_Conf : option CustomConfig;
  OrchestratorExplorer_ScrubContainers : option bool;
  OrchestratorExplorer_CustomResources : list string;
  OrchestratorExplorer_ExtraTags : list string;
  OrchestratorExplorer_DDUrl : option string
}.

Record GroupVersionKind := mkGroupVersionKind {
  GroupVersionKind_Group : string;
  GroupVersionKind_Version : string;
  GroupVersionKind_Kind : string
}.

Record Labels := mkLabels {
  Labels_CommonLabels : gmap string string;
  Labels_LabelsFromPath : gmap string (list string)
}.

Record MetricMeta := mkMetricMeta {
  MetricMeta_LabelsFromPath : gmap string (list string);
  MetricMeta_Path : list string
}.

Record MetricGauge := mkMetricGauge {
  MetricGauge_MetricMeta : MetricMeta;
  MetricGauge_ValueFrom : list string;
  MetricGauge_LabelFromKey : string;
  MetricGauge_NilIsZero : bool
}.

Record MetricStateSet := mkMetricStateSet {
  MetricStateSet_MetricMeta : MetricMeta;
  MetricStateSet_List : list string;
  MetricStateSet_LabelName : string;
  MetricStateSet_ValueFrom : list string
}.

Record MetricInfo := mkMetricInfo { MetricInfo_MetricMeta : MetricMeta; MetricInfo_LabelFromKey : string }.

Record Metric := mkMetric {
  Metric_Type : string;
  Metric_Gauge : option MetricGauge;
  Metric_StateSet : option MetricStateSet;
  Metric_Info : option MetricInfo
}.

Record Generator := mkGenerator {
  Generator_Name : string;
  Generator_Help : string;
  Generator_Each : Metric;
  Generator_Labels : Labels
}.

Record Resource := mkResource {
  Resource_MetricNamePrefix : option string;
  Resource_GroupVersionKind : GroupVersionKind;
  Resource_Labels : Labels;
  Resource_Metrics : list Generator;
  Resource_ResourcePlural : string
}.

Record KubeStateMetricsCoreFeatureConfig := mkKubeStateMetricsCoreFeatureConfig {
  KubeStateMetricsCore_Enabled : option bool;
  KubeStateMetricsCore_Conf : option CustomConfig;
  KubeStateMetricsCore_CollectCrMetrics : list Resource
}.

Record AdmissionControllerValidationConfig := mkAdmissionControllerValidationConfig { AdmissionControllerValidation_Enabled : option bool }.

Record AdmissionControllerMutationConfig := mkAdmissionControllerMutationConfig { AdmissionControllerMutation_Enabled : option bool }.

Record AgentImageConfig := mkAgentImageConfig {
  AgentImage_Name : string;
  AgentImage_Tag : string;
  AgentImage_JMXEnabled : bool;
  AgentImage_PullPolicy : option string;
  AgentImage_PullSecrets : option (list json)
}.

Record Selector := mkSelector {
  Selector_NamespaceSelector : option json;
  Selector_ObjectSelector : option json
}.

Record Profile := mkProfile {
  Profile_EnvVars : list (EnvVar json);
  Profile_ResourceRequirements : option json;
  Profile_SecurityContext : option (SecurityContext json)
}.

Record AdmissionControllerClusterAgentTLSVerificationConfig := mkAdmissionControllerClusterAgentTLSVerificationConfig {
  AdmissionControllerClusterAgentTLSVerification_Enabled : option bool;
  AdmissionControllerClusterAgentTLSVerification_CopyCaConfigMap : option bool
}.

Record AgentSidecarInjectionConfig := mkAgentSidecarInjectionConfig {
  AgentSidecarInjection_Enabled : option bool;
  AgentSidecarInjection_ClusterAgentCommunicationEnabled : option bool;
  AgentSidecarInjection_Provider : option string;
  AgentSidecarInjection_Registry : option string;
  AgentSidecarInjection_Image : option AgentImageConfig;
  AgentSidecarInjection_Selectors : list (option Selector);
  AgentSidecarInjection_Profiles : list (option Profile);
  AgentSidecarInjection_ClusterAgentTLSVerification : option AdmissionControllerClusterAgentTLSVerificationConfig
}.

Record KubernetesAdmissionEventsConfig := mkKubernetesAdmissionEventsConfig { KubernetesAdmissionEvents_Enabled : option bool }.

Record CWSInstrumentationConfig := mkCWSInstrumentationConfig {
  CWSInstrumentation_Enabled : option bool;
  CWSInstrumentation_Mode : option string
}.

Record AdmissionControllerProbeConfig := mkAdmissionControllerProbeConfig {
  AdmissionControllerProbe_Enabled : option bool;
  AdmissionControllerProbe_Interval : option Z;
  AdmissionControllerProbe_GracePeriod : option Z
}.

Record AdmissionControllerFeatureConfig := mkAdmissionControllerFeatureConfig {
  AdmissionController_Enabled : option bool;
  AdmissionController_Validation : option AdmissionControllerValidationConfig;
  AdmissionController_Mutation : option AdmissionControllerMutationConfig;
  AdmissionController_MutateUnlabelled : option bool;
  AdmissionController_ServiceName : option string;
  AdmissionController_AgentCommunicationMode : option string;
  AdmissionController_FailurePolicy : option string;
  AdmissionController_WebhookName : option string;
  AdmissionController_AgentSidecarInjection : option AgentSidecarInjectionConfig;
  AdmissionController_Registry : option string;
  AdmissionController_KubernetesAdmissionEvents : option KubernetesAdmissionEventsConfig;
  AdmissionController_CWSInstrumentation : option CWSInstrumentationConfig;
  AdmissionController_Probe : option AdmissionControllerProbeConfig
}.

Record SecretConfig := mkSecretConfig { sc_SecretName : string; sc_KeyName : string }.

Record DatadogCredentials := mkCredentials {
  cred_APIKey : option string;
  cred_APISecret : option SecretConfig;
  cred_AppKey : option string;
  cred_AppSecret : option SecretConfig
}.

Record Endpoint := mkEndpoint {
  Endpoint_URL : option string;
  Endpoint_Credentials : option DatadogCredentials
}.

Record ExternalMetricsServerFeatureConfig := mkExternalMetricsServerFeatureConfig {
  ExternalMetricsServer_Enabled : option bool;
  ExternalMetricsServer_RegisterAPIService : option bool;
  ExternalMetricsServer_WPAController : option bool;
  ExternalMetricsServer_UseDatadogMetrics : option bool;
  ExternalMetricsServer_Port : option Z;
  ExternalMetricsServer_Endpoint : option Endpoint
}.

Record InPlaceVerticalScalingFeatureConfig := mkInPlaceVerticalScalingFeatureConfig { InPlaceVerticalScaling_Enabled : option bool }.

Record WorkloadAutoscalingFeatureConfig := mkWorkloadAutoscalingFeatureConfig {
  WorkloadAutoscaling_Enabled : option bool;
  WorkloadAutoscaling_InPlaceVerticalScaling : option InPlaceVerticalScalingFeatureConfig
}.

Record SpotAutoscalingFeatureConfig := mkSpotAutoscalingFeatureConfig { SpotAutoscaling_Enabled : option bool }.

Record ClusterAutoscalingFeatureConfig := mkClusterAutoscalingFeatureConfig {
  ClusterAutoscaling_Enabled : option bool;
  ClusterAutoscaling_Spot : option SpotAutoscalingFeatureConfig
}.

Record AutoscalingFeatureConfig := mkAutoscalingFeatureConfig {
  Autoscaling_Workload : option WorkloadAutoscalingFeatureConfig;
  Autoscaling_Cluster : option ClusterAutoscalingFeatureConfig
}.

Record ClusterChecksFeatureConfig := mkClusterChecksFeatureConfig {
  ClusterChecks_Enabled : option bool;
  ClusterChecks_UseClusterChecksRunners : option bool
}.

Record PrometheusScrapeFeatureConfig := mkPrometheusScrapeFeatureConfig {
  PrometheusScrape_Enabled : option bool;
  PrometheusScrape_EnableServiceEndpoints : option bool;
  PrometheusScrape_AdditionalConfigs : option string;
  PrometheusScrape_Version : option Z
}.

Record HelmCheckFeatureConfig := mkHelmCheckFeatureConfig {
  HelmCheck_Enabled : option bool;
  HelmCheck_CollectEvents : option bool;
  HelmCheck_ValuesAsTags : gmap string string
}.

Record ControlPlaneMonitoringFeatureConfig := mkControlPlaneMonitoringFeatureConfig { ControlPlaneMonitoring_Enabled : option bool }.

Record KubernetesActionsFeatureConfig := mkKubernetesActionsFeatureConfig { KubernetesActions_Enabled : option bool }.

Record DatadogFeatures := mkDatadogFeatures {
  Features_OtelCollector : option OtelCollectorFeatureConfig;
  Features_OtelAgentGateway : option OtelAgentGatewayFeatureConfig;
  Features_LogCollection : option LogCollectionFeatureConfig;
  Features_LiveProcessCollection : option LiveProcessCollectionFeatureConfig;
  Features_LiveContainerCollection : option LiveContainerCollectionFeatureConfig;
  Features_ProcessDiscovery : option ProcessDiscoveryFeatureConfig;
  Features_OOMKill : option OOMKillFeatureConfig;
  Features_TCPQueueLength : option TCPQueueLengthFeatureConfig;
  Features_EBPFCheck : option EBPFCheckFeatureConfig;
  Features_APM : option APMFeatureConfig;
  Features_ASM : option ASMFeatureConfig;
  Features_CSPM : option CSPMFeatureConfig;
  Features_CWS : option CWSFeatureConfig;
  Features_NPM : option NPMFeatureConfig;
  Features_USM : option USMFeatureConfig;
  Features_DynamicInstrumentation : option DynamicInstrumentationFeatureConfig;
  Features_Dogstatsd : option DogstatsdFeatureConfig;
  Features_OTLP : option OTLPFeatureConfig;
  Features_RemoteConfiguration : option RemoteConfigurationFeatureConfig;
  Features_SBOM : option SBOMFeatureConfig;
  Features_ServiceDiscovery : option ServiceDiscoveryFeatureConfig;
  Features_GPU : option GPUFeatureConfig;
  Features_DataPlane : option DataPlaneFeatureConfig;
  Features_EventCollection : option EventCollectionFeatureConfig;
  Features_OrchestratorExplorer : option OrchestratorExplorerFeatureConfig;
  Features_KubeStateMetricsCore : option KubeStateMetricsCoreFeatureConfig;
  Features_AdmissionController : option AdmissionControllerFeatureConfig;
  Features_ExternalMetricsServer : option ExternalMetricsServerFeatureConfig;
  Features_Autoscaling : option AutoscalingFeatureConfig;
  Features_ClusterChecks : option ClusterChecksFeatureConfig;
  Features_PrometheusScrape : option PrometheusScrapeFeatureConfig;
  Features_HelmCheck : option HelmCheckFeatureConfig;
  Features_ControlPlaneMonitoring : option ControlPlaneMonitoringFeatureConfig;
  Features_KubernetesActions : option KubernetesActionsFeatureConfig
}.

Record OriginDetectionUnified := mkOriginDetectionUnified { OriginDetectionUnified_Enabled : option bool }.

Record CSIAPMConfig := mkCSIAPMConfig { CSIAPM_PullSecrets : list json }.

Record CSIConfig := mkCSIConfig {
  CSI_Enabled : option bool;
  CSI_AutoManage : option bool;
  CSI_APM : option CSIAPMConfig;
  CSI_Tolerations : list json;
  CSI_NodeSelector : gmap string string;
  CSI_NodeAffinity : option json
}.

Record NetworkPolicyConfig := mkNetworkPolicyConfig {
  NetworkPolicy_Create : option bool;
  NetworkPolicy_Flavor : string;
  NetworkPolicy_DNSSelectorEndpoints : list json
}.

Record LocalService := mkLocalService {
  LocalService_NameOverride : option string;
  LocalService_ForceEnableLocalService : option bool
}.

Record KubeletConfig := mkKubeletConfig {
  Kubelet_Host : option json;
  Kubelet_TLSVerify : option bool;
  Kubelet_HostCAPath : string;
  Kubelet_AgentCAPath : string;
  Kubelet_PodResourcesSocketPath : string
}.

Record FIPSConfig := mkFIPSConfig {
  FIPS_Enabled : option bool;
  FIPS_Image : option AgentImageConfig;
  FIPS_LocalAddress : option string;
  FIPS_Port : option Z;
  FIPS_PortRange : option Z;
  FIPS_Resources : option json;
  FIPS_UseHTTPS : option bool;
  FIPS_CustomFIPSConfig : option CustomConfig
}.

Record SecretBackendRolesConfig := mkSecretBackendRolesConfig {
  SecretBackendRoles_Namespace : option string;
  SecretBackendRoles_Secrets : list string
}.

Record SecretBackendConfig := mkSecretBackendConfig {
  SecretBackend_Command : option string;
  SecretBackend_Args : option string;
  SecretBackend_Timeout : option Z;
  SecretBackend_RefreshInterval : option Z;
  SecretBackend_EnableGlobalPermissions : option bool;
  SecretBackend_Type : option string;
  SecretBackend_Config : gmap string json;
  SecretBackend_Roles : list (option SecretBackendRolesConfig)
}.

Record GlobalConfig := mkGlobalConfig {
  Global_Credentials : option DatadogCredentials;
  Global_ClusterAgentToken : option string;
  Global_ClusterAgentTokenSecret : option SecretConfig;
  Global_ClusterName : option string;
  Global_Site : option string;
  Global_Endpoint : option Endpoint;
  Global_Registry : option string;
  Global_LogLevel : option string;
  Global_Tags : list string;
  Global_Env : list (EnvVar json);
  Global_CommonLabels : gmap string string;
  Global_ChecksTagCardinality : option string;
  Global_OriginDetectionUnified : option OriginDetectionUnified;
  Global_PodLabelsAsTags : gmap string string;
  Global_PodAnnotationsAsTags : gmap string string;
  Global_NodeLabelsAsTags : gmap string string;
  Global_NamespaceLabelsAsTags : gmap string string;
  Global_NamespaceAnnotationsAsTags : gmap string string;
  Global_KubernetesResourcesLabelsAsTags : gmap string (gmap string string);
  Global_KubernetesResourcesAnnotationsAsTags : gmap string (gmap string string);
  Global_CSI : option CSIConfig;
  Global_NetworkPolicy : option NetworkPolicyConfig;
  Global_LocalService : option LocalService;
  Global_Kubelet : option KubeletConfig;
  Global_DockerSocketPath : option string;
  Global_CriSocketPath : option string;
  Global_DisableNonResourceRules : option bool;
  Global_ContainerStrategy : option string;
  Global_UseFIPSAgent : option bool;
  Global_FIPS : option FIPSConfig;
  Global_SecretBackend : option SecretBackendConfig;
  Global_UseVSock : option bool
}.

Record MultiCustomConfig := mkMultiCustomConfig {
  MultiCustom_ConfigDataMap : option (gmap string string);
  MultiCustom_ConfigMap : option ConfigMapConfig
}.

Record CelWorkloadExcludeRules := mkCelWorkloadExcludeRules {
  CelWorkloadExcludeRules_Containers : list string;
  CelWorkloadExcludeRules_Pods : list string;
  CelWorkloadExcludeRules_KubeServices : list string;
  CelWorkloadExcludeRules_KubeEndpoints : list string;
  CelWorkloadExcludeRules_Processes : list string
}.

Record CelWorkloadExcludeConfig := mkCelWorkloadExcludeConfig {
  CelWorkloadExclude_Products : list string;
  CelWorkloadExclude_Rules : option CelWorkloadExcludeRules
}.

Record SeccompConfig := mkSeccompConfig {
  Seccomp_CustomRootPath : option string;
  Seccomp_CustomProfile : option CustomConfig
}.

Record DatadogAgentGenericContainer := mkDatadogAgentGenericContainer {
  GenericContainer_Name : option string;
  GenericContainer_LogLevel : option string;
  GenericContainer_Ports : list (ContainerPort json);
  GenericContainer_Env : list (EnvVar json);
  GenericContainer_VolumeMounts : list (VolumeMount json);
  GenericContainer_Resources : option json;
  GenericContainer_Command : option (list string);
  GenericContainer_Args : option (list string);
  GenericContainer_HealthPort : option Z;
  GenericContainer_ReadinessProbe : option json;
  GenericContainer_LivenessProbe : option json;
  GenericContainer_StartupProbe : option json;
  GenericContainer_SecurityContext : option (SecurityContext json);
  GenericContainer_SeccompConfig : option SeccompConfig;
  GenericContainer_AppArmorProfileName : option string
}.

Record DatadogAgentComponentOverride := mkDatadogAgentComponentOverride {
  Override_Name : option string;
  Override_Replicas : option Z;
  Override_CreatePodDisruptionBudget : option bool;
  Override_CreateRbac : option bool;
  Override_ServiceAccountName : option string;
  Override_ServiceAccountAnnotations : gmap string string;
  Override_Image : option AgentImageConfig;
  Override_Env : list (EnvVar json);
  Override_EnvFrom : list EnvFromSource;
  Override_CustomConfigurations : gmap string CustomConfig;
  Override_ExtraConfd : option MultiCustomConfig;
  Override_ExtraChecksd : option MultiCustomConfig;
  Override_CELWorkloadExclude : list CelWorkloadExcludeConfig;
  Override_Containers : gmap string (option DatadogAgentGenericContainer);
  Override_Volumes : list (Volume json);
  Override_SecurityContext : option json;
  Override_PriorityClassName : option string;
  Override_RuntimeClassName : option string;
  Override_Affinity : option Affinity;
  Override_DNSPolicy : option string;
  Override_DNSConfig : option json;
  Override_NodeSelector : gmap string string;
  Override_UpdateStrategy : option UpdateStrategy;
  Override_Tolerations : list json;
  Override_Annotations : gmap string string;
  Override_Labels : gmap string string;
  Override_HostNetwork : option bool;
  Override_HostPID : option bool;
  Override_Disabled : option bool;
  Override_TopologySpreadConstraints : list json
}.

Record DatadogAgentSpec := mkDatadogAgentSpec {
  Spec_Features : option DatadogFeatures;
  Spec_Global : option GlobalConfig;
  Spec_Override : gmap string (option DatadogAgentComponentOverride)
}.

(** ** Zero values: [T{}] *)

Class Zero (A : Type) := zero : A.

#[export] Instance zero_OtelCollectorFeatureConfig : Zero OtelCollectorFeatureConfig :=
  mkOtelCollectorFeatureConfig None None [] None.
#[export] Instance zero_LogCollectionFeatureConfig : Zero LogCollectionFeatureConfig :=
  mkLogCollectionFeatureConfig None None None None None None None None None.
#[export] Instance zero_LiveProcessCollectionFeatureConfig : Zero LiveProcessCollectionFeatureConfig :=
  mkLiveProcessCollectionFeatureConfig None None None.
#[export] Instance zero_LiveContainerCollectionFeatureConfig : Zero LiveContainerCollectionFeatureConfig :=
  mkLiveContainerCollectionFeatureConfig None.
#[export] Instance zero_ProcessDiscoveryFeatureConfig : Zero ProcessDiscoveryFeatureConfig :=
  mkProcessDiscoveryFeatureConfig None.
#[export] Instance zero_OOMKillFeatureConfig : Zero OOMKillFeatureConfig :=
  mkOOMKillFeatureConfig None.
#[export] Instance zero_TCPQueueLengthFeatureConfig : Zero TCPQueueLengthFeatureConfig :=
  mkTCPQueueLengthFeatureConfig None.
#[export] Instance zero_EBPFCheckFeatureConfig : Zero EBPFCheckFeatureConfig :=
  mkEBPFCheckFeatureConfig None.
#[export] Instance zero_HostPortConfig : Zero HostPortConfig :=
  mkHostPortConfig None None.
#[export] Instance zero_UnixDomainSocketConfig : Zero UnixDomainSocketConfig :=
  mkUnixDomainSocketConfig None None.
#[export] Instance zero_LanguageDetectionConfig : Zero LanguageDetectionConfig :=
  mkLanguageDetectionConfig None.
#[export] Instance zero_InjectorConfig : Zero InjectorConfig :=
  mkInjectorConfig "".
#[export] Instance zero_SingleStepInstrumentation : Zero SingleStepInstrumentation :=
  mkSingleStepInstrumentation None [] [] ∅ None None "" [].
#[export] Instance zero_ErrorTrackingStandalone : Zero ErrorTrackingStandalone :=
  mkErrorTrackingStandalone None.
#[export] Instance zero_APMFeatureConfig : Zero APMFeatureConfig :=
  mkAPMFeatureConfig None None None None None.
#[export] Instance zero_ASMThreatsConfig : Zero ASMThreatsConfig :=
  mkASMThreatsConfig None.
#[export] Instance zero_ASMSCAConfig : Zero ASMSCAConfig :=
  mkASMSCAConfig None.
#[export] Instance zero_ASMIASTConfig : Zero ASMIASTConfig :=
  mkASMIASTConfig None.
#[export] Instance zero_ASMFeatureConfig : Zero ASMFeatureConfig :=
  mkASMFeatureConfig None None None.
#[export] Instance zero_CSPMHostBenchmarksConfig : Zero CSPMHostBenchmarksConfig :=
  mkCSPMHostBenchmarksConfig None.
#[export] Instance zero_CSPMFeatureConfig : Zero CSPMFeatureConfig :=
  mkCSPMFeatureConfig None None None None None.
#[export] Instance zero_CWSEnforcementConfig : Zero CWSEnforcementConfig :=
  mkCWSEnforcementConfig None.
#[export] Instance zero_CWSNetworkConfig : Zero CWSNetworkConfig :=
  mkCWSNetworkConfig None.
#[export] Instance zero_CWSSecurityProfilesConfig : Zero CWSSecurityProfilesConfig :=
  mkCWSSecurityProfilesConfig None.
#[export] Instance zero_CWSFeatureConfig : Zero CWSFeatureConfig :=
  mkCWSFeatureConfig None None None None None None None None.
#[export] Instance zero_NPMFeatureConfig : Zero NPMFeatureConfig :=
  mkNPMFeatureConfig None None None.
#[export] Instance zero_USMFeatureConfig : Zero USMFeatureConfig :=
  mkUSMFeatureConfig None.
#[export] Instance zero_DynamicInstrumentationFeatureConfig : Zero DynamicInstrumentationFeatureConfig :=
  mkDynamicInstrumentationFeatureConfig None.
#[export] Instance zero_DogstatsdFeatureConfig : Zero DogstatsdFeatureConfig :=
  mkDogstatsdFeatureConfig None None None None None None.
#[export] Instance zero_OTLPGRPCConfig : Zero OTLPGRPCConfig :=
  mkOTLPGRPCConfig None None None.
#[export] Instance zero_OTLPHTTPConfig : Zero OTLPHTTPConfig :=
  mkOTLPHTTPConfig None None None.
#[export] Instance zero_OTLPProtocolsConfig : Zero OTLPProtocolsConfig :=
  mkOTLPProtocolsConfig None None.
#[export] Instance zero_OTLPReceiverConfig : Zero OTLPReceiverConfig :=
  mkOTLPReceiverConfig zero_OTLPProtocolsConfig.
#[export] Instance zero_OTLPFeatureConfig : Zero OTLPFeatureConfig :=
  mkOTLPFeatureConfig zero_OTLPReceiverConfig.
#[export] Instance zero_RemoteConfigurationFeatureConfig : Zero RemoteConfigurationFeatureConfig :=
  mkRemoteConfigurationFeatureConfig None.
#[export] Instance zero_ServiceDiscoveryFeatureConfig : Zero ServiceDiscoveryFeatureConfig :=
  mkServiceDiscoveryFeatureConfig None.
#[export] Instance zero_GPUFeatureConfig : Zero GPUFeatureConfig :=
  mkGPUFeatureConfig None None None None.
#[export] Instance zero_DataPlaneDogstatsdConfig : Zero DataPlaneDogstatsdConfig :=
  mkDataPlaneDogstatsdConfig None.
#[export] Instance zero_DataPlaneFeatureConfig : Zero DataPlaneFeatureConfig :=
  mkDataPlaneFeatureConfig None None.
#[export] Instance zero_EventCollectionFeatureConfig : Zero EventCollectionFeatureConfig :=
  mkEventCollectionFeatureConfig None None None.
#[export] Instance zero_OrchestratorExplorerFeatureConfig : Zero OrchestratorExplorerFeatureConfig :=
  mkOrchestratorExplorerFeatureConfig None None None [] [] None.
#[export] Instance zero_KubeStateMetricsCoreFeatureConfig : Zero KubeStateMetricsCoreFeatureConfig :=
  mkKubeStateMetricsCoreFeatureConfig None None [].
#[export] Instance zero_AdmissionControllerValidationConfig : Zero AdmissionControllerValidationConfig :=
  mkAdmissionControllerValidationConfig None.
#[export] Instance zero_AdmissionControllerMutationConfig : Zero AdmissionControllerMutationConfig :=
  mkAdmissionControllerMutationConfig None.
#[export] Instance zero_AgentImageConfig : Zero AgentImageConfig :=
  mkAgentImageConfig "" "" false None None.
#[export] Instance zero_KubernetesAdmissionEventsConfig : Zero KubernetesAdmissionEventsConfig :=
  mkKubernetesAdmissionEventsConfig None.
#[export] Instance zero_CWSInstrumentationConfig : Zero CWSInstrumentationConfig :=
  mkCWSInstrumentationConfig None None.
#[export] Instance zero_AdmissionControllerFeatureConfig : Zero AdmissionControllerFeatureConfig :=
  mkAdmissionControllerFeatureConfig None None None None None None None None None None None None None.
#[export] Instance zero_ExternalMetricsServerFeatureConfig : Zero ExternalMetricsServerFeatureConfig :=
  mkExternalMetricsServerFeatureConfig None None None None None None.
#[export] Instance zero_ClusterChecksFeatureConfig : Zero ClusterChecksFeatureConfig :=
  mkClusterChecksFeatureConfig None None.
#[export] Instance zero_PrometheusScrapeFeatureConfig : Zero PrometheusScrapeFeatureConfig :=
  mkPrometheusScrapeFeatureConfig None None None None.
#[export] Instance zero_HelmCheckFeatureConfig : Zero HelmCheckFeatureConfig :=
  mkHelmCheckFeatureConfig None None ∅.
#[export] Instance zero_ControlPlaneMonitoringFeatureConfig : Zero ControlPlaneMonitoringFeatureConfig :=
  mkControlPlaneMonitoringFeatureConfig None.
#[export] Instance zero_DatadogFeatures : Zero DatadogFeatures :=
  mkDatadogFeatures None None None None None None None None None None None None None None None None None None None None None None None None None None None None None None None None None None.
#[export] Instance zero_KubeletConfig : Zero KubeletConfig :=
  mkKubeletConfig None None "" "" "".
#[export] Instance zero_FIPSConfig : Zero FIPSConfig :=
  mkFIPSConfig None None None None None None None None.
#[export] Instance zero_GlobalConfig : Zero GlobalConfig :=
  mkGlobalConfig None None None None None None None None [] [] ∅ None None ∅ ∅ ∅ ∅ ∅ ∅ ∅ None None None None None None None None None None None None.
