(* ===== verification/Defaults.v ===== *)
(** * Defaults of a DatadogAgent.

    Models [internal/controller/datadogagent/defaults/datadogagent_default.go]
    and the helpers of [api/utils/utils.go] it calls.  The code assigns fields of
    the spec in place; a definition here is the struct its assignments leave, so
    that a field that is assigned under a condition has that condition. *)

From Stdlib Require Import ZArith.
From stdpp Require Import base gmap strings list.
From S2P Require Import Prelude PodMerger FleetData AgentSpec.

(** ** Helpers *)

Definition BoolValue (b : option bool) : bool := default false b.
Definition StringValue (s : option string) : string := default "" s.
Definition BoolToString (b : option bool) : string := if BoolValue b then "true" else "false".

(** [DefaultBooleanIfUnset], [DefaultInt32IfUnset], [DefaultIntIfUnset] and
    [DefaultStringIfUnset]: the pointer is set when it was nil. *)
Definition DefaultIfUnset {A : Type} (d : A) (valPtr : option A) : option A := Some (default d valPtr).

(** [if p == nil { p = &T{} }], and then [f] of what it points to. *)
Definition orNew {A : Type} `{Zero A} (f : A → A) (p : option A) : option A := Some (f (default zero p)).

(** [if cond { x = f(x) }] *)
Definition onlyIf {A : Type} (cond : bool) (f : A → A) (x : A) : A := if cond then f x else x.

(** ** Values *)

Definition DatadogContainerRegistry : string := "registry.datadoghq.com".
Definition DefaultImageRegistry : string := DatadogContainerRegistry.
Definition DefaultGovImageRegistry : string := "public.ecr.aws/datadog".
Definition FIPSProxyLatestVersion : string := "1.1.29".
Definition OptimizedContainerStrategy : string := "optimized".
Definition DogstatsdAPMSocketHostPath : string := "/var/run/datadog".
Definition APMSocketName : string := "apm.socket".
Definition DogstatsdSocketName : string := "dsd.socket".
Definition DefaultLogTempStoragePath : string := "/var/lib/datadog-agent/logs".
Definition DefaultDogstatsdPort : Z := 8125.

Definition defaultSite : string := "datadoghq.com".
Definition defaultGovSite : string := "ddog-gov.com".
Definition defaultAPMSocketHostPath : string := DogstatsdAPMSocketHostPath +:+ "/" +:+ APMSocketName.
Definition defaultDogstatsdHostSocketPath : string := DogstatsdAPMSocketHostPath +:+ "/" +:+ DogstatsdSocketName.
Definition defaultKubeletPodResourcesSocketDir : string := "/var/lib/kubelet/pod-resources/".

Definition defaultCollectedEventTypes : list EventTypes :=
  [mkEventTypes "Pod" ["Failed"; "BackOff"; "Unhealthy"; "FailedScheduling"; "FailedMount"; "FailedAttachVolume"];
   mkEventTypes "Node" ["TerminatingEvictedPod"; "NodeNotReady"; "Rebooted"; "HostPortConflict"];
   mkEventTypes "CronJob" ["SawCompletedJob"]].

(** ** Global settings *)

Definition orEmpty (d s : string) : string := if bool_decide (s = "") then d else s.

Definition default_FIPSImage (c : AgentImageConfig) : AgentImageConfig :=
  mkAgentImageConfig (orEmpty "fips-proxy" (AgentImage_Name c)) (orEmpty FIPSProxyLatestVersion (AgentImage_Tag c))
    (AgentImage_JMXEnabled c) (AgentImage_PullPolicy c) (AgentImage_PullSecrets c).

Definition default_FIPS (c : FIPSConfig) : FIPSConfig :=
  let enabled := DefaultIfUnset false (FIPS_Enabled c) in
  let on := BoolValue enabled in
  mkFIPSConfig enabled
    (onlyIf on (orNew default_FIPSImage) (FIPS_Image c))
    (onlyIf on (DefaultIfUnset "127.0.0.1") (FIPS_LocalAddress c))
    (onlyIf on (DefaultIfUnset 9803%Z) (FIPS_Port c))
    (onlyIf on (DefaultIfUnset 15%Z) (FIPS_PortRange c))
    (FIPS_Resources c)
    (onlyIf on (DefaultIfUnset false) (FIPS_UseHTTPS c))
    (FIPS_CustomFIPSConfig c).

Definition default_Kubelet (c : KubeletConfig) : KubeletConfig :=
  mkKubeletConfig (Kubelet_Host c) (Kubelet_TLSVerify c) (Kubelet_HostCAPath c) (Kubelet_AgentCAPath c)
    (orEmpty defaultKubeletPodResourcesSocketDir (Kubelet_PodResourcesSocketPath c)).

Definition default_Global (c : GlobalConfig) : GlobalConfig :=
  let site := DefaultIfUnset defaultSite (Global_Site c) in
  let registry := if bool_decide (site = Some defaultGovSite) then DefaultGovImageRegistry else DefaultImageRegistry in
  mkGlobalConfig (Global_Credentials c) (Global_ClusterAgentToken c) (Global_ClusterAgentTokenSecret c)
    (Global_ClusterName c)
    site
    (Global_Endpoint c)
    (DefaultIfUnset registry (Global_Registry c))
    (DefaultIfUnset "info" (Global_LogLevel c))
    (Global_Tags c) (Global_Env c) (Global_CommonLabels c) (Global_ChecksTagCardinality c)
    (Global_OriginDetectionUnified c) (Global_PodLabelsAsTags c) (Global_PodAnnotationsAsTags c)
    (Global_NodeLabelsAsTags c) (Global_NamespaceLabelsAsTags c) (Global_NamespaceAnnotationsAsTags c)
    (Global_KubernetesResourcesLabelsAsTags c) (Global_KubernetesResourcesAnnotationsAsTags c) (Global_CSI c)
    (Global_NetworkPolicy c) (Global_LocalService c)
    (orNew default_Kubelet (Global_Kubelet c))
    (Global_DockerSocketPath c) (Global_CriSocketPath c) (Global_DisableNonResourceRules c)
    (DefaultIfUnset OptimizedContainerStrategy (Global_ContainerStrategy c))
    (DefaultIfUnset false (Global_UseFIPSAgent c))
    (orNew default_FIPS (Global_FIPS c))
    (Global_SecretBackend c) (Global_UseVSock c).

Definition defaultGlobalConfig (spec : DatadogAgentSpec) : DatadogAgentSpec :=
  mkDatadogAgentSpec (Spec_Features spec) (orNew default_Global (Spec_Global spec)) (Spec_Override spec).

(** ** Features *)

Definition default_LogCollection (c : LogCollectionFeatureConfig) : LogCollectionFeatureConfig :=
  let enabled := DefaultIfUnset false (LogCollection_Enabled c) in
  let on := BoolValue enabled in
  mkLogCollectionFeatureConfig enabled (LogCollection_ContainerCollectAll c)
    (onlyIf on (DefaultIfUnset true) (LogCollection_ContainerCollectUsingFiles c))
    (onlyIf on (DefaultIfUnset "/var/lib/docker/containers") (LogCollection_ContainerLogsPath c))
    (onlyIf on (DefaultIfUnset "/var/log/pods") (LogCollection_PodLogsPath c))
    (onlyIf on (DefaultIfUnset "/var/log/containers") (LogCollection_ContainerSymlinksPath c))
    (onlyIf on (DefaultIfUnset DefaultLogTempStoragePath) (LogCollection_TempStoragePath c))
    (LogCollection_OpenFilesLimit c) (LogCollection_AutoMultiLineDetection c).

Definition default_LiveContainerCollection (c : LiveContainerCollectionFeatureConfig) :=
  mkLiveContainerCollectionFeatureConfig (DefaultIfUnset true (LiveContainerCollection_Enabled c)).

Definition default_OtelCollector (c : OtelCollectorFeatureConfig) : OtelCollectorFeatureConfig :=
  mkOtelCollectorFeatureConfig (DefaultIfUnset false (OtelCollector_Enabled c)) (OtelCollector_Conf c)
    (OtelCollector_Ports c) (OtelCollector_CoreConfig c).

Definition default_LiveProcessCollection (c : LiveProcessCollectionFeatureConfig) : LiveProcessCollectionFeatureConfig :=
  mkLiveProcessCollectionFeatureConfig (DefaultIfUnset false (LiveProcessCollection_Enabled c))
    (LiveProcessCollection_ScrubProcessArguments c) (LiveProcessCollection_StripProcessArguments c).

Definition default_ProcessDiscovery (c : ProcessDiscoveryFeatureConfig) : ProcessDiscoveryFeatureConfig :=
  mkProcessDiscoveryFeatureConfig (DefaultIfUnset true (ProcessDiscovery_Enabled c)).

Definition default_OOMKill (c : OOMKillFeatureConfig) : OOMKillFeatureConfig :=
  mkOOMKillFeatureConfig (DefaultIfUnset false (OOMKill_Enabled c)).

Definition default_TCPQueueLength (c : TCPQueueLengthFeatureConfig) : TCPQueueLengthFeatureConfig :=
  mkTCPQueueLengthFeatureConfig (DefaultIfUnset false (TCPQueueLength_Enabled c)).

Definition default_EBPFCheck (c : EBPFCheckFeatureConfig) : EBPFCheckFeatureConfig :=
  mkEBPFCheckFeatureConfig (DefaultIfUnset false (EBPFCheck_Enabled c)).

Definition default_GPU (c : GPUFeatureConfig) : GPUFeatureConfig :=
  mkGPUFeatureConfig (DefaultIfUnset false (GPU_Enabled c)) (GPU_PrivilegedMode c) (GPU_PodRuntimeClassName c)
    (GPU_PatchCgroupPermissions c).

Definition default_LanguageDetection (c : LanguageDetectionConfig) : LanguageDetectionConfig :=
  mkLanguageDetectionConfig (DefaultIfUnset true (LanguageDetection_Enabled c)).

Definition default_SingleStep (c : SingleStepInstrumentation) : SingleStepInstrumentation :=
  mkSingleStepInstrumentation (DefaultIfUnset false (SingleStepInstrumentation_Enabled c))
    (SingleStepInstrumentation_EnabledNamespaces c) (SingleStepInstrumentation_DisabledNamespaces c)
    (SingleStepInstrumentation_LibVersions c)
    (orNew default_LanguageDetection (SingleStepInstrumentation_LanguageDetection c))
    (orNew id (SingleStepInstrumentation_Injector c))
    (SingleStepInstrumentation_InjectionMode c) (SingleStepInstrumentation_Targets c).

Definition default_ErrorTracking (c : ErrorTrackingStandalone) : ErrorTrackingStandalone :=
  mkErrorTrackingStandalone (DefaultIfUnset false (ErrorTrackingStandalone_Enabled c)).

Definition default_APMHostPort (c : HostPortConfig) : HostPortConfig :=
  mkHostPortConfig (DefaultIfUnset false (HostPort_Enabled c)) (DefaultIfUnset 8126%Z (HostPort_Port c)).

Definition default_Socket (path : string) (c : UnixDomainSocketConfig) : UnixDomainSocketConfig :=
  mkUnixDomainSocketConfig (DefaultIfUnset true (UnixDomainSocket_Enabled c))
    (DefaultIfUnset path (UnixDomainSocket_Path c)).

Definition default_APM (c : APMFeatureConfig) : APMFeatureConfig :=
  let enabled := DefaultIfUnset true (APM_Enabled c) in
  let on := BoolValue enabled in
  mkAPMFeatureConfig enabled
    (onlyIf on (orNew default_APMHostPort) (APM_HostPortConfig c))
    (onlyIf on (orNew (default_Socket defaultAPMSocketHostPath)) (APM_UnixDomainSocketConfig c))
    (onlyIf on (orNew default_SingleStep) (APM_SingleStepInstrumentation c))
    (onlyIf on (orNew default_ErrorTracking) (APM_ErrorTrackingStandalone c)).

Definition default_ASMThreats (c : ASMThreatsConfig) : ASMThreatsConfig :=
  mkASMThreatsConfig (DefaultIfUnset false (ASMThreats_Enabled c)).
Definition default_ASMSCA (c : ASMSCAConfig) : ASMSCAConfig :=
  mkASMSCAConfig (DefaultIfUnset false (ASMSCA_Enabled c)).
Definition default_ASMIAST (c : ASMIASTConfig) : ASMIASTConfig :=
  mkASMIASTConfig (DefaultIfUnset false (ASMIAST_Enabled c)).

Definition default_ASM (c : ASMFeatureConfig) : ASMFeatureConfig :=
  mkASMFeatureConfig (orNew default_ASMThreats (ASM_Threats c)) (orNew default_ASMSCA (ASM_SCA c))
    (orNew default_ASMIAST (ASM_IAST c)).

Definition default_HostBenchmarks (c : CSPMHostBenchmarksConfig) : CSPMHostBenchmarksConfig :=
  mkCSPMHostBenchmarksConfig (DefaultIfUnset true (CSPMHostBenchmarks_Enabled c)).

Definition default_CSPM (c : CSPMFeatureConfig) : CSPMFeatureConfig :=
  let enabled := DefaultIfUnset false (CSPM_Enabled c) in
  mkCSPMFeatureConfig enabled (CSPM_CheckInterval c) (CSPM_CustomBenchmarks c)
    (onlyIf (BoolValue enabled) (orNew default_HostBenchmarks) (CSPM_HostBenchmarks c)) (CSPM_RunInSystemProbe c).

Definition default_CWSEnforcement (c : CWSEnforcementConfig) : CWSEnforcementConfig :=
  mkCWSEnforcementConfig (DefaultIfUnset true (CWSEnforcement_Enabled c)).
Definition default_CWSNetwork (c : CWSNetworkConfig) : CWSNetworkConfig :=
  mkCWSNetworkConfig (DefaultIfUnset true (CWSNetwork_Enabled c)).
Definition default_CWSSecurityProfiles (c : CWSSecurityProfilesConfig) : CWSSecurityProfilesConfig :=
  mkCWSSecurityProfilesConfig (DefaultIfUnset true (CWSSecurityProfiles_Enabled c)).

Definition default_CWS (c : CWSFeatureConfig) : CWSFeatureConfig :=
  let enabled := DefaultIfUnset false (CWS_Enabled c) in
  let on := BoolValue enabled in
  mkCWSFeatureConfig enabled
    (onlyIf on (DefaultIfUnset false) (CWS_SyscallMonitorEnabled c))
    (onlyIf on (DefaultIfUnset false) (CWS_DirectSendFromSystemProbe c))
    (onlyIf on (orNew default_CWSEnforcement) (CWS_Enforcement c))
    (onlyIf on (orNew default_CWSNetwork) (CWS_Network c))
    (onlyIf on (orNew default_CWSSecurityProfiles) (CWS_SecurityProfiles c))
    (CWS_RemoteConfiguration c) (CWS_CustomPolicies c).

Definition default_NPM (c : NPMFeatureConfig) : NPMFeatureConfig :=
  let enabled := DefaultIfUnset false (NPM_Enabled c) in
  let on := BoolValue enabled in
  mkNPMFeatureConfig enabled (onlyIf on (DefaultIfUnset true) (NPM_EnableConntrack c))
    (onlyIf on (DefaultIfUnset true) (NPM_CollectDNSStats c)).

Definition default_USM (c : USMFeatureConfig) : USMFeatureConfig :=
  mkUSMFeatureConfig (DefaultIfUnset false (USM_Enabled c)).

Definition default_DynamicInstrumentation (c : DynamicInstrumentationFeatureConfig) :=
  mkDynamicInstrumentationFeatureConfig (DefaultIfUnset false (DynamicInstrumentation_Enabled c)).

(** The host port of DogStatsD: a struct that is there keeps a nil [Enabled],
    and reading through it panics. *)
Definition default_DogstatsdHostPort (p : option HostPortConfig) : option (option HostPortConfig) :=
  let c := default (mkHostPortConfig (Some false) None) p in
  enabled ← HostPort_Enabled c;
  Some (Some (mkHostPortConfig (Some enabled)
                (onlyIf enabled (DefaultIfUnset DefaultDogstatsdPort) (HostPort_Port c)))).

Definition default_Dogstatsd (c : DogstatsdFeatureConfig) : option DogstatsdFeatureConfig :=
  hostPort ← default_DogstatsdHostPort (Dogstatsd_HostPortConfig c);
  Some (mkDogstatsdFeatureConfig (DefaultIfUnset false (Dogstatsd_OriginDetectionEnabled c)) (Dogstatsd_TagCardinality c)
          hostPort
          (orNew (default_Socket defaultDogstatsdHostSocketPath) (Dogstatsd_UnixDomainSocketConfig c))
          (Dogstatsd_MapperProfiles c)
          (DefaultIfUnset true (Dogstatsd_NonLocalTraffic c))).

Definition default_OTLPHostPort (c : HostPortConfig) : HostPortConfig :=
  mkHostPortConfig (DefaultIfUnset true (HostPort_Enabled c)) (HostPort_Port c).

Definition default_GRPC (c : OTLPGRPCConfig) : OTLPGRPCConfig :=
  let enabled := DefaultIfUnset false (OTLPGRPC_Enabled c) in
  mkOTLPGRPCConfig enabled (onlyIf (BoolValue enabled) (orNew default_OTLPHostPort) (OTLPGRPC_HostPortConfig c))
    (DefaultIfUnset "0.0.0.0:4317" (OTLPGRPC_Endpoint c)).

Definition default_HTTP (c : OTLPHTTPConfig) : OTLPHTTPConfig :=
  let enabled := DefaultIfUnset false (OTLPHTTP_Enabled c) in
  mkOTLPHTTPConfig enabled (onlyIf (BoolValue enabled) (orNew default_OTLPHostPort) (OTLPHTTP_HostPortConfig c))
    (DefaultIfUnset "0.0.0.0:4318" (OTLPHTTP_Endpoint c)).

Definition default_OTLP (c : OTLPFeatureConfig) : OTLPFeatureConfig :=
  let protocols := OTLPReceiver_Protocols (OTLP_Receiver c) in
  mkOTLPFeatureConfig (mkOTLPReceiverConfig
    (mkOTLPProtocolsConfig (orNew default_GRPC (OTLPProtocols_GRPC protocols))
       (orNew default_HTTP (OTLPProtocols_HTTP protocols)))).

Definition default_RemoteConfiguration (c : RemoteConfigurationFeatureConfig) : RemoteConfigurationFeatureConfig :=
  mkRemoteConfigurationFeatureConfig (DefaultIfUnset true (RemoteConfiguration_Enabled c)).

Definition default_EventCollection (c : EventCollectionFeatureConfig) : EventCollectionFeatureConfig :=
  mkEventCollectionFeatureConfig (DefaultIfUnset true (EventCollection_CollectKubernetesEvents c))
    (EventCollection_UnbundleEvents c)
    (onlyIf (BoolValue (EventCollection_UnbundleEvents c)) (DefaultIfUnset defaultCollectedEventTypes)
       (EventCollection_CollectedEventTypes c)).

Definition default_OrchestratorExplorer (c : OrchestratorExplorerFeatureConfig) : OrchestratorExplorerFeatureConfig :=
  let enabled := DefaultIfUnset true (OrchestratorExplorer_Enabled c) in
  mkOrchestratorExplorerFeatureConfig enabled (OrchestratorExplorer_Conf c)
    (onlyIf (BoolValue enabled) (DefaultIfUnset true) (OrchestratorExplorer_ScrubContainers c))
    (OrchestratorExplorer_CustomResources c) (OrchestratorExplorer_ExtraTags c) (OrchestratorExplorer_DDUrl c).

Definition default_KubeStateMetricsCore (c : KubeStateMetricsCoreFeatureConfig) : KubeStateMetricsCoreFeatureConfig :=
  mkKubeStateMetricsCoreFeatureConfig (DefaultIfUnset true (KubeStateMetricsCore_Enabled c))
    (KubeStateMetricsCore_Conf c) (KubeStateMetricsCore_CollectCrMetrics c).

Definition default_Validation (c : AdmissionControllerValidationConfig) : AdmissionControllerValidationConfig :=
  mkAdmissionControllerValidationConfig (DefaultIfUnset true (AdmissionControllerValidation_Enabled c)).
Definition default_Mutation (c : AdmissionControllerMutationConfig) : AdmissionControllerMutationConfig :=
  mkAdmissionControllerMutationConfig (DefaultIfUnset true (AdmissionControllerMutation_Enabled c)).

Definition default_Sidecar (c : AgentSidecarInjectionConfig) : AgentSidecarInjectionConfig :=
  mkAgentSidecarInjectionConfig (AgentSidecarInjection_Enabled c)
    (onlyIf (BoolValue (AgentSidecarInjection_Enabled c)) (DefaultIfUnset true)
       (AgentSidecarInjection_ClusterAgentCommunicationEnabled c))
    (AgentSidecarInjection_Provider c) (AgentSidecarInjection_Registry c) (AgentSidecarInjection_Image c)
    (AgentSidecarInjection_Selectors c) (AgentSidecarInjection_Profiles c)
    (AgentSidecarInjection_ClusterAgentTLSVerification c).

Definition default_AdmissionEvents (c : KubernetesAdmissionEventsConfig) : KubernetesAdmissionEventsConfig :=
  mkKubernetesAdmissionEventsConfig (DefaultIfUnset false (KubernetesAdmissionEvents_Enabled c)).

Definition default_CWSInstrumentation (c : CWSInstrumentationConfig) : CWSInstrumentationConfig :=
  let enabled := DefaultIfUnset false (CWSInstrumentation_Enabled c) in
  mkCWSInstrumentationConfig enabled
    (onlyIf (BoolValue enabled) (DefaultIfUnset "remote_copy") (CWSInstrumentation_Mode c)).

Definition default_AdmissionController (c : AdmissionControllerFeatureConfig) : AdmissionControllerFeatureConfig :=
  let enabled := DefaultIfUnset true (AdmissionController_Enabled c) in
  let on := BoolValue enabled in
  mkAdmissionControllerFeatureConfig enabled
    (orNew default_Validation (AdmissionController_Validation c))
    (orNew default_Mutation (AdmissionController_Mutation c))
    (onlyIf on (DefaultIfUnset false) (AdmissionController_MutateUnlabelled c))
    (onlyIf on (DefaultIfUnset "datadog-admission-controller") (AdmissionController_ServiceName c))
    (AdmissionController_AgentCommunicationMode c) (AdmissionController_FailurePolicy c)
    (AdmissionController_WebhookName c)
    (default_Sidecar <$> AdmissionController_AgentSidecarInjection c)
    (AdmissionController_Registry c)
    (orNew default_AdmissionEvents (AdmissionController_KubernetesAdmissionEvents c))
    (orNew default_CWSInstrumentation (AdmissionController_CWSInstrumentation c))
    (AdmissionController_Probe c).

Definition default_ExternalMetricsServer (c : ExternalMetricsServerFeatureConfig) : ExternalMetricsServerFeatureConfig :=
  let enabled := DefaultIfUnset false (ExternalMetricsServer_Enabled c) in
  let on := BoolValue enabled in
  mkExternalMetricsServerFeatureConfig enabled
    (onlyIf on (DefaultIfUnset true) (ExternalMetricsServer_RegisterAPIService c))
    (ExternalMetricsServer_WPAController c)
    (onlyIf on (DefaultIfUnset true) (ExternalMetricsServer_UseDatadogMetrics c))
    (onlyIf on (DefaultIfUnset 8443%Z) (ExternalMetricsServer_Port c))
    (ExternalMetricsServer_Endpoint c).

Definition default_ClusterChecks (c : ClusterChecksFeatureConfig) : ClusterChecksFeatureConfig :=
  let enabled := DefaultIfUnset true (ClusterChecks_Enabled c) in
  mkClusterChecksFeatureConfig enabled
    (onlyIf (BoolValue enabled) (DefaultIfUnset false) (ClusterChecks_UseClusterChecksRunners c)).

Definition default_PrometheusScrape (c : PrometheusScrapeFeatureConfig) : PrometheusScrapeFeatureConfig :=
  let enabled := DefaultIfUnset false (PrometheusScrape_Enabled c) in
  let on := BoolValue enabled in
  mkPrometheusScrapeFeatureConfig enabled
    (onlyIf on (DefaultIfUnset false) (PrometheusScrape_EnableServiceEndpoints c)) (PrometheusScrape_AdditionalConfigs c)
    (onlyIf on (DefaultIfUnset 2%Z) (PrometheusScrape_Version c)).

Definition default_HelmCheck (c : HelmCheckFeatureConfig) : HelmCheckFeatureConfig :=
  let enabled := DefaultIfUnset false (HelmCheck_Enabled c) in
  mkHelmCheckFeatureConfig enabled (onlyIf (BoolValue enabled) (DefaultIfUnset false) (HelmCheck_CollectEvents c))
    (HelmCheck_ValuesAsTags c).

Definition default_ControlPlaneMonitoring (c : ControlPlaneMonitoringFeatureConfig) : ControlPlaneMonitoringFeatureConfig :=
  mkControlPlaneMonitoringFeatureConfig (DefaultIfUnset true (ControlPlaneMonitoring_Enabled c)).

Definition default_DataPlaneDogstatsd (c : DataPlaneDogstatsdConfig) : DataPlaneDogstatsdConfig :=
  mkDataPlaneDogstatsdConfig (DefaultIfUnset true (DataPlaneDogstatsd_Enabled c)).

Definition default_DataPlane (c : DataPlaneFeatureConfig) : DataPlaneFeatureConfig :=
  mkDataPlaneFeatureConfig (DataPlane_Enabled c) (orNew default_DataPlaneDogstatsd (DataPlane_Dogstatsd c)).

(** [None]: the code panics. *)
Definition default_Features (c : DatadogFeatures) : option DatadogFeatures :=
  dogstatsd ← default_Dogstatsd (default zero (Features_Dogstatsd c));
  Some (mkDatadogFeatures
    (orNew default_OtelCollector (Features_OtelCollector c))
    (Features_OtelAgentGateway c)
    (orNew default_LogCollection (Features_LogCollection c))
    (orNew default_LiveProcessCollection (Features_LiveProcessCollection c))
    (orNew default_LiveContainerCollection (Features_LiveContainerCollection c))
    (orNew default_ProcessDiscovery (Features_ProcessDiscovery c))
    (orNew default_OOMKill (Features_OOMKill c))
    (orNew default_TCPQueueLength (Features_TCPQueueLength c))
    (orNew default_EBPFCheck (Features_EBPFCheck c))
    (orNew default_APM (Features_APM c))
    (orNew default_ASM (Features_ASM c))
    (orNew default_CSPM (Features_CSPM c))
    (orNew default_CWS (Features_CWS c))
    (orNew default_NPM (Features_NPM c))
    (orNew default_USM (Features_USM c))
    (orNew default_DynamicInstrumentation (Features_DynamicInstrumentation c))
    (Some dogstatsd)
    (orNew default_OTLP (Features_OTLP c))
    (orNew default_RemoteConfiguration (Features_RemoteConfiguration c))
    (Features_SBOM c)
    (orNew id (Features_ServiceDiscovery c))
    (orNew default_GPU (Features_GPU c))
    (orNew default_DataPlane (Features_DataPlane c))
    (orNew default_EventCollection (Features_EventCollection c))
    (orNew default_OrchestratorExplorer (Features_OrchestratorExplorer c))
    (orNew default_KubeStateMetricsCore (Features_KubeStateMetricsCore c))
    (orNew default_AdmissionController (Features_AdmissionController c))
    (orNew default_ExternalMetricsServer (Features_ExternalMetricsServer c))
    (Features_Autoscaling c)
    (orNew default_ClusterChecks (Features_ClusterChecks c))
    (orNew default_PrometheusScrape (Features_PrometheusScrape c))
    (orNew default_HelmCheck (Features_HelmCheck c))
    (orNew default_ControlPlaneMonitoring (Features_ControlPlaneMonitoring c))
    (Features_KubernetesActions c)).

Definition defaultFeaturesConfig (spec : DatadogAgentSpec) : option DatadogAgentSpec :=
  features ← default_Features (default zero (Spec_Features spec));
  Some (mkDatadogAgentSpec (Some features) (Spec_Global spec) (Spec_Override spec)).

Definition DefaultDatadogAgentSpec (spec : DatadogAgentSpec) : option DatadogAgentSpec :=
  defaultFeaturesConfig (defaultGlobalConfig spec).
