(* ===== verification/DefaultsTheorems.v ===== *)
(** * Defaulting fills in and does nothing else.

    What a DatadogAgent sets survives its defaults; defaulting twice is
    defaulting once, so that the DatadogAgentInternal made from a defaulted
    DatadogAgent is not changed by the defaults its own controller applies; and
    the one way to make it panic. *)

From Stdlib Require Import ZArith.
From stdpp Require Import base gmap strings list.
From S2P Require Import Prelude PodMerger FleetData AgentSpec Defaults.

(** ** What is kept *)

(** A pointer that was set stays set, to a value related to the one it had. *)
Inductive kept {A : Type} (R : A → A → Prop) : option A → option A → Prop :=
  | kept_unset p : kept R None p
  | kept_set x y : R x y → kept R (Some x) (Some y).

(** A text that is not empty stays. *)
Definition filled (s t : string) : Prop := s = "" ∨ s = t.

(** Field by field: the fields defaults touch may be filled in, the others are
    the same. *)
Definition kept_OtelCollectorFeatureConfig (a b : OtelCollectorFeatureConfig) : Prop :=
  kept eq (OtelCollector_Enabled a) (OtelCollector_Enabled b) ∧ OtelCollector_Conf a = OtelCollector_Conf b ∧
  OtelCollector_Ports a = OtelCollector_Ports b ∧ OtelCollector_CoreConfig a = OtelCollector_CoreConfig b.

Definition kept_LogCollectionFeatureConfig (a b : LogCollectionFeatureConfig) : Prop :=
  kept eq (LogCollection_Enabled a) (LogCollection_Enabled b) ∧
  LogCollection_ContainerCollectAll a = LogCollection_ContainerCollectAll b ∧
  kept eq (LogCollection_ContainerCollectUsingFiles a) (LogCollection_ContainerCollectUsingFiles b) ∧
  kept eq (LogCollection_ContainerLogsPath a) (LogCollection_ContainerLogsPath b) ∧
  kept eq (LogCollection_PodLogsPath a) (LogCollection_PodLogsPath b) ∧
  kept eq (LogCollection_ContainerSymlinksPath a) (LogCollection_ContainerSymlinksPath b) ∧
  kept eq (LogCollection_TempStoragePath a) (LogCollection_TempStoragePath b) ∧
  LogCollection_OpenFilesLimit a = LogCollection_OpenFilesLimit b ∧
  LogCollection_AutoMultiLineDetection a = LogCollection_AutoMultiLineDetection b.

Definition kept_LiveProcessCollectionFeatureConfig (a b : LiveProcessCollectionFeatureConfig) : Prop :=
  kept eq (LiveProcessCollection_Enabled a) (LiveProcessCollection_Enabled b) ∧
  LiveProcessCollection_ScrubProcessArguments a = LiveProcessCollection_ScrubProcessArguments b ∧
  LiveProcessCollection_StripProcessArguments a = LiveProcessCollection_StripProcessArguments b.

Definition kept_LiveContainerCollectionFeatureConfig (a b : LiveContainerCollectionFeatureConfig) : Prop :=
  kept eq (LiveContainerCollection_Enabled a) (LiveContainerCollection_Enabled b).

Definition kept_ProcessDiscoveryFeatureConfig (a b : ProcessDiscoveryFeatureConfig) : Prop :=
  kept eq (ProcessDiscovery_Enabled a) (ProcessDiscovery_Enabled b).

Definition kept_OOMKillFeatureConfig (a b : OOMKillFeatureConfig) : Prop :=
  kept eq (OOMKill_Enabled a) (OOMKill_Enabled b).

Definition kept_TCPQueueLengthFeatureConfig (a b : TCPQueueLengthFeatureConfig) : Prop :=
  kept eq (TCPQueueLength_Enabled a) (TCPQueueLength_Enabled b).

Definition kept_EBPFCheckFeatureConfig (a b : EBPFCheckFeatureConfig) : Prop :=
  kept eq (EBPFCheck_Enabled a) (EBPFCheck_Enabled b).

Definition kept_HostPortConfig (a b : HostPortConfig) : Prop :=
  kept eq (HostPort_Enabled a) (HostPort_Enabled b) ∧ kept eq (HostPort_Port a) (HostPort_Port b).

Definition kept_UnixDomainSocketConfig (a b : UnixDomainSocketConfig) : Prop :=
  kept eq (UnixDomainSocket_Enabled a) (UnixDomainSocket_Enabled b) ∧
  kept eq (UnixDomainSocket_Path a) (UnixDomainSocket_Path b).

Definition kept_LanguageDetectionConfig (a b : LanguageDetectionConfig) : Prop :=
  kept eq (LanguageDetection_Enabled a) (LanguageDetection_Enabled b).

Definition kept_SingleStepInstrumentation (a b : SingleStepInstrumentation) : Prop :=
  kept eq (SingleStepInstrumentation_Enabled a) (SingleStepInstrumentation_Enabled b) ∧
  SingleStepInstrumentation_EnabledNamespaces a = SingleStepInstrumentation_EnabledNamespaces b ∧
  SingleStepInstrumentation_DisabledNamespaces a = SingleStepInstrumentation_DisabledNamespaces b ∧
  SingleStepInstrumentation_LibVersions a = SingleStepInstrumentation_LibVersions b ∧
  kept kept_LanguageDetectionConfig (SingleStepInstrumentation_LanguageDetection a) (SingleStepInstrumentation_LanguageDetection b) ∧
  kept eq (SingleStepInstrumentation_Injector a) (SingleStepInstrumentation_Injector b) ∧
  SingleStepInstrumentation_InjectionMode a = SingleStepInstrumentation_InjectionMode b ∧
  SingleStepInstrumentation_Targets a = SingleStepInstrumentation_Targets b.

Definition kept_ErrorTrackingStandalone (a b : ErrorTrackingStandalone) : Prop :=
  kept eq (ErrorTrackingStandalone_Enabled a) (ErrorTrackingStandalone_Enabled b).

Definition kept_APMFeatureConfig (a b : APMFeatureConfig) : Prop :=
  kept eq (APM_Enabled a) (APM_Enabled b) ∧
  kept kept_HostPortConfig (APM_HostPortConfig a) (APM_HostPortConfig b) ∧
  kept kept_UnixDomainSocketConfig (APM_UnixDomainSocketConfig a) (APM_UnixDomainSocketConfig b) ∧
  kept kept_SingleStepInstrumentation (APM_SingleStepInstrumentation a) (APM_SingleStepInstrumentation b) ∧
  kept kept_ErrorTrackingStandalone (APM_ErrorTrackingStandalone a) (APM_ErrorTrackingStandalone b).

Definition kept_ASMThreatsConfig (a b : ASMThreatsConfig) : Prop :=
  kept eq (ASMThreats_Enabled a) (ASMThreats_Enabled b).

Definition kept_ASMSCAConfig (a b : ASMSCAConfig) : Prop :=
  kept eq (ASMSCA_Enabled a) (ASMSCA_Enabled b).

Definition kept_ASMIASTConfig (a b : ASMIASTConfig) : Prop :=
  kept eq (ASMIAST_Enabled a) (ASMIAST_Enabled b).

Definition kept_ASMFeatureConfig (a b : ASMFeatureConfig) : Prop :=
  kept kept_ASMThreatsConfig (ASM_Threats a) (ASM_Threats b) ∧ kept kept_ASMSCAConfig (ASM_SCA a) (ASM_SCA b) ∧
  kept kept_ASMIASTConfig (ASM_IAST a) (ASM_IAST b).

Definition kept_CSPMHostBenchmarksConfig (a b : CSPMHostBenchmarksConfig) : Prop :=
  kept eq (CSPMHostBenchmarks_Enabled a) (CSPMHostBenchmarks_Enabled b).

Definition kept_CSPMFeatureConfig (a b : CSPMFeatureConfig) : Prop :=
  kept eq (CSPM_Enabled a) (CSPM_Enabled b) ∧ CSPM_CheckInterval a = CSPM_CheckInterval b ∧
  CSPM_CustomBenchmarks a = CSPM_CustomBenchmarks b ∧
  kept kept_CSPMHostBenchmarksConfig (CSPM_HostBenchmarks a) (CSPM_HostBenchmarks b) ∧
  CSPM_RunInSystemProbe a = CSPM_RunInSystemProbe b.

Definition kept_CWSEnforcementConfig (a b : CWSEnforcementConfig) : Prop :=
  kept eq (CWSEnforcement_Enabled a) (CWSEnforcement_Enabled b).

Definition kept_CWSNetworkConfig (a b : CWSNetworkConfig) : Prop :=
  kept eq (CWSNetwork_Enabled a) (CWSNetwork_Enabled b).

Definition kept_CWSSecurityProfilesConfig (a b : CWSSecurityProfilesConfig) : Prop :=
  kept eq (CWSSecurityProfiles_Enabled a) (CWSSecurityProfiles_Enabled b).

Definition kept_CWSFeatureConfig (a b : CWSFeatureConfig) : Prop :=
  kept eq (CWS_Enabled a) (CWS_Enabled b) ∧ kept eq (CWS_SyscallMonitorEnabled a) (CWS_SyscallMonitorEnabled b) ∧
  kept eq (CWS_DirectSendFromSystemProbe a) (CWS_DirectSendFromSystemProbe b) ∧
  kept kept_CWSEnforcementConfig (CWS_Enforcement a) (CWS_Enforcement b) ∧
  kept kept_CWSNetworkConfig (CWS_Network a) (CWS_Network b) ∧
  kept kept_CWSSecurityProfilesConfig (CWS_SecurityProfiles a) (CWS_SecurityProfiles b) ∧
  CWS_RemoteConfiguration a = CWS_RemoteConfiguration b ∧ CWS_CustomPolicies a = CWS_CustomPolicies b.

Definition kept_NPMFeatureConfig (a b : NPMFeatureConfig) : Prop :=
  kept eq (NPM_Enabled a) (NPM_Enabled b) ∧ kept eq (NPM_EnableConntrack a) (NPM_EnableConntrack b) ∧
  kept eq (NPM_CollectDNSStats a) (NPM_CollectDNSStats b).

Definition kept_USMFeatureConfig (a b : USMFeatureConfig) : Prop :=
  kept eq (USM_Enabled a) (USM_Enabled b).

Definition kept_DynamicInstrumentationFeatureConfig (a b : DynamicInstrumentationFeatureConfig) : Prop :=
  kept eq (DynamicInstrumentation_Enabled a) (DynamicInstrumentation_Enabled b).

Definition kept_DogstatsdFeatureConfig (a b : DogstatsdFeatureConfig) : Prop :=
  kept eq (Dogstatsd_OriginDetectionEnabled a) (Dogstatsd_OriginDetectionEnabled b) ∧
  Dogstatsd_TagCardinality a = Dogstatsd_TagCardinality b ∧
  kept kept_HostPortConfig (Dogstatsd_HostPortConfig a) (Dogstatsd_HostPortConfig b) ∧
  kept kept_UnixDomainSocketConfig (Dogstatsd_UnixDomainSocketConfig a) (Dogstatsd_UnixDomainSocketConfig b) ∧
  Dogstatsd_MapperProfiles a = Dogstatsd_MapperProfiles b ∧
  kept eq (Dogstatsd_NonLocalTraffic a) (Dogstatsd_NonLocalTraffic b).

Definition kept_OTLPGRPCConfig (a b : OTLPGRPCConfig) : Prop :=
  kept eq (OTLPGRPC_Enabled a) (OTLPGRPC_Enabled b) ∧
  kept kept_HostPortConfig (OTLPGRPC_HostPortConfig a) (OTLPGRPC_HostPortConfig b) ∧
  kept eq (OTLPGRPC_Endpoint a) (OTLPGRPC_Endpoint b).

Definition kept_OTLPHTTPConfig (a b : OTLPHTTPConfig) : Prop :=
  kept eq (OTLPHTTP_Enabled a) (OTLPHTTP_Enabled b) ∧
  kept kept_HostPortConfig (OTLPHTTP_HostPortConfig a) (OTLPHTTP_HostPortConfig b) ∧
  kept eq (OTLPHTTP_Endpoint a) (OTLPHTTP_Endpoint b).

Definition kept_OTLPProtocolsConfig (a b : OTLPProtocolsConfig) : Prop :=
  kept kept_OTLPGRPCConfig (OTLPProtocols_GRPC a) (OTLPProtocols_GRPC b) ∧
  kept kept_OTLPHTTPConfig (OTLPProtocols_HTTP a) (OTLPProtocols_HTTP b).

Definition kept_OTLPReceiverConfig (a b : OTLPReceiverConfig) : Prop :=
  kept_OTLPProtocolsConfig (OTLPReceiver_Protocols a) (OTLPReceiver_Protocols b).

Definition kept_OTLPFeatureConfig (a b : OTLPFeatureConfig) : Prop :=
  kept_OTLPReceiverConfig (OTLP_Receiver a) (OTLP_Receiver b).

Definition kept_RemoteConfigurationFeatureConfig (a b : RemoteConfigurationFeatureConfig) : Prop :=
  kept eq (RemoteConfiguration_Enabled a) (RemoteConfiguration_Enabled b).

Definition kept_GPUFeatureConfig (a b : GPUFeatureConfig) : Prop :=
  kept eq (GPU_Enabled a) (GPU_Enabled b) ∧ GPU_PrivilegedMode a = GPU_PrivilegedMode b ∧
  GPU_PodRuntimeClassName a = GPU_PodRuntimeClassName b ∧
  GPU_PatchCgroupPermissions a = GPU_PatchCgroupPermissions b.

Definition kept_DataPlaneDogstatsdConfig (a b : DataPlaneDogstatsdConfig) : Prop :=
  kept eq (DataPlaneDogstatsd_Enabled a) (DataPlaneDogstatsd_Enabled b).

Definition kept_DataPlaneFeatureConfig (a b : DataPlaneFeatureConfig) : Prop :=
  DataPlane_Enabled a = DataPlane_Enabled b ∧
  kept kept_DataPlaneDogstatsdConfig (DataPlane_Dogstatsd a) (DataPlane_Dogstatsd b).

Definition kept_EventCollectionFeatureConfig (a b : EventCollectionFeatureConfig) : Prop :=
  kept eq (EventCollection_CollectKubernetesEvents a) (EventCollection_CollectKubernetesEvents b) ∧
  EventCollection_UnbundleEvents a = EventCollection_UnbundleEvents b ∧
  kept eq (EventCollection_CollectedEventTypes a) (EventCollection_CollectedEventTypes b).

Definition kept_OrchestratorExplorerFeatureConfig (a b : OrchestratorExplorerFeatureConfig) : Prop :=
  kept eq (OrchestratorExplorer_Enabled a) (OrchestratorExplorer_Enabled b) ∧
  OrchestratorExplorer_Conf a = OrchestratorExplorer_Conf b ∧
  kept eq (OrchestratorExplorer_ScrubContainers a) (OrchestratorExplorer_ScrubContainers b) ∧
  OrchestratorExplorer_CustomResources a = OrchestratorExplorer_CustomResources b ∧
  OrchestratorExplorer_ExtraTags a = OrchestratorExplorer_ExtraTags b ∧
  OrchestratorExplorer_DDUrl a = OrchestratorExplorer_DDUrl b.

Definition kept_KubeStateMetricsCoreFeatureConfig (a b : KubeStateMetricsCoreFeatureConfig) : Prop :=
  kept eq (KubeStateMetricsCore_Enabled a) (KubeStateMetricsCore_Enabled b) ∧
  KubeStateMetricsCore_Conf a = KubeStateMetricsCore_Conf b ∧
  KubeStateMetricsCore_CollectCrMetrics a = KubeStateMetricsCore_CollectCrMetrics b.

Definition kept_AdmissionControllerValidationConfig (a b : AdmissionControllerValidationConfig) : Prop :=
  kept eq (AdmissionControllerValidation_Enabled a) (AdmissionControllerValidation_Enabled b).

Definition kept_AdmissionControllerMutationConfig (a b : AdmissionControllerMutationConfig) : Prop :=
  kept eq (AdmissionControllerMutation_Enabled a) (AdmissionControllerMutation_Enabled b).

Definition kept_AgentImageConfig (a b : AgentImageConfig) : Prop :=
  filled (AgentImage_Name a) (AgentImage_Name b) ∧ filled (AgentImage_Tag a) (AgentImage_Tag b) ∧
  AgentImage_JMXEnabled a = AgentImage_JMXEnabled b ∧ AgentImage_PullPolicy a = AgentImage_PullPolicy b ∧
  AgentImage_PullSecrets a = AgentImage_PullSecrets b.

Definition kept_AgentSidecarInjectionConfig (a b : AgentSidecarInjectionConfig) : Prop :=
  AgentSidecarInjection_Enabled a = AgentSidecarInjection_Enabled b ∧
  kept eq (AgentSidecarInjection_ClusterAgentCommunicationEnabled a) (AgentSidecarInjection_ClusterAgentCommunicationEnabled b) ∧
  AgentSidecarInjection_Provider a = AgentSidecarInjection_Provider b ∧
  AgentSidecarInjection_Registry a = AgentSidecarInjection_Registry b ∧
  AgentSidecarInjection_Image a = AgentSidecarInjection_Image b ∧
  AgentSidecarInjection_Selectors a = AgentSidecarInjection_Selectors b ∧
  AgentSidecarInjection_Profiles a = AgentSidecarInjection_Profiles b ∧
  AgentSidecarInjection_ClusterAgentTLSVerification a = AgentSidecarInjection_ClusterAgentTLSVerification b.

Definition kept_KubernetesAdmissionEventsConfig (a b : KubernetesAdmissionEventsConfig) : Prop :=
  kept eq (KubernetesAdmissionEvents_Enabled a) (KubernetesAdmissionEvents_Enabled b).

Definition kept_CWSInstrumentationConfig (a b : CWSInstrumentationConfig) : Prop :=
  kept eq (CWSInstrumentation_Enabled a) (CWSInstrumentation_Enabled b) ∧
  kept eq (CWSInstrumentation_Mode a) (CWSInstrumentation_Mode b).

Definition kept_AdmissionControllerFeatureConfig (a b : AdmissionControllerFeatureConfig) : Prop :=
  kept eq (AdmissionController_Enabled a) (AdmissionController_Enabled b) ∧
  kept kept_AdmissionControllerValidationConfig (AdmissionController_Validation a) (AdmissionController_Validation b) ∧
  kept kept_AdmissionControllerMutationConfig (AdmissionController_Mutation a) (AdmissionController_Mutation b) ∧
  kept eq (AdmissionController_MutateUnlabelled a) (AdmissionController_MutateUnlabelled b) ∧
  kept eq (AdmissionController_ServiceName a) (AdmissionController_ServiceName b) ∧
  AdmissionController_AgentCommunicationMode a = AdmissionController_AgentCommunicationMode b ∧
  AdmissionController_FailurePolicy a = AdmissionController_FailurePolicy b ∧
  AdmissionController_WebhookName a = AdmissionController_WebhookName b ∧
  kept kept_AgentSidecarInjectionConfig (AdmissionController_AgentSidecarInjection a) (AdmissionController_AgentSidecarInjection b) ∧
  AdmissionController_Registry a = AdmissionController_Registry b ∧
  kept kept_KubernetesAdmissionEventsConfig (AdmissionController_KubernetesAdmissionEvents a) (AdmissionController_KubernetesAdmissionEvents b) ∧
  kept kept_CWSInstrumentationConfig (AdmissionController_CWSInstrumentation a) (AdmissionController_CWSInstrumentation b) ∧
  AdmissionController_Probe a = AdmissionController_Probe b.

Definition kept_ExternalMetricsServerFeatureConfig (a b : ExternalMetricsServerFeatureConfig) : Prop :=
  kept eq (ExternalMetricsServer_Enabled a) (ExternalMetricsServer_Enabled b) ∧
  kept eq (ExternalMetricsServer_RegisterAPIService a) (ExternalMetricsServer_RegisterAPIService b) ∧
  ExternalMetricsServer_WPAController a = ExternalMetricsServer_WPAController b ∧
  kept eq (ExternalMetricsServer_UseDatadogMetrics a) (ExternalMetricsServer_UseDatadogMetrics b) ∧
  kept eq (ExternalMetricsServer_Port a) (ExternalMetricsServer_Port b) ∧
  ExternalMetricsServer_Endpoint a = ExternalMetricsServer_Endpoint b.

Definition kept_ClusterChecksFeatureConfig (a b : ClusterChecksFeatureConfig) : Prop :=
  kept eq (ClusterChecks_Enabled a) (ClusterChecks_Enabled b) ∧
  kept eq (ClusterChecks_UseClusterChecksRunners a) (ClusterChecks_UseClusterChecksRunners b).

Definition kept_PrometheusScrapeFeatureConfig (a b : PrometheusScrapeFeatureConfig) : Prop :=
  kept eq (PrometheusScrape_Enabled a) (PrometheusScrape_Enabled b) ∧
  kept eq (PrometheusScrape_EnableServiceEndpoints a) (PrometheusScrape_EnableServiceEndpoints b) ∧
  PrometheusScrape_AdditionalConfigs a = PrometheusScrape_AdditionalConfigs b ∧
  kept eq (PrometheusScrape_Version a) (PrometheusScrape_Version b).

Definition kept_HelmCheckFeatureConfig (a b : HelmCheckFeatureConfig) : Prop :=
  kept eq (HelmCheck_Enabled a) (HelmCheck_Enabled b) ∧
  kept eq (HelmCheck_CollectEvents a) (HelmCheck_CollectEvents b) ∧
  HelmCheck_ValuesAsTags a = HelmCheck_ValuesAsTags b.

Definition kept_ControlPlaneMonitoringFeatureConfig (a b : ControlPlaneMonitoringFeatureConfig) : Prop :=
  kept eq (ControlPlaneMonitoring_Enabled a) (ControlPlaneMonitoring_Enabled b).

Definition kept_DatadogFeatures (a b : DatadogFeatures) : Prop :=
  kept kept_OtelCollectorFeatureConfig (Features_OtelCollector a) (Features_OtelCollector b) ∧
  Features_OtelAgentGateway a = Features_OtelAgentGateway b ∧
  kept kept_LogCollectionFeatureConfig (Features_LogCollection a) (Features_LogCollection b) ∧
  kept kept_LiveProcessCollectionFeatureConfig (Features_LiveProcessCollection a) (Features_LiveProcessCollection b) ∧
  kept kept_LiveContainerCollectionFeatureConfig (Features_LiveContainerCollection a) (Features_LiveContainerCollection b) ∧
  kept kept_ProcessDiscoveryFeatureConfig (Features_ProcessDiscovery a) (Features_ProcessDiscovery b) ∧
  kept kept_OOMKillFeatureConfig (Features_OOMKill a) (Features_OOMKill b) ∧
  kept kept_TCPQueueLengthFeatureConfig (Features_TCPQueueLength a) (Features_TCPQueueLength b) ∧
  kept kept_EBPFCheckFeatureConfig (Features_EBPFCheck a) (Features_EBPFCheck b) ∧
  kept kept_APMFeatureConfig (Features_APM a) (Features_APM b) ∧
  kept kept_ASMFeatureConfig (Features_ASM a) (Features_ASM b) ∧
  kept kept_CSPMFeatureConfig (Features_CSPM a) (Features_CSPM b) ∧
  kept kept_CWSFeatureConfig (Features_CWS a) (Features_CWS b) ∧
  kept kept_NPMFeatureConfig (Features_NPM a) (Features_NPM b) ∧
  kept kept_USMFeatureConfig (Features_USM a) (Features_USM b) ∧
  kept kept_DynamicInstrumentationFeatureConfig (Features_DynamicInstrumentation a) (Features_DynamicInstrumentation b) ∧
  kept kept_DogstatsdFeatureConfig (Features_Dogstatsd a) (Features_Dogstatsd b) ∧
  kept kept_OTLPFeatureConfig (Features_OTLP a) (Features_OTLP b) ∧
  kept kept_RemoteConfigurationFeatureConfig (Features_RemoteConfiguration a) (Features_RemoteConfiguration b) ∧
  Features_SBOM a = Features_SBOM b ∧ kept eq (Features_ServiceDiscovery a) (Features_ServiceDiscovery b) ∧
  kept kept_GPUFeatureConfig (Features_GPU a) (Features_GPU b) ∧
  kept kept_DataPlaneFeatureConfig (Features_DataPlane a) (Features_DataPlane b) ∧
  kept kept_EventCollectionFeatureConfig (Features_EventCollection a) (Features_EventCollection b) ∧
  kept kept_OrchestratorExplorerFeatureConfig (Features_OrchestratorExplorer a) (Features_OrchestratorExplorer b) ∧
  kept kept_KubeStateMetricsCoreFeatureConfig (Features_KubeStateMetricsCore a) (Features_KubeStateMetricsCore b) ∧
  kept kept_AdmissionControllerFeatureConfig (Features_AdmissionController a) (Features_AdmissionController b) ∧
  kept kept_ExternalMetricsServerFeatureConfig (Features_ExternalMetricsServer a) (Features_ExternalMetricsServer b) ∧
  Features_Autoscaling a = Features_Autoscaling b ∧
  kept kept_ClusterChecksFeatureConfig (Features_ClusterChecks a) (Features_ClusterChecks b) ∧
  kept kept_PrometheusScrapeFeatureConfig (Features_PrometheusScrape a) (Features_PrometheusScrape b) ∧
  kept kept_HelmCheckFeatureConfig (Features_HelmCheck a) (Features_HelmCheck b) ∧
  kept kept_ControlPlaneMonitoringFeatureConfig (Features_ControlPlaneMonitoring a) (Features_ControlPlaneMonitoring b) ∧
  Features_KubernetesActions a = Features_KubernetesActions b.

Definition kept_KubeletConfig (a b : KubeletConfig) : Prop :=
  Kubelet_Host a = Kubelet_Host b ∧ Kubelet_TLSVerify a = Kubelet_TLSVerify b ∧
  Kubelet_HostCAPath a = Kubelet_HostCAPath b ∧ Kubelet_AgentCAPath a = Kubelet_AgentCAPath b ∧
  filled (Kubelet_PodResourcesSocketPath a) (Kubelet_PodResourcesSocketPath b).

Definition kept_FIPSConfig (a b : FIPSConfig) : Prop :=
  kept eq (FIPS_Enabled a) (FIPS_Enabled b) ∧ kept kept_AgentImageConfig (FIPS_Image a) (FIPS_Image b) ∧
  kept eq (FIPS_LocalAddress a) (FIPS_LocalAddress b) ∧ kept eq (FIPS_Port a) (FIPS_Port b) ∧
  kept eq (FIPS_PortRange a) (FIPS_PortRange b) ∧ FIPS_Resources a = FIPS_Resources b ∧
  kept eq (FIPS_UseHTTPS a) (FIPS_UseHTTPS b) ∧ FIPS_CustomFIPSConfig a = FIPS_CustomFIPSConfig b.

Definition kept_GlobalConfig (a b : GlobalConfig) : Prop :=
  Global_Credentials a = Global_Credentials b ∧ Global_ClusterAgentToken a = Global_ClusterAgentToken b ∧
  Global_ClusterAgentTokenSecret a = Global_ClusterAgentTokenSecret b ∧
  Global_ClusterName a = Global_ClusterName b ∧ kept eq (Global_Site a) (Global_Site b) ∧
  Global_Endpoint a = Global_Endpoint b ∧ kept eq (Global_Registry a) (Global_Registry b) ∧
  kept eq (Global_LogLevel a) (Global_LogLevel b) ∧ Global_Tags a = Global_Tags b ∧ Global_Env a = Global_Env b ∧
  Global_CommonLabels a = Global_CommonLabels b ∧ Global_ChecksTagCardinality a = Global_ChecksTagCardinality b ∧
  Global_OriginDetectionUnified a = Global_OriginDetectionUnified b ∧
  Global_PodLabelsAsTags a = Global_PodLabelsAsTags b ∧
  Global_PodAnnotationsAsTags a = Global_PodAnnotationsAsTags b ∧
  Global_NodeLabelsAsTags a = Global_NodeLabelsAsTags b ∧
  Global_NamespaceLabelsAsTags a = Global_NamespaceLabelsAsTags b ∧
  Global_NamespaceAnnotationsAsTags a = Global_NamespaceAnnotationsAsTags b ∧
  Global_KubernetesResourcesLabelsAsTags a = Global_KubernetesResourcesLabelsAsTags b ∧
  Global_KubernetesResourcesAnnotationsAsTags a = Global_KubernetesResourcesAnnotationsAsTags b ∧
  Global_CSI a = Global_CSI b ∧ Global_NetworkPolicy a = Global_NetworkPolicy b ∧
  Global_LocalService a = Global_LocalService b ∧ kept kept_KubeletConfig (Global_Kubelet a) (Global_Kubelet b) ∧
  Global_DockerSocketPath a = Global_DockerSocketPath b ∧ Global_CriSocketPath a = Global_CriSocketPath b ∧
  Global_DisableNonResourceRules a = Global_DisableNonResourceRules b ∧
  kept eq (Global_ContainerStrategy a) (Global_ContainerStrategy b) ∧
  kept eq (Global_UseFIPSAgent a) (Global_UseFIPSAgent b) ∧ kept kept_FIPSConfig (Global_FIPS a) (Global_FIPS b) ∧
  Global_SecretBackend a = Global_SecretBackend b ∧ Global_UseVSock a = Global_UseVSock b.

Definition kept_DatadogAgentSpec (a b : DatadogAgentSpec) : Prop :=
  kept kept_DatadogFeatures (Spec_Features a) (Spec_Features b) ∧
  kept kept_GlobalConfig (Spec_Global a) (Spec_Global b) ∧ Spec_Override a = Spec_Override b.

(** ** Defaulting keeps *)

Lemma kept_refl {A} (R : A → A → Prop) p : (∀ x, R x x) → kept R p p.
Proof. intros. destruct p; by constructor. Qed.

Lemma kept_default {A} (d : A) p : kept eq p (DefaultIfUnset d p).
Proof. destruct p; by constructor. Qed.

Lemma kept_orNew {A} `{Zero A} (R : A → A → Prop) f p : (∀ c, R c (f c)) → kept R p (orNew f p).
Proof. intros. destruct p; constructor. auto. Qed.

Lemma kept_fmap {A} (R : A → A → Prop) f p : (∀ c, R c (f c)) → kept R p (f <$> p).
Proof. intros. destruct p; constructor. auto. Qed.

Lemma kept_onlyIf {A} (R : A → A → Prop) b f p :
  (∀ x, R x x) → (∀ p, kept R p (f p)) → kept R p (onlyIf b f p).
Proof. intros. destruct b; [auto|by apply kept_refl]. Qed.

Lemma filled_orEmpty d s : filled s (orEmpty d s).
Proof. unfold orEmpty. case_bool_decide; [by left|by right]. Qed.

Create HintDb defaults.
#[export] Hint Resolve kept_refl kept_default kept_orNew kept_fmap kept_onlyIf filled_orEmpty : defaults.
#[export] Hint Extern 1 (_ = _) => reflexivity : defaults.

#[local] Arguments DefaultIfUnset : simpl never.
#[local] Arguments orNew : simpl never.
#[local] Arguments onlyIf : simpl never.
#[local] Arguments orEmpty : simpl never.
#[local] Arguments BoolValue : simpl never.

(** A relation holds field by field. *)
Ltac kept_auto := intros c; hnf; repeat split; cbn; auto with defaults.

(** A struct that is left alone is kept. *)
Ltac kept_self := intros c; hnf; repeat split; auto with defaults.

Lemma self_FIPSImage : ∀ c, kept_AgentImageConfig c c.
Proof. intros c. repeat split; by right. Qed.
Lemma self_HostPort : ∀ c, kept_HostPortConfig c c.
Proof. kept_self. Qed.
Lemma self_Socket : ∀ c, kept_UnixDomainSocketConfig c c.
Proof. kept_self. Qed.
Lemma self_LanguageDetection : ∀ c, kept_LanguageDetectionConfig c c.
Proof. kept_self. Qed.
#[export] Hint Resolve self_FIPSImage self_HostPort self_Socket self_LanguageDetection : defaults.
Lemma self_SingleStep : ∀ c, kept_SingleStepInstrumentation c c.
Proof. kept_self. Qed.
Lemma self_ErrorTracking : ∀ c, kept_ErrorTrackingStandalone c c.
Proof. kept_self. Qed.
Lemma self_HostBenchmarks : ∀ c, kept_CSPMHostBenchmarksConfig c c.
Proof. kept_self. Qed.
Lemma self_CWSEnforcement : ∀ c, kept_CWSEnforcementConfig c c.
Proof. kept_self. Qed.
Lemma self_CWSNetwork : ∀ c, kept_CWSNetworkConfig c c.
Proof. kept_self. Qed.
Lemma self_CWSSecurityProfiles : ∀ c, kept_CWSSecurityProfilesConfig c c.
Proof. kept_self. Qed.
#[export] Hint Resolve self_SingleStep self_ErrorTracking self_HostBenchmarks self_CWSEnforcement self_CWSNetwork
  self_CWSSecurityProfiles : defaults.

(** *** Each struct *)

Lemma keeps_FIPSImage : ∀ c, kept_AgentImageConfig c (default_FIPSImage c).
Proof. kept_auto. Qed.
#[export] Hint Resolve keeps_FIPSImage : defaults.
Lemma keeps_FIPS : ∀ c, kept_FIPSConfig c (default_FIPS c).
Proof. kept_auto. Qed.
#[export] Hint Resolve keeps_FIPS : defaults.
Lemma keeps_Kubelet : ∀ c, kept_KubeletConfig c (default_Kubelet c).
Proof. kept_auto. Qed.
#[export] Hint Resolve keeps_Kubelet : defaults.
Lemma keeps_Global : ∀ c, kept_GlobalConfig c (default_Global c).
Proof. kept_auto. Qed.
#[export] Hint Resolve keeps_Global : defaults.
Lemma keeps_LogCollection : ∀ c, kept_LogCollectionFeatureConfig c (default_LogCollection c).
Proof. kept_auto. Qed.
#[export] Hint Resolve keeps_LogCollection : defaults.
Lemma keeps_LiveContainerCollection : ∀ c, kept_LiveContainerCollectionFeatureConfig c (default_LiveContainerCollection c).
Proof. kept_auto. Qed.
#[export] Hint Resolve keeps_LiveContainerCollection : defaults.
Lemma keeps_OtelCollector : ∀ c, kept_OtelCollectorFeatureConfig c (default_OtelCollector c).
Proof. kept_auto. Qed.
#[export] Hint Resolve keeps_OtelCollector : defaults.
Lemma keeps_LiveProcessCollection : ∀ c, kept_LiveProcessCollectionFeatureConfig c (default_LiveProcessCollection c).
Proof. kept_auto. Qed.
#[export] Hint Resolve keeps_LiveProcessCollection : defaults.
Lemma keeps_ProcessDiscovery : ∀ c, kept_ProcessDiscoveryFeatureConfig c (default_ProcessDiscovery c).
Proof. kept_auto. Qed.
#[export] Hint Resolve keeps_ProcessDiscovery : defaults.
Lemma keeps_OOMKill : ∀ c, kept_OOMKillFeatureConfig c (default_OOMKill c).
Proof. kept_auto. Qed.
#[export] Hint Resolve keeps_OOMKill : defaults.
Lemma keeps_TCPQueueLength : ∀ c, kept_TCPQueueLengthFeatureConfig c (default_TCPQueueLength c).
Proof. kept_auto. Qed.
#[export] Hint Resolve keeps_TCPQueueLength : defaults.
Lemma keeps_EBPFCheck : ∀ c, kept_EBPFCheckFeatureConfig c (default_EBPFCheck c).
Proof. kept_auto. Qed.
#[export] Hint Resolve keeps_EBPFCheck : defaults.
Lemma keeps_GPU : ∀ c, kept_GPUFeatureConfig c (default_GPU c).
Proof. kept_auto. Qed.
#[export] Hint Resolve keeps_GPU : defaults.
Lemma keeps_LanguageDetection : ∀ c, kept_LanguageDetectionConfig c (default_LanguageDetection c).
Proof. kept_auto. Qed.
#[export] Hint Resolve keeps_LanguageDetection : defaults.
Lemma keeps_SingleStep : ∀ c, kept_SingleStepInstrumentation c (default_SingleStep c).
Proof. kept_auto. Qed.
#[export] Hint Resolve keeps_SingleStep : defaults.
Lemma keeps_ErrorTracking : ∀ c, kept_ErrorTrackingStandalone c (default_ErrorTracking c).
Proof. kept_auto. Qed.
#[export] Hint Resolve keeps_ErrorTracking : defaults.
Lemma keeps_APMHostPort : ∀ c, kept_HostPortConfig c (default_APMHostPort c).
Proof. kept_auto. Qed.
#[export] Hint Resolve keeps_APMHostPort : defaults.
Lemma keeps_Socket path : ∀ c, kept_UnixDomainSocketConfig c (default_Socket path c).
Proof. kept_auto. Qed.
#[export] Hint Resolve keeps_Socket : defaults.
Lemma keeps_APM : ∀ c, kept_APMFeatureConfig c (default_APM c).
Proof. kept_auto. Qed.
#[export] Hint Resolve keeps_APM : defaults.
Lemma keeps_ASMThreats : ∀ c, kept_ASMThreatsConfig c (default_ASMThreats c).
Proof. kept_auto. Qed.
#[export] Hint Resolve keeps_ASMThreats : defaults.
Lemma keeps_ASMSCA : ∀ c, kept_ASMSCAConfig c (default_ASMSCA c).
Proof. kept_auto. Qed.
#[export] Hint Resolve keeps_ASMSCA : defaults.
Lemma keeps_ASMIAST : ∀ c, kept_ASMIASTConfig c (default_ASMIAST c).
Proof. kept_auto. Qed.
#[export] Hint Resolve keeps_ASMIAST : defaults.
Lemma keeps_ASM : ∀ c, kept_ASMFeatureConfig c (default_ASM c).
Proof. kept_auto. Qed.
#[export] Hint Resolve keeps_ASM : defaults.
Lemma keeps_HostBenchmarks : ∀ c, kept_CSPMHostBenchmarksConfig c (default_HostBenchmarks c).
Proof. kept_auto. Qed.
#[export] Hint Resolve keeps_HostBenchmarks : defaults.
Lemma keeps_CSPM : ∀ c, kept_CSPMFeatureConfig c (default_CSPM c).
Proof. kept_auto. Qed.
#[export] Hint Resolve keeps_CSPM : defaults.
Lemma keeps_CWSEnforcement : ∀ c, kept_CWSEnforcementConfig c (default_CWSEnforcement c).
Proof. kept_auto. Qed.
#[export] Hint Resolve keeps_CWSEnforcement : defaults.
Lemma keeps_CWSNetwork : ∀ c, kept_CWSNetworkConfig c (default_CWSNetwork c).
Proof. kept_auto. Qed.
#[export] Hint Resolve keeps_CWSNetwork : defaults.
Lemma keeps_CWSSecurityProfiles : ∀ c, kept_CWSSecurityProfilesConfig c (default_CWSSecurityProfiles c).
Proof. kept_auto. Qed.
#[export] Hint Resolve keeps_CWSSecurityProfiles : defaults.
Lemma keeps_CWS : ∀ c, kept_CWSFeatureConfig c (default_CWS c).
Proof. kept_auto. Qed.
#[export] Hint Resolve keeps_CWS : defaults.
Lemma keeps_NPM : ∀ c, kept_NPMFeatureConfig c (default_NPM c).
Proof. kept_auto. Qed.
#[export] Hint Resolve keeps_NPM : defaults.
Lemma keeps_USM : ∀ c, kept_USMFeatureConfig c (default_USM c).
Proof. kept_auto. Qed.
#[export] Hint Resolve keeps_USM : defaults.
Lemma keeps_DynamicInstrumentation : ∀ c, kept_DynamicInstrumentationFeatureConfig c (default_DynamicInstrumentation c).
Proof. kept_auto. Qed.
#[export] Hint Resolve keeps_DynamicInstrumentation : defaults.
Lemma keeps_OTLPHostPort : ∀ c, kept_HostPortConfig c (default_OTLPHostPort c).
Proof. kept_auto. Qed.
#[export] Hint Resolve keeps_OTLPHostPort : defaults.
Lemma keeps_GRPC : ∀ c, kept_OTLPGRPCConfig c (default_GRPC c).
Proof. kept_auto. Qed.
#[export] Hint Resolve keeps_GRPC : defaults.
Lemma keeps_HTTP : ∀ c, kept_OTLPHTTPConfig c (default_HTTP c).
Proof. kept_auto. Qed.
#[export] Hint Resolve keeps_HTTP : defaults.
Lemma keeps_OTLP : ∀ c, kept_OTLPFeatureConfig c (default_OTLP c).
Proof. kept_auto. Qed.
#[export] Hint Resolve keeps_OTLP : defaults.
Lemma keeps_RemoteConfiguration : ∀ c, kept_RemoteConfigurationFeatureConfig c (default_RemoteConfiguration c).
Proof. kept_auto. Qed.
#[export] Hint Resolve keeps_RemoteConfiguration : defaults.
Lemma keeps_EventCollection : ∀ c, kept_EventCollectionFeatureConfig c (default_EventCollection c).
Proof. kept_auto. Qed.
#[export] Hint Resolve keeps_EventCollection : defaults.
Lemma keeps_OrchestratorExplorer : ∀ c, kept_OrchestratorExplorerFeatureConfig c (default_OrchestratorExplorer c).
Proof. kept_auto. Qed.
#[export] Hint Resolve keeps_OrchestratorExplorer : defaults.
Lemma keeps_KubeStateMetricsCore : ∀ c, kept_KubeStateMetricsCoreFeatureConfig c (default_KubeStateMetricsCore c).
Proof. kept_auto. Qed.
#[export] Hint Resolve keeps_KubeStateMetricsCore : defaults.
Lemma keeps_Validation : ∀ c, kept_AdmissionControllerValidationConfig c (default_Validation c).
Proof. kept_auto. Qed.
#[export] Hint Resolve keeps_Validation : defaults.
Lemma keeps_Mutation : ∀ c, kept_AdmissionControllerMutationConfig c (default_Mutation c).
Proof. kept_auto. Qed.
#[export] Hint Resolve keeps_Mutation : defaults.
Lemma keeps_Sidecar : ∀ c, kept_AgentSidecarInjectionConfig c (default_Sidecar c).
Proof. kept_auto. Qed.
#[export] Hint Resolve keeps_Sidecar : defaults.
Lemma keeps_AdmissionEvents : ∀ c, kept_KubernetesAdmissionEventsConfig c (default_AdmissionEvents c).
Proof. kept_auto. Qed.
#[export] Hint Resolve keeps_AdmissionEvents : defaults.
Lemma keeps_CWSInstrumentation : ∀ c, kept_CWSInstrumentationConfig c (default_CWSInstrumentation c).
Proof. kept_auto. Qed.
#[export] Hint Resolve keeps_CWSInstrumentation : defaults.
Lemma keeps_AdmissionController : ∀ c, kept_AdmissionControllerFeatureConfig c (default_AdmissionController c).
Proof. kept_auto. Qed.
#[export] Hint Resolve keeps_AdmissionController : defaults.
Lemma keeps_ExternalMetricsServer : ∀ c, kept_ExternalMetricsServerFeatureConfig c (default_ExternalMetricsServer c).
Proof. kept_auto. Qed.
#[export] Hint Resolve keeps_ExternalMetricsServer : defaults.
Lemma keeps_ClusterChecks : ∀ c, kept_ClusterChecksFeatureConfig c (default_ClusterChecks c).
Proof. kept_auto. Qed.
#[export] Hint Resolve keeps_ClusterChecks : defaults.
Lemma keeps_PrometheusScrape : ∀ c, kept_PrometheusScrapeFeatureConfig c (default_PrometheusScrape c).
Proof. kept_auto. Qed.
#[export] Hint Resolve keeps_PrometheusScrape : defaults.
Lemma keeps_HelmCheck : ∀ c, kept_HelmCheckFeatureConfig c (default_HelmCheck c).
Proof. kept_auto. Qed.
#[export] Hint Resolve keeps_HelmCheck : defaults.
Lemma keeps_ControlPlaneMonitoring : ∀ c, kept_ControlPlaneMonitoringFeatureConfig c (default_ControlPlaneMonitoring c).
Proof. kept_auto. Qed.
#[export] Hint Resolve keeps_ControlPlaneMonitoring : defaults.
Lemma keeps_DataPlaneDogstatsd : ∀ c, kept_DataPlaneDogstatsdConfig c (default_DataPlaneDogstatsd c).
Proof. kept_auto. Qed.
#[export] Hint Resolve keeps_DataPlaneDogstatsd : defaults.
Lemma keeps_DataPlane : ∀ c, kept_DataPlaneFeatureConfig c (default_DataPlane c).
Proof. kept_auto. Qed.
#[export] Hint Resolve keeps_DataPlane : defaults.

(** *** Twice is once *)

Lemma twice_default {A} (d : A) p : DefaultIfUnset d (DefaultIfUnset d p) = DefaultIfUnset d p.
Proof. done. Qed.

Lemma twice_orNew {A} `{Zero A} (f : A → A) p : (∀ c, f (f c) = f c) → orNew f (orNew f p) = orNew f p.
Proof. unfold orNew. cbn. congruence. Qed.

Lemma twice_fmap {A} (f : A → A) (p : option A) : (∀ c, f (f c) = f c) → f <$> (f <$> p) = f <$> p.
Proof. destruct p; cbn; congruence. Qed.

Lemma twice_onlyIf {A} b (f : A → A) x : (∀ x, f (f x) = f x) → onlyIf b f (onlyIf b f x) = onlyIf b f x.
Proof. destruct b; cbn; auto. Qed.

Lemma twice_orEmpty d s : orEmpty d (orEmpty d s) = orEmpty d s.
Proof. unfold orEmpty. repeat case_bool_decide; congruence. Qed.

#[export] Hint Resolve twice_default twice_orNew twice_fmap twice_onlyIf twice_orEmpty : defaults.

(** The fields of a struct that was defaulted twice. *)
Ltac twice_auto := intros c; match goal with |- ?f _ = _ => unfold f end; cbn; f_equal; auto with defaults; do 2 f_equal; auto with defaults.

Lemma twice_FIPSImage : ∀ c, default_FIPSImage (default_FIPSImage c) = default_FIPSImage c.
Proof. twice_auto. Qed.
#[export] Hint Resolve twice_FIPSImage : defaults.
Lemma twice_FIPS : ∀ c, default_FIPS (default_FIPS c) = default_FIPS c.
Proof. twice_auto. Qed.
#[export] Hint Resolve twice_FIPS : defaults.
Lemma twice_Kubelet : ∀ c, default_Kubelet (default_Kubelet c) = default_Kubelet c.
Proof. twice_auto. Qed.
#[export] Hint Resolve twice_Kubelet : defaults.
Lemma twice_Global : ∀ c, default_Global (default_Global c) = default_Global c.
Proof. twice_auto. Qed.
#[export] Hint Resolve twice_Global : defaults.
Lemma twice_LogCollection : ∀ c, default_LogCollection (default_LogCollection c) = default_LogCollection c.
Proof. twice_auto. Qed.
#[export] Hint Resolve twice_LogCollection : defaults.
Lemma twice_LiveContainerCollection : ∀ c, default_LiveContainerCollection (default_LiveContainerCollection c) = default_LiveContainerCollection c.
Proof. twice_auto. Qed.
#[export] Hint Resolve twice_LiveContainerCollection : defaults.
Lemma twice_OtelCollector : ∀ c, default_OtelCollector (default_OtelCollector c) = default_OtelCollector c.
Proof. twice_auto. Qed.
#[export] Hint Resolve twice_OtelCollector : defaults.
Lemma twice_LiveProcessCollection : ∀ c, default_LiveProcessCollection (default_LiveProcessCollection c) = default_LiveProcessCollection c.
Proof. twice_auto. Qed.
#[export] Hint Resolve twice_LiveProcessCollection : defaults.
Lemma twice_ProcessDiscovery : ∀ c, default_ProcessDiscovery (default_ProcessDiscovery c) = default_ProcessDiscovery c.
Proof. twice_auto. Qed.
#[export] Hint Resolve twice_ProcessDiscovery : defaults.
Lemma twice_OOMKill : ∀ c, default_OOMKill (default_OOMKill c) = default_OOMKill c.
Proof. twice_auto. Qed.
#[export] Hint Resolve twice_OOMKill : defaults.
Lemma twice_TCPQueueLength : ∀ c, default_TCPQueueLength (default_TCPQueueLength c) = default_TCPQueueLength c.
Proof. twice_auto. Qed.
#[export] Hint Resolve twice_TCPQueueLength : defaults.
Lemma twice_EBPFCheck : ∀ c, default_EBPFCheck (default_EBPFCheck c) = default_EBPFCheck c.
Proof. twice_auto. Qed.
#[export] Hint Resolve twice_EBPFCheck : defaults.
Lemma twice_GPU : ∀ c, default_GPU (default_GPU c) = default_GPU c.
Proof. twice_auto. Qed.
#[export] Hint Resolve twice_GPU : defaults.
Lemma twice_LanguageDetection : ∀ c, default_LanguageDetection (default_LanguageDetection c) = default_LanguageDetection c.
Proof. twice_auto. Qed.
#[export] Hint Resolve twice_LanguageDetection : defaults.
Lemma twice_SingleStep : ∀ c, default_SingleStep (default_SingleStep c) = default_SingleStep c.
Proof. twice_auto. Qed.
#[export] Hint Resolve twice_SingleStep : defaults.
Lemma twice_ErrorTracking : ∀ c, default_ErrorTracking (default_ErrorTracking c) = default_ErrorTracking c.
Proof. twice_auto. Qed.
#[export] Hint Resolve twice_ErrorTracking : defaults.
Lemma twice_APMHostPort : ∀ c, default_APMHostPort (default_APMHostPort c) = default_APMHostPort c.
Proof. twice_auto. Qed.
#[export] Hint Resolve twice_APMHostPort : defaults.
Lemma twice_Socket path : ∀ c, default_Socket path (default_Socket path c) = default_Socket path c.
Proof. intros c. unfold default_Socket. cbn. f_equal; auto with defaults. Qed.
#[export] Hint Resolve twice_Socket : defaults.
Lemma twice_APM : ∀ c, default_APM (default_APM c) = default_APM c.
Proof. twice_auto. Qed.
#[export] Hint Resolve twice_APM : defaults.
Lemma twice_ASMThreats : ∀ c, default_ASMThreats (default_ASMThreats c) = default_ASMThreats c.
Proof. twice_auto. Qed.
#[export] Hint Resolve twice_ASMThreats : defaults.
Lemma twice_ASMSCA : ∀ c, default_ASMSCA (default_ASMSCA c) = default_ASMSCA c.
Proof. twice_auto. Qed.
#[export] Hint Resolve twice_ASMSCA : defaults.
Lemma twice_ASMIAST : ∀ c, default_ASMIAST (default_ASMIAST c) = default_ASMIAST c.
Proof. twice_auto. Qed.
#[export] Hint Resolve twice_ASMIAST : defaults.
Lemma twice_ASM : ∀ c, default_ASM (default_ASM c) = default_ASM c.
Proof. twice_auto. Qed.
#[export] Hint Resolve twice_ASM : defaults.
Lemma twice_HostBenchmarks : ∀ c, default_HostBenchmarks (default_HostBenchmarks c) = default_HostBenchmarks c.
Proof. twice_auto. Qed.
#[export] Hint Resolve twice_HostBenchmarks : defaults.
Lemma twice_CSPM : ∀ c, default_CSPM (default_CSPM c) = default_CSPM c.
Proof. twice_auto. Qed.
#[export] Hint Resolve twice_CSPM : defaults.
Lemma twice_CWSEnforcement : ∀ c, default_CWSEnforcement (default_CWSEnforcement c) = default_CWSEnforcement c.
Proof. twice_auto. Qed.
#[export] Hint Resolve twice_CWSEnforcement : defaults.
Lemma twice_CWSNetwork : ∀ c, default_CWSNetwork (default_CWSNetwork c) = default_CWSNetwork c.
Proof. twice_auto. Qed.
#[export] Hint Resolve twice_CWSNetwork : defaults.
Lemma twice_CWSSecurityProfiles : ∀ c, default_CWSSecurityProfiles (default_CWSSecurityProfiles c) = default_CWSSecurityProfiles c.
Proof. twice_auto. Qed.
#[export] Hint Resolve twice_CWSSecurityProfiles : defaults.
Lemma twice_CWS : ∀ c, default_CWS (default_CWS c) = default_CWS c.
Proof. twice_auto. Qed.
#[export] Hint Resolve twice_CWS : defaults.
Lemma twice_NPM : ∀ c, default_NPM (default_NPM c) = default_NPM c.
Proof. twice_auto. Qed.
#[export] Hint Resolve twice_NPM : defaults.
Lemma twice_USM : ∀ c, default_USM (default_USM c) = default_USM c.
Proof. twice_auto. Qed.
#[export] Hint Resolve twice_USM : defaults.
Lemma twice_DynamicInstrumentation : ∀ c, default_DynamicInstrumentation (default_DynamicInstrumentation c) = default_DynamicInstrumentation c.
Proof. twice_auto. Qed.
#[export] Hint Resolve twice_DynamicInstrumentation : defaults.
Lemma twice_OTLPHostPort : ∀ c, default_OTLPHostPort (default_OTLPHostPort c) = default_OTLPHostPort c.
Proof. twice_auto. Qed.
#[export] Hint Resolve twice_OTLPHostPort : defaults.
Lemma twice_GRPC : ∀ c, default_GRPC (default_GRPC c) = default_GRPC c.
Proof. twice_auto. Qed.
#[export] Hint Resolve twice_GRPC : defaults.
Lemma twice_HTTP : ∀ c, default_HTTP (default_HTTP c) = default_HTTP c.
Proof. twice_auto. Qed.
#[export] Hint Resolve twice_HTTP : defaults.
Lemma twice_OTLP : ∀ c, default_OTLP (default_OTLP c) = default_OTLP c.
Proof. twice_auto. Qed.
#[export] Hint Resolve twice_OTLP : defaults.
Lemma twice_RemoteConfiguration : ∀ c, default_RemoteConfiguration (default_RemoteConfiguration c) = default_RemoteConfiguration c.
Proof. twice_auto. Qed.
#[export] Hint Resolve twice_RemoteConfiguration : defaults.
Lemma twice_EventCollection : ∀ c, default_EventCollection (default_EventCollection c) = default_EventCollection c.
Proof. twice_auto. Qed.
#[export] Hint Resolve twice_EventCollection : defaults.
Lemma twice_OrchestratorExplorer : ∀ c, default_OrchestratorExplorer (default_OrchestratorExplorer c) = default_OrchestratorExplorer c.
Proof. twice_auto. Qed.
#[export] Hint Resolve twice_OrchestratorExplorer : defaults.
Lemma twice_KubeStateMetricsCore : ∀ c, default_KubeStateMetricsCore (default_KubeStateMetricsCore c) = default_KubeStateMetricsCore c.
Proof. twice_auto. Qed.
#[export] Hint Resolve twice_KubeStateMetricsCore : defaults.
Lemma twice_Validation : ∀ c, default_Validation (default_Validation c) = default_Validation c.
Proof. twice_auto. Qed.
#[export] Hint Resolve twice_Validation : defaults.
Lemma twice_Mutation : ∀ c, default_Mutation (default_Mutation c) = default_Mutation c.
Proof. twice_auto. Qed.
#[export] Hint Resolve twice_Mutation : defaults.
Lemma twice_Sidecar : ∀ c, default_Sidecar (default_Sidecar c) = default_Sidecar c.
Proof. twice_auto. Qed.
#[export] Hint Resolve twice_Sidecar : defaults.
Lemma twice_AdmissionEvents : ∀ c, default_AdmissionEvents (default_AdmissionEvents c) = default_AdmissionEvents c.
Proof. twice_auto. Qed.
#[export] Hint Resolve twice_AdmissionEvents : defaults.
Lemma twice_CWSInstrumentation : ∀ c, default_CWSInstrumentation (default_CWSInstrumentation c) = default_CWSInstrumentation c.
Proof. twice_auto. Qed.
#[export] Hint Resolve twice_CWSInstrumentation : defaults.
Lemma twice_AdmissionController : ∀ c, default_AdmissionController (default_AdmissionController c) = default_AdmissionController c.
Proof. twice_auto. Qed.
#[export] Hint Resolve twice_AdmissionController : defaults.
Lemma twice_ExternalMetricsServer : ∀ c, default_ExternalMetricsServer (default_ExternalMetricsServer c) = default_ExternalMetricsServer c.
Proof. twice_auto. Qed.
#[export] Hint Resolve twice_ExternalMetricsServer : defaults.
Lemma twice_ClusterChecks : ∀ c, default_ClusterChecks (default_ClusterChecks c) = default_ClusterChecks c.
Proof. twice_auto. Qed.
#[export] Hint Resolve twice_ClusterChecks : defaults.
Lemma twice_PrometheusScrape : ∀ c, default_PrometheusScrape (default_PrometheusScrape c) = default_PrometheusScrape c.
Proof. twice_auto. Qed.
#[export] Hint Resolve twice_PrometheusScrape : defaults.
Lemma twice_HelmCheck : ∀ c, default_HelmCheck (default_HelmCheck c) = default_HelmCheck c.
Proof. twice_auto. Qed.
#[export] Hint Resolve twice_HelmCheck : defaults.
Lemma twice_ControlPlaneMonitoring : ∀ c, default_ControlPlaneMonitoring (default_ControlPlaneMonitoring c) = default_ControlPlaneMonitoring c.
Proof. twice_auto. Qed.
#[export] Hint Resolve twice_ControlPlaneMonitoring : defaults.
Lemma twice_DataPlaneDogstatsd : ∀ c, default_DataPlaneDogstatsd (default_DataPlaneDogstatsd c) = default_DataPlaneDogstatsd c.
Proof. twice_auto. Qed.
#[export] Hint Resolve twice_DataPlaneDogstatsd : defaults.
Lemma twice_DataPlane : ∀ c, default_DataPlane (default_DataPlane c) = default_DataPlane c.
Proof. twice_auto. Qed.
#[export] Hint Resolve twice_DataPlane : defaults.

(** ** The features, and the whole spec *)

(** A host port of DogStatsD that is there and does not say whether it is
    enabled. *)
Definition unsaid_host_port (spec : DatadogAgentSpec) : Prop :=
  ∃ features dogstatsd hostPort,
    Spec_Features spec = Some features ∧ Features_Dogstatsd features = Some dogstatsd ∧
    Dogstatsd_HostPortConfig dogstatsd = Some hostPort ∧ HostPort_Enabled hostPort = None.

Lemma dogstatsd_hostPort p :
  match default_DogstatsdHostPort p with
  | Some q => kept kept_HostPortConfig p q ∧ default_DogstatsdHostPort q = Some q
  | None => ∃ c, p = Some c ∧ HostPort_Enabled c = None
  end.
Proof.
  destruct p as [[[enabled|] port]|]; cbn; [|by eexists|].
  - split; [|by destruct enabled]. constructor. split; cbn; auto with defaults.
  - split; [constructor|done].
Qed.

Lemma dogstatsd_spec c :
  match default_Dogstatsd c with
  | Some d => kept_DogstatsdFeatureConfig c d ∧ default_Dogstatsd d = Some d
  | None => ∃ hp, Dogstatsd_HostPortConfig c = Some hp ∧ HostPort_Enabled hp = None
  end.
Proof.
  unfold default_Dogstatsd. pose proof (dogstatsd_hostPort (Dogstatsd_HostPortConfig c)) as Hp.
  destruct (default_DogstatsdHostPort _) as [q|]; cbn; [|done]. destruct Hp as [Hk Hq]. split.
  - repeat split; cbn; auto with defaults.
  - rewrite Hq. cbn. do 2 f_equal; auto with defaults.
Qed.

Lemma features_spec c :
  match default_Features c with
  | Some f => kept_DatadogFeatures c f ∧ default_Features f = Some f
  | None => ∃ d hp, Features_Dogstatsd c = Some d ∧ Dogstatsd_HostPortConfig d = Some hp ∧ HostPort_Enabled hp = None
  end.
Proof.
  unfold default_Features. pose proof (dogstatsd_spec (default zero (Features_Dogstatsd c))) as Hd.
  destruct (default_Dogstatsd _) as [d|] eqn:Ed; cbn.
  - destruct Hd as [Hk Hd]. split.
    + repeat split; cbn; auto with defaults. destruct (Features_Dogstatsd c); by constructor.
    + rewrite Hd. cbn. f_equal. f_equal; auto with defaults.
  - destruct (Features_Dogstatsd c) as [x|]; cbn in *; [|by destruct Hd as (? & ? & ?)]. destruct Hd as (hp & ? & ?). eauto 10.
Qed.

Lemma spec_defaulted spec :
  match DefaultDatadogAgentSpec spec with
  | Some s => kept_DatadogAgentSpec spec s ∧ DefaultDatadogAgentSpec s = Some s
  | None => unsaid_host_port spec
  end.
Proof.
  unfold DefaultDatadogAgentSpec, defaultFeaturesConfig. cbn.
  pose proof (features_spec (default zero (Spec_Features spec))) as Hf.
  destruct (default_Features _) as [f|] eqn:Ef; cbn.
  - destruct Hf as [Hk Hf]. split.
    + repeat split; cbn; auto with defaults. destruct (Spec_Features spec); by constructor.
    + rewrite Hf. cbn. do 2 f_equal. auto with defaults.
  - destruct (Spec_Features spec) as [x|] eqn:Ex; cbn in *; [|by destruct Hf as (? & ? & ? & ?)].
    destruct Hf as (d & hp & ? & ? & ?). by exists x, d, hp.
Qed.

(** C28: defaults fill in, and do so once.  A defaulted spec has every setting of
    the spec it was made from: a pointer that was set is still set, to the same
    value or, for a struct, to one that kept its own settings; a text that was
    not empty is the same; and what defaults do not concern is unchanged.
    Defaulting it again changes nothing. *)
Theorem defaults_fill_in_once spec spec' :
  DefaultDatadogAgentSpec spec = Some spec' →
  kept_DatadogAgentSpec spec spec' ∧ DefaultDatadogAgentSpec spec' = Some spec'.
Proof. intros H. pose proof (spec_defaulted spec) as Hs. by rewrite H in Hs. Qed.

(** C29: defaulting panics on exactly the specs that have a host port of DogStatsD
    without saying whether it is enabled, and on no other. *)
Theorem defaults_panic_iff spec : DefaultDatadogAgentSpec spec = None ↔ unsaid_host_port spec.
Proof.
  split.
  - intros H. pose proof (spec_defaulted spec) as Hs. by rewrite H in Hs.
  - intros (f & d & hp & Hf & Hd & Hh & He). unfold DefaultDatadogAgentSpec, defaultFeaturesConfig, default_Features.
    cbn. rewrite Hf. cbn. rewrite Hd. unfold default_Dogstatsd, default_DogstatsdHostPort.
    cbn. rewrite Hh. cbn. by rewrite He.
Qed.

(** ** An empty spec and a government site *)

Definition gov_spec : DatadogAgentSpec :=
  mkDatadogAgentSpec None (Some (mkGlobalConfig None None None None (Some defaultGovSite) None None None [] [] ∅ None None
    ∅ ∅ ∅ ∅ ∅ ∅ ∅ None None None None None None None None None None None None)) ∅.

Lemma defaults_fill_in_once_witness :
  ∃ spec', DefaultDatadogAgentSpec gov_spec = Some spec' ∧
    from_option Global_Registry None (Spec_Global spec') = Some "public.ecr.aws/datadog" ∧
    from_option APM_Enabled None (from_option Features_APM None (Spec_Features spec')) = Some true ∧
    kept_DatadogAgentSpec gov_spec spec' ∧ DefaultDatadogAgentSpec spec' = Some spec'.
Proof.
  destruct (DefaultDatadogAgentSpec gov_spec) as [s|] eqn:E; [|vm_compute in E; discriminate E].
  exists s. split; [done|].
  assert (Hs : from_option Global_Registry None (Spec_Global s) = Some "public.ecr.aws/datadog" ∧
               from_option APM_Enabled None (from_option Features_APM None (Spec_Features s)) = Some true)
    by (vm_compute in E; injection E as <-; split; vm_compute; reflexivity).
  destruct Hs. split_and!; [done..|apply (defaults_fill_in_once gov_spec s E)|apply (defaults_fill_in_once gov_spec s E)].
Defined.
