(* ===== verification/Images.v ===== *)
(** * Images.

    Models [pkg/images/images.go]: an image is read from its text, parts of it
    are overridden, and it is printed again.  Reading a text without a tag
    indexes past the end of a slice; [None] is that panic. *)

From Stdlib Require Import Ascii.
From stdpp Require Import base strings list.
From S2P Require Import Prelude FleetData AgentSpec Defaults.

(** ** Suffixes *)

(** [strings.CutSuffix] *)
Fixpoint CutSuffix (s p : string) : option string :=
  if decide (s = p) then Some ""
  else match s with
       | EmptyString => None
       | String a s => String a <$> CutSuffix s p
       end.

Definition HasSuffix (s p : string) : bool := bool_decide (is_Some (CutSuffix s p)).
Definition TrimSuffix (s p : string) : string := default s (CutSuffix s p).

(** ** Names *)

Definition AgentLatestVersion : string := "7.81.1".
Definition ClusterAgentLatestVersion : string := "7.81.1".
Definition DdotCollectorLatestVersion : string := "7.81.1".
Definition DDOTFIPSMinimumVersion : string := "7.78.0-0".
Definition GCRContainerRegistry : string := "gcr.io/datadoghq".
Definition DefaultEuropeImageRegistry : string := "eu.gcr.io/datadoghq".
Definition DefaultAsiaImageRegistry : string := "asia.gcr.io/datadoghq".
Definition JMXTagSuffix : string := "-jmx".
Definition FIPSTagSuffix : string := "-fips".
Definition FullTagSuffix : string := "-full".
Definition WindowsServerCoreTagSuffix : string := "-servercore".
Definition DefaultAgentImageName : string := "agent".
Definition DefaultClusterAgentImageName : string := "cluster-agent".
Definition DefaultDdotCollectorImageName : string := "ddot-collector".

Definition IsGCRRegistry (registry : string) : bool :=
  bool_decide (registry = GCRContainerRegistry) || bool_decide (registry = DefaultEuropeImageRegistry) ||
  bool_decide (registry = DefaultAsiaImageRegistry).

(** [[\w]] and [[\w.-]] *)
Definition wordChar (a : ascii) : bool :=
  in_range 48 57 a || in_range 65 90 a || in_range 97 122 a || bool_decide (a = "_"%char).
Definition tagChar (a : ascii) : bool := wordChar a || bool_decide (a = "."%char) || bool_decide (a = "-"%char).

(** [.+:[\w][\w.-]{0,127}$]: what follows the last colon is a tag, and the
    character before that colon is not a line feed. *)
Definition imageNameContainsTag (name : string) : bool :=
  match rev (SplitChar ":" name) with
  | tag :: before :: others =>
      match String.list_ascii_of_string tag, rev (String.list_ascii_of_string before) with
      | first :: rest, last =>
          wordChar first && forallb tagChar rest && bool_decide (length rest ≤ 127) &&
          match last with
          | c :: _ => negb (bool_decide (c = "010"%char))
          | [] => negb (bool_decide (others = []))
          end
      | [], _ => false
      end
  | _ => false
  end.

(** ** Images *)

Record Image := newImage {
  img_registry : string;
  img_name : string;
  img_tag : string;
  img_isJMX : bool;
  img_isFIPS : bool;
  img_isFull : bool
}.

Definition WithRegistry (registry : string) (i : Image) : Image :=
  if bool_decide (registry = "") then i
  else newImage registry (img_name i) (img_tag i) (img_isJMX i) (img_isFIPS i) (img_isFull i).
Definition WithTag (tag : string) (i : Image) : Image :=
  if bool_decide (tag = "") then i
  else newImage (img_registry i) (img_name i) tag (img_isJMX i) (img_isFIPS i) (img_isFull i).
Definition WithName (name : string) (i : Image) : Image :=
  if bool_decide (name = "") then i
  else newImage (img_registry i) name (img_tag i) (img_isJMX i) (img_isFIPS i) (img_isFull i).
Definition WithJMX (b : bool) (i : Image) : Image :=
  newImage (img_registry i) (img_name i) (img_tag i) b (img_isFIPS i) (img_isFull i).
Definition WithFIPS (b : bool) (i : Image) : Image :=
  newImage (img_registry i) (img_name i) (img_tag i) (img_isJMX i) b (img_isFull i).
Definition WithFull (b : bool) (i : Image) : Image :=
  newImage (img_registry i) (img_name i) (img_tag i) (img_isJMX i) (img_isFIPS i) b.

(** [isAboveMin tag] is [utils.IsAboveMinVersion(tag, DDOTFIPSMinimumVersion, nil)],
    a comparison of semantic versions. *)
Definition FIPSVersionError (isAboveMin : string → bool) (i : Image) : option error :=
  if negb (img_isFIPS i) then None
  else if (bool_decide (img_name i = DefaultAgentImageName) && img_isFull i) ||
          bool_decide (img_name i = DefaultDdotCollectorImageName) then
    if negb (isAboveMin (img_tag i))
    then Some (Errorf (img_name i +:+ ":" +:+ img_tag i +:+
           " does not have a FIPS variant: agent -fips-full and ddot-collector -fips are only published from v7.78.0"))
    else None
  else None.

Definition suffix (i : Image) : string :=
  if img_isJMX i then
    if img_isFIPS i && img_isFull i then FIPSTagSuffix +:+ FullTagSuffix
    else if img_isFIPS i then FIPSTagSuffix +:+ JMXTagSuffix
    else if img_isFull i then FullTagSuffix
    else JMXTagSuffix
  else if img_isFIPS i && img_isFull i then FIPSTagSuffix +:+ FullTagSuffix
  else if img_isFIPS i then FIPSTagSuffix
  else if img_isFull i then FullTagSuffix
  else "".

Definition ToString (i : Image) : string :=
  img_registry i +:+ "/" +:+ img_name i +:+ ":" +:+ img_tag i +:+ suffix i.

Definition GetLatestAgentImage : string :=
  ToString (newImage DefaultImageRegistry DefaultAgentImageName AgentLatestVersion false false false).
Definition GetLatestWindowsAgentImage : string :=
  ToString (newImage DefaultImageRegistry DefaultAgentImageName (AgentLatestVersion +:+ WindowsServerCoreTagSuffix)
              false false false).
Definition GetLatestDdotCollectorImage : string :=
  ToString (newImage DefaultImageRegistry DefaultDdotCollectorImageName DdotCollectorLatestVersion false false false).
Definition GetLatestClusterAgentImage : string :=
  ToString (newImage DefaultImageRegistry DefaultClusterAgentImageName ClusterAgentLatestVersion false false false).

Definition AssembleImage (imageSpec : AgentImageConfig) (registry : string) : string :=
  if imageNameContainsTag (AgentImage_Name imageSpec) then AgentImage_Name imageSpec
  else
    let registry := if bool_decide (registry = "") then DefaultImageRegistry else registry in
    let tag := if AgentImage_JMXEnabled imageSpec then TrimSuffix (AgentImage_Tag imageSpec) JMXTagSuffix
               else AgentImage_Tag imageSpec in
    ToString (newImage registry (AgentImage_Name imageSpec) tag (AgentImage_JMXEnabled imageSpec) false false).

(** The tag without the suffix, and whether it was there. *)
Definition cutSuffix (tag p : string) : string * bool :=
  if HasSuffix tag p then (TrimSuffix tag p, true) else (tag, false).

(** The base tag and the flags JMX, FIPS and Full. *)
Definition parseTagSuffixes (tag : string) : string * bool * bool * bool :=
  let '(tag, isFull) := cutSuffix tag FullTagSuffix in
  let '(tag, isJMX) := cutSuffix tag JMXTagSuffix in
  let '(tag, isFIPS) := cutSuffix tag FIPSTagSuffix in
  (tag, isJMX, isFIPS, isFull).

Definition FromString (stringImage : string) : option Image :=
  let splitImg := SplitChar "/" stringImage in
  let registry := JoinChar "/" (removelast splitImg) in
  let splitName := SplitChar ":" (List.last splitImg "") in
  name ← splitName !! 0;
  rawTag ← splitName !! 1;
  let '(tag, isJMX, isFIPS, isFull) := parseTagSuffixes rawTag in
  Some (newImage registry name tag isJMX isFIPS isFull).

Definition fromImageConfig (imageConfig : AgentImageConfig) : option Image :=
  if ContainsChar ":" (AgentImage_Name imageConfig) then FromString (AgentImage_Name imageConfig)
  else
    let '(imageTag, isJMX, isFIPS, isFull) := parseTagSuffixes (AgentImage_Tag imageConfig) in
    Some (newImage "" (AgentImage_Name imageConfig) imageTag (isJMX || AgentImage_JMXEnabled imageConfig) isFIPS isFull).

Definition IsJMXImage (imageConfig : option AgentImageConfig) : option bool :=
  match imageConfig with
  | None => Some false
  | Some imageConfig => img ← fromImageConfig imageConfig; Some (img_isJMX img || img_isFull img)
  end.

(** The parts of [o] that are set, over [i]. *)
Definition overridden (o i : Image) : Image :=
  let i := WithJMX (img_isJMX o) (WithTag (img_tag o) (WithName (img_name o) (WithRegistry (img_registry o) i))) in
  if negb (bool_decide (img_tag o = "")) then WithFull (img_isFull o) (WithFIPS (img_isFIPS o) i) else i.

Definition OverrideAgentImage (currentImage : string) (overrideImageSpec : AgentImageConfig) : option string :=
  image ← FromString currentImage;
  overrideImage ← fromImageConfig overrideImageSpec;
  Some (ToString (overridden overrideImage image)).

(** [utils.GetTagFromImageName] *)
Definition GetTagFromImageName (imageName : string) : string :=
  let parts := SplitChar ":" imageName in
  if bool_decide (length parts ≤ 1) then "latest"
  else let tag := List.last parts "" in if ContainsChar "/" tag then "latest" else tag.
