(* ===== verification/ImagesTheorems.v ===== *)
(** * Images are read as they are printed.

    An image survives its text, but for the JMX flag that a full image implies;
    an override changes the parts it names and no other, and applying it twice is
    applying it once. *)

From Stdlib Require Import Ascii Lia.
From stdpp Require Import base strings list.
From S2P Require Import Prelude FleetData AgentSpec Defaults Images.

(** ** Suffixes *)

Lemma length_string_app (s t : string) : String.length (s +:+ t) = String.length s + String.length t.
Proof. induction s as [|a s IH]; [done|]. rewrite string_app_cons. cbn. by rewrite IH. Qed.

Lemma CutSuffix_Some s p t : CutSuffix s p = Some t ↔ s = t +:+ p.
Proof.
  revert t. induction s as [|a s IH]; intros t; cbn [CutSuffix]; case_decide as Hd.
  - subst. split; [by intros [= <-]|]. destruct t; [done|discriminate].
  - split; [done|]. destruct t; [|discriminate]. intros Hp. by rewrite string_app_nil_l in Hp.
  - split; [intros [= <-]; by rewrite string_app_nil_l|]. intros Ht. f_equal.
    assert (Hlen := f_equal String.length Ht). rewrite <- Hd in Hlen. destruct t as [|b t]; [done|].
    rewrite string_app_cons in Hlen. cbn in Hlen. rewrite length_string_app in Hlen. cbn in Hlen. lia.
  - rewrite fmap_Some. split.
    + intros (u & Hu%IH & ->). by rewrite Hu.
    + intros Ht. destruct t as [|b t]; [by rewrite string_app_nil_l in Ht|]. rewrite string_app_cons in Ht.
      injection Ht as <- Ht. exists t. by rewrite IH.
Qed.

Lemma cutSuffix_app t p : cutSuffix (t +:+ p) p = (t, true).
Proof.
  unfold cutSuffix, HasSuffix, TrimSuffix. assert (CutSuffix (t +:+ p) p = Some t) as -> by by apply CutSuffix_Some.
  done.
Qed.

Lemma cutSuffix_none t p : HasSuffix t p = false → cutSuffix t p = (t, false).
Proof. unfold cutSuffix. by intros ->. Qed.

(** The last character decides between suffixes. *)
Lemma HasSuffix_last t a p b :
  a ≠ b → HasSuffix (t +:+ String a "") (p +:+ String b "") = false.
Proof.
  intros Hab. apply bool_decide_eq_false. intros [u Hu%CutSuffix_Some].
  rewrite <- string_app_assoc in Hu. revert Hu. generalize (u +:+ p). clear u p. intros u.
  revert u. induction t as [|c t IH]; intros [|d u] Hu.
  - by injection Hu.
  - injection Hu as _ Hu. by destruct u.
  - injection Hu as _ Hu. by destruct t.
  - rewrite !string_app_cons in Hu. injection Hu as _ Hu. by eapply IH.
Qed.

(** A tag without any of the suffixes. *)
Definition plain_tag (tag : string) : Prop :=
  HasSuffix tag FullTagSuffix = false ∧ HasSuffix tag JMXTagSuffix = false ∧ HasSuffix tag FIPSTagSuffix = false.

(** The flags that are printed: a full image has JMX. *)
Definition normal (i : Image) : Image := WithJMX (img_isJMX i && negb (img_isFull i)) i.

Lemma parse_suffix i :
  plain_tag (img_tag i) →
  parseTagSuffixes (img_tag i +:+ suffix i) = (img_tag i, img_isJMX (normal i), img_isFIPS i, img_isFull i).
Proof.
  intros (Hfull & Hjmx & Hfips). destruct i as [r n t jmx fips full]. cbn in *. unfold parseTagSuffixes, suffix. cbn.
  assert (Hfj : HasSuffix (t +:+ "-fips") JMXTagSuffix = false)
    by (change "-fips" with ("-fip" +:+ "s"); rewrite <- string_app_assoc; by apply (HasSuffix_last _ "s" "-jm" "x")).
  assert (Hff : HasSuffix (t +:+ "-fips") FullTagSuffix = false)
    by (change "-fips" with ("-fip" +:+ "s"); rewrite <- string_app_assoc; by apply (HasSuffix_last _ "s" "-ful" "l")).
  assert (Hjf : ∀ u, HasSuffix (u +:+ "-jmx") FullTagSuffix = false)
    by (intros; change "-jmx" with ("-jm" +:+ "x"); rewrite <- string_app_assoc; by apply (HasSuffix_last _ "x" "-ful" "l")).
  unfold FIPSTagSuffix, JMXTagSuffix, FullTagSuffix in *.
  destruct jmx, fips, full; cbn [andb negb]; rewrite ?string_app_nil_r; rewrite <- ?string_app_assoc;
    rewrite ?cutSuffix_app, ?(cutSuffix_none _ "-full"), ?cutSuffix_app, ?(cutSuffix_none _ "-jmx"), ?cutSuffix_app,
      ?(cutSuffix_none _ "-fips") by auto; done.
Qed.

(** ** Texts *)

Lemma SplitChar_app c s t : SplitChar c (s +:+ String c t) = SplitChar c s ++ SplitChar c t.
Proof.
  induction s as [|a s IH]; [rewrite string_app_nil_l; cbn; by rewrite decide_True|].
  rewrite string_app_cons. cbn. rewrite IH. case_decide; [done|]. pose proof (SplitChar_not_nil c s).
  by destruct (SplitChar c s).
Qed.

Lemma ContainsChar_app c s t : ContainsChar c (s +:+ t) = ContainsChar c s || ContainsChar c t.
Proof. induction s as [|a s IH]; [done|]. rewrite string_app_cons. cbn. by rewrite IH, orb_assoc. Qed.

(** An image whose name and tag have no separator, and whose tag has no suffix. *)
Definition clean (i : Image) : Prop :=
  ContainsChar "/" (img_name i) = false ∧ ContainsChar ":" (img_name i) = false ∧
  ContainsChar "/" (img_tag i) = false ∧ ContainsChar ":" (img_tag i) = false ∧ plain_tag (img_tag i).

Lemma suffix_clean i c : c = "/"%char ∨ c = ":"%char → ContainsChar c (suffix i) = false.
Proof. destruct i as [? ? ? [] [] []]; intros [->| ->]; reflexivity. Qed.

Lemma normal_prints i : ToString (normal i) = ToString i.
Proof. by destruct i as [? ? ? [] [] []]. Qed.

Lemma FromString_ToString i : clean i → FromString (ToString i) = Some (normal i).
Proof.
  intros (Hn1 & Hn2 & Ht1 & Ht2 & Hp). unfold FromString, ToString.
  set (r := img_name i +:+ ":" +:+ img_tag i +:+ suffix i).
  assert (Hr : ContainsChar "/" r = false)
    by (unfold r; rewrite !ContainsChar_app, Hn1, Ht1, suffix_clean by auto; done).
  change ("/" +:+ r) with (String "/" r). rewrite SplitChar_app, (SplitChar_no_sep _ r) by done.
  rewrite List.removelast_last, List.last_last, JoinChar_SplitChar.
  assert (Hs : SplitChar ":" r = [img_name i; img_tag i +:+ suffix i]).
  { unfold r. change (":" +:+ ?x) with (String ":" x).
    rewrite SplitChar_app_sep by done. rewrite SplitChar_no_sep; [done|].
    rewrite ContainsChar_app, Ht2. apply suffix_clean. by right. }
  rewrite Hs. cbn. rewrite parse_suffix by done. by destruct i as [? ? ? [] [] []].
Qed.

(** C33: an image is read as it was printed.  For a name and a tag without
    separators, and a tag without the suffixes that stand for flags, the text of
    an image is read as that image, with the flag of JMX cleared if the image is a
    full one, which has JMX; and that image prints the same text. *)
Theorem image_roundtrip i :
  clean i →
  FromString (ToString i) = Some (WithJMX (img_isJMX i && negb (img_isFull i)) i) ∧
  ToString (WithJMX (img_isJMX i && negb (img_isFull i)) i) = ToString i.
Proof. intros Hi. split; [by apply FromString_ToString|apply normal_prints]. Qed.

Lemma image_roundtrip_witness :
  let i := newImage "gcr.io/datadoghq" "agent" "7.81.1" true true true in
  ToString i = "gcr.io/datadoghq/agent:7.81.1-fips-full" ∧
  FromString (ToString i) = Some (newImage "gcr.io/datadoghq" "agent" "7.81.1" false true true).
Proof.
  intros i. split; [vm_compute; reflexivity|].
  destruct (image_roundtrip i) as [Hi _]; [unfold clean, plain_tag; split_and!; vm_compute; reflexivity|exact Hi].
Defined.

(** ** Overrides *)

(** The parts of an override that are set can be read back. *)
Definition clean_override (o : Image) : Prop :=
  ContainsChar "/" (img_name o) = false ∧ ContainsChar ":" (img_name o) = false ∧
  ContainsChar "/" (img_tag o) = false ∧ ContainsChar ":" (img_tag o) = false ∧ plain_tag (img_tag o).

(** A part of an override, or what it leaves. *)
Definition orSet (o x : string) : string := if bool_decide (o = "") then x else o.

Lemma overridden_eq r n t jmx fips full r' n' t' jmx' fips' full' :
  overridden (newImage r n t jmx fips full) (newImage r' n' t' jmx' fips' full') =
  newImage (orSet r r') (orSet n n') (orSet t t') jmx
    (if bool_decide (t = "") then fips' else fips) (if bool_decide (t = "") then full' else full).
Proof.
  unfold overridden, WithRegistry, orSet. cbn [img_registry img_name img_tag img_isJMX img_isFIPS img_isFull].
  destruct (bool_decide (r = "")); unfold WithName; cbn [img_registry img_name img_tag img_isJMX img_isFIPS img_isFull];
    destruct (bool_decide (n = "")); unfold WithTag; destruct (bool_decide (t = "")); reflexivity.
Qed.

Lemma clean_overridden o i : clean_override o → clean i → clean (overridden o i).
Proof.
  destruct o as [r n t j f u], i as [r1 n1 t1 j1 f1 u1]. rewrite overridden_eq. intros (? & ? & ? & ? & ?) (? & ? & ? & ? & ?). unfold clean, orSet. cbn in *.
  repeat case_bool_decide; split_and!; done.
Qed.

Lemma overridden_normal o i : overridden o (normal (overridden o i)) = overridden o i.
Proof.
  destruct o as [r n t j f u], i as [r1 n1 t1 j1 f1 u1]. rewrite overridden_eq. unfold normal, WithJMX.
  cbn [img_registry img_name img_tag img_isJMX img_isFIPS img_isFull]. rewrite overridden_eq.
  unfold orSet. repeat case_bool_decide; done.
Qed.

(** An override of an image that can be read back: what it prints, and that
    applying it again changes nothing. *)
Lemma override_image_once i c o :
  clean i → fromImageConfig c = Some o → clean_override o →
  OverrideAgentImage (ToString i) c = Some (ToString (overridden o (normal i))) ∧
  OverrideAgentImage (ToString (overridden o (normal i))) c = Some (ToString (overridden o (normal i))).
Proof.
  intros Hi Hc Ho. unfold OverrideAgentImage. rewrite (FromString_ToString i Hi), Hc. cbn. split; [done|].
  assert (clean (normal i)) by (destruct i; apply Hi).
  rewrite FromString_ToString by by apply clean_overridden. cbn. by rewrite overridden_normal.
Qed.

(** An override without a name and a tag changes the flag of JMX only. *)
Lemma empty_override_keeps i c :
  clean i → AgentImage_Name c = "" → AgentImage_Tag c = "" →
  OverrideAgentImage (ToString i) c = Some (ToString (WithJMX (AgentImage_JMXEnabled c) i)).
Proof.
  intros Hi Hn Ht. unfold OverrideAgentImage, fromImageConfig. rewrite (FromString_ToString i Hi), Hn, Ht. cbn.
  by destruct i.
Qed.

(** A name with a colon before its last slash, such as that of a registry with a
    port, has no tag to read. *)
Lemma untagged_image_panics c :
  fromImageConfig c = None ↔
  ContainsChar ":" (AgentImage_Name c) = true ∧
  ContainsChar ":" (List.last (SplitChar "/" (AgentImage_Name c)) "") = false.
Proof.
  unfold fromImageConfig. destruct (ContainsChar ":" (AgentImage_Name c)) eqn:Hc.
  - unfold FromString. set (l := List.last _ _). destruct (ContainsChar ":" l) eqn:Hl.
    + split; [|by intros []]. assert (∃ a b m, SplitChar ":" l = a :: b :: m) as (a & b & m & ->).
      { clear -Hl. induction l as [|x l IH]; [done|]. cbn in *. case_decide as Hd; subst.
        - pose proof (SplitChar_not_nil ":" l). destruct (SplitChar ":" l) eqn:E; [done|]. eauto.
        - apply orb_true_iff in Hl as [Hl|Hl]; [by apply bool_decide_eq_true in Hl|].
          destruct (IH Hl) as (a & b & m & ->). eauto. }
      cbn. by destruct (parseTagSuffixes b) as [[[? ?] ?] ?].
    + rewrite (SplitChar_no_sep ":" l Hl). cbn. by split.
  - destruct (parseTagSuffixes _) as [[[? ?] ?] ?]. split; [done|]. intros [? _]. done.
Qed.

Example registry_port_panics :
  OverrideAgentImage GetLatestAgentImage (mkAgentImageConfig "localhost:5000/agent" "" false None None) = None.
Proof. vm_compute. reflexivity. Qed.
