(* ===== verification/Identity.v ===== *)
(** * The identity of a managed Agent installation.

    Models [pkg/fleet/managed_agent_installation_identity.go], [..._eks.go] and
    [..._environment.go]: where an installation runs and which one it is.  The
    target ID is the base32 text of the SHA-256 of the cluster's ARN; the
    encodings are those of [encoding/hex] and [encoding/base32]. *)

From Stdlib Require Import ZArith Lia Ascii.
From stdpp Require Import base strings list.
From S2P Require Import Prelude FleetData Fleet.

(** ** [strings.TrimSpace] *)

Definition bytes (l : list nat) : string := foldr (λ n s, String (ascii_of_nat n) s) "" l.

(** The characters of [unicode.IsSpace], in UTF-8. *)
Definition spaces : list string :=
  bytes <$> [[9]; [10]; [11]; [12]; [13]; [32]; [194; 133]; [194; 160]; [225; 154; 128]] ++
            ((λ n, [226; 128; n]) <$> seq 128 11) ++
            [[226; 128; 168]; [226; 128; 169]; [226; 128; 175]; [226; 129; 159]; [227; 128; 128]].

Definition suffixb (p s : string) : bool :=
  let n := String.length s - String.length p in
  bool_decide (String.length p ≤ String.length s) && bool_decide (String.substring n (String.length p) s = p).

Definition cutLeft (s : string) : option string :=
  (λ p, String.substring (String.length p) (String.length s - String.length p) s)
    <$> head (filter (λ p, String.prefix p s = true) spaces).

Definition cutRight (s : string) : option string :=
  (λ p, String.substring 0 (String.length s - String.length p) s) <$> head (filter (λ p, suffixb p s = true) spaces).

Fixpoint trimWith (cut : string → option string) (fuel : nat) (s : string) : string :=
  match fuel, cut s with
  | S fuel, Some s => trimWith cut fuel s
  | _, _ => s
  end.

(** Every cut shortens the text, so that its length is fuel enough. *)
Definition TrimSpace (s : string) : string :=
  let s := trimWith cutLeft (String.length s) s in
  trimWith cutRight (String.length s) s.

(** ** [encoding/hex] *)

Definition hexDigit (a : ascii) : option nat :=
  let n := nat_of_ascii a in
  if in_range 48 57 a then Some (n - 48)
  else if in_range 97 102 a then Some (n - 87)
  else if in_range 65 70 a then Some (n - 55)
  else None.

Fixpoint hex_DecodeString (s : string) : option (list nat) :=
  match s with
  | EmptyString => Some []
  | String _ EmptyString => None
  | String a (String b s) =>
      high ← hexDigit a; low ← hexDigit b; rest ← hex_DecodeString s; Some (16 * high + low :: rest)
  end.

(** ** [base32.StdEncoding] without padding *)

(** The [n] low bits of [b], the highest first. *)
Fixpoint bits_of (n b : nat) : list bool :=
  match n with
  | 0 => []
  | S n => Nat.odd (b / 2 ^ n) :: bits_of n b
  end.

Fixpoint of_bits (l : list bool) : nat :=
  match l with
  | [] => 0
  | b :: l => Nat.b2n b * 2 ^ length l + of_bits l
  end.

(** The bits in groups of five, the last one filled up with zeros. *)
Fixpoint quintets (l : list bool) : list (list bool) :=
  match l with
  | a :: b :: c :: d :: e :: l => [a; b; c; d; e] :: quintets l
  | [] => []
  | l => [take 5 (l ++ replicate 4 false)]
  end.

Definition alphabet : string := "ABCDEFGHIJKLMNOPQRSTUVWXYZ234567".

Definition base32_char (l : list bool) : ascii := default "A"%char (String.get (of_bits l) alphabet).

Definition base32_EncodeToString (l : list nat) : string :=
  String.string_of_list_ascii (base32_char <$> quintets (l ≫= bits_of 8)).

(** [strings.ToLower] of ASCII text. *)
Definition lower (a : ascii) : ascii :=
  if in_range 65 90 a then ascii_of_nat (nat_of_ascii a + 32) else a.

Definition ToLower (s : string) : string := String.string_of_list_ascii (lower <$> String.list_ascii_of_string s).

(** ** UUIDs ([google/uuid]) *)

Class UUIDs := {
  UUID : Type;
  uuid_eq_dec :: EqDecision UUID;
  uuid_Parse : string → option UUID;
  uuid_Nil : UUID;
  uuid_String : UUID → string
}.

(** A canonical UUID that is not zero. *)
Definition canonicalUUID `{UUIDs} (value : string) : bool :=
  match uuid_Parse value with
  | Some parsed => negb (bool_decide (parsed = uuid_Nil)) && bool_decide (uuid_String parsed = value)
  | None => false
  end.

(** ** The EKS identity *)

Definition ManagedAgentInstallationProviderEKS : string := "eks".
Definition eksManagedAgentInstallationIDEnv : string := "DD_EKS_INSTALLATION_ID".
Definition eksManagedAgentInstallationARNHashEnv : string := "DD_EKS_ARN_SHA256".
Definition eksManagedAgentInstallationCapabilityTag : string := "managed_agent_installation:eks-addon-config-v1".

Definition lowerHex (a : ascii) : bool := in_range 48 57 a || in_range 97 102 a.

(** [^[0-9a-f]{64}$] *)
Definition eksManagedAgentInstallationTargetHashPattern (s : string) : bool :=
  bool_decide (String.length s = 64) && forallb lowerHex (String.list_ascii_of_string s).

Record eksManagedAgentInstallationIdentity := mkEKS { eks_installationID : string; eks_targetHash : string }.

Definition eks_TargetID (i : eksManagedAgentInstallationIdentity) : string :=
  match hex_DecodeString (eks_targetHash i) with
  | Some digest => if bool_decide (length digest = 32) then ToLower (base32_EncodeToString digest) else ""
  | None => ""
  end.

Section EKS.
Context `{UUIDs}.

Definition eks_Validate (i : eksManagedAgentInstallationIdentity) : option error :=
  if negb (bool_decide (TrimSpace (eks_installationID i) = eks_installationID i))
  then Some (Errorf "EKS installation ID contains surrounding whitespace")
  else if negb (canonicalUUID (eks_installationID i))
  then Some (Errorf "EKS installation ID must be a canonical non-zero UUID")
  else if negb (eksManagedAgentInstallationTargetHashPattern (eks_targetHash i))
  then Some (Errorf "managed Agent installation target hash must be a lowercase SHA-256 digest")
  else None.

Definition eks_UpdaterTags (i : eksManagedAgentInstallationIdentity) : list string :=
  ["eks_installation_id:" +:+ eks_installationID i; "eks_arn_sha256:" +:+ eks_targetHash i;
   eksManagedAgentInstallationCapabilityTag].

Definition NewEKSManagedAgentInstallationIdentity (installationID targetHash : string)
    : option ManagedAgentInstallationIdentity :=
  let i := mkEKS installationID targetHash in
  Some (mkIdentity ManagedAgentInstallationProviderEKS (eks_installationID i) (eks_TargetID i) (eks_Validate i)
          (eks_UpdaterTags i)).

(** [LookupEnv] is a parameter of the loaders: the environment. *)
Definition loadEKSManagedAgentInstallationIdentity (LookupEnv : string → option string)
    : option ManagedAgentInstallationIdentity + error :=
  match LookupEnv eksManagedAgentInstallationIDEnv, LookupEnv eksManagedAgentInstallationARNHashEnv with
  | None, None => inl None
  | Some installationID, Some eksARNHash => inl (NewEKSManagedAgentInstallationIdentity installationID eksARNHash)
  | _, _ => inr (Errorf "EKS managed Agent installation identity requires both installation ID and ARN hash")
  end.
End EKS.

(** ** Any identity *)

Definition Configured (i : option ManagedAgentInstallationIdentity) : bool := bool_decide (is_Some i).
Definition Provider (i : option ManagedAgentInstallationIdentity) : string := from_option mi_Provider "" i.
Definition InstallationID (i : option ManagedAgentInstallationIdentity) : string := from_option mi_InstallationID "" i.
Definition TargetID (i : option ManagedAgentInstallationIdentity) : string := from_option mi_TargetID "" i.
Definition Validate (i : option ManagedAgentInstallationIdentity) : option error := i ≫= mi_Validate.

Definition UpdaterTags (i : option ManagedAgentInstallationIdentity) : list string + error :=
  match i with
  | None => inl []
  | Some identity =>
      match Validate i with
      | Some err => inr (Wrapf ("validate " +:+ Provider i +:+ " managed Agent installation identity") err)
      | None => inl (mi_UpdaterTags identity)
      end
  end.

(** The first error ends the loop; two configured providers are one. *)
Fixpoint identityFromLoaders (configured : option ManagedAgentInstallationIdentity)
    (loaders : list (option ManagedAgentInstallationIdentity + error)) : option ManagedAgentInstallationIdentity + error :=
  match loaders with
  | [] => inl configured
  | inr err :: _ => inr err
  | inl None :: loaders => identityFromLoaders configured loaders
  | inl (Some identity) :: loaders =>
      if Configured configured then inr (Errorf "multiple managed Agent installation providers are configured")
      else match mi_Validate identity with
           | Some err => inr err
           | None => identityFromLoaders (Some identity) loaders
           end
  end.

Definition managedAgentInstallationIdentityFromLoaders
    : list (option ManagedAgentInstallationIdentity + error) → option ManagedAgentInstallationIdentity + error :=
  identityFromLoaders None.

Definition ManagedAgentInstallationIdentityFromEnvironment `{UUIDs} (LookupEnv : string → option string)
    : option ManagedAgentInstallationIdentity + error :=
  managedAgentInstallationIdentityFromLoaders [loadEKSManagedAgentInstallationIdentity LookupEnv].
