(* ===== verification/Override.v ===== *)
(** * Overrides of pod templates.

    Models [internal/controller/datadogagent/override/{podtemplatespec,container,
    utils,daemonset,deploymentspec}.go] and the volumes of
    [object/volume/volumes.go] they use.  Of a container the managers know, the
    other fields are the JSON object [c_Rest]; [range] is the order in which Go
    visits a map.  An override is found under one name, which a container and an
    init container do not share in a pod that the API server accepts, so that the
    struct a pointer of the override leads to is seen by one of them only. *)

From Stdlib Require Import ZArith Ascii.
From stdpp Require Import base gmap strings list pretty.
From S2P Require Import Prelude GoRun Cluster Profiles FleetData PodMerger Affinity AgentSpec Defaults Images Identity.

(** ** JSON objects *)

Definition jfields (j : json) : gmap string json := match j with JObj m => m | _ => ∅ end.
Definition jget (k : string) (j : json) : option json := jfields j !! k.
Definition jset (k : string) (v : json) (j : json) : json := JObj (<[k := v]> (jfields j)).
Definition jstring (j : option json) : string := match j with Some (JStr s) => s | _ => "" end.

(** ** Pod templates *)

Record PodTemplate := mkPodTemplate {
  pt_Managed : PodTemplateSpec json;          (* annotations, containers and volumes *)
  pt_Labels : option (gmap string string);    (* None: a nil map *)
  pt_ServiceAccountName : string;
  pt_ImagePullSecrets : list json;
  pt_SecurityContext : option json;
  pt_PriorityClassName : string;
  pt_RuntimeClassName : option string;
  pt_Affinity : option Affinity;
  pt_NodeSelector : gmap string string;
  pt_Tolerations : list json;
  pt_HostNetwork : bool;
  pt_HostPID : bool;
  pt_DNSPolicy : string;
  pt_DNSConfig : option json;
  pt_TopologySpreadConstraints : list json;
  pt_Arrays : Arrays                          (* what the slices of affinities point to *)
}.

Definition set_pt_Managed (v : PodTemplateSpec json) (p : PodTemplate) : PodTemplate :=
  mkPodTemplate v (pt_Labels p) (pt_ServiceAccountName p) (pt_ImagePullSecrets p) (pt_SecurityContext p)
    (pt_PriorityClassName p) (pt_RuntimeClassName p) (pt_Affinity p) (pt_NodeSelector p) (pt_Tolerations p)
    (pt_HostNetwork p) (pt_HostPID p) (pt_DNSPolicy p) (pt_DNSConfig p) (pt_TopologySpreadConstraints p) (pt_Arrays p).
Definition set_pt_Affinity (v : option Affinity) (h : Arrays) (p : PodTemplate) : PodTemplate :=
  mkPodTemplate (pt_Managed p) (pt_Labels p) (pt_ServiceAccountName p) (pt_ImagePullSecrets p) (pt_SecurityContext p)
    (pt_PriorityClassName p) (pt_RuntimeClassName p) v (pt_NodeSelector p) (pt_Tolerations p)
    (pt_HostNetwork p) (pt_HostPID p) (pt_DNSPolicy p) (pt_DNSConfig p) (pt_TopologySpreadConstraints p) h.
Definition set_pt_Labels (v : option (gmap string string)) (p : PodTemplate) : PodTemplate :=
  mkPodTemplate (pt_Managed p) v (pt_ServiceAccountName p) (pt_ImagePullSecrets p) (pt_SecurityContext p)
    (pt_PriorityClassName p) (pt_RuntimeClassName p) (pt_Affinity p) (pt_NodeSelector p) (pt_Tolerations p)
    (pt_HostNetwork p) (pt_HostPID p) (pt_DNSPolicy p) (pt_DNSConfig p) (pt_TopologySpreadConstraints p) (pt_Arrays p).

Abbreviation M := (GoM PodTemplate).

(** A call of one of the managers. *)
Definition managed (m : GoM (PodTemplateSpec json) unit) : M unit := zoom pt_Managed set_pt_Managed m.

(** ** Volumes *)

Definition noFields : json := JObj ∅.

Definition configMapVolume (volumeName configMapName : string) (items : list KeyToPath) : Volume json :=
  mkVolume volumeName (Some (mkConfigMapVolumeSource configMapName items noFields)) noFields.

Definition GetBasicVolume (configMapName volumeName : string) : Volume json := configMapVolume volumeName configMapName [].

Definition GetVolumeFromConfigMap (configMap : ConfigMapConfig) (defaultConfigMapName volumeName : string) : Volume json :=
  configMapVolume volumeName
    (if bool_decide (ConfigMap_Name configMap = "") then defaultConfigMapName else ConfigMap_Name configMap)
    (ConfigMap_Items configMap).

Definition zeroVolume : Volume json := mkVolume "" None noFields.

Definition GetVolumeFromCustomConfig (customConfig : CustomConfig) (defaultConfigMapName volumeName : string) : Volume json :=
  match Custom_ConfigMap customConfig, Custom_ConfigData customConfig with
  | Some configMap, _ => GetVolumeFromConfigMap configMap defaultConfigMapName volumeName
  | None, Some _ => GetBasicVolume defaultConfigMapName volumeName
  | None, None => zeroVolume
  end.

Section Sorted.
(** The order in which Go visits a map. *)
Context (range : ∀ A : Type, gmap string A → list (string * A)).

(** The [sortKeys] of the package [volume]. *)
Definition volume_sortKeys (keysMap : gmap string string) : list string := sort_by String.le (range _ keysMap).*1.

(** [isYAML]: the text is decoded as a map by the YAML library. *)
Definition GetVolumeFromMultiCustomConfig (isYAML : string → bool) (multiCustomConfig : MultiCustomConfig)
    (volumeName configMapName : string) : Volume json :=
  match MultiCustom_ConfigMap multiCustomConfig, MultiCustom_ConfigDataMap multiCustomConfig with
  | Some configMap, _ => configMapVolume volumeName (ConfigMap_Name configMap) (ConfigMap_Items configMap)
  | None, Some configDataMap =>
      let sortedKeys := volume_sortKeys configDataMap in
      configMapVolume volumeName configMapName
        ((λ filename, mkKeyToPath filename filename None)
           <$> filter (λ filename, isYAML (get_key configDataMap filename) = true) sortedKeys)
  | None, None => zeroVolume
  end.

Definition sortKeys (keysMap : gmap string CustomConfig) : list string := sort_by String.le (range _ keysMap).*1.
End Sorted.

Definition GetVolumeMountWithSubPath (volumeName volumePath subPath : string) : VolumeMount json :=
  mkVolumeMount volumeName volumePath (JObj (<["subPath" := JStr subPath]> {[ "readOnly" := JBool true ]})).

(** ** Containers *)

Definition UnprivilegedSingleAgentContainerName : string := "unprivileged-single-agent".
Definition OtelAgent : string := "otel-agent".
Definition HostProfiler : string := "host-profiler".
Definition SystemProbeContainerName : string := "system-probe".
Definition HostProfilerSeccompSetupContainerName : string := "host-profiler-seccomp-setup".

(** The keys of [getAgentContainersMap]. *)
Definition getAgentContainersMap : list string :=
  ["unprivileged-single-agent"; "agent"; "trace-agent"; "process-agent"; "security-agent"; "system-probe";
   "private-action-runner"; "otel-agent"; "host-profiler"; "agent-data-plane"; "flightrecorder"; "cluster-agent"].

Definition set_c_Name (name : string) (c : Container json) : Container json :=
  mkContainer name (c_Env c) (c_EnvFrom c) (c_VolumeMounts c) (c_Ports c) (c_SecurityContext c) (c_Rest c).
Definition set_c_Rest (rest : json) (c : Container json) : Container json :=
  mkContainer (c_Name c) (c_Env c) (c_EnvFrom c) (c_VolumeMounts c) (c_Ports c) (c_SecurityContext c) rest.

Definition Image (c : Container json) : string := jstring (jget "image" (c_Rest c)).
Definition set_field (k : string) (v : json) (c : Container json) : Container json := set_c_Rest (jset k v (c_Rest c)) c.

(** [c.Image = images.OverrideAgentImage(c.Image, image)], which may panic. *)
Definition overrideImage (image : AgentImageConfig) : GoM (Container json) unit := λ c,
  match OverrideAgentImage (Image c) image with
  | Some s => (set_field "image" (JStr s) c, Ret tt)
  | None => (c, Panic)
  end.

Definition overridePullPolicy (image : AgentImageConfig) : GoM (Container json) unit :=
  match AgentImage_PullPolicy image with
  | Some policy => modify (set_field "imagePullPolicy" (JStr policy))
  | None => mret tt
  end.

(** The OTel container has its own image, which has no JMX. *)
Definition overrideAgentContainerImage (image : AgentImageConfig) : GoM (Container json) unit :=
  name ← gets c_Name;
  _ ← (if bool_decide (name = OtelAgent)
       then overrideImage (mkAgentImageConfig (AgentImage_Name image) (AgentImage_Tag image) false
                             (AgentImage_PullPolicy image) None)
       else when (negb (bool_decide (name = HostProfiler))) (overrideImage image));
  overridePullPolicy image.

Definition overrideInitContainerImage (image : AgentImageConfig) : GoM (Container json) unit :=
  name ← gets c_Name;
  _ ← when (negb (bool_decide (name = HostProfilerSeccompSetupContainerName))) (overrideImage image);
  overridePullPolicy image.

(** The resource list [key] of the override, over that of the container. *)
Definition mergeResourceList (key : string) (override container : json) : json :=
  let new := jfields (default JNull (jget key override)) in
  if bool_decide (size new = 0) then container
  else jset key (JObj (new ∪ jfields (default JNull (jget key container)))) container.

Definition hasProbeHandler (probe : json) : bool :=
  existsb (λ k, bool_decide (is_Some (jget k probe))) ["exec"; "httpGet"; "tcpSocket"; "grpc"].

Definition DefaultAgentHealthPort : string := "5555".

Definition overrideProbe (path : string) (probe : json) : json :=
  if hasProbeHandler probe then probe
  else jset "httpGet" (JObj (<["path" := JStr path]> {[ "port" := JNumber DefaultAgentHealthPort ]})) probe.

Definition overrideReadinessProbe : json → json := overrideProbe "/ready".
Definition overrideLivenessProbe : json → json := overrideProbe "/live".
Definition overrideStartupProbe : json → json := overrideProbe "/startup".

Definition overrideSecurityContext (sc : SecurityContext json) : SecurityContext json :=
  if bool_decide (is_Some (jget "readOnlyRootFilesystem" (sc_Rest sc))) then sc
  else mkSecurityContext (sc_Add sc) (jset "readOnlyRootFilesystem" (JBool true) (sc_Rest sc)).

(** [if p != nil { c = f(p, c) }] *)
Definition ifSet {A S : Type} (p : option A) (f : A → S → S) (s : S) : S := from_option f id p s.

Definition strings (l : list string) : json := JArr (JStr <$> l).

Definition overrideResources (override : json) (c : Container json) : Container json :=
  let current := default noFields (jget "resources" (c_Rest c)) in
  set_field "resources" (mergeResourceList "limits" override (mergeResourceList "requests" override current)) c.

Definition overrideContainer (override : DatadogAgentGenericContainer) (c : Container json) : Container json :=
  let c := ifSet (GenericContainer_Name override) set_c_Name c in
  let c := ifSet (GenericContainer_Resources override) overrideResources c in
  let c := ifSet (GenericContainer_Command override) (λ l, set_field "command" (strings l)) c in
  let c := ifSet (GenericContainer_Args override) (λ l, set_field "args" (strings l)) c in
  let c := ifSet (GenericContainer_ReadinessProbe override) (λ p, set_field "readinessProbe" (overrideReadinessProbe p)) c in
  let c := ifSet (GenericContainer_LivenessProbe override) (λ p, set_field "livenessProbe" (overrideLivenessProbe p)) c in
  let c := ifSet (GenericContainer_StartupProbe override) (λ p, set_field "startupProbe" (overrideStartupProbe p)) c in
  ifSet (GenericContainer_SecurityContext override) (λ sc, set_SecurityContext (Some (overrideSecurityContext sc))) c.

Definition overrideInitContainer (override : DatadogAgentGenericContainer) (c : Container json) : Container json :=
  let c := ifSet (GenericContainer_Name override) set_c_Name c in
  let c := ifSet (GenericContainer_Resources override) (set_field "resources") c in
  let c := ifSet (GenericContainer_Args override) (λ l, set_field "args" (strings l)) c in
  ifSet (GenericContainer_SecurityContext override) (λ sc, set_SecurityContext (Some sc)) c.

(** Every container of a name. *)
Definition onNamed (containerName : string) (f : Container json → Container json) (l : list (Container json))
    : list (Container json) := (λ c, if bool_decide (c_Name c = containerName) then f c else c) <$> l.

Definition podSpecHasContainer (p : PodTemplateSpec json) (name : string) : bool :=
  existsb (λ c, bool_decide (c_Name c = name)) (pod_Containers p ++ pod_InitContainers p).

Definition AppArmorAnnotationKey : string := "container.apparmor.security.beta.kubernetes.io".

Definition UseCustomSeccompConfigMap (seccompConfig : option SeccompConfig) : option ConfigMapConfig :=
  seccompConfig ← seccompConfig;
  customProfile ← Seccomp_CustomProfile seccompConfig;
  Custom_ConfigMap customProfile.

Definition overrideSeccompProfile (containerName : string) (override : DatadogAgentGenericContainer) : M unit :=
  if negb (bool_decide (containerName = SystemProbeContainerName)) then mret tt
  else
    _ ← match from_option Seccomp_CustomRootPath None (GenericContainer_SeccompConfig override) with
        | Some path =>
            managed (AddVolume (mkVolume "seccomp-root" None (JObj {[ "hostPath" := JObj {[ "path" := JStr path ]} ]})))
        | None => mret tt
        end;
    match UseCustomSeccompConfigMap (GenericContainer_SeccompConfig override) with
    | Some configMap =>
        managed (AddVolume (configMapVolume "datadog-agent-security" (ConfigMap_Name configMap) (ConfigMap_Items configMap)))
    | None => mret tt
    end.

Definition overrideAppArmorProfile (containerName : string) (override : DatadogAgentGenericContainer) : M unit :=
  match GenericContainer_AppArmorProfileName override with
  | None => mret tt
  | Some profile =>
      let effectiveName := default containerName (GenericContainer_Name override) in
      pod ← gets pt_Managed;
      if negb (podSpecHasContainer pod effectiveName) then mret tt
      else managed (AddAnnotation (AppArmorAnnotationKey +:+ "/" +:+ effectiveName) profile)
  end.

Definition plainEnv (name value : string) : EnvVar json := mkEnvVar name value JNull.

Definition addEnv (containerName : string) (e : EnvVar json) : GoM (PodTemplateSpec json) unit :=
  ignoreError (AddEnvVarToContainerWithMergeFunc containerName e (Some OverrideCurrent)).

Definition override_Container (containerName : string) (override : option DatadogAgentGenericContainer) : M unit :=
  match override with
  | None => mret tt
  | Some override =>
      _ ← managed (when (negb (bool_decide (StringValue (GenericContainer_LogLevel override) = "")))
            (addEnv containerName (plainEnv "DD_LOG_LEVEL" (StringValue (GenericContainer_LogLevel override)))));
      _ ← managed (match GenericContainer_HealthPort override with
                   | Some port => addEnv containerName (plainEnv "DD_HEALTH_PORT" (pretty port))
                   | None => mret tt
                   end);
      _ ← managed (for_each (λ p, ignoreError (AddPortToContainerWithMergeFunc containerName p (Some OverrideCurrent)))
                     (GenericContainer_Ports override));
      _ ← managed (for_each (addEnv containerName) (GenericContainer_Env override));
      _ ← managed (for_each (λ m, AddVolumeMountToContainer m containerName) (GenericContainer_VolumeMounts override));
      _ ← managed (for_each (λ e, ignoreError (AddEnvVarToInitContainerWithMergeFunc containerName e (Some OverrideCurrent)))
                     (GenericContainer_Env override));
      _ ← managed (for_each (λ m, AddVolumeMountToInitContainer m containerName) (GenericContainer_VolumeMounts override));
      _ ← managed (modify (λ p, set_Containers (onNamed containerName (overrideContainer override) (pod_Containers p)) p));
      _ ← managed (modify (λ p,
            set_InitContainers (onNamed containerName (overrideInitContainer override) (pod_InitContainers p)) p));
      _ ← overrideSeccompProfile containerName override;
      overrideAppArmorProfile containerName override
  end.

(** ** Components *)

Definition NodeAgentComponentName : string := "nodeAgent".
Definition ClusterAgentComponentName : string := "clusterAgent".
Definition ClusterChecksRunnerComponentName : string := "clusterChecksRunner".
Definition OtelAgentGatewayComponentName : string := "otelAgentGateway".

Definition getDefaultConfigMapName (ddaName fileName : string) : string :=
  ddaName +:+ "-" +:+ default "" (head (SplitChar "."%char fileName)) +:+ "-yaml".

Definition customConfigVolume (volumeName configMapName fileName : string) (customConfig : CustomConfig) : M unit :=
  _ ← managed (AddVolume (GetVolumeFromCustomConfig customConfig configMapName volumeName));
  managed (AddVolumeMount (GetVolumeMountWithSubPath volumeName ("/etc/datadog-agent/" +:+ fileName) fileName)).

Section Pod.
(** The order of a map, and the text of [spec.override.*.celWorkloadExclude]. *)
Context (range : ∀ A : Type, gmap string A → list (string * A)).
Context (marshalCEL : list CelWorkloadExcludeConfig → string + error) (isYAML : string → bool).
(** The capacity [append] allocates. *)
Context (slack : nat → nat).

Definition overrideCustomConfigVolumes (customConfs : gmap string CustomConfig) (componentName ddaName : string) : M unit :=
  for_each (λ fileName,
    match customConfs !! fileName with
    | None => mret tt
    | Some customConfig =>
        let defaultConfigMapName := getDefaultConfigMapName ddaName fileName +:+ "-" +:+ ToLower componentName in
        if bool_decide (componentName = NodeAgentComponentName) || bool_decide (componentName = ClusterChecksRunnerComponentName)
        then customConfigVolume defaultConfigMapName defaultConfigMapName fileName customConfig
        else if bool_decide (componentName = ClusterAgentComponentName)
        then customConfigVolume "custom-cluster-agent-yaml" defaultConfigMapName fileName customConfig
        else mret tt
    end) (sortKeys range customConfs).

Definition overrideImages (image : AgentImageConfig) : M unit :=
  _ ← managed (zoom pod_Containers set_Containers
         (onContainers (λ name, bool_decide (name ∈ getAgentContainersMap)) (overrideAgentContainerImage image)));
  managed (zoom pod_InitContainers set_InitContainers (onContainers (λ _, true) (overrideInitContainerImage image))).

(** A volume for the files of [config], if it has any. *)
Definition overrideExtra (config : option MultiCustomConfig) (volumeName configMapName : string) : M unit :=
  match config with
  | Some config =>
      when (bool_decide (is_Some (MultiCustom_ConfigMap config)) ||
            negb (bool_decide (size (default ∅ (MultiCustom_ConfigDataMap config)) = 0)))
        (managed (AddVolume (GetVolumeFromMultiCustomConfig range isYAML config volumeName configMapName)))
  | None => mret tt
  end.

Definition overrideAnnotation (nv : string * string) : M unit :=
  let '(annotationName, annotationVal) := nv in
  pod ← gets pt_Managed;
  let prefix := AppArmorAnnotationKey +:+ "/" in
  if HasPrefix annotationName prefix &&
     negb (podSpecHasContainer pod (String.substring (String.length prefix)
             (String.length annotationName - String.length prefix) annotationName))
  then mret tt
  else managed (AddAnnotation annotationName annotationVal).

Definition overrideAffinity (affinity : option Affinity) : M unit :=
  match affinity with
  | None => mret tt
  | Some a => λ p,
      match MergeAffinities slack (pt_Affinity p) (Some a) (pt_Arrays p) with
      | (h, Ret merged) => (set_pt_Affinity merged h p, Ret tt)
      | (_, Fail e) => (p, Fail e)
      | (_, Panic) => (p, Panic)
      end
  end.

(** [maps.Copy(labels, override.Labels)]: a write to a nil map panics. *)
Definition overrideLabels (labels : gmap string string) : M unit := λ p,
  if bool_decide (labels = ∅) then (p, Ret tt)
  else match pt_Labels p with
       | Some l => (set_pt_Labels (Some (labels ∪ l)) p, Ret tt)
       | None => (p, Panic)
       end.

(** The fields that are assigned when they are set. *)
Definition overrideFields (o : DatadogAgentComponentOverride) (p : PodTemplate) : PodTemplate :=
  mkPodTemplate (pt_Managed p) (pt_Labels p)
    (default (pt_ServiceAccountName p) (Override_ServiceAccountName o))
    (from_option (λ i, default (pt_ImagePullSecrets p) (AgentImage_PullSecrets i)) (pt_ImagePullSecrets p) (Override_Image o))
    (match Override_SecurityContext o with Some sc => Some sc | None => pt_SecurityContext p end)
    (default (pt_PriorityClassName p) (Override_PriorityClassName o))
    (match Override_RuntimeClassName o with Some r => Some r | None => pt_RuntimeClassName p end)
    (pt_Affinity p)
    (Override_NodeSelector o ∪ pt_NodeSelector p)
    (pt_Tolerations p ++ Override_Tolerations o)
    (default (pt_HostNetwork p) (Override_HostNetwork o))
    (default (pt_HostPID p) (Override_HostPID o))
    (default (pt_DNSPolicy p) (Override_DNSPolicy o))
    (match Override_DNSConfig o with Some c => Some c | None => pt_DNSConfig p end)
    (pt_TopologySpreadConstraints p ++ Override_TopologySpreadConstraints o)
    (pt_Arrays p).

Definition override_PodTemplateSpec (override : option DatadogAgentComponentOverride) (componentName ddaName : string) : M unit :=
  match override with
  | None => mret tt
  | Some o =>
      let component := ToLower componentName in
      _ ← from_option overrideImages (mret tt) (Override_Image o);
      _ ← managed (for_each AddEnvVar (Override_Env o));
      _ ← managed (for_each AddEnvFromVar (Override_EnvFrom o));
      _ ← managed (match Override_CELWorkloadExclude o, marshalCEL (Override_CELWorkloadExclude o) with
                   | _ :: _, inl jsonConfig => AddEnvVar (plainEnv "DD_CEL_WORKLOAD_EXCLUDE" jsonConfig)
                   | _, _ => mret tt
                   end);
      _ ← overrideCustomConfigVolumes (Override_CustomConfigurations o) componentName ddaName;
      _ ← overrideExtra (Override_ExtraConfd o) "confd" (component +:+ "-extra-confd");
      _ ← overrideExtra (Override_ExtraChecksd o) "checksd" (component +:+ "-extra-checksd");
      _ ← for_each (λ nc, override_Container nc.1 nc.2) (range _ (Override_Containers o));
      _ ← managed (for_each AddVolume (Override_Volumes o));
      _ ← overrideAffinity (Override_Affinity o);
      _ ← for_each overrideAnnotation (range _ (Override_Annotations o));
      _ ← overrideLabels (Override_Labels o);
      modify (overrideFields o)
  end.
End Pod.

(** ** Workloads *)

(** What overrides change of a DaemonSet or a Deployment. *)
Record Workload := mkWorkload {
  wl_Name : string;
  wl_Replicas : option Z;
  wl_StrategyType : string;
  wl_RollingUpdate : option RollingUpdate
}.

Definition overrideStrategy (s : option UpdateStrategy) (w : Workload) : Workload :=
  match s with
  | None => w
  | Some s => mkWorkload (wl_Name w) (wl_Replicas w) (us_Type s)
                (match us_RollingUpdate s with
                 | Some r => Some (mkRollingUpdate (ru_MaxUnavailable r) (ru_MaxSurge r))
                 | None => wl_RollingUpdate w
                 end)
  end.

Definition renameUnlessEmpty (name : option string) (w : Workload) : Workload :=
  if bool_decide (StringValue name = "") then w
  else mkWorkload (StringValue name) (wl_Replicas w) (wl_StrategyType w) (wl_RollingUpdate w).

Definition override_DaemonSet (o : DatadogAgentComponentOverride) (w : Workload) : Workload :=
  overrideStrategy (Override_UpdateStrategy o) (renameUnlessEmpty (Override_Name o) w).

Definition override_ExtendedDaemonSet (o : DatadogAgentComponentOverride) (w : Workload) : Workload :=
  renameUnlessEmpty (Override_Name o) w.

Definition override_Deployment (o : DatadogAgentComponentOverride) (w : Workload) : Workload :=
  overrideStrategy (Override_UpdateStrategy o)
    (mkWorkload (default (wl_Name w) (Override_Name o))
       (match Override_Replicas o with Some r => Some r | None => wl_Replicas w end) (wl_StrategyType w) (wl_RollingUpdate w)).
