(* ===== verification/OverrideTheorems.v ===== *)
(** * Overrides do not depend on the order of a map.

    Go visits a map in any order, and a pod template that differs from one
    reconcile to the next is rolled out again.  Without renamed containers, the
    overridden template is the same for every order. *)

From Stdlib Require Import ZArith Ascii.
From stdpp Require Import base gmap strings list fin_maps.
From S2P Require Import Prelude GoRun Cluster Profiles FleetData PodMerger PodMergerTheorems Affinity AgentSpec Defaults Images.
From S2P Require Import Identity Override.

Implicit Types (p : PodTemplate) (c : Container json).

(** ** Loops in any order *)

Section Loops.
Context {S A : Type} (key : A → string) (f : A → GoM S unit) (I : S → Prop) (P : A → Prop).
Hypothesis step : ∀ x s, P x → I s → ∃ s', f x s = (s', Ret tt) ∧ I s'.
Hypothesis commute : ∀ x y s, P x → P y → key x ≠ key y → I s →
  (_ ← f x; f y) s = (_ ← f y; f x) s.

Lemma for_each_step l s : Forall P l → I s → ∃ s', for_each f l s = (s', Ret tt) ∧ I s'.
Proof.
  intros Hl. revert s. induction Hl as [|x l Hx Hl IH]; intros s Hs; [by exists s|].
  destruct (step x s Hx Hs) as (s1 & Hrun & H1). cbn. unfold mbind, GoM_bind. rewrite Hrun. by apply IH.
Qed.

Lemma for_each_perm l l' s :
  l ≡ₚ l' → Forall P l → NoDup (key <$> l) → I s → for_each f l s = for_each f l' s.
Proof.
  intros Hp. revert s. induction Hp as [|x l l' Hp IH|x y l|l1 l2 l3 Hp1 IH1 Hp2 IH2]; intros s HP Hnd Hs.
  - done.
  - apply NoDup_cons in Hnd as [_ Hnd]. apply Forall_cons in HP as [Px HP]. destruct (step x s Px Hs) as (s1 & Hx & H1).
    cbn. unfold mbind, GoM_bind. rewrite Hx. by apply IH.
  - rewrite !Forall_cons in HP. destruct HP as (Py & Px & _).
    assert (key y ≠ key x) as Hne by (cbn in Hnd; apply NoDup_cons in Hnd as [Hn _]; set_solver).
    pose proof (commute y x s Py Px Hne Hs) as Hc.
    destruct (step y s Py Hs) as (s1 & Hy & H1), (step x s Px Hs) as (s2 & Hx & H2).
    cbn. unfold mbind, GoM_bind in *. rewrite Hx, Hy in *.
    destruct (step x s1 Px H1) as (s3 & Hx1 & _), (step y s2 Py H2) as (s4 & Hy2 & _). rewrite Hx1, Hy2 in *. congruence.
  - rewrite IH1 by done. apply IH2; [by rewrite <- Hp1|by rewrite <- Hp1|done].
Qed.
End Loops.

(** ** What an override of a container does *)

(** The template has annotations. *)
Definition annotated p : Prop := is_Some (pod_Annotations (pt_Managed p)).

Definition names p : list string := c_Name <$> pod_Containers (pt_Managed p) ++ pod_InitContainers (pt_Managed p).

(** Changes of the containers and init containers of one name, of the volumes,
    and of the annotation of that name. *)
Record effect := mkEffect {
  ef_C : Container json → Container json;
  ef_I : Container json → Container json;
  ef_V : list (Volume json) → list (Volume json);
  ef_A : list string → option string
}.

Definition appArmorKey (n : string) : string := AppArmorAnnotationKey +:+ "/" +:+ n.

Definition annotate (n : string) (v : option string) (m : gmap string string) : gmap string string :=
  from_option (λ v, <[appArmorKey n := v]> m) m v.

Definition apply (n : string) (e : effect) p : PodTemplate :=
  let q := pt_Managed p in
  set_pt_Managed (mkPodTemplateSpec (annotate n (ef_A e (names p)) <$> pod_Annotations q)
    (onNamed n (ef_C e) (pod_Containers q)) (onNamed n (ef_I e) (pod_InitContainers q)) (ef_V e (pod_Volumes q))) p.

(** Names stay, and only the system probe has volumes. *)
Definition ok (n : string) (e : effect) : Prop :=
  (∀ c, c_Name (ef_C e c) = c_Name c) ∧ (∀ c, c_Name (ef_I e c) = c_Name c) ∧
  (n ≠ SystemProbeContainerName → ∀ l, ef_V e l = l).

Definition acts (n : string) (m : M unit) : Prop :=
  ∃ e, ok n e ∧ ∀ p, annotated p → m p = (apply n e p, Ret tt).

Lemma set_Managed_eta p : set_pt_Managed (pt_Managed p) p = p.
Proof. by destruct p. Qed.

Lemma set_Managed_twice q q' p : set_pt_Managed q (set_pt_Managed q' p) = set_pt_Managed q p.
Proof. done. Qed.

Lemma onNamed_names n f l : (∀ c, c_Name (f c) = c_Name c) → c_Name <$> onNamed n f l = c_Name <$> l.
Proof.
  intros Hf. unfold onNamed. rewrite <- list_fmap_compose. apply list_fmap_ext. intros i c _. cbn. by case_bool_decide.
Qed.

Lemma names_apply n e p : ok n e → names (apply n e p) = names p.
Proof. intros (HC & HI & _). unfold names. cbn. rewrite !fmap_app, !onNamed_names by done. done. Qed.

Lemma annotated_apply n e p : annotated p → annotated (apply n e p).
Proof. unfold annotated. intros [m Hm]. cbn. rewrite Hm. by eexists. Qed.

Lemma onNamed_twice n f g l :
  (∀ c, c_Name (f c) = c_Name c) → onNamed n g (onNamed n f l) = onNamed n (g ∘ f) l.
Proof.
  intros Hf. unfold onNamed. rewrite <- list_fmap_compose. apply list_fmap_ext. intros i c _. cbn.
  repeat case_bool_decide; rewrite ?Hf in *; congruence.
Qed.

Lemma onNamed_swap n n' f g l :
  n ≠ n' → (∀ c, c_Name (f c) = c_Name c) → (∀ c, c_Name (g c) = c_Name c) →
  onNamed n' g (onNamed n f l) = onNamed n f (onNamed n' g l).
Proof.
  intros Hne Hf Hg. unfold onNamed. rewrite <- !list_fmap_compose. apply list_fmap_ext. intros i c _. cbn.
  repeat case_bool_decide; rewrite ?Hf, ?Hg in *; congruence.
Qed.

Lemma onNamed_id n l : onNamed n id l = l.
Proof. unfold onNamed. rewrite <- (list_fmap_id l) at 2. apply list_fmap_ext. intros; by case_bool_decide. Qed.

Lemma acts_ret n : acts n (mret tt).
Proof.
  exists (mkEffect id id id (λ _, None)). split; [done|]. intros p _. unfold apply. cbn -[onNamed].
  rewrite !onNamed_id. by destruct p as [[[ann|] ? ? ?]].
Qed.

Lemma acts_bind n (m1 m2 : M unit) : acts n m1 → acts n m2 → acts n (_ ← m1; m2).
Proof.
  intros (e1 & Hok1 & H1) (e2 & Hok2 & H2).
  exists (mkEffect (ef_C e2 ∘ ef_C e1) (ef_I e2 ∘ ef_I e1) (ef_V e2 ∘ ef_V e1)
            (λ l, match ef_A e2 l with Some v => Some v | None => ef_A e1 l end)).
  pose proof Hok1 as (HC1 & HI1 & HV1). pose proof Hok2 as (HC2 & HI2 & HV2). split.
  { split_and!; cbn; [intros; by rewrite HC2, HC1|intros; by rewrite HI2, HI1|intros; by rewrite HV2, HV1]. }
  intros p Hp. unfold mbind, GoM_bind. rewrite H1, H2 by (try apply annotated_apply; done). f_equal.
  unfold apply at 1. rewrite names_apply by done. destruct Hp as [m Hm].
  unfold apply. cbn -[onNamed annotate names]. rewrite Hm. cbn -[onNamed annotate names].
  rewrite !onNamed_twice by done. unfold annotate. destruct (ef_A e2 (names p)), (ef_A e1 (names p)); cbn;
    rewrite ?insert_insert_eq; done.
Qed.

Lemma acts_for_each n {A} (f : A → M unit) l : (∀ x, acts n (f x)) → acts n (for_each f l).
Proof. intros Hf. induction l; [apply acts_ret|]. cbn. by apply acts_bind. Qed.

(** Two overrides of different containers commute. *)
Lemma acts_commute n1 n2 (m1 m2 : M unit) p :
  n1 ≠ n2 → acts n1 m1 → acts n2 m2 → annotated p → (_ ← m1; m2) p = (_ ← m2; m1) p.
Proof.
  intros Hne (e1 & Hok1 & H1) (e2 & Hok2 & H2) Hp. unfold mbind, GoM_bind.
  rewrite (H1 p), (H2 p) by done. rewrite (H2 (apply n1 e1 p)), (H1 (apply n2 e2 p)) by by apply annotated_apply. f_equal.
  unfold apply at 1 3. rewrite !names_apply by done. destruct Hok1 as (HC1 & HI1 & HV1), Hok2 as (HC2 & HI2 & HV2).
  unfold apply. cbn -[onNamed annotate names]. rewrite !set_Managed_twice, !(onNamed_swap n1 n2) by done. do 2 f_equal.
  - destruct (pod_Annotations (pt_Managed p)) as [m|]; [|done]. cbn. f_equal. unfold annotate.
    assert (appArmorKey n1 ≠ appArmorKey n2) by (unfold appArmorKey; intros Heq; by simplify_eq).
    destruct (ef_A e1 _), (ef_A e2 _); cbn; try done. by rewrite insert_insert_ne.
  - destruct (decide (n1 = SystemProbeContainerName)); [rewrite !HV2 by congruence|rewrite !HV1 by congruence]; done.
Qed.

(** *** Every step acts on its container *)

Lemma acts_ext n (m m' : M unit) : (∀ p, m p = m' p) → acts n m' → acts n m.
Proof. intros Heq (e & Hok & H). exists e. split; [done|]. intros p Hp. rewrite Heq. by apply H. Qed.

Lemma managed_bind (m1 m2 : GoM (PodTemplateSpec json) unit) p :
  managed (_ ← m1; m2) p = (_ ← managed m1; managed m2) p.
Proof.
  unfold managed, zoom, mbind, GoM_bind. destruct (m1 (pt_Managed p)) as [q [[]|e|]]; [|done..]. cbn.
  by destruct (m2 q).
Qed.

Lemma managed_ret p : managed (mret tt) p = (p, Ret tt).
Proof. unfold managed, zoom. cbn. by rewrite set_Managed_eta. Qed.

Lemma acts_managed_for_each n {A} (f : A → GoM (PodTemplateSpec json) unit) l :
  (∀ x, acts n (managed (f x))) → acts n (managed (for_each f l)).
Proof.
  intros Hf. induction l as [|x l IH].
  - eapply acts_ext; [apply managed_ret|apply acts_ret].
  - eapply acts_ext; [apply managed_bind|]. by apply acts_bind.
Qed.

(** A change of a container that succeeds and keeps its name. *)
Definition total (f : GoM (Container json) unit) : Prop := ∀ c, (f c).2 = Ret tt ∧ c_Name (f c).1 = c_Name c.

Lemma onContainers_named n f l : total f → onContainers (named n) f l = (onNamed n (λ c, (f c).1) l, Ret tt).
Proof. intros Hf. rewrite onContainers_total by apply Hf. done. Qed.

(** The error of a call that has none is ignored. *)
Lemma ignoreError_ret {S} (m : GoM S unit) s : (m s).2 = Ret tt → ignoreError m s = ((m s).1, Ret tt).
Proof. intros Hm. unfold ignoreError, attempt, mbind, GoM_bind. destruct (m s) as [s' r]. cbn in Hm. by subst r. Qed.

Lemma total_ignoreError f : total f → total (ignoreError f).
Proof. intros Hf c. destruct (Hf c). by rewrite ignoreError_ret. Qed.

Lemma acts_containers n f :
  total f → acts n (managed (zoom pod_Containers set_Containers (onContainers (named n) f))).
Proof.
  intros Hf. exists (mkEffect (λ c, (f c).1) id id (λ _, None)).
  split; [split_and!; [intros c; apply Hf|done..]|]. intros p _. unfold managed, zoom.
  rewrite onContainers_named by done. unfold apply. cbn -[onNamed annotate]. rewrite onNamed_id.
  by destruct p as [[[ann|] ? ? ?]].
Qed.

Lemma acts_init_containers n f :
  total f → acts n (managed (zoom pod_InitContainers set_InitContainers (onContainers (named n) f))).
Proof.
  intros Hf. exists (mkEffect id (λ c, (f c).1) id (λ _, None)).
  split; [split_and!; [done|intros c; apply Hf|done..]|]. intros p _. unfold managed, zoom.
  rewrite onContainers_named by done. unfold apply. cbn -[onNamed annotate]. rewrite onNamed_id.
  by destruct p as [[[ann|] ? ? ?]].
Qed.

Lemma acts_ignoreError n (m : GoM (PodTemplateSpec json) unit) :
  acts n (managed m) → acts n (managed (ignoreError m)).
Proof.
  intros (e & Hok & H). exists e. split; [done|]. intros p Hp. specialize (H p Hp). revert H. unfold managed, zoom.
  destruct (m (pt_Managed p)) as [q r] eqn:Hm. intros [= Hq ->]. rewrite ignoreError_ret; rewrite Hm; cbn; by rewrite ?Hq.
Qed.

(** Items that replace the current ones are always added. *)
Lemma addItem_total {A} (matches : A → bool) new l : (addItem matches (λ x, orDefault (Some OverrideCurrent) x new) new l).2 = Ret tt.
Proof.
  unfold addItem. destruct (mergeLoop_total matches (λ x, orDefault (Some OverrideCurrent) x new) l) as (l' & [] & ->);
    [by intros; exists new|done..].
Qed.

Lemma total_env e : total (AddEnvVarToContainer e (Some OverrideCurrent)).
Proof. intros c. split; [apply AddEnvVarToContainer_total|]. unfold AddEnvVarToContainer, zoom. by destruct (addItem _ _ _ _). Qed.

Lemma total_port e : total (AddPortToContainer e (Some OverrideCurrent)).
Proof.
  intros c. unfold AddPortToContainer, zoom. pose proof (addItem_total (λ x, bool_decide (cp_Name x = cp_Name e)) e (c_Ports c)) as Ht.
  by destruct (addItem _ _ _ _).
Qed.

Lemma total_mount e : total (AddVolumeMountToContainerWithMergeFunc e (Some OverrideCurrent)).
Proof.
  intros c. unfold AddVolumeMountToContainerWithMergeFunc, zoom.
  pose proof (addItem_total (matchesVolumeMount e) e (c_VolumeMounts c)) as Ht. by destruct (addItem _ _ _ _).
Qed.

Lemma acts_volume v : acts SystemProbeContainerName (managed (AddVolume v)).
Proof.
  apply acts_ignoreError.
  exists (mkEffect id id (λ l, (addItem (λ x, bool_decide (vol_Name v = vol_Name x)) (λ x, orDefault (Some OverrideCurrent) x v) v l).1) (λ _, None)).
  split; [done|]. intros p _. unfold managed, AddVolumeToPod, zoom, apply. cbn -[onNamed annotate addItem]. rewrite !onNamed_id.
  pose proof (addItem_total (λ x, bool_decide (vol_Name v = vol_Name x)) v (pod_Volumes (pt_Managed p))) as Ht.
  destruct (addItem _ _ _ _) as [l r]. cbn in Ht |- *. subst r. by destruct p as [[[ann|] ? ? ?]].
Qed.

Create HintDb acts.
#[local] Hint Resolve acts_ret acts_bind acts_managed_for_each acts_containers acts_init_containers acts_ignoreError
  total_ignoreError total_env total_port total_mount : acts.

Lemma acts_managed_ret n : acts n (managed (mret tt)).
Proof. eapply acts_ext; [apply managed_ret|apply acts_ret]. Qed.

Lemma acts_env n e : acts n (managed (addEnv n e)).
Proof. unfold addEnv, AddEnvVarToContainerWithMergeFunc. auto with acts. Qed.

(** The containers of the name, changed by a function that keeps it. *)
Lemma acts_modify_containers n f :
  (∀ c, c_Name (f c) = c_Name c) →
  acts n (managed (modify (λ q, set_Containers (onNamed n f (pod_Containers q)) q))).
Proof.
  intros Hf. eapply acts_ext; [|apply (acts_containers n (modify f)); intros c; split; [done|apply Hf]].
  intros p. unfold managed, zoom. by rewrite onContainers_named by (intros c; split; [done|apply Hf]).
Qed.

Lemma acts_modify_init_containers n f :
  (∀ c, c_Name (f c) = c_Name c) →
  acts n (managed (modify (λ q, set_InitContainers (onNamed n f (pod_InitContainers q)) q))).
Proof.
  intros Hf. eapply acts_ext; [|apply (acts_init_containers n (modify f)); intros c; split; [done|apply Hf]].
  intros p. unfold managed, zoom. by rewrite onContainers_named by (intros c; split; [done|apply Hf]).
Qed.

Lemma c_Name_ifSet {A} (v : option A) f c : (∀ a c, c_Name (f a c) = c_Name c) → c_Name (ifSet v f c) = c_Name c.
Proof. intros Hf. destruct v; cbn; [apply Hf|done]. Qed.

Lemma overrideContainer_name o c : GenericContainer_Name o = None → c_Name (overrideContainer o c) = c_Name c.
Proof. intros Hn. unfold overrideContainer. rewrite Hn. change (ifSet None set_c_Name c) with c. by rewrite !c_Name_ifSet. Qed.

Lemma overrideInitContainer_name o c : GenericContainer_Name o = None → c_Name (overrideInitContainer o c) = c_Name c.
Proof. intros Hn. unfold overrideInitContainer. rewrite Hn. change (ifSet None set_c_Name c) with c. by rewrite !c_Name_ifSet. Qed.

Lemma acts_seccomp n o : acts n (overrideSeccompProfile n o).
Proof.
  unfold overrideSeccompProfile. case_bool_decide as Hn; cbn [negb]; [subst n|apply acts_ret].
  apply acts_bind; case_match; auto using acts_volume, acts_ret.
Qed.

Lemma acts_apparmor n o : GenericContainer_Name o = None → acts n (overrideAppArmorProfile n o).
Proof.
  intros Hn. unfold overrideAppArmorProfile. destruct (GenericContainer_AppArmorProfileName o) as [profile|]; [|apply acts_ret].
  rewrite Hn. cbn [default from_option].
  exists (mkEffect id id id (λ l, if existsb (λ x, bool_decide (x = n)) l then Some profile else None)).
  split; [done|]. intros p [m Hm]. unfold apply. cbn -[onNamed annotate names]. rewrite !onNamed_id.
  assert (podSpecHasContainer (pt_Managed p) n = existsb (λ x, bool_decide (x = n)) (names p)) as Hhas.
  { unfold podSpecHasContainer, names. induction (_ ++ _) as [|c l IH]; [done|]. cbn. by rewrite IH. }
  unfold mbind, GoM_bind, gets. rewrite Hhas. destruct (existsb _ (names p)); cbn -[annotate].
  - unfold managed, zoom, AddAnnotation. rewrite Hm. by destruct p as [[[ann|] ? ? ?]].
  - by destruct p as [[[ann|] ? ? ?]].
Qed.

(** The override of a container without a new name acts on that container. *)
Lemma acts_container n override :
  (∀ o, override = Some o → GenericContainer_Name o = None) → acts n (override_Container n override).
Proof.
  intros Hn. destruct override as [o|]; [|apply acts_ret]. specialize (Hn o eq_refl). cbn -[managed].
  repeat apply acts_bind; try apply acts_managed_for_each; try intros x;
    [unfold when; case_match|case_match|..];
    auto using acts_managed_ret, acts_env, acts_seccomp, acts_apparmor with acts.
  - unfold AddPortToContainerWithMergeFunc. auto with acts.
  - unfold AddVolumeMountToContainer. auto with acts.
  - unfold AddEnvVarToInitContainerWithMergeFunc. auto with acts.
  - unfold AddVolumeMountToInitContainer. auto with acts.
  - apply acts_modify_containers. intros c. by apply overrideContainer_name.
  - apply acts_modify_init_containers. intros c. by apply overrideInitContainer_name.
Qed.

Lemma acts_step n m p : acts n m → annotated p → ∃ p', m p = (p', Ret tt) ∧ annotated p'.
Proof. intros (e & Hok & H) Hp. exists (apply n e p). split; [by apply H|by apply annotated_apply]. Qed.

(** ** Annotations *)

(** An AppArmor annotation of a container the pod has not. *)
Definition skipped (annotationName : string) (q : PodTemplateSpec json) : bool :=
  let prefix := AppArmorAnnotationKey +:+ "/" in
  HasPrefix annotationName prefix &&
  negb (podSpecHasContainer q (String.substring (String.length prefix)
          (String.length annotationName - String.length prefix) annotationName)).

Definition with_annotation (nv : string * string) (p : PodTemplate) : PodTemplate :=
  let q := pt_Managed p in
  set_pt_Managed (mkPodTemplateSpec ((λ m, if skipped nv.1 q then m else <[nv.1 := nv.2]> m) <$> pod_Annotations q)
    (pod_Containers q) (pod_InitContainers q) (pod_Volumes q)) p.

Lemma overrideAnnotation_run nv p : annotated p → overrideAnnotation nv p = (with_annotation nv p, Ret tt).
Proof.
  destruct nv as [k v]. intros [m Hm]. unfold overrideAnnotation, mbind, GoM_bind, gets. cbn -[HasPrefix String.substring].
  unfold with_annotation. cbn -[skipped]. fold (skipped k (pt_Managed p)). destruct (skipped k (pt_Managed p)).
  - by destruct p as [[[ann|] ? ? ?]].
  - unfold managed, zoom, AddAnnotation. rewrite Hm. by destruct p as [[[ann|] ? ? ?]].
Qed.

Lemma annotated_with nv p : annotated p → annotated (with_annotation nv p).
Proof. unfold annotated. intros [m Hm]. cbn -[skipped]. rewrite Hm. by eexists. Qed.

Lemma skipped_containers k ann cs ics vs :
  skipped k (mkPodTemplateSpec ann cs ics vs) = skipped k (mkPodTemplateSpec None cs ics []).
Proof. done. Qed.

Lemma annotations_commute nv nv' p :
  nv.1 ≠ nv'.1 → annotated p →
  (_ ← overrideAnnotation nv; overrideAnnotation nv') p = (_ ← overrideAnnotation nv'; overrideAnnotation nv) p.
Proof.
  intros Hne Hp. unfold mbind, GoM_bind. rewrite !(overrideAnnotation_run _ p) by done.
  rewrite !overrideAnnotation_run by by apply annotated_with. f_equal.
  destruct p as [[[m|] cs ics vs]]; [|by destruct Hp as [m Hm]].
  unfold with_annotation. cbn -[skipped]. rewrite !(skipped_containers _ (Some _)).
  destruct (skipped nv.1 _), (skipped nv'.1 _); try done. by rewrite insert_insert_ne.
Qed.

(** ** Steps that keep the annotations *)

Definition keeps (m : M unit) : Prop := ∀ p, annotated p → annotated (m p).1.
Definition keepsAnnotations (m : GoM (PodTemplateSpec json) unit) : Prop := ∀ q, pod_Annotations (m q).1 = pod_Annotations q.

Lemma keeps_ret : keeps (mret tt).
Proof. by intros p. Qed.

Lemma keeps_bind m1 m2 : keeps m1 → keeps m2 → keeps (_ ← m1; m2).
Proof.
  intros H1 H2 p Hp. unfold mbind, GoM_bind. specialize (H1 p Hp). destruct (m1 p) as [p' [[]|e|]]; [by apply H2|done..].
Qed.

Lemma keeps_for_each {A} (f : A → M unit) l : (∀ x, keeps (f x)) → keeps (for_each f l).
Proof. intros Hf. induction l; [apply keeps_ret|]. cbn. by apply keeps_bind. Qed.

Lemma keeps_managed m : keepsAnnotations m → keeps (managed m).
Proof.
  intros Hm p Hp. unfold managed, zoom. specialize (Hm (pt_Managed p)). destruct (m (pt_Managed p)) as [q r].
  unfold annotated in *. cbn in *. by rewrite Hm.
Qed.

Lemma keepsAnnotations_for_each {A} (f : A → GoM (PodTemplateSpec json) unit) l :
  (∀ x, keepsAnnotations (f x)) → keepsAnnotations (for_each f l).
Proof.
  intros Hf. induction l as [|x l IH]; intros q; [done|]. cbn. unfold mbind, GoM_bind. specialize (Hf x q).
  destruct (f x q) as [q' [[]|e|]]; cbn in *; [by rewrite IH|done..].
Qed.

Lemma keepsAnnotations_ignoreError m : keepsAnnotations m → keepsAnnotations (ignoreError m).
Proof.
  intros Hm q. unfold ignoreError, attempt, mbind, GoM_bind. specialize (Hm q). by destruct (m q) as [q' [[]|e|]].
Qed.

Lemma keepsAnnotations_containers m : keepsAnnotations (zoom pod_Containers set_Containers m).
Proof. intros q. unfold zoom. by destruct (m _). Qed.
Lemma keepsAnnotations_init m : keepsAnnotations (zoom pod_InitContainers set_InitContainers m).
Proof. intros q. unfold zoom. by destruct (m _). Qed.
Lemma keepsAnnotations_volumes m : keepsAnnotations (zoom pod_Volumes set_Volumes m).
Proof. intros q. unfold zoom. by destruct (m _). Qed.
Lemma keepsAnnotations_ret : keepsAnnotations (mret tt).
Proof. by intros q. Qed.

Create HintDb keeps.
#[local] Hint Resolve keeps_ret keeps_bind keeps_for_each keeps_managed keepsAnnotations_for_each
  keepsAnnotations_ignoreError keepsAnnotations_containers keepsAnnotations_init keepsAnnotations_volumes
  keepsAnnotations_ret : keeps.

Lemma keeps_images image : keeps (overrideImages image).
Proof. unfold overrideImages. auto with keeps. Qed.

Lemma keeps_add_env e : keepsAnnotations (AddEnvVar e).
Proof. unfold AddEnvVar, AddEnvVarWithMergeFunc. auto with keeps. Qed.

Lemma keeps_add_env_from e : keepsAnnotations (AddEnvFromVar e).
Proof. unfold AddEnvFromVar, AddEnvFromVarWithMergeFunc. auto with keeps. Qed.

Lemma keeps_add_volume v : keepsAnnotations (AddVolume v).
Proof. unfold AddVolume, AddVolumeToPod. auto with keeps. Qed.

Lemma keeps_add_mount m : keepsAnnotations (AddVolumeMount m).
Proof. unfold AddVolumeMount, AddVolumeMountWithMergeFunc. auto with keeps. Qed.

#[local] Hint Resolve keeps_images keeps_add_env keeps_add_env_from keeps_add_volume keeps_add_mount : keeps.

Lemma keeps_custom_configs range confs componentName ddaName : keeps (overrideCustomConfigVolumes range confs componentName ddaName).
Proof. apply keeps_for_each. intros f. unfold customConfigVolume. repeat case_match; auto with keeps. Qed.

Lemma keeps_extra range isYAML config v n : keeps (overrideExtra range isYAML config v n).
Proof. unfold overrideExtra, when. repeat case_match; auto with keeps. Qed.

Lemma keeps_affinity slack a : keeps (overrideAffinity slack a).
Proof. intros p Hp. unfold overrideAffinity. repeat case_match; done. Qed.

#[local] Hint Resolve keeps_custom_configs keeps_extra keeps_affinity : keeps.

(** ** Any order *)

(** An order in which a map can be visited. *)
Definition visits (range : ∀ A : Type, gmap string A → list (string * A)) : Prop := ∀ A m, range A m ≡ₚ map_to_list m.

Lemma visits_nodup range A (m : gmap string A) : visits range → NoDup (fst <$> range A m).
Proof. intros Hv. rewrite (Hv A m). apply NoDup_fst_map_to_list. Qed.

Lemma visits_perm range range' A (m : gmap string A) : visits range → visits range' → range A m ≡ₚ range' A m.
Proof. intros Hv Hv'. by rewrite (Hv A m), (Hv' A m). Qed.

Lemma visits_elem range A (m : gmap string A) k v : visits range → (k, v) ∈ range A m → m !! k = Some v.
Proof. intros Hv Hin. rewrite (Hv A m) in Hin. by apply elem_of_map_to_list. Qed.

(** Containers the override does not rename. *)
Definition keepsNames (o : DatadogAgentComponentOverride) : Prop :=
  map_Forall (λ _ (nc : option DatadogAgentGenericContainer), from_option (λ o, GenericContainer_Name o = None) True nc) (Override_Containers o).

Lemma acts_named o n nc : keepsNames o → Override_Containers o !! n = Some nc → acts n (override_Container n nc).
Proof. intros Hnames Hin. apply acts_container. intros c' Hc. specialize (Hnames _ _ Hin). by rewrite Hc in Hnames. Qed.

(** Two programs that start alike. *)
Lemma agree_bind (m1 m2 k1 k2 : M unit) p :
  m1 p = m2 p → keeps m1 → annotated p → (∀ p', annotated p' → k1 p' = k2 p') → (_ ← m1; k1) p = (_ ← m2; k2) p.
Proof.
  intros Heq Hk Hp Hagree. unfold mbind, GoM_bind. rewrite <- Heq. specialize (Hk p Hp).
  destruct (m1 p) as [p' [[]|e|]]; [by apply Hagree|done..].
Qed.

Lemma same_start (m1 m2 k : M unit) p : m1 p = m2 p → (_ ← m1; k) p = (_ ← m2; k) p.
Proof. intros Heq. unfold mbind, GoM_bind. by rewrite Heq. Qed.

Ltac solve_keeps := unfold from_option; repeat case_match; auto 6 with keeps.

Section Order.
Context (range range' : ∀ A : Type, gmap string A → list (string * A)).
Hypotheses (Hrange : visits range) (Hrange' : visits range').

Lemma containers_agree o p :
  keepsNames o → annotated p →
  for_each (λ nc, override_Container nc.1 nc.2) (range _ (Override_Containers o)) p =
  for_each (λ nc, override_Container nc.1 nc.2) (range' _ (Override_Containers o)) p.
Proof.
  intros Hnames Hp. pose proof (visits_perm range range' _ (Override_Containers o) Hrange Hrange') as Hperm.
  apply (for_each_perm fst _ annotated (λ nc, Override_Containers o !! nc.1 = Some nc.2)); try done.
  - intros nc q Hin Hq. by eapply acts_step; [apply (acts_named o)|].
  - intros nc nc' q Hin Hin' Hne Hq. by eapply acts_commute; [exact Hne|apply (acts_named o)|apply (acts_named o)|].
  - apply Forall_forall. intros [n nc] Hin. by apply (visits_elem range).
  - by apply visits_nodup.
Qed.

Lemma keeps_containers o : keepsNames o → keeps (for_each (λ nc, override_Container nc.1 nc.2) (range _ (Override_Containers o))).
Proof.
  intros Hnames p Hp. destruct (for_each_step (λ nc, override_Container nc.1 nc.2) annotated
    (λ nc, Override_Containers o !! nc.1 = Some nc.2)) with (range _ (Override_Containers o)) p as (p' & -> & Hp'); try done.
  - intros nc q Hin Hq. by eapply acts_step; [apply (acts_named o)|].
  - apply Forall_forall. intros [n nc] Hin. by apply (visits_elem range).
Qed.

(** The keys in the order of the code do not depend on the order of the map. *)
Lemma sorted_agree A (m : gmap string A) : sort_by String.le (range A m).*1 = sort_by String.le (range' A m).*1.
Proof.
  apply sort_by_ext; [apply _..|by rewrite (visits_perm range range')|]. intros x y _ _. apply (anti_symm String.le).
Qed.

Lemma custom_configs_agree confs componentName ddaName p :
  overrideCustomConfigVolumes range confs componentName ddaName p = overrideCustomConfigVolumes range' confs componentName ddaName p.
Proof. unfold overrideCustomConfigVolumes, sortKeys. by rewrite sorted_agree. Qed.

Lemma extra_agree isYAML config v n p : overrideExtra range isYAML config v n p = overrideExtra range' isYAML config v n p.
Proof.
  destruct config as [config|]; [|done]. cbn. unfold GetVolumeFromMultiCustomConfig, volume_sortKeys.
  destruct (MultiCustom_ConfigDataMap config) as [m|]; [|done]. by rewrite sorted_agree.
Qed.

Lemma annotations_agree m p :
  annotated p → for_each overrideAnnotation (range _ m) p = for_each overrideAnnotation (range' _ m) p.
Proof.
  intros Hp. apply (for_each_perm fst overrideAnnotation annotated (λ _, True)); try done.
  - intros nv q _ Hq. exists (with_annotation nv q). split; [by apply overrideAnnotation_run|by apply annotated_with].
  - intros. by apply annotations_commute.
  - by apply visits_perm.
  - by apply Forall_true.
  - by apply visits_nodup.
Qed.
End Order.

(** C31: go visits a map in any order, and a pod template that differs between
    two reconciles is rolled out again.  When the override renames no container
    and the template has annotations, the overridden template, or the panic, is
    the same for any two orders. *)
Theorem override_is_deterministic range range' marshalCEL isYAML slack o componentName ddaName p :
  visits range → visits range' → keepsNames o → annotated p →
  override_PodTemplateSpec range marshalCEL isYAML slack (Some o) componentName ddaName p =
  override_PodTemplateSpec range' marshalCEL isYAML slack (Some o) componentName ddaName p.
Proof.
  intros Hrange Hrange' Hnames Hp. cbn -[managed].
  do 4 (apply agree_bind; [done|solve_keeps|done|clear p Hp; intros p Hp]).
  apply agree_bind; [by apply custom_configs_agree|solve_keeps|done|clear p Hp; intros p Hp].
  do 2 (apply agree_bind; [by apply extra_agree|solve_keeps|done|clear p Hp; intros p Hp]).
  apply agree_bind; [by apply containers_agree|by apply keeps_containers|done|clear p Hp; intros p Hp].
  do 2 (apply agree_bind; [done|solve_keeps|done|clear p Hp; intros p Hp]).
  apply same_start. by apply annotations_agree.
Qed.

(** ** Two containers *)

Definition agent_container (name : string) : Container json := mkContainer name [] [] [] [] None noFields.

Definition two_containers : PodTemplate :=
  mkPodTemplate (mkPodTemplateSpec (Some ∅) [agent_container "agent"; agent_container "trace-agent"] [] [])
    (Some ∅) "" [] None "" None None ∅ [] false false "" None [] [].

Definition generic (name logLevel : option string) : option DatadogAgentGenericContainer :=
  Some (mkDatadogAgentGenericContainer name logLevel [] [] [] None None None None None None None None None (Some "unconfined")).

Definition two_files : option MultiCustomConfig := Some (mkMultiCustomConfig (Some {[ "b.yaml" := "b: 1"; "a.yaml" := "a: 1" ]}) None).

(** The override of the agent, with a new name or not, and of the trace agent;
    two configurations and two files of a check. *)
Definition two_overrides (newName : option string) : DatadogAgentComponentOverride :=
  mkDatadogAgentComponentOverride None None None None None ∅ None [] []
    {[ "system-probe.yaml" := mkCustomConfig (Some "x: 1") None; "datadog.yaml" := mkCustomConfig (Some "y: 1") None ]}
    two_files None []
    {[ "agent" := generic newName (Some "info"); "trace-agent" := generic None (Some "debug") ]}
    [] None None None None None None ∅ None [] {[ "a" := "1"; "b" := "2" ]} ∅ None None None [].

Definition forwards (A : Type) (m : gmap string A) : list (string * A) := map_to_list m.
Definition backwards (A : Type) (m : gmap string A) : list (string * A) := reverse (map_to_list m).

Lemma visits_forwards : visits forwards.
Proof. by intros A m. Qed.

Lemma visits_backwards : visits backwards.
Proof. intros A m. apply reverse_Permutation. Qed.

Definition overridden (range : ∀ A : Type, gmap string A → list (string * A)) (newName : option string) : list (list string) :=
  (λ c, env_Value <$> c_Env c) <$>
    pod_Containers (pt_Managed (override_PodTemplateSpec range (λ _, inl "") (λ _, true) (λ n, n)
      (Some (two_overrides newName)) NodeAgentComponentName "datadog" two_containers).1).

(** The volumes of the pod template. *)
Definition volumes (range : ∀ A : Type, gmap string A → list (string * A)) : list string :=
  vol_Name <$> pod_Volumes (pt_Managed (override_PodTemplateSpec range (λ _, inl "") (λ _, true) (λ n, n)
      (Some (two_overrides None)) NodeAgentComponentName "datadog" two_containers).1).

Lemma two_overrides_keep_names : keepsNames (two_overrides None).
Proof. unfold keepsNames. cbn. apply map_Forall_insert_2; [done|]. by apply map_Forall_singleton. Qed.

Lemma override_is_deterministic_witness :
  overridden forwards None = [["info"]; ["debug"]] ∧ overridden backwards None = [["info"]; ["debug"]] ∧
  length (volumes forwards) = 3 ∧ volumes forwards = volumes backwards ∧
  override_PodTemplateSpec forwards (λ _, inl "") (λ _, true) (λ n, n) (Some (two_overrides None)) NodeAgentComponentName "datadog"
    two_containers =
  override_PodTemplateSpec backwards (λ _, inl "") (λ _, true) (λ n, n) (Some (two_overrides None)) NodeAgentComponentName "datadog"
    two_containers.
Proof.
  split_and!; [by vm_compute..|].
  exact (override_is_deterministic forwards backwards (λ _, inl "") (λ _, true) (λ n, n) (two_overrides None)
    NodeAgentComponentName "datadog" two_containers visits_forwards visits_backwards two_overrides_keep_names
    (ex_intro _ ∅ eq_refl)).
Defined.

(** An agent that is renamed to the name of another overridden container: the
    template depends on which of them comes first. *)
Example renaming_depends_on_order :
  overridden forwards (Some "trace-agent") ≠ overridden backwards (Some "trace-agent").
Proof. vm_compute. congruence. Qed.
