(* ===== verification/Install.v ===== *)
(** * Managed Agent installations.

    Models [pkg/fleet/managed_agent_installation.go] and
    [managed_agent_installation_windows_profile.go]: the fleet daemon installs
    and removes a DatadogAgent of its own, with a profile for Windows nodes.
    Other writers may change any object between two calls; the labels of an
    object say whose it is, its UID that it is still the same one, and a patch
    carries the resource version it was made from.  Contexts other than the
    task's, events and logs are left out. *)

From Stdlib Require Import ZArith.
From stdpp Require Import base gmap strings list.
From S2P Require Import AgentSpec.
From S2P Require Import Prelude GoRun Cluster Experiment Status Profiles Objects Store FleetData Fleet Identity.

(** ** Objects *)

(** [spec.global.credentials] of a DatadogAgentSpec; setting it makes a nil
    [spec.global]. *)
Class CredentialsOf (Spec : Type) := {
  spec_Credentials : Spec → option DatadogCredentials;
  set_spec_Credentials : DatadogCredentials → Spec → Spec
}.

(** The credentials of a spec as it is. *)
Definition set_Global_Credentials (v : option DatadogCredentials) (c : GlobalConfig) : GlobalConfig :=
  mkGlobalConfig v (Global_ClusterAgentToken c) (Global_ClusterAgentTokenSecret c) (Global_ClusterName c) (Global_Site c)
    (Global_Endpoint c) (Global_Registry c) (Global_LogLevel c) (Global_Tags c) (Global_Env c) (Global_CommonLabels c)
    (Global_ChecksTagCardinality c) (Global_OriginDetectionUnified c) (Global_PodLabelsAsTags c)
    (Global_PodAnnotationsAsTags c) (Global_NodeLabelsAsTags c) (Global_NamespaceLabelsAsTags c)
    (Global_NamespaceAnnotationsAsTags c) (Global_KubernetesResourcesLabelsAsTags c)
    (Global_KubernetesResourcesAnnotationsAsTags c) (Global_CSI c) (Global_NetworkPolicy c) (Global_LocalService c)
    (Global_Kubelet c) (Global_DockerSocketPath c) (Global_CriSocketPath c) (Global_DisableNonResourceRules c)
    (Global_ContainerStrategy c) (Global_UseFIPSAgent c) (Global_FIPS c) (Global_SecretBackend c) (Global_UseVSock c).

#[export] Instance DatadogAgentSpec_credentials : CredentialsOf DatadogAgentSpec := {|
  spec_Credentials spec := from_option Global_Credentials None (Spec_Global spec);
  set_spec_Credentials c spec :=
    mkDatadogAgentSpec (Spec_Features spec) (Some (set_Global_Credentials (Some c) (default zero (Spec_Global spec))))
      (Spec_Override spec) |}.

(** A DatadogAgent with its deletion timestamp. *)
Record ManagedAgent (Spec : Type) := mkManagedAgent {
  ma_dda : DatadogAgent Spec;
  ma_DeletionTimestamp : option Time
}.
Arguments mkManagedAgent {_}.
Arguments ma_dda {_}.
Arguments ma_DeletionTimestamp {_}.

(** What a profile has that the installation writes and compares. *)
Record ManagedProfile (Spec : Type) := mkManagedProfile {
  mp_Namespace : string;
  mp_Name : string;
  mp_Labels : gmap string string;
  mp_Annotations : gmap string string;
  mp_OwnerReferences : list OwnerReference;
  mp_DeletionTimestamp : option Time;
  mp_Affinity : option (list NodeSelectorRequirement);
  mp_Config : option Spec
}.
Arguments mkManagedProfile {_}.
Arguments mp_Namespace {_}.
Arguments mp_Name {_}.
Arguments mp_Labels {_}.
Arguments mp_Annotations {_}.
Arguments mp_OwnerReferences {_}.
Arguments mp_DeletionTimestamp {_}.
Arguments mp_Affinity {_}.
Arguments mp_Config {_}.

#[export] Instance NodeSelectorRequirement_eq_dec : EqDecision NodeSelectorRequirement.
Proof. solve_decision. Defined.

Record StateConfigMap := mkStateConfigMap {
  cm_Namespace : string;
  cm_Name : string;
  cm_UID : string;
  cm_ResourceVersion : string;
  cm_Labels : gmap string string;
  cm_OwnerReferences : list OwnerReference;
  cm_Data : gmap string string
}.

Definition set_cm_Data (d : gmap string string) (c : StateConfigMap) : StateConfigMap :=
  mkStateConfigMap (cm_Namespace c) (cm_Name c) (cm_UID c) (cm_ResourceVersion c) (cm_Labels c)
    (cm_OwnerReferences c) d.

Definition set_labels {Spec : Type} (l : gmap string string) (a : ManagedAgent Spec) : ManagedAgent Spec :=
  let d := ma_dda a in
  mkManagedAgent (mkDatadogAgent (dda_Namespace d) (dda_Name d) (dda_UID d) (dda_ResourceVersion d) l
                    (dda_Annotations d) (dda_Spec d) (dda_Experiment d)) (ma_DeletionTimestamp a).

Definition set_annotations {Spec : Type} (l : gmap string string) (a : ManagedAgent Spec) : ManagedAgent Spec :=
  mkManagedAgent (set_dda_Annotations l (ma_dda a)) (ma_DeletionTimestamp a).

(** ** The client *)

Inductive ClusterKind := ClusterRoleList | ClusterRoleBindingList | APIServiceList.

(** Reads are those of [managedAgentInstallationReader]; [inst_ClientGetConfigMap]
    is [d.client.Get].  A patch is made from the first object with an optimistic
    lock; a deletion has the UID of its object for precondition; a list answers
    how many objects match the labels.  [inst_CtxErr] is whether the parent
    context was cancelled. *)
Class InstallClient (W Spec : Type) := {
  inst_GetAgent : NamespacedName → GoM W (ManagedAgent Spec);
  inst_CreateAgent : ManagedAgent Spec → GoM W (ManagedAgent Spec);
  inst_PatchAgent : ManagedAgent Spec → ManagedAgent Spec → GoM W unit;
  inst_DeleteAgent : ManagedAgent Spec → GoM W unit;
  inst_GetSecret : NamespacedName → GoM W (gmap string string);
  inst_GetProfile : NamespacedName → GoM W (ManagedProfile Spec);
  inst_CreateProfile : ManagedProfile Spec → GoM W unit;
  inst_GetConfigMap : NamespacedName → GoM W StateConfigMap;
  inst_ClientGetConfigMap : NamespacedName → GoM W StateConfigMap;
  inst_CreateConfigMap : StateConfigMap → GoM W unit;
  inst_PatchConfigMap : StateConfigMap → StateConfigMap → GoM W unit;
  inst_ListInternals : gmap string string → GoM W nat;
  inst_ListCluster : ClusterKind → gmap string string → GoM W nat;
  inst_CtxErr : GoM W bool
}.

Definition fleetCredentialSecretName : string := "datadog-secret".
Definition fleetCredentialAPIKey : string := "api-key".
Definition managedAgentInstallationWindowsProfileName : string := "datadog-agent-windows".
Definition managedAgentInstallationIntentConfigMapName : string := "datadog-agent-managed-installation-intent".
Definition managedAgentInstallationStateConfigMapName : string := "datadog-agent-managed-installation-state".

Definition managedAgentInstallationCredentialNotReadyError (msg : string) : error :=
  Typed "managedAgentInstallationCredentialNotReadyError" msg.
Definition isCredentialNotReady (e : error) : bool := errors_As "managedAgentInstallationCredentialNotReadyError" e.

Definition controllerOwnerReference (apiVersion kind name uid : string) : OwnerReference :=
  mkOwnerReference apiVersion kind name uid (Some true) (Some true).

(** The fields of an owner reference both searches compare first. *)
Definition controls (owner want : OwnerReference) : bool :=
  bool_decide (or_APIVersion owner = or_APIVersion want) && bool_decide (or_Kind owner = or_Kind want) &&
  bool_decide (or_Name owner = or_Name want) && bool_decide (or_Controller owner = Some true).

Definition requireManagedAgentInstallationResourceOwner (owners : list OwnerReference) (want : OwnerReference)
    : option error :=
  if existsb (λ owner, controls owner want && bool_decide (or_UID owner = or_UID want)) owners then None
  else Some (Errorf ("resource is not controlled by " +:+ or_Kind want +:+ " " +:+ or_Name want +:+ " with UID " +:+
                     or_UID want)).

Definition requireManagedAgentInstallationWindowsProfileOwner (owners : list OwnerReference) (want : OwnerReference)
    (requireUID : bool) : option error :=
  if existsb (λ owner, controls owner want &&
                       negb (requireUID && negb (bool_decide (or_UID owner = or_UID want))) &&
                       negb (bool_decide (or_UID owner = ""))) owners then None
  else Some (Errorf "required controller owner reference is missing").

Definition v2alpha1_GroupVersion : string := "datadoghq.com/v2alpha1".
Definition WindowsProvider : string := "windows".
Definition LabelOSStable : string := "kubernetes.io/os".

(** ** Checks of a DatadogAgent *)

Section Checks.
Context {Spec : Type} `{CredentialsOf Spec}.
Context (fleetDatadogAgentSpecHash : Spec → string + error).
(** [apiequality.Semantic.DeepDerivative] *)
Context (DeepDerivative : Spec → Spec → bool).
Implicit Types (dda : DatadogAgent Spec).

Definition label dda (k : string) : string := get_key (dda_Labels dda) k.
Definition annotation dda (k : string) : string := get_key (dda_Annotations dda) k.

Definition validateFleetOwnedDatadogAgent (dda : DatadogAgent Spec) (expectedConfigID : string) : option error :=
  if negb (bool_decide (label dda fleetManagedByLabel = fleetManagedByValue)) ||
     bool_decide (label dda fleetConfigIDLabel = "")
  then Some (on_dda dda " is not owned by Fleet Automation")
  else if negb (bool_decide (expectedConfigID = "")) &&
          negb (bool_decide (label dda fleetConfigIDLabel = expectedConfigID))
  then Some (on_dda dda (" is managed by Fleet Automation with config " +:+ label dda fleetConfigIDLabel +:+
                         ", not " +:+ expectedConfigID +:+ "; use an update operation"))
  else None.

Definition validateNoActiveFleetExperiment (dda : DatadogAgent Spec) : option error :=
  match pendingOperationFromAnnotations (dda_key dda) (dda_Annotations dda), dda_Experiment dda with
  | Some _, _ => Some (on_dda dda " has a pending Fleet experiment task")
  | None, Some e => if negb (isTerminalPhase (exp_Phase e)) then Some (on_dda dda " has an active Fleet experiment")
                    else None
  | None, None => None
  end.

Definition validateFleetDatadogAgentCredentials (dda : DatadogAgent Spec) : option error :=
  match spec_Credentials (dda_Spec dda) with
  | Some (mkCredentials apiKey (Some apiSecret) appKey appSecret) =>
      if negb (bool_decide (sc_SecretName apiSecret = fleetCredentialSecretName)) ||
         negb (bool_decide (sc_KeyName apiSecret = fleetCredentialAPIKey)) ||
         bool_decide (is_Some apiKey) || bool_decide (is_Some appKey) || bool_decide (is_Some appSecret)
      then Some (on_dda dda " does not use the Fleet-managed API Secret reference")
      else None
  | _ => Some (on_dda dda " is missing the Fleet-managed API Secret reference")
  end.

Definition validateFleetDatadogAgentSpecHash (dda : DatadogAgent Spec) (key source : string) : option error :=
  match validateFleetDatadogAgentCredentials dda with
  | Some err => Some err
  | None =>
      match fleetDatadogAgentSpecHash (dda_Spec dda) with
      | inr err => Some (Wrapf "hash live DatadogAgent spec" err)
      | inl liveHash =>
          if negb (bool_decide (annotation dda key = liveHash))
          then Some (on_dda dda (" spec does not match its accepted " +:+ source))
          else None
      end
  end.

Definition validateFleetDatadogAgentAcceptedSpec (dda : DatadogAgent Spec) : option error :=
  validateFleetDatadogAgentSpecHash dda fleetConfigHashAnnotation "Fleet config".

(** The hash to record, when the one of an interrupted create is to be
    replaced by that of the spec the server accepted. *)
Definition validateFleetDatadogAgentInstallReplay (a : ManagedAgent Spec) (configID : string) (desired : Spec)
    : option string + error :=
  let dda := ma_dda a in
  match validateFleetOwnedDatadogAgent dda configID, validateNoActiveFleetExperiment dda with
  | Some err, _ | None, Some err => inr err
  | None, None =>
      if bool_decide (is_Some (ma_DeletionTimestamp a))
      then inr (Errorf ("create DatadogAgent: " +:+ dda_Namespace dda +:+ "/" +:+ dda_Name dda +:+ " is terminating"))
      else
        match validateFleetDatadogAgentCredentials dda with
        | Some err => inr err
        | None =>
            if negb (DeepDerivative desired (dda_Spec dda))
            then inr (on_dda dda (" spec does not match Fleet config " +:+ configID))
            else
              match fleetDatadogAgentSpecHash (dda_Spec dda) with
              | inr err => inr (Wrapf "hash live DatadogAgent spec" err)
              | inl liveHash =>
                  if bool_decide (annotation dda fleetConfigHashAnnotation = liveHash) then inl None
                  else
                    match fleetDatadogAgentSpecHash desired with
                    | inr err => inr (Wrapf "hash desired DatadogAgent spec" err)
                    | inl desiredHash =>
                        if bool_decide (label dda fleetManagedAgentInstallationStateLabel
                                        = fleetManagedAgentInstallationStatePartial) &&
                           bool_decide (annotation dda fleetCreateTaskIDAnnotation = configID) &&
                           bool_decide (annotation dda fleetConfigHashAnnotation = desiredHash)
                        then inl (Some liveHash)
                        else inr (on_dda dda (" spec changed after Fleet config " +:+ configID +:+ " was accepted"))
                    end
              end
        end
  end.

Definition validateFleetDatadogAgentInstallCompletion (a : option (ManagedAgent Spec)) (uid configID : string)
    : option error :=
  match a with
  | None => Some (stateDoesntMatchError "Fleet-managed DatadogAgent disappeared before install completion")
  | Some a =>
      let dda := ma_dda a in
      if negb (bool_decide (dda_UID dda = uid)) then Some (on_dda dda " was replaced before install completion")
      else
        match validateFleetOwnedDatadogAgent dda configID, validateFleetDatadogAgentAcceptedSpec dda with
        | Some err, _ | None, Some err => Some err
        | None, None =>
            if negb (bool_decide (label dda fleetManagedAgentInstallationStateLabel
                                  = fleetManagedAgentInstallationStateReady))
            then Some (on_dda dda " is not ready at install completion")
            else None
        end
  end.
End Checks.

(** ** The installation *)

Section Installation.
Context {W Spec : Type} `{InstallClient W Spec, CredentialsOf Spec, !EqDecision Spec}.
Context {HRepeating : Repeating}.
Context (identity : option ManagedAgentInstallationIdentity).
Context (managedAgentInstallationNamespace : string).
Context (decodeConfig : option json → option Spec + error).
Context (spec_Global : Spec → option GlobalCredentials).
Context (fleetDatadogAgentSpecHash : Spec → string + error).
Context (DeepDerivative : Spec → Spec → bool).
(** [v2alpha1.DatadogAgentSpec{}] *)
Context (zeroSpec : Spec).
(** The attempts of [retry.DefaultBackoff] after the first, and the polls of a
    deletion's timeout. *)
Context (conflictRetries polls : nat).

Abbreviation M := (GoM (DaemonState W)).
Abbreviation SpecHash := fleetDatadogAgentSpecHash.
Abbreviation RetryOnConflict := (RetryOnConflict conflictRetries).
Implicit Types (dda : DatadogAgent Spec) (a : ManagedAgent Spec).

Definition managedAgentInstallationKey (name : string) : NamespacedName := (managedAgentInstallationNamespace, name).
Definition target : NamespacedName := managedAgentInstallationTarget managedAgentInstallationNamespace.
Definition managedAgentInstallationCredentialKey : NamespacedName := managedAgentInstallationKey fleetCredentialSecretName.
Definition managedAgentInstallationIntentKey : NamespacedName :=
  managedAgentInstallationKey managedAgentInstallationIntentConfigMapName.
Definition managedAgentInstallationStateKey : NamespacedName :=
  managedAgentInstallationKey managedAgentInstallationStateConfigMapName.
Definition managedAgentInstallationWindowsProfileKey : NamespacedName :=
  managedAgentInstallationKey managedAgentInstallationWindowsProfileName.

Definition validateInstallation (dda : DatadogAgent Spec) : option error :=
  validateFleetDatadogAgentInstallation identity dda.

Definition buildFleetDatadogAgentSpec (raw : option json) : Spec + error :=
  match decodeRemoteDatadogAgentConfig decodeConfig spec_Global raw true with
  | inr err => inr err
  | inl None => inr (Errorf "config must contain spec")
  | inl (Some spec) =>
      inl (set_spec_Credentials
             (mkCredentials None (Some (mkSecretConfig fleetCredentialSecretName fleetCredentialAPIKey)) None None) spec)
  end.

Definition validateFleetCredentialSecret : M unit :=
  let nsn := managedAgentInstallationCredentialKey in
  let notReady := "credential Secret " +:+ nsn.1 +:+ "/" +:+ nsn.2 +:+ " is not ready" in
  secret ← attempt (dcall (inst_GetSecret nsn));
  match secret with
  | inr err => if IsNotFound err then fail (managedAgentInstallationCredentialNotReadyError notReady)
               else fail (Wrapf notReady err)
  | inl data =>
      if bool_decide (get_key data fleetCredentialAPIKey = "")
      then fail (managedAgentInstallationCredentialNotReadyError
             ("credential Secret " +:+ nsn.1 +:+ "/" +:+ nsn.2 +:+ " is missing non-empty key " +:+ fleetCredentialAPIKey))
      else mret tt
  end.

(** [None] when the target does not exist. *)
Definition validateManagedAgentInstallationTarget : M (option (ManagedAgent Spec)) :=
  r ← attempt (dcall (inst_GetAgent target));
  match r with
  | inr err =>
      if IsNotFound err then mret None
      else fail (Wrapf ("get managed DatadogAgent " +:+ target.1 +:+ "/" +:+ target.2) err)
  | inl a =>
      owned ← of_sum (classifyFleetDatadogAgentOwnership (ma_dda a));
      if negb (owned : bool) then fail (on_dda (ma_dda a) " is not owned by Fleet Automation")
      else
        _ ← check (validateInstallation (ma_dda a));
        mret (Some a)
  end.

(** *** Labels and annotations under an optimistic lock *)

Definition recordHashOnce (nsn : NamespacedName) (uid configID acceptedHash : string) : M unit :=
  a ← dcall (inst_GetAgent nsn);
  let dda := ma_dda a in
  if bool_decide (uid = "") || negb (bool_decide (dda_UID dda = uid))
  then fail (on_dda dda " was replaced before the accepted Fleet config hash could be recorded")
  else
    _ ← check (validateFleetOwnedDatadogAgent dda configID);
    _ ← check (validateInstallation dda);
    liveHash ← of_sum (SpecHash (dda_Spec dda));
    if negb (bool_decide (liveHash = acceptedHash))
    then fail (on_dda dda " spec changed before the accepted Fleet config hash could be recorded")
    else if bool_decide (annotation dda fleetConfigHashAnnotation = liveHash) then mret tt
    else dcall (inst_PatchAgent a (set_annotations (<[fleetConfigHashAnnotation := liveHash]> (dda_Annotations dda)) a)).

Definition recordFleetDatadogAgentSpecHash (nsn : NamespacedName) (uid configID acceptedHash : string) : M unit :=
  RetryOnConflict (recordHashOnce nsn uid configID acceptedHash).

Definition markReadyOnce (nsn : NamespacedName) (uid configID : string) : M unit :=
  a ← dcall (inst_GetAgent nsn);
  let dda := ma_dda a in
  if bool_decide (uid = "") || negb (bool_decide (dda_UID dda = uid))
  then fail (on_dda dda " was replaced before its managed Agent installation state could be marked ready")
  else
    _ ← check (validateFleetOwnedDatadogAgent dda configID);
    _ ← check (validateInstallation dda);
    _ ← check (validateFleetDatadogAgentAcceptedSpec SpecHash dda);
    if bool_decide (label dda fleetManagedAgentInstallationStateLabel = fleetManagedAgentInstallationStateReady)
    then mret tt
    else dcall (inst_PatchAgent a (set_labels
           (<[fleetManagedAgentInstallationStateLabel := fleetManagedAgentInstallationStateReady]> (dda_Labels dda)) a)).

Definition markFleetDatadogAgentReady (nsn : NamespacedName) (uid configID : string) : M unit :=
  RetryOnConflict (markReadyOnce nsn uid configID).

Definition markPartialOnce (nsn : NamespacedName) (uid : string) : M string :=
  a ← dcall (inst_GetAgent nsn);
  let dda := ma_dda a in
  if bool_decide (uid = "") || negb (bool_decide (dda_UID dda = uid))
  then fail (on_dda dda " was replaced before its managed Agent installation state could be marked partial")
  else if negb (bool_decide (label dda fleetManagedByLabel = fleetManagedByValue)) ||
          bool_decide (label dda fleetConfigIDLabel = "")
  then fail (on_dda dda " has incomplete or conflicting Fleet ownership metadata")
  else
    _ ← check (validateInstallation dda);
    let configID := label dda fleetConfigIDLabel in
    if bool_decide (label dda fleetManagedAgentInstallationStateLabel = fleetManagedAgentInstallationStatePartial)
    then mret configID
    else
      _ ← dcall (inst_PatchAgent a (set_labels
            (<[fleetManagedAgentInstallationStateLabel := fleetManagedAgentInstallationStatePartial]> (dda_Labels dda)) a));
      mret configID.

Definition markFleetDatadogAgentPartial (nsn : NamespacedName) (uid : string) : M string :=
  RetryOnConflict (markPartialOnce nsn uid).

Definition publishPartial (configID : string) : M unit :=
  setPackageConfigVersions packageDatadogOperator (fleetPartialConfigVersionPrefix +:+ configID) "".

Definition publishFleetDatadogAgentManagedAgentInstallationState (packageName : string) (dda : DatadogAgent Spec)
    (configID : string) : M unit :=
  let reportedConfigID :=
    if negb (bool_decide (label dda fleetManagedAgentInstallationStateLabel = fleetManagedAgentInstallationStateReady))
    then fleetPartialConfigVersionPrefix +:+ configID else configID in
  setPackageConfigVersions packageName reportedConfigID "".

(** Ends the installation with [cause], the DatadogAgent marked partial. *)
Definition retainFleetDatadogAgentPartial {A : Type} (uid : string) (cause : error) : M A :=
  r ← attempt (markFleetDatadogAgentPartial target uid);
  match r with
  | inr err => fail (Join2f cause "; failed to retain the Fleet-managed DatadogAgent as partial: " err)
  | inl configID =>
      _ ← publishPartial configID;
      fail cause
  end.

(** [if err := m; err != nil { return d.retainFleetDatadogAgentPartial(...) }] *)
Definition orRetain {A : Type} (uid : string) (m : M A) : M A :=
  r ← attempt m;
  match r with
  | inl x => mret x
  | inr err => retainFleetDatadogAgentPartial uid err
  end.

(** *** The profile of Windows nodes *)

Definition managedLabels : gmap string string :=
  <[fleetManagedByLabel := fleetManagedByValue]>
  (<[fleetManagedAgentInstallationProviderLabel := Provider identity]>
  (<[fleetInstallationIDLabel := InstallationID identity]> {[ fleetTargetIDLabel := TargetID identity ]})).

Definition managedAgentInstallationWindowsProfile (dda : DatadogAgent Spec) : ManagedProfile Spec :=
  mkManagedProfile managedAgentInstallationWindowsProfileKey.1 managedAgentInstallationWindowsProfileKey.2
    managedLabels {[ ProviderAnnotationKey := WindowsProvider ]}
    [controllerOwnerReference v2alpha1_GroupVersion "DatadogAgent" (dda_Name dda) (dda_UID dda)] None
    (Some [mkNSR LabelOSStable "In" ["windows"]]) (Some zeroSpec).

(** The profile has the labels of this installation. *)
Definition profileOurs (profile : ManagedProfile Spec) : bool :=
  bool_decide (get_key (mp_Labels profile) fleetManagedByLabel = fleetManagedByValue) &&
  bool_decide (get_key (mp_Labels profile) fleetManagedAgentInstallationProviderLabel = Provider identity) &&
  bool_decide (get_key (mp_Labels profile) fleetInstallationIDLabel = InstallationID identity) &&
  bool_decide (get_key (mp_Labels profile) fleetTargetIDLabel = TargetID identity).

Definition on_profile (profile : ManagedProfile Spec) (msg : string) : error :=
  stateDoesntMatchError ("Windows DatadogAgentProfile " +:+ mp_Namespace profile +:+ "/" +:+ mp_Name profile +:+ msg).

Definition validateManagedAgentInstallationWindowsProfile (profile : ManagedProfile Spec) (dda : DatadogAgent Spec)
    : option error :=
  let wanted := managedAgentInstallationWindowsProfile dda in
  if bool_decide (is_Some (mp_DeletionTimestamp profile)) then Some (on_profile profile " is terminating")
  else if negb (profileOurs profile)
  then Some (on_profile profile " has invalid managed Agent installation ownership")
  else if bool_decide (is_Some (requireManagedAgentInstallationWindowsProfileOwner (mp_OwnerReferences profile)
            (controllerOwnerReference v2alpha1_GroupVersion "DatadogAgent" (dda_Name dda) (dda_UID dda))
            (negb (bool_decide (dda_UID dda = "")))))
  then Some (on_profile profile (" is not owned by DatadogAgent " +:+ dda_Namespace dda +:+ "/" +:+ dda_Name dda))
  else if negb (bool_decide (get_key (mp_Annotations profile) ProviderAnnotationKey = WindowsProvider)) ||
          negb (bool_decide (mp_Affinity profile = mp_Affinity wanted) && bool_decide (mp_Config profile = mp_Config wanted))
  then Some (on_profile profile " differs from the pinned managed Agent installation configuration")
  else None.

Definition ensureManagedAgentInstallationWindowsProfile (dda : DatadogAgent Spec) : M unit :=
  r ← attempt (dcall (inst_GetProfile managedAgentInstallationWindowsProfileKey));
  match r with
  | inl current => check (validateManagedAgentInstallationWindowsProfile current dda)
  | inr err =>
      if IsNotFound err
      then wrap "create Windows DatadogAgentProfile" (dcall (inst_CreateProfile (managedAgentInstallationWindowsProfile dda)))
      else fail (Wrapf "read Windows DatadogAgentProfile" err)
  end.

Definition validateManagedAgentInstallationWindowsProfileExists (dda : DatadogAgent Spec) : M unit :=
  profile ← wrap "read Windows DatadogAgentProfile" (dcall (inst_GetProfile managedAgentInstallationWindowsProfileKey));
  check (validateManagedAgentInstallationWindowsProfile profile dda).

Definition isManagedAgentInstallationWindowsProfile (profile : ManagedProfile Spec) (uid : string) : bool :=
  profileOurs profile &&
  bool_decide (requireManagedAgentInstallationWindowsProfileOwner (mp_OwnerReferences profile)
    (controllerOwnerReference v2alpha1_GroupVersion "DatadogAgent" target.2 uid) (negb (bool_decide (uid = ""))) = None).

(** *** Installing *)

Definition validateAndRecoverFleetDatadogAgentInstallReplay (a : ManagedAgent Spec) (configID : string) (desired : Spec)
    : M unit :=
  needsRecording ← of_sum (validateFleetDatadogAgentInstallReplay SpecHash DeepDerivative a configID desired);
  match needsRecording with
  | None => mret tt
  | Some acceptedHash =>
      wrap "record accepted spec after interrupted create"
        (recordFleetDatadogAgentSpecHash (dda_key (ma_dda a)) (dda_UID (ma_dda a)) configID acceptedHash)
  end.

(** The checks an installation ends with, all from the target as it is now. *)
Definition completeInstall (uid configID : string) : M unit :=
  observed ← orRetain uid validateManagedAgentInstallationTarget;
  _ ← orRetain uid (check (validateFleetDatadogAgentInstallCompletion SpecHash observed uid configID));
  match observed with
  | None => panic
  | Some observed =>
      _ ← check (validateInstallation (ma_dda observed));
      orRetain uid (validateManagedAgentInstallationWindowsProfileExists (ma_dda observed))
  end.

(** The target exists: an earlier attempt of this operation, or somebody else's. *)
Definition installExisting (existing : ManagedAgent Spec) (configID : string) (spec : Spec) : M unit :=
  let uid := dda_UID (ma_dda existing) in
  _ ← check (validateInstallation (ma_dda existing));
  _ ← validateAndRecoverFleetDatadogAgentInstallReplay existing configID spec;
  liveConfigID ← wrap "create DatadogAgent: mark managed Agent installation partial before readiness revalidation"
                   (markFleetDatadogAgentPartial target uid);
  _ ← publishPartial liveConfigID;
  _ ← orRetain uid (ensureManagedAgentInstallationWindowsProfile (ma_dda existing));
  _ ← orRetain uid (wrap "create DatadogAgent: mark managed Agent installation ready"
                      (markFleetDatadogAgentReady target uid configID));
  completeInstall uid configID.

(** [Create] failed, but may have taken effect. *)
Definition recoverCreate (createErr : error) (configID : string) (spec : Spec) : M unit :=
  if negb (IsAlreadyExists createErr) && negb (isRetryable createErr)
  then fail (Wrapf "create DatadogAgent" createErr)
  else
    r ← attempt (retryOnError (λ getErr, IsNotFound getErr || isRetryable getErr) conflictRetries
                   (dcall (inst_GetAgent target)));
    match r with
    | inr getErr =>
        fail (Surroundf "create DatadogAgent: create returned " createErr
                (" and the resource could not be recovered: " +:+ error_Error getErr))
    | inl current =>
        _ ← check (validateFleetOwnedDatadogAgent (ma_dda current) configID);
        _ ← check (validateInstallation (ma_dda current));
        _ ← publishPartial configID;
        _ ← validateAndRecoverFleetDatadogAgentInstallReplay current configID spec;
        _ ← orRetain (dda_UID (ma_dda current)) validateManagedAgentInstallationTarget;
        fail (Surroundf "create DatadogAgent: create returned " createErr
                "; recovered Fleet-owned resource remains partial for retry or explicit uninstall")
    end.

Definition newAgent (installationID operationID configHash : string) (spec : Spec) : ManagedAgent Spec :=
  mkManagedAgent (mkDatadogAgent target.1 target.2 "" ""
    (<[fleetManagedByLabel := fleetManagedByValue]>
     (<[fleetConfigIDLabel := operationID]>
     (<[fleetManagedAgentInstallationStateLabel := fleetManagedAgentInstallationStatePartial]>
     (<[fleetManagedAgentInstallationProviderLabel := Provider identity]>
     (<[fleetInstallationIDLabel := installationID]> {[ fleetTargetIDLabel := TargetID identity ]})))))
    (<[fleetConfigHashAnnotation := configHash]> {[ fleetCreateTaskIDAnnotation := operationID ]})
    spec None) None.

(** The created object, [dda], is what the server answered. *)
Definition installCreated (dda : DatadogAgent Spec) (configID : string) : M unit :=
  let uid := dda_UID dda in
  _ ← publishFleetDatadogAgentManagedAgentInstallationState packageDatadogOperator dda configID;
  _ ← orRetain uid validateManagedAgentInstallationTarget;
  acceptedHash ← wrap "create DatadogAgent: hash accepted spec" (of_sum (SpecHash (dda_Spec dda)));
  _ ← wrap "create DatadogAgent: record accepted spec" (recordFleetDatadogAgentSpecHash target uid configID acceptedHash);
  _ ← orRetain uid (ensureManagedAgentInstallationWindowsProfile dda);
  _ ← wrap "create DatadogAgent: mark managed Agent installation ready" (markFleetDatadogAgentReady target uid configID);
  completeInstall uid configID.

Definition resetManagedAgentInstallationCredentialRetries : M unit := modify (set_ds_retryIndex 0).

Definition installDatadogAgent (installationID configID : string) (config : option json) : M unit :=
  spec ← wrap "create DatadogAgent" (of_sum (buildFleetDatadogAgentSpec config));
  _ ← wrap "create DatadogAgent" validateFleetCredentialSecret;
  _ ← resetManagedAgentInstallationCredentialRetries;
  _ ← validateManagedAgentInstallationTarget;
  configHash ← wrap "create DatadogAgent: hash config" (of_sum (SpecHash spec));
  r ← attempt (dcall (inst_GetAgent target));
  match r with
  | inl existing => installExisting existing configID spec
  | inr getErr =>
      if negb (IsNotFound getErr) then fail (Wrapf "create DatadogAgent: failed to check existing resource" getErr)
      else
        created ← attempt (dcall (inst_CreateAgent (newAgent installationID configID configHash spec)));
        match created with
        | inr createErr => recoverCreate createErr configID spec
        | inl created => installCreated (ma_dda created) configID
        end
  end.

(** *** Removing *)

Definition managedAgentInstallationPartOfLabelValue (key : NamespacedName) : string :=
  NewPartOfLabelValue key.1 ∅ key.2.

(** The lists in order, up to the first that is not empty. *)
Fixpoint allListsEmpty (kinds : list ClusterKind) (matchingLabels : gmap string string) : M bool :=
  match kinds with
  | [] => mret true
  | kind :: kinds =>
      n ← dcall (inst_ListCluster kind matchingLabels);
      if negb (bool_decide (n = 0)) then mret false else allListsEmpty kinds matchingLabels
  end.

Definition datadogAgentInternalClusterResourcesRemoved (partOfLabelValue : string) : M bool :=
  allListsEmpty [ClusterRoleList; ClusterRoleBindingList; APIServiceList]
    (<[OperatorStoreLabelKey := "true"]> (<[AppKubernetesPartOfLabelKey := partOfLabelValue]>
     {[ AppKubernetesManageByLabelKey := "datadog-operator" ]})).

Definition managedAgentInstallationResourcesAbsent (deletedUID : string) : M bool :=
  r ← attempt (dcall (inst_GetAgent target));
  match r with
  | inl a =>
      if bool_decide (deletedUID = "") || negb (bool_decide (dda_UID (ma_dda a) = deletedUID))
      then fail (on_dda (ma_dda a) " was recreated while uninstalling")
      else mret false
  | inr err =>
      if negb (IsNotFound err)
      then fail (Wrapf ("get DatadogAgent " +:+ target.1 +:+ "/" +:+ target.2 +:+ " after managed Agent uninstall") err)
      else
        p ← attempt (dcall (inst_GetProfile managedAgentInstallationWindowsProfileKey));
        waiting ← match p with
                  | inl profile => mret (isManagedAgentInstallationWindowsProfile profile deletedUID)
                  | inr err => if IsNotFound err then mret false
                               else fail (Wrapf "read Windows DatadogAgentProfile after managed Agent uninstall" err)
                  end;
        if (waiting : bool) then mret false
        else
          n ← wrap "list managed DatadogAgentInternal resources"
                (dcall (inst_ListInternals
                   (<[fleetManagedAgentInstallationProviderLabel := Provider identity]>
                    (<[fleetInstallationIDLabel := InstallationID identity]>
                     {[ fleetTargetIDLabel := TargetID identity ]}))));
          if negb (bool_decide (n = 0)) then mret false
          else wrap "list managed DatadogAgent dependents"
                 (datadogAgentInternalClusterResourcesRemoved (managedAgentInstallationPartOfLabelValue target))
  end.

Definition waitForManagedAgentInstallationResourcesAbsent (deletedUID : string) : M unit :=
  pollImmediate polls (managedAgentInstallationResourcesAbsent deletedUID).

Definition uninstallDatadogAgent : M unit :=
  _ ← validateManagedAgentInstallationTarget;
  r ← attempt (dcall (inst_GetAgent target));
  match r with
  | inr getErr =>
      if IsNotFound getErr
      then wrap "delete DatadogAgent: waiting for remaining resource removal"
             (waitForManagedAgentInstallationResourcesAbsent "")
      else fail (Wrapf "delete DatadogAgent: failed to get resource" getErr)
  | inl a =>
      owned ← of_sum (classifyFleetDatadogAgentOwnership (ma_dda a));
      if negb (owned : bool) then fail (on_dda (ma_dda a) " is not owned by Fleet Automation")
      else
        _ ← check (validateInstallation (ma_dda a));
        _ ← validateManagedAgentInstallationTarget;
        r ← attempt (dcall (inst_DeleteAgent a));
        _ ← match r with
            | inr err => if IsNotFound err then mret tt else fail (Wrapf "delete DatadogAgent" err)
            | inl _ => mret tt
            end;
        wrap "delete DatadogAgent: waiting for resource removal"
          (waitForManagedAgentInstallationResourcesAbsent (dda_UID (ma_dda a)))
  end.
End Installation.
