(* ===== verification/InstallIntent.v ===== *)
(** * The intents of a managed Agent installation.

    Models [pkg/fleet/managed_agent_installation_intent.go], [..._intent_eks.go],
    [..._state.go] and [..._command.go]: a ConfigMap says what is to be
    installed, another one how far it got.  The intent is decoded, compared with
    the recorded progress, and carried out by at most one task at a time; the
    worker that reads it and the task run under [transitionMu] and [taskMu], and
    [waitDone] stands for waiting for the other one. *)

From Stdlib Require Import ZArith.
From stdpp Require Import base gmap strings list.
From S2P Require Import Prelude GoRun Cluster Experiment Status Profiles Objects Store FleetData Fleet Identity Install.

(** ** Intents *)

Definition managedAgentInstallationIntentDataKey : string := "intent.json".
Definition managedAgentInstallationVersion : string := "v1".
Definition managedAgentInstallationMaxIntentSize : nat := 256 * 1024.

Definition managedAgentInstallationRetryInterval : Z := Second.
Definition managedAgentInstallationCredentialRetryDelays : list Z :=
  [Second; 2 * Second; 4 * Second; 8 * Second]%Z.

(** The desired states the source names; an intent may hold any text. *)
Definition managedAgentInstallationDesiredStateInstalled : string := "installed".
Definition managedAgentInstallationDesiredStateAbsent : string := "absent".

Record managedAgentInstallationBootstrap := mkBootstrap { bs_ClusterName : string; bs_Site : string }.

Record managedAgentInstallationIntent := mkIntent {
  int_Version : string;
  int_Provider : string;
  int_InstallationID : string;
  int_TargetID : string;
  int_OperationID : string;
  int_DesiredState : string;
  int_AcknowledgedOperationID : string;
  int_Bootstrap : managedAgentInstallationBootstrap
}.

Record normalizedManagedAgentInstallationIntent := mkNormalized {
  nor_Version : string;
  nor_Provider : string;
  nor_InstallationID : string;
  nor_TargetID : string;
  nor_OperationID : string;
  nor_DesiredState : string;
  nor_Bootstrap : managedAgentInstallationBootstrap
}.

Record eksManagedAgentInstallationIntent := mkEKSIntent {
  eki_Version : string;
  eki_InstallationID : string;
  eki_EKSARNSHA256 : string;
  eki_OperationID : string;
  eki_DesiredState : string;
  eki_AcknowledgedOperationID : string;
  eki_Bootstrap : managedAgentInstallationBootstrap
}.

Definition allowedManagedAgentInstallationSites : list string :=
  ["datadoghq.com"; "datadoghq.eu"; "us3.datadoghq.com"; "us5.datadoghq.com"; "ddog-gov.com"; "ap1.datadoghq.com";
   "ap2.datadoghq.com"].

Definition validateManagedAgentInstallationBootstrap (bootstrap : managedAgentInstallationBootstrap) : option error :=
  let name := bs_ClusterName bootstrap in
  if negb (bool_decide (TrimSpace name = name)) || bool_decide (name = "") || bool_decide (100 < String.length name)
  then Some (Errorf "managed Agent installation bootstrap cluster name is invalid")
  else if negb (bool_decide (bs_Site bootstrap ∈ allowedManagedAgentInstallationSites))
  then Some (Errorf ("managed Agent installation bootstrap site " +:+ bs_Site bootstrap +:+ " is unsupported"))
  else None.

(** The JSON of the configuration: the fields that are set. *)
Definition managedAgentInstallationBootstrapConfig (bootstrap : managedAgentInstallationBootstrap) : json :=
  let linuxSelector := JObj {[ "nodeSelector" := JObj {[ LabelOSStable := JStr "linux" ]} ]} in
  JObj {[ "spec" := JObj
    (<["global" := JObj (<["clusterName" := JStr (bs_ClusterName bootstrap)]> {[ "site" := JStr (bs_Site bootstrap) ]})]>
     {[ "override" := JObj (<["nodeAgent" := linuxSelector]> {[ "clusterAgent" := linuxSelector ]}) ]}) ]}.

Definition validateCanonicalUUID `{UUIDs} (field value : string) : option error :=
  if canonicalUUID value then None
  else Some (Errorf ("managed Agent installation " +:+ field +:+ " must be a canonical non-zero UUID")).

Section Decode.
Context `{UUIDs}.
(** The strict decoding of an intent, and whether anything follows it. *)
Context (decodeEKSIntent : string → eksManagedAgentInstallationIntent + error) (trailingContent : string → bool).
(** The SHA-256, in hexadecimal, of the JSON of an intent. *)
Context (digestOf : normalizedManagedAgentInstallationIntent → string + error).
Context (identity : option ManagedAgentInstallationIdentity).

Definition eksConfig (i : eksManagedAgentInstallationIntent) : option json + error :=
  if bool_decide (eki_DesiredState i = managedAgentInstallationDesiredStateInstalled)
  then inl (Some (managedAgentInstallationBootstrapConfig (eki_Bootstrap i)))
  else if bool_decide (eki_DesiredState i = managedAgentInstallationDesiredStateAbsent) then inl (Some (JObj ∅))
  else inr (Errorf ("unsupported EKS managed Agent installation desired state " +:+ eki_DesiredState i)).

(** The acknowledged operation, if any, is a UUID, and for an install its own. *)
Definition validateAcknowledgement (i : eksManagedAgentInstallationIntent) : option error :=
  if bool_decide (eki_AcknowledgedOperationID i = "") then None
  else match validateCanonicalUUID "acknowledged_operation_id" (eki_AcknowledgedOperationID i) with
       | Some err => Some err
       | None =>
           if bool_decide (eki_DesiredState i = managedAgentInstallationDesiredStateInstalled) &&
              negb (bool_decide (eki_AcknowledgedOperationID i = eki_OperationID i))
           then Some (Errorf "EKS managed Agent installation acknowledgement must match the active install operation")
           else None
       end.

Definition decodeEKSManagedAgentInstallationIntent (raw : string)
    : (managedAgentInstallationIntent * option json * string) + error :=
  if bool_decide (raw = "")
  then inr (Errorf ("EKS managed Agent installation intent is missing " +:+ managedAgentInstallationIntentDataKey))
  else if bool_decide (managedAgentInstallationMaxIntentSize < String.length raw)
  then inr (Errorf "EKS managed Agent installation intent exceeds 262144 bytes")
  else
    match decodeEKSIntent raw with
    | inr err => inr (Wrapf "decode EKS managed Agent installation intent" err)
    | inl i =>
        let intentIdentity := NewEKSManagedAgentInstallationIdentity (eki_InstallationID i) (eki_EKSARNSHA256 i) in
        if trailingContent raw
        then inr (Errorf "decode EKS managed Agent installation intent: trailing JSON content")
        else if negb (bool_decide (eki_Version i = managedAgentInstallationVersion))
        then inr (Errorf ("unsupported EKS managed Agent installation version " +:+ eki_Version i))
        else match Validate intentIdentity with
        | Some err => inr (Wrapf "invalid EKS managed Agent installation identity" err)
        | None =>
        if negb (bool_decide (InstallationID intentIdentity = InstallationID identity))
        then inr (Errorf "EKS managed Agent installation ID does not match the local installation")
        else if negb (bool_decide (TargetID intentIdentity = TargetID identity))
        then inr (Errorf "EKS managed Agent installation ARN hash does not match the local installation")
        else match validateCanonicalUUID "operation_id" (eki_OperationID i), validateAcknowledgement i,
                   validateManagedAgentInstallationBootstrap (eki_Bootstrap i) with
        | Some err, _, _ | None, Some err, _ | None, None, Some err => inr err
        | None, None, None =>
            match eksConfig i with
            | inr err => inr err
            | inl normalizedConfig =>
                let intent := mkIntent (eki_Version i) ManagedAgentInstallationProviderEKS (eki_InstallationID i)
                  (TargetID intentIdentity) (eki_OperationID i) (eki_DesiredState i) (eki_AcknowledgedOperationID i)
                  (eki_Bootstrap i) in
                match digestOf (mkNormalized (int_Version intent) (int_Provider intent) (int_InstallationID intent)
                        (int_TargetID intent) (int_OperationID intent) (int_DesiredState intent) (int_Bootstrap intent)) with
                | inr err => inr (Wrapf "encode normalized EKS managed Agent installation intent" err)
                | inl digest => inl (intent, normalizedConfig, digest)
                end
            end
        end
        end
    end.

Definition decodeManagedAgentInstallationIntent (raw : string)
    : (managedAgentInstallationIntent * option json * string) + error :=
  if bool_decide (Provider identity = ManagedAgentInstallationProviderEKS)
  then decodeEKSManagedAgentInstallationIntent raw
  else inr (Errorf ("unsupported managed Agent installation provider " +:+ Provider identity)).
End Decode.

(** ** Recorded progress *)

Record managedAgentInstallationPersistedState := mkPersisted {
  pst_Provider : string;
  pst_InstallationID : string;
  pst_TargetID : string;
  pst_OperationID : string;
  pst_Digest : string;
  pst_DesiredState : string;
  pst_AcknowledgedOperationID : string;
  pst_TaskState : TaskState;
  pst_Error : string
}.

Definition set_pst_Acknowledged (op : string) (p : managedAgentInstallationPersistedState) :=
  mkPersisted (pst_Provider p) (pst_InstallationID p) (pst_TargetID p) (pst_OperationID p) (pst_Digest p)
    (pst_DesiredState p) op (pst_TaskState p) (pst_Error p).

(** [pbgo.TaskState.String] *)
Definition TaskState_String (s : TaskState) : string :=
  match s with
  | TaskState_IDLE => "IDLE"
  | TaskState_RUNNING => "RUNNING"
  | TaskState_DONE => "DONE"
  | TaskState_INVALID_STATE => "INVALID_STATE"
  | TaskState_ERROR => "ERROR"
  end.

Definition parseManagedAgentInstallationTaskState (value : string) : TaskState + error :=
  match filter (λ s, TaskState_String s = value)
          [TaskState_RUNNING; TaskState_DONE; TaskState_ERROR; TaskState_INVALID_STATE] with
  | s :: _ => inl s
  | [] => inr (Errorf ("managed Agent installation state has unsupported task state " +:+ value))
  end.

Definition managedAgentInstallationStateProviderKey : string := "provider".
Definition managedAgentInstallationStateInstallationIDKey : string := "installation_id".
Definition managedAgentInstallationStateTargetIDKey : string := "target_id".
Definition managedAgentInstallationStateOperationIDKey : string := "operation_id".
Definition managedAgentInstallationStateDigestKey : string := "intent_digest".
Definition managedAgentInstallationStateDesiredStateKey : string := "desired_state".
Definition managedAgentInstallationStateAcknowledgedKey : string := "acknowledged_operation_id".
Definition managedAgentInstallationStateTaskStateKey : string := "task_state".
Definition managedAgentInstallationStateErrorKey : string := "error".
Definition managedAgentInstallationAckTagPrefix : string := "managed_agent_installation_ack:".

Definition managedAgentInstallationStateData (state : managedAgentInstallationPersistedState) : gmap string string :=
  list_to_map
    [(managedAgentInstallationStateProviderKey, pst_Provider state);
     (managedAgentInstallationStateInstallationIDKey, pst_InstallationID state);
     (managedAgentInstallationStateTargetIDKey, pst_TargetID state);
     (managedAgentInstallationStateOperationIDKey, pst_OperationID state);
     (managedAgentInstallationStateDigestKey, pst_Digest state);
     (managedAgentInstallationStateDesiredStateKey, pst_DesiredState state);
     (managedAgentInstallationStateAcknowledgedKey, pst_AcknowledgedOperationID state);
     (managedAgentInstallationStateTaskStateKey, TaskState_String (pst_TaskState state));
     (managedAgentInstallationStateErrorKey, pst_Error state)].

Definition isDesiredState (s : string) : bool :=
  bool_decide (s = managedAgentInstallationDesiredStateInstalled) ||
  bool_decide (s = managedAgentInstallationDesiredStateAbsent).

(** The second half of [readManagedAgentInstallationState]. *)
Definition parseManagedAgentInstallationState (data : gmap string string)
    : managedAgentInstallationPersistedState + error :=
  match parseManagedAgentInstallationTaskState (get_key data managedAgentInstallationStateTaskStateKey) with
  | inr err => inr err
  | inl taskState =>
      let state := mkPersisted
        (get_key data managedAgentInstallationStateProviderKey)
        (get_key data managedAgentInstallationStateInstallationIDKey)
        (get_key data managedAgentInstallationStateTargetIDKey)
        (get_key data managedAgentInstallationStateOperationIDKey)
        (get_key data managedAgentInstallationStateDigestKey)
        (get_key data managedAgentInstallationStateDesiredStateKey)
        (get_key data managedAgentInstallationStateAcknowledgedKey)
        taskState
        (get_key data managedAgentInstallationStateErrorKey) in
      if bool_decide (pst_Provider state = "") || bool_decide (pst_InstallationID state = "") ||
         bool_decide (pst_TargetID state = "") || bool_decide (pst_OperationID state = "") ||
         bool_decide (pst_Digest state = "")
      then inr (Errorf "managed Agent installation state is incomplete")
      else if negb (isDesiredState (pst_DesiredState state))
      then inr (Errorf ("managed Agent installation state has unsupported desired state " +:+ pst_DesiredState state))
      else inl state
  end.

Definition validateManagedAgentInstallationProgress (current : option managedAgentInstallationPersistedState)
    (intent : managedAgentInstallationIntent) (digest : string) : option error :=
  let installed s := bool_decide (s = managedAgentInstallationDesiredStateInstalled) in
  let absent s := bool_decide (s = managedAgentInstallationDesiredStateAbsent) in
  let ack := int_AcknowledgedOperationID intent in
  match current with
  | None =>
      if negb (installed (int_DesiredState intent)) || negb (bool_decide (ack = ""))
      then Some (Errorf "the first managed Agent installation request must be an unacknowledged install")
      else None
  | Some current =>
      let currentAck := pst_AcknowledgedOperationID current in
      if negb (bool_decide (pst_Provider current = int_Provider intent)) ||
         negb (bool_decide (pst_InstallationID current = int_InstallationID intent)) ||
         negb (bool_decide (pst_TargetID current = int_TargetID intent))
      then Some (Errorf "persisted managed Agent installation state belongs to a different installation")
      else if bool_decide (int_OperationID intent = pst_OperationID current) then
        if negb (bool_decide (digest = pst_Digest current))
        then Some (Errorf ("managed Agent installation operation " +:+ int_OperationID intent +:+
                           " was replayed with different content"))
        else if installed (pst_DesiredState current) then
          if bool_decide (currentAck = "") && (bool_decide (ack = "") || bool_decide (ack = int_OperationID intent))
          then None
          else if bool_decide (currentAck = int_OperationID intent) && bool_decide (ack = int_OperationID intent)
          then None
          else Some (Errorf "managed Agent installation install acknowledgement regressed or changed")
        else if negb (bool_decide (ack = currentAck))
        then Some (Errorf "managed Agent installation uninstall acknowledgement changed")
        else None
      else if absent (pst_DesiredState current)
      then Some (Errorf "managed Agent installation install cannot follow an accepted uninstall")
      else if negb (absent (int_DesiredState intent))
      then Some (Errorf "a new managed Agent installation operation must uninstall the existing installation")
      else if negb (bool_decide (ack = currentAck))
      then Some (Errorf "managed Agent installation uninstall must retain the install acknowledgement")
      else None
  end.

(** ** Commands *)

Record managedAgentInstallationCommand := mkCommand {
  cmd_Intent : managedAgentInstallationIntent;
  cmd_Config : option json;
  cmd_Digest : string
}.

Definition managedAgentInstallationStateFromCommand (command : managedAgentInstallationCommand) (taskState : TaskState)
    (taskErr : option error) : managedAgentInstallationPersistedState :=
  let intent := cmd_Intent command in
  mkPersisted (int_Provider intent) (int_InstallationID intent) (int_TargetID intent) (int_OperationID intent)
    (cmd_Digest command) (int_DesiredState intent) (int_AcknowledgedOperationID intent) taskState
    (from_option boundedTaskErrorMessage "" taskErr).

(** [defer f()] before [m] *)
Definition deferred {S A : Type} (f : S → S) (m : GoM S A) : GoM S A := λ s,
  let (s', o) := m s in (f s', o).

Section Intents.
Context {W Spec : Type} `{InstallClient W Spec, CredentialsOf Spec, !EqDecision Spec, UUIDs}.
Context {HRepeating : Repeating}.
Context (identity : option ManagedAgentInstallationIdentity).
Context (namespace : string).
Context (decodeConfig : option json → option Spec + error).
Context (spec_Global : Spec → option GlobalCredentials).
Context (fleetDatadogAgentSpecHash : Spec → string + error).
Context (DeepDerivative : Spec → Spec → bool).
Context (zeroSpec : Spec).
Context (conflictRetries polls : nat).
Context (decodeEKSIntent : string → eksManagedAgentInstallationIntent + error) (trailingContent : string → bool).
Context (digestOf : normalizedManagedAgentInstallationIntent → string + error).

Abbreviation M := (GoM (DaemonState W)).
Abbreviation stateKey := (managedAgentInstallationStateKey namespace).
Abbreviation intentKey := (managedAgentInstallationIntentKey namespace).
Abbreviation agentKey := (target namespace).
Abbreviation persisted := managedAgentInstallationPersistedState.

(** [managedAgentInstallationTaskRunner], nil to run the task at once. *)
Context (taskRunner : option (M unit → M unit)).
(** [<-done], or the error of the context. *)
Context (waitDone : M unit).
(** [RefreshUpdaterTags] of the remote configuration client, where it has one. *)
Context (refresher : option (M unit)).

(** *** The state ConfigMap *)

Definition validateManagedAgentInstallationStateOwner (state : StateConfigMap) : M unit :=
  intent ← wrap "read managed Agent installation intent owner" (dcall (inst_GetConfigMap intentKey));
  wrap "validate managed Agent installation state ownership"
    (check (requireManagedAgentInstallationResourceOwner (cm_OwnerReferences state)
              (controllerOwnerReference "v1" "ConfigMap" (cm_Name intent) (cm_UID intent)))).

Definition readManagedAgentInstallationState : M (option persisted) :=
  r ← attempt (dcall (inst_GetConfigMap stateKey));
  match r with
  | inr err => if IsNotFound err then mret None else fail (Wrapf "read managed Agent installation state" err)
  | inl configMap =>
      _ ← validateManagedAgentInstallationStateOwner configMap;
      state ← of_sum (parseManagedAgentInstallationState (cm_Data configMap));
      mret (Some state)
  end.

(** The ConfigMap of a first state, owned by the intent. *)
Definition newStateConfigMap (intent : StateConfigMap) (state : persisted) : StateConfigMap :=
  mkStateConfigMap stateKey.1 stateKey.2 "" "" {[ "app.kubernetes.io/managed-by" := "datadog-operator" ]}
    [mkOwnerReference "v1" "ConfigMap" (cm_Name intent) (cm_UID intent) (Some true) None]
    (managedAgentInstallationStateData state).

Definition writeStateOnce (state : persisted) (expectedOperationID : string) : M unit :=
  r ← attempt (dcall (inst_ClientGetConfigMap stateKey));
  match r with
  | inr getErr =>
      if negb (IsNotFound getErr) then fail getErr
      else if negb (bool_decide (expectedOperationID = ""))
      then fail (Errorf ("managed Agent installation state is missing for operation " +:+ expectedOperationID))
      else
        intent ← wrap "read managed Agent installation intent owner" (dcall (inst_GetConfigMap intentKey));
        dcall (inst_CreateConfigMap (newStateConfigMap intent state))
  | inl current =>
      _ ← validateManagedAgentInstallationStateOwner current;
      if negb (bool_decide (expectedOperationID = "")) &&
         negb (bool_decide (get_key (cm_Data current) managedAgentInstallationStateOperationIDKey = expectedOperationID))
      then mret tt
      else dcall (inst_PatchConfigMap current (set_cm_Data (managedAgentInstallationStateData state) current))
  end.

Definition writeManagedAgentInstallationStateForOperation (state : persisted) (expectedOperationID : string) : M unit :=
  RetryOnConflict conflictRetries (writeStateOnce state expectedOperationID).

Definition writeManagedAgentInstallationState (state : persisted) : M unit :=
  writeManagedAgentInstallationStateForOperation state "".
Definition writeManagedAgentInstallationResult (state : persisted) : M unit :=
  writeManagedAgentInstallationStateForOperation state (pst_OperationID state).

Definition recordManagedAgentInstallationResult (command : managedAgentInstallationCommand) (taskState : TaskState)
    (taskErr : option error) : M unit :=
  wrap ("persist managed Agent installation result for operation " +:+ int_OperationID (cmd_Intent command))
    (writeManagedAgentInstallationResult (managedAgentInstallationStateFromCommand command taskState taskErr)).

(** *** Retries *)

Definition requestManagedAgentInstallationRetryAfterDelay (delay : Z) : M unit :=
  modify (λ s, set_ds_timers (ds_timers s ++ [delay]) s).
Definition requestManagedAgentInstallationRetryAfter : M unit :=
  requestManagedAgentInstallationRetryAfterDelay managedAgentInstallationRetryInterval.

Definition scheduleManagedAgentInstallationCredentialRetry : M bool :=
  _ ← modify (set_ds_reserved false);
  i ← gets ds_retryIndex;
  match managedAgentInstallationCredentialRetryDelays !! i with
  | None => mret false
  | Some delay =>
      _ ← modify (set_ds_retryIndex (S i));
      _ ← requestManagedAgentInstallationRetryAfterDelay delay;
      mret true
  end.

(** *** Tasks *)

Definition finishManagedAgentInstallationTaskLocked (operationID : string) (s : DaemonState W) : DaemonState W :=
  if negb (bool_decide (ds_operationID s = operationID)) then s
  else set_ds_done false (set_ds_cancel None (set_ds_operationID "" (set_ds_active false s))).

Definition finishManagedAgentInstallationTaskAndRelease (operationID : string) : M bool :=
  current ← gets ds_operationID;
  if negb (bool_decide (current = operationID)) then mret false
  else
    _ ← modify (finishManagedAgentInstallationTaskLocked operationID);
    _ ← modify (set_ds_reserved false);
    mret true.

Definition validateManagedAgentInstallationCommand (command : managedAgentInstallationCommand) : option error :=
  let intent := cmd_Intent command in
  if bool_decide (int_OperationID intent = "")
  then Some (stateDoesntMatchError "DatadogAgent managed Agent installation operation ID is required")
  else if negb (Configured identity) || bool_decide (is_Some (Validate identity))
  then Some (stateDoesntMatchError "DatadogAgent managed Agent installation identity is invalid")
  else if negb (bool_decide (int_InstallationID intent = InstallationID identity))
  then Some (stateDoesntMatchError "DatadogAgent managed Agent installation ID does not match the local managed installation configuration")
  else if negb (bool_decide (int_Provider intent = Provider identity)) ||
          negb (bool_decide (int_TargetID intent = TargetID identity))
  then Some (stateDoesntMatchError "managed Agent installation command belongs to a different provider target")
  else if negb (isDesiredState (int_DesiredState intent))
  then Some (stateDoesntMatchError "local managed Agent installation intent requested an unsupported desired state")
  else None.

Definition managedAgentInstallationShouldWaitForFleet (desiredState : string) : M bool :=
  versions ← getPackageConfigVersions packageDatadogOperator;
  if bool_decide (desiredState = managedAgentInstallationDesiredStateInstalled) && negb (bool_decide (versions.2 = ""))
  then mret true
  else
    r ← attempt (dcall (inst_GetAgent agentKey));
    match r with
    | inr err => if IsNotFound err then mret false
                 else fail (Wrapf "check managed Agent installation target for a Fleet task" err)
    | inl a =>
        let dda := ma_dda a in
        if bool_decide (is_Some (pendingOperationFromAnnotations (dda_key dda) (dda_Annotations dda))) then mret true
        else if bool_decide (desiredState = managedAgentInstallationDesiredStateAbsent) then mret false
        else mret (from_option (λ e, negb (isTerminalPhase (exp_Phase e))) false (dda_Experiment dda))
    end.

Definition dispatchManagedAgentInstallationCommand (command : managedAgentInstallationCommand) : M unit :=
  let intent := cmd_Intent command in
  if bool_decide (int_DesiredState intent = managedAgentInstallationDesiredStateInstalled)
  then installDatadogAgent identity namespace decodeConfig spec_Global fleetDatadogAgentSpecHash DeepDerivative zeroSpec
         conflictRetries (int_InstallationID intent) (int_OperationID intent) (cmd_Config command)
  else if bool_decide (int_DesiredState intent = managedAgentInstallationDesiredStateAbsent)
  then uninstallDatadogAgent identity namespace polls
  else fail (Errorf ("unknown managed Agent installation desired state " +:+ int_DesiredState intent)).

(** [ctx.Err() == nil] *)
Definition ctxAlive : M bool :=
  cancelled ← gets (λ s, bool_decide (ds_cancel s = Some true));
  parent ← dcall inst_CtxErr;
  mret (negb (cancelled || parent)).

(** Records a result; a failure to do so asks for a retry and joins [err]. *)
Definition recordOrRetry (command : managedAgentInstallationCommand) (taskState : TaskState) (err : error) : M unit :=
  r ← attempt (recordManagedAgentInstallationResult command taskState (Some err));
  match r with
  | inl _ => mret tt
  | inr persistErr =>
      _ ← requestManagedAgentInstallationRetryAfter;
      fail (errors_Join err persistErr)
  end.

Definition reject (command : managedAgentInstallationCommand) (resultState : TaskState) (err : error) : M unit :=
  _ ← recordOrRetry command resultState err;
  _ ← setTaskState packageDatadogOperator (int_OperationID (cmd_Intent command)) resultState (Some err);
  _ ← modify (set_ds_reserved false);
  fail err.

Definition installationFailed (command : managedAgentInstallationCommand) (err : error) : M unit :=
  waits ← (if isCredentialNotReady err then ctxAlive else mret false);
  if (waits : bool) then
    _ ← recordOrRetry command TaskState_RUNNING err;
    _ ← scheduleManagedAgentInstallationCredentialRetry;
    fail err
  else
    alive ← (if isStateDoesntMatch err then mret false else ctxAlive);
    if alive && isRetryable err then
      _ ← recordOrRetry command TaskState_RUNNING err;
      _ ← requestManagedAgentInstallationRetryAfter;
      fail err
    else reject command (if isStateDoesntMatch err then TaskState_INVALID_STATE else TaskState_ERROR) err.

Definition executeManagedAgentInstallationCommand (command : managedAgentInstallationCommand) : M unit :=
  let intent := cmd_Intent command in
  deferred (finishManagedAgentInstallationTaskLocked (int_OperationID intent)) (
    r ← attempt (dispatchManagedAgentInstallationCommand command);
    match r with
    | inr err => installationFailed command err
    | inl _ =>
        r ← attempt (recordManagedAgentInstallationResult command TaskState_DONE None);
        match r with
        | inr err =>
            _ ← requestManagedAgentInstallationRetryAfter;
            fail err
        | inl _ =>
            _ ← (if bool_decide (int_DesiredState intent = managedAgentInstallationDesiredStateInstalled)
                 then setPackageConfigVersions packageDatadogOperator (int_OperationID intent) ""
                 else when (bool_decide (int_DesiredState intent = managedAgentInstallationDesiredStateAbsent))
                        (setPackageConfigVersions packageDatadogOperator "" ""));
            setTaskState packageDatadogOperator (int_OperationID intent) TaskState_DONE None
        end
    end).

Definition handleManagedAgentInstallationCommand (command : managedAgentInstallationCommand) : M unit :=
  let operationID := int_OperationID (cmd_Intent command) in
  waitForFleet ← managedAgentInstallationShouldWaitForFleet (int_DesiredState (cmd_Intent command));
  if (waitForFleet : bool) then modify (set_ds_waiting true)
  else
    _ ← modify (set_ds_waiting false);
    active ← gets ds_active;
    if (active : bool)
    then fail (stateDoesntMatchError "a DatadogAgent managed Agent installation transition is already in progress")
    else
      match validateManagedAgentInstallationCommand command with
      | Some err => reject command TaskState_INVALID_STATE err
      | None =>
          _ ← modify (λ s, set_ds_done true (set_ds_cancel (Some false) (set_ds_operationID operationID
                             (set_ds_reserved true (set_ds_active true s)))));
          _ ← setTaskState packageDatadogOperator operationID TaskState_RUNNING None;
          r ← attempt (writeManagedAgentInstallationState
                         (managedAgentInstallationStateFromCommand command TaskState_RUNNING None));
          match r with
          | inr err =>
              finished ← finishManagedAgentInstallationTaskAndRelease operationID;
              _ ← when finished requestManagedAgentInstallationRetryAfter;
              fail (Wrapf "persist accepted managed Agent installation intent" err)
          | inl _ =>
              match taskRunner with
              | None => executeManagedAgentInstallationCommand command
              | Some run => run (r ← attempt (executeManagedAgentInstallationCommand command); mret tt)
              end
          end
      end.

(** *** The worker *)

Definition waitForManagedAgentInstallationSlot (intent : managedAgentInstallationIntent) : M unit :=
  active ← gets ds_active;
  if negb active then mret tt
  else
    activeOperationID ← gets ds_operationID;
    cancel ← gets ds_cancel;
    hasDone ← gets ds_done;
    _ ← when (bool_decide (int_DesiredState intent = managedAgentInstallationDesiredStateAbsent) &&
              negb (bool_decide (int_OperationID intent = activeOperationID)) && bool_decide (is_Some cancel))
          (modify (set_ds_cancel (Some true)));
    if negb hasDone then fail (Errorf "active managed Agent installation operation has no completion signal")
    else wrap "waiting for active managed Agent installation operation" waitDone.

Definition refreshManagedAgentInstallationUpdaterTags : M unit :=
  rc ← gets ds_rc;
  match rc, refresher with
  | None, _ => mret tt
  | Some _, None => fail (Errorf "Remote Configuration client does not support updater tag refresh")
  | Some _, Some refresh => wrap "refresh Remote Configuration updater tags for managed Agent installation" refresh
  end.

Definition validateAcknowledgedManagedAgentInstallation : M (ManagedAgent Spec) :=
  r ← validateManagedAgentInstallationTarget identity namespace;
  match r with
  | None => fail (Errorf "managed Agent installation target is absent after install acknowledgement")
  | Some a =>
      _ ← check (validateFleetDatadogAgentManagedAgentInstallationReady (ma_dda a));
      _ ← validateManagedAgentInstallationWindowsProfileExists identity namespace zeroSpec (ma_dda a);
      mret a
  end.

Definition reconcileAcknowledgedManagedAgentInstallation (current : option persisted) : M unit :=
  match current with
  | Some current =>
      if negb (bool_decide (pst_DesiredState current = managedAgentInstallationDesiredStateInstalled)) ||
         negb (bool_decide (pst_TaskState current = TaskState_DONE)) ||
         negb (bool_decide (pst_AcknowledgedOperationID current = pst_OperationID current))
      then fail (Errorf "managed Agent installation acknowledgement state is incomplete")
      else
        a ← validateAcknowledgedManagedAgentInstallation;
        wasReserved ← gets ds_reserved;
        _ ← modify (set_ds_reserved false);
        _ ← when wasReserved (modify (λ s,
              if bool_decide (length (ds_statusUpdates s) < 128)
              then set_ds_statusUpdates (ds_statusUpdates s ++ [newDDAStatusSnapshot (ma_dda a)]) s else s));
        refreshManagedAgentInstallationUpdaterTags
  | None => fail (Errorf "managed Agent installation acknowledgement state is incomplete")
  end.

Definition acknowledgeManagedAgentInstallationInstall (current : option persisted)
    (intent : managedAgentInstallationIntent) : M unit :=
  match current with
  | None => fail (Errorf "managed Agent installation install cannot be acknowledged before matching completion")
  | Some current =>
      if negb (bool_decide (pst_DesiredState current = managedAgentInstallationDesiredStateInstalled)) ||
         negb (bool_decide (pst_OperationID current = int_OperationID intent)) ||
         negb (bool_decide (pst_TaskState current = TaskState_DONE))
      then fail (Errorf "managed Agent installation install cannot be acknowledged before matching completion")
      else if negb (bool_decide (pst_AcknowledgedOperationID current = "")) &&
              negb (bool_decide (pst_AcknowledgedOperationID current = int_OperationID intent))
      then fail (Errorf "managed Agent installation install is already acknowledged by a different operation")
      else
        a ← wrap "read DatadogAgent before bootstrap acknowledgement" (dcall (inst_GetAgent agentKey));
        _ ← check (validateFleetDatadogAgentInstallCompletion fleetDatadogAgentSpecHash (Some a) (dda_UID (ma_dda a))
                     (pst_OperationID current));
        _ ← validateManagedAgentInstallationWindowsProfileExists identity namespace zeroSpec (ma_dda a);
        let current := set_pst_Acknowledged (int_OperationID intent) current in
        _ ← wrap "persist managed Agent installation acknowledgement" (writeManagedAgentInstallationState current);
        reconcileAcknowledgedManagedAgentInstallation (Some current)
  end.

Definition errorOfText (msg : string) : option error := if bool_decide (msg = "") then None else Some (Errorf msg).

Definition reconcileTerminalManagedAgentInstallation (current : persisted) (command : managedAgentInstallationCommand)
    : M unit :=
  match pst_TaskState current with
  | TaskState_DONE => handleManagedAgentInstallationCommand command
  | TaskState_ERROR | TaskState_INVALID_STATE =>
      _ ← setTaskState packageDatadogOperator (pst_OperationID current) (pst_TaskState current)
            (errorOfText (pst_Error current));
      modify (set_ds_reserved false)
  | s => fail (Errorf ("managed Agent installation operation " +:+ pst_OperationID current +:+
                       " has unsupported terminal state " +:+ TaskState_String s))
  end.

(** The operation of the intent was recorded as ended. *)
Definition ended (current : option persisted) (intent : managedAgentInstallationIntent) : option persisted :=
  current ← current;
  if bool_decide (pst_OperationID current = int_OperationID intent) &&
     negb (bool_decide (pst_TaskState current = TaskState_RUNNING)) then Some current else None.

Definition handleManagedAgentInstallationIntent (raw : string) : M unit :=
  match decodeManagedAgentInstallationIntent decodeEKSIntent trailingContent digestOf identity raw with
  | inr decodeErr => fail (stateDoesntMatchError (error_Error decodeErr))
  | inl (intent, config, digest) =>
      let command := mkCommand intent config digest in
      let absent := bool_decide (int_DesiredState intent = managedAgentInstallationDesiredStateAbsent) in
      current ← readManagedAgentInstallationState;
      match validateManagedAgentInstallationProgress current intent digest with
      | Some err =>
          _ ← setTaskState packageDatadogOperator (int_OperationID intent) TaskState_INVALID_STATE (Some err);
          fail (stateDoesntMatchError (error_Error err))
      | None =>
          if bool_decide (int_DesiredState intent = managedAgentInstallationDesiredStateInstalled) &&
             negb (bool_decide (int_AcknowledgedOperationID intent = ""))
          then
            if bool_decide (pst_AcknowledgedOperationID <$> current = Some (int_AcknowledgedOperationID intent))
            then reconcileAcknowledgedManagedAgentInstallation current
            else acknowledgeManagedAgentInstallationInstall current intent
          else
            _ ← when absent (_ ← modify (set_ds_reserved true); refreshManagedAgentInstallationUpdaterTags);
            match ended current intent with
            | Some current => reconcileTerminalManagedAgentInstallation current command
            | None =>
                _ ← waitForManagedAgentInstallationSlot intent;
                current ← readManagedAgentInstallationState;
                match validateManagedAgentInstallationProgress current intent digest with
                | Some err => fail (stateDoesntMatchError (error_Error err))
                | None =>
                    match ended current intent with
                    | Some current => reconcileTerminalManagedAgentInstallation current command
                    | None => handleManagedAgentInstallationCommand command
                    end
                end
            end
      end
  end.

Definition readCurrentManagedAgentInstallationIntent : M string :=
  configMap ← wrap "read current managed Agent installation intent" (dcall (inst_GetConfigMap intentKey));
  mret (get_key (cm_Data configMap) managedAgentInstallationIntentDataKey).

(** One turn of the worker's inner loop: whether it goes back to waiting for an
    update, rather than trying again after [managedAgentInstallationRetryInterval]. *)
Definition runManagedAgentInstallationIntentWorker : M bool :=
  r ← attempt (raw ← readCurrentManagedAgentInstallationIntent; handleManagedAgentInstallationIntent raw);
  match r with
  | inl _ => mret true
  | inr err => mret (IsNotFound err || isStateDoesntMatch err)
  end.

(** *** Events *)

Definition forwardManagedAgentInstallationIntent (key : NamespacedName) : M unit :=
  if negb (bool_decide (key = intentKey)) then mret tt
  else
    _ ← resetManagedAgentInstallationCredentialRetries;
    requestManagedAgentInstallationRetry.

Definition forwardManagedAgentInstallationCredential (key : NamespacedName) (data : gmap string string) : M unit :=
  if negb (bool_decide (key = managedAgentInstallationCredentialKey namespace)) ||
     bool_decide (get_key data fleetCredentialAPIKey = "") then mret tt
  else
    _ ← resetManagedAgentInstallationCredentialRetries;
    requestManagedAgentInstallationRetry.

(** The handler of updated Secrets: only one that had no key before. *)
Definition credentialUpdated (key : NamespacedName) (old new : gmap string string) : M unit :=
  if negb (bool_decide (get_key old fleetCredentialAPIKey = "")) then mret tt
  else forwardManagedAgentInstallationCredential key new.

(** *** Start-up and tags *)

Definition rehydrateManagedAgentInstallationState : M unit :=
  r ← readManagedAgentInstallationState;
  match r with
  | None => mret tt
  | Some state =>
      if negb (bool_decide (pst_Provider state = Provider identity)) ||
         negb (bool_decide (pst_InstallationID state = InstallationID identity)) ||
         negb (bool_decide (pst_TargetID state = TargetID identity))
      then fail (Errorf "persisted managed Agent installation state belongs to a different installation")
      else if bool_decide (pst_TaskState state = TaskState_DONE) then mret tt
      else
        _ ← setTaskState packageDatadogOperator (pst_OperationID state) (pst_TaskState state)
              (errorOfText (pst_Error state));
        when (bool_decide (pst_TaskState state = TaskState_ERROR) ||
              bool_decide (pst_TaskState state = TaskState_INVALID_STATE)) (modify (set_ds_reserved false))
  end.

(** The tags of an acknowledged installation, on the daemon the function makes
    of its reader. *)
Definition readinessTags (intent : managedAgentInstallationIntent) (digest : string) (state : persisted)
    : M (list string) :=
  let ack := int_AcknowledgedOperationID intent in
  let tags := [managedAgentInstallationAckTagPrefix +:+ ack] in
  let installed := bool_decide (pst_DesiredState state = managedAgentInstallationDesiredStateInstalled) in
  let doneBy op := bool_decide (pst_OperationID state = op) && bool_decide (pst_TaskState state = TaskState_DONE) in
  if bool_decide (int_DesiredState intent = managedAgentInstallationDesiredStateInstalled) then
    if negb (bool_decide (int_OperationID intent = ack)) || negb (doneBy ack) || negb installed
    then fail (Errorf "managed Agent installation acknowledgement state is not yet consistent with the acknowledged install intent")
    else
      _ ← wrap "validate managed Agent installation acknowledgement for Remote Configuration updater tags"
            validateAcknowledgedManagedAgentInstallation;
      mret (tags ++ ["operator_config_updates:ready"])
  else if bool_decide (int_DesiredState intent = managedAgentInstallationDesiredStateAbsent) then
    let currentUninstall :=
      bool_decide (pst_DesiredState state = managedAgentInstallationDesiredStateAbsent) &&
      bool_decide (pst_OperationID state = int_OperationID intent) && bool_decide (pst_Digest state = digest) in
    if negb (installed && doneBy ack) && negb currentUninstall
    then fail (Errorf "managed Agent installation acknowledgement state is not consistent with the uninstall intent")
    else mret tags
  else mret [].

Definition ManagedAgentInstallationReadinessTags : M (list string) :=
  if negb (Configured identity) then mret []
  else if bool_decide (namespace = "") then fail (Errorf "managed Agent installation namespace is required")
  else
    intentConfigMap ← wrap "read managed Agent installation intent for Remote Configuration updater tags"
                        (dcall (inst_GetConfigMap intentKey));
    decoded ← of_sum (decodeManagedAgentInstallationIntent decodeEKSIntent trailingContent digestOf identity
                        (get_key (cm_Data intentConfigMap) managedAgentInstallationIntentDataKey));
    let '(intent, _, digest) := (decoded : managedAgentInstallationIntent * option json * string) in
    if bool_decide (int_AcknowledgedOperationID intent = "") then mret []
    else
      state ← wrap "read managed Agent installation acknowledgement state for Remote Configuration updater tags"
                readManagedAgentInstallationState;
      let inconsistent :=
        Errorf "managed Agent installation acknowledgement state is not consistent with the current intent" in
      match (state : option persisted) with
      | None => fail inconsistent
      | Some state =>
          if negb (bool_decide (pst_Provider state = int_Provider intent)) ||
             negb (bool_decide (pst_InstallationID state = int_InstallationID intent)) ||
             negb (bool_decide (pst_TargetID state = int_TargetID intent)) ||
             negb (bool_decide (pst_AcknowledgedOperationID state = int_AcknowledgedOperationID intent))
          then fail inconsistent
          else readinessTags intent digest state
      end.
End Intents.
