(* ===== verification/InstallFacts.v ===== *)
(** * Histories of a managed Agent installation.

    Other writers may change the objects between any two calls, so that what the
    daemon knows is what it was answered.  A recorded client keeps the list of
    calls and answers; [justified] says which answers a write needs; [hist] is a
    weakest precondition over the history since an operation began. *)

From Stdlib Require Import ZArith.
From stdpp Require Import base gmap strings list.
From S2P Require Import Prelude GoRun Cluster Experiment Status Profiles Objects Store FleetData Fleet Identity Install.
From S2P Require Import InstallIntent.

(** ** Calls *)

Inductive Call (Spec : Type) :=
  | GetAgent (k : NamespacedName) (o : outcome (ManagedAgent Spec))
  | CreateAgent (a : ManagedAgent Spec)
  | PatchAgent (base a : ManagedAgent Spec)
  | DeleteAgent (a : ManagedAgent Spec)
  | GetProfile (k : NamespacedName) (o : outcome (ManagedProfile Spec))
  | CreateProfile (p : ManagedProfile Spec)
  | GetConfigMap (k : NamespacedName) (o : outcome StateConfigMap)
  | ClientGetConfigMap (k : NamespacedName) (o : outcome StateConfigMap)
  | CreateConfigMap (c : StateConfigMap)
  | PatchConfigMap (base c : StateConfigMap)
  | ListInternals (l : gmap string string) (o : outcome nat)
  | ListCluster (kind : ClusterKind) (l : gmap string string) (o : outcome nat).
Arguments GetAgent {_}.
Arguments CreateAgent {_}.
Arguments PatchAgent {_}.
Arguments DeleteAgent {_}.
Arguments GetProfile {_}.
Arguments CreateProfile {_}.
Arguments GetConfigMap {_}.
Arguments ClientGetConfigMap {_}.
Arguments CreateConfigMap {_}.
Arguments PatchConfigMap {_}.
Arguments ListInternals {_}.
Arguments ListCluster {_}.

(** A client that keeps its calls; nothing is said about what it answers. *)
Class RecordedClient (W Spec : Type) `{InstallClient W Spec} := {
  trace : W → list (Call Spec);
  rec_GetAgent k w : trace (inst_GetAgent k w).1 = trace w ++ [GetAgent k (inst_GetAgent k w).2];
  rec_GetAgent_key k w a : (inst_GetAgent k w).2 = Ret a → dda_key (ma_dda a) = k;
  rec_CreateAgent a w : trace (inst_CreateAgent a w).1 = trace w ++ [CreateAgent a];
  rec_PatchAgent base a w : trace (inst_PatchAgent base a w).1 = trace w ++ [PatchAgent base a];
  rec_DeleteAgent a w : trace (inst_DeleteAgent a w).1 = trace w ++ [DeleteAgent a];
  rec_GetProfile k w : trace (inst_GetProfile k w).1 = trace w ++ [GetProfile k (inst_GetProfile k w).2];
  rec_CreateProfile p w : trace (inst_CreateProfile p w).1 = trace w ++ [CreateProfile p];
  rec_GetConfigMap k w : trace (inst_GetConfigMap k w).1 = trace w ++ [GetConfigMap k (inst_GetConfigMap k w).2];
  rec_ClientGetConfigMap k w :
    trace (inst_ClientGetConfigMap k w).1 = trace w ++ [ClientGetConfigMap k (inst_ClientGetConfigMap k w).2];
  rec_CreateConfigMap c w : trace (inst_CreateConfigMap c w).1 = trace w ++ [CreateConfigMap c];
  rec_PatchConfigMap base c w : trace (inst_PatchConfigMap base c w).1 = trace w ++ [PatchConfigMap base c];
  rec_ListInternals l w : trace (inst_ListInternals l w).1 = trace w ++ [ListInternals l (inst_ListInternals l w).2];
  rec_ListCluster kind l w :
    trace (inst_ListCluster kind l w).1 = trace w ++ [ListCluster kind l (inst_ListCluster kind l w).2];
  rec_GetSecret k w : trace (inst_GetSecret k w).1 = trace w;
  rec_CtxErr w : trace (inst_CtxErr w).1 = trace w
}.

(** ** Histories *)

Section Histories.
Context {W Spec : Type} `{RecordedClient W Spec}.
Context {HRepeating : Repeating}.
(** What the calls before it must have answered for a call to be made. *)
Context (justified : list (Call Spec) → Call Spec → Prop).
Abbreviation M := (GoM (DaemonState W)).
Implicit Types (t : list (Call Spec)) (s : DaemonState W).

Definition all_justified_from t0 t : Prop := ∀ t1 c t2, t = t1 ++ c :: t2 → justified (t0 ++ t1) c.

(** [hist t0 m Φ]: after the history [t0], every call of [m] is justified, and
    the history it ends with and its outcome satisfy [Φ]. *)
Definition hist {A} t0 (m : M A) (Φ : list (Call Spec) → outcome A → Prop) : Prop :=
  ∀ s, ∃ t, trace (ds_world (m s).1) = trace (ds_world s) ++ t ∧ all_justified_from t0 t ∧ Φ (t0 ++ t) (m s).2.

(** [m] makes justified calls only, after any history that satisfies [P]. *)
Definition safe (P : list (Call Spec) → Prop) {A} (m : M A) : Prop := ∀ t0, P t0 → hist t0 m (λ _ _, True).

Lemma all_justified_nil t0 : all_justified_from t0 [].
Proof. intros t1 c t2 ?. by destruct t1. Qed.

Lemma all_justified_app t0 t t' :
  all_justified_from t0 t → all_justified_from (t0 ++ t) t' → all_justified_from t0 (t ++ t').
Proof.
  intros Ht Ht' t1 c t2 [(l & -> & Hl)|(l & -> & Hl)]%app_eq_inv.
  - destruct l as [|c' l]; simpl in Hl; [|by injection Hl as -> ->; eapply Ht].
    rewrite app_nil_r in *. specialize (Ht' [] c t2). rewrite app_nil_r in Ht'. by apply Ht'.
  - rewrite app_assoc. by eapply Ht'.
Qed.

Lemma hist_mono {A} t0 (m : M A) (Φ Ψ : list (Call Spec) → outcome A → Prop) :
  hist t0 m Φ → (∀ t o, Φ t o → Ψ t o) → hist t0 m Ψ.
Proof. intros Hm HΦ s. destruct (Hm s) as (t & Ht & Hj & Hq). eauto. Qed.

(** A history only grows. *)
Lemma hist_extends {A} t0 (m : M A) Φ : hist t0 m Φ → hist t0 m (λ t o, Φ t o ∧ ∃ t', t = t0 ++ t').
Proof. intros Hm s. destruct (Hm s) as (t & Ht & Hj & Hq). exists t. eauto 10. Qed.

Lemma hist_bind {A B} t0 (m : M A) (f : A → M B) Φ :
  hist t0 m (λ t o, match o with Ret a => hist t (f a) Φ | Fail e => Φ t (Fail e) | Panic => Φ t Panic end) →
  hist t0 (m ≫= f) Φ.
Proof.
  intros Hm s. destruct (Hm s) as (t & Ht & Hj & Hq). unfold mbind, GoM_bind.
  destruct (m s) as [s1 [a|e|]]; simpl in *; [|by exists t..].
  destruct (Hq s1) as (t' & Ht' & Hj' & Hq'). exists (t ++ t').
  rewrite Ht', Ht, !app_assoc. split_and!; [done| |by rewrite <- app_assoc, app_assoc].
  by apply all_justified_app.
Qed.

Lemma hist_pure {A} t0 (m : M A) Φ :
  (∀ s, trace (ds_world (m s).1) = trace (ds_world s) ∧ Φ t0 (m s).2) → hist t0 m Φ.
Proof.
  intros Hm s. destruct (Hm s) as [Ht Hq]. exists []. rewrite !app_nil_r. split_and!; [done| |done].
  apply all_justified_nil.
Qed.

Lemma hist_ret {A} t0 (a : A) (Φ : list (Call Spec) → outcome A → Prop) : Φ t0 (Ret a) → hist t0 (mret a) Φ.
Proof. intros. by apply hist_pure. Qed.

Lemma hist_fail {A} t0 e (Φ : list (Call Spec) → outcome A → Prop) : Φ t0 (Fail e) → hist t0 (fail e) Φ.
Proof. intros. by apply hist_pure. Qed.

Lemma hist_gets {A} t0 (f : DaemonState W → A) (Φ : list (Call Spec) → outcome A → Prop) :
  (∀ a, Φ t0 (Ret a)) → hist t0 (gets f) Φ.
Proof. intros HΦ. apply hist_pure. intros s. split; [done|apply HΦ]. Qed.

Lemma hist_modify t0 (f : DaemonState W → DaemonState W) (Φ : list (Call Spec) → outcome unit → Prop) :
  (∀ s, trace (ds_world (f s)) = trace (ds_world s)) → Φ t0 (Ret tt) → hist t0 (modify f) Φ.
Proof. intros Hf HΦ. apply hist_pure. intros s. split; [apply Hf|done]. Qed.

Lemma hist_check {B} t0 e (k : unit → M B) Φ :
  (∀ err, e = Some err → Φ t0 (Fail err)) → (e = None → hist t0 (k tt) Φ) → hist t0 (check e ≫= k) Φ.
Proof.
  intros Hf Hr. destruct e as [err|].
  - apply hist_bind, hist_fail. eauto.
  - apply hist_bind, hist_ret. eauto.
Qed.

Lemma hist_of_sum {A} t0 (r : A + error) (Φ : list (Call Spec) → outcome A → Prop) :
  (∀ err, r = inr err → Φ t0 (Fail err)) → (∀ a, r = inl a → Φ t0 (Ret a)) → hist t0 (of_sum r) Φ.
Proof. intros Hf Hr. destruct r; [apply hist_ret|apply hist_fail]; eauto. Qed.

Lemma hist_wrap {A} t0 msg (m : M A) (Φ : list (Call Spec) → outcome A → Prop) :
  hist t0 m (λ t o, Φ t (match o with Fail e => Fail (Wrapf msg e) | o => o end)) → hist t0 (wrap msg m) Φ.
Proof.
  intros Hm s. destruct (Hm s) as (t & Ht & Hj & Hq). exists t. unfold wrap. by destruct (m s) as [s' []].
Qed.

Lemma hist_attempt {A} t0 (m : M A) (Φ : list (Call Spec) → outcome (A + error) → Prop) :
  hist t0 m (λ t o, Φ t (match o with Ret a => Ret (inl a) | Fail e => Ret (inr e) | Panic => Panic end)) →
  hist t0 (attempt m) Φ.
Proof.
  intros Hm s. destruct (Hm s) as (t & Ht & Hj & Hq). exists t. unfold attempt. by destruct (m s) as [s' []].
Qed.

(** A call of the client, whose answers satisfy [P]. *)
Lemma hist_answer {A} t0 (m : GoM W A) (c : outcome A → Call Spec) (P : outcome A → Prop)
    (Φ : list (Call Spec) → outcome A → Prop) :
  (∀ w, trace (m w).1 = trace w ++ [c (m w).2]) → (∀ w, P (m w).2) → (∀ o, justified t0 (c o)) →
  (∀ o, P o → Φ (t0 ++ [c o]) o) → hist t0 (dcall m) Φ.
Proof.
  intros Hm HP Hj HΦ s. specialize (Hm (ds_world s)). specialize (HP (ds_world s)).
  exists [c (m (ds_world s)).2]. unfold dcall.
  destruct (m (ds_world s)) as [w o]; simpl in *. split_and!; [done| |by apply HΦ].
  intros t1 c' t2 Heq. destruct t1 as [|? [|]]; simpl in *; simplify_eq. rewrite app_nil_r. apply Hj.
Qed.

Lemma hist_call {A} t0 (m : GoM W A) (c : outcome A → Call Spec) (Φ : list (Call Spec) → outcome A → Prop) :
  (∀ w, trace (m w).1 = trace w ++ [c (m w).2]) → (∀ o, justified t0 (c o)) →
  (∀ o, Φ (t0 ++ [c o]) o) → hist t0 (dcall m) Φ.
Proof. intros Hm Hj HΦ. by eapply (hist_answer _ _ _ (λ _, True)). Qed.

Lemma hist_write {A} t0 (m : GoM W A) c (Φ : list (Call Spec) → outcome A → Prop) :
  (∀ w, trace (m w).1 = trace w ++ [c]) → justified t0 c → (∀ o, Φ (t0 ++ [c]) o) → hist t0 (dcall m) Φ.
Proof. intros Hm Hj HΦ. by apply (hist_call _ _ (λ _, c)). Qed.

Lemma hist_GetAgent t0 k (Φ : list (Call Spec) → outcome (ManagedAgent Spec) → Prop) :
  (∀ o, justified t0 (GetAgent k o)) →
  (∀ o, (∀ a, o = Ret a → dda_key (ma_dda a) = k) → Φ (t0 ++ [GetAgent k o]) o) →
  hist t0 (dcall (inst_GetAgent k)) Φ.
Proof. intros Hj. by apply hist_answer; [apply rec_GetAgent|intros w a; apply rec_GetAgent_key|]. Qed.

Lemma hist_silent {A} t0 (m : GoM W A) (Φ : list (Call Spec) → outcome A → Prop) :
  (∀ w, trace (m w).1 = trace w) → (∀ o, Φ t0 o) → hist t0 (dcall m) Φ.
Proof.
  intros Hm HΦ. apply hist_pure. intros s. specialize (Hm (ds_world s)). unfold dcall.
  by destruct (m (ds_world s)).
Qed.

Lemma hist_deferred {A} t0 f (m : M A) Φ :
  (∀ s, trace (ds_world (f s)) = trace (ds_world s)) → hist t0 m Φ → hist t0 (deferred f m) Φ.
Proof.
  intros Hf Hm s. destruct (Hm s) as (t & Ht & Hj & Hq). exists t. unfold deferred.
  destruct (m s) as [s' o]; simpl in *. by rewrite Hf.
Qed.

(** Attempts, and polls, between which [I] is kept. *)
Lemma hist_retry (I : list (Call Spec) → Prop) {A} t0 retriable n (m : M A) Φ :
  (∀ t, I t → hist t m (λ t' o, Φ t' o ∧ ∀ e, o = Fail e → I t')) →
  I t0 → hist t0 (retryOnError retriable n m) Φ.
Proof.
  intros Hm Ht0 s. pose proof (law_retryOnError retriable n m s) as Hr. revert t0 Ht0.
  induction Hr as [n s _|n s s' e r E _ _ IH]; intros t0 Ht0.
  - destruct (Hm t0 Ht0 s) as (t & Ht & Hj & HΦ & _). by exists t.
  - destruct (Hm t0 Ht0 s) as (t & Ht & Hj & _ & HI). rewrite E in Ht, HI. simpl in Ht. destruct (IH _ (HI e eq_refl)) as (t' & Ht' & Hj' & HΦ).
    exists (t ++ t'). rewrite Ht', Ht, !app_assoc. split_and!; [done|by apply all_justified_app|done].
Qed.

Lemma hist_poll (I : list (Call Spec) → Prop) t0 n (m : M bool) Φ :
  (∀ t, I t → hist t m (λ t' o, match o with
                                | Ret true => Φ t' (Ret tt)
                                | Ret false => I t' ∧ ∀ e, Φ t' (Fail e)
                                | Fail e => Φ t' (Fail e)
                                | Panic => Φ t' Panic
                                end)) →
  I t0 → hist t0 (pollImmediate n m) Φ.
Proof.
  intros Hm Ht0 s. pose proof (law_pollImmediate n m s) as Hr. revert t0 Ht0.
  induction Hr as [n s s' E|n s s' e E|n s s' E|s s' e E|n s s' r E _ IH]; intros t0 Ht0;
    destruct (Hm t0 Ht0 s) as (t & Ht & Hj & HΦ); rewrite E in Ht, HΦ; simpl in *; [by exists t..| |].
  - destruct HΦ as [_ HΦ]. by exists t.
  - destruct HΦ as [HI _]. destruct (IH _ HI) as (t' & Ht' & Hj' & HΦ).
    exists (t ++ t'). rewrite Ht', Ht, !app_assoc. split_and!; [done|by apply all_justified_app|done].
Qed.

(** ** Safe operations *)

Section Safe.
(** What is known of the history, and stays known. *)
Context (P : list (Call Spec) → Prop) (Hpersist : ∀ t t', P t → P (t ++ t')).
Abbreviation safe := (safe P).

Lemma safe_hist {A} t0 (m : M A) (Φ : list (Call Spec) → outcome A → Prop) :
  safe m → P t0 → (∀ t o, P t → Φ t o) → hist t0 m Φ.
Proof.
  intros Hm Hp HΦ. eapply hist_mono; [apply hist_extends, Hm, Hp|]. intros t o (_ & t' & ->). auto.
Qed.

Lemma safe_bind {A B} (m : M A) (f : A → M B) : safe m → (∀ a, safe (f a)) → safe (m ≫= f).
Proof.
  intros Hm Hf t0 Hp. apply hist_bind. eapply safe_hist; [done..|]. intros t [a|e|] Ht; [by apply Hf|done..].
Qed.

Lemma safe_attempt {A} (m : M A) : safe m → safe (attempt m).
Proof. intros Hm t0 Hp. apply hist_attempt. by apply safe_hist. Qed.

Lemma safe_wrap {A} msg (m : M A) : safe m → safe (wrap msg m).
Proof. intros Hm t0 Hp. apply hist_wrap. by apply safe_hist. Qed.

Lemma safe_ret {A} (a : A) : safe (mret a : M A).
Proof. intros t0 _. by apply hist_ret. Qed.

Lemma safe_fail {A} e : safe (fail e : M A).
Proof. intros t0 _. by apply hist_fail. Qed.

Lemma safe_retry {A} retriable n (m : M A) : safe m → safe (retryOnError retriable n m).
Proof. intros Hm t0. apply (hist_retry P). intros t Ht. eapply safe_hist; [done..|]. eauto. Qed.

Lemma safe_gets {A} (f : DaemonState W → A) : safe (gets f).
Proof. intros t0 _. by apply hist_gets. Qed.

Lemma safe_modify f : (∀ s, trace (ds_world (f s)) = trace (ds_world s)) → safe (modify f : M unit).
Proof. intros Hf t0 _. by apply hist_modify. Qed.

Lemma safe_when b (m : M unit) : safe m → safe (when b m).
Proof. destruct b; [done|]. intros _. apply safe_ret. Qed.

Lemma safe_check e : safe (check e : M unit).
Proof. destruct e; [apply safe_fail|apply safe_ret]. Qed.

Lemma safe_of_sum {A} (r : A + error) : safe (of_sum r : M A).
Proof. destruct r; [apply safe_ret|apply safe_fail]. Qed.

Lemma safe_panic {A} : safe (panic : M A).
Proof. intros t0 _. by apply hist_pure. Qed.

Lemma safe_deferred {A} f (m : M A) :
  (∀ s, trace (ds_world (f s)) = trace (ds_world s)) → safe m → safe (deferred f m).
Proof. intros Hf Hm t0 Hp. apply hist_deferred; auto. Qed.

Lemma safe_poll n (m : M bool) : safe m → safe (pollImmediate n m).
Proof. intros Hm t0. apply (hist_poll P). intros t Ht. eapply safe_hist; [done..|]. by intros t' [[]|e|]. Qed.
End Safe.
End Histories.

(** One step of a program whose calls the database [installation] knows. *)
Create HintDb installation.
Ltac safe_step :=
  first
    [ solve [eauto with installation nocore]
    | apply safe_bind; [done| |intros ?] | apply safe_attempt; [done|] | apply safe_wrap; [done|] | apply safe_retry; [done|]
    | apply safe_ret | apply safe_fail | apply safe_gets | apply safe_modify; reflexivity | apply safe_when
    | apply safe_check | apply safe_of_sum | apply safe_panic | apply safe_poll; [done|]
    | apply safe_deferred; [intros ?; by unfold finishManagedAgentInstallationTaskLocked; case_match|]
    | case_match ].
Ltac safe_auto := repeat safe_step.
