(* ===== verification/InstallHistory.v ===== *)
(** * What installing and removing an Agent write and see.

    [justified] says which answers a write of a managed installation needs:
    absence before a creation, the labels of this installation before a change or
    a deletion, recorded progress and an intent before new progress.  Every
    operation of [Install] makes justified calls; one that succeeds has read
    that the installation is [complete], or [gone]. *)

From Stdlib Require Import ZArith Lia.
From stdpp Require Import base gmap strings list.
From S2P Require Import AgentSpec.
From S2P Require Import Prelude GoRun Cluster Experiment Status Profiles Objects Store FleetData Fleet Identity Install.
From S2P Require Import InstallIntent InstallFacts.

(** ** Reading the checks *)

Section Ours.
Context {Spec : Type} (identity : option ManagedAgentInstallationIdentity).

(** The labels of the installation of this daemon. *)
Definition identified (d : DatadogAgent Spec) : Prop :=
  label d fleetManagedAgentInstallationProviderLabel = Provider identity ∧
  label d fleetInstallationIDLabel = InstallationID identity ∧
  label d fleetTargetIDLabel = TargetID identity.

Definition ours (d : DatadogAgent Spec) : Prop :=
  label d fleetManagedByLabel = fleetManagedByValue ∧ label d fleetConfigIDLabel ≠ "" ∧ identified d.

Lemma validateInstallation_identified (d : DatadogAgent Spec) : validateInstallation identity d = None ↔ identified d.
Proof.
  unfold validateInstallation, validateFleetDatadogAgentInstallation, identified, label, Provider, InstallationID, TargetID.
  destruct identity as [i|]; cbn; repeat case_bool_decide; naive_solver.
Qed.

Lemma owned_ours (d : DatadogAgent Spec) configID :
  validateFleetOwnedDatadogAgent d configID = None → validateInstallation identity d = None →
  ours d ∧ (configID ≠ "" → label d fleetConfigIDLabel = configID).
Proof.
  rewrite validateInstallation_identified. unfold validateFleetOwnedDatadogAgent, ours.
  repeat case_bool_decide; naive_solver.
Qed.

Lemma classified_ours (d : DatadogAgent Spec) :
  classifyFleetDatadogAgentOwnership d = inl true → validateInstallation identity d = None → ours d.
Proof.
  rewrite validateInstallation_identified. unfold classifyFleetDatadogAgentOwnership, ours, label.
  destruct (noOwnershipMetadata d); [done|]. repeat case_bool_decide; naive_solver.
Qed.

End Ours.

Lemma credentials_accepted {Spec} `{CredentialsOf Spec} (d : DatadogAgent Spec) :
  validateFleetDatadogAgentCredentials d = None ↔
  spec_Credentials (dda_Spec d) =
    Some (mkCredentials None (Some (mkSecretConfig fleetCredentialSecretName fleetCredentialAPIKey)) None None).
Proof.
  unfold validateFleetDatadogAgentCredentials.
  destruct (spec_Credentials (dda_Spec d)) as [[k [[n kn]|] ak asec]|]; cbn; [|naive_solver..].
  destruct k, ak, asec; rewrite ?(bool_decide_true (is_Some (Some _))), ?(bool_decide_false (is_Some None)) by eauto;
    rewrite ?orb_true_r; cbn; try naive_solver.
  repeat case_bool_decide; cbn; naive_solver.
Qed.

Section Accepted.
Context {Spec : Type} `{CredentialsOf Spec} (SpecHash : Spec → string + error).

(** The spec is the one Fleet had accepted, with Fleet's credentials. *)
Definition accepted (d : DatadogAgent Spec) : Prop :=
  SpecHash (dda_Spec d) = inl (annotation d fleetConfigHashAnnotation) ∧
  spec_Credentials (dda_Spec d) =
    Some (mkCredentials None (Some (mkSecretConfig fleetCredentialSecretName fleetCredentialAPIKey)) None None).

Lemma acceptedSpec_accepted (d : DatadogAgent Spec) :
  validateFleetDatadogAgentAcceptedSpec SpecHash d = None ↔ accepted d.
Proof.
  unfold validateFleetDatadogAgentAcceptedSpec, validateFleetDatadogAgentSpecHash, accepted.
  pose proof (credentials_accepted d) as Hc. destruct (validateFleetDatadogAgentCredentials d).
  { naive_solver. }
  destruct (SpecHash (dda_Spec d)); [case_bool_decide|]; naive_solver.
Qed.
End Accepted.

Section Seen.
Context {Spec : Type} (namespace : string).
Implicit Types (t : list (Call Spec)).
Abbreviation stateKey := (managedAgentInstallationStateKey namespace).
Abbreviation intentKey := (managedAgentInstallationIntentKey namespace).

(** The intent and the recorded progress that were read. *)
Definition seen t (raw : string) (current : option managedAgentInstallationPersistedState) : Prop :=
  (∃ cm, GetConfigMap intentKey (Ret cm) ∈ t ∧ get_key (cm_Data cm) managedAgentInstallationIntentDataKey = raw) ∧
  match current with
  | None => ∃ e, GetConfigMap stateKey (Fail e) ∈ t ∧ IsNotFound e = true
  | Some state => ∃ cm, GetConfigMap stateKey (Ret cm) ∈ t ∧ parseManagedAgentInstallationState (cm_Data cm) = inl state
  end.

Lemma seen_app t t' raw current : seen t raw current → seen (t ++ t') raw current.
Proof. intros [(cm & Hin & Hr) Hc]. split; [set_solver|]. destruct current; set_solver. Qed.
End Seen.

(** ** What justifies a write *)

Section Justified.
Context {Spec : Type} `{CredentialsOf Spec}.
Context (identity : option ManagedAgentInstallationIdentity) (namespace : string).
Context (SpecHash : Spec → string + error) (zeroSpec : Spec).
(** [decodeManagedAgentInstallationIntent] *)
Context (decode : string → (managedAgentInstallationIntent * option json * string) + error).
Implicit Types (t : list (Call Spec)) (c : Call Spec).
Abbreviation agentKey := (target namespace).
Abbreviation stateKey := (managedAgentInstallationStateKey namespace).
Abbreviation intentKey := (managedAgentInstallationIntentKey namespace).
Abbreviation profileKey := (managedAgentInstallationWindowsProfileKey namespace).

(** A write changes the state label or the recorded hash, nothing else. *)
Inductive patch_ok (base : ManagedAgent Spec) : ManagedAgent Spec → Prop :=
  | patch_partial :
      patch_ok base (set_labels (<[fleetManagedAgentInstallationStateLabel := fleetManagedAgentInstallationStatePartial]>
                                   (dda_Labels (ma_dda base))) base)
  | patch_ready :
      accepted SpecHash (ma_dda base) →
      patch_ok base (set_labels (<[fleetManagedAgentInstallationStateLabel := fleetManagedAgentInstallationStateReady]>
                                   (dda_Labels (ma_dda base))) base)
  | patch_hash h :
      SpecHash (dda_Spec (ma_dda base)) = inl h →
      patch_ok base (set_annotations (<[fleetConfigHashAnnotation := h]> (dda_Annotations (ma_dda base))) base).

Definition is_write {Spec} (c : Call Spec) : bool :=
  match c with
  | CreateAgent _ | PatchAgent _ _ | DeleteAgent _ | CreateProfile _ | CreateConfigMap _ | PatchConfigMap _ _ => true
  | _ => false
  end.

(** What a call reads. *)
Definition kind {Spec} (c : Call Spec) : nat :=
  match c with
  | GetAgent _ _ => 1 | GetProfile _ _ => 2 | GetConfigMap _ _ => 3 | ClientGetConfigMap _ _ => 4
  | ListInternals _ _ => 5 | ListCluster _ _ _ => 6 | _ => 0
  end.

(** [c] was the last call of its kind, with no write since. *)
Definition just t c : Prop :=
  ∃ t1 t2, t = t1 ++ c :: t2 ∧ Forall (λ c', is_write c' = false ∧ kind c' ≠ kind c) t2.

(** The progress an intent makes of the recorded one: its command is begun or
    ends, or a finished install is acknowledged. *)
Inductive advances (raw : string) (current : option managedAgentInstallationPersistedState)
    : managedAgentInstallationPersistedState → Prop :=
  | advance_command intent config digest taskState taskErr :
      decode raw = inl (intent, config, digest) →
      validateManagedAgentInstallationProgress current intent digest = None →
      int_DesiredState intent ≠ managedAgentInstallationDesiredStateInstalled ∨ int_AcknowledgedOperationID intent = "" →
      advances raw current (managedAgentInstallationStateFromCommand (mkCommand intent config digest) taskState taskErr)
  | advance_acknowledged intent config digest state :
      decode raw = inl (intent, config, digest) →
      validateManagedAgentInstallationProgress current intent digest = None → current = Some state →
      pst_DesiredState state = managedAgentInstallationDesiredStateInstalled → pst_TaskState state = TaskState_DONE →
      pst_OperationID state = int_OperationID intent →
      advances raw current (set_pst_Acknowledged (int_OperationID intent) state).

Definition admissible t (state : managedAgentInstallationPersistedState) : Prop :=
  ∃ raw current, seen namespace t raw current ∧ advances raw current state.

Inductive justified t : Call Spec → Prop :=
  | just_read c : is_write c = false → justified t c
  | just_create installationID operationID hash spec e :
      IsNotFound e = true → just t (GetAgent agentKey (Fail e)) →
      justified t (CreateAgent (newAgent identity namespace installationID operationID hash spec))
  | just_patch base a :
      just t (GetAgent agentKey (Ret base)) → ours identity (ma_dda base) → patch_ok base a →
      justified t (PatchAgent base a)
  | just_delete a :
      GetAgent agentKey (Ret a) ∈ t → ours identity (ma_dda a) → justified t (DeleteAgent a)
  | just_create_profile d e :
      IsNotFound e = true → just t (GetProfile profileKey (Fail e)) →
      justified t (CreateProfile (managedAgentInstallationWindowsProfile identity namespace zeroSpec d))
  | just_create_state intent state e :
      IsNotFound e = true → just t (ClientGetConfigMap stateKey (Fail e)) →
      just t (GetConfigMap intentKey (Ret intent)) → admissible t state →
      justified t (CreateConfigMap (newStateConfigMap namespace intent state))
  | just_patch_state intent base state :
      just t (ClientGetConfigMap stateKey (Ret base)) → just t (GetConfigMap intentKey (Ret intent)) →
      requireManagedAgentInstallationResourceOwner (cm_OwnerReferences base)
        (controllerOwnerReference "v1" "ConfigMap" (cm_Name intent) (cm_UID intent)) = None →
      admissible t state →
      justified t (PatchConfigMap base (set_cm_Data (managedAgentInstallationStateData state) base)).

Lemma just_snoc t c : just (t ++ [c]) c.
Proof. exists t, []. by split. Qed.

Lemma just_snoc_read t c c' : just t c → is_write c' = false → kind c' ≠ kind c → just (t ++ [c']) c.
Proof.
  intros (t1 & t2 & -> & Hf) Hw Hk. exists t1, (t2 ++ [c']). split; [by rewrite <- app_assoc|].
  apply Forall_app. split; [done|]. by constructor.
Qed.

End Justified.

(** ** Every write is justified *)

Section Safety.
Context {W Spec : Type} `{RecordedClient W Spec, CredentialsOf Spec, !EqDecision Spec, UUIDs}.
Context {HRepeating : Repeating}.
Context (identity : option ManagedAgentInstallationIdentity) (namespace : string).
Context (decodeConfig : option json → option Spec + error) (spec_Global : Spec → option GlobalCredentials).
Context (SpecHash : Spec → string + error) (DeepDerivative : Spec → Spec → bool) (zeroSpec : Spec).
Context (conflictRetries polls : nat).
Context (decodeEKSIntent : string → eksManagedAgentInstallationIntent + error) (trailingContent : string → bool).
Context (digestOf : normalizedManagedAgentInstallationIntent → string + error).
Abbreviation M := (GoM (DaemonState W)).
Abbreviation decode := (decodeManagedAgentInstallationIntent decodeEKSIntent trailingContent digestOf identity).
Abbreviation J := (justified identity namespace SpecHash zeroSpec decode).
(** What is known of the history, and stays known. *)
Context (P : list (Call Spec) → Prop) (Hpersist : ∀ t t', P t → P (t ++ t')).
Abbreviation hist := (hist J).
Abbreviation safe := (safe J P).
Abbreviation agentKey := (target namespace).
Implicit Types (t : list (Call Spec)) (d : DatadogAgent Spec) (a : ManagedAgent Spec).

Lemma safe_read {A} (m : GoM W A) (c : outcome A → Call Spec) :
  (∀ w, trace (m w).1 = trace w ++ [c (m w).2]) → (∀ o, is_write (c o) = false) → safe (dcall m).
Proof. intros Hm Hw t0 _. eapply hist_call; [done|intros; by apply just_read|done]. Qed.

Lemma hist_read {A} t0 (m : GoM W A) (c : outcome A → Call Spec) (Φ : list (Call Spec) → outcome A → Prop) :
  (∀ w, trace (m w).1 = trace w ++ [c (m w).2]) → (∀ o, is_write (c o) = false) →
  (∀ o, Φ (t0 ++ [c o]) o) → hist t0 (dcall m) Φ.
Proof. intros Hm Hw. apply hist_call; [done|]. intros o. by apply just_read. Qed.

Lemma safe_GetAgent k : safe (dcall (inst_GetAgent k)).
Proof. eapply safe_read; [apply rec_GetAgent|done]. Qed.
Lemma safe_GetProfile k : safe (dcall (inst_GetProfile k)).
Proof. eapply safe_read; [apply rec_GetProfile|done]. Qed.
Lemma safe_GetConfigMap k : safe (dcall (inst_GetConfigMap k)).
Proof. eapply safe_read; [apply rec_GetConfigMap|done]. Qed.
Lemma safe_ListInternals l : safe (dcall (inst_ListInternals l)).
Proof. eapply safe_read; [apply rec_ListInternals|done]. Qed.
Lemma safe_ListCluster kind l : safe (dcall (inst_ListCluster kind l)).
Proof. eapply safe_read; [apply rec_ListCluster|done]. Qed.
Lemma safe_GetSecret k : safe (dcall (inst_GetSecret k)).
Proof. intros t0 _. apply hist_silent; [apply rec_GetSecret|done]. Qed.
Lemma safe_CtxErr : safe (dcall inst_CtxErr).
Proof. intros t0 _. apply hist_silent; [apply rec_CtxErr|done]. Qed.
#[local] Hint Resolve safe_GetAgent safe_GetProfile safe_GetConfigMap safe_ListInternals safe_ListCluster
  safe_GetSecret safe_CtxErr : installation.

(** The agent that was read last is patched. *)
Lemma hist_PatchAgent t base a' (Φ : list (Call Spec) → outcome unit → Prop) :
  just t (GetAgent agentKey (Ret base)) → ours identity (ma_dda base) → patch_ok SpecHash base a' →
  (∀ t o, Φ t o) → hist t (dcall (inst_PatchAgent base a')) Φ.
Proof.
  intros Hl Ho Hp HΦ. eapply hist_write; [apply rec_PatchAgent|by apply just_patch|auto].
Qed.

(** An operation that reads the agent of the target first. *)
Lemma safe_reading {A} (f : ManagedAgent Spec → M A) :
  (∀ t a, just t (GetAgent agentKey (Ret a)) → hist t (f a) (λ _ _, True)) →
  safe (a ← dcall (inst_GetAgent agentKey); f a).
Proof.
  intros Hf t0 _. apply hist_bind, hist_GetAgent; [intros; by apply just_read|].
  intros [a|e|] _; [|done..]. apply Hf, just_snoc.
Qed.

Lemma safe_recordHash uid configID h :
  safe (recordFleetDatadogAgentSpecHash identity SpecHash conflictRetries agentKey uid configID h).
Proof.
  apply safe_retry; [done|]. apply safe_reading. intros t a Hl. cbv zeta. case_match; [by apply hist_fail|].
  apply hist_check; [done|]. intros Hown. apply hist_check; [done|]. intros Hid.
  apply hist_bind, hist_of_sum; [done|]. intros live Hlive.
  case_match; [by apply hist_fail|]. case_match; [by apply hist_ret|].
  apply hist_PatchAgent; [done|by eapply owned_ours|by apply patch_hash|done].
Qed.

Lemma safe_markReady uid configID :
  safe (markFleetDatadogAgentReady identity SpecHash conflictRetries agentKey uid configID).
Proof.
  apply safe_retry; [done|]. apply safe_reading. intros t a Hl. cbv zeta. case_match; [by apply hist_fail|].
  do 3 (apply hist_check; [done|]; intros ?). case_match; [by apply hist_ret|].
  apply hist_PatchAgent; [done|by eapply owned_ours|by apply patch_ready, acceptedSpec_accepted|done].
Qed.

Lemma safe_markPartial uid : safe (markFleetDatadogAgentPartial identity conflictRetries agentKey uid).
Proof.
  apply safe_retry; [done|]. apply safe_reading. intros t a Hl. cbv zeta. case_match; [by apply hist_fail|].
  case_match eqn:Hown; [by apply hist_fail|]. apply hist_check; [done|]. intros Hid. case_match; [by apply hist_ret|].
  apply hist_bind, hist_PatchAgent; [done| |apply patch_partial|by intros ? []; [apply hist_ret|..]].
  apply validateInstallation_identified in Hid. apply orb_false_iff in Hown as [Hm Hc].
  apply negb_false_iff, bool_decide_eq_true in Hm. by apply bool_decide_eq_false in Hc.
Qed.
#[local] Hint Resolve safe_recordHash safe_markReady safe_markPartial : installation.

Lemma safe_orRetain {A} uid (m : M A) : safe m → safe (orRetain identity namespace conflictRetries uid m).
Proof. intros Hm. unfold orRetain, retainFleetDatadogAgentPartial, publishPartial. safe_auto. Qed.

Lemma safe_target : safe (validateManagedAgentInstallationTarget identity namespace).
Proof. unfold validateManagedAgentInstallationTarget. safe_auto. Qed.

Lemma safe_ensureProfile d : safe (ensureManagedAgentInstallationWindowsProfile identity namespace zeroSpec d).
Proof.
  intros t0 Hp. apply hist_bind, hist_attempt.
  eapply hist_read; [apply rec_GetProfile|done|]. intros [p|e|]; [..|done].
  { eapply safe_hist; [done|apply safe_check|by apply Hpersist|done]. }
  case_match eqn:Hnf; [|by apply hist_fail]. apply hist_wrap.
  eapply hist_write; [apply rec_CreateProfile|eapply just_create_profile; [done|apply just_snoc]|].
  by intros [].
Qed.

Lemma safe_profileExists d : safe (validateManagedAgentInstallationWindowsProfileExists identity namespace zeroSpec d).
Proof. unfold validateManagedAgentInstallationWindowsProfileExists. safe_auto. Qed.
#[local] Hint Resolve safe_orRetain safe_target safe_ensureProfile safe_profileExists : installation.

Lemma safe_replay a configID desired :
  dda_key (ma_dda a) = agentKey →
  safe (validateAndRecoverFleetDatadogAgentInstallReplay identity SpecHash DeepDerivative conflictRetries a configID desired).
Proof. intros Hk. unfold validateAndRecoverFleetDatadogAgentInstallReplay. rewrite Hk. safe_auto. Qed.

Lemma safe_complete uid configID : safe (completeInstall identity namespace SpecHash zeroSpec conflictRetries uid configID).
Proof. unfold completeInstall. safe_auto. Qed.
#[local] Hint Resolve safe_replay safe_complete : installation.

Lemma safe_existing a configID spec :
  dda_key (ma_dda a) = agentKey →
  safe (installExisting identity namespace SpecHash DeepDerivative zeroSpec conflictRetries a configID spec).
Proof. intros Hk. unfold installExisting, publishPartial. safe_auto. Qed.

Lemma safe_created d configID :
  safe (installCreated identity namespace SpecHash zeroSpec conflictRetries d configID).
Proof. unfold installCreated, publishFleetDatadogAgentManagedAgentInstallationState. safe_auto. Qed.

(** A read of the target that is tried again. *)
Lemma hist_retryGet t0 retriable n (Φ : list (Call Spec) → outcome (ManagedAgent Spec) → Prop) :
  P t0 → (∀ t o, P t → (∀ a, o = Ret a → dda_key (ma_dda a) = agentKey) → Φ t o) →
  hist t0 (retryOnError retriable n (dcall (inst_GetAgent agentKey))) Φ.
Proof.
  intros Hp HΦ. apply (hist_retry J P); [|done]. intros t Ht.
  apply hist_GetAgent; [intros; by apply just_read|]. intros o Hk. split; [by apply HΦ; [apply Hpersist|]|auto].
Qed.

Lemma safe_recover e configID spec :
  safe (recoverCreate identity namespace SpecHash DeepDerivative conflictRetries e configID spec).
Proof.
  intros t0 Hp. unfold recoverCreate. case_match; [by apply hist_fail|].
  apply hist_bind, hist_attempt, hist_retryGet; [done|]. intros t [a|e'|] Ht Hk; [|by apply hist_fail|done].
  specialize (Hk a eq_refl). eapply safe_hist; [done| |done|done]. unfold publishPartial. safe_auto.
Qed.

Lemma safe_install installationID configID config :
  safe (installDatadogAgent identity namespace decodeConfig spec_Global SpecHash DeepDerivative zeroSpec conflictRetries
          installationID configID config).
Proof.
  unfold installDatadogAgent, validateFleetCredentialSecret. do 5 (apply safe_bind; [done|safe_auto|intros ?]).
  intros t Hp. apply hist_bind, hist_attempt, hist_GetAgent; [intros; by apply just_read|].
  intros [x|e|] Hk; [by apply safe_existing; [apply Hk|apply Hpersist]| |done].
  case_match eqn:Hnf; [by apply hist_fail|]. apply negb_false_iff in Hnf.
  apply hist_bind, hist_attempt. eapply hist_write; [apply rec_CreateAgent|by eapply just_create; [|apply just_snoc]|].
  intros [x|e'|]; [apply safe_created; auto|apply safe_recover; auto|done].
Qed.

Lemma safe_absent uid : safe (managedAgentInstallationResourcesAbsent identity namespace uid).
Proof.
  unfold managedAgentInstallationResourcesAbsent, datadogAgentInternalClusterResourcesRemoved, allListsEmpty. safe_auto.
Qed.
#[local] Hint Resolve safe_absent safe_install : installation.

Lemma safe_uninstall : safe (uninstallDatadogAgent identity namespace polls).
Proof.
  unfold uninstallDatadogAgent, waitForManagedAgentInstallationResourcesAbsent.
  apply safe_bind; [done|safe_auto|intros _]. intros t Hp.
  apply hist_bind, hist_attempt, hist_GetAgent; [intros; by apply just_read|].
  intros [a|e|] _; [|eapply safe_hist; [done|safe_auto|auto|done]|done].
  apply hist_bind, hist_of_sum; [done|]. intros owned Hc. case_match eqn:Hn; [by apply hist_fail|].
  apply negb_false_iff in Hn. rewrite Hn in Hc. apply hist_check; [done|]. intros Hid.
  apply hist_bind. eapply hist_mono; [apply hist_extends, safe_target; auto|].
  intros t1 [x|e|] (_ & t' & ->); [|done..].
  apply hist_bind, hist_attempt. eapply hist_write; [apply rec_DeleteAgent| |].
  { apply just_delete; [set_solver|by apply classified_ours]. }
  intros o. destruct o; cbn; [..|done]; (eapply safe_hist; [done|safe_auto|auto 10|done]).
Qed.
#[local] Hint Resolve safe_uninstall : installation.

(** *** What success means *)

Abbreviation profileKey := (managedAgentInstallationWindowsProfileKey namespace).

(** What is known of the history of a run that returns. *)
Definition returned {A} (Φ : list (Call Spec) → A → Prop) t (o : outcome A) : Prop :=
  match o with Ret x => Φ t x | _ => True end.

Lemma hist_last {A B} t0 (m : M A) (f : A → M B) Φ :
  P t0 → safe m → (∀ t x, P t → hist t (f x) (returned Φ)) → hist t0 (m ≫= f) (returned Φ).
Proof.
  intros Hp Hm Hf. apply hist_bind. eapply safe_hist; [done..|]. intros t [x|e|] Ht; [by apply Hf|done..].
Qed.

Lemma hist_orRetain {A} t0 uid (m : M A) Φ :
  P t0 → hist t0 m (returned Φ) → hist t0 (orRetain identity namespace conflictRetries uid m) (returned Φ).
Proof.
  intros Hp Hm. unfold orRetain, retainFleetDatadogAgentPartial, publishPartial. apply hist_bind, hist_attempt.
  eapply hist_mono; [by apply hist_extends|]. intros t [x|e|] (HΦ & t' & ->); [by apply hist_ret| |done].
  apply hist_last; [auto|safe_auto|]. intros t'' [configID|e'] Ht; [|by apply hist_fail].
  apply hist_last; [done|safe_auto|]. intros. by apply hist_fail.
Qed.

Lemma hist_target t0 :
  hist t0 (validateManagedAgentInstallationTarget identity namespace)
    (returned (λ t r, ∀ a, r = Some a → t = t0 ++ [GetAgent agentKey (Ret a)] ∧ ours identity (ma_dda a))).
Proof.
  apply hist_bind, hist_attempt, hist_GetAgent; [intros; by apply just_read|]. intros [a|e|] _; [|by case_match; [apply hist_ret|apply hist_fail]|done].
  apply hist_bind, hist_of_sum; [done|]. intros owned Hc. case_match eqn:Hn; [by apply hist_fail|].
  apply negb_false_iff in Hn. subst. apply hist_check; [done|]. intros Hid. apply hist_ret. intros a' [= <-].
  split; [done|by apply classified_ours].
Qed.

(** The profile of the Windows nodes, of this installation and of [d]. *)
Definition profile_of (d : DatadogAgent Spec) (p : ManagedProfile Spec) : Prop :=
  mp_DeletionTimestamp p = None ∧ profileOurs identity p = true ∧
  mp_Affinity p = Some [mkNSR LabelOSStable "In" ["windows"]] ∧ mp_Config p = Some zeroSpec ∧
  get_key (mp_Annotations p) ProviderAnnotationKey = WindowsProvider ∧
  ∃ owner, owner ∈ mp_OwnerReferences p ∧ or_Kind owner = "DatadogAgent" ∧ or_Name owner = dda_Name d ∧
           or_Controller owner = Some true ∧ (dda_UID d ≠ "" → or_UID owner = dda_UID d).

Lemma profile_validated d p :
  validateManagedAgentInstallationWindowsProfile identity namespace zeroSpec p d = None → profile_of d p.
Proof.
  unfold validateManagedAgentInstallationWindowsProfile, profile_of.
  case_bool_decide as Hdel; [done|]. destruct (profileOurs identity p); [|done]. cbn [negb].
  unfold requireManagedAgentInstallationWindowsProfileOwner. destruct (existsb _ _) eqn:Hex; [|done].
  rewrite (bool_decide_false (is_Some None)) by apply is_Some_None. intros Hrest.
  apply existsb_exists in Hex as (owner & Hin & Hcond). apply andb_true_iff in Hcond as [[Hc Hu]%andb_true_iff _].
  unfold controls in Hc. rewrite !andb_true_iff, !bool_decide_eq_true in Hc. cbn in Hc, Hu.
  destruct Hc as [[[_ Hk] Hn] Hcon].
  assert (Hr : get_key (mp_Annotations p) ProviderAnnotationKey = WindowsProvider ∧
               mp_Affinity p = Some [mkNSR LabelOSStable "In" ["windows"]] ∧ mp_Config p = Some zeroSpec).
  { cbn in Hrest. repeat case_bool_decide; by split_and?. }
  destruct Hr as (Ha & Haff & Hcfg). split_and!; [by apply eq_None_not_Some|done..|].
  exists owner. split_and!; [by apply list_elem_of_In|done..|]. intros Hne.
  rewrite bool_decide_false in Hu by done. cbn in Hu. by apply negb_true_iff, negb_false_iff, bool_decide_eq_true in Hu.
Qed.

(** The last two reads show an installation that is complete. *)
Definition complete configID t : Prop := ∃ t' a p,
  t = t' ++ [GetAgent agentKey (Ret a); GetProfile profileKey (Ret p)] ∧
  ours identity (ma_dda a) ∧ accepted SpecHash (ma_dda a) ∧ profile_of (ma_dda a) p ∧
  label (ma_dda a) fleetManagedAgentInstallationStateLabel = fleetManagedAgentInstallationStateReady ∧
  (configID ≠ "" → label (ma_dda a) fleetConfigIDLabel = configID).

Lemma hist_complete t0 uid configID :
  P t0 → hist t0 (completeInstall identity namespace SpecHash zeroSpec conflictRetries uid configID)
    (returned (λ t _, complete configID t)).
Proof.
  intros Hp. apply hist_bind. eapply hist_mono; [by apply hist_extends, hist_orRetain, hist_target|].
  intros t [observed|e|] (Ht & t1 & Ht1); [|done..]. assert (P t) by (subst; auto). clear t1 Ht1. cbn in Ht.
  destruct (validateFleetDatadogAgentInstallCompletion SpecHash observed uid configID) as [err|] eqn:Hcomp.
  { apply hist_bind. eapply hist_mono; [by apply (hist_orRetain _ _ _ (λ _ _, False)); [|apply hist_fail]|]. by intros ? []. }
  apply hist_bind. eapply hist_mono; [by apply (hist_orRetain _ _ _ (λ t' _, t' = t)); [|apply hist_ret]|].
  intros t' [[]|e|] Ht'; [|done..]. cbn in Ht'. subst t'.
  destruct observed as [a|]; [|done]. destruct (Ht a eq_refl) as [-> Ho].
  apply hist_check; [done|]. intros Hid. apply hist_orRetain; [done|]. apply hist_bind, hist_wrap.
  eapply hist_read; [apply rec_GetProfile|done|]. intros [p|e|]; [|done..]. cbn.
  destruct (validateManagedAgentInstallationWindowsProfile _ _ _ _ _) eqn:Hprof; [by apply hist_fail|]. apply hist_ret.
  cbn in Hcomp. case_match; [done|]. destruct (validateFleetOwnedDatadogAgent _ _) eqn:Hown; [done|].
  destruct (validateFleetDatadogAgentAcceptedSpec _ _) eqn:Hacc; [done|]. case_bool_decide as Hready; [|done].
  exists t0, a, p. rewrite <- app_assoc. split_and!;
    [done|done|by apply acceptedSpec_accepted|by apply profile_validated|done|by eapply owned_ours].
Qed.

Lemma hist_install t0 installationID configID config :
  P t0 → hist t0 (installDatadogAgent identity namespace decodeConfig spec_Global SpecHash DeepDerivative zeroSpec conflictRetries
             installationID configID config) (returned (λ t _, complete configID t)).
Proof.
  intros Hp. unfold installDatadogAgent, validateFleetCredentialSecret. do 5 (apply hist_last; [done|safe_auto|intros ? ? ?]).
  apply hist_bind, hist_attempt, hist_GetAgent; [intros; by apply just_read|]. intros [y|e|] Hk; [| |done].
  { specialize (Hk y eq_refl). unfold installExisting, publishPartial. apply hist_check; [done|]. intros _.
    do 5 (apply hist_last; [auto|safe_auto|intros ? ? ?]). by apply hist_complete. }
  case_match eqn:Hnf; [by apply hist_fail|]. apply negb_false_iff in Hnf.
  apply hist_bind, hist_attempt. eapply hist_write; [apply rec_CreateAgent|by eapply just_create; [|apply just_snoc]|].
  intros [y|e'|]; [| |done].
  - unfold installCreated, publishFleetDatadogAgentManagedAgentInstallationState.
    do 6 (apply hist_last; [auto|safe_auto|intros ? ? ?]). by apply hist_complete.
  - unfold recoverCreate. case_match; [by apply hist_fail|]. apply hist_bind, hist_attempt, hist_retryGet; [auto|].
    intros t' [y|e''|] Ht' Hy; [|by apply hist_fail|done]. specialize (Hy y eq_refl). unfold publishPartial.
    do 5 (apply hist_last; [done|safe_auto|intros ? ? ?]). by apply hist_fail.
Qed.

(** The UID a profile's owner is compared with: any, or that of the object that
    was deleted. *)
Definition removed uid t : Prop := uid = "" ∨ ∃ a, DeleteAgent a ∈ t ∧ dda_UID (ma_dda a) = uid.

Lemma removed_app uid t t' : removed uid t → removed uid (t ++ t').
Proof. intros [?|(a & ? & ?)]; [by left|right; exists a; set_solver]. Qed.

(** The labels of the cluster-wide objects that depend on the target. *)
Definition dependentLabels : gmap string string :=
  {[ "operator.datadoghq.com/managed-by-store" := "true";
     "app.kubernetes.io/managed-by" := "datadog-operator";
     "app.kubernetes.io/part-of" := NewPartOfLabelValue agentKey.1 ∅ agentKey.2 ]}.

(** The labels of the DatadogAgentInternals of the installation. *)
Definition installationLabels : gmap string string :=
  {[ "fleet.datadoghq.com/managed-agent-installation-provider" := Provider identity;
     "fleet.datadoghq.com/installation-id" := InstallationID identity;
     "fleet.datadoghq.com/target-id" := TargetID identity ]}.

(** The last reads show that nothing of the installation is left: no
    DatadogAgent, no profile of it, no DatadogAgentInternal, and none of the
    cluster-wide objects. *)
Definition gone t : Prop := ∃ t' e profile uid,
  t = t' ++ [GetAgent agentKey (Fail e); GetProfile profileKey profile; ListInternals installationLabels (Ret 0);
             ListCluster ClusterRoleList dependentLabels (Ret 0);
             ListCluster ClusterRoleBindingList dependentLabels (Ret 0);
             ListCluster APIServiceList dependentLabels (Ret 0)] ∧
  IsNotFound e = true ∧ removed uid t' ∧
  match profile with
  | Ret p => isManagedAgentInstallationWindowsProfile identity namespace p uid = false
  | Fail e' => IsNotFound e' = true
  | Panic => False
  end.

Lemma dependentLabels_listed :
  <[OperatorStoreLabelKey := "true"]>
    (<[AppKubernetesPartOfLabelKey := managedAgentInstallationPartOfLabelValue agentKey]>
     {[ AppKubernetesManageByLabelKey := "datadog-operator" ]}) = dependentLabels.
Proof.
  unfold dependentLabels, OperatorStoreLabelKey, AppKubernetesPartOfLabelKey, AppKubernetesManageByLabelKey. f_equal.
Qed.

(** A list that was empty. *)
Lemma hist_empty t0 kind l Φ :
  hist (t0 ++ [ListCluster kind l (Ret 0)]) Φ (returned (λ t b, b = true → gone t)) →
  hist t0 (n ← dcall (inst_ListCluster kind l); if negb (bool_decide (n = 0)) then mret false else Φ)
    (returned (λ t b, b = true → gone t)).
Proof.
  intros HΦ. apply hist_bind. eapply hist_read; [apply rec_ListCluster|done|]. intros [n|e|]; [|done..].
  case_bool_decide as Hn; [by subst|by apply hist_ret].
Qed.

Lemma hist_absent t0 uid :
  removed uid t0 →
  hist t0 (managedAgentInstallationResourcesAbsent identity namespace uid) (returned (λ t b, b = true → gone t)).
Proof.
  intros Huid. apply hist_bind, hist_attempt, hist_GetAgent; [intros; by apply just_read|].
  intros [a|e|] _; [by case_match; [apply hist_fail|apply hist_ret]| |done].
  case_match eqn:Hnf; [by apply hist_fail|]. apply negb_false_iff in Hnf.
  apply hist_bind, hist_attempt. eapply hist_read; [apply rec_GetProfile|done|]. intros profile.
  change (<[fleetManagedAgentInstallationProviderLabel := Provider identity]> _) with installationLabels.
  assert (Hk : match profile with
               | Ret p => isManagedAgentInstallationWindowsProfile identity namespace p uid = false
               | Fail e' => IsNotFound e' = true
               | Panic => False
               end →
    hist ((t0 ++ [GetAgent agentKey (Fail e)]) ++ [GetProfile profileKey profile])
      (n ← wrap "list managed DatadogAgentInternal resources" (dcall (inst_ListInternals installationLabels));
       if negb (bool_decide (n = 0)) then mret false
       else wrap "list managed DatadogAgent dependents"
              (datadogAgentInternalClusterResourcesRemoved (managedAgentInstallationPartOfLabelValue agentKey)))
      (returned (λ t b, b = true → gone t))).
  { intros Hp. apply hist_bind, hist_wrap. eapply hist_read; [apply rec_ListInternals|done|]. intros [n|e'|]; [|done..].
    case_bool_decide as Hn; [subst|by apply hist_ret]. apply hist_wrap.
    eapply (hist_mono _ _ _ (returned (λ t b, b = true → gone t))); [|by intros ? []].
    unfold datadogAgentInternalClusterResourcesRemoved. rewrite dependentLabels_listed.
    do 3 apply hist_empty. apply hist_ret. intros _. exists t0, e, profile, uid.
    rewrite <- !app_assoc. split_and!; done. }
  destruct profile as [p|e'|]; [..|done]; cbn.
  - destruct (isManagedAgentInstallationWindowsProfile _ _ p uid) eqn:Hm; [by apply hist_ret|by apply Hk].
  - destruct (IsNotFound e') eqn:Hn; [by apply Hk|by apply hist_fail].
Qed.

Lemma hist_wait t0 msg uid :
  removed uid t0 →
  hist t0 (wrap msg (waitForManagedAgentInstallationResourcesAbsent identity namespace polls uid)) (returned (λ t _, gone t)).
Proof.
  intros Huid. apply hist_wrap. eapply hist_mono; [|by intros ? []].
  apply (hist_poll J (removed uid)); [|done]. intros t Ht. eapply hist_mono; [by apply hist_extends, hist_absent|].
  intros t' [[]|e|] (Hb & t1 & ->); try done; [by apply Hb|]. split; [by apply removed_app|done].
Qed.

Lemma hist_uninstall t0 : P t0 → hist t0 (uninstallDatadogAgent identity namespace polls) (returned (λ t _, gone t)).
Proof.
  intros Hp. apply hist_last; [done|safe_auto|]. intros t _ Ht.
  apply hist_bind, hist_attempt, hist_GetAgent; [intros; by apply just_read|].
  intros [a|e|] _; [|by case_match; [apply hist_wait; left|apply hist_fail]|done].
  apply hist_bind, hist_of_sum; [done|]. intros owned Hc. case_match eqn:Hn; [by apply hist_fail|].
  apply negb_false_iff in Hn. rewrite Hn in Hc. apply hist_check; [done|]. intros Hid.
  apply hist_bind. eapply hist_mono; [apply hist_extends, safe_target; auto|].
  intros t1 [x|e|] (_ & t' & ->); [|done..].
  apply hist_bind, hist_attempt. eapply hist_write; [apply rec_DeleteAgent| |].
  { apply just_delete; [set_solver|by apply classified_ours]. }
  assert (Hrm : ∀ t, removed (dda_UID (ma_dda a)) (t ++ [DeleteAgent a])) by (intros; right; exists a; set_solver).
  intros [[]|e|]; cbn; [..|done]; [|case_match; [|by apply hist_bind, hist_fail]]; apply hist_bind, hist_ret; by apply hist_wait.
Qed.
End Safety.
#[export] Hint Resolve safe_GetAgent safe_GetProfile safe_GetConfigMap safe_CtxErr safe_target safe_profileExists
  safe_install safe_uninstall : installation.
