(* ===== verification/InstallTheorems.v ===== *)
(** * Correctness of managed Agent installations.

    Whatever other writers do between two calls: a turn of the worker writes only
    what is its own, an installation that succeeds saw itself complete, and a
    removal that succeeds saw nothing left. *)

From Stdlib Require Import ZArith Lia.
From stdpp Require Import base gmap strings list.
From S2P Require Import Prelude GoRun Cluster Experiment Status Profiles Objects Store ApplyTheorems FleetData Fleet Identity Install.
From S2P Require Import InstallIntent InstallFacts InstallHistory.

(** ** The recorded progress, the command and the worker *)

Section Worker.
Context {W Spec : Type} `{RecordedClient W Spec, CredentialsOf Spec, !EqDecision Spec, UUIDs}.
Context {HRepeating : Repeating}.
Context (identity : option ManagedAgentInstallationIdentity) (namespace : string).
Context (decodeConfig : option json → option Spec + error) (spec_Global : Spec → option GlobalCredentials).
Context (SpecHash : Spec → string + error) (DeepDerivative : Spec → Spec → bool) (zeroSpec : Spec).
Context (conflictRetries polls : nat).
Context (decodeEKSIntent : string → eksManagedAgentInstallationIntent + error) (trailingContent : string → bool).
Context (digestOf : normalizedManagedAgentInstallationIntent → string + error).
Abbreviation M := (GoM (DaemonState W)).
Abbreviation decode := (decodeManagedAgentInstallationIntent decodeEKSIntent trailingContent digestOf identity).
Abbreviation J := (justified identity namespace SpecHash zeroSpec decode).
Abbreviation hist := (hist J).
Abbreviation stateKey := (managedAgentInstallationStateKey namespace).
Abbreviation intentKey := (managedAgentInstallationIntentKey namespace).
Implicit Types (t : list (Call Spec)).

Section Command.
Context (P : list (Call Spec) → Prop) (Hpersist : ∀ t t', P t → P (t ++ t')).
Abbreviation safe := (safe J P).

Lemma safe_writeState state op :
  (∀ t, P t → admissible namespace decode t state) →
  safe (writeManagedAgentInstallationStateForOperation namespace conflictRetries state op).
Proof.
  intros Hadm. apply safe_retry; [done|]. intros t0 Hp. unfold writeStateOnce.
  apply hist_bind, hist_attempt. eapply hist_read; [apply rec_ClientGetConfigMap|done|].
  intros [current|e|]; cbn; [..|done].
  - unfold validateManagedAgentInstallationStateOwner. apply hist_bind, hist_bind, hist_wrap.
    eapply hist_read; [apply rec_GetConfigMap|done|]. intros [intent|e|]; cbn; [..|done|done].
    apply hist_wrap. destruct (requireManagedAgentInstallationResourceOwner _ _) eqn:Ho; [by apply hist_fail|].
    apply hist_ret. case_match; [by apply hist_ret|]. eapply hist_write; [apply rec_PatchConfigMap| |done].
    eapply just_patch_state; [by apply just_snoc_read; [apply just_snoc|..]|apply just_snoc|done|auto].
  - case_match eqn:Hnf; [by apply hist_fail|]. case_match; [by apply hist_fail|]. apply negb_false_iff in Hnf.
    apply hist_bind, hist_wrap. eapply hist_read; [apply rec_GetConfigMap|done|]. intros [intent|e'|]; cbn; [..|done|done].
    eapply hist_write; [apply rec_CreateConfigMap| |done].
    eapply just_create_state; [done|by apply just_snoc_read; [apply just_snoc|..]|apply just_snoc|auto].
Qed.

Lemma safe_setTaskState pkg id st err : safe (setTaskState pkg id st err).
Proof. by apply safe_modify. Qed.
Lemma safe_setConfigs pkg st ex : safe (setPackageConfigVersions pkg st ex).
Proof. by apply safe_modify. Qed.
Lemma safe_retryAfter : safe requestManagedAgentInstallationRetryAfter.
Proof. by apply safe_modify. Qed.
#[local] Hint Resolve safe_setTaskState safe_setConfigs safe_retryAfter : installation.

(** A command whose states are admissible. *)
Context (command : managedAgentInstallationCommand).
Context (Hcommand : ∀ t taskState taskErr,
  P t → admissible namespace decode t (managedAgentInstallationStateFromCommand command taskState taskErr)).

Lemma safe_record st err : safe (recordManagedAgentInstallationResult namespace conflictRetries command st err).
Proof. apply safe_wrap; [done|]. apply safe_writeState. auto. Qed.

Lemma safe_begin : safe (writeManagedAgentInstallationState namespace conflictRetries
                           (managedAgentInstallationStateFromCommand command TaskState_RUNNING None)).
Proof. apply safe_writeState. auto. Qed.
#[local] Hint Resolve safe_record safe_begin : installation.

Lemma safe_reject st err : safe (reject namespace conflictRetries command st err).
Proof. unfold reject, recordOrRetry. safe_auto. Qed.
#[local] Hint Resolve safe_reject : installation.

Lemma safe_execute :
  safe (executeManagedAgentInstallationCommand identity namespace decodeConfig spec_Global SpecHash DeepDerivative zeroSpec
          conflictRetries polls command).
Proof.
  unfold executeManagedAgentInstallationCommand, dispatchManagedAgentInstallationCommand, installationFailed, recordOrRetry,
    ctxAlive, scheduleManagedAgentInstallationCredentialRetry, requestManagedAgentInstallationRetryAfterDelay.
  safe_auto.
Qed.
#[local] Hint Resolve safe_execute : installation.

Context (taskRunner : option (M unit → M unit)).
Context (Hrunner : ∀ run, taskRunner = Some run → ∀ m, safe m → safe (run m)).

Lemma safe_handleCommand :
  safe (handleManagedAgentInstallationCommand identity namespace decodeConfig spec_Global SpecHash DeepDerivative zeroSpec
          conflictRetries polls taskRunner command).
Proof.
  unfold handleManagedAgentInstallationCommand, managedAgentInstallationShouldWaitForFleet, getPackageConfigVersions,
    finishManagedAgentInstallationTaskAndRelease.
  repeat first [ by eapply Hrunner; [done|]; safe_auto
               | apply safe_modify; intros ?; by unfold finishManagedAgentInstallationTaskLocked; case_match | safe_step ].
Qed.
#[local] Hint Resolve safe_handleCommand : installation.

Lemma safe_terminal current :
  safe (reconcileTerminalManagedAgentInstallation identity namespace decodeConfig spec_Global SpecHash DeepDerivative zeroSpec
          conflictRetries polls taskRunner current command).
Proof. unfold reconcileTerminalManagedAgentInstallation. safe_auto. Qed.
End Command.
#[local] Hint Resolve safe_setTaskState safe_handleCommand safe_terminal : installation.

(** The runner of tasks makes the calls of its task; the other goroutines make
    justified calls. *)
Context (taskRunner : option (M unit → M unit)) (waitDone : M unit) (refresher : option (M unit)).
Context (Hrunner : ∀ run, taskRunner = Some run → ∀ P m, safe J P m → safe J P (run m)).
Context (Hwait : safe J (λ _, True) waitDone) (Hrefresh : ∀ refresh, refresher = Some refresh → safe J (λ _, True) refresh).

Lemma safe_always {A} (m : M A) (P : list (Call Spec) → Prop) : safe J (λ _, True) m → safe J P m.
Proof. intros Hm t0 _. by apply Hm. Qed.
#[local] Hint Resolve safe_always : installation.

Section Intent.
Context (P : list (Call Spec) → Prop) (Hpersist : ∀ t t', P t → P (t ++ t')).
Abbreviation safe := (safe J P).

Lemma safe_refresh : safe (refreshManagedAgentInstallationUpdaterTags refresher).
Proof.
  unfold refreshManagedAgentInstallationUpdaterTags. apply safe_bind; [done|safe_auto|]. intros [rc|]; [|safe_auto].
  destruct refresher as [r|]; [apply safe_wrap; [done|]; by apply safe_always, Hrefresh|safe_auto].
Qed.
#[local] Hint Resolve safe_refresh : installation.

Lemma safe_acknowledged current :
  safe (reconcileAcknowledgedManagedAgentInstallation identity namespace zeroSpec refresher current).
Proof.
  unfold reconcileAcknowledgedManagedAgentInstallation, validateAcknowledgedManagedAgentInstallation.
  repeat first [apply safe_modify; intros ?; by case_match | safe_step].
Qed.

Lemma safe_slot intent : safe (waitForManagedAgentInstallationSlot waitDone intent).
Proof. unfold waitForManagedAgentInstallationSlot. safe_auto. Qed.
End Intent.

(** What was read is seen. *)
Lemma hist_readState t0 raw :
  (∃ cm, GetConfigMap intentKey (Ret cm) ∈ t0 ∧ get_key (cm_Data cm) managedAgentInstallationIntentDataKey = raw) →
  hist t0 (readManagedAgentInstallationState namespace) (returned (λ t r, seen namespace t raw r)).
Proof.
  intros Hraw. unfold readManagedAgentInstallationState. apply hist_bind, hist_attempt.
  eapply hist_read; [apply rec_GetConfigMap|done|]. intros [cm|e|]; [..|done].
  - unfold validateManagedAgentInstallationStateOwner. apply hist_bind, hist_bind, hist_wrap.
    eapply hist_read; [apply rec_GetConfigMap|done|]. intros [intent|e|]; [|done..]. apply hist_wrap.
    destruct (requireManagedAgentInstallationResourceOwner _ _); [by apply hist_fail|]. apply hist_ret.
    apply hist_bind, hist_of_sum; [done|]. intros state Hs. apply hist_ret. split; [set_solver|].
    exists cm. split; [set_solver|done].
  - case_match eqn:Hnf; [|by apply hist_fail]. apply hist_ret. split; [set_solver|]. exists e. split; [set_solver|done].
Qed.

Section Seen.
Context (raw : string) (current : option managedAgentInstallationPersistedState).
Context (intent : managedAgentInstallationIntent) (config : option json) (digest : string).
Context (Hdecode : decode raw = inl (intent, config, digest)).
Context (Hprogress : validateManagedAgentInstallationProgress current intent digest = None).
Abbreviation P := (λ t, seen namespace t raw current).
Abbreviation safe := (safe J P).

Lemma seen_persists t t' : P t → P (t ++ t').
Proof. apply seen_app. Qed.

Lemma command_admissible t st err :
  int_DesiredState intent ≠ managedAgentInstallationDesiredStateInstalled ∨ int_AcknowledgedOperationID intent = "" →
  P t → admissible namespace decode t (managedAgentInstallationStateFromCommand (mkCommand intent config digest) st err).
Proof. intros Hi Hp. exists raw, current. split; [done|]. by apply (advance_command _ _ _ intent config digest). Qed.

Lemma safe_acknowledge :
  safe (acknowledgeManagedAgentInstallationInstall identity namespace SpecHash zeroSpec conflictRetries refresher current intent).
Proof.
  pose proof seen_persists as Hpersist. pose proof (safe_acknowledged P Hpersist) as Hack.
  unfold acknowledgeManagedAgentInstallationInstall, writeManagedAgentInstallationState.
  destruct current as [state|] eqn:Ec; [|safe_auto]. case_match eqn:Hfirst; [safe_auto|]. case_match; [safe_auto|].
  apply safe_bind; [done|safe_auto|]. intros a. apply safe_bind; [done|safe_auto|]. intros _.
  apply safe_bind; [done|safe_auto|]. intros _. apply safe_bind; [done| |safe_auto].
  apply safe_wrap; [done|]. apply safe_writeState; [done|]. intros t Hp. exists raw, (Some state). split; [done|].
  rewrite !orb_false_iff, !negb_false_iff, !bool_decide_eq_true in Hfirst. destruct Hfirst as [[Hi Ho] Hd].
  by apply (advance_acknowledged _ _ _ intent config digest state).
Qed.
End Seen.

Abbreviation worker :=
  (runManagedAgentInstallationIntentWorker identity namespace decodeConfig spec_Global SpecHash DeepDerivative zeroSpec
     conflictRetries polls decodeEKSIntent trailingContent digestOf taskRunner waitDone refresher).

Lemma safe_handleIntent raw :
  safe J (λ t, ∃ cm, GetConfigMap intentKey (Ret cm) ∈ t ∧ get_key (cm_Data cm) managedAgentInstallationIntentDataKey = raw)
    (handleManagedAgentInstallationIntent identity namespace decodeConfig spec_Global SpecHash DeepDerivative zeroSpec
       conflictRetries polls decodeEKSIntent trailingContent digestOf taskRunner waitDone refresher raw).
Proof.
  intros t0 Hraw. unfold handleManagedAgentInstallationIntent.
  destruct (decode raw) as [[[intent config] digest]|err] eqn:Hd; [|by apply hist_fail]. cbv zeta.
  apply hist_bind. eapply hist_mono; [by apply hist_readState|]. intros t [current|e|] Hseen; [|done..]. cbn in Hseen.
  pose proof (seen_persists raw current) as Hp.
  destruct (validateManagedAgentInstallationProgress current intent digest) as [err|] eqn:Hv.
  { eapply safe_hist; [exact Hp|safe_auto|exact Hseen|done]. }
  case_match eqn:Hinst.
  { case_match; (eapply safe_hist; [exact Hp| |exact Hseen|done]); [by apply safe_acknowledged|by eapply safe_acknowledge]. }
  assert (Hcmd : int_DesiredState intent ≠ managedAgentInstallationDesiredStateInstalled ∨
                 int_AcknowledgedOperationID intent = "").
  { apply andb_false_iff in Hinst as [Hi|Hi]; [left; by apply bool_decide_eq_false in Hi|right].
    by apply negb_false_iff, bool_decide_eq_true in Hi. }
  pose proof (λ c Hv t st err, command_admissible raw c intent config digest Hd Hv t st err Hcmd) as Hadm.
  apply hist_bind. eapply safe_hist; [exact Hp| |exact Hseen|].
  { pose proof (safe_refresh _ Hp). safe_auto. }
  intros t1 [[]|e|] Hs1; [|done..]. cbv beta in Hs1. destruct (ended current intent) as [state|].
  { eapply safe_hist; [exact Hp| |exact Hs1|done]. apply safe_terminal; eauto. }
  apply hist_bind. eapply safe_hist; [exact Hp|by apply safe_slot|exact Hs1|].
  intros t2 [[]|e|] [Hraw2 _]; [|done..]. apply hist_bind. eapply hist_mono; [by apply hist_readState|].
  intros t3 [current'|e|] Hseen'; [|done..]. cbn in Hseen'. pose proof (seen_persists raw current') as Hp'.
  destruct (validateManagedAgentInstallationProgress current' intent digest) eqn:Hv'; [by apply hist_fail|].
  destruct (ended current' intent) as [state|]; (eapply safe_hist; [exact Hp'| |exact Hseen'|done]);
    [apply safe_terminal|apply safe_handleCommand]; eauto.
Qed.

Lemma hist_worker : hist [] worker (λ _ _, True).
Proof.
  unfold runManagedAgentInstallationIntentWorker. apply hist_bind, hist_attempt, hist_bind, hist_bind, hist_wrap.
  eapply hist_read; [apply rec_GetConfigMap|done|]. intros [cm|e|]; [|by apply hist_ret|done].
  apply hist_ret. eapply hist_mono; [apply safe_handleIntent; exists cm; split; [set_solver|done]|].
  intros t [[]|e|] _; [by apply hist_ret..|done].
Qed.

(** C19: the daemon writes only what is its own.  Whatever other writers do and
    whatever the API server answers, every write of a turn of the worker is
    justified by the answers before it: a DatadogAgent is created only when the
    last read found none; one is patched only as it was read last, when its
    labels say that it belongs to this installation, and only its state label or
    recorded hash changes, the state to ready only if its spec is the accepted
    one with Fleet's credentials; one is deleted only after it was read with
    those labels; the profile is created only when absent; and progress is
    recorded only where the intent owns the record, as what the intent that was
    read makes of the progress that was read. *)
Theorem installation_writes_its_own s :
  ∃ t, trace (ds_world (worker s).1) = trace (ds_world s) ++ t ∧
       ∀ t1 c t2, t = t1 ++ c :: t2 → justified identity namespace SpecHash zeroSpec decode t1 c.
Proof. destruct (hist_worker s) as (t & Ht & Hj & _). by exists t. Qed.
End Worker.

(** ** Success *)

(** The lists of a removal find what a store of the target wrote. *)
Lemma dependents_are_listed {S : Type} parse (ds : Store S) own kind o o' namespace :
  owner ds = Some own → own_Namespace own = namespace → GetDDAName (own_Labels own) (own_Name own) = fleetDatadogAgentName →
  decorate parse ds kind o = inl o' → dependentLabels namespace ⊆ o_Labels o'.
Proof.
  intros Hown Hns Hname Hdec. rewrite (decorate_labels _ _ _ _ _ _ Hown Hdec). unfold dependentLabels.
  apply map_subseteq_spec. intros k v. rewrite !lookup_insert_Some, lookup_singleton_Some.
  intros [[<- <-]|(_ & [[<- <-]|(_ & <- & <-)])].
  - rewrite lookup_union_r by apply default_label_store. destruct (isDDAControllerStore ds); by simplify_map_eq.
  - apply lookup_union_Some_l. apply default_label_managedBy.
  - apply lookup_union_Some_l. fold AppKubernetesPartOfLabelKey. rewrite default_label_partOf, Hns.
    unfold NewPartOfLabelValue. by rewrite Hname.
Qed.

Section Success.
Context {W Spec : Type} `{RecordedClient W Spec, CredentialsOf Spec, !EqDecision Spec}.
Context {HRepeating : Repeating}.
Context (identity : option ManagedAgentInstallationIdentity) (namespace : string).
Context (decodeConfig : option json → option Spec + error) (spec_Global : Spec → option GlobalCredentials).
Context (SpecHash : Spec → string + error) (DeepDerivative : Spec → Spec → bool) (zeroSpec : Spec).
Context (conflictRetries polls : nat).

(** No intent is decoded while one is carried out. *)
Definition noUUIDs : UUIDs := {| UUID := unit; uuid_Parse := λ _, None; uuid_Nil := tt; uuid_String := λ _, "" |}.
Abbreviation decodeNone := (λ _, inr (Errorf "")).

(** C20: an installation that succeeds is complete.  When [installDatadogAgent]
    returns no error, its last two reads are of the target, which belongs to
    this installation, carries the operation's configuration, is labelled ready,
    and whose spec is the accepted one with Fleet's credentials; and of the
    Windows profile, which is the pinned one, belongs to this installation and
    is controlled by that DatadogAgent. *)
Theorem installed_agent_is_complete installationID configID config s s' :
  installDatadogAgent identity namespace decodeConfig spec_Global SpecHash DeepDerivative zeroSpec conflictRetries
    installationID configID config s = (s', Ret tt) →
  ∃ t, trace (ds_world s') = trace (ds_world s) ++ t ∧ complete identity namespace SpecHash zeroSpec configID t.
Proof.
  intros Hrun. destruct (hist_install (H2 := noUUIDs) identity namespace decodeConfig spec_Global SpecHash DeepDerivative zeroSpec
    conflictRetries decodeNone (λ _, false) (λ _, inl "") (λ _, True) (λ _ _ _, I) [] installationID configID config I s) as (t & Ht & _ & Hr).
  rewrite Hrun in Ht, Hr. by exists t.
Qed.

(** C21: a removal that succeeds left nothing.  When [uninstallDatadogAgent]
    returns no error, its last reads found no DatadogAgent at the target, no
    Windows profile of the installation (of the deleted DatadogAgent, if there was
    one), no DatadogAgentInternal with exactly the installation's provider,
    installation and target labels, and no cluster role, cluster role binding or
    API service that the stores of the operator label as part of the target: the
    labels these lists ask for are all given to whatever a store of that
    DatadogAgent, or of a DatadogAgentInternal of it, writes. *)
Theorem uninstalled_agent_is_gone s s' :
  uninstallDatadogAgent identity namespace polls s = (s', Ret tt) →
  (∃ t, trace (ds_world s') = trace (ds_world s) ++ t ∧ gone identity namespace t) ∧
  ∀ (S : Type) (_ : EqDecision S) ParseGroupVersion (ds : Store S) own kind o o',
    owner ds = Some own → own_Namespace own = namespace → GetDDAName (own_Labels own) (own_Name own) = fleetDatadogAgentName →
    decorate ParseGroupVersion ds kind o = inl o' → dependentLabels namespace ⊆ o_Labels o'.
Proof.
  intros Hrun. split.
  - destruct (hist_uninstall (H2 := noUUIDs) identity namespace (λ _, None) (λ _, inl "") (λ _ _, true) zeroSpec polls decodeNone
      (λ _, false) (λ _, inl "") (λ _, True) (λ _ _ _, I) [] I s) as (t & Ht & _ & Hr). rewrite Hrun in Ht, Hr. by exists t.
  - intros S ? parse ds own kind o o' Hown Hns Hname Hdec. by eapply dependents_are_listed.
Qed.
End Success.
