(* ===== verification/IntentTheorems.v ===== *)
(** * The protocol of installation intents.

    Recorded progress survives its encoding; over any accepted history of intents
    one operation installs, one removes, and nothing goes back; and the target ID
    of a cluster is a label that no other cluster has. *)

From Stdlib Require Import ZArith Lia Ascii.
From stdpp Require Import base gmap strings list relations.
From S2P Require Import Prelude GoRun Cluster Experiment Status FleetData Fleet Identity Install InstallIntent.
From S2P Require Import InstallFacts InstallHistory.

(** ** Recorded progress *)

(** What a state that can be read back has. *)
Definition complete_state (state : managedAgentInstallationPersistedState) : Prop :=
  pst_Provider state ≠ "" ∧ pst_InstallationID state ≠ "" ∧ pst_TargetID state ≠ "" ∧ pst_OperationID state ≠ "" ∧
  pst_Digest state ≠ "" ∧ isDesiredState (pst_DesiredState state) = true ∧ pst_TaskState state ≠ TaskState_IDLE.

Lemma parse_task_state s :
  s ≠ TaskState_IDLE → parseManagedAgentInstallationTaskState (TaskState_String s) = inl s.
Proof. by destruct s. Qed.

Lemma state_keys state :
  let get k := get_key (managedAgentInstallationStateData state) k in
  get managedAgentInstallationStateProviderKey = pst_Provider state ∧
  get managedAgentInstallationStateInstallationIDKey = pst_InstallationID state ∧
  get managedAgentInstallationStateTargetIDKey = pst_TargetID state ∧
  get managedAgentInstallationStateOperationIDKey = pst_OperationID state ∧
  get managedAgentInstallationStateDigestKey = pst_Digest state ∧
  get managedAgentInstallationStateDesiredStateKey = pst_DesiredState state ∧
  get managedAgentInstallationStateAcknowledgedKey = pst_AcknowledgedOperationID state ∧
  get managedAgentInstallationStateTaskStateKey = TaskState_String (pst_TaskState state) ∧
  get managedAgentInstallationStateErrorKey = pst_Error state.
Proof. split_and!; vm_compute; reflexivity. Qed.

Lemma parsed_complete state data : parseManagedAgentInstallationState data = inl state → complete_state state.
Proof.
  unfold parseManagedAgentInstallationState, complete_state.
  destruct (parseManagedAgentInstallationTaskState _) as [ts|] eqn:Hts; [|done].
  case_match eqn:Hne; [done|]. destruct (isDesiredState _) eqn:Hd; [|done]. intros [= <-]. cbn in *.
  rewrite !orb_false_iff, !bool_decide_eq_false in Hne. destruct Hne as [[[[? ?] ?] ?] ?].
  split_and!; [done..|]. unfold parseManagedAgentInstallationTaskState in Hts. intros ->.
  destruct (filter _ _) as [|x l] eqn:Hf; [done|]. injection Hts as ->.
  assert (TaskState_IDLE ∈ filter (λ s, TaskState_String s = get_key data managedAgentInstallationStateTaskStateKey)
            [TaskState_RUNNING; TaskState_DONE; TaskState_ERROR; TaskState_INVALID_STATE]) as Hin
    by (rewrite Hf; apply list_elem_of_here).
  apply list_elem_of_filter in Hin as [_ Hin]. set_solver.
Qed.

(** Recorded progress is read back as it was written, exactly when it is
    complete: its installation, operation and digest are there, and its desired
    and task states are known ones. *)
Theorem progress_roundtrip state :
  parseManagedAgentInstallationState (managedAgentInstallationStateData state) = inl state ↔ complete_state state.
Proof.
  split; [apply parsed_complete|]. intros (Hp & Hi & Ht & Ho & Hg & Hd & Hs).
  unfold parseManagedAgentInstallationState.
  destruct (state_keys state) as (-> & -> & -> & -> & -> & -> & -> & -> & ->). rewrite parse_task_state by done.
  cbn [pst_Provider pst_InstallationID pst_TargetID pst_OperationID pst_Digest pst_DesiredState].
  rewrite !bool_decide_false by done. rewrite Hd. cbn [orb negb]. by destruct state.
Qed.

(** ** Accepted histories *)

Section Protocol.
Context `{UUIDs}.
Context (decodeEKSIntent : string → eksManagedAgentInstallationIntent + error) (trailingContent : string → bool).
Context (digestOf : normalizedManagedAgentInstallationIntent → string + error).
Context (identity : option ManagedAgentInstallationIdentity).
(** SHA-256 has no collisions. *)
Context (digest_inj : ∀ n n' h, digestOf n = inl h → digestOf n' = inl h → n = n').
Abbreviation decode := (decodeManagedAgentInstallationIntent decodeEKSIntent trailingContent digestOf identity).
Abbreviation persisted := managedAgentInstallationPersistedState.
Abbreviation installed := managedAgentInstallationDesiredStateInstalled.
Abbreviation absent := managedAgentInstallationDesiredStateAbsent.

(** What a decoded intent satisfies. *)
Lemma decoded raw intent config digest :
  decode raw = inl (intent, config, digest) →
  (int_DesiredState intent = installed ∨ int_DesiredState intent = absent) ∧
  (int_DesiredState intent = installed → int_AcknowledgedOperationID intent = "" ∨
                                         int_AcknowledgedOperationID intent = int_OperationID intent) ∧
  digestOf (mkNormalized (int_Version intent) (int_Provider intent) (int_InstallationID intent) (int_TargetID intent)
              (int_OperationID intent) (int_DesiredState intent) (int_Bootstrap intent)) = inl digest.
Proof.
  unfold decodeManagedAgentInstallationIntent, decodeEKSManagedAgentInstallationIntent.
  case_bool_decide; [|done]. do 2 (destruct (bool_decide _); [done|]). destruct (decodeEKSIntent raw) as [i|]; [|done].
  cbv zeta. repeat (case_match; try done). intros [= <- <- <-]. cbn.
  match goal with E : eksConfig i = inl _ |- _ => unfold eksConfig in E; rename E into Hc end.
  match goal with E : validateAcknowledgement i = None |- _ => unfold validateAcknowledgement in E; rename E into Ha end.
  split_and!; [|intros Hi|done].
  - repeat case_bool_decide; naive_solver.
  - clear -Ha Hi. repeat case_bool_decide; [by left|..]; repeat (case_match; try done); by right.
Qed.

(** One intent accepted after another. *)
Definition next (a b : persisted) : Prop := ∃ raw, advances decode raw (Some a) b.

(** Progress that was recorded for an accepted intent. *)
Inductive reachable : persisted → Prop :=
  | reach_first raw a : advances decode raw None a → reachable a
  | reach_next a b : reachable a → next a b → reachable b.

(** The digest of a recorded state is of an intent with its operation. *)
Definition digested (a : persisted) : Prop :=
  ∃ n, digestOf n = inl (pst_Digest a) ∧ nor_OperationID n = pst_OperationID a ∧ nor_DesiredState n = pst_DesiredState a.

(** An operation keeps its content; a removal is final; an acknowledgement
    stays; a removal is another operation than the install. *)
Definition forward (a b : persisted) : Prop :=
  (pst_Provider b = pst_Provider a ∧ pst_InstallationID b = pst_InstallationID a ∧ pst_TargetID b = pst_TargetID a) ∧
  (pst_AcknowledgedOperationID a ≠ "" → pst_AcknowledgedOperationID b = pst_AcknowledgedOperationID a) ∧
  (pst_DesiredState b = pst_DesiredState a → pst_OperationID b = pst_OperationID a ∧ pst_Digest b = pst_Digest a) ∧
  (pst_DesiredState a = absent →
     pst_DesiredState b = absent ∧ pst_AcknowledgedOperationID b = pst_AcknowledgedOperationID a) ∧
  (pst_DesiredState b ≠ pst_DesiredState a → pst_OperationID b ≠ pst_OperationID a).

Lemma forward_refl a : forward a a.
Proof. unfold forward. naive_solver. Qed.

(** What every recorded state satisfies. *)
Definition state_inv (a : persisted) : Prop :=
  (pst_DesiredState a = installed ∨ pst_DesiredState a = absent) ∧ digested a ∧
  (pst_DesiredState a = installed → pst_AcknowledgedOperationID a = "" ∨
                                    pst_AcknowledgedOperationID a = pst_OperationID a).

Lemma forward_trans a b c :
  (pst_DesiredState a = installed ∨ pst_DesiredState a = absent) →
  (pst_DesiredState b = installed ∨ pst_DesiredState b = absent) →
  (pst_DesiredState c = installed ∨ pst_DesiredState c = absent) → forward a b → forward b c → forward a c.
Proof.
  intros Ha Hb Hc ([? [? ?]] & Hack1 & Hop1 & Habs1 & Hne1) ([? [? ?]] & Hack2 & Hop2 & Habs2 & Hne2).
  assert (installed ≠ absent) by done.
  unfold forward. split_and!; try congruence.
  - intros Hn. rewrite Hack2; auto. rewrite Hack1; auto.
  - intros Hca. destruct (decide (pst_DesiredState b = pst_DesiredState a)) as [Hba|Hba]; [|naive_solver congruence].
    destruct (Hop1 Hba), (Hop2 ltac:(congruence)). split; congruence.
  - intros Haa. destruct (Habs1 Haa) as [Hba ?], (Habs2 Hba). split; congruence.
  - intros Hca. destruct (decide (pst_DesiredState b = pst_DesiredState a)) as [Hba|Hba].
    + destruct (Hop1 Hba) as [<- _]. apply Hne2. congruence.
    + assert (pst_DesiredState c = pst_DesiredState b) as Hcb by naive_solver congruence.
      destruct (Hop2 Hcb) as [-> _]. auto.
Qed.

Lemma advances_inv raw current a :
  (∀ c, current = Some c → state_inv c) → advances decode raw current a → state_inv a.
Proof.
  intros Hinv [intent config digest st err Hd Hv Hi|intent config digest state Hd Hv -> Hs Ht Ho].
  - destruct (decoded _ _ _ _ Hd) as (Hdes & _ & Hdig). split_and!; [done|by eexists|]. cbn. naive_solver.
  - destruct (Hinv _ eq_refl) as (Hdes & (n & Hn) & Hack). split_and!; [done|by exists n|]. cbn. intros _. right. by rewrite Ho.
Qed.

Lemma reachable_inv a : reachable a → state_inv a.
Proof.
  induction 1 as [raw a Ha|a b _ IH [raw Hb]]; [by eapply advances_inv; [|done]|].
  eapply advances_inv; [|done]. by intros c [= <-].
Qed.

Lemma next_forward a b : state_inv a → next a b → forward a b.
Proof.
  intros (Hdes & (n & Hn & Hno & Hnd) & Hack) [raw Hadv].
  assert (installed ≠ absent) as Hia by done.
  inversion Hadv as [intent config digest st err Hd Hv Hi|intent config digest state Hd Hv [= ->] Hs Ht Ho]; subst.
  - destruct (decoded _ _ _ _ Hd) as (Hides & Hiack & Hdig). unfold validateManagedAgentInstallationProgress in Hv.
    case_match eqn:Hid; [done|].
    rewrite !orb_false_iff, !negb_false_iff, !bool_decide_eq_true in Hid. destruct Hid as [[Hp Hin] Htg].
    unfold forward. cbn. destruct (decide (int_OperationID intent = pst_OperationID a)) as [Hop|Hop].
    + rewrite (bool_decide_true (_ = _)) in Hv by done.
      destruct (decide (digest = pst_Digest a)) as [Hdg|Hdg]; [|by rewrite bool_decide_false in Hv].
      assert (Hsame : int_DesiredState intent = pst_DesiredState a).
      { rewrite Hdg in Hdig. rewrite <- Hnd, (digest_inj _ _ _ Hn Hdig). done. }
      rewrite (bool_decide_true (digest = _)) in Hv by done. cbn in Hv.
      split_and!; try done; repeat case_bool_decide; naive_solver congruence.
    + rewrite (bool_decide_false (int_OperationID _ = _)) in Hv by done.
      repeat case_bool_decide; naive_solver congruence.
  - unfold forward. cbn. split_and!; try done; naive_solver congruence.
Qed.

Lemma next_inv a b : state_inv a → next a b → state_inv b.
Proof. intros Ha [raw Hab]. eapply advances_inv; [|done]. by intros ? [= <-]. Qed.

Lemma rtc_inv a b : rtc next a b → state_inv a → state_inv b.
Proof. induction 1; [done|]. eauto using next_inv. Qed.

(** C22: an accepted history of intents installs once and removes once.  From
    any recorded progress, however many intents are accepted after it: the
    installation is the same; as long as the desired state is the same, so are
    the operation and its content; an acknowledgement is neither withdrawn nor
    changed; and after a removal there is only that removal. *)
Theorem accepted_history_moves_forward a b : reachable a → rtc next a b → forward a b ∧ state_inv b.
Proof.
  intros Ha%reachable_inv Hab. split; [|by eapply rtc_inv].
  induction Hab as [a|a b c Hab Hbc IH]; [apply forward_refl|].
  pose proof (next_inv _ _ Ha Hab) as Hb. pose proof (rtc_inv _ _ Hbc Hb) as Hc.
  eapply forward_trans; [apply Ha|apply Hb|apply Hc|by apply next_forward|by apply IH].
Qed.
End Protocol.

(** ** Hexadecimal digits *)

Definition hexChar (n : nat) : ascii := if n <? 10 then ascii_of_nat (n + 48) else ascii_of_nat (n + 87).

Lemma hexDigit_lower a : lowerHex a = true → ∃ n, hexDigit a = Some n ∧ n < 16 ∧ hexChar n = a.
Proof.
  destruct a as [[] [] [] [] [] [] [] []]; intros Ha; try discriminate Ha; eexists; (split; [reflexivity|]);
    (split; [cbv; lia|reflexivity]).
Qed.

(** Strings two characters at a time. *)
Lemma string_ind2 (Q : string → Prop) :
  Q "" → (∀ a, Q (String a "")) → (∀ a b s, Q s → Q (String a (String b s))) → ∀ s, Q s.
Proof.
  intros H0 H1 H2 s. enough (Q s ∧ ∀ a, Q (String a s)) as [? _] by done.
  induction s as [|a s [IH IH']]; [by split|]. split; [apply IH'|]. intros b. by apply H2.
Qed.

Lemma hex_decoded s :
  Nat.even (String.length s) = true → forallb lowerHex (String.list_ascii_of_string s) = true →
  ∃ l, hex_DecodeString s = Some l ∧ 2 * length l = String.length s ∧ Forall (λ b, b < 256) l ∧
       s = String.string_of_list_ascii (l ≫= λ b, [hexChar (b / 16); hexChar (b mod 16)]).
Proof.
  induction s as [|a|a b s IH] using string_ind2; [by exists []|done|].
  intros Hlen (Ha & Hb & Hs)%andb_true_iff%(λ H, conj (proj1 H) (proj1 (andb_true_iff _ _) (proj2 H))).
  destruct (IH Hlen Hs) as (l & Hl & Hn & Hlt & Heq).
  destruct (hexDigit_lower a Ha) as (n & Hn1 & Hn2 & Hn3), (hexDigit_lower b Hb) as (m & Hm1 & Hm2 & Hm3).
  exists (16 * n + m :: l). cbn [hex_DecodeString]. rewrite Hn1, Hm1, Hl. split; [done|].
  split; [cbn [length String.length]; lia|]. split; [constructor; [lia|done]|].
  assert ((16 * n + m) / 16 = n) as Hq by (rewrite Nat.mul_comm, Nat.div_add_l by lia; rewrite Nat.div_small; lia).
  assert ((16 * n + m) mod 16 = m) as Hr by (rewrite Nat.add_comm, Nat.mul_comm, Nat.Div0.mod_add; by apply Nat.mod_small).
  cbn [mbind list_bind app]. rewrite Hq, Hr, Hn3, Hm3. cbn [String.string_of_list_ascii]. do 2 f_equal. exact Heq.
Qed.

(** ** Bits *)

Lemma length_bits_of n b : length (bits_of n b) = n.
Proof. induction n; cbn; congruence. Qed.

Lemma of_bits_of n b : of_bits (bits_of n b) = b mod 2 ^ n.
Proof.
  induction n as [|n IH]; [done|]. cbn [bits_of of_bits]. rewrite length_bits_of, IH.
  assert (2 ^ n ≠ 0) by (apply Nat.pow_nonzero; lia).
  rewrite Nat.pow_succ_r', Nat.mul_comm, (Nat.mul_comm 2), Nat.Div0.mod_mul_r.
  rewrite <- Nat.bit0_odd, Nat.bit0_mod. lia.
Qed.

Lemma bits_of_inj n b b' : b < 2 ^ n → b' < 2 ^ n → bits_of n b = bits_of n b' → b = b'.
Proof. intros Hb Hb' Heq. rewrite <- (Nat.mod_small b (2 ^ n)), <- (Nat.mod_small b' (2 ^ n)), <- !of_bits_of by done. congruence. Qed.

Lemma concat_bits_inj (l l' : list nat) :
  length l = length l' → Forall (λ b, b < 256) l → Forall (λ b, b < 256) l' →
  l ≫= bits_of 8 = l' ≫= bits_of 8 → l = l'.
Proof.
  revert l'. induction l as [|b l IH]; intros [|b' l'] Hlen; [done..|]. cbn [mbind list_bind].
  intros [Hb Hl]%Forall_cons [Hb' Hl']%Forall_cons Heq.
  apply app_inj_1 in Heq as [Hh Ht]; [|by rewrite !length_bits_of].
  f_equal; [by eapply (bits_of_inj 8)|]. apply IH; [by injection Hlen|done..].
Qed.

Lemma length_concat_bits (l : list nat) : length (l ≫= bits_of 8) = 8 * length l.
Proof. induction l as [|b l IH]; [done|]. cbn [mbind list_bind length]. rewrite length_app, length_bits_of. cbn in *. lia. Qed.

(** ** Groups of five *)

Lemma quintets_step (l : list bool) :
  5 ≤ length l → ∃ a b c d e l', l = a :: b :: c :: d :: e :: l' ∧ quintets l = [a; b; c; d; e] :: quintets l'.
Proof. intros Hl. destruct l as [|a [|b [|c [|d [|e l]]]]]; cbn in Hl; try lia. by exists a, b, c, d, e, l. Qed.

Lemma quintets_spec (l : list bool) :
  Forall (λ q, length q = 5) (quintets l) ∧ length (quintets l) = (length l + 4) / 5 ∧
  take (length l) (concat (quintets l)) = l.
Proof.
  induction l as [l IH] using (induction_ltof1 _ (@length bool)); unfold ltof in IH.
  destruct (decide (5 ≤ length l)) as [Hl|Hl].
  - destruct (quintets_step l Hl) as (a & b & c & d & e & l' & -> & ->).
    destruct (IH l') as (Hf & Hn & Ht); [cbn; lia|]. split; [by constructor|]. split.
    + cbn [length]. rewrite Hn. replace (S (S (S (S (S (length l'))))) + 4) with (length l' + 4 + 1 * 5) by lia.
      rewrite Nat.div_add by lia. lia.
    + cbn. do 5 f_equal. exact Ht.
  - destruct l as [|a [|b [|c [|d [|e l]]]]]; cbn in Hl |- *; try lia; split_and!; try done; by repeat constructor.
Qed.

Lemma quintets_inj (l l' : list bool) : length l = length l' → quintets l = quintets l' → l = l'.
Proof.
  intros Hlen Heq. destruct (quintets_spec l) as (_ & _ & Hl), (quintets_spec l') as (_ & _ & Hl').
  rewrite <- Hl, <- Hl', Heq, Hlen. done.
Qed.

(** ** Characters *)

(** The character of a group, in lower case. *)
Definition lowerChar (q : list bool) : ascii := lower (base32_char q).

Definition is_base32 (a : ascii) : bool := in_range 97 122 a || in_range 50 55 a.

Lemma lowerChar_inj q q' : length q = 5 → length q' = 5 → lowerChar q = lowerChar q' → q = q'.
Proof.
  intros Hq Hq'. destruct q as [|[] [|[] [|[] [|[] [|[] [|]]]]]]; try discriminate Hq;
    destruct q' as [|[] [|[] [|[] [|[] [|[] [|]]]]]]; try discriminate Hq'; vm_compute; (reflexivity || discriminate).
Qed.

Lemma lowerChar_base32 q : length q = 5 → is_base32 (lowerChar q) = true.
Proof. intros Hq. destruct q as [|[] [|[] [|[] [|[] [|[] [|]]]]]]; try discriminate Hq; reflexivity. Qed.

Lemma map_lowerChar_inj (l l' : list (list bool)) :
  Forall (λ q, length q = 5) l → Forall (λ q, length q = 5) l' → lowerChar <$> l = lowerChar <$> l' → l = l'.
Proof.
  intros Hl. revert l'. induction Hl as [|q l Hq _ IH]; intros [|q' l'] Hl' Heq; try done.
  apply Forall_cons in Hl' as [Hq' Hl']. injection Heq as Hc Ht. f_equal; [by apply lowerChar_inj|by apply IH].
Qed.

Lemma length_list_ascii s : length (String.list_ascii_of_string s) = String.length s.
Proof. induction s; cbn; congruence. Qed.

Lemma ToLower_list l : ToLower (String.string_of_list_ascii l) = String.string_of_list_ascii (lower <$> l).
Proof. unfold ToLower. by rewrite String.list_ascii_of_string_of_list_ascii. Qed.

Lemma TargetID_chars i :
  eksManagedAgentInstallationTargetHashPattern (eks_targetHash i) = true →
  ∃ l, hex_DecodeString (eks_targetHash i) = Some l ∧ length l = 32 ∧ Forall (λ b, b < 256) l ∧
       eks_targetHash i = String.string_of_list_ascii (l ≫= λ b, [hexChar (b / 16); hexChar (b mod 16)]) ∧
       String.list_ascii_of_string (eks_TargetID i) = lowerChar <$> quintets (l ≫= bits_of 8).
Proof.
  intros [Hlen Hhex]%andb_true_iff. apply bool_decide_eq_true in Hlen.
  destruct (hex_decoded (eks_targetHash i)) as (l & Hl & Hn & Hlt & Heq); [by rewrite Hlen|done|].
  exists l. split_and!; [done|lia|done|done|]. unfold eks_TargetID, base32_EncodeToString.
  rewrite Hl, bool_decide_true by lia. rewrite ToLower_list, String.list_ascii_of_string_of_list_ascii.
  by rewrite <- list_fmap_compose.
Qed.

(** A target ID identifies its cluster.  For a valid digest the target ID
    has 52 characters, letters of lower case and digits from 2 to 7, which makes
    it a valid label value; and two clusters with the same target ID have the
    same digest. *)
Theorem target_id_identifies i :
  eksManagedAgentInstallationTargetHashPattern (eks_targetHash i) = true →
  String.length (eks_TargetID i) = 52 ∧
  forallb is_base32 (String.list_ascii_of_string (eks_TargetID i)) = true ∧
  ∀ j, eksManagedAgentInstallationTargetHashPattern (eks_targetHash j) = true →
       eks_TargetID i = eks_TargetID j → eks_targetHash i = eks_targetHash j.
Proof.
  intros Hi. destruct (TargetID_chars i Hi) as (l & _ & Hlen & Hlt & Heq & Hid).
  destruct (quintets_spec (l ≫= bits_of 8)) as (Hfive & Hcount & _). rewrite length_concat_bits, Hlen in Hcount.
  assert (Hl : length (String.list_ascii_of_string (eks_TargetID i)) = 52) by by rewrite Hid, length_fmap, Hcount.
  split_and!.
  - by rewrite <- Hl, length_list_ascii.
  - rewrite Hid. apply Is_true_true, forallb_True, Forall_fmap. eapply Forall_impl; [exact Hfive|].
    intros q Hq. by apply Is_true_true, lowerChar_base32.
  - intros j Hj Hij. destruct (TargetID_chars j Hj) as (l' & _ & Hlen' & Hlt' & Heq' & Hid').
    destruct (quintets_spec (l' ≫= bits_of 8)) as (Hfive' & _ & _). rewrite Heq, Heq'. f_equal.
    rewrite Hij, Hid' in Hid. f_equal. symmetry. apply concat_bits_inj; [congruence|done..|].
    apply quintets_inj; [rewrite !length_concat_bits; congruence|]. by apply map_lowerChar_inj.
Qed.
