(* ===== verification/InstallWitnesses.v ===== *)
(** * A managed Agent installation on a concrete cluster.

    A client in memory that records its calls, and the properties of the
    installation applied to an install and a removal on it. *)

From Stdlib Require Import ZArith Ascii.
From stdpp Require Import base gmap strings list relations.
From S2P Require Import AgentSpec.
From S2P Require Import Prelude GoRun Cluster Experiment Status Profiles Objects Store FleetData Fleet Identity Install.
From S2P Require Import InstallIntent InstallFacts InstallHistory InstallTheorems IntentTheorems.

(** Retries and polls one run after the other. *)
#[local] Existing Instance inSequence.

(** ** A client in memory *)

(** A spec: its text and its credentials. *)
Definition InstSpec : Type := string * option DatadogCredentials.

#[export] Instance SecretConfig_eq_dec : EqDecision SecretConfig.
Proof. solve_decision. Defined.
#[export] Instance DatadogCredentials_eq_dec : EqDecision DatadogCredentials.
Proof. solve_decision. Defined.
#[export] Instance InstSpec_eq_dec : EqDecision InstSpec.
Proof. unfold InstSpec. solve_decision. Defined.

#[export] Instance inst_credentials : CredentialsOf InstSpec := {|
  spec_Credentials := snd; set_spec_Credentials := λ c s, (s.1, Some c) |}.

Record InstWorld := mkInstWorld {
  iw_trace : list (Call InstSpec);
  iw_agent : option (ManagedAgent InstSpec);
  iw_profile : option (ManagedProfile InstSpec);
  iw_configs : gmap (string * string) StateConfigMap
}.

Definition notFound {A : Type} : outcome A := Fail (ApiError ReasonNotFound).

Definition record (c : Call InstSpec) (w : InstWorld) : InstWorld :=
  mkInstWorld (iw_trace w ++ [c]) (iw_agent w) (iw_profile w) (iw_configs w).

Definition with_uid (a : ManagedAgent InstSpec) : ManagedAgent InstSpec :=
  let d := ma_dda a in
  mkManagedAgent (mkDatadogAgent (dda_Namespace d) (dda_Name d) "uid" "1" (dda_Labels d) (dda_Annotations d) (dda_Spec d)
                    (dda_Experiment d)) (ma_DeletionTimestamp a).

Definition found_agent (k : NamespacedName) (w : InstWorld) : outcome (ManagedAgent InstSpec) :=
  match iw_agent w with
  | Some a => if decide (dda_key (ma_dda a) = k) then Ret a else notFound
  | None => notFound
  end.

#[export] Instance inst_memory : InstallClient InstWorld InstSpec := {|
  inst_GetAgent k w := (record (GetAgent k (found_agent k w)) w, found_agent k w);
  inst_CreateAgent a w :=
    (let w := record (CreateAgent a) w in mkInstWorld (iw_trace w) (Some (with_uid a)) (iw_profile w) (iw_configs w),
     Ret (with_uid a));
  inst_PatchAgent base a w :=
    (let w := record (PatchAgent base a) w in mkInstWorld (iw_trace w) (Some a) (iw_profile w) (iw_configs w), Ret tt);
  inst_DeleteAgent a w :=
    (let w := record (DeleteAgent a) w in mkInstWorld (iw_trace w) None None (iw_configs w), Ret tt);
  inst_GetSecret k w := (w, Ret {[ fleetCredentialAPIKey := "key" ]});
  inst_GetProfile k w :=
    let o := from_option Ret notFound (iw_profile w) in (record (GetProfile k o) w, o);
  inst_CreateProfile p w :=
    (let w := record (CreateProfile p) w in mkInstWorld (iw_trace w) (iw_agent w) (Some p) (iw_configs w), Ret tt);
  inst_GetConfigMap k w :=
    let o := from_option Ret notFound (iw_configs w !! k) in (record (GetConfigMap k o) w, o);
  inst_ClientGetConfigMap k w :=
    let o := from_option Ret notFound (iw_configs w !! k) in (record (ClientGetConfigMap k o) w, o);
  inst_CreateConfigMap c w :=
    (let w := record (CreateConfigMap c) w in
     mkInstWorld (iw_trace w) (iw_agent w) (iw_profile w) (<[(cm_Namespace c, cm_Name c) := c]> (iw_configs w)), Ret tt);
  inst_PatchConfigMap base c w :=
    (let w := record (PatchConfigMap base c) w in
     mkInstWorld (iw_trace w) (iw_agent w) (iw_profile w) (<[(cm_Namespace c, cm_Name c) := c]> (iw_configs w)), Ret tt);
  inst_ListInternals l w := (record (ListInternals l (Ret 0)) w, Ret 0);
  inst_ListCluster kind l w := (record (ListCluster kind l (Ret 0)) w, Ret 0);
  inst_CtxErr w := (w, Ret false) |}.

#[export] Instance inst_recorded : RecordedClient InstWorld InstSpec.
Proof.
  refine {| trace := iw_trace |}; try reflexivity.
  intros k w a. cbn. unfold found_agent. destruct (iw_agent w); [|done]. case_decide; [|done]. by intros [= <-].
Defined.

#[export] Instance inst_uuids : UUIDs :=
  {| UUID := string; uuid_Parse := Some; uuid_Nil := ""; uuid_String := id |}.

(** ** An installation *)

Definition inst_hash : string := "00112233445566778899aabbccddeeff00112233445566778899aabbccddeeff".
Definition inst_identity : option ManagedAgentInstallationIdentity := NewEKSManagedAgentInstallationIdentity "i1" inst_hash.

Definition inst_eks (op desired ack : string) : eksManagedAgentInstallationIntent :=
  mkEKSIntent "v1" "i1" inst_hash op desired ack (mkBootstrap "cluster" "datadoghq.com").

Definition inst_intent (raw : string) : eksManagedAgentInstallationIntent + error :=
  if decide (raw = "install") then inl (inst_eks "o1" "installed" "")
  else if decide (raw = "acknowledge") then inl (inst_eks "o1" "installed" "o1")
  else if decide (raw = "remove") then inl (inst_eks "o2" "absent" "o1")
  else inr (Errorf "invalid").

#[export] Instance bootstrap_eq_dec : EqDecision managedAgentInstallationBootstrap.
Proof. solve_decision. Defined.
#[export] Instance normalized_eq_dec : EqDecision normalizedManagedAgentInstallationIntent.
Proof. solve_decision. Defined.

Definition inst_normalized (op desired : string) : normalizedManagedAgentInstallationIntent :=
  mkNormalized "v1" "eks" "i1" (TargetID inst_identity) op desired (mkBootstrap "cluster" "datadoghq.com").

Definition inst_digest (n : normalizedManagedAgentInstallationIntent) : string + error :=
  if decide (n = inst_normalized "o1" "installed") then inl "d1"
  else if decide (n = inst_normalized "o2" "absent") then inl "d2"
  else inr (Errorf "not encoded").

Lemma inst_digest_inj n n' h : inst_digest n = inl h → inst_digest n' = inl h → n = n'.
Proof. unfold inst_digest. repeat case_decide; congruence. Qed.

Definition inst_config (j : option json) : option InstSpec + error := inl (Some ("spec", None)).
Definition inst_specHash (s : InstSpec) : string + error := inl ("hash of " +:+ s.1).

Definition inst_daemon (w : InstWorld) : DaemonState InstWorld :=
  mkDaemon w (Some []) ∅ false false false false "" None false 0 [] [].

Definition inst_world (raw : string) : InstWorld :=
  mkInstWorld [] None None
    {[ managedAgentInstallationIntentKey "ns" :=
         mkStateConfigMap "ns" managedAgentInstallationIntentConfigMapName "uid" "1" ∅ []
           {[ managedAgentInstallationIntentDataKey := raw ]} ]}.

Definition inst_install : GoM (DaemonState InstWorld) unit :=
  installDatadogAgent inst_identity "ns" inst_config (λ _, None) inst_specHash (λ _ _, true) ("", None) 3 "i1" "o1" None.
Definition inst_uninstall : GoM (DaemonState InstWorld) unit := uninstallDatadogAgent inst_identity "ns" 3.
Definition inst_worker : GoM (DaemonState InstWorld) bool :=
  runManagedAgentInstallationIntentWorker inst_identity "ns" inst_config (λ _, None) inst_specHash (λ _ _, true) ("", None)
    3 3 inst_intent (λ _, false) inst_digest None (mret tt) None.

Definition inst_start : DaemonState InstWorld := inst_daemon (inst_world "install").

(** An intent to install is carried out by one turn of the worker, which ends
    with the DatadogAgent labelled ready. *)
Lemma installation_writes_its_own_witness :
  let s := inst_start in
  (inst_worker s).2 = Ret true ∧
  (λ a, label (ma_dda a) fleetManagedAgentInstallationStateLabel) <$> iw_agent (ds_world (inst_worker s).1) = Some "ready" ∧
  ∃ t, trace (ds_world (inst_worker s).1) = trace (ds_world s) ++ t ∧
       ∀ t1 c t2, t = t1 ++ c :: t2 →
         justified inst_identity "ns" inst_specHash ("", None)
           (decodeManagedAgentInstallationIntent inst_intent (λ _, false) inst_digest inst_identity) t1 c.
Proof.
  split; [vm_compute; reflexivity|]. split; [vm_compute; reflexivity|].
  unfold inst_worker.
  refine (installation_writes_its_own inst_identity "ns" inst_config (λ _, None) inst_specHash (λ _ _, true) ("", None) 3 3
           inst_intent (λ _, false) inst_digest None (mret tt) None _ _ _ inst_start).
  - intros run [=].
  - intros t0 _. by apply hist_ret.
  - intros refresh [=].
Defined.

(** The install ends with a complete installation. *)
Lemma installed_agent_is_complete_witness :
  (inst_install inst_start).2 = Ret tt ∧
  ∃ t, trace (ds_world (inst_install inst_start).1) = trace (ds_world inst_start) ++ t ∧
       complete inst_identity "ns" inst_specHash ("", None) "o1" t.
Proof.
  assert (H : (inst_install inst_start).2 = Ret tt) by (vm_compute; reflexivity). split; [exact H|].
  refine (installed_agent_is_complete inst_identity "ns" inst_config (λ _, None) inst_specHash (λ _ _, true) ("", None) 3
            "i1" "o1" None inst_start (inst_install inst_start).1 _).
  rewrite <- H. apply surjective_pairing.
Defined.

(** The installation is removed again. *)
Lemma uninstalled_agent_is_gone_witness :
  let s := (inst_install inst_start).1 in
  (inst_uninstall s).2 = Ret tt ∧ iw_agent (ds_world s) ≠ None ∧
  ∃ t, trace (ds_world (inst_uninstall s).1) = trace (ds_world s) ++ t ∧ gone inst_identity "ns" t.
Proof.
  intros s. assert (H : (inst_uninstall s).2 = Ret tt) by (vm_compute; reflexivity). split; [exact H|].
  split; [vm_compute; discriminate|].
  refine (proj1 (uninstalled_agent_is_gone inst_identity "ns" ("", None) 3 s (inst_uninstall s).1 _)). rewrite <- H. apply surjective_pairing.
Defined.

(** ** Intents *)

Definition inst_progress (op digest desired ack : string) : managedAgentInstallationPersistedState :=
  mkPersisted "eks" "i1" (TargetID inst_identity) op digest desired ack TaskState_DONE "".

Definition inst_decode : string → (managedAgentInstallationIntent * option json * string) + error :=
  decodeManagedAgentInstallationIntent inst_intent (λ _, false) inst_digest inst_identity.

Definition inst_decoded (raw : string) : managedAgentInstallationIntent * option json * string :=
  match inst_decode raw with inl x => x | inr _ => (mkIntent "" "" "" "" "" "" "" (mkBootstrap "" ""), None, "") end.

Lemma inst_decode_ok raw :
  raw ∈ ["install"; "acknowledge"; "remove"] →
  inst_decode raw = inl ((inst_decoded raw).1.1, (inst_decoded raw).1.2, (inst_decoded raw).2).
Proof. rewrite !elem_of_cons, elem_of_nil. intros [->|[->|[->|[]]]]; vm_compute; reflexivity. Qed.

(** An install, its acknowledgement and a removal. *)
Lemma accepted_history_moves_forward_witness :
  let a := inst_progress "o1" "d1" "installed" "" in
  let b := inst_progress "o2" "d2" "absent" "o1" in
  forward a b ∧ state_inv inst_digest b.
Proof.
  intros a b. set (m := inst_progress "o1" "d1" "installed" "o1").
  apply (accepted_history_moves_forward inst_intent (λ _, false) inst_digest inst_identity inst_digest_inj).
  - apply (reach_first _ _ _ _ "install").
    apply (advance_command _ _ _ _ _ _ TaskState_DONE None (inst_decode_ok "install" ltac:(set_solver)));
      [vm_compute; reflexivity|by right].
  - apply (rtc_l _ _ m); [|apply rtc_once].
    + exists "acknowledge".
      apply (advance_acknowledged _ _ _ _ _ _ a (inst_decode_ok "acknowledge" ltac:(set_solver))); vm_compute; reflexivity.
    + exists "remove". apply (advance_command _ _ _ _ _ _ TaskState_DONE None (inst_decode_ok "remove" ltac:(set_solver)));
        [vm_compute; reflexivity|left; vm_compute; discriminate].
Defined.

(** The target ID of a digest. *)
Lemma target_id_identifies_witness :
  let i := mkEKS "i1" inst_hash in
  eks_TargetID i = "aaisem2ekvthpcezvk54zxpo74abcirtirkwm54itgvlxtg5537q" ∧ String.length (eks_TargetID i) = 52 ∧
  forallb is_base32 (String.list_ascii_of_string (eks_TargetID i)) = true.
Proof.
  intros i. split; [vm_compute; reflexivity|]. destruct (target_id_identifies i) as (? & ? & _); [vm_compute; reflexivity|].
  by split.
Defined.
