(* ===== verification/Workloads.v ===== *)
(** * Workloads in the API server.

    The DaemonSets, ExtendedDaemonSets, replica sets, Deployments and pods the
    DatadogAgentInternal controller reads and writes, and the calls it makes.
    [fault] says which call fails, and whether it took effect nevertheless; a
    call that does not fail behaves as the Kubernetes API documents it.  Resource
    versions are left out: a conflict is a call that fails. *)

From Stdlib Require Import ZArith Ascii.
From stdpp Require Import base gmap strings list pretty.
From S2P Require Import Prelude GoRun Cluster Status Remote FleetData PodMerger AgentSpec.

(** ** Objects *)

Inductive WorkloadKind := KDaemonSet | KExtendedDaemonSet | KReplicaSet | KDeployment.

#[export] Instance WorkloadKind_eq_dec : EqDecision WorkloadKind.
Proof. solve_decision. Defined.

Definition kindNumber (k : WorkloadKind) : nat :=
  match k with KDaemonSet => 0 | KExtendedDaemonSet => 1 | KReplicaSet => 2 | KDeployment => 3 end.

Definition kindOfNumber (n : nat) : option WorkloadKind :=
  [KDaemonSet; KExtendedDaemonSet; KReplicaSet; KDeployment] !! n.

#[export] Instance WorkloadKind_countable : Countable WorkloadKind :=
  inj_countable kindNumber kindOfNumber ltac:(by intros []).

(** The kind as owner references and events have it. *)
Definition kindName (k : WorkloadKind) : string :=
  match k with
  | KDaemonSet => "DaemonSet" | KExtendedDaemonSet => "ExtendedDaemonSet"
  | KReplicaSet => "ExtendedDaemonSetReplicaSet" | KDeployment => "Deployment"
  end.

(** Requirements of a selector: key, operator, values. *)
Record LabelSelector := mkLabelSelector {
  ls_MatchLabels : gmap string string;
  ls_MatchExpressions : list (string * string * list string)
}.

#[export] Instance LabelSelector_eq_dec : EqDecision LabelSelector.
Proof. solve_decision. Defined.

Record Template := mkTemplate {
  tpl_Labels : option (gmap string string);      (* None: a nil map *)
  tpl_Pod : PodTemplateSpec json;
  tpl_Rest : json
}.

Record Strategy := mkStrategy { str_Type : string; str_RollingUpdate : option RollingUpdate }.

Record WorkloadSpec := mkWorkloadSpec {
  ws_Selector : option LabelSelector;
  ws_Template : Template;
  ws_Strategy : Strategy;
  ws_Replicas : option Z;
  ws_Rest : json
}.

(** The counts of the status: desired, current, ready, available and up to date
    of a DaemonSet, or all, updated, ready, available and unavailable replicas of
    a Deployment; whether there is a canary; conditions by type. *)
Record WorkloadStatus := mkWorkloadStatus {
  cnt_1 : Z; cnt_2 : Z; cnt_3 : Z; cnt_4 : Z; cnt_5 : Z;
  cnt_Canary : bool;
  cnt_Conditions : list (string * string)
}.

Definition noStatus : WorkloadStatus := mkWorkloadStatus 0 0 0 0 0 false [].

Record WorkloadObject := mkWorkloadObject {
  wo_Namespace : string;
  wo_Name : string;
  wo_UID : string;
  wo_Labels : gmap string string;
  wo_Annotations : gmap string string;
  wo_OwnerReferences : list OwnerReference;
  wo_Deleting : bool;                            (* it has a deletion timestamp *)
  wo_Spec : WorkloadSpec;
  wo_Status : WorkloadStatus
}.

Definition wo_Key (o : WorkloadObject) : NamespacedName := (wo_Namespace o, wo_Name o).

Definition set_wo_UID (u : string) (o : WorkloadObject) : WorkloadObject :=
  mkWorkloadObject (wo_Namespace o) (wo_Name o) u (wo_Labels o) (wo_Annotations o) (wo_OwnerReferences o) (wo_Deleting o)
    (wo_Spec o) (wo_Status o).
Definition set_wo_Labels (l : gmap string string) (o : WorkloadObject) : WorkloadObject :=
  mkWorkloadObject (wo_Namespace o) (wo_Name o) (wo_UID o) l (wo_Annotations o) (wo_OwnerReferences o) (wo_Deleting o)
    (wo_Spec o) (wo_Status o).
Definition set_wo_Annotations (a : gmap string string) (o : WorkloadObject) : WorkloadObject :=
  mkWorkloadObject (wo_Namespace o) (wo_Name o) (wo_UID o) (wo_Labels o) a (wo_OwnerReferences o) (wo_Deleting o)
    (wo_Spec o) (wo_Status o).
Definition set_wo_OwnerReferences (r : list OwnerReference) (o : WorkloadObject) : WorkloadObject :=
  mkWorkloadObject (wo_Namespace o) (wo_Name o) (wo_UID o) (wo_Labels o) (wo_Annotations o) r (wo_Deleting o)
    (wo_Spec o) (wo_Status o).
Definition set_wo_Deleting (d : bool) (o : WorkloadObject) : WorkloadObject :=
  mkWorkloadObject (wo_Namespace o) (wo_Name o) (wo_UID o) (wo_Labels o) (wo_Annotations o) (wo_OwnerReferences o) d
    (wo_Spec o) (wo_Status o).
Definition set_wo_Spec (s : WorkloadSpec) (o : WorkloadObject) : WorkloadObject :=
  mkWorkloadObject (wo_Namespace o) (wo_Name o) (wo_UID o) (wo_Labels o) (wo_Annotations o) (wo_OwnerReferences o)
    (wo_Deleting o) s (wo_Status o).
Definition set_wo_Status (s : WorkloadStatus) (o : WorkloadObject) : WorkloadObject :=
  mkWorkloadObject (wo_Namespace o) (wo_Name o) (wo_UID o) (wo_Labels o) (wo_Annotations o) (wo_OwnerReferences o)
    (wo_Deleting o) (wo_Spec o) s.
Definition set_ws_Selector (s : option LabelSelector) (w : WorkloadSpec) : WorkloadSpec :=
  mkWorkloadSpec s (ws_Template w) (ws_Strategy w) (ws_Replicas w) (ws_Rest w).
Definition set_ws_Template (t : Template) (w : WorkloadSpec) : WorkloadSpec :=
  mkWorkloadSpec (ws_Selector w) t (ws_Strategy w) (ws_Replicas w) (ws_Rest w).
Definition set_ws_Strategy (s : Strategy) (w : WorkloadSpec) : WorkloadSpec :=
  mkWorkloadSpec (ws_Selector w) (ws_Template w) s (ws_Replicas w) (ws_Rest w).
Definition set_ws_Replicas (r : option Z) (w : WorkloadSpec) : WorkloadSpec :=
  mkWorkloadSpec (ws_Selector w) (ws_Template w) (ws_Strategy w) r (ws_Rest w).
Definition set_tpl_Labels (l : option (gmap string string)) (t : Template) : Template :=
  mkTemplate l (tpl_Pod t) (tpl_Rest t).

Record Pod := mkPod {
  p_Labels : gmap string string;
  p_OwnerReferences : list OwnerReference;
  p_Deleting : bool;
  p_Rest : json
}.

Definition set_p_Labels (l : gmap string string) (p : Pod) : Pod := mkPod l (p_OwnerReferences p) (p_Deleting p) (p_Rest p).
Definition set_p_OwnerReferences (r : list OwnerReference) (p : Pod) : Pod := mkPod (p_Labels p) r (p_Deleting p) (p_Rest p).

(** How a reference names its owner. *)
Definition ownerID (k : WorkloadKind) (o : WorkloadObject) : string * string := (kindName k, wo_UID o).

(** [metav1.GetControllerOf] *)
Definition GetControllerOf (refs : list OwnerReference) : option OwnerReference :=
  head (filter (λ r, or_Controller r = Some true) refs).

(** ** The status being built *)

Record InternalStatus := mkInternalStatus {
  ist_Conditions : list Condition;
  ist_Agent : option DaemonSetStatus;
  ist_ClusterAgent : option DeploymentStatus;
  ist_ClusterChecksRunner : option DeploymentStatus;
  ist_OtelAgentGateway : option DeploymentStatus
}.

Definition set_ist_Conditions (l : list Condition) (s : InternalStatus) : InternalStatus :=
  mkInternalStatus l (ist_Agent s) (ist_ClusterAgent s) (ist_ClusterChecksRunner s) (ist_OtelAgentGateway s).
Definition set_ist_Agent (a : option DaemonSetStatus) (s : InternalStatus) : InternalStatus :=
  mkInternalStatus (ist_Conditions s) a (ist_ClusterAgent s) (ist_ClusterChecksRunner s) (ist_OtelAgentGateway s).
Definition set_ist_ClusterAgent (a : option DeploymentStatus) (s : InternalStatus) : InternalStatus :=
  mkInternalStatus (ist_Conditions s) (ist_Agent s) a (ist_ClusterChecksRunner s) (ist_OtelAgentGateway s).
Definition set_ist_ClusterChecksRunner (a : option DeploymentStatus) (s : InternalStatus) : InternalStatus :=
  mkInternalStatus (ist_Conditions s) (ist_Agent s) (ist_ClusterAgent s) a (ist_OtelAgentGateway s).
Definition set_ist_OtelAgentGateway (a : option DeploymentStatus) (s : InternalStatus) : InternalStatus :=
  mkInternalStatus (ist_Conditions s) (ist_Agent s) (ist_ClusterAgent s) (ist_ClusterChecksRunner s) a.

(** ** The state a reconcile changes *)

Record World := mkWorld {
  w_Objects : gmap (WorkloadKind * NamespacedName) WorkloadObject;
  w_Pods : gmap NamespacedName Pod;
  w_Calls : nat;                                 (* how many calls were made *)
  w_Status : InternalStatus;
  w_Events : list EventInfo;
  w_Written : list InternalStatus                (* the statuses that were written, latest last *)
}.

Definition set_w_Objects (o : gmap (WorkloadKind * NamespacedName) WorkloadObject) (w : World) : World :=
  mkWorld o (w_Pods w) (w_Calls w) (w_Status w) (w_Events w) (w_Written w).
Definition set_w_Pods (p : gmap NamespacedName Pod) (w : World) : World :=
  mkWorld (w_Objects w) p (w_Calls w) (w_Status w) (w_Events w) (w_Written w).
Definition set_w_Calls (n : nat) (w : World) : World :=
  mkWorld (w_Objects w) (w_Pods w) n (w_Status w) (w_Events w) (w_Written w).
Definition set_w_Status (s : InternalStatus) (w : World) : World :=
  mkWorld (w_Objects w) (w_Pods w) (w_Calls w) s (w_Events w) (w_Written w).
Definition set_w_Events (l : list EventInfo) (w : World) : World :=
  mkWorld (w_Objects w) (w_Pods w) (w_Calls w) (w_Status w) l (w_Written w).
Definition set_w_Written (l : list InternalStatus) (w : World) : World :=
  mkWorld (w_Objects w) (w_Pods w) (w_Calls w) (w_Status w) (w_Events w) l.

Abbreviation M := (GoM World).

Definition changeStatus (f : InternalStatus → InternalStatus) : M unit := modify (λ w, set_w_Status (f (w_Status w)) w).

Definition recordEvent (name ns kind eventType : string) : M unit :=
  modify (λ w, set_w_Events (w_Events w ++ [BuildEventInfo name ns kind eventType]) w).

(** ** Calls *)

(** Errors of a kind that is not installed. *)
Definition noKindMatchError : string := "NoKindMatchError".
Definition notRegisteredErr : string := "notRegisteredErr".

Definition resourceIsAbsent (err : error) : bool :=
  IsNotFound err || errors_As noKindMatchError err || errors_As notRegisteredErr err.

(** Every label of the selector. *)
Definition matchesLabels (selector labels : gmap string string) : bool :=
  bool_decide (map_Forall (λ k v, labels !! k = Some v) selector).

Section Calls.
(** The call that fails, and whether it took effect. *)
Context (fault : nat → option (bool * error)).
(** Whether the kinds of ExtendedDaemonSets are installed. *)
Context (edsServed : bool).
(** [metav1.LabelSelectorAsSelector] and [Matches]. *)
Context (asSelector : option LabelSelector → (gmap string string → bool) + error).

Definition call {A : Type} (effect : World → World * (A + error)) : M A := λ w,
  let w1 := set_w_Calls (S (w_Calls w)) w in
  match fault (w_Calls w) with
  | None => match effect w1 with (w', inl a) => (w', Ret a) | (w', inr e) => (w', Fail e) end
  | Some (applied, e) => (if applied then (effect w1).1 else w1, Fail e)
  end.

Definition served (k : WorkloadKind) : bool :=
  match k with KExtendedDaemonSet | KReplicaSet => edsServed | _ => true end.

Definition notServed : error := Typed noKindMatchError "no matches for kind".
Definition notFound : error := ApiError ReasonNotFound.

Definition Get (k : WorkloadKind) (key : NamespacedName) : M WorkloadObject :=
  call (λ w, (w, if negb (served k) then inr notServed
                 else match w_Objects w !! (k, key) with Some o => inl o | None => inr notFound end)).

Definition inNamespace (ns : option string) (key : NamespacedName) : bool :=
  match ns with None => true | Some ns => bool_decide (key.1 = ns) end.

(** The objects of a kind that have the labels, in a namespace or in all. *)
Definition objectsOf (k : WorkloadKind) (ns : option string) (labels : gmap string string) (w : World) : list WorkloadObject :=
  (filter (λ e : (WorkloadKind * NamespacedName) * WorkloadObject,
             e.1.1 = k ∧ inNamespace ns e.1.2 = true ∧ matchesLabels labels (wo_Labels e.2) = true)
     (map_to_list (w_Objects w))).*2.

Definition List_ (k : WorkloadKind) (ns : option string) (labels : gmap string string) : M (list WorkloadObject) :=
  call (λ w, (w, if negb (served k) then inr notServed else inl (objectsOf k ns labels w))).

Definition podsOf (ns : string) (selects : gmap string string → bool) (w : World) : list (NamespacedName * Pod) :=
  filter (λ e : NamespacedName * Pod, e.1.1 = ns ∧ selects (p_Labels e.2) = true) (map_to_list (w_Pods w)).

Definition ListPods (ns : string) (selects : gmap string string → bool) : M (list (NamespacedName * Pod)) :=
  call (λ w, (w, inl (podsOf ns selects w))).

(** What the garbage collector deletes with its owners: all of them are gone. *)
Definition dependsOn (gone : list (string * string)) (refs : list OwnerReference) : bool :=
  match refs with
  | [] => false
  | _ => forallb (λ r, bool_decide ((or_Kind r, or_UID r) ∈ gone)) refs
  end.

Definition endPod (p : Pod) : Pod := mkPod (p_Labels p) (p_OwnerReferences p) true (p_Rest p).

(** Background propagation: with a workload go the replica sets that it owns, and
    the pods of the workload and of these replica sets end. *)
Definition cascade (gone : list (string * string)) (w : World) : World :=
  let owned (e : (WorkloadKind * NamespacedName) * WorkloadObject) :=
    e.1.1 = KReplicaSet ∧ dependsOn gone (wo_OwnerReferences e.2) = true in
  let gone := gone ++ ((λ e, ownerID e.1.1 e.2) <$> filter owned (map_to_list (w_Objects w))) in
  set_w_Pods ((λ p, if dependsOn gone (p_OwnerReferences p) then endPod p else p) <$> w_Pods w)
    (set_w_Objects (filter (λ e, ¬ owned e) (w_Objects w)) w).

(** With orphan propagation, the object stays, marked, until the garbage
    collector has taken its reference off its dependents; without, it is gone,
    and its dependents are deleted. *)
Definition Delete (k : WorkloadKind) (key : NamespacedName) (orphan : bool) : M unit :=
  call (λ w, if negb (served k) then (w, inr notServed)
             else match w_Objects w !! (k, key) with
                  | None => (w, inr notFound)
                  | Some o => (if orphan then set_w_Objects (<[(k, key) := set_wo_Deleting true o]> (w_Objects w)) w
                               else cascade [ownerID k o] (set_w_Objects (delete (k, key) (w_Objects w)) w), inl tt)
                  end).

(** The pods of a template match its selector. *)
Definition selectsTemplate (s : WorkloadSpec) : bool :=
  match asSelector (ws_Selector s) with
  | inl selects => selects (default ∅ (tpl_Labels (ws_Template s)))
  | inr _ => false
  end.

(** The kinds whose selector the API server checks. *)
Definition selectorChecked (k : WorkloadKind) : bool :=
  match k with KDaemonSet | KDeployment => true | _ => false end.

(** The object as the server stores it, which the client reads back. *)
Definition Create (k : WorkloadKind) (o : WorkloadObject) : M WorkloadObject :=
  call (λ w, if negb (served k) then (w, inr notServed)
             else match w_Objects w !! (k, wo_Key o) with
                  | Some _ => (w, inr (ApiError ReasonAlreadyExists))
                  | None =>
                      if selectorChecked k && negb (selectsTemplate (wo_Spec o)) then (w, inr (ApiError ReasonInvalid))
                      else let o := set_wo_Status noStatus (set_wo_Deleting false (set_wo_UID (pretty (w_Calls w)) o)) in
                           (set_w_Objects (<[(k, wo_Key o) := o]> (w_Objects w)) w, inl o)
                  end).

(** What an update cannot change. *)
Definition keepServerFields (old o : WorkloadObject) : WorkloadObject :=
  set_wo_Status (wo_Status old) (set_wo_Deleting (wo_Deleting old) (set_wo_UID (wo_UID old) o)).

(** The selector of a DaemonSet or a Deployment cannot change, and has to match its template. *)
Definition Update (k : WorkloadKind) (o : WorkloadObject) : M WorkloadObject :=
  call (λ w, if negb (served k) then (w, inr notServed)
             else match w_Objects w !! (k, wo_Key o) with
                  | None => (w, inr notFound)
                  | Some old =>
                      if selectorChecked k &&
                         negb (bool_decide (ws_Selector (wo_Spec o) = ws_Selector (wo_Spec old)) && selectsTemplate (wo_Spec o))
                      then (w, inr (ApiError ReasonInvalid))
                      else let o := keepServerFields old o in
                           (set_w_Objects (<[(k, wo_Key o) := o]> (w_Objects w)) w, inl o)
                  end).

(** A merge patch of the owner references. *)
Definition PatchOwnerReferences (k : WorkloadKind) (key : NamespacedName) (refs : list OwnerReference) : M WorkloadObject :=
  call (λ w, match w_Objects w !! (k, key) with
             | None => (w, inr notFound)
             | Some o => let o := set_wo_OwnerReferences refs o in (set_w_Objects (<[(k, key) := o]> (w_Objects w)) w, inl o)
             end).

(** A merge patch of labels. *)
Definition PatchPodLabels (key : NamespacedName) (labels : gmap string string) : M unit :=
  call (λ w, match w_Pods w !! key with
             | None => (w, inr notFound)
             | Some p => (set_w_Pods (<[key := set_p_Labels (labels ∪ p_Labels p) p]> (w_Pods w)) w, inl tt)
             end).

(** A pod ends in its own time. *)
Definition DeletePod (key : NamespacedName) : M unit :=
  call (λ w, match w_Pods w !! key with
             | None => (w, inr notFound)
             | Some p => (set_w_Pods (<[key := endPod p]> (w_Pods w)) w, inl tt)
             end).

Definition StatusUpdate (status : InternalStatus) : M unit :=
  call (λ w, (set_w_Written (w_Written w ++ [status]) w, inl tt)).

(** [DeleteAllOf], with orphan propagation or without. *)
Definition DeleteAllOf (k : WorkloadKind) (ns : string) (labels : gmap string string) (orphan : bool) : M unit :=
  call (λ w,
    let chosen (e : (WorkloadKind * NamespacedName) * WorkloadObject) :=
      e.1.1 = k ∧ e.1.2.1 = ns ∧ matchesLabels labels (wo_Labels e.2) = true in
    (if orphan
     then set_w_Objects (map_imap (λ key o, Some (if decide (chosen (key, o)) then set_wo_Deleting true o else o)) (w_Objects w)) w
     else cascade ((λ e, ownerID e.1.1 e.2) <$> filter chosen (map_to_list (w_Objects w)))
            (set_w_Objects (filter (λ e, ¬ chosen e) (w_Objects w)) w), inl tt)).
End Calls.

(** The call [if err := ...; err != nil && !apierrors.IsNotFound(err) { return err }]. *)
Definition unlessNotFound (m : M unit) : M unit :=
  r ← attempt m;
  match r with
  | inl _ => mret tt
  | inr e => if IsNotFound e then mret tt else fail e
  end.
