(* ===== verification/Migration.v ===== *)
(** * Migration of the node agent between DaemonSets and ExtendedDaemonSets.

    Models [datadogagentinternal/reconcile_agent_migration.go].  A step either
    handles the reconcile, which is then requeued, or leaves it to the creation
    or update of the new workload. *)

From Stdlib Require Import ZArith Ascii.
From stdpp Require Import base gmap strings list.
From S2P Require Import Prelude GoRun Cluster Status Remote FleetData PodMerger Untaint Objects Workloads.

Definition workloadMigrationRequeuePeriod : Duration := Second.
Definition workloadMigrationResult : Result := RequeueAfter workloadMigrationRequeuePeriod.
Definition OnDeleteDaemonSetStrategyType : string := "OnDelete".

Section Migration.
Context (fault : nat → option (bool * error)) (edsServed : bool).
Context (asSelector : option LabelSelector → (gmap string string → bool) + error).
(** The label of a pod and of a replica set that names their ExtendedDaemonSet. *)
Context (ExtendedDaemonSetNameLabelKey : string).

Abbreviation Get := (Get fault edsServed).
Abbreviation List_ := (List_ fault edsServed).
Abbreviation Delete := (Delete fault edsServed).
Abbreviation Update := (Update fault edsServed asSelector).
Abbreviation ListPods := (ListPods fault).

(** [handled, result] *)
Definition requeued : M (bool * Result) := mret (true, workloadMigrationResult).
Definition handedOver : M (bool * Result) := mret (false, zeroResult).

(** An update of a DaemonSet that is to be orphaned, [None] when it has it. *)
Definition prepareDaemonSetForEDSMigration (daemonSet : WorkloadObject) (edsName : string) : option WorkloadObject :=
  let spec := wo_Spec daemonSet in
  let template := ws_Template spec in
  let strategy := ws_Strategy spec in
  let updateStrategy := negb (bool_decide (str_Type strategy = OnDeleteDaemonSetStrategyType)) ||
                        bool_decide (is_Some (str_RollingUpdate strategy)) in
  let labels := default ∅ (tpl_Labels template) in
  let updateLabels := negb (bool_decide (get_key labels ExtendedDaemonSetNameLabelKey = edsName)) in
  if updateStrategy || updateLabels
  then Some (set_wo_Spec
         (set_ws_Strategy (if updateStrategy then mkStrategy OnDeleteDaemonSetStrategyType None else strategy)
            (set_ws_Template
               (set_tpl_Labels (Some (if updateLabels then <[ExtendedDaemonSetNameLabelKey := edsName]> labels else labels))
                  template) spec)) daemonSet)
  else None.

Definition setEDSPodLabel (key : NamespacedName) (pod : Pod) (edsName : string) : M unit :=
  if bool_decide (get_key (p_Labels pod) ExtendedDaemonSetNameLabelKey = edsName) then mret tt
  else PatchPodLabels fault key {[ ExtendedDaemonSetNameLabelKey := edsName ]}.

Definition ownedByDaemonSet (daemonSet : WorkloadObject) (pod : Pod) : bool :=
  match GetControllerOf (p_OwnerReferences pod) with
  | None => false
  | Some controller =>
      bool_decide (or_Kind controller = "DaemonSet") && bool_decide (or_Name controller = wo_Name daemonSet) &&
      (bool_decide (wo_UID daemonSet = "") || bool_decide (or_UID controller = wo_UID daemonSet))
  end.

Definition labelDaemonSetPodsForEDS (daemonSet : WorkloadObject) (edsName : string) : M unit :=
  selects ← match ws_Selector (wo_Spec daemonSet) with
            | None => mret (λ _, true)
            | Some s => of_sum (asSelector (Some s))
            end;
  pods ← ListPods (wo_Namespace daemonSet) selects;
  for_each (λ e, if ownedByDaemonSet daemonSet e.2 then setEDSPodLabel e.1 e.2 edsName else mret tt) pods.

(** The labels an orphaned pod is found by. *)
Definition orphanLabels (eds : WorkloadObject) : gmap string string :=
  let labels := default ∅ (tpl_Labels (ws_Template (wo_Spec eds))) in
  foldl (λ m key, if bool_decide (get_key labels key = "") then m else <[key := get_key labels key]> m) ∅
    [AppKubernetesInstanceLabelKey; AgentDeploymentComponentLabelKey].

(** Without a controller, or with a DaemonSet of that name. *)
Definition orphanedPod (edsName : string) (pod : Pod) : bool :=
  match GetControllerOf (p_OwnerReferences pod) with
  | None => true
  | Some controller => bool_decide (or_Kind controller = "DaemonSet") && bool_decide (or_Name controller = edsName)
  end.

Definition labelOrphanedDaemonSetPodsForEDS (eds : WorkloadObject) : M unit :=
  if bool_decide (orphanLabels eds = ∅) then mret tt
  else
    pods ← ListPods (wo_Namespace eds) (matchesLabels (orphanLabels eds));
    for_each (λ e, if orphanedPod (wo_Name eds) e.2 then setEDSPodLabel e.1 e.2 (wo_Name eds) else mret tt) pods.

(** The replica sets of an ExtendedDaemonSet; none where the kind is not installed. *)
Definition replicaSetsOf (namespace name : string) : M (list WorkloadObject) :=
  r ← attempt (List_ KReplicaSet (Some namespace) {[ ExtendedDaemonSetNameLabelKey := name ]});
  match r with
  | inl l => mret l
  | inr err => if resourceIsAbsent err then mret [] else fail err
  end.

Definition orphanReplicaSets : list WorkloadObject → M unit :=
  for_each (λ replicaSet, if wo_Deleting replicaSet then mret tt
                          else unlessNotFound (Delete KReplicaSet (wo_Key replicaSet) true)).

(** What is left of an ExtendedDaemonSet that was rolled back, when there is no DaemonSet. *)
Definition resumeExtendedDaemonSet (eds : WorkloadObject) : M (bool * Result) :=
  currentEDS ← attempt (Get KExtendedDaemonSet (wo_Key eds));
  match currentEDS with
  | inl currentEDS => if wo_Deleting currentEDS then requeued else handedOver
  | inr err =>
      if negb (resourceIsAbsent err) then fail err
      else
        replicaSets ← replicaSetsOf (wo_Namespace eds) (wo_Name eds);
        if negb (bool_decide (length replicaSets = 0))
        then _ ← orphanReplicaSets replicaSets; requeued
        else _ ← labelOrphanedDaemonSetPodsForEDS eds; handedOver
  end.

Definition migrateDaemonSetToExtendedDaemonSet (eds : WorkloadObject) : M (bool * Result) :=
  currentDaemonSet ← attempt (Get KDaemonSet (wo_Key eds));
  match currentDaemonSet with
  | inr err => if negb (IsNotFound err) then fail err else resumeExtendedDaemonSet eds
  | inl currentDaemonSet =>
      if wo_Deleting currentDaemonSet then requeued
      else
        match prepareDaemonSetForEDSMigration currentDaemonSet (wo_Name eds) with
        | Some updated => _ ← Update KDaemonSet updated; requeued
        | None =>
            _ ← labelDaemonSetPodsForEDS currentDaemonSet (wo_Name eds);
            _ ← unlessNotFound (Delete KDaemonSet (wo_Key currentDaemonSet) true);
            _ ← recordEvent (wo_Name currentDaemonSet) (wo_Namespace currentDaemonSet) "DaemonSet" DeletionEvent;
            _ ← changeStatus (set_ist_Agent None);
            requeued
        end
  end.

(** Whether a pod was, or has yet to be, made ready for the DaemonSet. *)
Definition prepareOrphanedPod (selector : option LabelSelector) (selects : gmap string string → bool)
    (key : NamespacedName) (pod : Pod) : M bool :=
  match GetControllerOf (p_OwnerReferences pod) with
  | Some controller => mret (bool_decide (or_Kind controller = "ExtendedDaemonSetReplicaSet"))
  | None =>
      if selects (p_Labels pod) then mret false
      else
        match selector with
        | None => panic
        | Some s =>
            _ ← (if selects (ls_MatchLabels s ∪ p_Labels pod)
                 then PatchPodLabels fault key (ls_MatchLabels s)
                 else unlessNotFound (DeletePod fault key));
            mret true
        end
  end.

(** The loop over the pods, with the flag. *)
Fixpoint prepareOrphanedPods (selector : option LabelSelector) (selects : gmap string string → bool)
    (handled : bool) (pods : list (NamespacedName * Pod)) : M bool :=
  match pods with
  | [] => mret handled
  | e :: pods =>
      b ← prepareOrphanedPod selector selects e.1 e.2;
      prepareOrphanedPods selector selects (handled || b) pods
  end.

Definition prepareOrphanedEDSPodsForDaemonSet (daemonSet : WorkloadObject) : M bool :=
  selects ← of_sum (asSelector (ws_Selector (wo_Spec daemonSet)));
  pods ← ListPods (wo_Namespace daemonSet) (matchesLabels {[ ExtendedDaemonSetNameLabelKey := wo_Name daemonSet ]});
  prepareOrphanedPods (ws_Selector (wo_Spec daemonSet)) selects false pods.

Definition migrateExtendedDaemonSetToDaemonSet (daemonSet : WorkloadObject) : M (bool * Result) :=
  currentEDS ← attempt (Get KExtendedDaemonSet (wo_Key daemonSet));
  match currentEDS with
  | inl currentEDS =>
      if wo_Deleting currentEDS then requeued
      else
        _ ← unlessNotFound (Delete KExtendedDaemonSet (wo_Key currentEDS) true);
        _ ← recordEvent (wo_Name currentEDS) (wo_Namespace currentEDS) "ExtendedDaemonSet" DeletionEvent;
        _ ← changeStatus (set_ist_Agent None);
        requeued
  | inr err =>
      if negb (resourceIsAbsent err) then fail err
      else
        replicaSets ← replicaSetsOf (wo_Namespace daemonSet) (wo_Name daemonSet);
        if negb (bool_decide (length replicaSets = 0))
        then _ ← orphanReplicaSets replicaSets; requeued
        else
          handled ← prepareOrphanedEDSPodsForDaemonSet daemonSet;
          if handled : bool then requeued else handedOver
  end.
End Migration.
