(* ===== verification/MigrationTheorems.v ===== *)
(** * Migrations keep the agents running.

    A migration step deletes no pod that can be kept, and the new workload is
    created only when nothing of the old one is left and its pods are ready to be
    adopted; with the garbage collector at work, that happens after a few rounds. *)

From Stdlib Require Import ZArith Ascii Lia.
From stdpp Require Import base gmap strings list.
From S2P Require Import Prelude GoRun Cluster Status Remote FleetData PodMerger Untaint Objects Workloads Migration.

Implicit Types (w : World) (p : Pod) (o eds daemonSet : WorkloadObject) (key : NamespacedName).

Section Calls.
Context (fault : nat → option (bool * error)) (edsServed : bool).
Context (asSelector : option LabelSelector → (gmap string string → bool) + error).

(** A call that fails does not claim that something is absent. *)
Definition honest : Prop := ∀ n b e, fault n = Some (b, e) → resourceIsAbsent e = false.
Hypothesis Hhonest : honest.

Lemma wp_call {A} (effect : World → World * (A + error)) (Q : World → outcome A → Prop) w :
  (∀ n, match effect (set_w_Calls n w) with (w', inl a) => Q w' (Ret a) | (w', inr e) => Q w' (Fail e) end) →
  (∀ n e, resourceIsAbsent e = false → Q (set_w_Calls n w) (Fail e) ∧ Q (effect (set_w_Calls n w)).1 (Fail e)) →
  wp (call fault effect) Q w.
Proof.
  intros Hok Hfail. unfold wp, call. destruct (fault (w_Calls w)) as [[b e]|] eqn:Hf.
  - destruct (Hfail (S (w_Calls w)) e (Hhonest _ _ _ Hf)) as [H1 H2]. by destruct b.
  - specialize (Hok (S (w_Calls w))). by destruct (effect _) as [w' [a|e]].
Qed.

(** A read changes nothing that matters. *)
Lemma wp_read {A} (r : World → A + error) (Q : World → outcome A → Prop) w :
  (∀ n, Q (set_w_Calls n w) (match r (set_w_Calls n w) with inl a => Ret a | inr e => Fail e end)) →
  (∀ n e, resourceIsAbsent e = false → Q (set_w_Calls n w) (Fail e)) →
  wp (call fault (λ w, (w, r w))) Q w.
Proof.
  intros Hok Hfail. apply wp_call; cbn; [|by auto]. intros n. specialize (Hok n). by destruct (r _).
Qed.

Lemma wp_for_each {A} (f : A → M unit) (I : World → list A → Prop) (Q : World → outcome unit → Prop) l w :
  I w l →
  (∀ x l w, I w (x :: l) → wp (f x) (λ w' r, match r with Ret _ => I w' l | r => Q w' r end) w) →
  (∀ w, I w [] → Q w (Ret tt)) → wp (for_each f l) Q w.
Proof.
  intros Hw Hstep Hend. revert w Hw. induction l as [|x l IH]; intros w Hw; [by apply Hend|].
  cbn. apply wp_bind. eapply wp_mono; [by apply Hstep|]. intros w' [[]| |] H; [by apply IH|done..].
Qed.
End Calls.

(** ** Labelled pods *)

Section Labels.
Context (labelKey name : string).

Definition labelled p : Pod := set_p_Labels (<[labelKey := name]> (p_Labels p)) p.

(** The same pods, some of them with the label. *)
Definition kept w w' : Prop := ∀ key,
  match w_Pods w !! key, w_Pods w' !! key with
  | Some p, Some p' => p' = p ∨ p' = labelled p
  | None, None => True
  | _, _ => False
  end.

Lemma labelled_twice p : labelled (labelled p) = labelled p.
Proof. unfold labelled. cbn. by rewrite insert_insert_eq. Qed.

Lemma pods_kept_refl w w' : w_Pods w' = w_Pods w → kept w w'.
Proof. intros Heq key. rewrite Heq. destruct (w_Pods w !! key); auto. Qed.

Lemma kept_label w w' key p :
  kept w w' → w_Pods w' !! key = Some p → kept w (set_w_Pods (<[key := labelled p]> (w_Pods w')) w').
Proof.
  intros Hk Hp key'. specialize (Hk key'). cbn. destruct (decide (key = key')) as [->|Hne].
  - rewrite lookup_insert_eq. rewrite Hp in Hk. destruct (w_Pods w !! key') as [p0|]; [|done].
    destruct Hk as [->| ->]; [by right|right; apply labelled_twice].
  - by rewrite lookup_insert_ne.
Qed.

Lemma kept_same w w' w'' : kept w w' → w_Pods w'' = w_Pods w' → kept w w''.
Proof. intros Hk Heq key. rewrite Heq. apply Hk. Qed.

(** The pod has the label. *)
Definition has_label w key : Prop := ∀ p, w_Pods w !! key = Some p → get_key (p_Labels p) labelKey = name.

Lemma labelled_has p : get_key (p_Labels (labelled p)) labelKey = name.
Proof. unfold get_key. cbn. by rewrite lookup_insert_eq. Qed.
End Labels.

Section Steps.
Context (fault : nat → option (bool * error)) (edsServed : bool).
Context (asSelector : option LabelSelector → (gmap string string → bool) + error) (labelKey : string).
Hypothesis Hhonest : honest fault.

Lemma wp_setEDSPodLabel w0 w key p name :
  kept labelKey name w0 w → w_Pods w0 !! key = Some p →
  wp (setEDSPodLabel fault labelKey key p name)
    (λ w' r, kept labelKey name w0 w' ∧ w_Objects w' = w_Objects w ∧ r ≠ Panic ∧
       (∀ k, has_label labelKey name w k → has_label labelKey name w' k) ∧ (r = Ret tt → has_label labelKey name w' key)) w.
Proof.
  intros Hk Hp. pose proof (Hk key) as Hkey. rewrite Hp in Hkey. destruct (w_Pods w !! key) as [p'|] eqn:Hp'; [|done].
  unfold setEDSPodLabel. case_bool_decide as Hl.
  - apply wp_ret. split_and!; [done..|]. intros _ q Hq. rewrite Hp' in Hq. injection Hq as <-.
    destruct Hkey as [->| ->]; [done|apply labelled_has].
  - assert (∀ k, has_label labelKey name w k →
              has_label labelKey name (set_w_Pods (<[key := labelled labelKey name p']> (w_Pods w)) w) k) as Hmono.
    { intros k Hlab q. cbn. destruct (decide (key = k)) as [->|Hne].
      - rewrite lookup_insert_eq. intros [= <-]. apply labelled_has.
      - rewrite lookup_insert_ne by done. apply Hlab. }
    apply wp_call; [done| |].
    + intros n. cbn. rewrite Hp'. rewrite <- insert_union_singleton_l. split_and!; [|done..|].
      * by apply (kept_label labelKey name w0 w key p').
      * intros _ q. cbn. rewrite lookup_insert_eq. intros [= <-]. apply labelled_has.
    + intros n e _. cbn. rewrite Hp'. split; [by split_and!|]. rewrite <- insert_union_singleton_l.
      split_and!; [by apply (kept_label labelKey name w0 w key p')|done..].
Qed.

(** The loop that labels the selected pods of a list. *)
Lemma wp_labelPods name (sel : Pod → bool) pods w :
  (∀ e, e ∈ pods → w_Pods w !! e.1 = Some e.2) →
  wp (for_each (λ e, if sel e.2 then setEDSPodLabel fault labelKey e.1 e.2 name else mret tt) pods)
    (λ w' r, kept labelKey name w w' ∧ w_Objects w' = w_Objects w ∧ r ≠ Panic ∧
       (r = Ret tt → ∀ e, e ∈ pods → sel e.2 = true → has_label labelKey name w' e.1)) w.
Proof.
  intros Hpods.
  apply (wp_for_each _ (λ w1 l, kept labelKey name w w1 ∧ w_Objects w1 = w_Objects w ∧ (∀ e, e ∈ l → e ∈ pods) ∧
    ∀ e, e ∈ pods → sel e.2 = true → e ∈ l ∨ has_label labelKey name w1 e.1)).
  - split_and!; [by apply pods_kept_refl|done|done|by left].
  - intros e l w1 (Hk & Ho & Hin & Hdone). assert (∀ x, x ∈ e :: l → x = e ∨ x ∈ l) as Hcase by set_solver.
    destruct (sel e.2) eqn:Hsel.
    + eapply wp_mono; [apply (wp_setEDSPodLabel w w1 e.1 e.2 name Hk), Hpods, Hin; left|].
      intros w2 r (Hk2 & Ho2 & Hr & Hmono & Hlab). destruct r as [[]| |]; [|by rewrite Ho2|done].
      split_and!; [done|by rewrite Ho2|intros; apply Hin; by right|]. intros x Hx Hs.
      destruct (Hdone x Hx Hs) as [Hxl|Hh]; [|right; by apply Hmono].
      destruct (Hcase x Hxl) as [->|]; [right; by apply Hlab|by left].
    + apply wp_ret. split_and!; [done|done|intros; apply Hin; by right|]. intros x Hx Hs.
      destruct (Hdone x Hx Hs) as [Hxl|Hh]; [|by right]. destruct (Hcase x Hxl) as [->|]; [congruence|by left].
  - intros w1 (Hk & Ho & _ & Hdone). split_and!; [done..|]. intros _ e He Hs.
    destruct (Hdone e He Hs) as [Hnil|]; [by apply elem_of_nil in Hnil|done].
Qed.

Lemma elem_podsOf ns sel w e : e ∈ podsOf ns sel w ↔ e.1.1 = ns ∧ sel (p_Labels e.2) = true ∧ w_Pods w !! e.1 = Some e.2.
Proof. unfold podsOf. rewrite list_elem_of_filter. destruct e as [k p]. rewrite elem_of_map_to_list. naive_solver. Qed.

Lemma podsOf_calls ns sel n w : podsOf ns sel (set_w_Calls n w) = podsOf ns sel w.
Proof. done. Qed.

(** A step that only labels pods. *)
Definition labels_only (name : string) w w' : Prop := kept labelKey name w w' ∧ w_Objects w' = w_Objects w.

Lemma wp_labelDaemonSetPods daemonSet name w :
  wp (labelDaemonSetPodsForEDS fault asSelector labelKey daemonSet name)
    (λ w' r, labels_only name w w' ∧ r ≠ Panic) w.
Proof.
  assert (∀ sel, wp (pods ← ListPods fault (wo_Namespace daemonSet) sel;
            for_each (λ e, if ownedByDaemonSet daemonSet e.2 then setEDSPodLabel fault labelKey e.1 e.2 name else mret tt) pods)
          (λ w' r, labels_only name w w' ∧ r ≠ Panic) w) as Hlist.
  { intros sel. apply wp_bind, wp_read; [done| |intros; split; [split; [by apply pods_kept_refl|done]|done]].
    intros n. cbn. eapply wp_mono; [apply (wp_labelPods name (ownedByDaemonSet daemonSet))|].
    - intros e He. rewrite podsOf_calls in He. by apply elem_podsOf in He as (_ & _ & He).
    - by intros w' r (Hk & Ho & Hr & _). }
  unfold labelDaemonSetPodsForEDS. destruct (ws_Selector (wo_Spec daemonSet)) as [s|]; [|apply Hlist].
  apply wp_of_sum; [|by intros; apply Hlist]. intros e _. split; [split; [by apply pods_kept_refl|done]|done].
Qed.

(** The pods an orphaned DaemonSet left are labelled. *)
Definition adoptable eds w : Prop :=
  orphanLabels eds ≠ ∅ → ∀ n p, w_Pods w !! (wo_Namespace eds, n) = Some p →
  matchesLabels (orphanLabels eds) (p_Labels p) = true → orphanedPod (wo_Name eds) p = true →
  get_key (p_Labels p) labelKey = wo_Name eds.

Lemma wp_labelOrphaned eds w :
  wp (labelOrphanedDaemonSetPodsForEDS fault labelKey eds)
    (λ w' r, labels_only (wo_Name eds) w w' ∧ r ≠ Panic ∧ (r = Ret tt → adoptable eds w')) w.
Proof.
  unfold labelOrphanedDaemonSetPodsForEDS. case_bool_decide as He.
  { apply wp_ret. split_and!; [split; [by apply pods_kept_refl|done]|done|by intros _ ?]. }
  apply wp_bind, wp_read; [done| |intros; split_and!; [split; [by apply pods_kept_refl|done]|done..]].
  intros n. cbn. eapply wp_mono; [apply (wp_labelPods (wo_Name eds) (orphanedPod (wo_Name eds)))|].
  { intros e Hin. by apply elem_podsOf in Hin as (_ & _ & Hin). }
  intros w' r (Hk & Ho & Hr & Hlab). split_and!; [done..|]. intros ->. specialize (Hlab eq_refl). intros _ m p Hp Hm Hor.
  pose proof (Hk (wo_Namespace eds, m)) as Hkm. rewrite Hp in Hkm. cbn in Hkm.
  destruct (w_Pods w !! (wo_Namespace eds, m)) as [q|] eqn:Hq; [|done].
  destruct Hkm as [->| ->]; [|apply labelled_has].
  apply (Hlab ((wo_Namespace eds, m), q)); [by apply elem_podsOf|done|done].
Qed.
End Steps.

(** ** The replica sets *)

Section ReplicaSets.
Context (fault : nat → option (bool * error)) (edsServed : bool).
Context (asSelector : option LabelSelector → (gmap string string → bool) + error) (labelKey : string).
Hypothesis Hhonest : honest fault.

Definition no_replica_sets (ns name : string) w : Prop :=
  ∀ n o, w_Objects w !! (KReplicaSet, (ns, n)) = Some o → wo_Labels o !! labelKey ≠ Some name.

Lemma matches_singleton (name : string) (labels : gmap string string) :
  matchesLabels {[ labelKey := name ]} labels = true ↔ labels !! labelKey = Some name.
Proof. unfold matchesLabels. rewrite bool_decide_eq_true. by rewrite map_Forall_singleton. Qed.

Lemma elem_objectsOf k ns labels w o :
  o ∈ objectsOf k (Some ns) labels w ↔
  ∃ n, w_Objects w !! (k, (ns, n)) = Some o ∧ matchesLabels labels (wo_Labels o) = true.
Proof.
  unfold objectsOf. rewrite list_elem_of_fmap. split.
  - intros ([[k' [ns' n]] o'] & Ho & Hin). cbn in Ho. subst o'. rewrite list_elem_of_filter in Hin.
    destruct Hin as [(Hk & Hns & Hm) Hin]. cbn in *. rewrite bool_decide_eq_true in Hns. subst.
    apply elem_of_map_to_list in Hin. by exists n.
  - intros (n & Ho & Hm). exists ((k, (ns, n)), o). split; [done|]. rewrite list_elem_of_filter.
    split; [cbn; by rewrite bool_decide_eq_true|by apply elem_of_map_to_list].
Qed.

Lemma wp_replicaSetsOf ns name (Q : World → outcome (list WorkloadObject) → Prop) w :
  (∀ n e, resourceIsAbsent e = false → Q (set_w_Calls n w) (Fail e)) →
  (edsServed = false → ∀ n, Q (set_w_Calls n w) (Ret [])) →
  (edsServed = true → ∀ n, Q (set_w_Calls n w) (Ret (objectsOf KReplicaSet (Some ns) {[ labelKey := name ]} w))) →
  wp (replicaSetsOf fault edsServed labelKey ns name) Q w.
Proof.
  intros Hf Hno Hyes. unfold replicaSetsOf. apply wp_bind, wp_attempt, wp_read; [done| |].
  - intros n. cbn. destruct edsServed; cbn; [by apply wp_ret, Hyes|by apply wp_ret, Hno].
  - intros n e He. rewrite He. by apply Hf.
Qed.

(** Marking the replica sets leaves the pods alone. *)
Lemma wp_unlessNotFound_Delete k key (I : World → Prop) w :
  (∀ n, I (set_w_Calls n w)) →
  (∀ n o, w_Objects w !! (k, key) = Some o →
     I (set_w_Objects (<[(k, key) := set_wo_Deleting true o]> (w_Objects w)) (set_w_Calls n w))) →
  wp (unlessNotFound (Delete fault edsServed k key true)) (λ w' r, I w' ∧ r ≠ Panic) w.
Proof.
  intros Hn Ho. apply wp_bind, wp_attempt, wp_call; [done| |].
  - intros n. destruct (served edsServed k); cbn; [|by apply wp_fail].
    destruct (w_Objects w !! (k, key)) as [o|] eqn:Hl; cbn; [apply wp_ret; split; [by apply Ho|done]|by apply wp_ret].
  - intros n e He. assert (IsNotFound e = false) as Hnf by (unfold resourceIsAbsent in He; by destruct (IsNotFound e)).
    rewrite Hnf. split; apply wp_fail; [by split|]. destruct (served edsServed k); cbn; [|by split].
    destruct (w_Objects w !! (k, key)) as [o|] eqn:Hl; cbn; [split; [by apply Ho|done]|by split].
Qed.

Lemma wp_orphanReplicaSets l w :
  wp (orphanReplicaSets fault edsServed l) (λ w' r, w_Pods w' = w_Pods w ∧ r ≠ Panic) w.
Proof.
  apply (wp_for_each _ (λ w1 _, w_Pods w1 = w_Pods w)); [done| |done].
  intros o l' w1 Hw. destruct (wo_Deleting o); [by apply wp_ret|].
  eapply wp_mono; [apply (wp_unlessNotFound_Delete _ _ (λ w', w_Pods w' = w_Pods w)); by intros|].
  by intros w' [[]| |] [Hp Hr].
Qed.
End ReplicaSets.

(** ** To an ExtendedDaemonSet *)

Section ToExtendedDaemonSet.
Context (fault : nat → option (bool * error)) (edsServed : bool).
Context (asSelector : option LabelSelector → (gmap string string → bool) + error) (labelKey : string).

(** What is left when the ExtendedDaemonSet can be created or updated. *)
Definition ready_for_eds eds w : Prop :=
  w_Objects w !! (KDaemonSet, wo_Key eds) = None ∧
  ((∃ o, w_Objects w !! (KExtendedDaemonSet, wo_Key eds) = Some o ∧ wo_Deleting o = false) ∨
   (edsServed = true → w_Objects w !! (KExtendedDaemonSet, wo_Key eds) = None ∧
                       no_replica_sets labelKey (wo_Namespace eds) (wo_Name eds) w) ∧
   adoptable labelKey eds w).

Definition eds_step eds w w' (r : outcome (bool * Result)) : Prop :=
  kept labelKey (wo_Name eds) w w' ∧ r ≠ Panic ∧ (∀ res, r = Ret (false, res) → ready_for_eds eds w').

Hypothesis Hhonest : honest fault.

Lemma surjective_pairing_step eds w (m : M (bool * Result)) :
  wp m (eds_step eds w) w → let '(w', r) := m w in eds_step eds w w' r.
Proof. unfold wp. by destruct (m w). Qed.

Lemma wp_UpdateWorkload k o w : wp (Update fault edsServed asSelector k o) (λ w' r, w_Pods w' = w_Pods w ∧ r ≠ Panic) w.
Proof.
  apply wp_call; [done|intros n|intros n e _; split; [done|]]; cbn;
    destruct (served _ _); cbn; try done; destruct (w_Objects w !! _); cbn; try done; by destruct (_ && _).
Qed.

Lemma eds_step_same eds w w' r :
  w_Pods w' = w_Pods w → r ≠ Panic → (∀ res, r ≠ Ret (false, res)) → eds_step eds w w' r.
Proof. intros Hp Hr Hf. split_and!; [by apply pods_kept_refl|done|]. intros res Hres. by destruct (Hf res). Qed.

Lemma wp_resume eds w :
  w_Objects w !! (KDaemonSet, wo_Key eds) = None →
  wp (resumeExtendedDaemonSet fault edsServed labelKey eds) (eds_step eds w) w.
Proof.
  intros Hds. unfold resumeExtendedDaemonSet. apply wp_bind, wp_attempt, wp_read; [done| |].
  2:{ intros n e He. cbn. rewrite He. by apply wp_fail, eds_step_same. }
  intros n. cbn. destruct edsServed eqn:Hs; cbn;
    [destruct (w_Objects w !! (KExtendedDaemonSet, wo_Key eds)) as [o|] eqn:Hl|]; cbn.
  { destruct (wo_Deleting o) eqn:Hd; apply wp_ret; [by apply eds_step_same|]. split_and!; [by apply pods_kept_refl|done|].
    intros res _. split; [done|]. left. by exists o. }
  all: apply wp_bind, wp_replicaSetsOf; [done|intros; by apply eds_step_same|intros Hserved n'|intros Hserved n']; cbn;
    try congruence; case_bool_decide as Hlen; cbn [negb]; try done.
  - apply wp_bind. eapply wp_mono; [by apply wp_labelOrphaned|]. intros w' r [[Hk Ho] [Hr Ha]].
    destruct r as [[]|e|]; [apply wp_ret|by split_and!|done]. split_and!; [done..|]. intros res _. cbn in Ho.
    split; [by rewrite Ho|]. right. split; [|by apply Ha]. intros _. rewrite Ho. split; [done|].
    intros m o Hm Hlab. apply length_zero_iff_nil in Hlen.
    assert (o ∈ objectsOf KReplicaSet (Some (wo_Namespace eds)) {[ labelKey := wo_Name eds ]} (set_w_Calls n w)) as Hin.
    { apply elem_objectsOf. exists m. rewrite Ho in Hm. split; [done|]. by apply matches_singleton. }
    rewrite Hlen in Hin. by apply elem_of_nil in Hin.
  - apply wp_bind. eapply wp_mono; [by apply wp_orphanReplicaSets|]. intros w' r [Hp Hr].
    destruct r as [[]|e|]; [|by apply eds_step_same|done]. by apply eds_step_same.
  - apply wp_bind. eapply wp_mono; [by apply wp_labelOrphaned|]. intros w' r [[Hk Ho] [Hr Ha]].
    destruct r as [[]|e|]; [apply wp_ret|by split_and!|done]. split_and!; [done..|]. intros res _. cbn in Ho.
    split; [by rewrite Ho|]. right. split; [by rewrite Hs|by apply Ha].
Qed.

(** C9: a step of the migration to an ExtendedDaemonSet loses no agent, whichever
    of its calls fail: every pod is still there, and differs at most in the label
    that names the ExtendedDaemonSet.  The step leaves the reconcile to the
    creation of the ExtendedDaemonSet only when the DaemonSet is gone, and either
    the ExtendedDaemonSet is there and not being deleted, or nothing is left of an
    earlier one and the pods that are to be adopted have its label. *)
Theorem migration_to_eds_keeps_pods eds w :
  let '(w', r) := migrateDaemonSetToExtendedDaemonSet fault edsServed asSelector labelKey eds w in
  kept labelKey (wo_Name eds) w w' ∧ r ≠ Panic ∧ (∀ res, r = Ret (false, res) → ready_for_eds eds w').
Proof.
  apply surjective_pairing_step. unfold migrateDaemonSetToExtendedDaemonSet.
  apply wp_bind, wp_attempt, wp_read; [done| |].
  2:{ intros n e He. assert (IsNotFound e = false) as -> by (unfold resourceIsAbsent in He; by destruct (IsNotFound e)).
      by apply wp_fail, eds_step_same. }
  intros n. cbn. destruct (w_Objects w !! (KDaemonSet, wo_Key eds)) as [ds|] eqn:Hl; cbn; [|by apply (wp_resume eds (set_w_Calls n w))].
  destruct (wo_Deleting ds); [by apply wp_ret, eds_step_same|].
  destruct (prepareDaemonSetForEDSMigration labelKey ds (wo_Name eds)) as [updated|].
  - apply wp_bind. eapply wp_mono; [by apply wp_UpdateWorkload|]. intros w' r [Hp Hr].
    destruct r as [[]|e|]; [apply wp_ret| |done]; by apply eds_step_same.
  - apply wp_bind. eapply wp_mono; [by apply wp_labelDaemonSetPods|]. intros w' r [[Hk Ho] Hr].
    destruct r as [[]|e|]; [|by split_and!|done].
    apply wp_bind. eapply wp_mono; [apply (wp_unlessNotFound_Delete fault edsServed Hhonest _ _ (λ w2, w_Pods w2 = w_Pods w')); by intros|].
    intros w2 r [Hp Hr2]. destruct r as [[]|e|]; [| |done]; [apply wp_modify_then, wp_modify_then, wp_ret|];
      (split_and!; [by apply (kept_same _ _ w w')|done..]).
Qed.
End ToExtendedDaemonSet.

(** ** To a DaemonSet *)

Section ToDaemonSet.
Context (fault : nat → option (bool * error)) (edsServed : bool).
Context (asSelector : option LabelSelector → (gmap string string → bool) + error) (labelKey : string).
Context (daemonSet : WorkloadObject) (s : LabelSelector) (selects : gmap string string → bool).
Hypothesis Hhonest : honest fault.
Hypothesis Hsel : ws_Selector (wo_Spec daemonSet) = Some s.
Hypothesis Has : asSelector (Some s) = inl selects.

(** The DaemonSet adopts the pod, or the pod belongs to someone else. *)
Definition adopts p : bool :=
  match GetControllerOf (p_OwnerReferences p) with
  | Some controller => negb (bool_decide (or_Kind controller = "ExtendedDaemonSetReplicaSet"))
  | None => selects (p_Labels p)
  end.

(** What becomes of a pod: nothing, or, if nobody owns it and the DaemonSet does
    not select it, the labels of the selector where these make the selector
    match, and its deletion where they do not. *)
Definition adapted p p' : Prop :=
  p' = p ∨
  (GetControllerOf (p_OwnerReferences p) = None ∧ selects (p_Labels p) = false ∧
   p' = if selects (ls_MatchLabels s ∪ p_Labels p) then set_p_Labels (ls_MatchLabels s ∪ p_Labels p) p
        else mkPod (p_Labels p) (p_OwnerReferences p) true (p_Rest p)).

Definition pods_adapted w w' : Prop := ∀ key,
  match w_Pods w !! key, w_Pods w' !! key with
  | Some p, Some p' => adapted p p'
  | None, None => True
  | _, _ => False
  end.

Lemma pods_adapted_same w w' : w_Pods w' = w_Pods w → pods_adapted w w'.
Proof. intros Heq key. rewrite Heq. destruct (w_Pods w !! key); [by left|done]. Qed.

Lemma pods_adapted_insert w w' key p p' :
  pods_adapted w w' → w_Pods w !! key = Some p → adapted p p' →
  pods_adapted w (set_w_Pods (<[key := p']> (w_Pods w')) w').
Proof.
  intros Ha Hp Hp' key'. specialize (Ha key'). cbn. destruct (decide (key = key')) as [->|Hne].
  - rewrite lookup_insert_eq. by rewrite Hp.
  - by rewrite lookup_insert_ne.
Qed.

(** One pod that is as it was listed. *)
Lemma wp_prepareOrphanedPod w w1 key p :
  pods_adapted w w1 → w_Pods w !! key = Some p → w_Pods w1 !! key = Some p →
  wp (prepareOrphanedPod fault (Some s) selects key p)
    (λ w' r, pods_adapted w w' ∧ w_Objects w' = w_Objects w1 ∧ r ≠ Panic ∧
       (∀ k, k ≠ key → w_Pods w' !! k = w_Pods w1 !! k) ∧ (r = Ret false → w_Pods w' = w_Pods w1 ∧ adopts p = true)) w1.
Proof.
  intros Ha Hp Hp1. unfold prepareOrphanedPod, adopts.
  destruct (GetControllerOf (p_OwnerReferences p)) as [c|] eqn:Hc.
  { apply wp_ret. split_and!; try done. intros [= Hb]. by rewrite Hb. }
  destruct (selects (p_Labels p)) eqn:Hs; [by apply wp_ret|]. apply wp_bind.
  assert (∀ p' n, adapted p p' →
    (λ w', pods_adapted w w' ∧ w_Objects w' = w_Objects w1 ∧ (∀ k, k ≠ key → w_Pods w' !! k = w_Pods w1 !! k))
      (set_w_Pods (<[key := p']> (w_Pods w1)) (set_w_Calls n w1))) as Hins.
  { intros p' n Hp'. split_and!; [|done|intros k Hk; cbn; by rewrite lookup_insert_ne].
    by apply (pods_adapted_insert w (set_w_Calls n w1) key p p'). }
  destruct (selects (ls_MatchLabels s ∪ p_Labels p)) eqn:Hs'.
  - assert (adapted p (set_p_Labels (ls_MatchLabels s ∪ p_Labels p) p)) as Hp' by (right; by rewrite Hs').
    apply wp_call; [done| |].
    + intros n. cbn. rewrite Hp1. destruct (Hins _ n Hp') as (? & ? & ?). by apply wp_ret.
    + intros n e _. cbn. rewrite Hp1. destruct (Hins _ n Hp') as (? & ? & ?). split; by split_and!.
  - assert (adapted p (mkPod (p_Labels p) (p_OwnerReferences p) true (p_Rest p))) as Hp' by (right; by rewrite Hs').
    apply wp_bind, wp_attempt, wp_call; [done| |].
    + intros n. cbn. rewrite Hp1. destruct (Hins _ n Hp') as (? & ? & ?). apply wp_ret; by split_and!.
    + intros n e He. assert (IsNotFound e = false) as Hnf by (unfold resourceIsAbsent in He; by destruct (IsNotFound e)).
      rewrite Hnf. cbn. rewrite Hp1. destruct (Hins _ n Hp') as (? & ? & ?). split; unfold wp; cbn; by split_and!.
Qed.

Lemma wp_prepareOrphanedPods w pods w1 handled :
  pods_adapted w w1 → NoDup pods.*1 → (∀ e, e ∈ pods → w_Pods w !! e.1 = Some e.2 ∧ w_Pods w1 !! e.1 = Some e.2) →
  wp (prepareOrphanedPods fault (Some s) selects handled pods)
    (λ w' r, pods_adapted w w' ∧ w_Objects w' = w_Objects w1 ∧ r ≠ Panic ∧
       (r = Ret false → handled = false ∧ w_Pods w' = w_Pods w1 ∧ ∀ e, e ∈ pods → adopts e.2 = true)) w1.
Proof.
  revert w1 handled. induction pods as [|e pods IH]; intros w1 handled Ha Hnd Hin.
  { apply wp_ret. split_and!; [done..|]. intros [= ->]. split_and!; [done..|]. intros e He. by apply elem_of_nil in He. }
  cbn. apply wp_bind. destruct (Hin e) as [He He1]; [left|]. apply NoDup_cons in Hnd as [Hne Hnd].
  eapply wp_mono; [by apply (wp_prepareOrphanedPod w w1 e.1 e.2)|].
  intros w2 r (Ha2 & Ho2 & Hr & Hother & Hret). destruct r as [b|err|]; [|by split_and!|done].
  eapply wp_mono; [apply (IH w2 (handled || b) Ha2 Hnd)|].
  - intros x Hx. destruct (Hin x) as [Hx0 Hx1]; [by right|]. split; [done|]. rewrite Hother; [done|].
    intros Heq. apply Hne. rewrite <- Heq. by apply list_elem_of_fmap_2.
  - intros w3 r (Ha3 & Ho3 & Hr3 & Hret3). split_and!; [done|by rewrite Ho3|done|]. intros ->.
    destruct (Hret3 eq_refl) as (Hb & Hp3 & Hall). apply orb_false_iff in Hb as [-> ->].
    destruct (Hret eq_refl) as [Hp2 Hok]. split_and!; [done|by rewrite Hp3|]. intros x Hx.
    apply elem_of_cons in Hx as [->|Hx]; [done|by apply Hall].
Qed.

(** What is left when the DaemonSet can be created or updated. *)
Definition ready_for_ds w : Prop :=
  (edsServed = true → w_Objects w !! (KExtendedDaemonSet, wo_Key daemonSet) = None ∧
                      no_replica_sets labelKey (wo_Namespace daemonSet) (wo_Name daemonSet) w) ∧
  ∀ n p, w_Pods w !! (wo_Namespace daemonSet, n) = Some p → p_Labels p !! labelKey = Some (wo_Name daemonSet) →
  adopts p = true.

Definition ds_step w w' (r : outcome (bool * Result)) : Prop :=
  pods_adapted w w' ∧ r ≠ Panic ∧ (∀ res, r = Ret (false, res) → ready_for_ds w').

Lemma ds_step_same w w' r : w_Pods w' = w_Pods w → r ≠ Panic → (∀ res, r ≠ Ret (false, res)) → ds_step w w' r.
Proof. intros Hp Hr Hf. split_and!; [by apply pods_adapted_same|done|]. intros res Hres. by destruct (Hf res). Qed.

Lemma podsOf_nodup ns sel w : NoDup (podsOf ns sel w).*1.
Proof. unfold podsOf. eapply sublist_NoDup; [apply (NoDup_fst_map_to_list (w_Pods w))|apply fmap_sublist, sublist_filter]. Qed.

Lemma wp_prepareForDaemonSet w :
  wp (prepareOrphanedEDSPodsForDaemonSet fault asSelector labelKey daemonSet)
    (λ w' r, pods_adapted w w' ∧ w_Objects w' = w_Objects w ∧ r ≠ Panic ∧
       (r = Ret false → w_Pods w' = w_Pods w ∧
          ∀ n p, w_Pods w !! (wo_Namespace daemonSet, n) = Some p → p_Labels p !! labelKey = Some (wo_Name daemonSet) →
          adopts p = true)) w.
Proof.
  unfold prepareOrphanedEDSPodsForDaemonSet. rewrite Hsel, Has. apply wp_of_sum; [done|]. intros sel [= <-].
  apply wp_bind, wp_read; [done| |intros; split_and!; [by apply pods_adapted_same|done..]].
  intros n. cbn. set (pods := podsOf _ _ _).
  assert (∀ e, e ∈ pods → w_Pods w !! e.1 = Some e.2) as Hin by (intros e He; by apply elem_podsOf in He as (_ & _ & He)).
  eapply wp_mono; [apply (wp_prepareOrphanedPods w pods (set_w_Calls n w) false)|].
  - by apply pods_adapted_same.
  - apply podsOf_nodup.
  - intros e He. split; by apply Hin.
  - intros w' r (Ha & Ho & Hr & Hret). split_and!; [done..|]. intros ->. destruct (Hret eq_refl) as (_ & Hp & Hall).
    split; [done|]. intros m p Hm Hl. apply (Hall ((wo_Namespace daemonSet, m), p)). apply elem_podsOf.
    split_and!; [done|by apply matches_singleton|done].
Qed.

(** C10: a step of the migration to a DaemonSet touches only the pods it has to,
    whichever of its calls fail: a pod changes only if nobody controls it and the
    DaemonSet does not select it, and is deleted only if the labels of the
    selector would not make it do so.  The step leaves the reconcile to the
    creation of the DaemonSet only when the ExtendedDaemonSet and its replica sets
    are gone, and every pod of it that nobody controls will be adopted. *)
Theorem migration_to_ds_keeps_pods w :
  let '(w', r) := migrateExtendedDaemonSetToDaemonSet fault edsServed asSelector labelKey daemonSet w in
  pods_adapted w w' ∧ r ≠ Panic ∧ (∀ res, r = Ret (false, res) → ready_for_ds w').
Proof.
  enough (wp (migrateExtendedDaemonSetToDaemonSet fault edsServed asSelector labelKey daemonSet) (ds_step w) w) as Hwp
    by (revert Hwp; unfold wp; by destruct (migrateExtendedDaemonSetToDaemonSet _ _ _ _ _ w)).
  unfold migrateExtendedDaemonSetToDaemonSet. apply wp_bind, wp_attempt, wp_read; [done| |].
  2:{ intros n e He. rewrite He. by apply wp_fail, ds_step_same. }
  intros n. cbn. destruct edsServed eqn:Hs; cbn;
    [destruct (w_Objects w !! (KExtendedDaemonSet, wo_Key daemonSet)) as [o|] eqn:Hl|]; cbn.
  { destruct (wo_Deleting o); [by apply wp_ret, ds_step_same|].
    apply wp_bind. eapply wp_mono;
      [apply (wp_unlessNotFound_Delete fault true Hhonest _ _ (λ w2, w_Pods w2 = w_Pods w)); by intros|].
    intros w2 r [Hp Hr2]. destruct r as [[]|e|]; [| |done]; [apply wp_modify_then, wp_modify_then, wp_ret|]; by apply ds_step_same. }
  all: apply wp_bind, wp_replicaSetsOf; [done|intros; by apply ds_step_same|intros Hserved n'|intros Hserved n']; cbn;
    try congruence; case_bool_decide as Hlen; cbn [negb]; try done.
  2: { apply wp_bind. eapply wp_mono; [by apply wp_orphanReplicaSets|]. intros w' r [Hp Hr].
       destruct r as [[]|e|]; [| |done]; by apply ds_step_same. }
  all: apply wp_bind; eapply wp_mono; [apply wp_prepareForDaemonSet|]; intros w' r (Ha & Ho & Hr & Hret); cbn in *;
    destruct r as [[]|e|]; [apply wp_ret| |by split_and!|done]; [split_and!; done|apply wp_ret];
    destruct (Hret eq_refl) as [Hp Hall]; split_and!; [done..|]; intros res _; split; [|by rewrite Hp].
  - intros _. rewrite Ho. split; [done|]. intros m o Hm Hlab. apply length_zero_iff_nil in Hlen.
    assert (o ∈ objectsOf KReplicaSet (Some (wo_Namespace daemonSet)) {[ labelKey := wo_Name daemonSet ]} (set_w_Calls n w)) as Hin.
    { apply elem_objectsOf. exists m. rewrite Ho in Hm. split; [done|]. by apply matches_singleton. }
    rewrite Hlen in Hin. by apply elem_of_nil in Hin.
  - by rewrite Hs.
Qed.
End ToDaemonSet.
