(* ===== verification/MigrationRounds.v ===== *)
(** * Migrations come to their end.

    Rounds of a reconcile, whose calls do not fail, and of the garbage collector,
    which removes what is marked for deletion and takes the references to it off
    its dependents. *)

From Stdlib Require Import ZArith Ascii Lia.
From stdpp Require Import base gmap strings list.
From S2P Require Import Prelude GoRun Cluster Status Remote FleetData PodMerger Untaint Objects Workloads Migration.
From S2P Require Import MigrationTheorems.

Implicit Types (w : World) (p : Pod) (o eds daemonSet : WorkloadObject) (key : NamespacedName).

(** ** The garbage collector *)

Definition goneOwners w : list (string * string) :=
  (λ e, ownerID e.1.1 e.2) <$> filter (λ e : (WorkloadKind * NamespacedName) * WorkloadObject, wo_Deleting e.2 = true) (map_to_list (w_Objects w)).

Definition withoutOwners (gone : list (string * string)) (refs : list OwnerReference) : list OwnerReference :=
  filter (λ r, (or_Kind r, or_UID r) ∉ gone) refs.

Definition collectObject (gone : list (string * string)) o : option WorkloadObject :=
  if wo_Deleting o then None else Some (set_wo_OwnerReferences (withoutOwners gone (wo_OwnerReferences o)) o).

Definition collectPod (gone : list (string * string)) p : option Pod :=
  if p_Deleting p then None else Some (set_p_OwnerReferences (withoutOwners gone (p_OwnerReferences p)) p).

Definition collect w : World :=
  set_w_Pods (omap (collectPod (goneOwners w)) (w_Pods w))
    (set_w_Objects (omap (collectObject (goneOwners w)) (w_Objects w)) w).

Definition noFault (n : nat) : option (bool * error) := None.

Lemma honest_noFault : honest noFault.
Proof. by intros n b e. Qed.

(** ** Calls that succeed *)

Lemma wp_call_ok {A} (effect : World → World * (A + error)) (Q : World → outcome A → Prop) w :
  (∀ n, match effect (set_w_Calls n w) with (w', inl a) => Q w' (Ret a) | (w', inr e) => Q w' (Fail e) end) →
  wp (call noFault effect) Q w.
Proof. intros H. unfold wp, call. cbn. specialize (H (S (w_Calls w))). by destruct (effect _) as [w' [a|e]]. Qed.

Section Pods.
Context (labelKey name : string).

Lemma kept_lookup w w' key p : kept labelKey name w w' → w_Pods w !! key = Some p → ∃ p', w_Pods w' !! key = Some p'.
Proof. intros Hk Hp. specialize (Hk key). rewrite Hp in Hk. destruct (w_Pods w' !! key); [by eexists|done]. Qed.

Lemma labelPods_ok (sel : Pod → bool) pods w :
  (∀ e, e ∈ pods → w_Pods w !! e.1 = Some e.2) →
  wp (for_each (λ e, if sel e.2 then setEDSPodLabel noFault labelKey e.1 e.2 name else mret tt) pods)
    (λ w' r, w_Objects w' = w_Objects w ∧ r = Ret tt) w.
Proof.
  intros Hpods.
  apply (wp_for_each _ (λ w1 l, w_Objects w1 = w_Objects w ∧ ∀ e, e ∈ l → is_Some (w_Pods w1 !! e.1))).
  - split; [done|]. intros e He. rewrite (Hpods e He). by eexists.
  - intros e l w1 [Ho Hin]. destruct (Hin e) as [p1 Hp1]; [left|].
    assert (∀ x, x ∈ l → is_Some (w_Pods w1 !! x.1)) as Hl by (intros x Hx; apply Hin; by right).
    destruct (sel e.2); [|by apply wp_ret]. unfold setEDSPodLabel. case_bool_decide; [by apply wp_ret|].
    apply wp_call_ok. intros n. cbn. rewrite Hp1. split; [done|]. intros x Hx. cbn. apply lookup_insert_is_Some'. right. by apply Hl.
  - by intros w1 [Ho _].
Qed.
End Pods.

Lemma collect_lookup w k : w_Objects (collect w) !! k = w_Objects w !! k ≫= collectObject (goneOwners w).
Proof. unfold collect. cbn. by rewrite lookup_omap. Qed.

Lemma collect_found w k o :
  w_Objects (collect w) !! k = Some o →
  ∃ o0, w_Objects w !! k = Some o0 ∧ wo_Deleting o0 = false ∧
    o = set_wo_OwnerReferences (withoutOwners (goneOwners w) (wo_OwnerReferences o0)) o0.
Proof.
  rewrite collect_lookup. intros (o0 & Ho0 & Hc)%bind_Some. unfold collectObject in Hc.
  destruct (wo_Deleting o0) eqn:Hd; [done|]. injection Hc as <-. eauto.
Qed.

Lemma collect_Some w k o :
  w_Objects (collect w) !! k = Some o →
  ∃ o0, w_Objects w !! k = Some o0 ∧ wo_Deleting o0 = false ∧ ∃ refs, o = set_wo_OwnerReferences refs o0.
Proof. intros (o0 & Ho0 & Hd & ->)%collect_found. eauto. Qed.

Lemma collect_marked w k o : w_Objects w !! k = Some o → wo_Deleting o = true → w_Objects (collect w) !! k = None.
Proof. intros Ho Hd. rewrite collect_lookup, Ho. cbn. unfold collectObject. by rewrite Hd. Qed.

Lemma collect_None w k : w_Objects w !! k = None → w_Objects (collect w) !! k = None.
Proof. intros Ho. by rewrite collect_lookup, Ho. Qed.

(** Objects are kept under their names. *)
Definition well_keyed w : Prop := ∀ k key o, w_Objects w !! (k, key) = Some o → wo_Key o = key.

Lemma collect_well_keyed w : well_keyed w → well_keyed (collect w).
Proof. intros Hw k key o (o0 & Ho0 & _ & refs & ->)%collect_Some. by apply (Hw k key o0). Qed.

Lemma GetControllerOf_Some refs ref : GetControllerOf refs = Some ref → ref ∈ refs ∧ or_Controller ref = Some true.
Proof.
  unfold GetControllerOf. intros Hh. assert (ref ∈ filter (λ r, or_Controller r = Some true) refs) as Hin.
  { destruct (filter _ refs); [done|]. cbn in Hh. injection Hh as ->. left. }
  apply list_elem_of_filter in Hin. tauto.
Qed.

Lemma GetControllerOf_None refs ref : GetControllerOf refs = None → ref ∈ refs → or_Controller ref ≠ Some true.
Proof.
  unfold GetControllerOf. intros Hh Hin Hc. assert (ref ∈ filter (λ r, or_Controller r = Some true) refs) as Hf
    by by apply list_elem_of_filter.
  destruct (filter _ refs); [by apply elem_of_nil in Hf|done].
Qed.

Lemma elem_goneOwners w k o : w_Objects w !! k = Some o → wo_Deleting o = true → ownerID k.1 o ∈ goneOwners w.
Proof.
  intros Ho Hd. unfold goneOwners. apply list_elem_of_fmap. exists (k, o). split; [done|]. apply list_elem_of_filter.
  split; [done|by apply elem_of_map_to_list].
Qed.

Lemma goneOwners_collect w : goneOwners (collect w) = [].
Proof.
  unfold goneOwners. destruct (filter _ _) as [|[k o] l] eqn:Hf; [done|]. exfalso.
  assert ((k, o) ∈ filter (λ e : (WorkloadKind * NamespacedName) * WorkloadObject, wo_Deleting e.2 = true)
                     (map_to_list (w_Objects (collect w)))) as Hin by (rewrite Hf; left).
  apply list_elem_of_filter in Hin as [Hd Hin]. apply elem_of_map_to_list in Hin.
  apply collect_Some in Hin as (o0 & _ & Hd0 & refs & ->). cbn in Hd. congruence.
Qed.

Lemma withoutOwners_nil refs : withoutOwners [] refs = refs.
Proof. unfold withoutOwners. induction refs as [|r refs IH]; [done|]. rewrite filter_cons_True by set_solver. by rewrite IH. Qed.

(** ** Replica sets that are marked *)

Section ReplicaSets.
Context (labelKey ns name : string).

Definition replicaSets w : list WorkloadObject := objectsOf KReplicaSet (Some ns) {[ labelKey := name ]} w.

(** Only replica sets changed, and these were marked. *)
Definition marks w w' : Prop := ∀ k,
  w_Objects w' !! k = w_Objects w !! k ∨
  (k.1 = KReplicaSet ∧ ∃ o, w_Objects w !! k = Some o ∧ w_Objects w' !! k = Some (set_wo_Deleting true o)).

Lemma marks_same w w' : w_Objects w' = w_Objects w → marks w w'.
Proof. intros Heq k. rewrite Heq. by left. Qed.

Definition is_marked w key : Prop := ∀ o, w_Objects w !! (KReplicaSet, key) = Some o → wo_Deleting o = true.

Lemma orphanReplicaSets_ok l w :
  (∀ o, o ∈ l → w_Objects w !! (KReplicaSet, wo_Key o) = Some o) →
  wp (orphanReplicaSets noFault true l)
    (λ w' r, marks w w' ∧ w_Pods w' = w_Pods w ∧ r = Ret tt ∧ ∀ o, o ∈ l → is_marked w' (wo_Key o)) w.
Proof.
  intros Hl.
  apply (wp_for_each _ (λ w1 l1, marks w w1 ∧ w_Pods w1 = w_Pods w ∧ (∀ o, o ∈ l1 → o ∈ l) ∧
    ∀ o, o ∈ l → o ∈ l1 ∨ is_marked w1 (wo_Key o))).
  - split_and!; [by apply marks_same|done|done|by left].
  - intros o l1 w1 (Hm & Hp & Hin & Hdone). assert (o ∈ l) as Hol by (apply Hin; left).
    assert (∀ x, x ∈ l1 → x ∈ l) as Hl1 by (intros x Hx; apply Hin; by right).
    pose proof (Hl o Hol) as Ho. destruct (wo_Deleting o) eqn:Hd.
    + apply wp_ret. split_and!; [done..|]. intros x Hx. destruct (Hdone x Hx) as [Hxl|Hxm]; [|by right].
      apply elem_of_cons in Hxl as [->|Hxl]; [|by left]. right. intros y Hy.
      destruct (Hm (KReplicaSet, wo_Key o)) as [Heq|(_ & z & _ & Hz)]; rewrite Hy in *; [|by simplify_eq]. congruence.
    + assert (∃ o1, w_Objects w1 !! (KReplicaSet, wo_Key o) = Some o1 ∧ set_wo_Deleting true o1 = set_wo_Deleting true o) as (o1 & Ho1 & Heq).
      { destruct (Hm (KReplicaSet, wo_Key o)) as [->|(_ & z & Hz & Hz1)]; [eauto|]. rewrite Ho in Hz. injection Hz as <-. eauto. }
      apply wp_bind, wp_attempt, wp_call_ok. intros n. cbn. rewrite Ho1. cbn.
      split_and!; [|done|done|].
      * intros k. cbn. destruct (decide (k = (KReplicaSet, wo_Key o))) as [->|Hne].
        -- rewrite lookup_insert_eq. right. split; [done|]. exists o. by rewrite Heq.
        -- rewrite lookup_insert_ne by done. apply Hm.
      * intros x Hx. destruct (Hdone x Hx) as [Hxl|Hxm].
        -- apply elem_of_cons in Hxl as [->|Hxl]; [|by left]. right. intros y. cbn. rewrite lookup_insert_eq. by intros [= <-].
        -- right. intros y. cbn. destruct (decide (wo_Key o = wo_Key x)) as [Hk|Hne].
           ++ rewrite Hk, lookup_insert_eq. by intros [= <-].
           ++ rewrite lookup_insert_ne by congruence. apply Hxm.
  - intros w1 (Hm & Hp & _ & Hdone). split_and!; [done..|]. intros o Ho. by destruct (Hdone o Ho) as [[]%elem_of_nil|].
Qed.

(** After the garbage collector, none of the marked ones is left. *)
Lemma replicaSets_collected w w' :
  well_keyed w → marks w w' → (∀ o, o ∈ replicaSets w → is_marked w' (wo_Key o)) → replicaSets (collect w') = [].
Proof.
  intros Hk Hm Hall. destruct (replicaSets (collect w')) as [|o l] eqn:Hr; [done|]. exfalso.
  assert (o ∈ replicaSets (collect w')) as Ho by (rewrite Hr; left). apply elem_objectsOf in Ho as (n & Ho & Hlab).
  apply collect_Some in Ho as (o0 & Ho0 & Hd & refs & ->). cbn in Hlab.
  destruct (Hm (KReplicaSet, (ns, n))) as [Heq|(_ & z & _ & Hz)]; [|rewrite Ho0 in Hz; by simplify_eq].
  rewrite Heq in Ho0. assert (o0 ∈ replicaSets w) as Hin by (apply elem_objectsOf; eauto).
  pose proof (Hall o0 Hin o0) as Hmk. rewrite (Hk _ _ _ Ho0) in Hmk. rewrite Heq in Hmk. specialize (Hmk Ho0). congruence.
Qed.

(** The garbage collector adds none. *)
Lemma replicaSets_collect w w' :
  (∀ key, w_Objects w' !! (KReplicaSet, key) = w_Objects w !! (KReplicaSet, key)) →
  replicaSets w = [] → replicaSets (collect w') = [].
Proof.
  intros Heq Hnil. destruct (replicaSets (collect w')) as [|o l] eqn:Hr; [done|]. exfalso.
  assert (o ∈ replicaSets (collect w')) as Ho by (rewrite Hr; left). apply elem_objectsOf in Ho as (n & Ho & Hlab).
  apply collect_Some in Ho as (o0 & Ho0 & Hd & refs & ->). rewrite Heq in Ho0.
  assert (o0 ∈ replicaSets w) as Hin by (apply elem_objectsOf; eauto). rewrite Hnil in Hin. by apply elem_of_nil in Hin.
Qed.
End ReplicaSets.

(** ** To an ExtendedDaemonSet *)

Section ToExtendedDaemonSet.
Context (asSelector : option LabelSelector → (gmap string string → bool) + error) (labelKey : string) (eds : WorkloadObject).

Abbreviation name := (wo_Name eds).
Abbreviation prepare := (prepareDaemonSetForEDSMigration labelKey).
Definition toEDS : M (bool * Result) := migrateDaemonSetToExtendedDaemonSet noFault true asSelector labelKey eds.
Definition daemonSetOf w : option WorkloadObject := w_Objects w !! (KDaemonSet, wo_Key eds).
Definition edsOf w : option WorkloadObject := w_Objects w !! (KExtendedDaemonSet, wo_Key eds).
Abbreviation rs := (replicaSets labelKey (wo_Namespace eds) name).

(** The API server accepts the DaemonSet with the label of the ExtendedDaemonSet. *)
Definition acceptable w : Prop := ∀ ds, daemonSetOf w = Some ds →
  selectsTemplate asSelector (wo_Spec (default ds (prepare ds name))) = true.

Lemma prepare_selector ds u : prepare ds name = Some u → ws_Selector (wo_Spec u) = ws_Selector (wo_Spec ds).
Proof. unfold prepareDaemonSetForEDSMigration. case_match; [|done]. by intros [= <-]. Qed.

Lemma prepare_key ds u : prepare ds name = Some u → wo_Key u = wo_Key ds ∧ wo_Deleting u = wo_Deleting ds.
Proof. unfold prepareDaemonSetForEDSMigration. case_match; [|done]. by intros [= <-]. Qed.

(** Prepared once, a DaemonSet needs no more updates. *)
Lemma prepare_once ds u x refs : prepare ds name = Some u → prepare (set_wo_OwnerReferences refs (keepServerFields x u)) name = None.
Proof.
  unfold prepareDaemonSetForEDSMigration. case_match eqn:Hneed; [|done]. intros [= <-]. cbn.
  rewrite orb_false_intro; [done| |].
  - destruct (negb (bool_decide (str_Type (ws_Strategy (wo_Spec ds)) = OnDeleteDaemonSetStrategyType))
              || bool_decide (is_Some (str_RollingUpdate (ws_Strategy (wo_Spec ds))))) eqn:Hs; [reflexivity|exact Hs].
  - clear Hneed. apply negb_false_iff, bool_decide_eq_true.
    destruct (bool_decide (get_key (default ∅ (tpl_Labels (ws_Template (wo_Spec ds)))) labelKey = name)) eqn:Hl; cbn.
    + by apply bool_decide_eq_true in Hl.
    + unfold get_key. by rewrite lookup_insert_eq.
Qed.

Inductive eds_case w : World → outcome (bool * Result) → Prop :=
| EDeleting ds w' : daemonSetOf w = Some ds → wo_Deleting ds = true → w_Objects w' = w_Objects w →
    eds_case w w' (Ret (true, workloadMigrationResult))
| EPrepare ds u w' : daemonSetOf w = Some ds → wo_Deleting ds = false → prepare ds name = Some u →
    w_Objects w' = <[(KDaemonSet, wo_Key eds) := keepServerFields ds u]> (w_Objects w) →
    eds_case w w' (Ret (true, workloadMigrationResult))
| EOrphan ds w' : daemonSetOf w = Some ds → wo_Deleting ds = false → prepare ds name = None →
    w_Objects w' = <[(KDaemonSet, wo_Key eds) := set_wo_Deleting true ds]> (w_Objects w) →
    eds_case w w' (Ret (true, workloadMigrationResult))
| EWait o w' : daemonSetOf w = None → edsOf w = Some o → wo_Deleting o = true → w_Objects w' = w_Objects w →
    eds_case w w' (Ret (true, workloadMigrationResult))
| EMark w' : daemonSetOf w = None → edsOf w = None → rs w ≠ [] → marks w w' →
    (∀ o, o ∈ rs w → is_marked w' (wo_Key o)) → eds_case w w' (Ret (true, workloadMigrationResult))
| EDone w' : daemonSetOf w = None → w_Objects w' = w_Objects w →
    ((∃ o, edsOf w = Some o ∧ wo_Deleting o = false) ∨ (edsOf w = None ∧ rs w = [])) →
    eds_case w w' (Ret (false, zeroResult)).

Lemma labelDaemonSet_ok ds w :
  selectsTemplate asSelector (wo_Spec ds) = true →
  wp (labelDaemonSetPodsForEDS noFault asSelector labelKey ds name) (λ w' r, w_Objects w' = w_Objects w ∧ r = Ret tt) w.
Proof.
  intros Hsel. unfold labelDaemonSetPodsForEDS.
  assert (∀ sel, wp (pods ← ListPods noFault (wo_Namespace ds) sel;
            for_each (λ e, if ownedByDaemonSet ds e.2 then setEDSPodLabel noFault labelKey e.1 e.2 name else mret tt) pods)
          (λ w' r, w_Objects w' = w_Objects w ∧ r = Ret tt) w) as Hlist.
  { intros sel. apply wp_bind, wp_call_ok. intros n. cbn. apply (labelPods_ok labelKey name (ownedByDaemonSet ds) _ (set_w_Calls n w)).
    intros e He. by apply elem_podsOf in He as (_ & _ & He). }
  unfold selectsTemplate in Hsel. destruct (ws_Selector (wo_Spec ds)) as [s|]; [|apply Hlist].
  destruct (asSelector (Some s)) as [sel|e]; [|done]. apply wp_of_sum; [done|]. intros sel' _. apply Hlist.
Qed.

Lemma labelOrphaned_ok w :
  wp (labelOrphanedDaemonSetPodsForEDS noFault labelKey eds) (λ w' r, w_Objects w' = w_Objects w ∧ r = Ret tt) w.
Proof.
  unfold labelOrphanedDaemonSetPodsForEDS. case_bool_decide; [by apply wp_ret|]. apply wp_bind, wp_call_ok. intros n. cbn.
  apply (labelPods_ok labelKey name (orphanedPod name) _ (set_w_Calls n w)).
  intros e He. by apply elem_podsOf in He as (_ & _ & He).
Qed.

Lemma rs_listed w o : well_keyed w → o ∈ rs w → w_Objects w !! (KReplicaSet, wo_Key o) = Some o.
Proof. intros Hkey (n & Ho & _)%elem_objectsOf. by rewrite (Hkey _ _ _ Ho). Qed.

Lemma toEDS_case w : well_keyed w → acceptable w → wp toEDS (eds_case w) w.
Proof.
  intros Hkey Hacc. unfold toEDS, migrateDaemonSetToExtendedDaemonSet. apply wp_bind, wp_attempt, wp_call_ok. intros n.
  cbn. fold (daemonSetOf w). destruct (daemonSetOf w) as [ds|] eqn:Hds; cbn.
  - destruct (wo_Deleting ds) eqn:Hd; [apply wp_ret; by eapply EDeleting|]. pose proof (Hacc ds Hds) as Hsel.
    destruct (prepare ds name) as [u|] eqn:Hu; cbn in Hsel.
    + apply wp_bind, wp_call_ok. intros n'. cbn. destruct (prepare_key ds u Hu) as [Huk _].
      rewrite Huk, (Hkey _ _ _ Hds). fold (daemonSetOf w). rewrite Hds, (prepare_selector ds u Hu).
      rewrite !bool_decide_true by done. rewrite Hsel. cbn. apply wp_ret. eapply EPrepare; [done..|].
      cbn. change (wo_Key (keepServerFields ds u)) with (wo_Key u). by rewrite Huk, (Hkey _ _ _ Hds).
    + apply wp_bind. eapply wp_mono; [by apply labelDaemonSet_ok|]. intros w1 r [Ho ->].
      apply wp_bind, wp_bind, wp_attempt, wp_call_ok. intros n'. cbn in Ho |- *. rewrite Ho, (Hkey _ _ _ Hds).
      fold (daemonSetOf w). rewrite Hds. apply wp_ret. by eapply EOrphan.
  - apply wp_bind, wp_attempt, wp_call_ok. intros n'. cbn. fold (edsOf w). destruct (edsOf w) as [o|] eqn:He; cbn.
    + destruct (wo_Deleting o) eqn:Hd; apply wp_ret; [by eapply EWait|apply EDone; eauto].
    + apply wp_bind, wp_bind, wp_attempt, wp_call_ok. intros n''. cbn.
      set (l := objectsOf _ _ _ _). assert (l = rs w) as -> by done. case_bool_decide as Hlen; cbn.
      * apply wp_bind. eapply wp_mono; [apply labelOrphaned_ok|]. intros w1 r [Ho ->].
        apply wp_ret, EDone; [done..|]. right. by apply length_zero_iff_nil in Hlen.
      * apply wp_bind. eapply wp_mono; [apply orphanReplicaSets_ok; intros o Ho; by apply rs_listed|].
        intros w1 r (Hm & _ & -> & Hall). apply wp_ret. apply EMark; try done. intros Hnil. by rewrite Hnil in Hlen.
Qed.

(** *** Rounds *)

Definition round w : World := collect (toEDS w).1.
Definition rounds (n : nat) w : World := Nat.iter n round w.

(** How many rounds are left at most: the DaemonSet that has to be prepared and
    orphaned, the ExtendedDaemonSet that is going away, its replica sets. *)
Definition remaining w : nat :=
  match daemonSetOf w with
  | None => 0
  | Some ds => if wo_Deleting ds then 1 else match prepare ds name with None => 1 | Some _ => 2 end
  end +
  match edsOf w with Some o => if wo_Deleting o then 1 else 0 | None => 0 end +
  match rs w with [] => 0 | _ => 1 end.

Lemma remaining_le w : remaining w ≤ 4.
Proof. unfold remaining. repeat case_match; lia. Qed.

Lemma eds_collected w : match edsOf (collect w) with Some o => if wo_Deleting o then 1 else 0 | None => 0 end = 0.
Proof. destruct (edsOf (collect w)) as [o|] eqn:He; [|done]. apply collect_Some in He as (o0 & _ & Hd & refs & ->). cbn. by rewrite Hd. Qed.

(** The DaemonSet stays acceptable. *)
Lemma acceptable_collect w w' :
  acceptable w → (∀ ds, daemonSetOf w' = Some ds → wo_Deleting ds = false →
    ∃ ds0, daemonSetOf w = Some ds0 ∧ (ds = ds0 ∨ ∃ u, prepare ds0 name = Some u ∧ ds = keepServerFields ds0 u)) →
  acceptable (collect w').
Proof.
  intros Hacc Hw ds Hds. apply collect_Some in Hds as (ds1 & Hds1 & Hd & refs & ->).
  destruct (Hw ds1 Hds1 Hd) as (ds0 & Hds0 & Hcase). specialize (Hacc ds0 Hds0).
  destruct Hcase as [->|(u & Hu & ->)].
  - assert (prepare (set_wo_OwnerReferences refs ds0) name = set_wo_OwnerReferences refs <$> prepare ds0 name) as ->.
    { unfold prepareDaemonSetForEDSMigration. cbn. by case_match. }
    by destruct (prepare ds0 name).
  - rewrite Hu in Hacc. by rewrite (prepare_once ds0 u _ refs Hu).
Qed.

Lemma well_keyed_insert w w' k key o :
  well_keyed w → w_Objects w' = <[(k, key) := o]> (w_Objects w) → wo_Key o = key → well_keyed w'.
Proof.
  intros Hw Ho Hk k' key' o'. rewrite Ho. destruct (decide ((k, key) = (k', key'))) as [[= -> ->]|Hne].
  - rewrite lookup_insert_eq. by intros [= <-].
  - rewrite lookup_insert_ne by done. apply Hw.
Qed.

Lemma well_keyed_marks w w' : well_keyed w → marks w w' → well_keyed w'.
Proof.
  intros Hw Hm k key o Ho. destruct (Hm (k, key)) as [Heq|(_ & o0 & Ho0 & Ho')]; [rewrite Heq in Ho; by apply (Hw k key)|].
  rewrite Ho in Ho'. injection Ho' as ->. by apply (Hw k key o0).
Qed.

Definition some_rs w : nat := match rs w with [] => 0 | _ => 1 end.

Lemma some_rs_collect w w' :
  (∀ key, w_Objects w' !! (KReplicaSet, key) = w_Objects w !! (KReplicaSet, key)) → some_rs (collect w') ≤ some_rs w.
Proof.
  intros Heq. unfold some_rs. destruct (rs w) eqn:Hr; [|case_match; lia]. by rewrite (replicaSets_collect _ _ _ w w' Heq Hr).
Qed.

(** A round that does not hand over brings the end nearer. *)
Lemma round_progress w :
  well_keyed w → acceptable w →
  (toEDS w).2 = Ret (false, zeroResult) ∨
  (remaining (round w) < remaining w ∧ well_keyed (round w) ∧ acceptable (round w)).
Proof.
  intros Hkey Hacc. pose proof (toEDS_case w Hkey Hacc) as Hcase. unfold wp in Hcase. unfold round.
  destruct (toEDS w) as [w' r]. cbn in *. inversion Hcase as
    [ds w1 Hds Hd Ho|ds u w1 Hds Hd Hu Ho|ds w1 Hds Hd Hu Ho|o w1 Hds He Hd Ho|w1 Hds He Hrs Hm Hall|w1]; subst w1;
    [right..|by left]; unfold remaining; rewrite eds_collected, Hds; fold (some_rs (collect w')) (some_rs w).
  - assert (daemonSetOf (collect w') = None) as Hnone by (apply (collect_marked _ _ ds); [by rewrite Ho|done]).
    rewrite Hnone, Hd. pose proof (some_rs_collect w w' ltac:(by rewrite Ho)). split_and!; [lia| |].
    + apply collect_well_keyed. intros k key o. rewrite Ho. apply Hkey.
    + intros ds' Hds'. congruence.
  - destruct (prepare_key ds u Hu) as [Huk Hud].
    assert (∃ refs, daemonSetOf (collect w') = Some (set_wo_OwnerReferences refs (keepServerFields ds u))) as [refs Hsome].
    { eexists. unfold daemonSetOf. rewrite collect_lookup, Ho, lookup_insert_eq. cbn. unfold collectObject. cbn. by rewrite Hd. }
    rewrite Hsome, Hd, Hu, (prepare_once ds u _ refs Hu). cbn [wo_Deleting set_wo_OwnerReferences set_wo_UID set_wo_Status set_wo_Deleting keepServerFields]. rewrite Hd.
    pose proof (some_rs_collect w w' ltac:(intros key; rewrite Ho; by rewrite lookup_insert_ne)). split_and!; [lia| |].
    + apply collect_well_keyed, (well_keyed_insert w w' _ _ _ Hkey Ho). cbn. change (wo_Key u = wo_Key eds). rewrite Huk. by apply (Hkey KDaemonSet).
    + apply (acceptable_collect w); [done|]. intros ds' Hds' _. unfold daemonSetOf in Hds'. rewrite Ho, lookup_insert_eq in Hds'.
      injection Hds' as <-. exists ds. split; [done|]. right. by exists u.
  - assert (daemonSetOf (collect w') = None) as Hnone
      by (apply (collect_marked _ _ (set_wo_Deleting true ds)); [by rewrite Ho, lookup_insert_eq|done]).
    rewrite Hnone, Hd, Hu.
    pose proof (some_rs_collect w w' ltac:(intros key; rewrite Ho; by rewrite lookup_insert_ne)). split_and!; [lia| |].
    + apply collect_well_keyed, (well_keyed_insert w w' _ _ _ Hkey Ho). by apply (Hkey KDaemonSet (wo_Key eds) ds).
    + intros ds' Hds'. congruence.
  - assert (daemonSetOf (collect w') = None) as Hnone by (apply collect_None; by rewrite Ho).
    rewrite Hnone, He, Hd. pose proof (some_rs_collect w w' ltac:(by rewrite Ho)). split_and!; [lia| |].
    + apply collect_well_keyed. intros k key x. rewrite Ho. apply Hkey.
    + intros ds' Hds'. congruence.
  - assert (daemonSetOf (collect w') = None) as Hnone.
    { apply collect_None. destruct (Hm (KDaemonSet, wo_Key eds)) as [->|[Hk _]]; done. }
    rewrite Hnone, He. unfold some_rs. rewrite (replicaSets_collected _ _ _ w w' Hkey Hm Hall).
    destruct (rs w); [done|]. split_and!; [lia|by apply collect_well_keyed, (well_keyed_marks w)|]. intros ds' Hds'. congruence.
Qed.

Lemma rounds_S n w : rounds n (round w) = rounds (S n) w.
Proof. unfold rounds. by rewrite Nat.iter_succ_r. Qed.

(** The migration to an ExtendedDaemonSet comes to its end.  From any state of
    the cluster, with a DaemonSet to prepare, one that is being deleted, or what a
    rolled-back migration left, four rounds of a reconcile and the garbage
    collector suffice: the reconcile after some of them leaves the way to the
    ExtendedDaemonSet free. *)
Theorem migration_to_eds_ends w :
  well_keyed w → acceptable w → ∃ n, n ≤ 4 ∧ (toEDS (rounds n w)).2 = Ret (false, zeroResult).
Proof.
  intros Hkey Hacc. enough (∃ n, n ≤ remaining w ∧ (toEDS (rounds n w)).2 = Ret (false, zeroResult)) as (n & Hn & Hend)
    by (exists n; split; [pose proof (remaining_le w); lia|done]).
  remember (remaining w) as m eqn:Hm. revert w Hm Hkey Hacc. induction (lt_wf m) as [m _ IH]. intros w -> Hkey Hacc.
  destruct (round_progress w Hkey Hacc) as [Hend|(Hlt & Hkey' & Hacc')]; [exists 0; split; [lia|done]|].
  destruct (IH _ Hlt (round w) eq_refl Hkey' Hacc') as (n & Hn & Hend). exists (S n). split; [lia|]. by rewrite <- rounds_S.
Qed.
End ToExtendedDaemonSet.

(** ** To a DaemonSet *)

Section ToDaemonSet.
Context (asSelector : option LabelSelector → (gmap string string → bool) + error) (labelKey : string).
Context (daemonSet : WorkloadObject) (s : LabelSelector) (selects : gmap string string → bool).
Hypothesis Hsel : ws_Selector (wo_Spec daemonSet) = Some s.
Hypothesis Has : asSelector (Some s) = inl selects.

Definition toDS : M (bool * Result) := migrateExtendedDaemonSetToDaemonSet noFault true asSelector labelKey daemonSet.
Abbreviation oldEDS w := (w_Objects w !! (KExtendedDaemonSet, wo_Key daemonSet)).
Abbreviation oldRS := (replicaSets labelKey (wo_Namespace daemonSet) (wo_Name daemonSet)).

(** A pod of the ExtendedDaemonSet. *)
Definition its_pod w key p : Prop :=
  w_Pods w !! key = Some p ∧ key.1 = wo_Namespace daemonSet ∧ p_Labels p !! labelKey = Some (wo_Name daemonSet).

(** What the step makes of a pod. *)
Definition made p : Pod :=
  match GetControllerOf (p_OwnerReferences p) with
  | Some _ => p
  | None => if selects (p_Labels p) then p
            else if selects (ls_MatchLabels s ∪ p_Labels p) then set_p_Labels (ls_MatchLabels s ∪ p_Labels p) p
            else mkPod (p_Labels p) (p_OwnerReferences p) true (p_Rest p)
  end.

Lemma prepareOrphanedPod_ok key p w :
  w_Pods w !! key = Some p →
  wp (prepareOrphanedPod noFault (Some s) selects key p)
    (λ w' r, w_Objects w' = w_Objects w ∧ w_Pods w' = <[key := made p]> (w_Pods w) ∧ r = Ret (negb (adopts selects p))) w.
Proof.
  intros Hp. unfold prepareOrphanedPod, made, adopts.
  assert (w_Pods w = <[key := p]> (w_Pods w)) as Hid by by rewrite insert_id.
  destruct (GetControllerOf (p_OwnerReferences p)) as [c|];
    [apply wp_ret; rewrite negb_involutive; split_and!; [done|by rewrite <- Hid|done]|].
  destruct (selects (p_Labels p)); [apply wp_ret; split_and!; [done|by rewrite <- Hid|done]|]. apply wp_bind.
  destruct (selects (ls_MatchLabels s ∪ p_Labels p)); [|apply wp_bind, wp_attempt];
    apply wp_call_ok; intros n; cbn; rewrite Hp; by cbn.
Qed.

Lemma prepareOrphanedPods_ok pods w handled :
  NoDup pods.*1 → (∀ e, e ∈ pods → w_Pods w !! e.1 = Some e.2) →
  wp (prepareOrphanedPods noFault (Some s) selects handled pods)
    (λ w' r, w_Objects w' = w_Objects w ∧ (∀ e, e ∈ pods → w_Pods w' !! e.1 = Some (made e.2)) ∧
       (∀ key, key ∉ pods.*1 → w_Pods w' !! key = w_Pods w !! key) ∧
       r = Ret (handled || existsb (λ e, negb (adopts selects e.2)) pods)) w.
Proof.
  revert w handled. induction pods as [|e pods IH]; intros w handled Hnd Hin.
  { apply wp_ret. cbn. rewrite orb_false_r. split_and!; [done|intros e He; by apply elem_of_nil in He|done|done]. }
  apply NoDup_cons in Hnd as [Hne Hnd]. cbn. apply wp_bind.
  eapply wp_mono; [apply (prepareOrphanedPod_ok e.1 e.2), Hin; left|]. intros w1 r (Ho1 & Hp1 & ->).
  eapply wp_mono; [apply (IH w1 _ Hnd)|].
  - intros x Hx. rewrite Hp1, lookup_insert_ne; [apply Hin; by right|]. intros Heq. apply Hne. rewrite Heq. by apply list_elem_of_fmap_2.
  - intros w2 r (Ho2 & Hall & Hother & Hb). split_and!; [by rewrite Ho2| | |cbn; by rewrite orb_assoc].
    + intros x Hx. apply elem_of_cons in Hx as [->|Hx]; [|by apply Hall]. by rewrite Hother, Hp1, lookup_insert_eq.
    + intros key Hkey. cbn in Hkey. apply not_elem_of_cons in Hkey as [Hk1 Hk2]. rewrite Hother, Hp1 by done. by rewrite lookup_insert_ne.
Qed.

Inductive ds_case w : World → outcome (bool * Result) → Prop :=
| DOrphan o w' : oldEDS w = Some o → w_Pods w' = w_Pods w →
    w_Objects w' = <[(KExtendedDaemonSet, wo_Key daemonSet) := set_wo_Deleting true o]> (w_Objects w) →
    ds_case w w' (Ret (true, workloadMigrationResult))
| DMark w' : oldEDS w = None → oldRS w ≠ [] → w_Pods w' = w_Pods w → marks w w' →
    (∀ o, o ∈ oldRS w → is_marked w' (wo_Key o)) → ds_case w w' (Ret (true, workloadMigrationResult))
| DPods w' : oldEDS w = None → oldRS w = [] → w_Objects w' = w_Objects w →
    (∀ key p, its_pod w key p → w_Pods w' !! key = Some (made p)) →
    (∀ key p, w_Pods w' !! key = Some p → w_Pods w !! key = Some p ∨ ∃ p0, its_pod w key p0) →
    (∃ key p, its_pod w key p ∧ adopts selects p = false) →
    ds_case w w' (Ret (true, workloadMigrationResult))
| DDone w' : oldEDS w = None → oldRS w = [] → w_Objects w' = w_Objects w → w_Pods w' = w_Pods w →
    (∀ key p, its_pod w key p → adopts selects p = true) → ds_case w w' (Ret (false, zeroResult)).

Lemma made_adopted_same p : adopts selects p = true → made p = p.
Proof. unfold adopts, made. destruct (GetControllerOf _); [done|]. by intros ->. Qed.

Lemma toDS_case w : well_keyed w → wp toDS (ds_case w) w.
Proof.
  intros Hkey. unfold toDS, migrateExtendedDaemonSetToDaemonSet. apply wp_bind, wp_attempt, wp_call_ok. intros n. cbn.
  destruct (oldEDS w) as [o|] eqn:He; cbn.
  - destruct (wo_Deleting o) eqn:Hd.
    + apply wp_ret. apply (DOrphan w o); [done..|]. cbn. rewrite insert_id; [done|]. rewrite He. f_equal. destruct o. cbn in *. by subst.
    + apply wp_bind, wp_bind, wp_attempt, wp_call_ok. intros n'. cbn. rewrite (Hkey _ _ _ He), He. by apply wp_ret, (DOrphan w o).
  - apply wp_bind, wp_bind, wp_attempt, wp_call_ok. intros n'. cbn.
    set (l := objectsOf _ _ _ _). assert (l = oldRS w) as -> by done. case_bool_decide as Hlen; cbn.
    + apply length_zero_iff_nil in Hlen. unfold prepareOrphanedEDSPodsForDaemonSet. rewrite Hsel, Has.
      apply wp_bind, wp_of_sum; [done|]. intros sel [= <-]. apply wp_bind, wp_call_ok. intros n''. cbn. set (pods := podsOf _ _ _).
      assert (∀ key p, (key, p) ∈ pods ↔ its_pod w key p) as Hpods.
      { intros key p. unfold pods. rewrite elem_podsOf. rewrite matches_singleton. unfold its_pod. naive_solver. }
      eapply wp_mono; [apply (prepareOrphanedPods_ok pods)|].
      * unfold pods. apply (podsOf_nodup (wo_Namespace daemonSet)).
      * intros [key p] Hin. by apply Hpods in Hin as (? & _).
      * intros w1 r (Ho & Hall & Hother & ->). cbn. destruct (existsb _ pods) eqn:Hex; apply wp_ret.
        2:{ assert (∀ key p, its_pod w key p → adopts selects p = true) as Hgood.
            { intros key p Hits. apply Hpods in Hits. destruct (adopts selects p) eqn:Ha; [done|].
              assert (existsb (λ e, negb (adopts selects e.2)) pods = true) as Ht; [|congruence].
              apply existsb_exists. exists (key, p). split; [by apply list_elem_of_In|]. cbn. by rewrite Ha. }
            apply DDone; try done. apply map_eq. intros key. destruct (decide (key ∈ pods.*1)) as [Hin|Hnin]; [|by apply Hother].
            apply list_elem_of_fmap in Hin as ([k p] & -> & Hin). rewrite (Hall _ Hin). apply Hpods in Hin. cbn.
            rewrite made_adopted_same by by eapply Hgood. by destruct Hin as (-> & _). }
        apply DPods; try done.
        -- intros key p Hits. by apply (Hall (key, p)), Hpods.
        -- intros key p Hp. destruct (decide (key ∈ pods.*1)) as [Hin|Hnin]; [right|left; by rewrite <- Hother].
           apply list_elem_of_fmap in Hin as ([k p0] & -> & Hin). exists p0. by apply Hpods.
        -- apply existsb_exists in Hex as ([key p] & Hin & Hn%negb_true_iff). apply list_elem_of_In in Hin. exists key, p. by rewrite <- Hpods.
    + apply wp_bind. eapply wp_mono; [apply orphanReplicaSets_ok|].
      * intros o (m & Ho & _)%elem_objectsOf. by rewrite (Hkey _ _ _ Ho).
      * intros w1 r (Hm & Hp & -> & Hall). apply wp_ret. apply DMark; try done. intros Hnil. by rewrite Hnil in Hlen.
Qed.

(** *** Rounds *)

Definition roundDS w : World := collect (toDS w).1.
Definition roundsDS (n : nat) w : World := Nat.iter n roundDS w.

(** The replica set that controls a pod of the ExtendedDaemonSet is there. *)
Definition owned w : Prop := ∀ key p ref, its_pod w key p → ref ∈ p_OwnerReferences p →
  or_Controller ref = Some true → or_Kind ref = "ExtendedDaemonSetReplicaSet" →
  ∃ o, o ∈ oldRS w ∧ wo_UID o = or_UID ref.

Definition good w : Prop := ∀ key p, its_pod w key p → adopts selects p = true.

Definition remainingDS w : nat :=
  match oldEDS w with
  | Some _ => 3
  | None => match oldRS w with _ :: _ => 2 | [] => match goneOwners w with _ :: _ => 2 | [] => 1 end end
  end.

Lemma collect_pod w key p :
  w_Pods (collect w) !! key = Some p →
  ∃ p0, w_Pods w !! key = Some p0 ∧ p_Deleting p0 = false ∧
    p = set_p_OwnerReferences (withoutOwners (goneOwners w) (p_OwnerReferences p0)) p0.
Proof.
  unfold collect. cbn. rewrite lookup_omap. intros (p0 & Hp0 & Hc)%bind_Some. unfold collectPod in Hc.
  destruct (p_Deleting p0) eqn:Hd; [done|]. injection Hc as <-. eauto.
Qed.

(** The replica sets are still there, if only marked. *)
Definition rs_stay w w' : Prop := ∀ key o, w_Objects w !! (KReplicaSet, key) = Some o →
  ∃ o', w_Objects w' !! (KReplicaSet, key) = Some o' ∧ wo_UID o' = wo_UID o ∧ wo_Labels o' = wo_Labels o.

Lemma rs_stay_same w w' :
  (∀ key, w_Objects w' !! (KReplicaSet, key) = w_Objects w !! (KReplicaSet, key)) → rs_stay w w'.
Proof. intros Heq key o Ho. rewrite Heq. by exists o. Qed.

Lemma rs_stay_marks w w' : marks w w' → rs_stay w w'.
Proof.
  intros Hm key o Ho. destruct (Hm (KReplicaSet, key)) as [Heq|(_ & o0 & Ho0 & Ho')]; [rewrite Heq; by exists o|].
  rewrite Ho in Ho0. injection Ho0 as <-. by eexists.
Qed.

Lemma owned_collect w w' :
  owned w → rs_stay w w' →
  (∀ key p, its_pod w' key p → its_pod w key p ∨ GetControllerOf (p_OwnerReferences p) = None) → owned (collect w').
Proof.
  intros Hown Hrs Hpods key p ref (Hp & Hns & Hlab) Hin Hc Hkind.
  apply collect_pod in Hp as (p0 & Hp0 & Hd & ->). cbn in Hlab, Hin.
  unfold withoutOwners in Hin. apply list_elem_of_filter in Hin as [Huid Hin].
  destruct (Hpods key p0) as [Hits|Hnone]; [done| |by destruct (GetControllerOf_None _ _ Hnone Hin)].
  destruct (Hown key p0 ref Hits Hin Hc Hkind) as (o & Ho & Hu). apply elem_objectsOf in Ho as (n & Ho & Hm).
  destruct (Hrs _ _ Ho) as (o' & Ho' & Hu' & Hl').
  destruct (wo_Deleting o') eqn:Hdel.
  - destruct Huid. rewrite <- Hu, <- Hu', Hkind. by apply (elem_goneOwners w' (KReplicaSet, (wo_Namespace daemonSet, n))).
  - exists (set_wo_OwnerReferences (withoutOwners (goneOwners w') (wo_OwnerReferences o')) o'). split; [|by rewrite <- Hu, <- Hu'].
    apply elem_objectsOf. exists n. rewrite collect_lookup, Ho'. cbn. unfold collectObject. rewrite Hdel. by rewrite Hl'.
Qed.

Lemma remainingDS_collect w : oldEDS (collect w) = None → oldRS (collect w) = [] → remainingDS (collect w) = 1.
Proof. intros He Hr. unfold remainingDS. by rewrite He, Hr, goneOwners_collect. Qed.

(** The pods that were made ready are adopted. *)
Lemma made_adopted w w' :
  owned w → oldRS w = [] → goneOwners w' = [] →
  (∀ key p, its_pod w key p → w_Pods w' !! key = Some (made p)) →
  (∀ key p, w_Pods w' !! key = Some p → w_Pods w !! key = Some p ∨ ∃ p0, its_pod w key p0) → good (collect w').
Proof.
  intros Hown Hrs Hgone Hmade Hfrom key p (Hp & Hns & Hlab). apply collect_pod in Hp as (p1 & Hp1 & Hd & ->).
  cbn in Hlab. rewrite Hgone, withoutOwners_nil. change (adopts selects p1 = true).
  assert (∃ p0, its_pod w key p0 ∧ p1 = made p0) as (p0 & Hits & ->).
  { destruct (Hfrom key p1 Hp1) as [Hp0|[p0 Hits]].
    - exists p1. assert (its_pod w key p1) as Hits by done. split; [done|]. rewrite (Hmade _ _ Hits) in Hp1. by injection Hp1.
    - exists p0. split; [done|]. rewrite (Hmade _ _ Hits) in Hp1. by injection Hp1. }
  unfold made, adopts in *. destruct (GetControllerOf (p_OwnerReferences p0)) as [c|] eqn:Hc.
  - rewrite Hc. apply negb_true_iff, bool_decide_eq_false. intros Hk. apply GetControllerOf_Some in Hc as [Hin Hc].
    destruct (Hown key p0 c Hits Hin Hc Hk) as (o & Ho & _). rewrite Hrs in Ho. by apply elem_of_nil in Ho.
  - destruct (selects (p_Labels p0)) eqn:Hs; [by rewrite Hc|].
    destruct (selects (ls_MatchLabels s ∪ p_Labels p0)) eqn:Hs'; cbn in *; [by rewrite Hc|done].
Qed.

(** Nothing left to do. *)
Lemma ready_hands_over w :
  well_keyed w → oldEDS w = None → oldRS w = [] → good w → (toDS w).2 = Ret (false, zeroResult).
Proof.
  intros Hkey He Hr Hgood. pose proof (toDS_case w Hkey) as Hcase. unfold wp in Hcase. destruct (toDS w) as [w' r]. cbn in *.
  inversion Hcase as [o w1 He' Hp Ho|w1 _ Hrs _ _ _|w1 _ _ _ _ _ (key & p & Hits & Ha)|w1]; subst w1; try congruence.
  by rewrite (Hgood key p Hits) in Ha.
Qed.

Lemma roundDS_progress w :
  well_keyed w → owned w →
  (toDS w).2 = Ret (false, zeroResult) ∨
  (well_keyed (roundDS w) ∧ owned (roundDS w) ∧
   ((toDS (roundDS w)).2 = Ret (false, zeroResult) ∨ remainingDS (roundDS w) < remainingDS w)).
Proof.
  intros Hkey Hown. pose proof (toDS_case w Hkey) as Hcase. unfold wp in Hcase. unfold roundDS.
  destruct (toDS w) as [w' r]. cbn in *.
  inversion Hcase as [o w1 He Hp Ho|w1 He Hrs Hp Hm Hall|w1 He Hrs Ho Hmade Hfrom _|w1]; subst w1; [right..|by left].
  - assert (oldEDS (collect w') = None) as Hnone
      by (apply (collect_marked _ _ (set_wo_Deleting true o)); [by rewrite Ho, lookup_insert_eq|done]).
    split_and!; [| |right].
    + apply collect_well_keyed, (well_keyed_insert w w' _ _ _ Hkey Ho). by apply (Hkey KExtendedDaemonSet (wo_Key daemonSet) o).
    + apply (owned_collect w); [done|apply rs_stay_same; intros key; rewrite Ho; by rewrite lookup_insert_ne|].
      intros key p (Hk & ?). left. by rewrite Hp in Hk.
    + unfold remainingDS. rewrite Hnone, He, goneOwners_collect. case_match; lia.
  - assert (oldEDS (collect w') = None) as Hnone.
    { apply collect_None. destruct (Hm (KExtendedDaemonSet, wo_Key daemonSet)) as [->|[Hk _]]; done. }
    pose proof (replicaSets_collected _ _ _ w w' Hkey Hm Hall) as Hnil. split_and!; [| |right].
    + by apply collect_well_keyed, (well_keyed_marks w).
    + apply (owned_collect w); [done|by apply rs_stay_marks|]. intros key p (Hk & ?). left. by rewrite Hp in Hk.
    + rewrite remainingDS_collect by done. unfold remainingDS. rewrite He. destruct (oldRS w); [done|lia].
  - assert (oldEDS (collect w') = None) as Hnone by (apply collect_None; by rewrite Ho).
    assert (oldRS (collect w') = []) as Hnil by (apply (replicaSets_collect _ _ _ w w'); [by rewrite Ho|done]).
    assert (well_keyed (collect w')) as Hk' by (apply collect_well_keyed; intros k key o; rewrite Ho; apply Hkey).
    split_and!; [done| |].
    + apply (owned_collect w); [done|apply rs_stay_same; by rewrite Ho|]. intros key p (Hk & Hns & Hl).
      destruct (Hfrom key p Hk) as [Hp0|[p0 Hits]]; [by left|]. rewrite (Hmade _ _ Hits) in Hk. injection Hk as <-.
      unfold made in *. destruct (GetControllerOf (p_OwnerReferences p0)) as [c|] eqn:Hc; [by left|right].
      by repeat case_match.
    + destruct (goneOwners w') eqn:Hg; [left; apply ready_hands_over; [done..|]; by apply (made_adopted w w')|right].
      rewrite remainingDS_collect by done. unfold remainingDS. rewrite He, Hrs.
      assert (goneOwners w = goneOwners w') as -> by (unfold goneOwners; by rewrite Ho). rewrite Hg. lia.
Qed.

Lemma roundsDS_S n w : roundsDS n (roundDS w) = roundsDS (S n) w.
Proof. unfold roundsDS. by rewrite Nat.iter_succ_r. Qed.

(** The migration back to a DaemonSet comes to its end as well.  When the
    replica sets that control pods of the ExtendedDaemonSet are there, three
    rounds of a reconcile and the garbage collector suffice to free the way for
    the DaemonSet. *)
Theorem migration_to_ds_ends w :
  well_keyed w → owned w → ∃ n, n ≤ 3 ∧ (toDS (roundsDS n w)).2 = Ret (false, zeroResult).
Proof.
  intros Hkey Hown. enough (∃ n, n ≤ remainingDS w ∧ (toDS (roundsDS n w)).2 = Ret (false, zeroResult)) as (n & Hn & Hend).
  { exists n. split; [|done]. enough (remainingDS w ≤ 3) by lia. unfold remainingDS. repeat case_match; lia. }
  remember (remainingDS w) as m eqn:Hm. revert w Hm Hkey Hown. induction (lt_wf m) as [m _ IH]. intros w -> Hkey Hown.
  destruct (roundDS_progress w Hkey Hown) as [Hend|(Hkey' & Hown' & [Hend|Hlt])]; [exists 0; split; [lia|done]| |].
  - exists 1. split; [unfold remainingDS; repeat case_match; lia|done].
  - destruct (IH _ Hlt (roundDS w) eq_refl Hkey' Hown') as (n & Hn & Hend). exists (S n). split; [lia|]. by rewrite <- roundsDS_S.
Qed.
End ToDaemonSet.
