(* ===== verification/InternalWorkloads.v ===== *)
(** * Creating and updating workloads.

    Models [datadogagentinternal/{reconcile_common,utils,configmap_checksum,event}.go],
    [datadogagent/common/apparmor.go] and [pkg/controller/utils/comparison]: a
    workload that was built is created, updated when its hash differs from the one
    in the cluster, or deleted with its pods left running when its selector does. *)

From Stdlib Require Import ZArith Ascii.
From stdpp Require Import base gmap strings list pretty sorting.
From S2P Require Import Prelude GoRun Cluster Status Profiles Remote FleetData PodMerger Untaint Objects Affinity.
From S2P Require Import AgentSpec Defaults Images Identity Override Workloads Migration.

(** ** Hashes of specs *)

Definition IsSameMD5Hash (hash : string) (annotations : gmap string string) (annotationKey : string) : bool :=
  bool_decide (annotations !! annotationKey = Some hash).
Definition IsSameSpecMD5Hash (hash : string) (annotations : gmap string string) : bool :=
  IsSameMD5Hash hash annotations MD5AgentDeploymentAnnotationKey.

(** ** AppArmor profiles *)

(** [strings.CutPrefix]: the text after the prefix. *)
Fixpoint CutPrefix (s prefix : string) : option string :=
  match prefix, s with
  | EmptyString, _ => Some s
  | String p prefix, String c s => if bool_decide (c = p) then CutPrefix s prefix else None
  | String _ _, EmptyString => None
  end.

Definition TrimPrefix (s prefix : string) : string := default s (CutPrefix s prefix).

Definition AppArmorAnnotationKey : string := "container.apparmor.security.beta.kubernetes.io".

Definition appArmorProfileFromAnnotation (value : string) : json :=
  if bool_decide (value = "") || bool_decide (value = "runtime/default") then JObj {[ "type" := JStr "RuntimeDefault" ]}
  else if bool_decide (value = "unconfined") then JObj {[ "type" := JStr "Unconfined" ]}
  else JObj (<["type" := JStr "Localhost"]> {[ "localhostProfile" := JStr (TrimPrefix value "localhost/") ]}).

(** The AppArmor profile of a container. *)
Definition appArmorProfile (c : Container json) : option json :=
  sc ← c_SecurityContext c; jget "appArmorProfile" (sc_Rest sc).

Definition set_c_SecurityContext (sc : option (SecurityContext json)) (c : Container json) : Container json :=
  mkContainer (c_Name c) (c_Env c) (c_EnvFrom c) (c_VolumeMounts c) (c_Ports c) sc (c_Rest c).

Definition set_appArmorProfile (profile : json) (c : Container json) : Container json :=
  let sc := default (mkSecurityContext None noFields) (c_SecurityContext c) in
  set_c_SecurityContext
    (Some (match appArmorProfile c with
           | Some _ => sc
           | None => mkSecurityContext (sc_Add sc) (jset "appArmorProfile" profile (sc_Rest sc))
           end)) c.

(** The first container of the name. *)
Fixpoint setAppArmorProfile (containers : list (Container json)) (containerName value : string) : list (Container json) :=
  match containers with
  | [] => []
  | c :: containers =>
      if negb (bool_decide (c_Name c = containerName)) then c :: setAppArmorProfile containers containerName value
      else set_appArmorProfile (appArmorProfileFromAnnotation value) c :: containers
  end.

(** One annotation. *)
Definition finalizeAnnotation (podTemplate : PodTemplateSpec json) (e : string * string) : PodTemplateSpec json :=
  match CutPrefix e.1 (AppArmorAnnotationKey +:+ "/") with
  | None => podTemplate
  | Some containerName =>
      mkPodTemplateSpec (delete e.1 <$> pod_Annotations podTemplate)
        (setAppArmorProfile (pod_Containers podTemplate) containerName e.2)
        (setAppArmorProfile (pod_InitContainers podTemplate) containerName e.2) (pod_Volumes podTemplate)
  end.

(** [range]: the order in which Go visits the annotations. *)
Definition FinalizeAppArmorProfile (range : gmap string string → list (string * string)) (supported : bool)
    (podTemplate : PodTemplateSpec json) : PodTemplateSpec json :=
  if negb supported then podTemplate
  else foldl finalizeAnnotation podTemplate (range (default ∅ (pod_Annotations podTemplate))).

(** ** The checksum of ConfigMaps *)

Record configMapContent := mkConfigMapContent { cmc_Data : gmap string string; cmc_BinaryData : gmap string string }.

(** [hash/fnv.New64a] *)
Definition fnvOffset64 : Z := 14695981039346656037.
Definition fnvPrime64 : Z := 1099511628211.
Definition fnvByte (h : Z) (c : ascii) : Z := Z.modulo (Z.lxor h (Z.of_nat (nat_of_ascii c)) * fnvPrime64) (2 ^ 64).
Fixpoint fnvWrite (h : Z) (s : string) : Z :=
  match s with EmptyString => h | String c s => fnvWrite (fnvByte h c) s end.

(** [fmt.Sprintf("%0nx", h)] for [h] below [16 ^ n] *)
Definition hexDigit (d : Z) : ascii := default "0"%char (String.get (Z.to_nat d) "0123456789abcdef").
Fixpoint formatHex (n : nat) (h : Z) (acc : string) : string :=
  match n with
  | 0 => acc
  | S n => formatHex n (Z.div h 16) (String (hexDigit (Z.modulo h 16)) acc)
  end.

Definition sortedKeys {A : Type} (m : gmap string A) : list string := sort_by String.le (map_to_list m).*1.

Definition writeSortedMap (h : Z) (m : gmap string string) : Z :=
  foldl (λ h k, fnvWrite (fnvWrite h k) (get_key m k)) h (sortedKeys m).

Definition hashConfigMapContents (contents : gmap string configMapContent) : string :=
  formatHex 16
    (foldl (λ h name, match contents !! name with
                      | Some c => writeSortedMap (writeSortedMap (fnvWrite h name) (cmc_Data c)) (cmc_BinaryData c)
                      | None => fnvWrite h name
                      end) fnvOffset64 (sortedKeys contents)) "".

(** The names, each once, in order. *)
Definition referencedConfigMapNames (podTmpl : PodTemplateSpec json) : list string :=
  foldl (λ names vol, match vol_ConfigMap vol with
                      | None => names
                      | Some cm => if bool_decide (cms_Name cm ∈ names) then names else names ++ [cms_Name cm]
                      end) [] (pod_Volumes podTmpl).

Definition ConfigMapsChecksumAnnotationKey : string := "agent.datadoghq.com/configmaps-checksum".

Definition set_pod_Annotations (a : option (gmap string string)) (p : PodTemplateSpec json) : PodTemplateSpec json :=
  mkPodTemplateSpec a (pod_Containers p) (pod_InitContainers p) (pod_Volumes p).

(** ** Owner references *)

Definition newDDAIOwnerRef (name uid : string) (gvk : Cluster.GroupVersionKind) : OwnerReference := NewControllerRef name uid gvk.

Definition shouldUpdateOwnerReference (currentOwnerRef : list OwnerReference) : bool :=
  ContainsFunc (λ ref, bool_decide (or_Kind ref = "DatadogAgent")) currentOwnerRef.

(** ** Replicas *)

Definition getReplicas (currentReplicas newReplicas : option Z) : option Z :=
  match newReplicas with None => currentReplicas | Some n => Some n end.

(** ** What a status reads of a workload *)

Definition asDeployment (o : WorkloadObject) : Deployment :=
  let s := wo_Status o in
  mkDeployment (wo_Name o) (wo_Annotations o) (cnt_1 s) (cnt_2 s) (cnt_3 s) (cnt_4 s) (cnt_5 s) (cnt_Conditions s).

Definition asDaemonSet (o : WorkloadObject) : DaemonSet :=
  let s := wo_Status o in
  mkDaemonSet (wo_Name o) (wo_Annotations o) (cnt_1 s) (cnt_2 s) (cnt_3 s) (cnt_4 s) (cnt_5 s).

Definition UpdateDatadogAgentInternalStatusConditions (now : Time) (t conditionStatus reason message : string)
    (writeFalseIfNotExist : bool) : M unit :=
  changeStatus (λ s, set_ist_Conditions
    (UpdateDatadogAgentStatusConditions (ist_Conditions s) now t conditionStatus reason message writeFalseIfNotExist) s).

Definition DeleteDatadogAgentInternalStatusCondition (conditionType : string) : M unit :=
  changeStatus (λ s, set_ist_Conditions (DeleteDatadogAgentStatusCondition (ist_Conditions s) conditionType) s).

Definition updateSucceeded : string := "UpdateSucceeded".
Definition createSucceeded : string := "CreateSucceeded".
Definition patchSucceeded : string := "PatchSucceeded".
Definition AgentReconcileConditionType : string := "AgentReconcile".

(** A nil ExtendedDaemonSet is read. *)
Definition statusOfEDS (eds : option WorkloadObject) (now : Time) : M unit :=
  match eds with
  | None => panic
  | Some eds =>
      changeStatus (λ s, set_ist_Agent
        (Some (UpdateExtendedDaemonSetStatusDDAI (asDaemonSet eds) (cnt_Canary (wo_Status eds)) (ist_Agent s) (Some now))) s)
  end.

Definition updateDSStatusV2WithAgent (dsName : string) (ds : option WorkloadObject) (updateTime : Time)
    (status reason message : string) : M unit :=
  _ ← changeStatus (λ s, set_ist_Agent
        (Some (UpdateDaemonSetStatusDDAI dsName (asDaemonSet <$> ds) (ist_Agent s) (Some updateTime))) s);
  UpdateDatadogAgentInternalStatusConditions updateTime AgentReconcileConditionType status reason message true.

Definition updateEDSStatusV2WithAgent (eds : option WorkloadObject) (updateTime : Time) (status reason message : string) : M unit :=
  _ ← statusOfEDS eds updateTime;
  UpdateDatadogAgentInternalStatusConditions updateTime AgentReconcileConditionType status reason message true.

(** [RemoteConfigConfiguration] is copied to the new status and never changed. *)
Definition IsEqualStatus (current newStatus : InternalStatus) : bool :=
  IsEqualDaemonSetStatus (ist_Agent current) (ist_Agent newStatus) &&
  (IsEqualDeploymentStatus (ist_ClusterAgent current) (ist_ClusterAgent newStatus) &&
   IsEqualDeploymentStatus (ist_ClusterChecksRunner current) (ist_ClusterChecksRunner newStatus)) &&
  IsEqualConditions (ist_Conditions current) (ist_Conditions newStatus).

(** ** Selectors *)

(** Nil selectors are read when the names agree. *)
Definition restartWorkload (new current : WorkloadObject) : M bool :=
  if negb (bool_decide (wo_Name new = wo_Name current)) then mret true
  else match ws_Selector (wo_Spec new), ws_Selector (wo_Spec current) with
       | Some a, Some b => mret (negb (bool_decide (ls_MatchLabels a = ls_MatchLabels b)))
       | _, _ => panic
       end.
Definition restartDaemonset : WorkloadObject → WorkloadObject → M bool := restartWorkload.
Definition restartDeployment : WorkloadObject → WorkloadObject → M bool := restartWorkload.

(** A label that is missing or differs is set; [labels] stays nil without a selector. *)
Definition ensureSelectorInPodTemplateLabels (selector : option LabelSelector) (labels : option (gmap string string)) :
    option (gmap string string) :=
  match selector with
  | None => labels
  | Some selector => Some (ls_MatchLabels selector ∪ default ∅ labels)
  end.

Section Workloads.
Context (fault : nat → option (bool * error)) (edsServed : bool).
Context (asSelector : option LabelSelector → (gmap string string → bool) + error).
(** The time at each call. *)
Context (clock : nat → Time).
(** The MD5 of the JSON of a spec and of labels. *)
Context (md5 : WorkloadSpec → string) (md5Labels : option (gmap string string) → string).
(** [glob.Compile] *)
Context (glob_Compile : string → (string → bool) + error).
(** The DatadogAgentInternal, and [controllerutil.SetControllerReference] for it. *)
Context (ddaiName ddaiUID : string) (ddaiGVK : Cluster.GroupVersionKind).
Context (SetControllerReference : WorkloadObject → WorkloadObject + error).
(** Whether the API server knows the AppArmor field, and the order of annotations. *)
Context (supportsAppArmorProfile : bool) (range : gmap string string → list (string * string)).
(** The ConfigMaps in the cluster. *)
Context (configMaps : NamespacedName → configMapContent + error).

Abbreviation Get := (Get fault edsServed).
Abbreviation Delete := (Delete fault edsServed).
Abbreviation Update := (Update fault edsServed asSelector).
Abbreviation Create := (Create fault edsServed asSelector).

Definition now : M Time := gets (λ w, clock (w_Calls w)).

Definition mergeAnnotationsLabels (previousVal newVal : gmap string string) (filter_ : string) : gmap string string :=
  let globFilter := if bool_decide (filter_ = "") then None
                    else match glob_Compile filter_ with inl g => Some g | inr _ => None end in
  newVal ∪ filter (λ '(k, _), match globFilter with Some g => g k | None => false end || Contains k "datadoghq.com" = true)
             previousVal.

Definition SetMD5DatadogAgentGenerationAnnotation (o : WorkloadObject) : WorkloadObject * string :=
  let hash := md5 (wo_Spec o) in
  (set_wo_Annotations (<[MD5AgentDeploymentAnnotationKey := hash]> (wo_Annotations o)) o, hash).

(** Every reference to a DatadogAgent becomes one to the DatadogAgentInternal. *)
Definition createOwnerReferencePatch (ownerRef : list OwnerReference) : list OwnerReference :=
  (λ ref, if bool_decide (or_Kind ref = "DatadogAgent") then newDDAIOwnerRef ddaiName ddaiUID ddaiGVK else ref) <$> ownerRef.

(** The current workload, once its owner is the DatadogAgentInternal; [failed] is
    what a failed patch does to the status. *)
Definition adoptWorkload (k : WorkloadKind) (current : WorkloadObject) (failed : Time → M unit) : M WorkloadObject :=
  if shouldUpdateOwnerReference (wo_OwnerReferences current)
  then
    t ← now;
    r ← attempt (PatchOwnerReferences fault k (wo_Key current) (createOwnerReferencePatch (wo_OwnerReferences current)));
    match r with
    | inl current => mret current
    | inr err => _ ← failed t; fail err
    end
  else mret current.

Definition finalizeTemplate (o : WorkloadObject) : WorkloadObject :=
  let t := ws_Template (wo_Spec o) in
  set_wo_Spec (set_ws_Template
    (mkTemplate (tpl_Labels t) (FinalizeAppArmorProfile range supportsAppArmorProfile (tpl_Pod t)) (tpl_Rest t)) (wo_Spec o)) o.

(** [ReturnsNotFound]: the workload, or none. *)
Definition lookupWorkload (k : WorkloadKind) (key : NamespacedName) : M (option WorkloadObject) :=
  r ← attempt (Get k key);
  match r with
  | inl o => mret (Some o)
  | inr err => if IsNotFound err then mret None else fail err
  end.

(** Annotations and labels of the current workload that are kept. *)
Definition mergeMetadata (current new : WorkloadObject) : WorkloadObject :=
  set_wo_Labels (mergeAnnotationsLabels (wo_Labels current) (wo_Labels new) "")
    (set_wo_Annotations (mergeAnnotationsLabels (wo_Annotations current) (wo_Annotations new) "") new).

Definition deleteObjectAndOrphanDependents (k : WorkloadKind) (obj : WorkloadObject) (component : string) : M unit :=
  unlessNotFound (DeleteAllOf fault k (wo_Namespace obj)
    (<[AppKubernetesPartOfLabelKey := get_key (wo_Labels obj) AppKubernetesPartOfLabelKey]>
     {[ AgentDeploymentComponentLabelKey := component ]}) true).

(** *** Deployments *)

Section Deployments.
Context (updateStatusFunc : option WorkloadObject → Time → string → string → string → M unit).

Definition updateDeployment (deployment current : WorkloadObject) (hash : string) : M Result :=
  if IsSameSpecMD5Hash hash (wo_Annotations current)
  then
    t ← now;
    _ ← updateStatusFunc (Some current) t ConditionTrue "DeploymentUpToDate" "Deployment up-to-date";
    mret zeroResult
  else
    let updateDeployment := mergeMetadata current
      (set_wo_Spec (set_ws_Replicas (getReplicas (ws_Replicas (wo_Spec current)) (ws_Replicas (wo_Spec deployment)))
                      (wo_Spec deployment)) deployment) in
    t ← now;
    r ← attempt (Update KDeployment updateDeployment);
    match r with
    | inr err => _ ← updateStatusFunc None t ConditionFalse updateSucceeded "Unable to update Deployment"; fail err
    | inl updated =>
        _ ← recordEvent (wo_Name updated) (wo_Namespace updated) "Deployment" Remote.UpdateEvent;
        _ ← updateStatusFunc (Some updated) t ConditionTrue updateSucceeded "Deployment updated";
        mret zeroResult
    end.

Definition createDeployment (deployment : WorkloadObject) : M Result :=
  t ← now;
  r ← attempt (Create KDeployment deployment);
  match r with
  | inr err => _ ← updateStatusFunc None t ConditionFalse createSucceeded "Unable to create Deployment"; fail err
  | inl created =>
      _ ← recordEvent (wo_Name created) (wo_Namespace created) "Deployment" Remote.CreationEvent;
      _ ← updateStatusFunc (Some created) t ConditionTrue createSucceeded "Deployment created";
      mret zeroResult
  end.

Definition createOrUpdateDeployment (deployment : WorkloadObject) : M Result :=
  deployment ← of_sum (SetControllerReference deployment);
  let '(deployment, hash) := SetMD5DatadogAgentGenerationAnnotation (finalizeTemplate deployment) in
  currentDeployment ← lookupWorkload KDeployment (wo_Key deployment);
  match currentDeployment with
  | None => createDeployment deployment
  | Some currentDeployment =>
      currentDeployment ← adoptWorkload KDeployment currentDeployment
        (λ t, updateStatusFunc None t ConditionFalse patchSucceeded "Unable to patch Deployment owner reference");
      restart ← restartDeployment deployment currentDeployment;
      if restart : bool
      then
        _ ← deleteObjectAndOrphanDependents KDeployment deployment
              (get_key (wo_Labels deployment) AgentDeploymentComponentLabelKey);
        mret zeroResult
      else updateDeployment deployment currentDeployment hash
  end.
End Deployments.

(** *** DaemonSets *)

(** The new DaemonSet with the selector of the one in the cluster. *)
Definition keepSelector (current daemonset : WorkloadObject) : WorkloadObject :=
  let spec := wo_Spec daemonset in
  let selector := ws_Selector (wo_Spec current) in
  set_wo_Spec (set_ws_Selector selector (set_ws_Template
    (set_tpl_Labels (ensureSelectorInPodTemplateLabels selector (tpl_Labels (ws_Template spec))) (ws_Template spec)) spec))
    daemonset.

Section DaemonSets.
Context (updateStatusFunc : string → option WorkloadObject → Time → string → string → string → M unit).

Definition updateDaemonset (daemonset current : WorkloadObject) : M Result :=
  t ← now;
  let currentLabelHash := md5Labels (tpl_Labels (ws_Template (wo_Spec current))) in
  let '(daemonset, hash) := SetMD5DatadogAgentGenerationAnnotation (keepSelector current daemonset) in
  let labelHash := md5Labels (tpl_Labels (ws_Template (wo_Spec daemonset))) in
  let needUpdate := negb (IsSameSpecMD5Hash hash (wo_Annotations current)) || negb (bool_decide (currentLabelHash = labelHash)) in
  if negb needUpdate
  then
    _ ← changeStatus (λ s, set_ist_Agent
          (Some (UpdateDaemonSetStatusDDAI (wo_Name current) (Some (asDaemonSet current)) (ist_Agent s) (Some t))) s);
    mret zeroResult
  else
    let updateDaemonset := mergeMetadata current daemonset in
    let updateDaemonset := set_wo_Labels (delete OldProfileLabelKey (wo_Labels updateDaemonset)) updateDaemonset in
    r ← attempt (Update KDaemonSet updateDaemonset);
    match r with
    | inr err =>
        _ ← updateStatusFunc (wo_Name updateDaemonset) (Some updateDaemonset) t ConditionFalse updateSucceeded
              "Unable to update Daemonset";
        fail err
    | inl updated =>
        _ ← recordEvent (wo_Name updated) (wo_Namespace updated) "DaemonSet" Remote.UpdateEvent;
        _ ← updateStatusFunc (wo_Name updated) (Some updated) t ConditionTrue updateSucceeded "Daemonset updated";
        mret zeroResult
    end.

Definition createDaemonset (daemonset : WorkloadObject) : M Result :=
  let '(daemonset, _) := SetMD5DatadogAgentGenerationAnnotation daemonset in
  t ← now;
  r ← attempt (Create KDaemonSet daemonset);
  match r with
  | inr err => _ ← updateStatusFunc (wo_Name daemonset) None t ConditionFalse createSucceeded "Unable to create Daemonset"; fail err
  | inl created =>
      _ ← recordEvent (wo_Name created) (wo_Namespace created) "DaemonSet" Remote.CreationEvent;
      _ ← updateStatusFunc (wo_Name created) (Some created) t ConditionTrue createSucceeded "Daemonset created";
      mret zeroResult
  end.

Definition createOrUpdateDaemonset (daemonset : WorkloadObject) : M Result :=
  daemonset ← of_sum (SetControllerReference daemonset);
  let daemonset := finalizeTemplate daemonset in
  currentDaemonset ← lookupWorkload KDaemonSet (wo_Key daemonset);
  match currentDaemonset with
  | None => createDaemonset daemonset
  | Some currentDaemonset =>
      currentDaemonset ← adoptWorkload KDaemonSet currentDaemonset
        (λ t, updateStatusFunc (wo_Name currentDaemonset) (Some currentDaemonset) t ConditionFalse updateSucceeded
                "Unable to patch Daemonset owner reference");
      restart ← restartDaemonset daemonset currentDaemonset;
      if restart : bool
      then _ ← unlessNotFound (Delete KDaemonSet (wo_Key currentDaemonset) true); mret zeroResult
      else updateDaemonset daemonset currentDaemonset
  end.
End DaemonSets.

(** *** ExtendedDaemonSets *)

Section ExtendedDaemonSets.
Context (updateStatusFunc : option WorkloadObject → Time → string → string → string → M unit).

Definition updateExtendedDaemonset (eds current : WorkloadObject) (hash : string) : M Result :=
  if IsSameSpecMD5Hash hash (wo_Annotations current)
  then t ← now; _ ← statusOfEDS (Some current) t; mret zeroResult
  else
    let updateEDS := mergeMetadata current eds in
    t ← now;
    r ← attempt (Update KExtendedDaemonSet updateEDS);
    match r with
    | inr err =>
        _ ← updateStatusFunc (Some updateEDS) t ConditionFalse updateSucceeded "Unable to update ExtendedDaemonSet"; fail err
    | inl updated =>
        _ ← recordEvent (wo_Name updated) (wo_Namespace updated) "ExtendedDaemonSet" Remote.UpdateEvent;
        _ ← updateStatusFunc (Some updated) t ConditionTrue updateSucceeded "ExtendedDaemonSet updated";
        mret zeroResult
    end.

Definition createExtendedDaemonset (eds : WorkloadObject) : M Result :=
  t ← now;
  r ← attempt (Create KExtendedDaemonSet eds);
  match r with
  | inr err => _ ← updateStatusFunc None t ConditionFalse createSucceeded "Unable to create ExtendedDaemonSet"; fail err
  | inl created =>
      _ ← recordEvent (wo_Name created) (wo_Namespace created) "ExtendedDaemonSet" Remote.CreationEvent;
      _ ← updateStatusFunc (Some created) t ConditionTrue createSucceeded "ExtendedDaemonSet created";
      mret zeroResult
  end.

Definition createOrUpdateExtendedDaemonset (eds : WorkloadObject) : M Result :=
  eds ← of_sum (SetControllerReference eds);
  let '(eds, hash) := SetMD5DatadogAgentGenerationAnnotation (finalizeTemplate eds) in
  currentEDS ← lookupWorkload KExtendedDaemonSet (wo_Key eds);
  match currentEDS with
  | None => createExtendedDaemonset eds
  | Some currentEDS =>
      currentEDS ← adoptWorkload KExtendedDaemonSet currentEDS
        (λ t, updateStatusFunc None t ConditionFalse patchSucceeded "Unable to patch ExtendedDaemonSet owner reference");
      updateExtendedDaemonset eds currentEDS hash
  end.
End ExtendedDaemonSets.

(** *** ConfigMaps *)

Definition GetConfigMap (key : NamespacedName) : M configMapContent := call fault (λ w, (w, configMaps key)).

Fixpoint readConfigMaps (namespace : string) (names : list string) (contents : gmap string configMapContent) :
    M (gmap string configMapContent) :=
  match names with
  | [] => mret contents
  | n :: names =>
      r ← attempt (GetConfigMap (namespace, n));
      match r with
      | inl cm => readConfigMaps namespace names (<[n := cm]> contents)
      | inr err => if IsNotFound err then readConfigMaps namespace names contents else fail err
      end
  end.

Definition annotateConfigMapsChecksum (namespace : string) (podTmpl : PodTemplateSpec json) : M (PodTemplateSpec json) :=
  let names := referencedConfigMapNames podTmpl in
  if bool_decide (length names = 0) then mret podTmpl
  else
    contents ← readConfigMaps namespace names ∅;
    if bool_decide (size contents = 0) then mret podTmpl
    else mret (set_pod_Annotations
                 (Some (<[ConfigMapsChecksumAnnotationKey := hashConfigMapContents contents]> (default ∅ (pod_Annotations podTmpl))))
                 podTmpl).
End Workloads.
