(* ===== verification/Features.v ===== *)
(** * The feature framework.

    Models [datadogagent/feature/{types,factory,overlay,provider_support,ids}.go]
    and [datadogagent/providercaps]: what components a feature requires, how the
    requirements of all features add up, which features a provider rejects, and
    the changes of a pod template that a provider asks for.  The features
    themselves are values of the interface [Feature]. *)

From Stdlib Require Import ZArith.
From stdpp Require Import base gmap strings list sorting.
From S2P Require Import Prelude GoRun Cluster FleetData PodMerger Objects AgentSpec Defaults Workloads.

(** ** Required components *)

Record RequiredComponent := mkRequiredComponent {
  IsRequired : option bool;
  Containers : list string
}.

#[export] Instance RequiredComponent_eq_dec : EqDecision RequiredComponent.
Proof. solve_decision. Defined.

Record RequiredComponents := mkRequiredComponents {
  rc_ClusterAgent : RequiredComponent;
  rc_Agent : RequiredComponent;
  rc_ClusterChecksRunner : RequiredComponent;
  rc_OtelAgentGateway : RequiredComponent
}.

Definition noRequiredComponent : RequiredComponent := mkRequiredComponent None [].
Definition noRequiredComponents : RequiredComponents :=
  mkRequiredComponents noRequiredComponent noRequiredComponent noRequiredComponent noRequiredComponent.

Definition component_IsEnabled (rc : RequiredComponent) : bool := BoolValue (IsRequired rc).
Definition component_IsConfigured (rc : RequiredComponent) : bool := negb (bool_decide (length (Containers rc) = 0)).

Definition components_IsEnabled (rc : RequiredComponents) : bool :=
  component_IsEnabled (rc_ClusterAgent rc) || component_IsEnabled (rc_Agent rc) ||
  component_IsEnabled (rc_ClusterChecksRunner rc) || component_IsEnabled (rc_OtelAgentGateway rc).
Definition components_IsConfigured (rc : RequiredComponents) : bool :=
  component_IsConfigured (rc_ClusterAgent rc) || component_IsConfigured (rc_Agent rc) ||
  component_IsConfigured (rc_ClusterChecksRunner rc) || component_IsConfigured (rc_OtelAgentGateway rc).

Definition privilegedContainers : list string := ["security-agent"; "system-probe"; "host-profiler"].
Definition IsPrivileged (rc : RequiredComponent) : bool :=
  existsb (λ container, bool_decide (container ∈ privilegedContainers)) (Containers rc).

Definition UnprivilegedSingleAgentContainer : string := "unprivileged-single-agent".
Definition SingleContainerStrategyEnabled (rc : RequiredComponent) : bool :=
  bool_decide (Containers rc = [UnprivilegedSingleAgentContainer]).

Definition merge (a b : option bool) : option bool :=
  match a, b with
  | None, None => None
  | None, Some b => Some b
  | Some a, None => Some a
  | Some a, Some b => if negb a || negb b then Some false else Some true
  end.

(** Membership is tested in [a], not in what was appended. *)
Definition mergeSlices (a b : list string) : list string :=
  foldl (λ out containerB, if bool_decide (containerB ∈ a) then out else out ++ [containerB]) a b.

Definition component_Merge (rc rin : RequiredComponent) : RequiredComponent :=
  mkRequiredComponent (merge (IsRequired rc) (IsRequired rin)) (mergeSlices (Containers rc) (Containers rin)).

Definition components_Merge (rc rin : RequiredComponents) : RequiredComponents :=
  mkRequiredComponents (component_Merge (rc_ClusterAgent rc) (rc_ClusterAgent rin))
    (component_Merge (rc_Agent rc) (rc_Agent rin))
    (component_Merge (rc_ClusterChecksRunner rc) (rc_ClusterChecksRunner rin))
    (component_Merge (rc_OtelAgentGateway rc) (rc_OtelAgentGateway rin)).

(** ** Provider capabilities *)

Record VolumeAndMount := mkVolumeAndMount {
  vam_Volume : Volume json;
  vam_Mount : VolumeMount json;
  vam_Containers : list string
}.
Record EnvVarSet := mkEnvVarSet {
  evs_EnvVar : EnvVar json;
  evs_Containers : list string;
  evs_InitContainers : list string
}.
Record ContainerMountRef := mkContainerMountRef { cmr_VolumeName : string; cmr_Containers : list string }.

Record ProviderCapabilities := mkProviderCapabilities {
  cap_Volumes : list VolumeAndMount;
  cap_EnvVars : list EnvVarSet;
  cap_RemoveVolumes : list string;
  cap_RemoveMounts : list ContainerMountRef;
  cap_RemoveEnvVars : list string
}.

Definition ProviderCapabilityMap : Type := gmap string ProviderCapabilities.

Abbreviation Pod := (PodTemplateSpec json).

Definition removeMountByName (mounts : list (VolumeMount json)) (name : string) : list (VolumeMount json) :=
  filter (λ m, vm_Name m ≠ name) mounts.
Definition removeEnvVarByName (envs : list (EnvVar json)) (name : string) : list (EnvVar json) :=
  filter (λ e, env_Name e ≠ name) envs.

Definition stripMounts (tmpl : Pod) (volumeName : string) (containers : list string) : Pod :=
  let target c := bool_decide (length containers = 0) || bool_decide (c_Name c ∈ containers) in
  let strip c := if target c then set_VolumeMounts (removeMountByName (c_VolumeMounts c) volumeName) c else c in
  set_InitContainers (strip <$> pod_InitContainers tmpl) (set_Containers (strip <$> pod_Containers tmpl) tmpl).

Definition stripVolume (tmpl : Pod) (volumeName : string) : Pod :=
  stripMounts (set_Volumes (filter (λ v, vol_Name v ≠ volumeName) (pod_Volumes tmpl)) tmpl) volumeName [].

Definition stripEnvVar (tmpl : Pod) (name : string) : Pod :=
  let strip c := set_Env (removeEnvVarByName (c_Env c) name) c in
  set_InitContainers (strip <$> pod_InitContainers tmpl) (set_Containers (strip <$> pod_Containers tmpl) tmpl).

(** The volumes, each name once, and the mounts. *)
Fixpoint addVolumes (addedVolumes : list string) (l : list VolumeAndMount) : GoM Pod unit :=
  match l with
  | [] => mret tt
  | vm :: l =>
      let name := vol_Name (vam_Volume vm) in
      _ ← (if bool_decide (name ∈ addedVolumes) then mret tt else AddVolume (vam_Volume vm));
      _ ← AddVolumeMountToContainers (vam_Mount vm) (vam_Containers vm);
      addVolumes (if bool_decide (name ∈ addedVolumes) then addedVolumes else name :: addedVolumes) l
  end.

Definition addEnvVarSet (ev : EnvVarSet) : GoM Pod unit :=
  _ ← (if bool_decide (length (evs_Containers ev) = 0) then AddEnvVar (evs_EnvVar ev)
       else AddEnvVarToContainers (evs_Containers ev) (evs_EnvVar ev));
  for_each (λ ic, AddEnvVarToInitContainerWithMergeFunc ic (evs_EnvVar ev) None) (evs_InitContainers ev).

Definition applyAdditions (c : ProviderCapabilities) : GoM Pod unit :=
  _ ← addVolumes [] (cap_Volumes c);
  for_each addEnvVarSet (cap_EnvVars c).

Definition removals (c : ProviderCapabilities) (tmpl : Pod) : Pod :=
  let tmpl := foldl stripVolume tmpl (cap_RemoveVolumes c) in
  let tmpl := foldl (λ tmpl ref, stripMounts tmpl (cmr_VolumeName ref) (cmr_Containers ref)) tmpl (cap_RemoveMounts c) in
  foldl stripEnvVar tmpl (cap_RemoveEnvVars c).
Definition applyRemovals (c : ProviderCapabilities) : GoM Pod unit := modify (removals c).

Definition ApplyProviderCapabilities (provider : string) (caps : ProviderCapabilityMap) : GoM Pod unit :=
  if bool_decide (size caps = 0) then mret tt
  else
    _ ← match caps !! "" with Some baseline => applyAdditions baseline | None => mret tt end;
    if bool_decide (provider = "") then mret tt
    else match caps !! provider with
         | Some providerCaps => _ ← applyRemovals providerCaps; applyAdditions providerCaps
         | None => mret tt
         end.

(** ** Support of features by providers *)

Inductive SupportLevel := Supported | Degraded | Rejected | Excluded.

#[export] Instance SupportLevel_eq_dec : EqDecision SupportLevel.
Proof. solve_decision. Defined.

Record providerSupportPolicy := mkProviderSupportPolicy {
  defaultLevel : SupportLevel;
  policyFeatures : gmap string SupportLevel
}.

Definition GKEAutopilotProvider : string := "gke-autopilot".
Definition WindowsProvider : string := "windows".

Definition providerSupport : gmap string providerSupportPolicy :=
  list_to_map
    [(GKEAutopilotProvider, mkProviderSupportPolicy Supported
        (list_to_map [("cws", Rejected); ("cspm", Rejected); ("host_profiler", Rejected); ("private_action_runner", Rejected);
                      ("sbom", Degraded); ("gpu", Degraded)]));
     (WindowsProvider, mkProviderSupportPolicy Excluded
        (list_to_map [("default", Supported); ("apm", Supported); ("log_collection", Supported); ("live_container", Supported);
                      ("live_process", Supported); ("process_discovery", Supported); ("dogstatsd", Supported);
                      ("orchestrator_explorer", Supported); ("remote_config", Supported); ("prometheus_scrape", Supported);
                      ("event_collection", Supported)]))].

Definition FeatureSupportLevel (provider id : string) : SupportLevel :=
  match providerSupport !! provider with
  | None => Supported
  | Some policy => match policyFeatures policy !! id with Some level => level | None => defaultLevel policy end
  end.

Record ProviderSupportResult := mkProviderSupportResult { psr_ID : string; psr_Level : SupportLevel }.

(** ** Features *)

Section Features.
(** What dependencies are added to, the remote configuration of the status, and
    the options of a feature. *)
Context {Deps RC Options : Type}.

Record Feature := mkFeature {
  feat_ID : string;
  feat_ManageDependencies : GoM Deps unit;
  feat_ManageClusterAgent : GoM Template unit;
  feat_ManageNodeAgent : GoM Template unit;
  feat_ManageSingleContainerNodeAgent : GoM Template unit;
  feat_ManageClusterChecksRunner : GoM Template unit;
  feat_ManageOtelAgentGateway : GoM Template unit;
  (* the optional interfaces *)
  feat_NodeAgentProviderCapabilities : option ProviderCapabilityMap;
  feat_ClusterAgentProviderCapabilities : option ProviderCapabilityMap
}.

(** [Configure]: the feature is configured, and says what it requires. *)
Definition Configurable : Type := Owner → DatadogAgentSpec → option RC → Feature * RequiredComponents.
Definition BuildFunc : Type := Options → Configurable.

(** The registry of a kind of function, by feature. *)
Definition Register {F : Type} (what : string) (id : string) (buildFunc : F) (registry : gmap string F) : gmap string F + error :=
  match registry !! id with
  | Some _ => inr (Errorf (what +:+ id +:+ " is registered already"))
  | None => inl (<[id := buildFunc]> registry)
  end.

Definition EvaluateProviderSupport (features : list Feature) (provider : string) : list ProviderSupportResult :=
  if bool_decide (provider = "") then []
  else filter (λ r, psr_Level r ≠ Supported)
         ((λ feat, mkProviderSupportResult (feat_ID feat) (FeatureSupportLevel provider (feat_ID feat))) <$> features).

Record Built := mkBuilt {
  configuredFeatures : list Feature;
  enabledFeatures : list Feature;
  requiredComponents : RequiredComponents
}.

(** One feature of the loop. *)
Definition addFeature (b : Built) (f : Feature * RequiredComponents) : Built :=
  let '(feat, req) := f in
  mkBuilt
    (if negb (components_IsEnabled req) && components_IsConfigured req then configuredFeatures b ++ [feat] else configuredFeatures b)
    (if components_IsEnabled req then enabledFeatures b ++ [feat] else enabledFeatures b)
    (components_Merge (requiredComponents b) req).

Definition registryKeys {F : Type} (registry : gmap string F) : list string := sort_by String.le (map_to_list registry).*1.

Definition set_rc_Agent (agent : RequiredComponent) (rc : RequiredComponents) : RequiredComponents :=
  mkRequiredComponents (rc_ClusterAgent rc) agent (rc_ClusterChecksRunner rc) (rc_OtelAgentGateway rc).

Definition SingleContainerStrategy : string := "single".

(** A single container, when that is asked for and enough. *)
Definition containerStrategy (ddaSpec : DatadogAgentSpec) (rc : RequiredComponents) : RequiredComponents :=
  if bool_decide ((Spec_Global ddaSpec ≫= Global_ContainerStrategy) = Some SingleContainerStrategy)
     && component_IsEnabled (rc_Agent rc) && negb (IsPrivileged (rc_Agent rc))
  then set_rc_Agent (mkRequiredComponent (IsRequired (rc_Agent rc)) [UnprivilegedSingleAgentContainer]) rc
  else rc.

Definition BuildFeatures (featureBuilders : gmap string BuildFunc) (dda : Owner) (provider : string)
    (ddaSpec : DatadogAgentSpec) (ddaRCStatus : option RC) (options : Options) : Built * list ProviderSupportResult :=
  let built := foldl addFeature (mkBuilt [] [] noRequiredComponents)
    (omap (λ id, build ← featureBuilders !! id; Some (build options dda ddaSpec ddaRCStatus)) (registryKeys featureBuilders)) in
  (mkBuilt (configuredFeatures built) (enabledFeatures built) (containerStrategy ddaSpec (requiredComponents built)),
   EvaluateProviderSupport (enabledFeatures built) provider).

(** *** Hooks of shared components *)

(** The hooks run in the order of their IDs, until one fails. *)
Fixpoint runHooks {S : Type} (what : string) (hooks : list (string * GoM S unit)) : GoM S unit :=
  match hooks with
  | [] => mret tt
  | (id, hook) :: hooks => _ ← wrap (id +:+ what) hook; runHooks what hooks
  end.

Definition hooksOf {S : Type} (registry : gmap string (GoM S unit)) : list (string * GoM S unit) :=
  omap (λ id, hook ← registry !! id; Some (id, hook)) (registryKeys registry).

(** The overlays of one profile, on a target spec that may be nil. *)
Definition ApplyProfileSharedConfigOverlays
    (profileSharedConfigOverlays : gmap string (DatadogAgentSpec → DatadogAgentSpec → GoM DatadogAgentSpec unit))
    (base profile : DatadogAgentSpec) : GoM (option DatadogAgentSpec) unit := λ dst,
  match dst with
  | None => (None, Fail (Errorf "profile shared config overlay target spec is nil"))
  | Some dst =>
      let '(dst, r) := runHooks " profile shared config overlay failed"
                         (hooksOf ((λ overlay, overlay base profile) <$> profileSharedConfigOverlays)) dst in
      (Some dst, r)
  end.

Definition ApplyDDASharedDependencies (ddaSharedDependencies : gmap string (GoM Deps unit)) : GoM Deps unit :=
  runHooks " DDA shared dependencies failed" (hooksOf ddaSharedDependencies).
End Features.

Arguments Feature : clear implicits.
Arguments Configurable : clear implicits.
Arguments BuildFunc : clear implicits.
Arguments Built : clear implicits.
