(* ===== verification/InternalComponents.v ===== *)
(** * Components of a DatadogAgentInternal.

    Models [datadogagentinternal/{component_reconciler,component_clusteragent,
    component_clusterchecksrunner,component_otelagentgateway}.go] and the
    deletions of [reconcile_helpers.go]: each component that is enabled gets its
    Deployment, the others are cleaned up. *)

From Stdlib Require Import ZArith.
From stdpp Require Import base gmap strings list.
From S2P Require Import Prelude GoRun Cluster Status Profiles Remote FleetData PodMerger Untaint Objects Store.
From S2P Require Import ResourceManagers AgentSpec Defaults Override Workloads Features InternalWorkloads.

Definition overridesOf : Type := gmap string (option DatadogAgentComponentOverride).

Definition ClusterAgentComponentName : string := "clusterAgent".
Definition ClusterChecksRunnerComponentName : string := "clusterChecksRunner".
Definition OtelAgentGatewayComponentName : string := "otelAgentGateway".
Definition NodeAgentComponentName : string := "nodeAgent".

(** Whether the component is enabled, and whether that conflicts with its
    override; [None] when a nil override is read. *)
Definition checkComponentEnabledWithOverride (componentName : string) (componentRequired : bool) (overrides : overridesOf) :
    option (bool * bool) :=
  match overrides !! componentName with
  | Some None => None
  | Some (Some componentOverride) =>
      if BoolValue (Override_Disabled componentOverride) then Some (false, componentRequired)
      else if negb componentRequired then Some (false, true)
      else Some (componentRequired, false)
  | None => Some (componentRequired, false)
  end.

(** ** The state of a reconcile *)

(** The cluster and the status, and the managers of dependencies. *)
Abbreviation Deps := (@rbacManagerImpl json).

Record RunState := mkRunState { rs_World : World; rs_Deps : Deps }.

Abbreviation R := (GoM RunState).

Definition onWorld {A : Type} (m : M A) : R A := λ s,
  let '(w, r) := m (rs_World s) in (mkRunState w (rs_Deps s), r).
Definition onDeps {A : Type} (m : GoM Deps A) : R A := λ s,
  let '(d, r) := m (rs_Deps s) in (mkRunState (rs_World s) d, r).

(** A run on a value of its own. *)
Definition runOn {S T A : Type} (t : T) (m : GoM T A) : GoM S (T * (A + error)) := λ s,
  match m t with
  | (t, Ret a) => (s, Ret (t, inl a))
  | (t, Fail e) => (s, Ret (t, inr e))
  | (_, Panic) => (s, Panic)
  end.

Definition asWorkload (o : WorkloadObject) : Workload :=
  let s := wo_Spec o in
  mkWorkload (wo_Name o) (ws_Replicas s) (str_Type (ws_Strategy s)) (str_RollingUpdate (ws_Strategy s)).

(** The object with the overridden name, replicas and strategy. *)
Definition ofWorkload (wl : Workload) (o : WorkloadObject) : WorkloadObject :=
  let o := mkWorkloadObject (wo_Namespace o) (wl_Name wl) (wo_UID o) (wo_Labels o) (wo_Annotations o) (wo_OwnerReferences o)
             (wo_Deleting o) (wo_Spec o) (wo_Status o) in
  set_wo_Spec (set_ws_Replicas (wl_Replicas wl)
    (set_ws_Strategy (mkStrategy (wl_StrategyType wl) (wl_RollingUpdate wl)) (wo_Spec o))) o.

Definition template (o : WorkloadObject) : Template := ws_Template (wo_Spec o).
Definition set_template (t : Template) (o : WorkloadObject) : WorkloadObject := set_wo_Spec (set_ws_Template t (wo_Spec o)) o.
Definition set_tpl_Pod (p : PodTemplateSpec json) (t : Template) : Template := mkTemplate (tpl_Labels t) p (tpl_Rest t).

(** ** The interface of a component *)

Section Components.
Context (fault : nat → option (bool * error)) (edsServed : bool).
Context (asSelector : option LabelSelector → (gmap string string → bool) + error) (clock : nat → Time).
Context (md5 : WorkloadSpec → string) (glob_Compile : string → (string → bool) + error).
Context (ddaiGVK : Cluster.GroupVersionKind) (SetControllerReference : WorkloadObject → WorkloadObject + error).
Context (supportsAppArmorProfile : bool) (range : gmap string string → list (string * string)).
Context (configMaps : NamespacedName → configMapContent + error) (RolloutOnConfigMapChangeEnabled : bool).

(** What the packages of components and global settings build. *)
Context (newDefaultDeployment : string → WorkloadObject).
Context (applyGlobalSettings : string → RequiredComponents → Template → Deps → Template * Deps).
Context (overridePodTemplate : option DatadogAgentComponentOverride → string → GoM Template unit).
Context (ValidateFIPSVersions : Template → list error).

(** The DatadogAgentInternal. *)
Context (ddai : Owner) (overrides : overridesOf).

Abbreviation Feature := (Feature Deps).

Record ComponentReconciler := mkComponentReconciler {
  comp_Name : string;
  comp_Required : RequiredComponents → RequiredComponent;
  comp_ConditionType : string;
  comp_ManageFeature : string → Feature → GoM Template unit;
  comp_SetStatus : option DeploymentStatus → InternalStatus → InternalStatus;
  comp_Status : InternalStatus → option DeploymentStatus;
  comp_ForceDelete : RequiredComponents → option bool;
  comp_CleanupDependencies : R unit
}.

Definition comp_IsEnabled (c : ComponentReconciler) (requiredComponents : RequiredComponents) : option (bool * bool) :=
  checkComponentEnabledWithOverride (comp_Name c) (component_IsEnabled (comp_Required c requiredComponents)) overrides.

Definition comp_UpdateStatus (c : ComponentReconciler) (deployment : option WorkloadObject) (updateTime : Time)
    (status reason message : string) : M unit :=
  _ ← changeStatus (λ s, comp_SetStatus c
        (Some (UpdateDeploymentStatus (asDeployment <$> deployment) (comp_Status c s) (Some updateTime))) s);
  UpdateDatadogAgentInternalStatusConditions updateTime (comp_ConditionType c) status reason message true.

Definition comp_DeleteStatus (c : ComponentReconciler) : M unit :=
  _ ← changeStatus (comp_SetStatus c None);
  DeleteDatadogAgentInternalStatusCondition (comp_ConditionType c).

(** *** Cluster Agent *)

Definition clusterAgent_ManageFeature (provider : string) (feat : Feature) : GoM Template unit :=
  _ ← feat_ManageClusterAgent feat;
  match feat_ClusterAgentProviderCapabilities feat with
  | Some caps => zoom tpl_Pod set_tpl_Pod (ApplyProviderCapabilities provider caps)
  | None => mret tt
  end.

Definition clusterAgent_CleanupDependencies : R unit :=
  _ ← onDeps (DeleteServiceAccountByComponent ClusterAgentComponentName (own_Namespace ddai));
  _ ← onDeps (DeleteRoleByComponent ClusterAgentComponentName (own_Namespace ddai));
  onDeps (DeleteClusterRoleByComponent ClusterAgentComponentName).

Definition ClusterAgentComponent : ComponentReconciler :=
  mkComponentReconciler ClusterAgentComponentName rc_ClusterAgent "ClusterAgentReconcile" clusterAgent_ManageFeature
    set_ist_ClusterAgent ist_ClusterAgent (λ _, Some false) clusterAgent_CleanupDependencies.

(** *** Cluster Checks Runner *)

(** [None] when a nil override is read. *)
Definition clusterChecksRunner_ForceDelete (requiredComponents : RequiredComponents) : option bool :=
  let dcaEnabled := component_IsEnabled (rc_ClusterAgent requiredComponents) in
  match overrides !! ClusterAgentComponentName with
  | Some None => None
  | Some (Some dcaOverride) => Some (BoolValue (Override_Disabled dcaOverride))
  | None => Some (negb dcaEnabled)
  end.

Definition ClusterChecksRunnerComponent : ComponentReconciler :=
  mkComponentReconciler ClusterChecksRunnerComponentName rc_ClusterChecksRunner "ClusterChecksRunnerReconcile"
    (λ _, feat_ManageClusterChecksRunner) set_ist_ClusterChecksRunner ist_ClusterChecksRunner
    clusterChecksRunner_ForceDelete (mret tt).

(** *** OTel Agent Gateway *)

Definition OtelAgentGatewayComponent : ComponentReconciler :=
  mkComponentReconciler OtelAgentGatewayComponentName rc_OtelAgentGateway "OtelAgentGatewayReconcile"
    (λ _, feat_ManageOtelAgentGateway) set_ist_OtelAgentGateway ist_OtelAgentGateway (λ _, Some false) (mret tt).

(** The registry, in order. *)
Definition componentRegistry : list ComponentReconciler :=
  [ClusterAgentComponent; ClusterChecksRunnerComponent; OtelAgentGatewayComponent].

Definition GetComponent (components : list ComponentReconciler) (name : string) : option ComponentReconciler :=
  head (filter (λ c, comp_Name c = name) components).

(** ** Deleting Deployments *)

Definition deleteDeploymentWithEvent (key : NamespacedName) : M unit :=
  existing ← lookupWorkload fault edsServed KDeployment key;
  match existing with
  | None => mret tt
  | Some existing =>
      _ ← Workloads.Delete fault edsServed KDeployment (wo_Key existing) false;
      recordEvent (wo_Name existing) (wo_Namespace existing) "Deployment" DeletionEvent
  end.

(** The name a component's Deployment should have; a nil override is read. *)
Definition expectedName (defaultName componentName : string) : option string :=
  match overrides !! componentName with
  | None => Some defaultName
  | Some None => None
  | Some (Some o) => Some (if bool_decide (StringValue (Override_Name o) = "") then defaultName else StringValue (Override_Name o))
  end.

Definition GetDeploymentNameFromDatadogAgent : option string :=
  expectedName (own_Name ddai +:+ "-cluster-agent") ClusterAgentComponentName.
Definition getDeploymentNameFromCCR : option string :=
  expectedName (own_Name ddai +:+ "-cluster-checks-runner") ClusterChecksRunnerComponentName.
Definition getDeploymentNameFromOtelAgentGateway : option string :=
  expectedName (own_Name ddai +:+ "-otel-agent-gateway") OtelAgentGatewayComponentName.

(** The Deployments of a component under another name. *)
Definition cleanupOldDeployments (component : string) (deploymentName : option string) : M unit :=
  match deploymentName with
  | None => panic
  | Some deploymentName =>
      l ← List_ fault edsServed KDeployment None
            (<[AgentDeploymentComponentLabelKey := component]>
             (<[AppKubernetesManageByLabelKey := "datadog-operator"]>
              {[ AppKubernetesPartOfLabelKey := NewPartOfLabelValue (own_Namespace ddai) (own_Labels ddai) (own_Name ddai) ]}));
      for_each (λ o, if bool_decide (deploymentName = wo_Name o) then mret tt else deleteDeploymentWithEvent (wo_Key o)) l
  end.
Definition cleanupOldDCADeployments : M unit := cleanupOldDeployments "cluster-agent" GetDeploymentNameFromDatadogAgent.
Definition cleanupOldCCRDeployments : M unit := cleanupOldDeployments "cluster-checks-runner" getDeploymentNameFromCCR.
Definition cleanupOldOtelAgentGatewayDeployments : M unit :=
  cleanupOldDeployments "otel-agent-gateway" getDeploymentNameFromOtelAgentGateway.

(** Every cleanup runs; their errors are collected. *)
Fixpoint collectErrors {S : Type} (l : list (GoM S unit)) : GoM S (list (option error)) :=
  match l with
  | [] => mret []
  | m :: l =>
      r ← attempt m;
      rest ← collectErrors l;
      mret ((match r with inr e => Some e | inl _ => None end) :: rest)
  end.

Definition isDDAILabeledWithProfile : bool := negb (bool_decide (get_key (own_Labels ddai) ProfileLabelKey = "")).

Definition cleanupExtraneousResources : M unit :=
  if isDDAILabeledWithProfile then mret tt
  else
    errs ← collectErrors [cleanupOldDCADeployments; cleanupOldCCRDeployments; cleanupOldOtelAgentGatewayDeployments];
    failIf (NewAggregate errs).

(** ** Reconciling *)

(** The name override, applied to the default Deployment. *)
Definition overrideDeployment (componentName : string) (deployment : WorkloadObject) : R WorkloadObject :=
  match overrides !! componentName with
  | None => mret deployment
  | Some None => panic
  | Some (Some o) => mret (ofWorkload (override_Deployment o (asWorkload deployment)) deployment)
  end.

Definition Cleanup (component : ComponentReconciler) : R unit :=
  deployment ← overrideDeployment (comp_Name component) (newDefaultDeployment (comp_Name component));
  _ ← onWorld (deleteDeploymentWithEvent (wo_Key deployment));
  _ ← comp_CleanupDependencies component;
  onWorld (comp_DeleteStatus component).

(** The features in order; their errors are collected. *)
Fixpoint applyFeatures (manageFeature : Feature → GoM Template unit) (features : list Feature) (t : Template) :
    R (Template * list error) :=
  match features with
  | [] => mret (t, [])
  | feat :: features =>
      x ← runOn t (manageFeature feat);
      y ← applyFeatures manageFeature features x.1;
      mret (y.1, match x.2 with inl _ => y.2 | inr e => e :: y.2 end)
  end.

(** [if len(errs) > 0 { ...; return err }] *)
Definition reportErrors (component : ComponentReconciler) (deployment : WorkloadObject) (t : Time) (what : string)
    (errs : list error) : R unit :=
  match NewAggregate (Some <$> errs) with
  | None => mret tt
  | Some err =>
      _ ← onWorld (comp_UpdateStatus component (Some deployment) t ConditionFalse (comp_Name component +:+ what) (error_Error err));
      fail err
  end.

Definition finishDeployment (component : ComponentReconciler) (deployment : WorkloadObject) (t : Time) : R Result :=
  _ ← reportErrors component deployment t " FIPS version error" (ValidateFIPSVersions (template deployment));
  deployment ← (if RolloutOnConfigMapChangeEnabled
                then
                  r ← attempt (onWorld (annotateConfigMapsChecksum fault configMaps (wo_Namespace deployment) (tpl_Pod (template deployment))));
                  match r with
                  | inl pod => mret (set_template (set_tpl_Pod pod (template deployment)) deployment)
                  | inr err =>
                      _ ← onWorld (comp_UpdateStatus component (Some deployment) t ConditionFalse
                                     (comp_Name component +:+ " configmap checksum error") (error_Error err));
                      fail err
                  end
                else mret deployment);
  res ← onWorld (createOrUpdateDeployment fault edsServed asSelector clock md5 glob_Compile (own_Name ddai) (own_UID ddai) ddaiGVK
                   SetControllerReference supportsAppArmorProfile range (comp_UpdateStatus component) deployment);
  _ ← onWorld (UpdateDatadogAgentInternalStatusConditions t (comp_ConditionType component) ConditionTrue
                 "reconcile_succeed" "reconcile succeed" false);
  mret res.

Definition reconcileComponent (requiredComponents : RequiredComponents) (features : list Feature) (provider : string)
    (component : ComponentReconciler) : R Result :=
  t ← onWorld (now clock);
  let deployment := newDefaultDeployment (comp_Name component) in
  d ← gets rs_Deps;
  let '(tpl, d) := applyGlobalSettings (comp_Name component) requiredComponents (template deployment) d in
  _ ← modify (λ s, mkRunState (rs_World s) d);
  x ← applyFeatures (comp_ManageFeature component provider) features tpl;
  let deployment := set_template x.1 deployment in
  _ ← reportErrors component deployment t " feature error" x.2;
  match comp_ForceDelete component requiredComponents with
  | None => panic
  | Some true => _ ← Cleanup component; mret zeroResult
  | Some false =>
      y ← match overrides !! comp_Name component with
          | None => mret (deployment, inl tt)
          | Some o => y ← runOn (template deployment) (overridePodTemplate o (comp_Name component));
                      mret (set_template y.1 deployment, y.2)
          end;
      deployment ← overrideDeployment (comp_Name component) y.1;
      finishDeployment component deployment t
  end.

(** [utils.ShouldReturn] for a call that did not fail. *)
Definition isZero (res : Result) : bool := bool_decide (res = zeroResult).

Definition OverrideReconcileConflictConditionType : string := "OverrideReconcileConflict".

Definition conflictCondition (t : Time) (message : string) : R unit :=
  onWorld (UpdateDatadogAgentInternalStatusConditions t OverrideReconcileConflictConditionType ConditionTrue
             "OverrideConflict" message true).

(** [inl]: the loop returned early. *)
Fixpoint reconcileEach (t : Time) (requiredComponents : RequiredComponents) (features : list Feature) (provider : string)
    (components : list ComponentReconciler) (result : Result) (hasConflict : bool) : R (Result + Result * bool) :=
  match components with
  | [] => mret (inr (result, hasConflict))
  | comp :: components =>
      match comp_IsEnabled comp requiredComponents with
      | None => panic
      | Some (enabled, conflict) =>
          res ← (if negb enabled
                 then
                   _ ← (if conflict then conflictCondition t (comp_Name comp +:+ " component is set to disabled") else mret tt);
                   _ ← Cleanup comp; mret zeroResult
                 else reconcileComponent requiredComponents features provider comp);
          if negb (isZero res) then mret (inl res)
          else reconcileEach t requiredComponents features provider components result
                 (hasConflict || (negb enabled && conflict))
      end
  end.

Definition ReconcileComponents (requiredComponents : RequiredComponents) (features : list Feature) (provider : string)
    (components : list ComponentReconciler) : R Result :=
  t ← onWorld (now clock);
  r ← reconcileEach t requiredComponents features provider components zeroResult false;
  match r with
  | inl res => mret res
  | inr (result, hasConflict) =>
      _ ← (if hasConflict : bool then mret tt
           else onWorld (DeleteDatadogAgentInternalStatusCondition OverrideReconcileConflictConditionType));
      mret result
  end.
End Components.
