(* ===== verification/InternalAgent.v ===== *)
(** * The node agent, and the reconcile of a DatadogAgentInternal.

    Models [datadogagentinternal/{reconcile_agent,reconcile,windows}.go]: the
    DaemonSet or ExtendedDaemonSet of the node agent is built, migrated and
    applied, between the dependencies and the cleanup of a reconcile. *)

From Stdlib Require Import ZArith Ascii.
From stdpp Require Import base gmap strings list.
From S2P Require Import Prelude GoRun Cluster Status Profiles Remote FleetData PodMerger Untaint Objects Store.
From S2P Require Import ResourceManagers AgentSpec Defaults Override Workloads Migration Features InternalWorkloads.
From S2P Require Import InternalComponents.

Definition defaultRequeuePeriod : Duration := 15 * Second.

Definition deleteStatusWithAgent : M unit :=
  _ ← changeStatus (set_ist_Agent None);
  DeleteDatadogAgentInternalStatusCondition AgentReconcileConditionType.

(** The configured paths of the logs: temporary storage, pods, containers. *)
Definition windowsLogPaths (spec : DatadogAgentSpec) : string * string * string :=
  match Spec_Features spec ≫= Features_LogCollection with
  | None => ("", "", "")
  | Some lc => (StringValue (LogCollection_TempStoragePath lc), StringValue (LogCollection_PodLogsPath lc),
                StringValue (LogCollection_ContainerLogsPath lc))
  end.

Definition fipsEnabled (spec : DatadogAgentSpec) : bool :=
  match Spec_Global spec with
  | None => false
  | Some g => BoolValue (Global_UseFIPSAgent g) || match Global_FIPS g with Some f => BoolValue (FIPS_Enabled f) | None => false end
  end.

Section Agent.
Context {RC Options : Type}.
Context (fault : nat → option (bool * error)) (edsServed : bool).
Context (asSelector : option LabelSelector → (gmap string string → bool) + error) (clock : nat → Time).
Context (md5 : WorkloadSpec → string) (md5Labels : option (gmap string string) → string).
Context (glob_Compile : string → (string → bool) + error).
Context (ddaiGVK : Cluster.GroupVersionKind) (SetControllerReference : WorkloadObject → WorkloadObject + error).
Context (supportsAppArmorProfile : bool) (range : gmap string string → list (string * string)).
Context (configMaps : NamespacedName → configMapContent + error).

(** The options of the operator. *)
Context (EDSEnabled RolloutOnConfigMapChangeEnabled UntaintControllerEnabled : bool).
(** The label that names the ExtendedDaemonSet of a pod. *)
Context (ExtendedDaemonSetNameLabelKey : string).

(** What the packages of components, global settings and overrides build. *)
Context (newDefaultDeployment : string → WorkloadObject).
Context (newDefaultAgentDaemonset newDefaultAgentExtendedDaemonset : RequiredComponent → WorkloadObject).
Context (applyGlobalSettings : string → RequiredComponents → Template → Deps → Template * Deps).
Context (applyGlobalNodeAgentSpec : string → GoM Template unit).
Context (overridePodTemplate : option DatadogAgentComponentOverride → string → GoM Template unit).
Context (applyExperimentalOverrides : Template → Template) (ensureStartupToleration : Template → Template).
Context (hasFIPSAgentImage : Template → bool).
(** The Windows template, and a path that was not mounted. *)
Context (applyWindowsPodTransformation : bool → string * string * string → Template → Template * string).
Context (ValidateFIPSVersions : Template → list error).

(** The [%q] verb. *)
Context (quoted : string → string).

(** The DatadogAgentInternal: its metadata, provider and spec. *)
Context (ddai : Owner) (provider : string) (spec : DatadogAgentSpec).

Abbreviation Feature := (Feature Deps).
Abbreviation overrides := (Spec_Override spec).

Definition windowsProfile : bool := bool_decide (provider = WindowsProvider) && isDDAILabeledWithProfile ddai.

(** ** Building the workload *)

(** The hook of one feature. *)
Definition manageNodeAgent (windows single : bool) (feat : Feature) : GoM Template unit :=
  if windows && bool_decide (FeatureSupportLevel provider (feat_ID feat) = Excluded) then mret tt
  else
    _ ← (if single then feat_ManageSingleContainerNodeAgent feat else feat_ManageNodeAgent feat);
    match feat_NodeAgentProviderCapabilities feat with
    | Some caps => zoom tpl_Pod set_tpl_Pod (ApplyProviderCapabilities provider caps)
    | None => mret tt
    end.

(** The steps on the template that may fail. *)
Definition featureSteps (windows single : bool) (features : list Feature) : GoM Template unit :=
  _ ← applyGlobalNodeAgentSpec provider;
  for_each (manageNodeAgent windows single) features.

(** The workload, and whether its override disables it. *)
Definition buildAgent (override_ : DatadogAgentComponentOverride → Workload → Workload) (windows useSingle : bool)
    (requiredComponents : RequiredComponents) (features : list Feature) (o : WorkloadObject) : R (WorkloadObject * bool) :=
  let single := SingleContainerStrategyEnabled (rc_Agent requiredComponents) in
  d ← gets rs_Deps;
  let '(tpl, d) := applyGlobalSettings NodeAgentComponentName requiredComponents (template o) d in
  _ ← modify (λ s, mkRunState (rs_World s) d);
  x ← runOn tpl (featureSteps windows (useSingle && single) features);
  _ ← of_sum x.2;
  y ← match overrides !! NodeAgentComponentName with
      | None => mret (set_template x.1 o, false)
      | Some None => panic
      | Some (Some c) =>
          z ← runOn x.1 (overridePodTemplate (Some c) NodeAgentComponentName);
          let o := set_template z.1 o in
          mret (ofWorkload (override_ c (asWorkload o)) o, BoolValue (Override_Disabled c))
      end;
  let tpl := applyExperimentalOverrides (template y.1) in
  let tpl := if UntaintControllerEnabled then ensureStartupToleration tpl else tpl in
  mret (set_template tpl y.1, y.2).

(** ** Removing the workload *)

Definition deleteV2 (k : WorkloadKind) (o : WorkloadObject) : M unit :=
  r ← attempt (Workloads.Delete fault edsServed k (wo_Key o) false);
  match r with
  | inr err => if IsNotFound err then mret tt else fail err
  | inl _ =>
      _ ← recordEvent (wo_Name o) (wo_Namespace o) (kindName k) DeletionEvent;
      changeStatus (set_ist_Agent None)
  end.
Definition deleteV2DaemonSet : WorkloadObject → M unit := deleteV2 KDaemonSet.
Definition deleteV2ExtendedDaemonSet : WorkloadObject → M unit := deleteV2 KExtendedDaemonSet.

Definition agentConflict (requiredComponents : RequiredComponents) : R unit :=
  if component_IsEnabled (rc_Agent requiredComponents)
  then
    t ← onWorld (now clock);
    conflictCondition t "Agent component is set to disabled"
  else mret tt.

(** The checksum of the ConfigMaps of the template. *)
Definition withChecksum (o : WorkloadObject) : M WorkloadObject :=
  if RolloutOnConfigMapChangeEnabled
  then
    pod ← annotateConfigMapsChecksum fault configMaps (own_Namespace ddai) (tpl_Pod (template o));
    mret (set_template (set_tpl_Pod pod (template o)) o)
  else mret o.

(** ** Applying the workload *)

Definition applyDaemonSet (daemonset : WorkloadObject) : M Result :=
  m ← migrateExtendedDaemonSetToDaemonSet fault edsServed asSelector ExtendedDaemonSetNameLabelKey daemonset;
  if m.1 : bool then mret m.2
  else
    daemonset ← withChecksum daemonset;
    createOrUpdateDaemonset fault edsServed asSelector clock md5 md5Labels glob_Compile (own_Name ddai) (own_UID ddai) ddaiGVK
      SetControllerReference supportsAppArmorProfile range updateDSStatusV2WithAgent daemonset.

Definition applyExtendedDaemonSet (eds : WorkloadObject) : M Result :=
  m ← migrateDaemonSetToExtendedDaemonSet fault edsServed asSelector ExtendedDaemonSetNameLabelKey eds;
  if m.1 : bool then mret m.2
  else
    eds ← withChecksum eds;
    createOrUpdateExtendedDaemonset fault edsServed asSelector clock md5 glob_Compile (own_Name ddai) (own_UID ddai) ddaiGVK
      SetControllerReference supportsAppArmorProfile range updateEDSStatusV2WithAgent eds.

(** FIPS on Windows: the DaemonSet is removed. *)
Definition rejectWindowsFIPS (daemonset : WorkloadObject) : M unit :=
  t ← now clock;
  _ ← UpdateDatadogAgentInternalStatusConditions t "WindowsAgentReconcile" ConditionFalse "WindowsFIPSUnsupported"
        "the windows provider is not supported with FIPS (global.useFIPSAgent or global.fips.enabled): no -servercore-fips image" true;
  _ ← deleteV2DaemonSet daemonset;
  changeStatus (set_ist_Agent None).

Definition LogCollectionIDType : string := "log_collection".

Definition windowsTemplate (features : list Feature) (daemonset : WorkloadObject) : M WorkloadObject :=
  t ← now clock;
  _ ← UpdateDatadogAgentInternalStatusConditions t "WindowsAgentReconcile" ConditionTrue "WindowsAgentReconcile"
        "windows agent reconciled" false;
  let logCollectionEnabled := existsb (λ feat, bool_decide (feat_ID feat = LogCollectionIDType)) features in
  let '(tpl, skipped) := applyWindowsPodTransformation logCollectionEnabled (windowsLogPaths spec) (template daemonset) in
  t ← now clock;
  _ ← UpdateDatadogAgentInternalStatusConditions t "WindowsLogCollectionPathSkipped"
        (if bool_decide (skipped = "") then ConditionFalse else ConditionTrue) "OverlappingContainerLogsPath"
        (if bool_decide (skipped = "") then "no overlapping containerLogsPath"
         else "logCollection.containerLogsPath " +:+ quoted skipped +:+ " overlaps the Windows agent config dir C:/ProgramData/Datadog and was not mounted; set it to the container-runtime log-store subdirectory (a sibling of the config dir) instead") false;
  mret (set_template tpl daemonset).

Definition reconcileExtendedDaemonSet (requiredComponents : RequiredComponents) (features : list Feature) : R Result :=
  x ← buildAgent override_ExtendedDaemonSet false false requiredComponents features
        (newDefaultAgentExtendedDaemonset (rc_Agent requiredComponents));
  if x.2 : bool
  then
    _ ← agentConflict requiredComponents;
    _ ← onWorld (deleteV2ExtendedDaemonSet x.1);
    mret zeroResult
  else onWorld (applyExtendedDaemonSet x.1).

(** The end of the DaemonSet's path. *)
Definition finishDaemonSet (requiredComponents : RequiredComponents) (disabledByOverride : bool) (daemonset : WorkloadObject) : R Result :=
  if disabledByOverride
  then
    _ ← agentConflict requiredComponents;
    _ ← onWorld (deleteV2DaemonSet daemonset);
    _ ← onWorld deleteStatusWithAgent;
    mret zeroResult
  else onWorld (applyDaemonSet daemonset).

Definition reconcileDaemonSet (requiredComponents : RequiredComponents) (features : list Feature) : R Result :=
  x ← buildAgent override_DaemonSet windowsProfile true requiredComponents features
        (newDefaultAgentDaemonset (rc_Agent requiredComponents));
  if windowsProfile
  then
    if fipsEnabled spec || hasFIPSAgentImage (template x.1)
    then _ ← onWorld (rejectWindowsFIPS x.1); mret zeroResult
    else
      daemonset ← onWorld (windowsTemplate features x.1);
      finishDaemonSet requiredComponents x.2 daemonset
  else finishDaemonSet requiredComponents x.2 x.1.

Definition reconcileV2Agent (requiredComponents : RequiredComponents) (features : list Feature) : R Result :=
  if EDSEnabled && negb (isDDAILabeledWithProfile ddai)
  then reconcileExtendedDaemonSet requiredComponents features
  else reconcileDaemonSet requiredComponents features.

(** ** The reconcile *)

(** The status in the cluster, the condition of the metrics forwarder, and what is
    done with the dependencies. *)
Context (oldStatus : InternalStatus) (forwarderCondition : option (Time * string * bool * string * string)).
Context (applyGlobalDependencies : RequiredComponents → R unit) (overrideDependencies : R unit).
Context (storeApply storeCleanup : R unit).

(** [fmt.Sprintf("%v", ids)] *)
Definition formatList (l : list string) : string := "[" +:+ JoinChar " "%char l +:+ "]".

Definition FeatureNotSupportedOnProviderConditionType : string := "FeatureNotSupportedOnProvider".

(** Events are left out. *)
Definition providerSupportBlocks (results : list ProviderSupportResult) (t : Time) : M bool :=
  let rejected := psr_ID <$> filter (λ r, psr_Level r = Rejected) results in
  if negb (bool_decide (length rejected = 0))
  then
    _ ← UpdateDatadogAgentInternalStatusConditions t FeatureNotSupportedOnProviderConditionType ConditionTrue
          "FeatureNotSupportedOnProvider"
          ("Features " +:+ formatList rejected +:+ " are not supported on provider " +:+ quoted provider +:+ "; blocking reconcile") false;
    mret true
  else
    _ ← UpdateDatadogAgentInternalStatusConditions t FeatureNotSupportedOnProviderConditionType ConditionFalse
          "AllFeaturesSupportedOnProvider" "All enabled features are supported on the provider" false;
    mret false.

Definition setMetricsForwarderStatus : M unit :=
  match forwarderCondition with
  | None => mret tt
  | Some (t, ty, status, reason, message) =>
      UpdateDatadogAgentInternalStatusConditions t ty (GetMetav1ConditionStatus status) reason message true
  end.

Definition DatadogAgentReconcileErrorConditionType : string := "DatadogAgentReconcileError".

(** [r]: the result, or the error, of the reconcile so far. *)
Definition updateStatusIfNeeded (t : Time) (r : Result + error) : M Result :=
  _ ← match r with
      | inl _ => UpdateDatadogAgentInternalStatusConditions t DatadogAgentReconcileErrorConditionType ConditionFalse
                   "DatadogAgent_reconcile_ok" "DatadogAgent reconcile ok" false
      | inr err => UpdateDatadogAgentInternalStatusConditions t DatadogAgentReconcileErrorConditionType ConditionTrue
                     "DatadogAgent_reconcile_error" (error_Error err) false
      end;
  _ ← setMetricsForwarderStatus;
  newStatus ← gets w_Status;
  if IsEqualStatus oldStatus newStatus then of_sum r
  else
    u ← attempt (StatusUpdate fault newStatus);
    match u with
    | inl _ => of_sum r
    | inr err => if IsConflict err then mret (RequeueAfter Second) else fail err
    end.

(** Each feature's dependencies; the errors are collected. *)
Definition manageFeatureDependencies (features : list Feature) : R unit :=
  errs ← onDeps (collectErrors (feat_ManageDependencies <$> features));
  failIf (NewAggregate errs).

(** The dependencies of a DatadogAgentInternal without profile. *)
Definition manageDependencies (b : Built Deps) : R unit :=
  if isDDAILabeledWithProfile ddai then mret tt
  else
    _ ← applyGlobalDependencies (requiredComponents b);
    _ ← manageFeatureDependencies (enabledFeatures b);
    _ ← overrideDependencies;
    _ ← storeApply;
    storeCleanup.

Definition allFeatures (b : Built Deps) : list Feature := configuredFeatures b ++ enabledFeatures b.

(** The components, the node agent and the cleanup; [inl]: what is to be returned early. *)
Definition reconcileWorkloads (b : Built Deps) (t : Time) : R Result :=
  let components := componentRegistry ddai overrides in
  result ← (if isDDAILabeledWithProfile ddai then mret zeroResult
            else ReconcileComponents fault edsServed asSelector clock md5 glob_Compile ddaiGVK SetControllerReference
                   supportsAppArmorProfile range configMaps RolloutOnConfigMapChangeEnabled newDefaultDeployment
                   applyGlobalSettings overridePodTemplate ValidateFIPSVersions ddai overrides
                   (requiredComponents b) (allFeatures b) provider components);
  if negb (isZero result) then mret result
  else
    result ← reconcileV2Agent (requiredComponents b) (allFeatures b);
    if negb (isZero result) then mret result
    else
      _ ← onWorld (UpdateDatadogAgentInternalStatusConditions t AgentReconcileConditionType ConditionTrue
                     "reconcile_succeed" "reconcile succeed" false);
      _ ← onWorld (cleanupExtraneousResources fault edsServed ddai overrides);
      _ ← (if isDDAILabeledWithProfile ddai then mret tt else storeCleanup);
      mret (RequeueAfter defaultRequeuePeriod).

(** [built]: what [BuildFeatures] returns. *)
Definition reconcileInstance (built : Built Deps * list ProviderSupportResult) : R Result :=
  t ← onWorld (now clock);
  blocked ← onWorld (providerSupportBlocks built.2 t);
  if blocked : bool then onWorld (updateStatusIfNeeded t (inl zeroResult))
  else
    r ← attempt (_ ← manageDependencies built.1; reconcileWorkloads built.1 t);
    onWorld (updateStatusIfNeeded t r).
End Agent.
