(* ===== verification/InternalFacts.v ===== *)
(** * What a call that succeeds does to a workload.

    Steps of [createOrUpdateDaemonset] and [createOrUpdateExtendedDaemonset] when
    the API server answers, for the convergence of the node agent. *)

From Stdlib Require Import ZArith Ascii Lia.
From stdpp Require Import base gmap strings list.
From S2P Require Import Prelude GoRun Cluster Status Profiles Remote FleetData PodMerger Untaint Objects Override.
From S2P Require Import Workloads Migration MigrationTheorems MigrationRounds InternalWorkloads.

Implicit Types (w : World) (o : WorkloadObject).

(** ** Metadata that is kept *)

Section Owners.
Context (n u : string) (gvk : Cluster.GroupVersionKind).
Hypothesis Hkind : gvk_Kind gvk = "DatadogAgentInternal".

Abbreviation patched := (createOwnerReferencePatch n u gvk).
Definition isAgent (r : OwnerReference) : Prop := or_Kind r = "DatadogAgent".

Lemma shouldUpdate_false refs : shouldUpdateOwnerReference refs = false ↔ ∀ r, r ∈ refs → ¬ isAgent r.
Proof.
  unfold shouldUpdateOwnerReference, ContainsFunc, isAgent. rewrite <- Forall_forall.
  induction refs as [|r refs IH]; cbn [existsb]; [by rewrite Forall_nil|].
  by rewrite orb_false_iff, bool_decide_eq_false, IH, Forall_cons.
Qed.

Lemma shouldUpdate_true refs : shouldUpdateOwnerReference refs = true ↔ ∃ r, r ∈ refs ∧ isAgent r.
Proof.
  unfold shouldUpdateOwnerReference, ContainsFunc, isAgent. rewrite existsb_exists. setoid_rewrite list_elem_of_In.
  by setoid_rewrite bool_decide_eq_true.
Qed.

Lemma patched_has_no_agent refs : shouldUpdateOwnerReference (patched refs) = false.
Proof.
  apply shouldUpdate_false. intros r (r0 & -> & _)%list_elem_of_fmap. unfold isAgent. case_bool_decide as Hr; [|exact Hr].
  cbn. rewrite Hkind. discriminate.
Qed.

(** The DatadogAgentInternal owns the object, or is to take it over. *)
Definition claimed (refs : list OwnerReference) : Prop :=
  newDDAIOwnerRef n u gvk ∈ refs ∨ shouldUpdateOwnerReference refs = true.

Lemma patched_owner refs : claimed refs → newDDAIOwnerRef n u gvk ∈ patched refs.
Proof.
  unfold createOwnerReferencePatch. rewrite list_elem_of_fmap. intros [Hin|(r & Hin & Hr)%shouldUpdate_true].
  - eexists. split; [|exact Hin]. by case_bool_decide.
  - exists r. split; [|exact Hin]. unfold isAgent in Hr. by rewrite bool_decide_true.
Qed.

(** The garbage collector only takes off references to workloads. *)
Definition workloadOwners (gone : list (string * string)) : Prop := ∀ e, e ∈ gone → ∃ k, e.1 = kindName k.

Lemma collected_owners gone refs :
  workloadOwners gone →
  (newDDAIOwnerRef n u gvk ∈ withoutOwners gone refs ↔ newDDAIOwnerRef n u gvk ∈ refs) ∧
  shouldUpdateOwnerReference (withoutOwners gone refs) = shouldUpdateOwnerReference refs.
Proof.
  intros Hgone. assert (∀ r, r ∈ withoutOwners gone refs ↔ ((or_Kind r, or_UID r) ∉ gone) ∧ r ∈ refs) as Helem.
  { intros r. unfold withoutOwners. by rewrite list_elem_of_filter. }
  split.
  - rewrite Helem. split; [by intros [_ ?]|]. intros Hin. split; [|done]. intros Hg. destruct (Hgone _ Hg) as [[] Hk]; cbn in Hk; congruence.
  - apply eq_true_iff_eq. rewrite !shouldUpdate_true. split; intros (r & Hin & Hr); exists r; (split; [|done]).
    + by apply Helem in Hin as [_ ?].
    + apply Helem. split; [|done]. unfold isAgent in Hr. intros Hg. destruct (Hgone _ Hg) as [[] Hk]; cbn in Hk; congruence.
Qed.

Lemma goneOwners_workloads w : workloadOwners (goneOwners w).
Proof. intros e (x & -> & _)%list_elem_of_fmap. by eexists. Qed.
End Owners.

Section Converge.
Context (asSelector : option LabelSelector → (gmap string string → bool) + error) (clock : nat → Time).
Context (md5 : WorkloadSpec → string) (md5Labels : option (gmap string string) → string).
Context (glob_Compile : string → (string → bool) + error) (ddaiName ddaiUID : string) (ddaiGVK : Cluster.GroupVersionKind).
Context (SetControllerReference : WorkloadObject → WorkloadObject + error).
Context (supportsAppArmorProfile : bool) (range : gmap string string → list (string * string)).

Hypothesis Hgvk : gvk_Kind ddaiGVK = "DatadogAgentInternal".
Abbreviation ownerRef := (newDDAIOwnerRef ddaiName ddaiUID ddaiGVK).
(** Selectors with labels alone select by them. *)
Hypothesis Hlabels : ∀ m, asSelector (Some (mkLabelSelector m [])) = inl (matchesLabels m).

(** The workload that was built, with its owner and its final template. *)
Context (built desired : WorkloadObject) (owned_ : WorkloadObject) (m l : gmap string string).
Hypothesis Howned : SetControllerReference built = inl owned_.
Hypothesis Hdesired : finalizeTemplate supportsAppArmorProfile range owned_ = desired.
Hypothesis Hselector : ws_Selector (wo_Spec desired) = Some (mkLabelSelector m []).
Hypothesis Htemplate : tpl_Labels (ws_Template (wo_Spec desired)) = Some l.
Hypothesis Hselects : m ⊆ l.
(** [SetControllerReference] makes the DatadogAgentInternal the owner. *)
Hypothesis Howner : ownerRef ∈ wo_OwnerReferences desired.
Hypothesis Hrefs : shouldUpdateOwnerReference (wo_OwnerReferences desired) = false.

Abbreviation adopt k o failed := (adoptWorkload noFault clock ddaiName ddaiUID ddaiGVK k o failed).

Lemma wp_lookupWorkload k key (Q : World → outcome (option WorkloadObject) → Prop) w :
  served true k = true → (∀ n, Q (set_w_Calls n w) (Ret (w_Objects w !! (k, key)))) → wp (lookupWorkload noFault true k key) Q w.
Proof.
  intros Hs HQ. unfold lookupWorkload. apply wp_bind, wp_attempt, wp_call_ok. intros n. cbn. rewrite Hs. cbn.
  specialize (HQ n). by destruct (w_Objects w !! (k, key)).
Qed.

(** The patched references; nothing else changes. *)
Lemma wp_adopt k key o failed (Q : World → outcome WorkloadObject → Prop) w :
  w_Objects w !! (k, key) = Some o → wo_Key o = key →
  (∀ w' refs, w_Pods w' = w_Pods w → shouldUpdateOwnerReference refs = false →
     (claimed ddaiName ddaiUID ddaiGVK (wo_OwnerReferences o) → ownerRef ∈ refs) →
     (shouldUpdateOwnerReference (wo_OwnerReferences o) = false → refs = wo_OwnerReferences o) →
     w_Objects w' = <[(k, key) := set_wo_OwnerReferences refs o]> (w_Objects w) → Q w' (Ret (set_wo_OwnerReferences refs o))) →
  wp (adopt k o failed) Q w.
Proof.
  intros Ho Hkey HQ. unfold adoptWorkload. destruct (shouldUpdateOwnerReference (wo_OwnerReferences o)) eqn:Hs.
  - apply wp_gets_then, wp_bind, wp_attempt, wp_call_ok. intros n. cbn. rewrite Hkey, Ho. cbn.
    apply wp_ret, HQ; [done|by apply patched_has_no_agent|by apply patched_owner|congruence|done].
  - apply wp_ret. assert (set_wo_OwnerReferences (wo_OwnerReferences o) o = o) as Heq by by destruct o.
    pose proof (HQ w (wo_OwnerReferences o)) as HQw. rewrite Heq in HQw. apply HQw; [done..| |done|by rewrite insert_id].
    intros [|]; [done|congruence].
Qed.

(** ** The workload runs what is desired *)

Definition runs o : Prop :=
  wo_Spec o = wo_Spec desired ∧ wo_Annotations o !! MD5AgentDeploymentAnnotationKey = Some (md5 (wo_Spec desired)) ∧
  ownerRef ∈ wo_OwnerReferences o ∧ shouldUpdateOwnerReference (wo_OwnerReferences o) = false.

(** The hash of the desired spec is on a workload that has this spec, and that the
    DatadogAgentInternal owns or is to take over from a DatadogAgent. *)
Definition truthful o : Prop :=
  wo_Annotations o !! MD5AgentDeploymentAnnotationKey = Some (md5 (wo_Spec desired)) →
  wo_Spec o = wo_Spec desired ∧ claimed ddaiName ddaiUID ddaiGVK (wo_OwnerReferences o).

Lemma runs_truthful o : runs o → truthful o.
Proof. intros (Hs & _ & Ho & _) _. split; [done|by left]. Qed.

Lemma runs_collected gone o :
  workloadOwners gone → runs o → runs (set_wo_OwnerReferences (withoutOwners gone (wo_OwnerReferences o)) o).
Proof.
  intros Hg (Hs & Ha & Ho & Hr). destruct (collected_owners ddaiName ddaiUID ddaiGVK Hgvk gone (wo_OwnerReferences o) Hg) as [H1 H2].
  split_and!; [done..|by apply H1|exact (eq_trans H2 Hr)].
Qed.

Lemma truthful_collected gone o :
  workloadOwners gone → truthful o → truthful (set_wo_OwnerReferences (withoutOwners gone (wo_OwnerReferences o)) o).
Proof.
  intros Hg Ht Ha. destruct (Ht Ha) as [Hs Hc]. split; [done|].
  destruct (collected_owners ddaiName ddaiUID ddaiGVK Hgvk gone (wo_OwnerReferences o) Hg) as [H1 H2].
  destruct Hc as [Hc|Hc]; [left; by apply H1|right; exact (eq_trans H2 Hc)].
Qed.

(** The DaemonSet can be updated: it selects pods by labels alone. *)
Definition plain o : Prop := ∃ labels, ws_Selector (wo_Spec o) = Some (mkLabelSelector labels []).

Lemma runs_plain o : runs o → plain o.
Proof. intros (Hs & _). exists m. by rewrite Hs. Qed.

Lemma keepSelector_same current :
  ws_Selector (wo_Spec current) = Some (mkLabelSelector m []) → wo_Spec (keepSelector current desired) = wo_Spec desired.
Proof.
  intros Hc. unfold keepSelector. rewrite Hc, Htemplate. cbn. rewrite (map_subseteq_union m l Hselects), <- Htemplate, <- Hselector.
  destruct desired as [? ? ? ? ? ? ? [? [] ? ? ?] ?]. done.
Qed.

Lemma selectsTemplate_desired : selectsTemplate asSelector (wo_Spec desired) = true.
Proof.
  unfold selectsTemplate. rewrite Hselector, Htemplate, Hlabels. cbn. apply bool_decide_eq_true.
  by pose proof (proj1 (map_subseteq_spec m l) Hselects).
Qed.

Lemma mergeMetadata_hash current o hash :
  wo_Annotations o !! MD5AgentDeploymentAnnotationKey = Some hash →
  wo_Annotations (mergeMetadata glob_Compile current o) !! MD5AgentDeploymentAnnotationKey = Some hash.
Proof. intros Hh. cbn. unfold mergeAnnotationsLabels. by apply lookup_union_Some_l. Qed.

(** What becomes of the workload of a kind. *)
Inductive applied (restarts : bool) : option WorkloadObject → option WorkloadObject → Prop :=
| AppliedRuns (cur : option WorkloadObject) o' : wo_Deleting o' = match cur with Some c => wo_Deleting c | None => false end →
    wo_Key o' = wo_Key desired → runs o' → applied restarts cur (Some o')
| AppliedRestart o o' : restarts = true → wo_Key o' = wo_Key desired → wo_Deleting o' = true → applied restarts (Some o) (Some o').

Definition applies (k : WorkloadKind) (restarts : bool) w w' (r : outcome Result) : Prop :=
  r = Ret zeroResult ∧ w_Pods w' = w_Pods w ∧
  (∀ i, i ≠ (k, wo_Key desired) → w_Objects w' !! i = w_Objects w !! i) ∧
  applied restarts (w_Objects w !! (k, wo_Key desired)) (w_Objects w' !! (k, wo_Key desired)) ∧
  (∀ o, w_Objects w !! (k, wo_Key desired) = Some o → runs o → w_Objects w' !! (k, wo_Key desired) = Some o).

Lemma changeStatus_keeps f w : w_Objects (changeStatus f w).1 = w_Objects w ∧ w_Pods (changeStatus f w).1 = w_Pods w.
Proof. done. Qed.

(** A status update that succeeds leaves the cluster alone. *)
Definition quiet (u : M unit) : Prop := ∀ w, wp u (λ w' r, r = Ret tt ∧ w_Objects w' = w_Objects w ∧ w_Pods w' = w_Pods w) w.

Lemma quiet_modify f : (∀ w, w_Objects (f w) = w_Objects w ∧ w_Pods (f w) = w_Pods w) → quiet (modify f).
Proof. intros Hf w. apply wp_modify. split; [done|apply Hf]. Qed.

Lemma quiet_then u v : quiet u → quiet v → quiet (_ ← u; v).
Proof.
  intros Hu Hv w. apply wp_bind. eapply wp_mono; [apply Hu|]. intros w1 r (-> & Ho & Hp). eapply wp_mono; [apply Hv|].
  intros w2 r (-> & Ho2 & Hp2). by rewrite Ho2, Hp2.
Qed.

Lemma quiet_changeStatus f : quiet (changeStatus f).
Proof. by apply quiet_modify. Qed.

Lemma quiet_condition now t s r msg b : quiet (UpdateDatadogAgentInternalStatusConditions now t s r msg b).
Proof. apply quiet_changeStatus. Qed.

Lemma quiet_statusDS n ds t s r msg : quiet (updateDSStatusV2WithAgent n ds t s r msg).
Proof. apply quiet_then; [apply quiet_changeStatus|apply quiet_condition]. Qed.

Lemma quiet_statusEDS eds t s r msg : quiet (updateEDSStatusV2WithAgent (Some eds) t s r msg).
Proof. apply quiet_then; [apply quiet_changeStatus|apply quiet_condition]. Qed.

Lemma wp_quiet {B} (u : M unit) (k : unit → M B) (Q : World → outcome B → Prop) w :
  quiet u → (∀ w', w_Objects w' = w_Objects w → w_Pods w' = w_Pods w → wp (k tt) Q w') → wp (u ≫= k) Q w.
Proof. intros Hu HQ. apply wp_bind. eapply wp_mono; [apply Hu|]. intros w' r (-> & Ho & Hp). by apply HQ. Qed.

Abbreviation hashed o := (SetMD5DatadogAgentGenerationAnnotation md5 o).

Lemma hashed_runs o :
  wo_Spec o = wo_Spec desired → ownerRef ∈ wo_OwnerReferences o →
  shouldUpdateOwnerReference (wo_OwnerReferences o) = false → runs (hashed o).1.
Proof. intros Hs Ho Hr. split_and!; [done| |done..]. cbn. by rewrite Hs, lookup_insert_eq. Qed.

(** Insertion at the key of the workload. *)
Lemma applies_insert k restarts w w' (cur : option WorkloadObject) o' r :
  r = Ret zeroResult → w_Pods w' = w_Pods w → w_Objects w !! (k, wo_Key desired) = cur →
  w_Objects w' = <[(k, wo_Key desired) := o']> (w_Objects w) → applied restarts cur (Some o') →
  (∀ o, cur = Some o → runs o → o' = o) → applies k restarts w w' r.
Proof.
  intros Hr Hp Ho Hw Ha Hs. split_and!; [done..| | |].
  - intros i Hi. rewrite Hw. by rewrite lookup_insert_ne.
  - by rewrite Ho, Hw, lookup_insert_eq.
  - intros o Hcur Hruns. rewrite Hw, lookup_insert_eq. f_equal. apply Hs; [congruence|done].
Qed.

Lemma wp_createDaemonset w :
  w_Objects w !! (KDaemonSet, wo_Key desired) = None →
  wp (createDaemonset noFault true asSelector clock md5 updateDSStatusV2WithAgent desired) (applies KDaemonSet true w) w.
Proof.
  intros Hn. unfold createDaemonset. cbn [SetMD5DatadogAgentGenerationAnnotation]. apply wp_gets_then, wp_bind, wp_attempt, wp_call_ok.
  intros n. cbn. change (wo_Key (set_wo_Annotations _ desired)) with (wo_Key desired). rewrite Hn.
  change (wo_Spec (set_wo_Annotations _ desired)) with (wo_Spec desired). rewrite selectsTemplate_desired. cbn.
  apply wp_modify_then. apply wp_quiet; [apply quiet_statusDS|]. intros w' Ho Hp. apply wp_ret.
  eapply applies_insert; [done|done|done|exact Ho| |done]. apply AppliedRuns; [done..|].
  by destruct (hashed_runs desired eq_refl Howner Hrefs) as (? & ? & ? & ?).
Qed.

(** A current workload, once adopted. *)
Definition adopted o : Prop :=
  shouldUpdateOwnerReference (wo_OwnerReferences o) = false ∧
  (wo_Annotations o !! MD5AgentDeploymentAnnotationKey = Some (md5 (wo_Spec desired)) → runs o).

Lemma adopted_by current refs :
  truthful current → shouldUpdateOwnerReference refs = false →
  (claimed ddaiName ddaiUID ddaiGVK (wo_OwnerReferences current) → ownerRef ∈ refs) →
  adopted (set_wo_OwnerReferences refs current).
Proof. intros Ht Hno Hown. split; [done|]. intros Ha. destruct (Ht Ha) as [Hs Hc]. repeat split; [done..|by apply Hown|done]. Qed.

Lemma wp_updateDaemonset w current :
  w_Objects w !! (KDaemonSet, wo_Key desired) = Some current → wo_Key current = wo_Key desired →
  ws_Selector (wo_Spec current) = Some (mkLabelSelector m []) → adopted current →
  wp (updateDaemonset noFault true asSelector clock md5 md5Labels glob_Compile updateDSStatusV2WithAgent desired current)
    (applies KDaemonSet true w) w.
Proof.
  intros Ho Hkey Hsel [Hcur Hruns]. unfold updateDaemonset. apply wp_gets_then. cbn [SetMD5DatadogAgentGenerationAnnotation].
  pose proof (keepSelector_same current Hsel) as Hspec. cbn [wo_Spec set_wo_Annotations]. rewrite Hspec.
  destruct (negb _) eqn:Hneed.
  - apply negb_true_iff, orb_false_iff in Hneed as [Hhash%negb_false_iff _].
    apply bool_decide_eq_true in Hhash. apply wp_quiet; [apply quiet_changeStatus|]. intros w' Hobj Hp. apply wp_ret.
    split_and!; [done..|by intros; rewrite Hobj| |by rewrite Hobj]. rewrite Hobj, Ho. by apply AppliedRuns, Hruns.
  - set (u := set_wo_Labels _ _). assert (wo_Spec u = wo_Spec desired) as Hu by exact Hspec.
    assert (wo_Key u = wo_Key desired) as Huk by done. assert (wo_OwnerReferences u = wo_OwnerReferences desired) as Hur by done.
    assert (wo_Annotations u !! MD5AgentDeploymentAnnotationKey = Some (md5 (wo_Spec desired))) as Hua.
    { unfold u. cbn [wo_Annotations set_wo_Labels]. apply mergeMetadata_hash. cbn. by rewrite lookup_insert_eq. }
    clearbody u. apply wp_bind, wp_attempt, wp_call_ok. intros n. cbn. rewrite Huk, Ho, Hu, Hselector, Hsel, bool_decide_true by done.
    rewrite selectsTemplate_desired. cbn [negb andb selectorChecked].
    apply wp_modify_then. apply wp_quiet; [apply quiet_statusDS|]. intros w' Hobj Hp. apply wp_ret.
    cbn in Hobj. change (wo_Key (keepServerFields current u)) with (wo_Key u) in Hobj. rewrite Huk in Hobj.
    eapply applies_insert; [done|done|exact Ho|exact Hobj| |].
    + apply AppliedRuns; [done|exact Huk|]. split; [exact Hu|]. split; [exact Hua|].
      change (ownerRef ∈ wo_OwnerReferences u ∧ shouldUpdateOwnerReference (wo_OwnerReferences u) = false). by rewrite Hur.
    + intros o [= <-] (Hs & Ha & _). exfalso. revert Hneed. unfold IsSameSpecMD5Hash, IsSameMD5Hash.
      by rewrite Ha, Hs, !bool_decide_true.
Qed.

(** *** The whole step *)

Lemma applies_adopted k restarts w w1 w' current refs r :
  w_Objects w !! (k, wo_Key desired) = Some current → w_Pods w1 = w_Pods w →
  (shouldUpdateOwnerReference (wo_OwnerReferences current) = false → refs = wo_OwnerReferences current) →
  w_Objects w1 = <[(k, wo_Key desired) := set_wo_OwnerReferences refs current]> (w_Objects w) →
  applies k restarts w1 w' r → applies k restarts w w' r.
Proof.
  intros Ho Hp Hsame Hw1 (-> & Hp' & Hothers & Happ & Hstable). split_and!; [done|by rewrite Hp'| | |].
  - intros i Hi. rewrite Hothers, Hw1 by done. by rewrite lookup_insert_ne.
  - rewrite Hw1, lookup_insert_eq in Happ. rewrite Ho. remember (w_Objects w' !! _) as cur' eqn:Hc. clear Hc.
    inversion Happ; subst; [by apply AppliedRuns|by apply AppliedRestart].
  - intros o Hcur Hruns. rewrite Ho in Hcur. injection Hcur as <-. apply Hstable; [|done].
    rewrite Hw1, lookup_insert_eq, Hsame by apply Hruns. by destruct current.
Qed.

Lemma wp_restartDaemonset w current labels (Q : World → outcome bool → Prop) :
  ws_Selector (wo_Spec current) = Some (mkLabelSelector labels []) → wo_Key current = wo_Key desired →
  Q w (Ret (negb (bool_decide (m = labels)))) → wp (restartDaemonset desired current) Q w.
Proof.
  intros Hs Hk HQ. unfold restartDaemonset, restartWorkload. injection Hk as _ Hn. rewrite Hn, bool_decide_true by done.
  rewrite Hselector, Hs. by apply wp_ret.
Qed.

Lemma wp_deleteForRestart w k current :
  served true k = true → w_Objects w !! (k, wo_Key desired) = Some current → wo_Key current = wo_Key desired → ¬ runs current →
  wp (_ ← unlessNotFound (Workloads.Delete noFault true k (wo_Key current) true); mret zeroResult) (applies k true w) w.
Proof.
  intros Hs Ho Hk Hn. apply wp_bind, wp_bind, wp_attempt, wp_call_ok. intros n. cbn. rewrite Hs, Hk, Ho. cbn.
  eapply applies_insert; [done|done|exact Ho|done|by apply AppliedRestart|]. intros o [= <-] Hr. by destruct Hn.
Qed.

Lemma wp_createOrUpdateDaemonset w :
  well_keyed w → (∀ o, w_Objects w !! (KDaemonSet, wo_Key desired) = Some o → plain o ∧ truthful o) →
  wp (createOrUpdateDaemonset noFault true asSelector clock md5 md5Labels glob_Compile ddaiName ddaiUID ddaiGVK
        SetControllerReference supportsAppArmorProfile range updateDSStatusV2WithAgent built) (applies KDaemonSet true w) w.
Proof.
  intros Hkeyed Hcur. unfold createOrUpdateDaemonset. apply wp_of_sum; [by rewrite Howned|]. rewrite Howned. intros o' [= <-].
  rewrite Hdesired. apply wp_bind, wp_lookupWorkload; [done|]. intros n.
  destruct (w_Objects w !! (KDaemonSet, wo_Key desired)) as [current|] eqn:Ho; [|by apply (wp_createDaemonset (set_w_Calls n w))].
  destruct (Hcur current eq_refl) as [[labels Hsel] Htrue]. pose proof (Hkeyed _ _ _ Ho) as Hkey.
  apply wp_bind, (wp_adopt KDaemonSet (wo_Key desired) current _ _ (set_w_Calls n w) Ho Hkey). intros w1 refs Hp Hno Hown Hsame Hw1.
  set (current' := set_wo_OwnerReferences refs current) in *.
  assert (w_Objects w1 !! (KDaemonSet, wo_Key desired) = Some current') as Ho1 by (rewrite Hw1; by rewrite lookup_insert_eq).
  apply wp_bind, (wp_restartDaemonset w1 current' labels); [done|done|].
  destruct (bool_decide (m = labels)) eqn:Hm; cbn [negb].
  - apply bool_decide_eq_true in Hm as <-.
    eapply wp_mono; [apply (wp_updateDaemonset w1 current'); [done..|by apply adopted_by]|].
    intros w' r Happ. by apply (applies_adopted _ _ w w1 w' current refs).
  - apply bool_decide_eq_false in Hm. eapply wp_mono; [apply (wp_deleteForRestart w1 KDaemonSet current'); try done|].
    + intros (Hs & _). apply Hm. cbn in Hs. rewrite Hs, Hselector in Hsel. by injection Hsel.
    + intros w' r Happ. by apply (applies_adopted _ _ w w1 w' current refs).
Qed.

(** *** ExtendedDaemonSets *)

Abbreviation desiredEDS := (set_wo_Annotations (<[MD5AgentDeploymentAnnotationKey := md5 (wo_Spec desired)]> (wo_Annotations desired)) desired).

Lemma wp_createExtendedDaemonset w :
  w_Objects w !! (KExtendedDaemonSet, wo_Key desired) = None →
  wp (createExtendedDaemonset noFault true asSelector clock updateEDSStatusV2WithAgent desiredEDS) (applies KExtendedDaemonSet false w) w.
Proof.
  intros Hn. unfold createExtendedDaemonset. apply wp_gets_then, wp_bind, wp_attempt, wp_call_ok.
  intros n. cbn. change (wo_Key (set_wo_Annotations _ desired)) with (wo_Key desired). rewrite Hn. cbn.
  apply wp_modify_then. apply wp_quiet; [apply quiet_statusEDS|]. intros w' Ho Hp. apply wp_ret.
  eapply applies_insert; [done|done|done|exact Ho| |done]. apply AppliedRuns; [done..|].
  by destruct (hashed_runs desired eq_refl Howner Hrefs) as (? & ? & ? & ?).
Qed.

Lemma wp_updateExtendedDaemonset w current :
  w_Objects w !! (KExtendedDaemonSet, wo_Key desired) = Some current → wo_Key current = wo_Key desired → adopted current →
  wp (updateExtendedDaemonset noFault true asSelector clock glob_Compile updateEDSStatusV2WithAgent desiredEDS current (md5 (wo_Spec desired)))
    (applies KExtendedDaemonSet false w) w.
Proof.
  intros Ho Hkey [Hcur Hruns]. unfold updateExtendedDaemonset. destruct (IsSameSpecMD5Hash _ _) eqn:Hhash.
  - apply bool_decide_eq_true in Hhash. apply wp_gets_then, wp_quiet; [apply quiet_changeStatus|]. intros w' Hobj Hp. apply wp_ret.
    split_and!; [done..|by intros; rewrite Hobj| |by rewrite Hobj]. rewrite Hobj, Ho. by apply AppliedRuns, Hruns.
  - apply bool_decide_eq_false in Hhash. set (u := mergeMetadata _ _ _).
    assert (wo_Annotations u !! MD5AgentDeploymentAnnotationKey = Some (md5 (wo_Spec desired))) as Hua.
    { apply mergeMetadata_hash. cbn. by rewrite lookup_insert_eq. }
    assert (wo_Spec u = wo_Spec desired) as Hu by done. assert (wo_Key u = wo_Key desired) as Huk by done.
    assert (wo_OwnerReferences u = wo_OwnerReferences desired) as Hur by done. clearbody u.
    apply wp_gets_then, wp_bind, wp_attempt, wp_call_ok. intros n. cbn -[updateEDSStatusV2WithAgent]. rewrite Huk, Ho.
    cbn -[updateEDSStatusV2WithAgent]. apply wp_modify_then. apply wp_quiet; [apply quiet_statusEDS|]. intros w' Hobj Hp. apply wp_ret.
    cbn in Hobj. change (wo_Key (keepServerFields current u)) with (wo_Key u) in Hobj. rewrite Huk in Hobj.
    eapply applies_insert; [done|done|exact Ho|exact Hobj| |].
    + apply AppliedRuns; [done|exact Huk|]. split; [exact Hu|]. split; [exact Hua|].
      change (ownerRef ∈ wo_OwnerReferences u ∧ shouldUpdateOwnerReference (wo_OwnerReferences u) = false). by rewrite Hur.
    + intros o [= <-] (_ & Ha & _). exfalso. by apply Hhash.
Qed.

Lemma wp_createOrUpdateExtendedDaemonset w :
  well_keyed w → (∀ o, w_Objects w !! (KExtendedDaemonSet, wo_Key desired) = Some o → truthful o) →
  wp (createOrUpdateExtendedDaemonset noFault true asSelector clock md5 glob_Compile ddaiName ddaiUID ddaiGVK
        SetControllerReference supportsAppArmorProfile range updateEDSStatusV2WithAgent built) (applies KExtendedDaemonSet false w) w.
Proof.
  intros Hkeyed Hcur. unfold createOrUpdateExtendedDaemonset. apply wp_of_sum; [by rewrite Howned|]. rewrite Howned. intros o' [= <-].
  rewrite Hdesired. cbn [SetMD5DatadogAgentGenerationAnnotation]. apply wp_bind, wp_lookupWorkload; [done|]. intros n.
  change (wo_Key (set_wo_Annotations _ desired)) with (wo_Key desired).
  destruct (w_Objects w !! (KExtendedDaemonSet, wo_Key desired)) as [current|] eqn:Ho;
    [|by apply (wp_createExtendedDaemonset (set_w_Calls n w))].
  pose proof (Hkeyed _ _ _ Ho) as Hkey.
  apply wp_bind, (wp_adopt KExtendedDaemonSet (wo_Key desired) current _ _ (set_w_Calls n w) Ho Hkey). intros w1 refs Hp Hno Hown Hsame Hw1.
  eapply wp_mono; [apply (wp_updateExtendedDaemonset w1 (set_wo_OwnerReferences refs current))|].
  - by rewrite Hw1, lookup_insert_eq.
  - exact Hkey.
  - apply adopted_by; [exact (Hcur current eq_refl)|done..].
  - intros w' r Happ. by apply (applies_adopted _ _ w w1 w' current refs).
Qed.
End Converge.
