(* ===== verification/InternalTheorems.v ===== *)
(** * The node agent converges.

    Rounds of the node agent's reconcile and of the garbage collector replace an
    ExtendedDaemonSet by a DaemonSet that runs what is desired, or the other way
    round, and then change nothing any more. *)

From Stdlib Require Import ZArith Ascii Lia.
From stdpp Require Import base gmap strings list.
From S2P Require Import Prelude GoRun Cluster Status Profiles Remote FleetData PodMerger Untaint Objects Override.
From S2P Require Import Workloads Migration MigrationTheorems MigrationRounds InternalWorkloads InternalFacts.
From S2P Require Import InternalComponents InternalAgent.

Implicit Types (w : World) (o : WorkloadObject).

(** ** The checksum of ConfigMaps does not depend on the workloads *)

Section Checksum.
Context (configMaps : NamespacedName → configMapContent + error).

Fixpoint readContents (namespace : string) (names : list string) (contents : gmap string configMapContent) :
    gmap string configMapContent + error :=
  match names with
  | [] => inl contents
  | n :: names =>
      match configMaps (namespace, n) with
      | inl cm => readContents namespace names (<[n := cm]> contents)
      | inr err => if IsNotFound err then readContents namespace names contents else inr err
      end
  end.

Definition checksummed (namespace : string) (pod : PodTemplateSpec json) : PodTemplateSpec json + error :=
  let names := referencedConfigMapNames pod in
  if bool_decide (length names = 0) then inl pod
  else match readContents namespace names ∅ with
       | inr err => inr err
       | inl contents =>
           if bool_decide (size contents = 0) then inl pod
           else inl (set_pod_Annotations
                  (Some (<[ConfigMapsChecksumAnnotationKey := hashConfigMapContents contents]> (default ∅ (pod_Annotations pod)))) pod)
       end.

Definition outcomeOf {A} (r : A + error) : outcome A := match r with inl a => Ret a | inr e => Fail e end.

Lemma wp_readConfigMaps namespace names contents (Q : World → outcome (gmap string configMapContent) → Prop) w :
  (∀ n, Q (set_w_Calls n w) (outcomeOf (readContents namespace names contents))) →
  wp (readConfigMaps noFault configMaps namespace names contents) Q w.
Proof.
  revert contents w. induction names as [|n names IH]; intros contents w HQ.
  - apply wp_ret. specialize (HQ (w_Calls w)). by destruct w.
  - cbn. apply wp_bind, wp_attempt, wp_call_ok. intros k. cbn in *. destruct (configMaps (namespace, n)) as [cm|err]; cbn.
    + apply IH. intros k'. apply HQ.
    + destruct (IsNotFound err); [apply IH; intros k'; apply HQ|]. apply wp_fail. apply HQ.
Qed.

Lemma wp_annotateConfigMapsChecksum namespace pod (Q : World → outcome (PodTemplateSpec json) → Prop) w :
  (∀ n, Q (set_w_Calls n w) (outcomeOf (checksummed namespace pod))) →
  wp (annotateConfigMapsChecksum noFault configMaps namespace pod) Q w.
Proof.
  unfold annotateConfigMapsChecksum, checksummed. intros HQ. case_bool_decide as Hlen.
  - apply wp_ret. specialize (HQ (w_Calls w)). by destruct w.
  - apply wp_bind, wp_readConfigMaps. intros n. destruct (readContents _ _ _) as [contents|err]; cbn in *; [|apply HQ].
    case_bool_decide; apply wp_ret, HQ.
Qed.

(** The workload with the checksum, where that is asked for. *)
Definition checkedWorkload (enabled : bool) (namespace : string) o : WorkloadObject + error :=
  if enabled
  then match checksummed namespace (tpl_Pod (template o)) with
       | inl pod => inl (set_template (set_tpl_Pod pod (template o)) o)
       | inr err => inr err
       end
  else inl o.

Lemma wp_withChecksum enabled ddai o (Q : World → outcome WorkloadObject → Prop) w :
  (∀ n, Q (set_w_Calls n w) (outcomeOf (checkedWorkload enabled (own_Namespace ddai) o))) →
  wp (withChecksum noFault configMaps enabled ddai o) Q w.
Proof.
  unfold withChecksum, checkedWorkload. intros HQ. destruct enabled.
  - apply wp_bind, wp_annotateConfigMapsChecksum. intros n. specialize (HQ n).
    destruct (checksummed _ _); cbn in *; [by apply wp_ret|apply HQ].
  - apply wp_ret. specialize (HQ (w_Calls w)). by destruct w.
Qed.
End Checksum.

(** ** The garbage collector *)

Lemma goneOwners_nil w : (∀ k o, w_Objects w !! k = Some o → wo_Deleting o = false) → goneOwners w = [].
Proof.
  intros Hd. unfold goneOwners. destruct (filter _ _) as [|[k o] l] eqn:Hf; [done|]. exfalso.
  assert ((k, o) ∈ filter (λ e : (WorkloadKind * NamespacedName) * WorkloadObject, wo_Deleting e.2 = true)
                     (map_to_list (w_Objects w))) as Hin by (rewrite Hf; left).
  apply list_elem_of_filter in Hin as [Hdel Hin]. apply elem_of_map_to_list in Hin. specialize (Hd _ _ Hin). cbn in Hdel. congruence.
Qed.

(** Nothing is being deleted. *)
Definition calm w : Prop := ∀ k o, w_Objects w !! k = Some o → wo_Deleting o = false.

Lemma calm_collect w : calm (collect w).
Proof. intros k o (o0 & _ & Hd & refs & ->)%collect_Some. done. Qed.

Lemma collect_calm w : calm w → w_Objects (collect w) = w_Objects w.
Proof.
  intros Hc. apply map_eq. intros k. rewrite collect_lookup, (goneOwners_nil w Hc).
  destruct (w_Objects w !! k) as [o|] eqn:Ho; [|done]. cbn. unfold collectObject. rewrite (Hc _ _ Ho), withoutOwners_nil.
  by destruct o.
Qed.

(** ** To a DaemonSet *)

Section DaemonSets.
Context (asSelector : option LabelSelector → (gmap string string → bool) + error) (clock : nat → Time).
Context (md5 : WorkloadSpec → string) (md5Labels : option (gmap string string) → string).
Context (glob_Compile : string → (string → bool) + error) (ddaiGVK : Cluster.GroupVersionKind).
Context (SetControllerReference : WorkloadObject → WorkloadObject + error).
Context (supportsAppArmorProfile : bool) (range : gmap string string → list (string * string)).
Context (configMaps : NamespacedName → configMapContent + error) (rollout : bool) (labelKey : string) (ddai : Owner).
(** The DaemonSet that was built, and what it becomes. *)
Context (daemonSet built owned_ desired : WorkloadObject) (m l : gmap string string).

Hypothesis Hgvk : gvk_Kind ddaiGVK = "DatadogAgentInternal".
Hypothesis Hlabels : ∀ m, asSelector (Some (mkLabelSelector m [])) = inl (matchesLabels m).
Hypothesis Hbuilt : checkedWorkload configMaps rollout (own_Namespace ddai) daemonSet = inl built.
Hypothesis Howned : SetControllerReference built = inl owned_.
Hypothesis Hdesired : finalizeTemplate supportsAppArmorProfile range owned_ = desired.
Hypothesis Hkey : wo_Key desired = wo_Key daemonSet.
Hypothesis Hsel : ws_Selector (wo_Spec daemonSet) = Some (mkLabelSelector m []).
Hypothesis Hselector : ws_Selector (wo_Spec desired) = Some (mkLabelSelector m []).
Hypothesis Htemplate : tpl_Labels (ws_Template (wo_Spec desired)) = Some l.
Hypothesis Hselects : m ⊆ l.
Hypothesis Howner : newDDAIOwnerRef (own_Name ddai) (own_UID ddai) ddaiGVK ∈ wo_OwnerReferences desired.
Hypothesis Hrefs : shouldUpdateOwnerReference (wo_OwnerReferences desired) = false.

Abbreviation selector := (mkLabelSelector m []).
Abbreviation selects := (matchesLabels m).
Abbreviation toDS := (toDS asSelector labelKey daemonSet).
Abbreviation its_pod := (its_pod labelKey daemonSet).
Abbreviation owned := (owned labelKey daemonSet).
Abbreviation good := (good labelKey daemonSet selects).
Abbreviation oldEDS w := (w_Objects w !! (KExtendedDaemonSet, wo_Key daemonSet)).
Abbreviation oldRS := (replicaSets labelKey (wo_Namespace daemonSet) (wo_Name daemonSet)).
Abbreviation ds_at w := (w_Objects w !! (KDaemonSet, wo_Key desired)).
Abbreviation runs := (runs md5 (own_Name ddai) (own_UID ddai) ddaiGVK desired).

Definition applyDS : M Result :=
  applyDaemonSet noFault true asSelector clock md5 md5Labels glob_Compile ddaiGVK SetControllerReference supportsAppArmorProfile
    range configMaps rollout labelKey ddai daemonSet.

Definition agentRound w : World := collect (applyDS w).1.
Definition agentRounds (n : nat) w : World := Nat.iter n agentRound w.

(** A DaemonSet that is there already can be updated, and is what its annotation says. *)
Definition updatable w : Prop := ∀ o, ds_at w = Some o → plain o ∧ truthful md5 (own_Name ddai) (own_UID ddai) ddaiGVK desired o.

Record inv w : Prop := mkInv { inv_keyed : well_keyed w; inv_owned : owned w; inv_updatable : updatable w }.

(** The way is free for the DaemonSet. *)
Definition handed w : Prop := (toDS w).2 = Ret (false, zeroResult).

Lemma toDS_outcome w : well_keyed w → wp toDS (ds_case labelKey daemonSet selector selects w) w.
Proof. intros Hw. by apply toDS_case. Qed.

(** A migration step that is requeued is the whole round. *)
Lemma round_handled w : well_keyed w → ¬ handed w → agentRound w = roundDS asSelector labelKey daemonSet w.
Proof.
  intros Hw Hn. unfold agentRound, roundDS, applyDS, applyDaemonSet. f_equal. pose proof (toDS_outcome w Hw) as Hcase.
  unfold wp in Hcase. unfold handed in Hn. unfold MigrationRounds.toDS in *.
  destruct (migrateExtendedDaemonSetToDaemonSet _ _ _ _ _ w) as [w' r] eqn:Hm. cbn in *.
  unfold mbind, GoM_bind. rewrite Hm. by inversion Hcase; subst.
Qed.

(** Else the DaemonSet is created, updated or restarted. *)
Lemma round_handed w :
  inv w → handed w →
  oldEDS w = None ∧ oldRS w = [] ∧ good w ∧ applies md5 (own_Name ddai) (own_UID ddai) ddaiGVK desired KDaemonSet true w (applyDS w).1 (applyDS w).2.
Proof.
  intros Hinv Hh. pose proof (toDS_outcome w (inv_keyed w Hinv)) as Hcase. unfold handed in Hh.
  enough (oldEDS w = None ∧ oldRS w = [] ∧ good w ∧ wp applyDS (applies md5 (own_Name ddai) (own_UID ddai) ddaiGVK desired KDaemonSet true w) w) by done.
  unfold applyDS, applyDaemonSet. unfold wp in Hcase. unfold MigrationRounds.toDS in *.
  destruct (migrateExtendedDaemonSetToDaemonSet _ _ _ _ _ w) as [w' r] eqn:Hm. cbn in Hcase, Hh. subst r.
  inversion Hcase as [| | |w1 He Hr Ho Hp Hgood]; subst w1; try done. split_and!; [done..|].
  apply wp_bind. unfold wp at 1. rewrite Hm. cbn -[applies]. apply wp_bind, wp_withChecksum. intros n. rewrite Hbuilt. cbn -[applies].
  eapply wp_mono; [eapply (wp_createOrUpdateDaemonset asSelector clock md5 md5Labels glob_Compile (own_Name ddai) (own_UID ddai) ddaiGVK
    SetControllerReference supportsAppArmorProfile range Hgvk Hlabels built desired owned_ m l); try done|].
  - intros k key o. cbn. rewrite Ho. apply (inv_keyed w Hinv).
  - intros o. cbn. rewrite Ho. apply (inv_updatable w Hinv).
  - intros w2 r (-> & Hp2 & Hothers & Happ & Hstable). cbn in *. rewrite Ho in *. split_and!; [done|by rewrite Hp2|done..].
Qed.

(** *** What a round keeps *)

Lemma updatable_collect w : updatable w → updatable (collect w).
Proof.
  intros Hu o (o0 & Ho0 & _ & ->)%collect_found. destruct (Hu o0 Ho0) as [Hp Ht]. split; [exact Hp|].
  apply truthful_collected; [done|by apply goneOwners_workloads|done].
Qed.

Lemma toDS_keeps_daemonset w w' r : ds_case labelKey daemonSet selector selects w w' r → ds_at w' = ds_at w.
Proof.
  intros [o w1 _ _ Ho|w1 _ _ _ Hm _|w1 _ _ Ho _ _ _|w1 _ _ Ho _ _]; try (by rewrite Ho).
  - by rewrite Ho, lookup_insert_ne.
  - by destruct (Hm (KDaemonSet, wo_Key desired)) as [->|[? _]].
Qed.

Lemma handled_updatable w : inv w → ¬ handed w → updatable (agentRound w).
Proof.
  intros Hinv Hn. rewrite round_handled by (done || apply Hinv). pose proof (toDS_outcome w (inv_keyed w Hinv)) as Hcase.
  apply updatable_collect. intros o. unfold wp in Hcase. rewrite (toDS_keeps_daemonset _ _ _ Hcase). apply (inv_updatable w Hinv).
Qed.

Lemma applies_well_keyed w w' r : well_keyed w → applies md5 (own_Name ddai) (own_UID ddai) ddaiGVK desired KDaemonSet true w w' r → well_keyed w'.
Proof.
  intros Hw (_ & _ & Hothers & Happ & _) k key o Ho. destruct (decide ((k, key) = (KDaemonSet, wo_Key desired))) as [[= -> ->]|Hne].
  - rewrite Ho in Happ. by inversion Happ.
  - rewrite Hothers in Ho by done. by apply (Hw k key).
Qed.

(** After the DaemonSet was applied. *)
Lemma handed_inv w : inv w → handed w → inv (agentRound w).
Proof.
  intros Hinv Hh. destruct (round_handed w Hinv Hh) as (He & Hr & Hg & Happ). unfold agentRound. split.
  - eapply collect_well_keyed, applies_well_keyed; [apply Hinv|exact Happ].
  - destruct Happ as (_ & Hp & Hothers & _). apply (owned_collect labelKey daemonSet w); [apply Hinv| |].
    + apply rs_stay_same. intros key. by apply Hothers.
    + intros key p (Hk & ?). left. by rewrite Hp in Hk.
  - intros o (o0 & Ho0 & Hd & ->)%collect_found. destruct Happ as (_ & _ & _ & Happ & _). rewrite Ho0 in Happ.
    inversion Happ as [cur o' _ Hk Hruns|o1 o' _ Hk Hd']; subst; [|congruence].
    split; [exact (runs_plain _ _ _ _ _ _ Hselector o0 Hruns)|].
    apply truthful_collected; [done|by apply goneOwners_workloads|exact (runs_truthful _ _ _ _ _ o0 Hruns)].
Qed.
(** *** Rounds *)

Lemma handed_dec w : well_keyed w → handed w ∨ ¬ handed w.
Proof.
  intros Hw. pose proof (toDS_outcome w Hw) as Hcase. unfold wp in Hcase. unfold handed. destruct (toDS w) as [w' r]. cbn in *.
  inversion Hcase; subst; auto; by right.
Qed.

Lemma handled_progress w :
  inv w → ¬ handed w →
  inv (agentRound w) ∧ (handed (agentRound w) ∨
    remainingDS labelKey daemonSet (agentRound w) < remainingDS labelKey daemonSet w).
Proof.
  intros Hinv Hn. pose proof (handled_updatable w Hinv Hn) as Hu. rewrite round_handled in * by (done || apply Hinv).
  destruct (roundDS_progress asSelector labelKey daemonSet selector selects Hsel (Hlabels m) w (inv_keyed w Hinv) (inv_owned w Hinv))
    as [Hh|(Hk & Ho & Hend)]; [by destruct Hn|]. split; [by split|exact Hend].
Qed.

Lemma agentRounds_S n w : agentRounds n (agentRound w) = agentRounds (S n) w.
Proof. unfold agentRounds. by rewrite Nat.iter_succ_r. Qed.

(** The migration is over after three rounds. *)
Lemma reaches_handed w : inv w → ∃ n, n ≤ 3 ∧ handed (agentRounds n w) ∧ inv (agentRounds n w).
Proof.
  intros Hinv. enough (∃ n, n ≤ remainingDS labelKey daemonSet w ∧ handed (agentRounds n w) ∧ inv (agentRounds n w)) as (n & Hn & H).
  { exists n. split; [|done]. unfold remainingDS in Hn. repeat case_match; lia. }
  remember (remainingDS labelKey daemonSet w) as r eqn:Hr. revert w Hr Hinv. induction (lt_wf r) as [r _ IH]. intros w -> Hinv.
  destruct (handed_dec w (inv_keyed w Hinv)) as [Hh|Hn]; [exists 0; split; [lia|done]|].
  destruct (handled_progress w Hinv Hn) as [Hinv' [Hh|Hlt]].
  - exists 1. split; [unfold remainingDS; repeat case_match; lia|done].
  - destruct (IH _ Hlt (agentRound w) eq_refl Hinv') as (n & Hle & Hend). exists (S n). rewrite <- agentRounds_S. split; [lia|done].
Qed.

(** Nothing of the ExtendedDaemonSet is left, and nothing is being deleted. *)
Definition clean w : Prop := oldEDS w = None ∧ oldRS w = [] ∧ calm w.

Definition fresh w : Prop := ∀ o, ds_at w = Some o → runs o.

Lemma clean_collect w w' :
  clean w → (∀ i, i ≠ (KDaemonSet, wo_Key desired) → w_Objects w' !! i = w_Objects w !! i) → clean (collect w').
Proof.
  intros (He & Hr & _) Hothers. split_and!; [|apply (replicaSets_collect _ _ _ w); [|done]|apply calm_collect].
  - apply collect_None. by rewrite Hothers.
  - intros key. by apply Hothers.
Qed.

Lemma fresh_collect w : (∀ o, ds_at w = Some o → wo_Deleting o = false → runs o) → fresh (collect w).
Proof.
  intros Hr o. rewrite collect_lookup. intros (o0 & Ho0 & Hc)%bind_Some. unfold collectObject in Hc.
  destruct (wo_Deleting o0) eqn:Hd; [done|]. injection Hc as <-.
  apply runs_collected; [done|by apply goneOwners_workloads|by apply Hr].
Qed.

Lemma fresh_round w : inv w → handed w → clean (agentRound w) ∧ fresh (agentRound w).
Proof.
  intros Hinv Hh. destruct (round_handed w Hinv Hh) as (He & Hr & Hg & _ & _ & Hothers & Happ & _). unfold agentRound. split.
  - split_and!; [|apply (replicaSets_collect _ _ _ w); [|done]|apply calm_collect].
    + apply collect_None. by rewrite Hothers.
    + intros key. by apply Hothers.
  - apply fresh_collect. intros o Ho Hd. rewrite Ho in Happ. inversion Happ; subst; [done|congruence].
Qed.

(** The pods that a migration leaves may need one more round. *)
Lemma clean_handled w :
  inv w → clean w → fresh w → ¬ handed w →
  inv (agentRound w) ∧ clean (agentRound w) ∧ fresh (agentRound w) ∧ handed (agentRound w).
Proof.
  intros Hinv Hclean Hfresh Hn. destruct (handled_progress w Hinv Hn) as [Hinv' Hend]. split; [done|].
  assert (w_Objects (agentRound w) = w_Objects w) as Hobj.
  { rewrite round_handled by (done || apply Hinv). unfold roundDS. pose proof (toDS_outcome w (inv_keyed w Hinv)) as Hcase.
    unfold wp in Hcase. unfold handed in Hn. destruct (toDS w) as [w' r]. cbn [fst snd] in *. destruct Hclean as (He & Hr & Hc).
    inversion Hcase as [o w1 He' _ _|w1 _ Hr' _ _ _|w1 _ _ Ho _ _ _|]; subst; try congruence.
    rewrite collect_calm; [done|]. intros k o. rewrite Ho. apply Hc. }
  destruct Hclean as (He & Hr & Hc). split_and!.
  - split_and!; [by rewrite Hobj|unfold replicaSets, objectsOf in *; by rewrite Hobj|intros k o; rewrite Hobj; apply Hc].
  - intros o. rewrite Hobj. apply Hfresh.
  - destruct Hend as [Hh|Hlt]; [done|]. exfalso. revert Hlt. unfold remainingDS. rewrite He, Hr, (goneOwners_nil w Hc).
    repeat case_match; lia.
Qed.

(** The DaemonSet runs what is desired, the ExtendedDaemonSet and its replica sets
    are gone, and every pod of it that is left will be adopted. *)
Definition settled w : Prop :=
  (∃ o, ds_at w = Some o ∧ runs o ∧ wo_Deleting o = false) ∧ oldEDS w = None ∧ oldRS w = [] ∧ good w.

Lemma settles w : inv w → clean w → fresh w → handed w → inv (agentRound w) ∧ clean (agentRound w) ∧ settled (agentRound w).
Proof.
  intros Hinv Hclean Hfresh Hh. split; [by apply handed_inv|].
  destruct (round_handed w Hinv Hh) as (He & Hr & Hg & _ & Hp & Hothers & Happ & Hstable). unfold agentRound.
  assert (∃ o, ds_at (applyDS w).1 = Some o ∧ runs o ∧ wo_Deleting o = false) as (o & Ho & Hruns & Hd).
  { destruct Hclean as (_ & _ & Hc). destruct (ds_at w) as [c|] eqn:Hds.
    - exists c. rewrite (Hstable c eq_refl (Hfresh c Hds)). split_and!; [done|by apply Hfresh|by apply (Hc _ _ Hds)].
    - inversion Happ as [cur o' Hd _ Hruns Hcur Ho|]. exists o'. by split_and!. }
  assert (calm (applyDS w).1) as Hcalm.
  { intros k x Hx. destruct (decide (k = (KDaemonSet, wo_Key desired))) as [->|Hne]; [congruence|].
    rewrite Hothers in Hx by done. by apply (proj2 (proj2 Hclean) k). }
  split; [by apply (clean_collect w)|]. unfold settled. unfold replicaSets, objectsOf in *. rewrite collect_calm by done.
  split_and!; [by exists o|by rewrite Hothers| |].
  - assert (oldRS (collect (applyDS w).1) = []) as Hnil by (apply (replicaSets_collect _ _ _ w); [intros key; by apply Hothers|done]).
    unfold replicaSets, objectsOf in Hnil. by rewrite collect_calm in Hnil.
  - intros key p (Hpk & Hns & Hlab). apply collect_pod in Hpk as (p0 & Hp0 & Hd0 & ->).
    rewrite (goneOwners_nil _ Hcalm), withoutOwners_nil in *. rewrite Hp in Hp0.
    change (adopts selects p0 = true). apply (Hg key p0). by split_and!.
Qed.

Lemma settled_handed w : inv w → settled w → handed w.
Proof.
  intros Hinv (_ & He & Hr & Hg).
  exact (ready_hands_over asSelector labelKey daemonSet selector selects Hsel (Hlabels m) w (inv_keyed w Hinv) He Hr Hg).
Qed.

(** C7: the node agent converges to its DaemonSet.  Whatever ran before - an
    ExtendedDaemonSet with its replica sets, a DaemonSet with another selector or
    template, or nothing - after at most six rounds of the reconcile and the garbage
    collector, in which no call fails, the DaemonSet in the cluster has the desired
    spec and its hash, one of its owner references is that of the
    DatadogAgentInternal and none is to a DatadogAgent, nothing of the
    ExtendedDaemonSet is left, and this stays so.  The conditions: objects are kept
    under their names; a replica set that controls a pod of the ExtendedDaemonSet is
    there; and a DaemonSet that is there already selects pods by labels alone and,
    if it carries the hash of the desired spec, has that spec and is owned by the
    DatadogAgentInternal or by a DatadogAgent. *)
Theorem daemonset_converges w : inv w → ∃ n, n ≤ 6 ∧ ∀ k, n ≤ k → settled (agentRounds k w).
Proof.
  intros Hinv. destruct (reaches_handed w Hinv) as (n & Hn & Hh & Hinv1).
  enough (∃ j, j ≤ 3 ∧ ∀ k, j ≤ k → settled (agentRounds k (agentRounds n w))) as (j & Hj & Hend).
  { exists (j + n). split; [lia|]. intros k Hk. replace k with ((k - n) + n) by lia. unfold agentRounds. rewrite Nat.iter_add.
    apply Hend. lia. }
  set (w1 := agentRounds n w) in *. clearbody w1. pose proof (handed_inv w1 Hinv1 Hh) as Hinv2.
  destruct (fresh_round w1 Hinv1 Hh) as [Hclean Hfresh].
  assert (∀ v, inv v → clean v → settled v → ∀ k, settled (agentRounds k v)) as Hstay.
  { intros v Hv Hc Hs k. revert v Hv Hc Hs. induction k as [|k IH]; intros v Hv Hc Hs; [done|]. rewrite <- agentRounds_S.
    destruct (settles v Hv Hc) as (Hv' & Hc' & Hs'); [|by apply settled_handed|by apply IH].
    intros o Ho. destruct Hs as ((o' & Ho' & Hr & _) & _). rewrite Ho in Ho'. by injection Ho' as ->. }
  assert (∃ i, i ≤ 1 ∧ inv (agentRounds i (agentRound w1)) ∧ clean (agentRounds i (agentRound w1)) ∧
            fresh (agentRounds i (agentRound w1)) ∧ handed (agentRounds i (agentRound w1))) as (i & Hi & Hinv3 & Hclean3 & Hfresh3 & Hh3).
  { destruct (handed_dec _ (inv_keyed _ Hinv2)) as [Hy|Hno]; [by exists 0; split; [lia|]|].
    exists 1. split; [lia|]. by apply clean_handled. }
  destruct (settles _ Hinv3 Hclean3 Hfresh3 Hh3) as (Hinv4 & Hclean4 & Hset).
  exists (2 + i). split; [lia|]. intros k Hk. replace k with ((k - 2 - i) + S (i + 1)) by lia.
  unfold agentRounds at 1. rewrite Nat.iter_add, Nat.iter_succ, Nat.iter_add. by apply (Hstay _ Hinv4 Hclean4 Hset).
Qed.
End DaemonSets.

(** ** To an ExtendedDaemonSet *)

Section ExtendedDaemonSets.
Context (asSelector : option LabelSelector → (gmap string string → bool) + error) (clock : nat → Time).
Context (md5 : WorkloadSpec → string).
Context (glob_Compile : string → (string → bool) + error) (ddaiGVK : Cluster.GroupVersionKind).
Context (SetControllerReference : WorkloadObject → WorkloadObject + error).
Context (supportsAppArmorProfile : bool) (range : gmap string string → list (string * string)).
Context (configMaps : NamespacedName → configMapContent + error) (rollout : bool) (labelKey : string) (ddai : Owner).
(** The ExtendedDaemonSet that was built, and what it becomes. *)
Context (eds built owned_ desired : WorkloadObject).

Hypothesis Hgvk : gvk_Kind ddaiGVK = "DatadogAgentInternal".
Hypothesis Hbuilt : checkedWorkload configMaps rollout (own_Namespace ddai) eds = inl built.
Hypothesis Howned : SetControllerReference built = inl owned_.
Hypothesis Hdesired : finalizeTemplate supportsAppArmorProfile range owned_ = desired.
Hypothesis Hkey : wo_Key desired = wo_Key eds.
Hypothesis Howner : newDDAIOwnerRef (own_Name ddai) (own_UID ddai) ddaiGVK ∈ wo_OwnerReferences desired.
Hypothesis Hrefs : shouldUpdateOwnerReference (wo_OwnerReferences desired) = false.

Abbreviation toEDS := (toEDS asSelector labelKey eds).
Abbreviation acceptable := (acceptable asSelector labelKey eds).
Abbreviation eds_at w := (w_Objects w !! (KExtendedDaemonSet, wo_Key desired)).
Abbreviation runs := (runs md5 (own_Name ddai) (own_UID ddai) ddaiGVK desired).

Definition applyEDS : M Result :=
  applyExtendedDaemonSet noFault true asSelector clock md5 glob_Compile ddaiGVK SetControllerReference supportsAppArmorProfile
    range configMaps rollout labelKey ddai eds.

Definition edsRound w : World := collect (applyEDS w).1.
Definition edsRounds (n : nat) w : World := Nat.iter n edsRound w.

Definition told w : Prop := ∀ o, eds_at w = Some o → truthful md5 (own_Name ddai) (own_UID ddai) ddaiGVK desired o.

Definition edsHanded w : Prop := (toEDS w).2 = Ret (false, zeroResult).

Lemma edsHanded_dec w : well_keyed w → acceptable w → edsHanded w ∨ ∃ res, (toEDS w).2 = Ret (true, res).
Proof.
  intros Hw Ha. pose proof (toEDS_case asSelector labelKey eds w Hw Ha) as Hcase. unfold wp in Hcase. unfold edsHanded.
  destruct (toEDS w) as [w' r]. cbn in *. inversion Hcase; subst; eauto.
Qed.

Lemma edsRound_handled w res : (toEDS w).2 = Ret (true, res) → edsRound w = round asSelector labelKey eds w.
Proof.
  intros Hr. unfold edsRound, round, applyEDS, applyExtendedDaemonSet. f_equal. unfold MigrationRounds.toEDS in *.
  destruct (migrateDaemonSetToExtendedDaemonSet _ _ _ _ _ w) as [w' r] eqn:Hm. cbn in *. subst r.
  unfold mbind, GoM_bind. by rewrite Hm.
Qed.

Lemma round_told w : well_keyed w → acceptable w → told w → told (round asSelector labelKey eds w).
Proof.
  intros Hw Ha Ht o (o0 & Ho0 & _ & ->)%collect_found. apply truthful_collected; [done|by apply goneOwners_workloads|].
  apply (Ht o0). revert Ho0.
  pose proof (toEDS_case asSelector labelKey eds w Hw Ha) as Hcase. unfold wp in Hcase. destruct (toEDS w) as [w' r]. cbn [fst snd] in *.
  inversion Hcase as [ds w1 _ _ Ho|ds u w1 _ _ _ Ho|ds w1 _ _ _ Ho|x w1 _ _ _ Ho|w1 _ _ _ Hm _|w1 _ Ho _]; subst; try (by rewrite Ho).
  - by rewrite Ho, lookup_insert_ne.
  - by rewrite Ho, lookup_insert_ne.
  - by destruct (Hm (KExtendedDaemonSet, wo_Key desired)) as [->|[? _]].
Qed.

Lemma reaches_edsHanded w :
  well_keyed w → acceptable w → told w →
  ∃ n, n ≤ 4 ∧ edsHanded (edsRounds n w) ∧ well_keyed (edsRounds n w) ∧ acceptable (edsRounds n w) ∧ told (edsRounds n w).
Proof.
  intros Hw Ha Ht. pose proof (remaining_le labelKey eds w) as Hle. remember (remaining labelKey eds w) as r eqn:Hr.
  enough (∃ n, n ≤ r ∧ edsHanded (edsRounds n w) ∧ well_keyed (edsRounds n w) ∧ acceptable (edsRounds n w) ∧ told (edsRounds n w))
    as (n & Hn & H) by (exists n; split; [lia|done]). clear Hle.
  revert w Hr Hw Ha Ht. induction (lt_wf r) as [r _ IH]. intros w -> Hw Ha Ht.
  destruct (edsHanded_dec w Hw Ha) as [Hh|[res Hres]]; [exists 0; split; [lia|done]|].
  destruct (round_progress asSelector labelKey eds w Hw Ha) as [Hh|(Hlt & Hw' & Ha')]; [congruence|].
  destruct (IH _ Hlt _ eq_refl Hw' Ha' (round_told w Hw Ha Ht)) as (n & Hn & Hend).
  exists (S n). unfold edsRounds. rewrite Nat.iter_succ_r, (edsRound_handled w res Hres). split; [lia|exact Hend].
Qed.

(** The ExtendedDaemonSet runs what is desired, and the DaemonSet is gone. *)
Definition edsSettled w : Prop :=
  (∃ o, eds_at w = Some o ∧ runs o ∧ wo_Deleting o = false) ∧ w_Objects w !! (KDaemonSet, wo_Key eds) = None.

(** A round that hands over applies the ExtendedDaemonSet. *)
Lemma edsRound_handed w :
  well_keyed w → acceptable w → told w → edsHanded w →
  daemonSetOf eds w = None ∧ (∀ o, edsOf eds w = Some o → wo_Deleting o = false) ∧
  (∀ i, i ≠ (KExtendedDaemonSet, wo_Key desired) → w_Objects (applyEDS w).1 !! i = w_Objects w !! i) ∧
  applied md5 (own_Name ddai) (own_UID ddai) ddaiGVK desired false (eds_at w) (eds_at (applyEDS w).1).
Proof.
  intros Hw Ha Ht Hh. pose proof (toEDS_case asSelector labelKey eds w Hw Ha) as Hcase. unfold edsHanded in Hh.
  enough (daemonSetOf eds w = None ∧ (∀ o, edsOf eds w = Some o → wo_Deleting o = false) ∧
    wp applyEDS (λ w2 _, (∀ i, i ≠ (KExtendedDaemonSet, wo_Key desired) → w_Objects w2 !! i = w_Objects w !! i) ∧
                         applied md5 (own_Name ddai) (own_UID ddai) ddaiGVK desired false (eds_at w) (eds_at w2)) w) as (? & ? & []) by done.
  unfold applyEDS, applyExtendedDaemonSet. unfold wp in Hcase. unfold MigrationRounds.toEDS in *.
  destruct (migrateDaemonSetToExtendedDaemonSet _ _ _ _ _ w) as [w' r] eqn:Hm. cbn in Hcase, Hh. subst r.
  inversion Hcase as [| | | | |w1 Hds Ho Hlive]; subst w1; try done. split_and!; [done|naive_solver|].
  apply wp_bind. unfold wp at 1. rewrite Hm. cbn -[applies]. apply wp_bind, wp_withChecksum. intros n. rewrite Hbuilt. cbn -[applies].
  eapply wp_mono; [eapply (wp_createOrUpdateExtendedDaemonset asSelector clock md5 glob_Compile (own_Name ddai) (own_UID ddai) ddaiGVK
    SetControllerReference supportsAppArmorProfile range Hgvk built desired owned_); try done|].
  - intros k key o. cbn. rewrite Ho. apply Hw.
  - intros o. cbn. rewrite Ho. apply Ht.
  - intros w2 r (_ & _ & Hothers & Happ & _). cbn in *. by rewrite Ho in *.
Qed.

Lemma edsSettles w :
  well_keyed w → acceptable w → told w → edsHanded w → edsSettled (edsRound w) ∧ well_keyed (edsRound w).
Proof.
  intros Hw Ha Ht Hh. destruct (edsRound_handed w Hw Ha Ht Hh) as (Hds & Hlive & Hothers & Happ).
  assert (∃ o, eds_at (applyEDS w).1 = Some o ∧ wo_Deleting o = false ∧ wo_Key o = wo_Key desired ∧ runs o) as (o & Ho & Hd & Hk & Hruns).
  { inversion Happ as [cur o Hd Hk Hruns Hcur Ho|]; [|done]. exists o. split_and!; [done| |done..]. rewrite Hd.
    destruct (eds_at w) as [c|] eqn:Hc; [|done]. apply Hlive. unfold edsOf. by rewrite <- Hkey. }
  unfold edsRound. split; [split|].
  - eexists. rewrite collect_lookup, Ho. cbn. unfold collectObject. rewrite Hd. split_and!; [done| |exact Hd].
    apply runs_collected; [done|by apply goneOwners_workloads|done].
  - apply collect_None. rewrite Hothers by done. exact Hds.
  - apply collect_well_keyed. intros k key x Hx. destruct (decide ((k, key) = (KExtendedDaemonSet, wo_Key desired))) as [[= -> ->]|Hne].
    + congruence.
    + rewrite Hothers in Hx by done. by apply (Hw k key).
Qed.

Lemma edsSettled_again w :  well_keyed w → edsSettled w → edsSettled (edsRound w) ∧ well_keyed (edsRound w).
Proof.
  intros Hw ((o & Ho & Hruns & Hd) & Hds).
  assert (acceptable w) as Ha by (intros ds Hds'; unfold daemonSetOf in Hds'; congruence).
  apply edsSettles; [done..| |].
  - intros o' Ho'. rewrite Ho in Ho'. injection Ho' as <-. by apply runs_truthful.
  - pose proof (toEDS_case asSelector labelKey eds w Hw Ha) as Hcase. unfold edsHanded. unfold wp in Hcase.
    destruct (toEDS w) as [w' r]. cbn [fst snd] in *. rewrite Hkey in Ho.
    inversion Hcase as [ds w1 Hds'|ds u w1 Hds'|ds w1 Hds'|x w1 _ He Hx|w1 _ He|w1]; subst; unfold daemonSetOf, edsOf in *; try congruence; done.
Qed.

(** C8: the node agent converges to its ExtendedDaemonSet.  From a DaemonSet that
    has to be relabelled and orphaned, an ExtendedDaemonSet that is being deleted or
    replica sets that are left over, after at most five rounds of the reconcile and
    the garbage collector, in which no call fails, the ExtendedDaemonSet in the
    cluster has the desired spec and its hash, one of its owner references is that of
    the DatadogAgentInternal and none is to a DatadogAgent, the DaemonSet is gone, and
    this stays so.  The conditions: objects are kept under their names; the API
    server accepts the DaemonSet with the label that the migration adds; and an
    ExtendedDaemonSet that carries the hash of the desired spec has that spec and is
    owned by the DatadogAgentInternal or by a DatadogAgent. *)
Theorem extendeddaemonset_converges w :
  well_keyed w → acceptable w → told w → ∃ n, n ≤ 5 ∧ ∀ k, n ≤ k → edsSettled (edsRounds k w).
Proof.
  intros Hw Ha Ht. destruct (reaches_edsHanded w Hw Ha Ht) as (n & Hn & Hh & Hw1 & Ha1 & Ht1).
  exists (S n). split; [lia|]. intros k Hk. replace k with ((k - S n) + S n) by lia.
  assert (∀ j v, well_keyed v → edsSettled v → edsSettled (edsRounds j v)) as Hstay.
  { induction j as [|j IH]; intros v Hv Hs; [done|]. unfold edsRounds. rewrite Nat.iter_succ_r.
    destruct (edsSettled_again v Hv Hs). by apply IH. }
  destruct (edsSettles _ Hw1 Ha1 Ht1 Hh) as [Hs Hw2]. unfold edsRounds in *. rewrite Nat.iter_add, Nat.iter_succ.
  by apply Hstay.
Qed.
End ExtendedDaemonSets.
