(* ===== verification/InternalSafety.v ===== *)
(** * Features, and what a reconcile of a DatadogAgentInternal leaves alone.

    How the requirements of features add up, and what the removals of a provider
    leave of a pod template.  Whichever calls fail, the reconcile of a profile does
    not touch Deployments, and one with a feature that the provider rejects does not
    touch any workload. *)

From Stdlib Require Import ZArith Ascii Lia.
From stdpp Require Import base gmap strings list sorting.
From S2P Require Import Prelude GoRun Cluster Status Profiles Remote FleetData PodMerger Untaint Objects Store.
From S2P Require Import ResourceManagers AgentSpec Defaults Override Workloads Migration Features InternalWorkloads.
From S2P Require Import InternalComponents InternalAgent.

(** ** Requirements *)

(** [merge] is a join: nil below true below false. *)
Lemma merge_comm : Comm (=) merge.
Proof. by intros [[]|] [[]|]. Qed.
Lemma merge_assoc : Assoc (=) merge.
Proof. by intros [[]|] [[]|] [[]|]. Qed.
Lemma merge_idemp : IdemP (=) merge.
Proof. by intros [[]|]. Qed.

Lemma merge_enabled a b :
  merge a b = Some true ↔ (a = Some true ∨ b = Some true) ∧ a ≠ Some false ∧ b ≠ Some false.
Proof. destruct a as [[]|], b as [[]|]; cbn; naive_solver. Qed.

Lemma merge_disabled a b : merge a b = Some false ↔ a = Some false ∨ b = Some false.
Proof. destruct a as [[]|], b as [[]|]; cbn; naive_solver. Qed.

Lemma elem_mergeSlices a b x : x ∈ mergeSlices a b ↔ x ∈ a ∨ x ∈ b.
Proof.
  unfold mergeSlices. assert (∀ out, (x ∈ out ∨ (¬ (x ∈ a) ∧ x ∈ b)) ↔
    x ∈ foldl (λ out c, if bool_decide (c ∈ a) then out else out ++ [c]) out b) as H.
  { induction b as [|c b IH]; intros out; cbn; [set_solver|]. rewrite <- IH. case_bool_decide; set_solver. }
  rewrite <- H. destruct (decide (x ∈ a)); tauto.
Qed.

(** The components of [RequiredComponents]. *)
Definition components : list (RequiredComponents → RequiredComponent) :=
  [rc_ClusterAgent; rc_Agent; rc_ClusterChecksRunner; rc_OtelAgentGateway].

Lemma components_Merge_at π rc rin : π ∈ components → π (components_Merge rc rin) = component_Merge (π rc) (π rin).
Proof. intros Hπ. repeat (apply elem_of_cons in Hπ as [->|Hπ]; [done|]). by apply elem_of_nil in Hπ. Qed.

Section Build.
Context {Deps RC Options : Type}.
Implicit Types (fs : list (Feature Deps * RequiredComponents)) (b : Built Deps).

Definition required_by (π : RequiredComponents → RequiredComponent) fs : Prop :=
  (∃ f, f ∈ fs ∧ IsRequired (π f.2) = Some true) ∧ ∀ f, f ∈ fs → IsRequired (π f.2) ≠ Some false.

Lemma addFeature_required b f : requiredComponents (addFeature b f) = components_Merge (requiredComponents b) f.2.
Proof. by destruct f. Qed.

Lemma foldl_required π fs b :
  π ∈ components →
  IsRequired (π (requiredComponents (foldl addFeature b fs))) =
    foldl merge (IsRequired (π (requiredComponents b))) ((λ f, IsRequired (π f.2)) <$> fs).
Proof.
  intros Hπ. revert b. induction fs as [|f fs IH]; intros b; [done|]. cbn. rewrite IH. f_equal.
  by rewrite addFeature_required, components_Merge_at.
Qed.

Lemma foldl_merge_enabled (l : list (option bool)) a :
  foldl merge a l = Some true ↔ (a = Some true ∨ Some true ∈ l) ∧ a ≠ Some false ∧ Some false ∉ l.
Proof.
  revert a. induction l as [|x l IH]; intros a; cbn; [set_solver|]. rewrite IH, merge_enabled.
  assert (merge a x ≠ Some false ↔ a ≠ Some false ∧ x ≠ Some false) as -> by (rewrite merge_disabled; tauto).
  set_solver.
Qed.

Lemma foldl_containers π fs b x :
  π ∈ components →
  x ∈ Containers (π (requiredComponents (foldl addFeature b fs))) ↔
    x ∈ Containers (π (requiredComponents b)) ∨ ∃ f, f ∈ fs ∧ x ∈ Containers (π f.2).
Proof.
  intros Hπ. revert b. induction fs as [|f fs IH]; intros b; [set_solver|]. cbn.
  rewrite IH, addFeature_required, components_Merge_at by done. cbn. rewrite elem_mergeSlices. set_solver.
Qed.

(** The features of the registry, configured, in order. *)
Definition configure (featureBuilders : gmap string (BuildFunc Deps RC Options)) dda ddaSpec ddaRCStatus options :=
  omap (λ id, build ← featureBuilders !! id; Some (build options dda ddaSpec ddaRCStatus)) (registryKeys featureBuilders).

Definition wants_single (ddaSpec : DatadogAgentSpec) : Prop :=
  (Spec_Global ddaSpec ≫= Global_ContainerStrategy) = Some SingleContainerStrategy.

Lemma IsPrivileged_spec rc : IsPrivileged rc = false ↔ ∀ c, c ∈ Containers rc → c ∉ privilegedContainers.
Proof.
  unfold IsPrivileged. split.
  - intros Hf c Hc Hp. assert (existsb (λ c, bool_decide (c ∈ privilegedContainers)) (Containers rc) = true); [|congruence].
    apply existsb_exists. exists c. split; [by apply list_elem_of_In|by apply bool_decide_eq_true].
  - intros Hall. destruct (existsb _ _) eqn:He; [|done]. apply existsb_exists in He as (c & Hc & Hp).
    apply list_elem_of_In in Hc. apply bool_decide_eq_true in Hp. by destruct (Hall c Hc).
Qed.

Lemma containerStrategy_required ddaSpec rc π :
  π ∈ components → IsRequired (π (containerStrategy ddaSpec rc)) = IsRequired (π rc).
Proof.
  intros Hπ. unfold containerStrategy. case_match; [|done].
  repeat (apply elem_of_cons in Hπ as [->|Hπ]; [done|]). by apply elem_of_nil in Hπ.
Qed.

(** The components that are never reduced to a single container. *)
Definition otherComponents : list (RequiredComponents → RequiredComponent) :=
  [rc_ClusterAgent; rc_ClusterChecksRunner; rc_OtelAgentGateway].

Lemma other_is_component π : π ∈ otherComponents → π ∈ components.
Proof. unfold otherComponents, components. set_solver. Qed.

(** Containers whose elements are those the features need. *)
Definition needed_containers (π : RequiredComponents → RequiredComponent) fs (rc : RequiredComponents) : Prop :=
  ∀ x, x ∈ Containers (π rc) ↔ ∃ f, f ∈ fs ∧ x ∈ Containers (π f.2).

(** C30: the verdict of all features on the components they need does not depend on
    their order: each component is enabled when some feature requires it and none
    disables it.  The cluster agent, the cluster checks runner and the gateway each
    have exactly the containers that their features need.  So has the node agent,
    unless a single container is asked for, it is enabled and no feature needs a
    privileged container: it then has that single container alone. *)
Theorem required_components_add_up featureBuilders dda provider ddaSpec ddaRCStatus options :
  let fs := configure featureBuilders dda ddaSpec ddaRCStatus options in
  let rc := requiredComponents (BuildFeatures featureBuilders dda provider ddaSpec ddaRCStatus options).1 in
  let single := wants_single ddaSpec ∧ required_by rc_Agent fs ∧
                ∀ f c, f ∈ fs → c ∈ Containers (rc_Agent f.2) → c ∉ privilegedContainers in
  Forall (λ π, component_IsEnabled (π rc) = true ↔ required_by π fs) components ∧
  Forall (λ π, needed_containers π fs rc) otherComponents ∧
  (single → Containers (rc_Agent rc) = [UnprivilegedSingleAgentContainer]) ∧
  (¬ single → needed_containers rc_Agent fs rc).
Proof.
  intros fs rc single. set (built := foldl addFeature (mkBuilt [] [] noRequiredComponents) fs).
  assert (rc = containerStrategy ddaSpec (requiredComponents built)) as -> by done.
  assert (∀ π, π ∈ components → IsRequired (π (requiredComponents built)) = Some true ↔ required_by π fs) as Hreq.
  { intros π Hπ. unfold built. rewrite foldl_required, foldl_merge_enabled by done.
    assert (IsRequired (π noRequiredComponents) = None) as Hnone.
    { repeat (apply elem_of_cons in Hπ as [->|Hπ]; [done|]). by apply elem_of_nil in Hπ. }
    cbn. rewrite Hnone. unfold required_by. rewrite !list_elem_of_fmap. naive_solver. }
  assert (∀ π, π ∈ components → component_IsEnabled (π (requiredComponents built)) = true ↔ required_by π fs) as Hen.
  { intros π Hπ. rewrite <- Hreq by done. unfold component_IsEnabled. by destruct (IsRequired _) as [[]|]. }
  assert (∀ π, π ∈ components → needed_containers π fs (requiredComponents built)) as Hall.
  { intros π Hπ x. unfold built. rewrite foldl_containers by done.
    assert (Containers (π noRequiredComponents) = []) as Hnone.
    { repeat (apply elem_of_cons in Hπ as [->|Hπ]; [done|]). by apply elem_of_nil in Hπ. }
    cbn. rewrite Hnone. set_solver. }
  assert (needed_containers rc_Agent fs (requiredComponents built)) as Hcont by (apply Hall; right; left).
  assert (IsPrivileged (rc_Agent (requiredComponents built)) = false ↔
            ∀ f c, f ∈ fs → c ∈ Containers (rc_Agent f.2) → c ∉ privilegedContainers) as Hpriv.
  { rewrite IsPrivileged_spec. unfold needed_containers in Hcont. setoid_rewrite Hcont. naive_solver. }
  assert (single ↔ bool_decide ((Spec_Global ddaSpec ≫= Global_ContainerStrategy) = Some SingleContainerStrategy)
    && component_IsEnabled (rc_Agent (requiredComponents built)) && negb (IsPrivileged (rc_Agent (requiredComponents built))) = true) as Hs.
  { unfold single. rewrite !andb_true_iff, negb_true_iff, Hpriv, Hen, bool_decide_eq_true by (right; left). unfold wants_single. tauto. }
  split_and!.
  - apply Forall_forall. intros π Hπ. unfold component_IsEnabled. rewrite containerStrategy_required by done.
    by apply Hen.
  - apply Forall_forall. intros π Hπ. pose proof (Hall π (other_is_component π Hπ)) as Hneed. unfold needed_containers in *.
    unfold containerStrategy. case_match; [|done].
    repeat (apply elem_of_cons in Hπ as [->|Hπ]; [done|]). by apply elem_of_nil in Hπ.
  - intros Hsingle%Hs. unfold containerStrategy. by rewrite Hsingle.
  - intros Hn x. rewrite <- (Hcont x). unfold containerStrategy. destruct (_ && _) eqn:Hb; [|done]. by destruct Hn; apply Hs.
Qed.
End Build.

(** ** Removals *)

(** The mounts a provider removes from a container. *)
Definition removed_mount (c : ProviderCapabilities) (container : string) (mount : string) : Prop :=
  mount ∈ cap_RemoveVolumes c ∨
  ∃ ref, ref ∈ cap_RemoveMounts c ∧ cmr_VolumeName ref = mount ∧ (cmr_Containers ref = [] ∨ container ∈ cmr_Containers ref).

#[export] Instance removed_mount_dec c container mount : Decision (removed_mount c container mount).
Proof.
  unfold removed_mount. apply or_dec; [apply _|].
  destruct (decide (Exists (λ ref, cmr_VolumeName ref = mount ∧ (cmr_Containers ref = [] ∨ container ∈ cmr_Containers ref))
                      (cap_RemoveMounts c))) as [H|H]; [left; by apply Exists_exists|right; by rewrite <- Exists_exists].
Defined.

(** A container without some mounts and variables, and a pod template without some
    volumes as well. *)
Definition stripped (mounts : string → string → Prop) (envs : string → Prop)
    `{∀ a b, Decision (mounts a b), ∀ e, Decision (envs e)} (c : Container json) : Container json :=
  set_Env (filter (λ e, ¬ envs (env_Name e)) (c_Env c))
    (set_VolumeMounts (filter (λ v, ¬ mounts (c_Name c) (vm_Name v)) (c_VolumeMounts c)) c).

Definition without (vols : string → Prop) (mounts : string → string → Prop) (envs : string → Prop)
    `{∀ v, Decision (vols v), ∀ a b, Decision (mounts a b), ∀ e, Decision (envs e)} (p : PodTemplateSpec json) :
    PodTemplateSpec json :=
  mkPodTemplateSpec (pod_Annotations p) (stripped mounts envs <$> pod_Containers p) (stripped mounts envs <$> pod_InitContainers p)
    (filter (λ v, ¬ vols (vol_Name v)) (pod_Volumes p)).

Lemma filter_twice {A} (P Q R : A → Prop) `{∀ x, Decision (P x), ∀ x, Decision (Q x), ∀ x, Decision (R x)} (l : list A) :
  (∀ x, R x ↔ P x ∧ Q x) → filter P (filter Q l) = filter R l.
Proof. intros HR. rewrite list_filter_filter. apply list_filter_iff. intros x. by rewrite HR. Qed.

Lemma filter_all {A} (P : A → Prop) `{∀ x, Decision (P x)} (l : list A) : (∀ x, P x) → filter P l = l.
Proof. intros HP. induction l as [|x l IH]; [done|]. by rewrite filter_cons_True, IH. Qed.

Section Without.
Context (v1 v2 v3 : string → Prop) (m1 m2 m3 : string → string → Prop) (e1 e2 e3 : string → Prop).
Context `{∀ v, Decision (v1 v), ∀ v, Decision (v2 v), ∀ v, Decision (v3 v)}.
Context `{∀ a b, Decision (m1 a b), ∀ a b, Decision (m2 a b), ∀ a b, Decision (m3 a b)}.
Context `{∀ e, Decision (e1 e), ∀ e, Decision (e2 e), ∀ e, Decision (e3 e)}.

Lemma stripped_stripped c :
  (∀ a b, m3 a b ↔ m1 a b ∨ m2 a b) → (∀ e, e3 e ↔ e1 e ∨ e2 e) → stripped m2 e2 (stripped m1 e1 c) = stripped m3 e3 c.
Proof.
  intros Hm He. unfold stripped. destruct c. unfold set_Env, set_VolumeMounts. cbn.
  f_equal; apply filter_twice; intros x; [rewrite He|rewrite Hm]; tauto.
Qed.

Lemma without_without p :
  (∀ v, v3 v ↔ v1 v ∨ v2 v) → (∀ a b, m3 a b ↔ m1 a b ∨ m2 a b) → (∀ e, e3 e ↔ e1 e ∨ e2 e) →
  without v2 m2 e2 (without v1 m1 e1 p) = without v3 m3 e3 p.
Proof.
  intros Hv Hm He. unfold without. cbn. f_equal.
  1,2: rewrite <- list_fmap_compose; apply list_fmap_ext; intros; by apply stripped_stripped.
  apply filter_twice. intros x. rewrite Hv. tauto.
Qed.

Lemma without_none p : (∀ v, ¬ v1 v) → (∀ a b, ¬ m1 a b) → (∀ e, ¬ e1 e) → without v1 m1 e1 p = p.
Proof.
  intros Hv Hm He. assert (∀ l : list (Container json), stripped m1 e1 <$> l = l) as Hs.
  { intros l. rewrite <- (list_fmap_id l) at 2. apply list_fmap_ext. intros _ c _. unfold stripped.
    rewrite !filter_all by auto. by destruct c. }
  unfold without. rewrite !Hs, filter_all by auto. by destruct p.
Qed.

Lemma without_ext p :
  (∀ v, v1 v ↔ v2 v) → (∀ a b, m1 a b ↔ m2 a b) → (∀ e, e1 e ↔ e2 e) → without v1 m1 e1 p = without v2 m2 e2 p.
Proof.
  intros Hv Hm He. unfold without, stripped. f_equal.
  1,2: apply list_fmap_ext; intros _ c _; f_equal; [|f_equal]; apply list_filter_iff; intros x; [by rewrite He|by rewrite Hm].
  apply list_filter_iff. intros x. by rewrite Hv.
Qed.
End Without.

(** A predicate that is applied is reduced before it is decided. *)
#[local] Hint Extern 0 (Decision _) => progress cbv beta : typeclass_instances.

(** A loop of removals. *)
Lemma foldl_without {A} (f : PodTemplateSpec json → A → PodTemplateSpec json)
    (vols : A → string → Prop) (mounts : A → string → string → Prop) (envs : A → string → Prop)
    `{∀ x v, Decision (vols x v), ∀ x a b, Decision (mounts x a b), ∀ x e, Decision (envs x e)} l p :
  (∀ p x, f p x = without (vols x) (mounts x) (envs x) p) →
  foldl f p l = without (λ v, Exists (λ x, vols x v) l) (λ a b, Exists (λ x, mounts x a b) l) (λ e, Exists (λ x, envs x e) l) p.
Proof.
  intros Hf. revert p. induction l as [|x l IH]; intros p; cbn.
  - symmetry. apply without_none; intros; rewrite Exists_nil; tauto.
  - rewrite IH, Hf. apply without_without; intros; by rewrite Exists_cons.
Qed.

Lemma stripMounts_without p v cs : stripMounts p v cs = without (λ _, False) (λ c m, m = v ∧ (cs = [] ∨ c ∈ cs)) (λ _, False) p.
Proof.
  assert (∀ c : Container json, (if bool_decide (length cs = 0) || bool_decide (c_Name c ∈ cs)
                   then set_VolumeMounts (removeMountByName (c_VolumeMounts c) v) c else c)
    = stripped (λ c m, m = v ∧ (cs = [] ∨ c ∈ cs)) (λ _, False) c) as Hc.
  { intros c. unfold stripped. rewrite (filter_all _ (c_Env c)) by tauto. destruct (_ || _) eqn:Ht.
    - apply orb_true_iff in Ht. rewrite !bool_decide_eq_true, length_zero_iff_nil in Ht. unfold removeMountByName.
      destruct c. cbn in *. unfold set_Env, set_VolumeMounts. cbn. f_equal. apply list_filter_iff. tauto.
    - apply orb_false_iff in Ht. rewrite !bool_decide_eq_false, length_zero_iff_nil in Ht.
      rewrite filter_all by tauto. by destruct c. }
  unfold stripMounts, without. rewrite filter_all by tauto. destruct p. cbn. unfold set_InitContainers, set_Containers. cbn.
  f_equal; apply list_fmap_ext; intros _ c _; apply Hc.
Qed.

Lemma stripVolume_without p v : stripVolume p v = without (λ x, x = v) (λ _ m, m = v) (λ _, False) p.
Proof.
  unfold stripVolume. rewrite stripMounts_without.
  assert (set_Volumes (filter (λ x, vol_Name x ≠ v) (pod_Volumes p)) p = without (λ x, x = v) (λ _ _, False) (λ _, False) p) as ->.
  { symmetry. unfold without. assert (∀ l : list (Container json), stripped (λ _ _, False) (λ _, False) <$> l = l) as Hs; [|rewrite !Hs; by destruct p].
    intros l. rewrite <- (list_fmap_id l) at 2. apply list_fmap_ext. intros _ c _. unfold stripped.
    rewrite !filter_all by tauto. by destruct c. }
  apply without_without; intros; naive_solver.
Qed.

Lemma stripEnvVar_without p e : stripEnvVar p e = without (λ _, False) (λ _ _, False) (λ x, x = e) p.
Proof.
  unfold stripEnvVar, without. rewrite filter_all by tauto. destruct p. cbn. unfold set_InitContainers, set_Containers. cbn.
  f_equal; apply list_fmap_ext; intros _ c _; unfold stripped; rewrite (filter_all _ (c_VolumeMounts c)) by tauto; by destruct c.
Qed.

(** The removals that a provider asks for do what they say, whatever their
    order and however they overlap: a pod template loses the named volumes, every
    mount of them, the mounts removed from some or all containers, and the named
    variables, in containers and init containers alike; all the rest is kept, in its
    order. *)
Theorem removals_remove c p :
  removals c p = without (λ v, v ∈ cap_RemoveVolumes c) (removed_mount c) (λ e, e ∈ cap_RemoveEnvVars c) p.
Proof.
  unfold removals.
  rewrite (foldl_without stripVolume (λ v x, x = v) (λ v _ m, m = v) (λ _ _, False)) by apply stripVolume_without.
  rewrite (foldl_without _ (λ _ _, False) (λ ref c m, m = cmr_VolumeName ref ∧ (cmr_Containers ref = [] ∨ c ∈ cmr_Containers ref))
             (λ _ _, False)) by (intros; apply stripMounts_without).
  rewrite (foldl_without stripEnvVar (λ _ _, False) (λ _ _ _, False) (λ e x, x = e)) by apply stripEnvVar_without.
  rewrite (without_without _ _ (λ _, False) _ _ (λ a b, Exists (λ ref, b = cmr_VolumeName ref ∧
    (cmr_Containers ref = [] ∨ a ∈ cmr_Containers ref)) (cap_RemoveMounts c)) _ _ (λ e, e ∈ cap_RemoveEnvVars c));
    [apply without_without|..]; intros; unfold removed_mount; rewrite ?Exists_exists; naive_solver.
Qed.

Lemma stays_collectErrors {S : Type} (Rel : relation S) `{!PreOrder Rel} (l : list (GoM S unit)) :
  Forall (stays Rel) l → stays Rel (collectErrors l).
Proof.
  induction 1 as [|m l Hm _ IH]; [apply stays_ret, _|]. cbn. apply stays_bind; [done|by apply stays_attempt|]. intros r.
  apply stays_bind; [done..|]. intros. apply stays_ret, _.
Qed.

(** ** Workloads of a kind *)

Section Kind.
Context (k0 : WorkloadKind).

Definition untouched (w w' : World) : Prop := ∀ key, w_Objects w' !! (k0, key) = w_Objects w !! (k0, key).

#[export] Instance untouched_preorder : PreOrder untouched.
Proof. split; [by intros w key|]. intros w1 w2 w3 H1 H2 key. by rewrite H2. Qed.

Abbreviation leaves := (stays untouched).

Lemma leaves_objects w w' : w_Objects w' = w_Objects w → untouched w w'.
Proof. intros H key. by rewrite H. Qed.

Section Calls.
Context (fault : nat → option (bool * error)) (edsServed : bool).
Context (asSelector : option LabelSelector → (gmap string string → bool) + error).

Lemma leaves_call {A} (effect : World → World * (A + error)) : (∀ w, untouched w (effect w).1) → leaves (call fault effect).
Proof.
  intros He w. unfold call. destruct (fault _) as [[[] e]|]; cbn.
  - apply (He (set_w_Calls (Datatypes.S (w_Calls w)) w)).
  - by apply leaves_objects.
  - specialize (He (set_w_Calls (Datatypes.S (w_Calls w)) w)). by destruct (effect _) as [w' []].
Qed.

Lemma leaves_read {A} (r : World → A + error) : leaves (call fault (λ w, (w, r w))).
Proof. apply leaves_call. intros w. reflexivity. Qed.

Lemma leaves_status f : leaves (changeStatus f).
Proof. apply stays_modify. intros w. by apply leaves_objects. Qed.
Lemma leaves_event a b c d : leaves (recordEvent a b c d).
Proof. apply stays_modify. intros w. by apply leaves_objects. Qed.

Lemma untouched_insert w k key o : k ≠ k0 → untouched w (set_w_Objects (<[(k, key) := o]> (w_Objects w)) w).
Proof. intros Hk key'. cbn. rewrite lookup_insert_ne; [done|]. by intros [= ? _]. Qed.

(** Of the objects, only replica sets are removed with their owners. *)
Lemma untouched_cascade gone w : KReplicaSet ≠ k0 → untouched w (cascade gone w).
Proof.
  intros Hk key. cbn. rewrite map_lookup_filter. destruct (w_Objects w !! (k0, key)); [|done]. cbn.
  rewrite option_guard_True; [done|]. intros [Heq _]. cbn in Heq. congruence.
Qed.

Lemma leaves_Delete k key orphan : k ≠ k0 → KReplicaSet ≠ k0 → leaves (Delete fault edsServed k key orphan).
Proof.
  intros Hk Hrs. apply leaves_call. intros w. destruct (negb _); [reflexivity|]. destruct (w_Objects w !! _); [|reflexivity].
  destruct orphan; [by apply untouched_insert|]. etrans; [|by apply untouched_cascade].
  intros key'. cbn. rewrite lookup_delete_ne; [done|]. by intros [= ? _].
Qed.
Lemma leaves_Create k o : k ≠ k0 → leaves (Create fault edsServed asSelector k o).
Proof.
  intros Hk. apply leaves_call. intros w. destruct (negb _); [reflexivity|]. destruct (w_Objects w !! _); [reflexivity|].
  destruct (_ && _); [reflexivity|]. by apply untouched_insert.
Qed.
Lemma leaves_Update k o : k ≠ k0 → leaves (Update fault edsServed asSelector k o).
Proof.
  intros Hk. apply leaves_call. intros w. destruct (negb _); [reflexivity|]. destruct (w_Objects w !! _); [|reflexivity].
  destruct (_ && _); [reflexivity|]. by apply untouched_insert.
Qed.
Lemma leaves_PatchOwnerReferences k key refs : k ≠ k0 → leaves (PatchOwnerReferences fault k key refs).
Proof.
  intros Hk. apply leaves_call. intros w. destruct (w_Objects w !! _); [|reflexivity]. by apply untouched_insert.
Qed.
Lemma leaves_PatchPodLabels key labels : leaves (PatchPodLabels fault key labels).
Proof. apply leaves_call. intros w. destruct (w_Pods w !! key); [by apply leaves_objects|reflexivity]. Qed.
Lemma leaves_DeletePod key : leaves (DeletePod fault key).
Proof. apply leaves_call. intros w. destruct (w_Pods w !! key); [by apply leaves_objects|reflexivity]. Qed.
Lemma leaves_StatusUpdate st : leaves (StatusUpdate fault st).
Proof. apply leaves_call. intros w. by apply leaves_objects. Qed.
Lemma leaves_unlessNotFound (m : M unit) : leaves m → leaves (unlessNotFound m).
Proof. intros Hm. unfold unlessNotFound. stays. Qed.
End Calls.
End Kind.

#[export] Hint Resolve leaves_read leaves_status leaves_event leaves_Delete leaves_Create leaves_Update leaves_PatchOwnerReferences
  leaves_PatchPodLabels leaves_DeletePod leaves_StatusUpdate leaves_unlessNotFound : stays.
#[export] Hint Extern 1 (_ ≠ _) => discriminate : stays.
#[export] Hint Extern 3 (PreOrder _) => typeclasses eauto : stays.

(** ** The workloads and their pods *)

Definition sameWorkloads (w w' : World) : Prop := w_Objects w' = w_Objects w ∧ w_Pods w' = w_Pods w.

#[export] Instance sameWorkloads_preorder : PreOrder sameWorkloads.
Proof. split; [done|]. intros w1 w2 w3 [H1 P1] [H2 P2]. unfold sameWorkloads. by rewrite H2, P2. Qed.

Lemma same_status f : stays sameWorkloads (changeStatus f).
Proof. by apply stays_modify. Qed.
Lemma same_StatusUpdate fault st : stays sameWorkloads (StatusUpdate fault st).
Proof. intros w. unfold StatusUpdate, call. by destruct (fault _) as [[[] e]|]. Qed.
#[export] Hint Resolve same_status same_StatusUpdate : stays.

(** ** From the cluster to the state of a reconcile *)

Section Lift.
Context (Rel : relation World) `{!PreOrder Rel}.

Definition onWorlds (s s' : RunState) : Prop := Rel (rs_World s) (rs_World s').

#[export] Instance onWorlds_preorder : PreOrder onWorlds.
Proof. split; [intros s; unfold onWorlds; reflexivity|]. intros s1 s2 s3 H1 H2. unfold onWorlds in *. by etrans. Qed.

Lemma stays_onWorld {A} (m : M A) : stays Rel m → stays onWorlds (onWorld m).
Proof. intros Hm s. specialize (Hm (rs_World s)). unfold onWorld, onWorlds. by destruct (m (rs_World s)). Qed.
Lemma stays_onDeps {A} (m : GoM Deps A) : stays onWorlds (onDeps m).
Proof. intros s. unfold onDeps, onWorlds. destruct (m (rs_Deps s)). cbn. reflexivity. Qed.
Lemma stays_setDeps (f : RunState → Deps) : stays onWorlds (modify (λ s, mkRunState (rs_World s) (f s))).
Proof. apply stays_modify. intros s. unfold onWorlds. cbn. reflexivity. Qed.
End Lift.
(** What runs on a value of its own changes nothing else. *)
Lemma stays_runOn {S T A} (Rel : relation S) `{!PreOrder Rel} (t : T) (m : GoM T A) : stays Rel (runOn t m).
Proof. intros s. unfold runOn. destruct (m t) as [t' []]; cbn; reflexivity. Qed.

#[export] Hint Resolve stays_onWorld stays_onDeps stays_setDeps stays_runOn : stays.

(** ** The node agent of a profile *)

Section Profile.
Context (fault : nat → option (bool * error)) (edsServed : bool).
Context (asSelector : option LabelSelector → (gmap string string → bool) + error) (clock : nat → Time).

Abbreviation leaves := (stays (untouched KDeployment)).

Lemma leaves_now : leaves (now clock).
Proof. apply stays_gets, _. Qed.
Lemma leaves_replicaSetsOf labelKey ns name : leaves (replicaSetsOf fault edsServed labelKey ns name).
Proof. unfold replicaSetsOf, List_. stays. Qed.
Lemma leaves_orphanReplicaSets l : leaves (orphanReplicaSets fault edsServed l).
Proof. unfold orphanReplicaSets. stays. Qed.
Lemma leaves_prepareOrphanedPods selector selects b pods : leaves (prepareOrphanedPods fault selector selects b pods).
Proof. revert b. induction pods as [|e pods IH]; intros b; cbn; [stays|]. unfold prepareOrphanedPod. stays. Qed.
Hint Resolve leaves_now leaves_replicaSetsOf leaves_orphanReplicaSets leaves_prepareOrphanedPods : stays.

Lemma leaves_migrate labelKey o : leaves (migrateExtendedDaemonSetToDaemonSet fault edsServed asSelector labelKey o).
Proof.
  unfold migrateExtendedDaemonSetToDaemonSet, prepareOrphanedEDSPodsForDaemonSet, Get, ListPods, requeued, handedOver. stays.
Qed.
Hint Resolve leaves_migrate : stays.

Lemma leaves_conditions t a b c d e : leaves (UpdateDatadogAgentInternalStatusConditions t a b c d e).
Proof. unfold UpdateDatadogAgentInternalStatusConditions. stays. Qed.
Lemma leaves_deleteCondition a : leaves (DeleteDatadogAgentInternalStatusCondition a).
Proof. unfold DeleteDatadogAgentInternalStatusCondition. stays. Qed.
Lemma leaves_dsStatus n ds t a b c : leaves (updateDSStatusV2WithAgent n ds t a b c).
Proof. unfold updateDSStatusV2WithAgent, UpdateDatadogAgentInternalStatusConditions. stays. Qed.
Lemma leaves_restart new current : leaves (restartDaemonset new current).
Proof. unfold restartDaemonset, restartWorkload. stays. Qed.
Hint Resolve leaves_conditions leaves_deleteCondition leaves_dsStatus leaves_restart : stays.

Context (md5 : WorkloadSpec → string) (md5Labels : option (gmap string string) → string).
Context (glob_Compile : string → (string → bool) + error).
Context (ddaiGVK : Cluster.GroupVersionKind) (SetControllerReference : WorkloadObject → WorkloadObject + error).
Context (supportsAppArmorProfile : bool) (range : gmap string string → list (string * string)).
Context (configMaps : NamespacedName → configMapContent + error).

Lemma leaves_createOrUpdateDaemonset name uid o :
  leaves (createOrUpdateDaemonset fault edsServed asSelector clock md5 md5Labels glob_Compile name uid ddaiGVK
            SetControllerReference supportsAppArmorProfile range updateDSStatusV2WithAgent o).
Proof.
  unfold createOrUpdateDaemonset, lookupWorkload, Get, adoptWorkload, updateDaemonset, createDaemonset,
    SetMD5DatadogAgentGenerationAnnotation. stays.
Qed.
Lemma leaves_readConfigMaps ns names contents : leaves (readConfigMaps fault configMaps ns names contents).
Proof. revert contents. induction names as [|n names IH]; intros contents; cbn; [stays|]. unfold GetConfigMap. stays. Qed.
Hint Resolve leaves_createOrUpdateDaemonset leaves_readConfigMaps : stays.

Context (EDSEnabled RolloutOnConfigMapChangeEnabled UntaintControllerEnabled : bool).
Context (ExtendedDaemonSetNameLabelKey : string).
Context (quoted : string → string) (ddai : Owner) (provider : string) (spec : DatadogAgentSpec).

Lemma leaves_applyDaemonSet o :
  leaves (applyDaemonSet fault edsServed asSelector clock md5 md5Labels glob_Compile ddaiGVK SetControllerReference
    supportsAppArmorProfile range configMaps RolloutOnConfigMapChangeEnabled ExtendedDaemonSetNameLabelKey ddai o).
Proof. unfold applyDaemonSet, withChecksum, annotateConfigMapsChecksum. stays. Qed.
Lemma leaves_deleteV2DaemonSet o : leaves (deleteV2DaemonSet fault edsServed o).
Proof. unfold deleteV2DaemonSet, deleteV2. stays. Qed.
Lemma leaves_deleteStatusWithAgent : leaves deleteStatusWithAgent.
Proof. unfold deleteStatusWithAgent. stays. Qed.
Hint Resolve leaves_applyDaemonSet leaves_deleteV2DaemonSet leaves_deleteStatusWithAgent : stays.
Lemma leaves_rejectWindowsFIPS o : leaves (rejectWindowsFIPS fault edsServed clock o).
Proof. unfold rejectWindowsFIPS. stays. Qed.
Hint Resolve leaves_rejectWindowsFIPS : stays.

(** What the packages of components, global settings, overrides and dependencies do. *)
Context (newDefaultDeployment : string → WorkloadObject).
Context (newDefaultAgentDaemonset newDefaultAgentExtendedDaemonset : RequiredComponent → WorkloadObject).
Context (applyGlobalSettings : string → RequiredComponents → Template → Deps → Template * Deps).
Context (applyGlobalNodeAgentSpec : string → GoM Template unit).
Context (overridePodTemplate : option DatadogAgentComponentOverride → string → GoM Template unit).
Context (applyExperimentalOverrides ensureStartupToleration : Template → Template) (hasFIPSAgentImage : Template → bool).
Context (applyWindowsPodTransformation : bool → string * string * string → Template → Template * string).
Context (ValidateFIPSVersions : Template → list error).
Context (oldStatus : InternalStatus) (forwarderCondition : option (Time * string * bool * string * string)).
Context (applyGlobalDependencies : RequiredComponents → R unit) (overrideDependencies storeApply storeCleanup : R unit).

Abbreviation leavesR := (stays (onWorlds (untouched KDeployment))).
Abbreviation reconcileInstance := (reconcileInstance fault edsServed asSelector clock md5 md5Labels glob_Compile ddaiGVK
  SetControllerReference supportsAppArmorProfile range configMaps EDSEnabled RolloutOnConfigMapChangeEnabled UntaintControllerEnabled
  ExtendedDaemonSetNameLabelKey newDefaultDeployment newDefaultAgentDaemonset newDefaultAgentExtendedDaemonset applyGlobalSettings
  applyGlobalNodeAgentSpec overridePodTemplate applyExperimentalOverrides ensureStartupToleration hasFIPSAgentImage
  applyWindowsPodTransformation ValidateFIPSVersions quoted ddai provider spec oldStatus forwarderCondition applyGlobalDependencies
  overrideDependencies storeApply storeCleanup).

Lemma leaves_buildAgent override_ windows single rc features o :
  leavesR (buildAgent UntaintControllerEnabled applyGlobalSettings applyGlobalNodeAgentSpec overridePodTemplate
             applyExperimentalOverrides ensureStartupToleration provider spec override_ windows single rc features o).
Proof. unfold buildAgent. stays. Qed.

Lemma leaves_windowsTemplate features o : leaves (windowsTemplate clock applyWindowsPodTransformation quoted spec features o).
Proof. unfold windowsTemplate. stays. Qed.
Lemma leaves_updateStatusIfNeeded t r : leaves (updateStatusIfNeeded fault oldStatus forwarderCondition t r).
Proof. unfold updateStatusIfNeeded, setMetricsForwarderStatus. stays. Qed.
Lemma leaves_providerSupportBlocks results t : leaves (providerSupportBlocks quoted provider results t).
Proof. unfold providerSupportBlocks. stays. Qed.
Lemma leaves_agentConflict rc : leavesR (agentConflict clock rc).
Proof. unfold agentConflict, conflictCondition. stays. Qed.
Hint Resolve leaves_buildAgent leaves_windowsTemplate leaves_updateStatusIfNeeded leaves_providerSupportBlocks leaves_agentConflict : stays.

(** C11: whichever calls to the API server fail, the reconcile of a
    DatadogAgentInternal that belongs to a profile neither creates, changes nor
    deletes a Deployment, so the Cluster Agent and the other components that the
    profiles share are left to the one without profile. *)
Theorem profile_leaves_deployments built s :
  isDDAILabeledWithProfile ddai = true →
  untouched KDeployment (rs_World s) (rs_World (reconcileInstance built s).1).
Proof.
  intros Hprofile. change (onWorlds (untouched KDeployment) s (reconcileInstance built s).1). revert s.
  change (leavesR (reconcileInstance built)). unfold InternalAgent.reconcileInstance, manageDependencies, reconcileWorkloads,
    reconcileV2Agent, cleanupExtraneousResources. rewrite Hprofile, andb_false_r.
  unfold reconcileDaemonSet, finishDaemonSet. stays.
Qed.

Lemma same_updateStatusIfNeeded t r : stays sameWorkloads (updateStatusIfNeeded fault oldStatus forwarderCondition t r).
Proof.
  unfold updateStatusIfNeeded, setMetricsForwarderStatus, UpdateDatadogAgentInternalStatusConditions. stays.
Qed.

(** C12: a feature that the provider rejects blocks the reconcile.  Whichever calls
    fail, no workload and no pod of the cluster and no dependency changes: the
    reconcile only writes the status. *)
Theorem rejected_feature_blocks built s :
  Exists (λ r, psr_Level r = Rejected) built.2 →
  let s' := (reconcileInstance built s).1 in
  sameWorkloads (rs_World s) (rs_World s') ∧ rs_Deps s' = rs_Deps s.
Proof.
  intros Hrej. cbn zeta. unfold InternalAgent.reconcileInstance, providerSupportBlocks.
  destruct (psr_ID <$> filter _ built.2) as [|i ids] eqn:Hids.
  { apply fmap_nil_inv in Hids. rewrite Exists_exists in Hrej. destruct Hrej as (r & Hin & Hr).
    assert (r ∈ filter (λ r, psr_Level r = Rejected) built.2) as Hf by by apply list_elem_of_filter.
    rewrite Hids in Hf. by apply not_elem_of_nil in Hf. }
  rewrite bool_decide_eq_false_2 by done. cbn [negb].
  unfold UpdateDatadogAgentInternalStatusConditions, mbind, GoM_bind, onWorld, now, gets. cbn -[updateStatusIfNeeded].
  match goal with |- context [updateStatusIfNeeded ?f ?o ?c ?t ?r ?w] =>
    pose proof (same_updateStatusIfNeeded t r w) as Hs; destruct (updateStatusIfNeeded f o c t r w) as [w' out] end.
  done.
Qed.
End Profile.
