(* ===== verification/InternalWitnesses.v ===== *)
(** * Migrations and reconciles of a DatadogAgentInternal at concrete clusters.

    A node agent whose DaemonSet runs one pod, and one whose ExtendedDaemonSet
    runs one pod through a replica set. *)

From Stdlib Require Import ZArith Ascii Lia.
From stdpp Require Import base gmap strings list.
From S2P Require Import Prelude GoRun Cluster Status Profiles Remote FleetData PodMerger Untaint Objects Store.
From S2P Require Import ResourceManagers AgentSpec Defaults Override Workloads Migration Features InternalWorkloads.
From S2P Require Import InternalComponents InternalAgent.
From S2P Require Import MigrationTheorems MigrationRounds InternalFacts InternalTheorems InternalSafety.

(** ** Clusters *)

Definition edsLabel : string := "extendeddaemonset.datadoghq.com/name".

(** Selectors with labels alone. *)
Definition labelsOnly (s : option LabelSelector) : (gmap string string → bool) + error :=
  match s with None => inl (λ _, false) | Some s => inl (matchesLabels (ls_MatchLabels s)) end.

(** The third call ends in a conflict. *)
Definition conflictAtTwo (n : nat) : option (bool * error) :=
  if bool_decide (n = 2) then Some (false, ApiError ReasonConflict) else None.

Lemma honest_conflictAtTwo : honest conflictAtTwo.
Proof. intros n b e. unfold conflictAtTwo. case_bool_decide; [|done]. by intros [= <- <-]. Qed.

Definition agentLabels : gmap string string := {[ "app" := "agent" ]}.
Definition agentSelector : LabelSelector := mkLabelSelector agentLabels [].
Definition agentSpec : WorkloadSpec :=
  mkWorkloadSpec (Some agentSelector) (mkTemplate (Some agentLabels) (mkPodTemplateSpec None [] [] []) JNull)
    (mkStrategy "RollingUpdate" (Some (AgentSpec.mkRollingUpdate None None))) None JNull.

Definition agentObject (name uid : string) (labels : gmap string string) : WorkloadObject :=
  mkWorkloadObject "datadog" name uid labels ∅ [] false agentSpec noStatus.

Definition agentPod (labels : gmap string string) (kind name uid : string) : Workloads.Pod :=
  mkPod labels [mkOwnerReference "apps/v1" kind name uid (Some true) (Some true)] false JNull.

Definition startingAt (objects : gmap (WorkloadKind * NamespacedName) WorkloadObject) (pod : Workloads.Pod) : World :=
  mkWorld objects {[ ("datadog", "agent-1") := pod ]} 0 (mkInternalStatus [] None None None None) [] [].

Definition daemonSetCluster : World :=
  startingAt {[ (KDaemonSet, ("datadog", "agent")) := agentObject "agent" "ds-1" ∅ ]} (agentPod agentLabels "DaemonSet" "agent" "ds-1").

Definition edsCluster : World :=
  startingAt (<[ (KExtendedDaemonSet, ("datadog", "agent")) := agentObject "agent" "eds-1" ∅ ]>
              {[ (KReplicaSet, ("datadog", "agent-xyz")) := agentObject "agent-xyz" "rs-1" {[ edsLabel := "agent" ]} ]})
    (agentPod {[ edsLabel := "agent" ]} "ExtendedDaemonSetReplicaSet" "agent-xyz" "rs-1").

(** The same with the reference of the replica set to its owner. *)
Definition edsOwningCluster : World :=
  set_w_Objects (<[ (KReplicaSet, ("datadog", "agent-xyz")) :=
    set_wo_OwnerReferences [mkOwnerReference "datadoghq.com/v1alpha1" "ExtendedDaemonSet" "agent" "eds-1" (Some true) (Some true)]
      (agentObject "agent-xyz" "rs-1" {[ edsLabel := "agent" ]}) ]> (w_Objects edsCluster)) edsCluster.

Lemma daemonSetCluster_well_keyed : well_keyed daemonSetCluster.
Proof. intros k key o Ho. cbn in Ho. apply lookup_singleton_Some in Ho as [[= <- <-] <-]. done. Qed.

Lemma daemonSetCluster_acceptable : acceptable labelsOnly edsLabel (agentObject "agent" "" ∅) daemonSetCluster.
Proof. intros ds Hds. cbn in Hds. vm_compute in Hds. injection Hds as <-. by vm_compute. Qed.

Lemma edsCluster_well_keyed : well_keyed edsCluster.
Proof.
  intros k key o Ho. cbn in Ho. apply lookup_insert_Some in Ho as [[[= <- <-] <-]|[_ Ho]]; [done|].
  apply lookup_singleton_Some in Ho as [[= <- <-] <-]. done.
Qed.

Lemma edsCluster_owned : owned edsLabel (agentObject "agent" "" ∅) edsCluster.
Proof.
  intros key p ref (Hp & _ & _) Hin Hc Hk. cbn in Hp. apply lookup_singleton_Some in Hp as [<- <-].
  cbn in Hin. apply list_elem_of_singleton in Hin as ->.
  exists (agentObject "agent-xyz" "rs-1" {[ edsLabel := "agent" ]}). split; [|done].
  apply elem_objectsOf. exists "agent-xyz". by split.
Qed.

(** Without orphan propagation the pods end with their workload. *)
Definition podEnds (w : World) : bool :=
  from_option p_Deleting false (w_Pods w !! ("datadog", "agent-1")).

Example deletion_ends_pods :
  podEnds (Workloads.Delete noFault true KDaemonSet ("datadog", "agent") false daemonSetCluster).1 = true ∧
  podEnds (Workloads.Delete noFault true KExtendedDaemonSet ("datadog", "agent") false edsOwningCluster).1 = true ∧
  podEnds (Workloads.Delete noFault true KDaemonSet ("datadog", "agent") true daemonSetCluster).1 = false.
Proof. by vm_compute. Qed.

Lemma migration_to_eds_keeps_pods_witness :
  honest conflictAtTwo ∧
  let '(w', r) := migrateDaemonSetToExtendedDaemonSet conflictAtTwo true labelsOnly edsLabel (agentObject "agent" "" ∅) daemonSetCluster in
  kept edsLabel "agent" daemonSetCluster w' ∧ r ≠ Panic ∧
  (∀ res, r = Ret (false, res) → ready_for_eds true edsLabel (agentObject "agent" "" ∅) w').
Proof.
  split; [exact honest_conflictAtTwo|].
  exact (migration_to_eds_keeps_pods conflictAtTwo true labelsOnly edsLabel honest_conflictAtTwo (agentObject "agent" "" ∅) daemonSetCluster).
Defined.

Lemma migration_to_ds_keeps_pods_witness :
  honest conflictAtTwo ∧
  let '(w', r) := migrateExtendedDaemonSetToDaemonSet conflictAtTwo true labelsOnly edsLabel (agentObject "agent" "" ∅) edsCluster in
  pods_adapted agentSelector (matchesLabels agentLabels) edsCluster w' ∧ r ≠ Panic ∧
  (∀ res, r = Ret (false, res) → ready_for_ds true edsLabel (agentObject "agent" "" ∅) (matchesLabels agentLabels) w').
Proof.
  split; [exact honest_conflictAtTwo|].
  exact (migration_to_ds_keeps_pods conflictAtTwo true labelsOnly edsLabel (agentObject "agent" "" ∅) agentSelector
           (matchesLabels agentLabels) honest_conflictAtTwo eq_refl eq_refl edsCluster).
Defined.

Lemma migration_to_eds_ends_witness :
  well_keyed daemonSetCluster ∧
  ∃ n, n ≤ 4 ∧ (toEDS labelsOnly edsLabel (agentObject "agent" "" ∅)
                  (rounds labelsOnly edsLabel (agentObject "agent" "" ∅) n daemonSetCluster)).2 = Ret (false, zeroResult).
Proof.
  split; [exact daemonSetCluster_well_keyed|].
  exact (migration_to_eds_ends labelsOnly edsLabel (agentObject "agent" "" ∅) daemonSetCluster
           daemonSetCluster_well_keyed daemonSetCluster_acceptable).
Defined.

Lemma migration_to_ds_ends_witness :
  well_keyed edsCluster ∧
  ∃ n, n ≤ 3 ∧ (toDS labelsOnly edsLabel (agentObject "agent" "" ∅)
                  (roundsDS labelsOnly edsLabel (agentObject "agent" "" ∅) n edsCluster)).2 = Ret (false, zeroResult).
Proof.
  split; [exact edsCluster_well_keyed|].
  exact (migration_to_ds_ends labelsOnly edsLabel (agentObject "agent" "" ∅) agentSelector (matchesLabels agentLabels)
           eq_refl eq_refl edsCluster edsCluster_well_keyed edsCluster_owned).
Defined.

(** What the rounds do: the pod has the label before its DaemonSet goes, and is
    left running without an owner. *)
Example rounds_to_eds :
  let w := rounds labelsOnly edsLabel (agentObject "agent" "" ∅) 2 daemonSetCluster in
  w_Objects w = ∅ ∧ w_Pods w = {[ ("datadog", "agent-1") := mkPod (<[ edsLabel := "agent" ]> agentLabels) [] false JNull ]}.
Proof. by vm_compute. Qed.

(** The way back: three rounds, after which the pod has the labels of the selector. *)
Example rounds_to_ds :
  let w := roundsDS labelsOnly edsLabel (agentObject "agent" "" ∅) 3 edsCluster in
  w_Objects w = ∅ ∧ w_Pods w = {[ ("datadog", "agent-1") := mkPod (<[ edsLabel := "agent" ]> agentLabels) [] false JNull ]}.
Proof. by vm_compute. Qed.

(** ** The node agent *)

Definition internalGVK : Cluster.GroupVersionKind := mkGVK "datadoghq.com/v1alpha1" "DatadogAgentInternal".
Definition internalOwner (labels : gmap string string) : Owner :=
  mkOwner "datadog" "datadog" "ddai-1" (inl internalGVK) labels None.
Definition clockOfCalls (n : nat) : Time := Z.of_nat n.
Definition anyHash (_ : WorkloadSpec) : string := "hash".
Definition anyLabelsHash (_ : option (gmap string string)) : string := "".
Definition noPattern (_ : string) : (string → bool) + error := inr (Errorf "no pattern").
Definition noConfigMap (_ : NamespacedName) : configMapContent + error := inr (ApiError ReasonNotFound).
Definition controlled (o : WorkloadObject) : WorkloadObject + error :=
  inl (set_wo_OwnerReferences [newDDAIOwnerRef "datadog" "ddai-1" internalGVK] o).

Definition nodeAgent : WorkloadObject := agentObject "agent" "" ∅.
(** What is to be in the cluster. *)
Definition nodeAgentOwned : WorkloadObject := set_wo_OwnerReferences [newDDAIOwnerRef "datadog" "ddai-1" internalGVK] nodeAgent.
Definition nodeAgentDesired : WorkloadObject := finalizeTemplate false map_to_list nodeAgentOwned.

Lemma labelsOnly_selects (m : gmap string string) : labelsOnly (Some (mkLabelSelector m [])) = inl (matchesLabels m).
Proof. reflexivity. Qed.

Lemma nodeAgentDesired_owned : newDDAIOwnerRef "datadog" "ddai-1" internalGVK ∈ wo_OwnerReferences nodeAgentDesired.
Proof. left. Qed.

Lemma edsCluster_inv : inv anyHash internalGVK edsLabel (internalOwner ∅) nodeAgent nodeAgentDesired edsCluster.
Proof.
  split; [exact edsCluster_well_keyed|exact edsCluster_owned|]. intros o Ho. by vm_compute in Ho.
Qed.

Lemma daemonSetCluster_told : told anyHash internalGVK (internalOwner ∅) nodeAgentDesired daemonSetCluster.
Proof. intros o Ho. by vm_compute in Ho. Qed.

Lemma daemonset_converges_witness :
  inv anyHash internalGVK edsLabel (internalOwner ∅) nodeAgent nodeAgentDesired edsCluster ∧
  ∃ n, n ≤ 6 ∧ ∀ k, n ≤ k →
    settled anyHash internalGVK edsLabel (internalOwner ∅) nodeAgent nodeAgentDesired agentLabels
      (agentRounds labelsOnly clockOfCalls anyHash anyLabelsHash noPattern internalGVK controlled false map_to_list noConfigMap
         false edsLabel (internalOwner ∅) nodeAgent k edsCluster).
Proof.
  split; [exact edsCluster_inv|].
  exact (daemonset_converges labelsOnly clockOfCalls anyHash anyLabelsHash noPattern internalGVK controlled false map_to_list
    noConfigMap false edsLabel (internalOwner ∅) nodeAgent nodeAgent nodeAgentOwned nodeAgentDesired agentLabels agentLabels
    eq_refl labelsOnly_selects eq_refl eq_refl eq_refl eq_refl eq_refl eq_refl eq_refl ltac:(reflexivity)
    nodeAgentDesired_owned eq_refl
    edsCluster edsCluster_inv).
Defined.

Lemma extendeddaemonset_converges_witness :
  told anyHash internalGVK (internalOwner ∅) nodeAgentDesired daemonSetCluster ∧
  ∃ n, n ≤ 5 ∧ ∀ k, n ≤ k →
    edsSettled anyHash internalGVK (internalOwner ∅) nodeAgent nodeAgentDesired
      (edsRounds labelsOnly clockOfCalls anyHash noPattern internalGVK controlled false map_to_list noConfigMap
         false edsLabel (internalOwner ∅) nodeAgent k daemonSetCluster).
Proof.
  split; [exact daemonSetCluster_told|].
  exact (extendeddaemonset_converges labelsOnly clockOfCalls anyHash noPattern internalGVK controlled false map_to_list
    noConfigMap false edsLabel (internalOwner ∅) nodeAgent nodeAgent nodeAgentOwned nodeAgentDesired
    eq_refl eq_refl eq_refl eq_refl eq_refl nodeAgentDesired_owned eq_refl daemonSetCluster daemonSetCluster_well_keyed
    daemonSetCluster_acceptable daemonSetCluster_told).
Defined.

(** ** The whole reconcile *)

Definition profileOwner : Owner := internalOwner {[ ProfileLabelKey := "gpu" ]}.
Definition noStatus_ : InternalStatus := mkInternalStatus [] None None None None.
Definition plainSpec : DatadogAgentSpec := mkDatadogAgentSpec None None ∅.
Definition unchanged (_ : string) (_ : RequiredComponents) (t : Template) (d : Deps) : Template * Deps := (t, d).
Definition noOverride (_ : option DatadogAgentComponentOverride) (_ : string) : GoM Template unit := mret tt.
Definition sameTemplate (_ : bool) (_ : string * string * string) (t : Template) : Template * string := (t, "").

(** The owner of the dependencies is not looked at. *)
Definition startOf (w : World) : RunState := mkRunState w (NewRBACManager (NewStore None None)).
Definition noFeatures : Built Deps :=
  mkBuilt [] [] (mkRequiredComponents noRequiredComponent noRequiredComponent noRequiredComponent noRequiredComponent).

Definition sampleReconcile (fault : nat → option (bool * error)) (ddai : Owner)
    (built : Built Deps * list ProviderSupportResult) : R Result :=
  InternalAgent.reconcileInstance fault true labelsOnly clockOfCalls anyHash anyLabelsHash noPattern internalGVK controlled false
    map_to_list noConfigMap true false false edsLabel (λ name, agentObject name "" ∅) (λ _, nodeAgent) (λ _, nodeAgent) unchanged
    (λ _, mret tt) noOverride id id (λ _, false) sameTemplate (λ _, []) id ddai "" plainSpec noStatus_ None (λ _, mret tt)
    (mret tt) (mret tt) (mret tt) built.

Lemma profile_leaves_deployments_witness :
  isDDAILabeledWithProfile profileOwner = true ∧
  untouched KDeployment edsCluster (rs_World (sampleReconcile conflictAtTwo profileOwner (noFeatures, []) (startOf edsCluster)).1).
Proof.
  split; [reflexivity|].
  exact (profile_leaves_deployments conflictAtTwo true labelsOnly clockOfCalls anyHash anyLabelsHash noPattern internalGVK controlled
    false map_to_list noConfigMap true false false edsLabel id profileOwner "" plainSpec (λ name, agentObject name "" ∅)
    (λ _, nodeAgent) (λ _, nodeAgent) unchanged (λ _, mret tt) noOverride id id (λ _, false) sameTemplate (λ _, [])
    noStatus_ None (λ _, mret tt) (mret tt) (mret tt) (mret tt) (noFeatures, []) (startOf edsCluster) eq_refl).
Defined.

Definition rejection : list ProviderSupportResult := [mkProviderSupportResult "npm" Rejected].

Lemma rejection_rejects : Exists (λ r, psr_Level r = Rejected) rejection.
Proof. by left. Qed.

Lemma rejected_feature_blocks_witness :
  Exists (λ r, psr_Level r = Rejected) rejection ∧
  let s' := (sampleReconcile noFault (internalOwner ∅) (noFeatures, rejection) (startOf edsCluster)).1 in
  sameWorkloads edsCluster (rs_World s') ∧ rs_Deps s' = NewRBACManager (NewStore None None).
Proof.
  split; [exact rejection_rejects|].
  exact (rejected_feature_blocks noFault true labelsOnly clockOfCalls anyHash anyLabelsHash noPattern internalGVK controlled
    false map_to_list noConfigMap true false false edsLabel id (internalOwner ∅) "" plainSpec (λ name, agentObject name "" ∅)
    (λ _, nodeAgent) (λ _, nodeAgent) unchanged (λ _, mret tt) noOverride id id (λ _, false) sameTemplate (λ _, [])
    noStatus_ None (λ _, mret tt) (mret tt) (mret tt) (mret tt) (noFeatures, rejection) (startOf edsCluster) rejection_rejects).
Defined.

(** ** Runs *)

(** With nothing in the way, a profile gets its DaemonSet and is reconciled again later. *)
Example profile_gets_daemonset :
  let '(s', r) := sampleReconcile noFault profileOwner (noFeatures, []) (startOf (set_w_Objects ∅ daemonSetCluster)) in
  (wo_Spec <$> (w_Objects (rs_World s') !! (KDaemonSet, ("datadog", "agent")))) = Some (wo_Spec nodeAgentDesired) ∧
  r = Ret (RequeueAfter defaultRequeuePeriod).
Proof. vm_compute. done. Qed.

(** ** What the runs showed *)

Definition alwaysFails (_ : nat) : option (bool * error) := Some (false, ApiError ReasonInvalid).

(** An ExtendedDaemonSet that could not be created is read for the status. *)
Lemma failed_creation_panics :
  (createExtendedDaemonset alwaysFails true labelsOnly clockOfCalls updateEDSStatusV2WithAgent nodeAgentDesired edsCluster).2 = Panic.
Proof. by vm_compute. Qed.

(** A change of the status of the OTel Agent Gateway alone is not written. *)
Lemma gateway_status_ignored s gateway : IsEqualStatus s s = true → IsEqualStatus s (set_ist_OtelAgentGateway gateway s) = true.
Proof. done. Qed.

(** Keys and values run together in the checksum of the ConfigMaps. *)
Lemma checksum_runs_together :
  hashConfigMapContents {[ "cm" := mkConfigMapContent {[ "a" := "bc" ]} ∅ ]} =
  hashConfigMapContents {[ "cm" := mkConfigMapContent {[ "ab" := "c" ]} ∅ ]}.
Proof. by vm_compute. Qed.

(** Any override of the Cluster Agent that does not disable it keeps the Cluster
    Checks Runner, also where no feature asks for a Cluster Agent. *)
Lemma override_keeps_cluster_checks overrides c rcs :
  overrides !! ClusterAgentComponentName = Some (Some c) → BoolValue (Override_Disabled c) = false →
  component_IsEnabled (rc_ClusterAgent rcs) = false →
  clusterChecksRunner_ForceDelete overrides rcs = Some false.
Proof. intros Hc Hd _. unfold clusterChecksRunner_ForceDelete. by rewrite Hc, Hd. Qed.
