(* ===== verification/AgentInternals.v ===== *)
(** * The DatadogAgentInternals of a DatadogAgent.

    Models [internal/controller/datadogagent/{ddai,profile,merge}.go],
    [global/utils.go], [override/ddai_utils.go] and [experimental/autopilot.go]: the
    objects that are made from a DatadogAgent and from the profiles applied to it.

    Parameters of the model: the merge of server-side apply and the removal of a
    field, which are the API machinery's, and the MD5 of a spec or a token. *)

From Stdlib Require Import ZArith Ascii.
From stdpp Require Import base gmap strings list.
From S2P Require Import Prelude GoRun Cluster Revision Experiment Status Untaint Profiles Remote FleetData PodMerger Objects.
From S2P Require Import Affinity AgentSpec Defaults Images Identity Override Install Workloads Features.

(** ** Fields *)

Definition set_Global_ClusterAgentToken (v : option string) (c : GlobalConfig) : GlobalConfig :=
  mkGlobalConfig (Global_Credentials c) v (Global_ClusterAgentTokenSecret c) (Global_ClusterName c) (Global_Site c)
    (Global_Endpoint c) (Global_Registry c) (Global_LogLevel c) (Global_Tags c) (Global_Env c) (Global_CommonLabels c)
    (Global_ChecksTagCardinality c) (Global_OriginDetectionUnified c) (Global_PodLabelsAsTags c)
    (Global_PodAnnotationsAsTags c) (Global_NodeLabelsAsTags c) (Global_NamespaceLabelsAsTags c)
    (Global_NamespaceAnnotationsAsTags c) (Global_KubernetesResourcesLabelsAsTags c)
    (Global_KubernetesResourcesAnnotationsAsTags c) (Global_CSI c) (Global_NetworkPolicy c) (Global_LocalService c)
    (Global_Kubelet c) (Global_DockerSocketPath c) (Global_CriSocketPath c) (Global_DisableNonResourceRules c)
    (Global_ContainerStrategy c) (Global_UseFIPSAgent c) (Global_FIPS c) (Global_SecretBackend c) (Global_UseVSock c).
Definition set_Global_ClusterAgentTokenSecret (v : option SecretConfig) (c : GlobalConfig) : GlobalConfig :=
  mkGlobalConfig (Global_Credentials c) (Global_ClusterAgentToken c) v (Global_ClusterName c) (Global_Site c)
    (Global_Endpoint c) (Global_Registry c) (Global_LogLevel c) (Global_Tags c) (Global_Env c) (Global_CommonLabels c)
    (Global_ChecksTagCardinality c) (Global_OriginDetectionUnified c) (Global_PodLabelsAsTags c)
    (Global_PodAnnotationsAsTags c) (Global_NodeLabelsAsTags c) (Global_NamespaceLabelsAsTags c)
    (Global_NamespaceAnnotationsAsTags c) (Global_KubernetesResourcesLabelsAsTags c)
    (Global_KubernetesResourcesAnnotationsAsTags c) (Global_CSI c) (Global_NetworkPolicy c) (Global_LocalService c)
    (Global_Kubelet c) (Global_DockerSocketPath c) (Global_CriSocketPath c) (Global_DisableNonResourceRules c)
    (Global_ContainerStrategy c) (Global_UseFIPSAgent c) (Global_FIPS c) (Global_SecretBackend c) (Global_UseVSock c).
Definition set_Global_Registry (v : option string) (c : GlobalConfig) : GlobalConfig :=
  mkGlobalConfig (Global_Credentials c) (Global_ClusterAgentToken c) (Global_ClusterAgentTokenSecret c)
    (Global_ClusterName c) (Global_Site c) (Global_Endpoint c) v (Global_LogLevel c) (Global_Tags c) (Global_Env c)
    (Global_CommonLabels c) (Global_ChecksTagCardinality c) (Global_OriginDetectionUnified c)
    (Global_PodLabelsAsTags c) (Global_PodAnnotationsAsTags c) (Global_NodeLabelsAsTags c)
    (Global_NamespaceLabelsAsTags c) (Global_NamespaceAnnotationsAsTags c) (Global_KubernetesResourcesLabelsAsTags c)
    (Global_KubernetesResourcesAnnotationsAsTags c) (Global_CSI c) (Global_NetworkPolicy c) (Global_LocalService c)
    (Global_Kubelet c) (Global_DockerSocketPath c) (Global_CriSocketPath c) (Global_DisableNonResourceRules c)
    (Global_ContainerStrategy c) (Global_UseFIPSAgent c) (Global_FIPS c) (Global_SecretBackend c) (Global_UseVSock c).
Definition set_Global_CommonLabels (v : gmap string string) (c : GlobalConfig) : GlobalConfig :=
  mkGlobalConfig (Global_Credentials c) (Global_ClusterAgentToken c) (Global_ClusterAgentTokenSecret c)
    (Global_ClusterName c) (Global_Site c) (Global_Endpoint c) (Global_Registry c) (Global_LogLevel c) (Global_Tags c)
    (Global_Env c) v (Global_ChecksTagCardinality c) (Global_OriginDetectionUnified c) (Global_PodLabelsAsTags c)
    (Global_PodAnnotationsAsTags c) (Global_NodeLabelsAsTags c) (Global_NamespaceLabelsAsTags c)
    (Global_NamespaceAnnotationsAsTags c) (Global_KubernetesResourcesLabelsAsTags c)
    (Global_KubernetesResourcesAnnotationsAsTags c) (Global_CSI c) (Global_NetworkPolicy c) (Global_LocalService c)
    (Global_Kubelet c) (Global_DockerSocketPath c) (Global_CriSocketPath c) (Global_DisableNonResourceRules c)
    (Global_ContainerStrategy c) (Global_UseFIPSAgent c) (Global_FIPS c) (Global_SecretBackend c) (Global_UseVSock c).
Definition set_Override_Name (v : option string) (o : DatadogAgentComponentOverride) : DatadogAgentComponentOverride :=
  mkDatadogAgentComponentOverride v (Override_Replicas o) (Override_CreatePodDisruptionBudget o)
    (Override_CreateRbac o) (Override_ServiceAccountName o) (Override_ServiceAccountAnnotations o) (Override_Image o)
    (Override_Env o) (Override_EnvFrom o) (Override_CustomConfigurations o) (Override_ExtraConfd o)
    (Override_ExtraChecksd o) (Override_CELWorkloadExclude o) (Override_Containers o) (Override_Volumes o)
    (Override_SecurityContext o) (Override_PriorityClassName o) (Override_RuntimeClassName o) (Override_Affinity o)
    (Override_DNSPolicy o) (Override_DNSConfig o) (Override_NodeSelector o) (Override_UpdateStrategy o)
    (Override_Tolerations o) (Override_Annotations o) (Override_Labels o) (Override_HostNetwork o)
    (Override_HostPID o) (Override_Disabled o) (Override_TopologySpreadConstraints o).
Definition set_Override_Affinity (v : option Affinity) (o : DatadogAgentComponentOverride) : DatadogAgentComponentOverride :=
  mkDatadogAgentComponentOverride (Override_Name o) (Override_Replicas o) (Override_CreatePodDisruptionBudget o)
    (Override_CreateRbac o) (Override_ServiceAccountName o) (Override_ServiceAccountAnnotations o) (Override_Image o)
    (Override_Env o) (Override_EnvFrom o) (Override_CustomConfigurations o) (Override_ExtraConfd o)
    (Override_ExtraChecksd o) (Override_CELWorkloadExclude o) (Override_Containers o) (Override_Volumes o)
    (Override_SecurityContext o) (Override_PriorityClassName o) (Override_RuntimeClassName o) v (Override_DNSPolicy o)
    (Override_DNSConfig o) (Override_NodeSelector o) (Override_UpdateStrategy o) (Override_Tolerations o)
    (Override_Annotations o) (Override_Labels o) (Override_HostNetwork o) (Override_HostPID o) (Override_Disabled o)
    (Override_TopologySpreadConstraints o).
Definition set_Override_Annotations (v : gmap string string) (o : DatadogAgentComponentOverride) : DatadogAgentComponentOverride :=
  mkDatadogAgentComponentOverride (Override_Name o) (Override_Replicas o) (Override_CreatePodDisruptionBudget o)
    (Override_CreateRbac o) (Override_ServiceAccountName o) (Override_ServiceAccountAnnotations o) (Override_Image o)
    (Override_Env o) (Override_EnvFrom o) (Override_CustomConfigurations o) (Override_ExtraConfd o)
    (Override_ExtraChecksd o) (Override_CELWorkloadExclude o) (Override_Containers o) (Override_Volumes o)
    (Override_SecurityContext o) (Override_PriorityClassName o) (Override_RuntimeClassName o) (Override_Affinity o)
    (Override_DNSPolicy o) (Override_DNSConfig o) (Override_NodeSelector o) (Override_UpdateStrategy o)
    (Override_Tolerations o) v (Override_Labels o) (Override_HostNetwork o) (Override_HostPID o) (Override_Disabled o)
    (Override_TopologySpreadConstraints o).
Definition set_Override_Labels (v : gmap string string) (o : DatadogAgentComponentOverride) : DatadogAgentComponentOverride :=
  mkDatadogAgentComponentOverride (Override_Name o) (Override_Replicas o) (Override_CreatePodDisruptionBudget o)
    (Override_CreateRbac o) (Override_ServiceAccountName o) (Override_ServiceAccountAnnotations o) (Override_Image o)
    (Override_Env o) (Override_EnvFrom o) (Override_CustomConfigurations o) (Override_ExtraConfd o)
    (Override_ExtraChecksd o) (Override_CELWorkloadExclude o) (Override_Containers o) (Override_Volumes o)
    (Override_SecurityContext o) (Override_PriorityClassName o) (Override_RuntimeClassName o) (Override_Affinity o)
    (Override_DNSPolicy o) (Override_DNSConfig o) (Override_NodeSelector o) (Override_UpdateStrategy o)
    (Override_Tolerations o) (Override_Annotations o) v (Override_HostNetwork o) (Override_HostPID o)
    (Override_Disabled o) (Override_TopologySpreadConstraints o).
Definition set_Override_Disabled (v : option bool) (o : DatadogAgentComponentOverride) : DatadogAgentComponentOverride :=
  mkDatadogAgentComponentOverride (Override_Name o) (Override_Replicas o) (Override_CreatePodDisruptionBudget o)
    (Override_CreateRbac o) (Override_ServiceAccountName o) (Override_ServiceAccountAnnotations o) (Override_Image o)
    (Override_Env o) (Override_EnvFrom o) (Override_CustomConfigurations o) (Override_ExtraConfd o)
    (Override_ExtraChecksd o) (Override_CELWorkloadExclude o) (Override_Containers o) (Override_Volumes o)
    (Override_SecurityContext o) (Override_PriorityClassName o) (Override_RuntimeClassName o) (Override_Affinity o)
    (Override_DNSPolicy o) (Override_DNSConfig o) (Override_NodeSelector o) (Override_UpdateStrategy o)
    (Override_Tolerations o) (Override_Annotations o) (Override_Labels o) (Override_HostNetwork o)
    (Override_HostPID o) v (Override_TopologySpreadConstraints o).

Definition set_Spec_Global (g : option GlobalConfig) (s : DatadogAgentSpec) : DatadogAgentSpec :=
  mkDatadogAgentSpec (Spec_Features s) g (Spec_Override s).
Definition set_Spec_Override (o : gmap string (option DatadogAgentComponentOverride)) (s : DatadogAgentSpec) : DatadogAgentSpec :=
  mkDatadogAgentSpec (Spec_Features s) (Spec_Global s) o.

#[export] Instance zero_ComponentOverride : Zero DatadogAgentComponentOverride :=
  mkDatadogAgentComponentOverride None None None None None ∅ None [] [] ∅ None None [] ∅ [] None None None None None None
    ∅ None [] ∅ ∅ None None None [].

(** [*p] *)
Definition deref {A : Type} (p : option A) : outcome A := from_option Ret Panic p.

#[export] Instance outcome_bind : MBind outcome := λ A B f m,
  match m with Ret a => f a | Fail e => Fail e | Panic => Panic end.

Definition of_outcome {S A : Type} (r : outcome A) : GoM S A := λ s, (s, r).

(** ** GKE Autopilot *)

Definition ExperimentalAnnotationPrefix : string := "experimental.agent.datadoghq.com".
Definition ExperimentalImageOverrideConfigSubkey : string := "image-override-config".
Definition ExperimentalAutopilotSubkey : string := "autopilot".

Definition getExperimentalAnnotationKey (subkey : string) : string := ExperimentalAnnotationPrefix +:+ "/" +:+ subkey.

(** [strings.EqualFold] with a text whose letters fold to ASCII only. *)
Definition EqualFold (s t : string) : bool := bool_decide (ToLower s = ToLower t).

Definition IsAutopilotEnabled (annotations : gmap string string) : bool :=
  bool_decide (get_key annotations ProviderAnnotationKey = GKEAutopilotProvider)
  || EqualFold (get_key annotations (getExperimentalAnnotationKey ExperimentalAutopilotSubkey)) "true".

Definition ensureGCRAutopilotRegistry (spec : DatadogAgentSpec) : DatadogAgentSpec :=
  let global := default zero (Spec_Global spec) in
  let gcr := match Global_Registry global with
             | None => set_Global_Registry (Some GCRContainerRegistry) global
             | Some registry => if IsGCRRegistry registry then global
                                else set_Global_Registry (Some GCRContainerRegistry) global
             end in
  set_Spec_Global (Some gcr) spec.

(** ** Credentials and the token of the Cluster Agent *)

Definition DefaultAPIKeyKey : string := "api_key".
Definition DefaultAPPKeyKey : string := "app_key".
Definition DefaultTokenKey : string := "token".

Definition IsValidSecretConfig (secretConfig : option SecretConfig) : bool :=
  match secretConfig with
  | None => false
  | Some c => negb (bool_decide (sc_SecretName c = "")) && negb (bool_decide (sc_KeyName c = ""))
  end.

Abbreviation Agent := (DatadogAgent DatadogAgentSpec).

Definition GetDefaultCredentialsSecretName (dda : Agent) : string := dda_Name dda +:+ "-secret".
Definition GetDefaultDCATokenSecretName (dda : Agent) : string := GetDDAName (dda_Labels dda) (dda_Name dda) +:+ "-token".

Definition newCredentials (dda : Agent) (c : DatadogCredentials) : DatadogCredentials :=
  let apiSecret := if IsValidSecretConfig (cred_APISecret c) then cred_APISecret c
                   else Some (mkSecretConfig (GetDefaultCredentialsSecretName dda) DefaultAPIKeyKey) in
  let appSecret :=
    if bool_decide (is_Some (cred_AppSecret c)) || bool_decide (is_Some (cred_AppKey c))
    then if IsValidSecretConfig (cred_AppSecret c) then cred_AppSecret c
         else Some (mkSecretConfig (GetDefaultCredentialsSecretName dda) DefaultAPPKeyKey)
    else None in
  mkCredentials None apiSecret None appSecret.

Definition setCredentialsFromDDA (dda : Agent) (ddaiGlobal : GlobalConfig) : outcome GlobalConfig :=
  c ← deref (Global_Credentials ddaiGlobal);
  Ret (set_Global_Credentials (Some (newCredentials dda c)) ddaiGlobal).

Definition setDCATokenFromDDA (dda : Agent) (ddaiGlobal : GlobalConfig) : GlobalConfig :=
  if IsValidSecretConfig (Global_ClusterAgentTokenSecret ddaiGlobal) then ddaiGlobal
  else
    set_Global_ClusterAgentToken None
      (set_Global_ClusterAgentTokenSecret (Some (mkSecretConfig (GetDefaultDCATokenSecretName dda) DefaultTokenKey)) ddaiGlobal).

Definition SetGlobalFromDDA (dda : Agent) (ddaiGlobal : option GlobalConfig) : outcome (option GlobalConfig) :=
  g ← deref ddaiGlobal;
  g ← setCredentialsFromDDA dda g;
  Ret (Some (setDCATokenFromDDA dda g)).

(** ** The overrides *)

Abbreviation Overrides := (gmap string (option DatadogAgentComponentOverride)).

Definition GetChecksumAnnotationKey (keyName : string) : string :=
  if bool_decide (keyName = "") then "" else "checksum/" +:+ keyName +:+ "-custom-config".
Definition GetDCATokenChecksumAnnotationKey : string := GetChecksumAnnotationKey "dca-token".

Definition IsCCREnabled (ddaSpec : DatadogAgentSpec) : outcome bool :=
  features ← deref (Spec_Features ddaSpec);
  Ret (match Features_ClusterChecks features with
       | Some c => BoolValue (ClusterChecks_UseClusterChecksRunners c)
       | None => false
       end).

(** [if _, ok := m[c]; !ok { m[c] = &DatadogAgentComponentOverride{} }] *)
Definition ensureKey (componentName : string) (m : Overrides) : Overrides :=
  match m !! componentName with Some _ => m | None => <[componentName := Some zero]> m end.

(** [m[c].Annotations[key] = hash]: the entry may be a nil pointer. *)
Definition annotateOverride (hash componentName : string) (m : Overrides) : outcome Overrides :=
  o ← deref (mjoin (m !! componentName));
  Ret (<[componentName :=
           Some (set_Override_Annotations (<[GetDCATokenChecksumAnnotationKey := hash]> (Override_Annotations o)) o)]> m).

Definition shouldAddDCATokenChecksumAnnotation (dda : Agent) : outcome bool :=
  g ← deref (Spec_Global (dda_Spec dda));
  Ret (negb (IsValidSecretConfig (Global_ClusterAgentTokenSecret g))
       && negb (bool_decide (StringValue (Global_ClusterAgentToken g) = ""))).

(** [tokenHash]: [GenerateMD5ForSpec] of the map with the token alone. *)
Definition SetOverrideFromDDA (tokenHash : string → string) (dda : Agent) (ddaiSpec : DatadogAgentSpec) : outcome DatadogAgentSpec :=
  let m := ensureKey NodeAgentComponentName (Spec_Override ddaiSpec) in
  b ← shouldAddDCATokenChecksumAnnotation dda;
  if negb b then Ret (set_Spec_Override m ddaiSpec)
  else
    g ← deref (Spec_Global (dda_Spec dda));
    let hash := tokenHash (StringValue (Global_ClusterAgentToken g)) in
    m ← annotateOverride hash NodeAgentComponentName m;
    m ← annotateOverride hash ClusterAgentComponentName (ensureKey ClusterAgentComponentName m);
    ccr ← IsCCREnabled ddaiSpec;
    m ← (if ccr : bool
         then annotateOverride hash ClusterChecksRunnerComponentName (ensureKey ClusterChecksRunnerComponentName m)
         else Ret m);
    Ret (set_Spec_Override m ddaiSpec).

(** ** The DatadogAgentInternal *)

Record DatadogAgentInternal := mkInternal {
  ddi_Namespace : string;
  ddi_Name : string;
  ddi_Labels : gmap string string;
  ddi_Annotations : gmap string string;
  ddi_Finalizers : list string;
  ddi_OwnerReferences : list OwnerReference;
  ddi_Spec : DatadogAgentSpec
}.

Definition ddi_Key (d : DatadogAgentInternal) : string * string := (ddi_Namespace d, ddi_Name d).

Definition set_ddi_Name (n : string) (d : DatadogAgentInternal) : DatadogAgentInternal :=
  mkInternal (ddi_Namespace d) n (ddi_Labels d) (ddi_Annotations d) (ddi_Finalizers d) (ddi_OwnerReferences d) (ddi_Spec d).
Definition set_ddi_Labels (l : gmap string string) (d : DatadogAgentInternal) : DatadogAgentInternal :=
  mkInternal (ddi_Namespace d) (ddi_Name d) l (ddi_Annotations d) (ddi_Finalizers d) (ddi_OwnerReferences d) (ddi_Spec d).
Definition set_ddi_Annotations (a : gmap string string) (d : DatadogAgentInternal) : DatadogAgentInternal :=
  mkInternal (ddi_Namespace d) (ddi_Name d) (ddi_Labels d) a (ddi_Finalizers d) (ddi_OwnerReferences d) (ddi_Spec d).
Definition set_ddi_Spec (s : DatadogAgentSpec) (d : DatadogAgentInternal) : DatadogAgentInternal :=
  mkInternal (ddi_Namespace d) (ddi_Name d) (ddi_Labels d) (ddi_Annotations d) (ddi_Finalizers d) (ddi_OwnerReferences d) s.

Definition DatadogAgentInternalFinalizer : string := "finalizer.datadoghq.com/datadogagentinternal".
Definition MD5DDAIDeploymentAnnotationKey : string := "agent.datadoghq.com/ddaispechash".
Definition LastAppliedAnnotationKey : string := "kubectl.kubernetes.io/last-applied-configuration".

(** The labels of the DatadogAgent and its name win over the common labels. *)
Definition getDDAILabels (dda : Agent) : gmap string string :=
  let labels := <[DatadogAgentNameLabelKey := dda_Name dda]> (dda_Labels dda) in
  match Spec_Global (dda_Spec dda) with
  | None => labels
  | Some g => labels ∪ Global_CommonLabels g
  end.

Definition ddaiAnnotations (dda : Agent) (provider : string) : gmap string string :=
  let annotations := delete LastAppliedAnnotationKey (dda_Annotations dda) in
  let annotations := if IsAutopilotEnabled (dda_Annotations dda)
                     then <[ProviderAnnotationKey := GKEAutopilotProvider]> annotations else annotations in
  if IsSpecificProvider provider then <[ProviderAnnotationKey := provider]> annotations else annotations.

(** ** Copies of a spec

    A copy has arrays of its own, without spare capacity.  The map of overrides is
    ranged over in some order, here that of [map_to_list]. *)

Definition copySlice (s : Slice) : GoM Arrays Slice := λ h,
  let l := read h s in (h ++ [l], Ret (mkSlice (length h) (length l) (length l))).

Definition copyTerm (t : NodeSelectorTerm) : GoM Arrays NodeSelectorTerm :=
  expressions ← copySlice (MatchExpressions t);
  fields ← copySlice (MatchFields t);
  mret (mkTerm expressions fields).

Definition copyOption {A : Type} (f : A → GoM Arrays A) (p : option A) : GoM Arrays (option A) :=
  match p with None => mret None | Some a => b ← f a; mret (Some b) end.

Definition copyNodeAffinity (n : NodeAffinity) : GoM Arrays NodeAffinity :=
  required ← copyOption (mapM copyTerm) (na_Required n);
  mret (mkNodeAffinity required (na_Preferred n)).

Definition copyAffinity (a : Affinity) : GoM Arrays Affinity :=
  node ← copyOption copyNodeAffinity (aff_Node a);
  mret (mkAffinity node (aff_Pod a) (aff_PodAnti a)).

Definition copyOverride (o : DatadogAgentComponentOverride) : GoM Arrays DatadogAgentComponentOverride :=
  affinity ← copyOption copyAffinity (Override_Affinity o);
  mret (set_Override_Affinity affinity o).

Definition copyOverrides (m : Overrides) : GoM Arrays Overrides :=
  l ← mapM (λ '(k, o), o ← copyOption copyOverride o; mret (k, o)) (map_to_list m);
  mret (list_to_map l).

Definition Spec_DeepCopy (s : DatadogAgentSpec) : GoM Arrays DatadogAgentSpec :=
  m ← copyOverrides (Spec_Override s);
  mret (set_Spec_Override m s).

Definition Internal_DeepCopy (d : DatadogAgentInternal) : GoM Arrays DatadogAgentInternal :=
  s ← Spec_DeepCopy (ddi_Spec d);
  mret (set_ddi_Spec s d).

(** ** The affinity of a profile *)

Abbreviation AgentProfile := (DatadogAgentProfile DatadogAgentSpec).

Definition newSlice (l : list NodeSelectorRequirement) : GoM Arrays Slice := λ h,
  (h ++ [l], Ret (mkSlice (length h) (length l) (length l))).
Definition emptySlice : Slice := mkSlice 0 0 0.

Definition oneTerm (l : list NodeSelectorRequirement) : GoM Arrays NodeAffinity :=
  expressions ← newSlice l;
  mret (mkNodeAffinity (Some [mkTerm expressions emptySlice]) []).

Definition podAntiAffinityOverride : PodAntiAffinity :=
  mkPodAntiAffinity
    [JObj (<["labelSelector" := JObj {["matchExpressions" := JArr [JObj
               (<["key" := JStr AgentDeploymentComponentLabelKey]>
               (<["operator" := JStr "In"]> {["values" := JArr [JStr "agent"]]}))]]}]>
             {["topologyKey" := JStr "kubernetes.io/hostname"]})] [].

Definition affinityOverrideForDefaultProfile : GoM Arrays Affinity :=
  node ← oneTerm [mkNSR ProfileLabelKey "DoesNotExist" []];
  mret (mkAffinity (Some node) None (Some podAntiAffinityOverride)).

Definition profileLabelKeyNSR (profileName : string) : NodeSelectorRequirement := mkNSR ProfileLabelKey "In" [profileName].

(** The requirements of the profile are appended to, and read nowhere else. *)
Definition AffinityOverride (profile : AgentProfile) : GoM Arrays Affinity :=
  if IsDefaultProfile (prof_Namespace profile) (prof_Name profile) then affinityOverrideForDefaultProfile
  else match default [] (prof_Affinity profile) with
       | [] => mret (mkAffinity None None (Some podAntiAffinityOverride))
       | requirements =>
           node ← oneTerm (requirements ++ [profileLabelKeyNSR (prof_Name profile)]);
           mret (mkAffinity (Some node) None (Some podAntiAffinityOverride))
       end.
(** ** The spec and the metadata of a profile's DatadogAgentInternal *)

(** [ensureOverrideExists] and an assignment through the pointer. *)
Definition editOverride (componentName : string) (f : DatadogAgentComponentOverride → DatadogAgentComponentOverride)
    (m : Overrides) : Overrides :=
  <[componentName := Some (f (default zero (mjoin (m !! componentName))))]> m.

Definition disableComponent (componentName : string) : Overrides → Overrides :=
  editOverride componentName (set_Override_Disabled (Some true)).

Definition setProfileDDAILabels (profile : AgentProfile) (o : DatadogAgentComponentOverride) : DatadogAgentComponentOverride :=
  set_Override_Labels (<[ProfileLabelKey := prof_Name profile]> (Override_Labels o)) o.

Definition setProfileNodeAgentOverride (profile : AgentProfile) (m : Overrides) : Overrides :=
  let m := editOverride NodeAgentComponentName (setProfileDDAILabels profile) m in
  let dsName := DaemonSetName (nsname profile) true in
  if negb (IsDefaultProfile (prof_Namespace profile) (prof_Name profile)) && negb (bool_decide (dsName = ""))
  then editOverride NodeAgentComponentName (set_Override_Name (Some dsName)) m else m.

(** The common labels of the DatadogAgent where the profile has none. *)
Definition restoreCommonLabels (base config : DatadogAgentSpec) : DatadogAgentSpec :=
  let commonLabels := from_option Global_CommonLabels ∅ (Spec_Global base) in
  if bool_decide (commonLabels = ∅) then config
  else
    let g := default zero (Spec_Global config) in
    set_Spec_Global (Some (set_Global_CommonLabels (Global_CommonLabels g ∪ commonLabels) g)) config.

Definition replaceSpec (profile : AgentProfile) (spec : DatadogAgentSpec) : DatadogAgentSpec :=
  let config := restoreCommonLabels spec (prof_Config profile) in
  set_Spec_Override
    (setProfileNodeAgentOverride profile
       (disableComponent OtelAgentGatewayComponentName
          (disableComponent ClusterChecksRunnerComponentName
             (disableComponent ClusterAgentComponentName (Spec_Override config))))) config.

Section ProfileMerge.
(** The capacity [append] allocates. *)
Context (slack : nat → nat).
(** [FieldManager.Apply] with the manager of the operator and [force]. *)
Context (Apply : DatadogAgentInternal → DatadogAgentInternal → GoM Arrays DatadogAgentInternal).
(** [unstructured.RemoveNestedField] through the unstructured form of the object. *)
Context (removeNestedField : list string → DatadogAgentInternal → GoM Arrays DatadogAgentInternal).
(** [comparison.GenerateMD5ForSpec]. *)
Context (specMD5 : Arrays → DatadogAgentSpec → string + error).

Definition setProfileDDAIAffinity (ddai : DatadogAgentInternal) (profile : AgentProfile) : GoM Arrays (option Affinity) :=
  let affinity := mjoin (Spec_Override (ddi_Spec ddai) !! NodeAgentComponentName) ≫= Override_Affinity in
  override_ ← AffinityOverride profile;
  MergeAffinities slack affinity (Some override_).

Definition setProfileSpec (ddai : DatadogAgentInternal) (profile : AgentProfile) : GoM Arrays DatadogAgentInternal :=
  affinity ← setProfileDDAIAffinity ddai profile;
  let spec := if IsDefaultProfile (prof_Namespace profile) (prof_Name profile) then ddi_Spec ddai
              else replaceSpec profile (ddi_Spec ddai) in
  mret (set_ddi_Spec (set_Spec_Override
          (editOverride NodeAgentComponentName (set_Override_Affinity affinity) (Spec_Override spec)) spec) ddai).

Definition EnableHostProfilerAnnotation : string := "agent.datadoghq.com/host-profiler-enabled".
Definition EnableHostProfilerSeccompAnnotation : string := "agent.datadoghq.com/host-profiler-seccomp-enabled".
Definition EnableHostProfilerLoggingSeccompAnnotation : string := "agent.datadoghq.com/host-profiler-logging-seccomp-enabled".

Definition propagatedAnnotations : list string :=
  [ProviderAnnotationKey; EnableHostProfilerAnnotation; EnableHostProfilerSeccompAnnotation;
   EnableHostProfilerLoggingSeccompAnnotation; getExperimentalAnnotationKey ExperimentalImageOverrideConfigSubkey].

Definition setProfileDDAIMeta (profile : AgentProfile) (ddai : DatadogAgentInternal) : DatadogAgentInternal :=
  let name := getProfileDDAIName (ddi_Name ddai) (prof_Name profile) (prof_Namespace profile) in
  let labels := if IsDefaultProfile (prof_Namespace profile) (prof_Name profile) then ddi_Labels ddai
                else <[ProfileLabelKey := prof_Name profile]> (ddi_Labels ddai) in
  let annotations := foldl (λ annotations k,
                       match prof_Annotations profile !! k with Some v => <[k := v]> annotations | None => annotations end)
                       (ddi_Annotations ddai) propagatedAnnotations in
  set_ddi_Name name (set_ddi_Labels labels (set_ddi_Annotations annotations ddai)).

(** *** The merge *)

Definition isPathChar (c : ascii) : bool :=
  let n := nat_of_ascii c in
  (48 <=? n) && (n <=? 57) || (65 <=? n) && (n <=? 90) || (97 <=? n) && (n <=? 122) || (n =? 95) || (n =? 45).

(** The longest prefix of characters for which [f] holds, and what follows. *)
Fixpoint spanChars (f : ascii → bool) (s : string) : string * string :=
  match s with
  | EmptyString => ("", "")
  | String c t => if f c then let '(a, b) := spanChars f t in (String c a, b) else ("", s)
  end.

Definition dot : ascii := "."%char.

(** A match of the regular expression at the start of the text: its group, and
    the length of the match. *)
Definition matchMissingSchemaPath (s : string) : option (string * nat) :=
  let '(path, rest) := spanChars (λ c, isPathChar c || bool_decide (c = dot)) s in
  let message := ": field not declared in schema" in
  match SplitChar dot path with
  | EmptyString :: segments =>
      if (2 <=? length segments) && negb (existsb (λ p, bool_decide (p = "")) segments) && HasPrefix rest message
      then Some (path, String.length path + String.length message) else None
  | _ => None
  end.

(** [FindAllStringSubmatch]: the matches from the left, without overlap. *)
Fixpoint findMissingSchemaPaths (skip : nat) (s : string) : list string :=
  match s with
  | EmptyString => []
  | String _ t =>
      match skip with
      | S skip => findMissingSchemaPaths skip t
      | O => match matchMissingSchemaPath s with
             | Some (path, n) => path :: findMissingSchemaPaths (pred n) t
             | None => findMissingSchemaPaths 0 t
             end
      end
  end.

Definition extractMissingSchemaPaths (err : error) : list string :=
  foldl (λ out p, if bool_decide (p ∈ out) then out else out ++ [p]) [] (findMissingSchemaPaths 0 (error_Error err)).

(** An invalid path leaves the object as it is. *)
Definition stripDottedFieldPath (dottedPath : string) (obj : DatadogAgentInternal) : GoM Arrays DatadogAgentInternal :=
  match dottedPath with
  | String c p =>
      let parts := SplitChar dot p in
      if bool_decide (c = dot) && negb (existsb (λ p, bool_decide (p = "")) parts) then removeNestedField parts obj else mret obj
  | EmptyString => mret obj
  end.

Fixpoint stripPaths (paths : list string) (orig mod_ : DatadogAgentInternal) :
    GoM Arrays (DatadogAgentInternal * DatadogAgentInternal) :=
  match paths with
  | [] => mret (orig, mod_)
  | p :: paths =>
      orig ← stripDottedFieldPath p orig;
      mod_ ← stripDottedFieldPath p mod_;
      stripPaths paths orig mod_
  end.

Definition ssaMergeCRD (original modified : DatadogAgentInternal) : GoM Arrays DatadogAgentInternal :=
  r ← attempt (Apply original modified);
  match r with
  | inl newObj => mret newObj
  | inr err =>
      let paths := extractMissingSchemaPaths err in
      if bool_decide (paths = []) then fail (Wrapf "failed to apply merge" err)
      else
        orig ← Internal_DeepCopy original;
        mod_ ← Internal_DeepCopy modified;
        stripped ← stripPaths paths orig mod_;
        retry ← attempt (Apply stripped.1 stripped.2);
        match retry with
        | inl newObj => mret newObj
        | inr _ => fail (Wrapf "failed to apply merge" err)
        end
  end.

Definition SetMD5GenerationAnnotation (ddai : DatadogAgentInternal) : GoM Arrays DatadogAgentInternal :=
  h ← gets id;
  match specMD5 h (ddi_Spec ddai) with
  | inr err => fail (Surroundf "unable to generate the spec MD5, " err "")
  | inl hash => mret (set_ddi_Annotations (<[MD5DDAIDeploymentAnnotationKey := hash]> (ddi_Annotations ddai)) ddai)
  end.

Definition computeProfileMerge (ddai : DatadogAgentInternal) (profile : AgentProfile) : GoM Arrays DatadogAgentInternal :=
  profileDDAI ← Internal_DeepCopy ddai;
  baseDDAI ← Internal_DeepCopy ddai;
  profileDDAI ← setProfileSpec profileDDAI profile;
  obj ← ssaMergeCRD baseDDAI (setProfileDDAIMeta profile profileDDAI);
  let obj := if IsAutopilotEnabled (ddi_Annotations obj)
             then set_ddi_Spec (ensureGCRAutopilotRegistry (ddi_Spec obj)) obj else obj in
  SetMD5GenerationAnnotation obj.

Definition sourceDDAI (baseDDAI defaultDDAI : DatadogAgentInternal) (profile : AgentProfile) : DatadogAgentInternal :=
  if IsDefaultProfile (prof_Namespace profile) (prof_Name profile) then defaultDDAI else baseDDAI.

Definition applyProfilesToDDAISpec (baseDDAI defaultDDAI : DatadogAgentInternal) (profiles : list AgentProfile) :
    GoM Arrays (list DatadogAgentInternal) :=
  mapM (λ profile, computeProfileMerge (sourceDDAI baseDDAI defaultDDAI profile) profile) profiles.

(** *** The DatadogAgentInternal without profiles *)

(** [apiutil.GVKForObject] of the DatadogAgent, and [GenerateMD5ForSpec] of a token. *)
Context (ddaGVK : Cluster.GroupVersionKind + error) (tokenHash : string → string).

Definition generateObjMetaFromDDA (dda : Agent) (provider : string) (spec : DatadogAgentSpec) : DatadogAgentInternal + error :=
  match ddaGVK with
  | inr err => inr err
  | inl gvk =>
      inl (mkInternal (dda_Namespace dda) (dda_Name dda) (getDDAILabels dda) (ddaiAnnotations dda provider)
             [DatadogAgentInternalFinalizer] [NewControllerRef (dda_Name dda) (dda_UID dda) gvk] spec)
  end.

Definition generateSpecFromDDA (dda : Agent) : GoM Arrays DatadogAgentSpec :=
  spec ← Spec_DeepCopy (dda_Spec dda);
  global ← of_outcome (SetGlobalFromDDA dda (Spec_Global spec));
  of_outcome (SetOverrideFromDDA tokenHash dda (set_Spec_Global global spec)).

Definition zeroSpec : DatadogAgentSpec := mkDatadogAgentSpec None None ∅.

Definition generateDDAIFromDDA (dda : Agent) (provider : string) : GoM Arrays DatadogAgentInternal :=
  ddai ← of_sum (generateObjMetaFromDDA dda provider zeroSpec);
  spec ← generateSpecFromDDA dda;
  SetMD5GenerationAnnotation (set_ddi_Spec spec ddai).
End ProfileMerge.
