(* ===== verification/AgentController.v ===== *)
(** * The reconcile of a DatadogAgent.

    Models [internal/controller/datadogagent/{reconcile,reconcile_common,ddai,
    finalizer}.go] and [datadogagent_validation.go]: DatadogAgentInternals are
    created, updated and deleted, between the experiments, revisions and profiles
    of a reconcile and the status it writes.

    Parameters of the model: what the parts take, the JSON of a spec, and the
    dependencies of the DatadogAgent. *)

From Stdlib Require Import ZArith Ascii.
From stdpp Require Import base gmap strings list.
From S2P Require Import Prelude GoRun Cluster Revision Experiment Status Untaint Profiles Remote FleetData PodMerger Objects.
From S2P Require Import Affinity AgentSpec Defaults Images Identity Override Install Workloads Features AgentInternals.

(** ** DatadogAgentInternals in the API server *)

(** [sd_Deleting]: it has a deletion timestamp, and waits for its finalizers. *)
Record StoredInternal (RC : Type) := mkStored {
  sd_Labels : gmap string string;
  sd_Annotations : gmap string string;
  sd_Finalizers : list string;
  sd_OwnerReferences : list OwnerReference;
  sd_Spec : json;
  sd_Deleting : bool;
  sd_Status : InternalStatus;
  sd_RemoteConfig : option RC
}.
Arguments mkStored {_}.
Arguments sd_Labels {_}.
Arguments sd_Annotations {_}.
Arguments sd_Finalizers {_}.
Arguments sd_OwnerReferences {_}.
Arguments sd_Spec {_}.
Arguments sd_Deleting {_}.
Arguments sd_Status {_}.
Arguments sd_RemoteConfig {_}.

Abbreviation Key := (string * string)%type.

(** The calls on DatadogAgentInternals, and on the status of the DatadogAgent.
    The specs are sent as JSON. *)
Class InternalClient (W RC : Type) := {
  client_GetDDAI : Key → GoM W (StoredInternal RC);
  client_CreateDDAI : DatadogAgentInternal → json → GoM W unit;
  client_UpdateDDAI : DatadogAgentInternal → json → GoM W unit;
  client_ListDDAIs : GoM W (list (Key * StoredInternal RC));
  client_DeleteDDAI : Key → GoM W unit;
  client_UpdateDDAIRemoteConfig : Key → option RC → GoM W unit;
  client_UpdateDDAStatus : DatadogAgentStatus RC → GoM W unit
}.

(** What [addDDAIStatusToDDAStatus] reads. *)
Definition asDDAI {RC : Type} (name : string) (s : StoredInternal RC) : DDAI :=
  mkDDAI name (sd_Labels s) (ist_Agent (sd_Status s)) (ist_ClusterAgent (sd_Status s))
    (ist_ClusterChecksRunner (sd_Status s)) (ist_Conditions (sd_Status s)).

Section Lifecycle.
Context {W RC : Type} `{EqDecision RC} `{InternalClient W RC}.
(** [encoding/json] of a spec whose slices are in the arrays. *)
Context (specJSON : Arrays → DatadogAgentSpec → json).

Definition createOrUpdateDDAI (h : Arrays) (ddai : DatadogAgentInternal) : GoM W unit :=
  current ← attempt (client_GetDDAI (ddi_Key ddai));
  match current with
  | inr err => if IsNotFound err then client_CreateDDAI ddai (specJSON h (ddi_Spec ddai)) else fail err
  | inl currentDDAI =>
      if bool_decide (sd_Annotations currentDDAI = ddi_Annotations ddai) then mret tt
      else client_UpdateDDAI ddai (specJSON h (ddi_Spec ddai))
  end.

Definition validKey (k : Key) : string := k.1 +:+ "/" +:+ k.2.

Definition cleanUpUnusedDDAIs (validDDAIs : list DatadogAgentInternal) : GoM W unit :=
  let validDDAIMap : gset string := list_to_set (validKey ∘ ddi_Key <$> validDDAIs) in
  items ← client_ListDDAIs;
  for_each (λ '(k, _), if bool_decide (validKey k ∈ validDDAIMap) then mret tt else client_DeleteDDAI k) items.

Definition addRemoteConfigStatusToDDAIStatus (ddaStatus : DatadogAgentStatus RC) (ddai : DatadogAgentInternal) : GoM W Result :=
  current ← client_GetDDAI (ddi_Key ddai);
  if bool_decide (st_RemoteConfig ddaStatus = sd_RemoteConfig current) then mret zeroResult
  else
    r ← attempt (client_UpdateDDAIRemoteConfig (ddi_Key ddai) (st_RemoteConfig ddaStatus));
    match r with
    | inl _ => mret zeroResult
    | inr err => if IsConflict err then mret (RequeueAfter Second) else fail err
    end.

Definition addDDAIStatus (status : DatadogAgentStatus RC) (ddai : DatadogAgentInternal) (now : Time) : GoM W (DatadogAgentStatus RC) :=
  current ← attempt (client_GetDDAI (ddi_Key ddai));
  of_sum (addDDAIStatusToDDAStatus status
            (match current with inl s => inl (asDDAI (ddi_Name ddai) s) | inr err => inr err end) now).

(** One iteration: the status so far, or [None] when the loop is left early. *)
Definition applyDDAI (h : Arrays) (now : Time) (newDDAStatus : DatadogAgentStatus RC) (ddai : DatadogAgentInternal) :
    GoM W (option (DatadogAgentStatus RC)) :=
  _ ← createOrUpdateDDAI h ddai;
  newDDAStatus ← addDDAIStatus newDDAStatus ddai now;
  res ← addRemoteConfigStatusToDDAIStatus newDDAStatus ddai;
  mret (if ShouldReturn res None then None else Some newDDAStatus).

Fixpoint applyDDAIs (h : Arrays) (now : Time) (newDDAStatus : DatadogAgentStatus RC) (ddais : list DatadogAgentInternal) :
    GoM W (option (DatadogAgentStatus RC)) :=
  match ddais with
  | [] => mret (Some newDDAStatus)
  | ddai :: ddais =>
      r ← applyDDAI h now newDDAStatus ddai;
      match r with
      | Some newDDAStatus => applyDDAIs h now newDDAStatus ddais
      | None => mret None
      end
  end.

(** The loop over the DatadogAgentInternals and the cleanup after it. *)
Definition renewDDAIs (h : Arrays) (now : Time) (newDDAStatus : DatadogAgentStatus RC) (ddais : list DatadogAgentInternal) :
    GoM W (option (DatadogAgentStatus RC)) :=
  applied ← applyDDAIs h now newDDAStatus ddais;
  match applied with
  | None => mret None
  | Some newDDAStatus => _ ← cleanUpUnusedDDAIs ddais; mret (Some newDDAStatus)
  end.

(** ** The reconcile *)

(** [updateStatusIfNeeded]; [forwarder]: the condition of the metrics forwarder. *)
Definition finishReconcile (forwarder : option ForwarderCondition) (persisted newStatus : DatadogAgentStatus RC) (result : Duration)
    (currentError : option error) (now : Time) : GoM W Duration :=
  let answer update := updateStatusIfNeeded persisted newStatus forwarder result currentError now update in
  let returned (r : Duration * option error) : GoM W Duration := match r.2 with None => mret r.1 | Some e => fail e end in
  match (answer None).1 with
  | None => returned (answer None).2
  | Some written =>
      u ← attempt (client_UpdateDDAStatus written);
      returned (answer (match u with inl _ => None | inr e => Some e end)).2
  end.
End Lifecycle.

Definition clusterProviderGateRequeue : Duration := (2 * Second)%Z.
Definition defaultRequeuePeriod : Duration := (15 * Second)%Z.

(** [r, err := m; if err != nil { return onError(err) }; next(r)] *)
Definition orElse {S A B : Type} (m : GoM S A) (onError : error → GoM S B) (next : A → GoM S B) : GoM S B :=
  r ← attempt m; match r with inl a => next a | inr e => onError e end.

(** A computation over the arrays alone, which are passed on. *)
Definition onArrays {W A : Type} (h : Arrays) (m : GoM Arrays A) : GoM W (Arrays * A) :=
  match m h with
  | (h, Ret a) => mret (h, a)
  | (_, Fail e) => fail e
  | (_, Panic) => panic
  end.

Definition set_st_Experiment {RC : Type} (e : option ExperimentStatus) (s : DatadogAgentStatus RC) : DatadogAgentStatus RC :=
  mkStatus (st_Conditions s) (st_AgentList s) (st_Agent s) (st_ClusterAgent s) (st_ClusterChecksRunner s)
    (st_OtelAgentGateway s) (st_RemoteConfig s) e (st_ClusterProvider s).

(** The experiment's status in the new status, and the revisions that were listed. *)
Definition onRevisions {W A : Type} (revList : list ControllerRevision) (newExp : option ExperimentStatus) (resourceVersion : string)
    (m : GoM (ReconcileState W) A) : GoM W (option ExperimentStatus * A) := λ w,
  match m (mkRState w revList newExp resourceVersion) with
  | (s, Ret a) => (st_world s, Ret (st_newExp s, a))
  | (s, Fail e) => (st_world s, Fail e)
  | (s, Panic) => (st_world s, Panic)
  end.

Definition GetAgentName (dda : Agent) : string := dda_Name dda +:+ "-" +:+ DefaultAgentResourceSuffix.

Definition GetDaemonSetNameFromDatadogAgent (dda : Agent) : outcome string :=
  match Spec_Override (dda_Spec dda) !! NodeAgentComponentName with
  | None => Ret (GetAgentName dda)
  | Some componentOverride =>
      o ← deref componentOverride;
      let name := StringValue (Override_Name o) in
      Ret (if bool_decide (name = "") then GetAgentName dda else name)
  end.

Definition spec_CommonLabels (s : DatadogAgentSpec) : option (gmap string string) := Global_CommonLabels <$> Spec_Global s.

Section Controller.
Context {W RC Requirement : Type} `{EqDecision RC}.
Context `{ClusterClient W DatadogAgentSpec} `{SnapshotCodec DatadogAgentSpec} `{NodeLabelClient W} `{InternalClient W RC}.

(** What the sections above take. *)
Context (slack : nat → nat) (Apply : DatadogAgentInternal → DatadogAgentInternal → GoM Arrays DatadogAgentInternal).
Context (removeNestedField : list string → DatadogAgentInternal → GoM Arrays DatadogAgentInternal).
Context (specMD5 : Arrays → DatadogAgentSpec → string + error) (specJSON : Arrays → DatadogAgentSpec → json).
Context (ddaGVK : Cluster.GroupVersionKind + error) (tokenHash : string → string).
(** What [Revision.v] and [Experiment.v] take. *)
Context (ExperimentTimeout : Duration) (SafeEncodeString : string → string) (ObjectKinds : list Cluster.GroupVersionKind + error).
(** What [Profiles.v] takes. *)
Context (NewRequirement : string → string → list string → Requirement + error).
Context (Matches : Requirement → gmap string string → bool).
Context (ValidateDatadogAgentProfileSpec : option (list NodeSelectorRequirement) → DatadogAgentSpec → option error).
Context (ApplyProfileSharedConfigOverlays : DatadogAgentSpec → DatadogAgentSpec → DatadogAgentSpec → DatadogAgentSpec + error).
Context (SpecHash : option (list NodeSelectorRequirement) → DatadogAgentSpec → string).
Context (spec_MaxUnavailable : DatadogAgentSpec → option IntOrString) (GetScaledValue : IntOrString → Z → Z + error).
Context (createStrategy IntrospectionEnabled ProfileEnabled EDSEnabled CreateControllerRevisions : bool).
Context (GetAgentNameWithProvider : string → string → string) (ShouldUseDefaultDaemonset : gset string → bool).
(** What is read during a reconcile: profiles, nodes, their DatadogAgentInternals and DaemonSets. *)
Context (listProfiles : list AgentProfile + error) (listNodes : list ClusterNode + error).
Context (getDDAI : AgentProfile → DDAI + error) (getDS : string → Z + error).
(** [manageDDADependenciesWithDDAI]: it may set the token in the status. *)
Context (manageDependencies : list DatadogAgentInternal → DatadogAgentStatus RC → GoM W (DatadogAgentStatus RC)).
(** Options of the operator, the detector, the [%q] verb, the metrics forwarder
    and [newFieldManager]. *)
Context (edsMaxUnavailable : option IntOrString) (detector : option ProviderReader) (quoted : string → string).
Context (forwarder : option ForwarderCondition) (newFieldManager : option error).

(** [GetMaxUnavailableFromSpecAndEDS] without a custom default. *)
Definition GetMaxUnavailableFromSpecAndEDS (spec : DatadogAgentSpec) : IntOrString :=
  match spec_MaxUnavailable spec with
  | Some v => v
  | None => default (IntVal 1) edsMaxUnavailable
  end.

(** The DatadogAgentInternals of the DatadogAgent and of the profiles applied. *)
Definition computeDDAIs (h : Arrays) (instance : Agent) (ddai : DatadogAgentInternal) (now : Time) :
    GoM W (Arrays * list DatadogAgentInternal) :=
  if negb ProfileEnabled then mret (h, [ddai])
  else
    dsName ← of_outcome (GetDaemonSetNameFromDatadogAgent instance);
    x ← onArrays h (Internal_DeepCopy ddai);
    let defaultDDAI := x.2 in
    p ← reconcileProfiles NewRequirement Matches ValidateDatadogAgentProfileSpec ApplyProfileSharedConfigOverlays SpecHash
          spec_MaxUnavailable GetScaledValue createStrategy IntrospectionEnabled ProfileEnabled EDSEnabled
          GetAgentNameWithProvider ShouldUseDefaultDaemonset zeroSpec listProfiles listNodes getDDAI getDS dsName
          (GetMaxUnavailableFromSpecAndEDS (dda_Spec instance)) (ddi_Spec defaultDDAI) now;
    let '(appliedProfiles, accumulatedSpec, _) := p in
    onArrays x.1 (applyProfilesToDDAISpec slack Apply removeNestedField specMD5 ddai
                    (set_ddi_Spec accumulatedSpec defaultDDAI) appliedProfiles).

(** Experiments and revisions: the new status, or the status to write and the error. *)
Definition manageRevisions (instance : Agent) (rawSpec : DatadogAgentSpec) (persisted newStatus : DatadogAgentStatus RC) (now : Time) :
    GoM W (DatadogAgentStatus RC + DatadogAgentStatus RC * error) :=
  if negb CreateControllerRevisions then mret (inl newStatus)
  else
    r ← attempt (listRevisions instance);
    match r with
    | inr err => mret (inr (persisted, err))
    | inl revList =>
        x ← onRevisions revList (st_Experiment newStatus) (dda_ResourceVersion instance)
              (attempt (_ ← manageExperiment ExperimentTimeout (with_spec rawSpec instance) now;
                        manageRevision SafeEncodeString spec_CommonLabels ObjectKinds instance rawSpec));
        let newStatus := set_st_Experiment x.1 newStatus in
        mret (match x.2 with inl _ => inl newStatus | inr err => inr (newStatus, err) end)
    end.

Definition reconcileInstance (h : Arrays) (instance : Agent) (rawSpec : DatadogAgentSpec) (persisted : DatadogAgentStatus RC)
    (now : Time) : GoM W Duration :=
  _ ← check newFieldManager;
  let newStatus := generateNewStatusFromDDA (Some persisted) in
  let finish status result err := finishReconcile forwarder persisted status result err now in
  match resolveClusterProvider (dda_Annotations instance) persisted detector with
  | None => mret clusterProviderGateRequeue
  | Some (provider, source) =>
      r ← manageRevisions instance rawSpec persisted (setClusterProviderStatus quoted newStatus provider source now) now;
      match r with
      | inr (status, err) => finish status 0%Z (Some err)
      | inl newStatus =>
          let giveUp err := finish persisted 0%Z (Some err) in
          orElse (onArrays h (generateDDAIFromDDA specMD5 ddaGVK tokenHash instance provider)) giveUp (λ x,
          orElse (computeDDAIs x.1 instance x.2 now) giveUp (λ y,
          orElse (manageDependencies y.2 newStatus) giveUp (λ newStatus,
          orElse (renewDDAIs specJSON y.1 now newStatus y.2) giveUp (λ applied,
          match applied with
          | None => finish persisted 0%Z None
          | Some newStatus => finish newStatus defaultRequeuePeriod None
          end))))
      end
  end.

(** *** Validation, finalizer and defaults *)

(** [k8s.io/apimachinery/pkg/util/validation], and the order of a map. *)
Context (IsQualifiedName IsValidLabelValue : string → list string) (range : gmap string string → list (string * string)).

(** [strings.Join(errs, "; ")] *)
Fixpoint joinErrors (errs : list string) : string :=
  match errs with
  | [] => ""
  | [e] => e
  | e :: errs => e +:+ "; " +:+ joinErrors errs
  end.

Definition validateCommonLabel (key value : string) : option error :=
  match filter (λ p, HasPrefix key p = true) reservedLabelPrefixes with
  | prefix :: _ =>
      Some (Errorf ("spec.global.commonLabels contains reserved key " +:+ quoted key +:+ " (prefix " +:+ quoted prefix +:+
        " is owned by the operator); remove it to avoid interfering with operator-internal label-based control flow"))
  | [] =>
      match IsQualifiedName key, IsValidLabelValue value with
      | [], [] => None
      | [], errs => Some (Errorf ("spec.global.commonLabels contains invalid value " +:+ quoted value +:+ " for key " +:+
                                  quoted key +:+ ": " +:+ joinErrors errs))
      | errs, _ => Some (Errorf ("spec.global.commonLabels contains invalid label key " +:+ quoted key +:+ ": " +:+ joinErrors errs))
      end
  end.

(** The first error in the order of the map. *)
Definition validateCommonLabels (commonLabels : gmap string string) : option error :=
  head (omap (λ '(k, v), validateCommonLabel k v) (range commonLabels)).

Definition ValidateDatadogAgent (spec : DatadogAgentSpec) : option error :=
  let notConfigured := Errorf "credentials not configured in the DatadogAgent, can't reconcile" in
  match Spec_Global spec with
  | None => Some notConfigured
  | Some g => match Global_Credentials g with
              | None => Some notConfigured
              | Some _ => validateCommonLabels (Global_CommonLabels g)
              end
  end.

(** [handleFinalizer]: [HandleFinalizer] of [Remote.v], with [profilesCleanup]. *)
Definition internalReconcile (handleFinalizer : GoM W (Result * option error)) (h : Arrays) (instance : Agent)
    (persisted : DatadogAgentStatus RC) (now : Time) : GoM W Duration :=
  _ ← check (ValidateDatadogAgent (dda_Spec instance));
  f ← handleFinalizer;
  if ShouldReturn f.1 f.2
  then match f.2 with Some err => fail err | None => mret (res_RequeueAfter f.1) end
  else
    x ← onArrays h (Spec_DeepCopy (dda_Spec instance));
    match DefaultDatadogAgentSpec x.2 with
    | None => panic
    | Some spec =>
        let spec := if IsAutopilotEnabled (dda_Annotations instance) then ensureGCRAutopilotRegistry spec else spec in
        reconcileInstance x.1 (with_spec spec instance) (dda_Spec instance) persisted now
    end.

(** The labels a node is patched to when the DatadogAgent is deleted. *)
Definition withoutProfileLabels (labels : gmap string string) : gmap string string :=
  delete ProfileLabelKey (delete OldProfileLabelKey labels).

Definition profilesCleanup : GoM W unit :=
  nodeList ← of_sum listNodes;
  for_each (λ node,
    if bool_decide (cn_Labels node !! ProfileLabelKey = None) && bool_decide (cn_Labels node !! OldProfileLabelKey = None)
    then mret tt
    else
      r ← attempt (client_PatchNodeLabels (cn_Name node) (withoutProfileLabels (cn_Labels node)));
      match r with
      | inr err => if IsNotFound err then mret tt else fail err
      | inl _ => mret tt
      end) nodeList.
End Controller.
