(* ===== verification/AgentControllerTheorems.v ===== *)
(** * Properties of the reconcile of a DatadogAgent.

    The DatadogAgentInternals converge and are replaced before they are deleted;
    they refer to secrets for the keys; those of profiles run the node agent only,
    on nodes of their own. *)

From Stdlib Require Import ZArith Ascii Lia.
From stdpp Require Import base gmap strings list pretty.
From S2P Require Import Prelude GoRun Cluster Revision Experiment Status Untaint Profiles Remote FleetData PodMerger Objects.
From S2P Require Import Affinity AffinityTheorems AgentSpec Defaults Images Identity Override Install Workloads Features.
From S2P Require Import AgentInternals AgentController.

(** ** The API server *)

Definition noInternalStatus : InternalStatus := mkInternalStatus [] None None None None.

Section Server.
Context {RC : Type}.
Implicit Types (d : DatadogAgentInternal) (s : StoredInternal RC) (c : gmap Key (StoredInternal RC)).

Definition created d (spec : json) : StoredInternal RC :=
  mkStored (ddi_Labels d) (ddi_Annotations d) (ddi_Finalizers d) (ddi_OwnerReferences d) spec false noInternalStatus None.

(** An update leaves the status, and a deletion that waits. *)
Definition updated d (spec : json) s : StoredInternal RC :=
  mkStored (ddi_Labels d) (ddi_Annotations d) (ddi_Finalizers d) (ddi_OwnerReferences d) spec (sd_Deleting s) (sd_Status s)
    (sd_RemoteConfig s).

Definition with_RemoteConfig (rc : option RC) s : StoredInternal RC :=
  mkStored (sd_Labels s) (sd_Annotations s) (sd_Finalizers s) (sd_OwnerReferences s) (sd_Spec s) (sd_Deleting s) (sd_Status s) rc.

(** What a deletion leaves: an object with finalizers waits for them. *)
Definition deleted s : option (StoredInternal RC) :=
  if bool_decide (sd_Finalizers s = []) then None
  else Some (mkStored (sd_Labels s) (sd_Annotations s) (sd_Finalizers s) (sd_OwnerReferences s) (sd_Spec s) true (sd_Status s)
               (sd_RemoteConfig s)).

Definition delete_at (k : Key) c : gmap Key (StoredInternal RC) := partial_alter (λ o, o ≫= deleted) k c.
End Server.

(** A call that fails may have taken effect. *)
Definition effective {W V A : Type} (view : W → V) (post : V → V → A → Prop) (m : GoM W A) : Prop :=
  ∀ w, match m w with
       | (w', Ret a) => post (view w) (view w') a
       | (w', Fail _) => view w' = view w ∨ ∃ a, post (view w) (view w') a
       | (_, Panic) => False
       end.

(** What the API server promises for DatadogAgentInternals. *)
Class InternalServer (W RC : Type) `{InternalClient W RC} := {
  internals : W → gmap Key (StoredInternal RC);
  law_GetDDAI k : effective internals (λ c c' s, c' = c ∧ c !! k = Some s) (client_GetDDAI k);
  law_CreateDDAI d j :
    effective internals (λ c c' _, c !! ddi_Key d = None ∧ c' = <[ddi_Key d := created d j]> c) (client_CreateDDAI d j);
  law_UpdateDDAI d j :
    effective internals (λ c c' _, ∃ s, c !! ddi_Key d = Some s ∧ c' = <[ddi_Key d := updated d j s]> c) (client_UpdateDDAI d j);
  law_ListDDAIs : effective internals (λ c c' l, c' = c ∧ l ≡ₚ map_to_list c) client_ListDDAIs;
  law_DeleteDDAI k : effective internals (λ c c' _, is_Some (c !! k) ∧ c' = delete_at k c) (client_DeleteDDAI k);
  law_UpdateDDAIRemoteConfig k rc :
    effective internals (λ c c' _, ∃ s, c !! k = Some s ∧ c' = <[k := with_RemoteConfig rc s]> c)
      (client_UpdateDDAIRemoteConfig k rc);
  law_UpdateDDAStatus status : effective internals (λ c c' _, c' = c) (client_UpdateDDAStatus status)
}.

Definition same_internals {W RC : Type} `{InternalServer W RC} (w w' : W) : Prop := internals w' = internals w.

#[export] Instance same_internals_preorder {W RC} `{InternalServer W RC} : PreOrder same_internals.
Proof. split; [by intros w|]. intros w1 w2 w3 H1 H2. unfold same_internals in *. by rewrite H2. Qed.

Abbreviation keeps := (stays same_internals).

(** What it promises for the other objects: DatadogAgentInternals are not touched. *)
Class RevisionFrames (W RC Spec : Type) `{InternalServer W RC} `{ClusterClient W Spec} := {
  frame_GetRevision ns n : keeps (client_GetRevision (W := W) ns n);
  frame_PatchRevision r p : keeps (client_PatchRevision (W := W) r p);
  frame_CreateRevision r : keeps (client_CreateRevision (W := W) r);
  frame_DeleteRevision r : keeps (client_DeleteRevision (W := W) r);
  frame_ListRevisions ns k v : keeps (client_ListRevisions (W := W) ns k v);
  frame_GetDDA ns n : keeps (client_GetDDA (W := W) ns n);
  frame_UpdateDDA d : keeps (client_UpdateDDA (W := W) d);
  frame_JSONPatchDDA ns n ops : keeps (client_JSONPatchDDA (W := W) ns n ops)
}.

Class NodeFrames (W RC : Type) `{InternalServer W RC} `{NodeLabelClient W} := {
  frame_GetClusterNode n : keeps (client_GetClusterNode (W := W) n);
  frame_PatchNodeLabels n l : keeps (client_PatchNodeLabels (W := W) n l);
  frame_ListAgentPods : keeps (client_ListAgentPods (W := W));
  frame_DeletePod n : keeps (client_DeletePod (W := W) n)
}.
#[export] Hint Resolve frame_GetClusterNode frame_PatchNodeLabels frame_ListAgentPods frame_DeletePod : stays.

(** ** What leaves the DatadogAgentInternals alone *)

Section Frames.
Context {W RC : Type} `{InternalServer W RC} `{ClusterClient W DatadogAgentSpec} `{NodeLabelClient W}.
Context `{!RevisionFrames W RC DatadogAgentSpec} `{!NodeFrames W RC} `{SnapshotCodec DatadogAgentSpec}.

Definition same_world (s s' : ReconcileState W) : Prop := same_internals (st_world s) (st_world s').

#[export] Instance same_world_preorder : PreOrder same_world.
Proof. split; [by intros s|]. intros s1 s2 s3 H12 H23. unfold same_world in *. by etrans. Qed.

Lemma unseen_call {A} (m : GoM W A) : keeps m → stays same_world (Revision.call m).
Proof. intros Hm s. specialize (Hm (st_world s)). unfold Revision.call. by destruct (m (st_world s)). Qed.

Lemma unseen_modify f : (∀ s, st_world (f s) = st_world s) → stays same_world (modify f).
Proof. intros Hf. apply stays_modify. intros s. unfold same_world, same_internals. by rewrite Hf. Qed.

Ltac unseen :=
  repeat first
    [ progress stays
    | apply unseen_modify; done
    | apply unseen_call;
      first [apply frame_GetRevision | apply frame_PatchRevision | apply frame_CreateRevision | apply frame_DeleteRevision
            | apply frame_GetDDA | apply frame_UpdateDDA | apply frame_JSONPatchDDA]
    | match goal with |- stays _ (let '_ := ?x in _) => destruct x end ].

Lemma unseen_patch rev p : stays same_world (patch_through rev p).
Proof. unfold patch_through. unseen. Qed.
Lemma unseen_mark rev state : stays same_world (markRevisionState rev state).
Proof. unfold markRevisionState. unseen. apply unseen_patch. Qed.
Lemma unseen_update f : stays same_world (update_newExp f).
Proof. unfold update_newExp. unseen. Qed.
Lemma unseen_markHighest state : stays same_world (markHighest state).
Proof. unfold markHighest. unseen. apply unseen_mark. Qed.
Lemma unseen_restore i reason : stays same_world (restorePreviousSpec i reason).
Proof. unfold restorePreviousSpec, rollback. unseen; try apply unseen_update; apply unseen_mark. Qed.
Hint Resolve unseen_patch unseen_mark unseen_update unseen_markHighest unseen_restore : stays.

Lemma unseen_manageExperiment timeout i now : stays same_world (manageExperiment timeout i now).
Proof.
  unfold manageExperiment, processExperimentSignal, processStartSignal, processRollbackSignal, processPromoteSignal.
  unfold handleRollback, abortExperiment, abortNow, clearBestEffort, clearExperimentAnnotations. unseen.
Qed.

Lemma unseen_manageRevision enc labels kinds i spec : stays same_world (manageRevision enc labels kinds i spec).
Proof.
  unfold manageRevision, ensureRevision, recreateRevision, createRevision, reuseRevision, gcOldRevisions. unseen.
Qed.

(** *** The phases before the DatadogAgentInternals are applied *)

Lemma keeps_effective {A} (post : gmap Key (StoredInternal RC) → gmap Key (StoredInternal RC) → A → Prop) (m : GoM W A) :
  effective internals post m → (∀ c c' a, post c c' a → c' = c) → keeps m.
Proof.
  intros Hm Hp w. specialize (Hm w). unfold same_internals. destruct (m w) as [w' [a|e|]]; cbn in *; [by eapply Hp| |done].
  destruct Hm as [?|[a Ha]]; [done|by eapply Hp].
Qed.

Lemma keeps_onRevisions {A} revs e rv (m : GoM (ReconcileState W) A) : stays same_world m → keeps (onRevisions revs e rv m).
Proof. intros Hm w. specialize (Hm (mkRState w revs e rv)). unfold onRevisions. by destruct (m _) as [s []]. Qed.

Lemma keeps_onArrays {A} h (m : GoM Arrays A) : keeps (onArrays (W := W) h m).
Proof. intros w. unfold onArrays. destruct (m h) as [h' []]; unfold same_internals; done. Qed.

Lemma keeps_of_outcome {A} (r : outcome A) : keeps (of_outcome (S := W) r).
Proof. intros w. done. Qed.

Hint Resolve keeps_onArrays keeps_of_outcome : stays.

Lemma keeps_labelNodes l : keeps (labelNodesWithProfiles (W := W) l).
Proof. unfold labelNodesWithProfiles, labelNode. unseen. Qed.
Lemma keeps_cleanupPods m : keeps (cleanupPodsForProfilesThatNoLongerApply (W := W) m).
Proof. unfold cleanupPodsForProfilesThatNoLongerApply. unseen. Qed.
Hint Resolve keeps_labelNodes keeps_cleanupPods : stays.
End Frames.
#[export] Hint Resolve keeps_onArrays keeps_of_outcome keeps_labelNodes keeps_cleanupPods : stays.

(** ** Creating, updating and deleting DatadogAgentInternals *)

Section Faults.
Context {W RC : Type} `{EqDecision RC} `{InternalServer W RC} (specJSON : Arrays → DatadogAgentSpec → json).
Implicit Types (h : Arrays) (d : DatadogAgentInternal) (l : list DatadogAgentInternal) (w : W).

(** What a deletion or an update changes: the annotations and the spec, and
    whether it is being deleted. *)
Abbreviation Content := (gmap string string * json)%type.
Definition glance (s : StoredInternal RC) : Content * bool := ((sd_Annotations s, sd_Spec s), sd_Deleting s).
Definition glances (w : W) : gmap Key (Content * bool) := glance <$> internals w.

(** An entry with the annotations, the hash of the spec among them, stays as it is. *)
Definition placedContent (h : Arrays) (d : DatadogAgentInternal) (c : option Content) : Content :=
  match c with
  | Some c => if bool_decide (c.1 = ddi_Annotations d) then c else (ddi_Annotations d, specJSON h (ddi_Spec d))
  | None => (ddi_Annotations d, specJSON h (ddi_Spec d))
  end.

Definition placed (h : Arrays) (d : DatadogAgentInternal) (g : gmap Key (Content * bool)) : gmap Key (Content * bool) :=
  <[ddi_Key d := (placedContent h d (fst <$> g !! ddi_Key d), from_option snd false (g !! ddi_Key d))]> g.

Lemma placed_id h d (g : gmap Key (Content * bool)) j b :
  g !! ddi_Key d = Some ((ddi_Annotations d, j), b) → placed h d g = g.
Proof. intros Hg. unfold placed, placedContent. rewrite Hg. cbn. rewrite bool_decide_true by done. by apply insert_id. Qed.

(** A call that may fail: seen by its effect on the glances. *)
Lemma wp_effective {A} (post : gmap Key (StoredInternal RC) → gmap Key (StoredInternal RC) → A → Prop) (m : GoM W A)
    (Q : W → outcome A → Prop) w :
  effective internals post m →
  (∀ w' a, post (internals w) (internals w') a → Q w' (Ret a)) →
  (∀ w' e, internals w' = internals w ∨ (∃ a, post (internals w) (internals w') a) → Q w' (Fail e)) → wp m Q w.
Proof. intros Hm Hr Hf. specialize (Hm w). unfold wp. destruct (m w) as [w' []]; cbn in *; auto. done. Qed.

Lemma glances_created w w' h d :
  internals w !! ddi_Key d = None → internals w' = <[ddi_Key d := created d (specJSON h (ddi_Spec d))]> (internals w) →
  glances w' = placed h d (glances w).
Proof. intros Hn Hw. unfold glances, placed. rewrite Hw, fmap_insert, lookup_fmap, Hn. done. Qed.

Lemma glances_updated w w' h d s :
  internals w !! ddi_Key d = Some s → sd_Annotations s ≠ ddi_Annotations d →
  internals w' = <[ddi_Key d := updated d (specJSON h (ddi_Spec d)) s]> (internals w) → glances w' = placed h d (glances w).
Proof.
  intros Hs Ha Hw. unfold glances, placed, placedContent. rewrite Hw, fmap_insert, lookup_fmap, Hs. cbn.
  by rewrite bool_decide_false.
Qed.

Lemma glances_same w w' : internals w' = internals w → glances w' = glances w.
Proof. unfold glances. by intros ->. Qed.

Lemma wp_createOrUpdateDDAI h d w :
  wp (createOrUpdateDDAI specJSON h d)
    (λ w' o, match o with Ret _ => glances w' = placed h d (glances w)
             | _ => glances w' = glances w ∨ glances w' = placed h d (glances w) end) w.
Proof.
  unfold createOrUpdateDDAI. apply wp_bind, wp_attempt. eapply wp_effective; [apply law_GetDDAI|..]; cbn.
  - intros w1 s [Hw Hs]. case_bool_decide as Ha.
    + apply wp_ret. rewrite (glances_same w w1) by done. symmetry. apply (placed_id h d _ (sd_Spec s) (sd_Deleting s)).
      unfold glances. rewrite lookup_fmap, Hs. cbn. unfold glance. by rewrite Ha.
    + eapply wp_effective; [apply law_UpdateDDAI|..].
      * intros w2 _ (s' & Hs' & Hw'). rewrite <- (glances_same w w1) by done. eapply (glances_updated _ _ h d s'); congruence.
      * intros w2 e [Hw'|(_ & s' & Hs' & Hw')]; [left; apply glances_same; congruence|right].
        rewrite <- (glances_same w w1) by done. eapply (glances_updated _ _ h d s'); congruence.
  - intros w1 e Hw. assert (internals w1 = internals w) as Hw1 by (destruct Hw as [?|(? & ? & _)]; done).
    destruct (IsNotFound e); [|apply wp_fail; left; by apply glances_same].
    eapply wp_effective; [apply law_CreateDDAI|..].
    + intros w2 _ (Hn & Hw'). rewrite <- (glances_same w w1) by done. by eapply glances_created.
    + intros w2 e' [Hw'|(_ & Hn & Hw')]; [left; apply glances_same; congruence|right].
      rewrite <- (glances_same w w1) by done. by eapply glances_created.
Qed.

(** The calls that follow leave what a glance sees. *)
Definition same_glances (w w' : W) : Prop := glances w' = glances w.

#[export] Instance same_glances_preorder : PreOrder same_glances.
Proof. split; [by intros w|]. intros w1 w2 w3 H1 H2. unfold same_glances in *. by rewrite H2. Qed.

Lemma glances_effective {A} (post : gmap Key (StoredInternal RC) → gmap Key (StoredInternal RC) → A → Prop) (m : GoM W A) :
  effective internals post m → (∀ c c' a, post c c' a → glance <$> c' = glance <$> c) → stays same_glances m.
Proof.
  intros Hm Hp w. apply (wp_effective post m (λ w' _, same_glances w w') w Hm).
  - intros w' a Ha. by eapply Hp.
  - intros w' e [Hw|[a Ha]]; [by apply glances_same|by eapply Hp].
Qed.

Lemma glances_Get k : stays same_glances (client_GetDDAI (W := W) (RC := RC) k).
Proof. eapply glances_effective; [apply law_GetDDAI|]. by intros c c' s [-> _]. Qed.
Lemma glances_RemoteConfig k rc : stays same_glances (client_UpdateDDAIRemoteConfig (W := W) (RC := RC) k rc).
Proof.
  eapply glances_effective; [apply law_UpdateDDAIRemoteConfig|]. intros c c' _ (s & Hs & ->).
  rewrite fmap_insert. apply insert_id. by rewrite lookup_fmap, Hs.
Qed.
Hint Resolve glances_Get glances_RemoteConfig : stays.

Lemma glances_addDDAIStatus st d now : stays same_glances (addDDAIStatus (W := W) (RC := RC) st d now).
Proof. unfold addDDAIStatus. stays. Qed.
Lemma glances_addRemoteConfig st d : stays same_glances (addRemoteConfigStatusToDDAIStatus (W := W) (RC := RC) st d).
Proof. unfold addRemoteConfigStatusToDDAIStatus. stays. Qed.

Lemma wp_stays {S A} (Rel : relation S) (m : GoM S A) (Q : S → outcome A → Prop) s :
  stays Rel m → (∀ s' o, Rel s s' → Q s' o) → wp m Q s.
Proof. intros Hm HQ. apply HQ, Hm. Qed.

Lemma wp_applyDDAI h now st d w :
  wp (applyDDAI specJSON h now st d)
    (λ w' o, match o with Ret (Some _) => glances w' = placed h d (glances w)
             | _ => glances w' = glances w ∨ glances w' = placed h d (glances w) end) w.
Proof.
  unfold applyDDAI. apply wp_bind. eapply wp_mono; [apply wp_createOrUpdateDDAI|]. intros w1 [_|e|] Hg; [|done..].
  apply wp_bind. eapply wp_stays; [apply glances_addDDAIStatus|]. intros w2 o H2. unfold same_glances in H2.
  destruct o as [st'|e|]; [|right; congruence..].
  apply wp_bind. eapply wp_stays; [apply glances_addRemoteConfig|]. intros w3 o H3. unfold same_glances in H3.
  destruct o as [res|e|]; [|right; congruence..]. apply wp_ret. destruct (ShouldReturn res None); [right|]; congruence.
Qed.

(** A prefix of the DatadogAgentInternals has been placed, all when it succeeds. *)
Lemma wp_applyDDAIs h now st l w :
  wp (applyDDAIs specJSON h now st l)
    (λ w' o, ∃ l', l' `prefix_of` l ∧ glances w' = foldl (flip (placed h)) (glances w) l' ∧
                   match o with Ret (Some _) => l' = l | _ => True end) w.
Proof.
  revert st w. induction l as [|d l IH]; intros st w; [by apply wp_ret; exists []|].
  cbn [applyDDAIs]. apply wp_bind. eapply wp_mono; [apply wp_applyDDAI|].
  assert (Hstop : ∀ w', glances w' = glances w ∨ glances w' = placed h d (glances w) →
            ∃ l', l' `prefix_of` d :: l ∧ glances w' = foldl (flip (placed h)) (glances w) l').
  { intros w' [Hw|Hw]; [by exists []; split; [apply prefix_nil|]|]. exists [d]. split; [apply prefix_cons, prefix_nil|done]. }
  intros w1 [[st'|]|e|] Hg; try (destruct (Hstop w1 Hg) as (l' & Hp & Hl); by exists l').
  eapply wp_mono; [apply IH|]. intros w2 o (l' & Hp & Hl & Ho). exists (d :: l'). split; [by apply prefix_cons|].
  split; [by rewrite Hl, Hg|]. destruct o as [[]| |]; [by f_equal|done..].
Qed.

(** The cleanup only takes what is not valid. *)
Lemma wp_cleanUp l w :
  wp (cleanUpUnusedDDAIs (RC := RC) l) (λ w' _, ∀ k, validKey k ∈ (validKey ∘ ddi_Key <$> l) → glances w' !! k = glances w !! k) w.
Proof.
  set (spares := λ w w' : W, ∀ k, validKey k ∈ (validKey ∘ ddi_Key <$> l) → glances w' !! k = glances w !! k).
  assert (PreOrder spares). { split; [by intros w0 k|]. intros w1 w2 w3 H1 H2 k Hk. by rewrite H2, H1. }
  assert (Hs : stays spares (cleanUpUnusedDDAIs (RC := RC) l)); [|apply Hs]. unfold cleanUpUnusedDDAIs.
  apply stays_bind; [done| |intros items; apply stays_for_each; [done|]; intros [k s]].
  - intros w0. apply (wp_effective _ _ (λ w' _, spares w0 w') w0 law_ListDDAIs).
    + intros w' a [Hw _] k _. by rewrite (glances_same w0).
    + intros w' e Hw k _. rewrite (glances_same w0); [done|]. by destruct Hw as [?|(? & ? & _)].
  - case_bool_decide as Hv; [by apply stays_ret|]. intros w0.
    assert (Hdel : ∀ w', internals w' = delete_at k (internals w0) → spares w0 w').
    { intros w' Hw k' Hk'. unfold glances. rewrite Hw, !lookup_fmap. unfold delete_at. rewrite lookup_partial_alter_ne; [done|].
      intros ->. by apply Hv, elem_of_list_to_set. }
    apply (wp_effective _ _ (λ w' _, spares w0 w') w0 (law_DeleteDDAI k)).
    + intros w' a [_ Hw]. by apply Hdel.
    + intros w' e [Hw|(_ & _ & Hw)]; [|by apply Hdel]. intros k' _. by rewrite (glances_same w0).
Qed.

Lemma placed_elsewhere h d (k : Key) (g : gmap Key (Content * bool)) : k ≠ ddi_Key d → placed h d g !! k = g !! k.
Proof. intros Hk. unfold placed. by rewrite lookup_insert_ne. Qed.

Lemma placed_none h l (k : Key) (g : gmap Key (Content * bool)) :
  k ∉ (ddi_Key <$> l) → foldl (flip (placed h)) g l !! k = g !! k.
Proof.
  revert g. induction l as [|d l IH]; intros g; [done|]. cbn. intros [Hd Hl]%not_elem_of_cons.
  rewrite IH by done. by apply placed_elsewhere.
Qed.

(** The DatadogAgentInternals that were there are, and those that were not about
    to be deleted are not. *)
Lemma placed_alive h l (g : gmap Key (Content * bool)) (k : Key) a :
  g !! k = Some (a, false) → ∃ a', foldl (flip (placed h)) g l !! k = Some (a', false).
Proof.
  revert g a. induction l as [|d l IH]; intros g a Hg; [by exists a|]. cbn [foldl flip]. destruct (decide (k = ddi_Key d)) as [->|Hk].
  - eapply IH. unfold placed. by rewrite lookup_insert_eq, Hg.
  - eapply (IH _ a). by rewrite placed_elsewhere.
Qed.

(** The entry is what [d] says: its annotations, and its spec, unless an entry
    with these annotations was there before. *)
Definition entered h d (before after : option (Content * bool)) : Prop :=
  ∃ j b, after = Some ((ddi_Annotations d, j), b) ∧
    (j = specJSON h (ddi_Spec d) ∨ ∃ b0, before = Some ((ddi_Annotations d, j), b0)).

(** All those wanted are there, as one of their name says. *)
Lemma placed_all h l (g : gmap Key (Content * bool)) d :
  d ∈ l → ∃ d', d' ∈ l ∧ ddi_Key d' = ddi_Key d ∧
    entered h d' (g !! ddi_Key d) (foldl (flip (placed h)) g l !! ddi_Key d).
Proof.
  revert d. induction l as [|x l IH] using rev_ind; intros d; [by intros []%elem_of_nil|].
  rewrite foldl_app. cbn [foldl]. unfold flip at 1. destruct (decide (ddi_Key x = ddi_Key d)) as [Hx|Hx]; intros Hd.
  - set (g1 := foldl _ g l). assert (placed h x g1 !! ddi_Key d =
      Some (placedContent h x (fst <$> g1 !! ddi_Key d), from_option snd false (g1 !! ddi_Key d))) as ->.
    { unfold placed. by rewrite Hx, lookup_insert_eq. }
    assert (x ∈ l ++ [x]) as Hxin by (apply elem_of_app; right; by left).
    assert (entered h x (g !! ddi_Key d)
      (Some ((ddi_Annotations x, specJSON h (ddi_Spec x)), from_option snd false (g1 !! ddi_Key d)))) as Hnew
      by (eexists _, _; split; [done|by left]).
    destruct (g1 !! ddi_Key d) as [[[a j] b]|] eqn:Hg1; cbn; [|by exists x].
    case_bool_decide as Ha; [|by exists x]. cbn in Ha. subst a.
    destruct (decide (ddi_Key d ∈ (ddi_Key <$> l))) as [(d0 & Hk & Hd0)%list_elem_of_fmap|Hn].
    + destruct (IH d0 Hd0) as (d' & Hd' & Hk' & He). fold g1 in He. rewrite <- Hk, Hg1 in He. exists d'.
      split; [apply elem_of_app; by left|]. split; [congruence|exact He].
    + exists x. split_and!; [done..|]. exists j, b. split; [done|right]. exists b. unfold g1 in Hg1. by rewrite placed_none in Hg1.
  - assert (d ∈ l) as Hl by (apply elem_of_app in Hd as [|Hd]; [done|]; apply list_elem_of_singleton in Hd; by subst).
    destruct (IH d Hl) as (d' & Hd' & Hk & Hg). exists d'. rewrite placed_elsewhere by done.
    split; [apply elem_of_app; by left|done].
Qed.
End Faults.

Lemma wp_orElse {S A B} (m : GoM S A) (onError : error → GoM S B) (next : A → GoM S B) (Q : S → outcome B → Prop) s :
  wp m (λ s' o, match o with Ret a => wp (next a) Q s' | Fail e => wp (onError e) Q s' | Panic => Q s' Panic end) s →
  wp (orElse m onError next) Q s.
Proof. intros Hm. unfold orElse. apply wp_bind, wp_attempt. eapply wp_mono; [exact Hm|]. by intros s' []. Qed.

(** ** A reconcile, call by call *)

Section Controller.
Context {W RC Requirement : Type} `{EqDecision RC}.
Context `{ClusterClient W DatadogAgentSpec} `{SnapshotCodec DatadogAgentSpec} `{NodeLabelClient W} `{InternalServer W RC}.
Context `{!RevisionFrames W RC DatadogAgentSpec} `{!NodeFrames W RC}.
Context (slack : nat → nat) (Apply : DatadogAgentInternal → DatadogAgentInternal → GoM Arrays DatadogAgentInternal).
Context (removeNestedField : list string → DatadogAgentInternal → GoM Arrays DatadogAgentInternal).
Context (specMD5 : Arrays → DatadogAgentSpec → string + error) (specJSON : Arrays → DatadogAgentSpec → json).
Context (ddaGVK : Cluster.GroupVersionKind + error) (tokenHash : string → string).
Context (ExperimentTimeout : Duration) (SafeEncodeString : string → string) (ObjectKinds : list Cluster.GroupVersionKind + error).
Context (NewRequirement : string → string → list string → Requirement + error).
Context (Matches : Requirement → gmap string string → bool).
Context (ValidateDatadogAgentProfileSpec : option (list NodeSelectorRequirement) → DatadogAgentSpec → option error).
Context (ApplyProfileSharedConfigOverlays : DatadogAgentSpec → DatadogAgentSpec → DatadogAgentSpec → DatadogAgentSpec + error).
Context (SpecHash : option (list NodeSelectorRequirement) → DatadogAgentSpec → string).
Context (spec_MaxUnavailable : DatadogAgentSpec → option IntOrString) (GetScaledValue : IntOrString → Z → Z + error).
Context (createStrategy IntrospectionEnabled ProfileEnabled EDSEnabled CreateControllerRevisions : bool).
Context (GetAgentNameWithProvider : string → string → string) (ShouldUseDefaultDaemonset : gset string → bool).
Context (listProfiles : list AgentProfile + error) (listNodes : list ClusterNode + error).
Context (getDDAI : AgentProfile → DDAI + error) (getDS : string → Z + error).
Context (manageDependencies : list DatadogAgentInternal → DatadogAgentStatus RC → GoM W (DatadogAgentStatus RC)).
Context (edsMaxUnavailable : option IntOrString) (detector : option ProviderReader) (quoted : string → string).
Context (forwarder : option ForwarderCondition) (newFieldManager : option error).

Abbreviation computed := (computeDDAIs slack Apply removeNestedField specMD5 NewRequirement Matches
  ValidateDatadogAgentProfileSpec ApplyProfileSharedConfigOverlays SpecHash spec_MaxUnavailable GetScaledValue createStrategy
  IntrospectionEnabled ProfileEnabled EDSEnabled GetAgentNameWithProvider ShouldUseDefaultDaemonset listProfiles listNodes
  getDDAI getDS edsMaxUnavailable).
Abbreviation reconcile := (reconcileInstance slack Apply removeNestedField specMD5 specJSON ddaGVK tokenHash ExperimentTimeout
  SafeEncodeString ObjectKinds NewRequirement Matches ValidateDatadogAgentProfileSpec ApplyProfileSharedConfigOverlays SpecHash
  spec_MaxUnavailable GetScaledValue createStrategy IntrospectionEnabled ProfileEnabled EDSEnabled CreateControllerRevisions
  GetAgentNameWithProvider ShouldUseDefaultDaemonset listProfiles listNodes getDDAI getDS manageDependencies edsMaxUnavailable
  detector quoted forwarder newFieldManager).

Lemma keeps_computed h i d now : keeps (computed h i d now).
Proof.
  unfold computeDDAIs, reconcileProfiles. stays.
Qed.

Lemma keeps_manageRevisions i raw (p n : DatadogAgentStatus RC) now :
  keeps (manageRevisions ExperimentTimeout SafeEncodeString ObjectKinds CreateControllerRevisions i raw p n now).
Proof.
  unfold manageRevisions, listRevisions. stays; [apply frame_ListRevisions|].
  apply keeps_onRevisions, stays_attempt, stays_bind; [apply _|apply unseen_manageExperiment|intros _].
  apply unseen_manageRevision.
Qed.

Lemma keeps_finish (p n : DatadogAgentStatus RC) d e now : keeps (finishReconcile forwarder p n d e now).
Proof.
  unfold finishReconcile. destruct (_ : option (DatadogAgentStatus RC)) as [s|].
  - stays. eapply keeps_effective; [apply law_UpdateDDAStatus|]. by intros c c' [].
  - stays.
Qed.

(** A step that keeps the DatadogAgentInternals, and what follows. *)
Lemma wp_keeps_bind {A B} (m : GoM W A) (f : A → GoM W B) (Q : W → Prop) w :
  keeps m → (∀ w', same_internals w w' → Q w') →
  (∀ w' a, m w = (w', Ret a) → same_internals w w' → wp (f a) (λ w' _, Q w') w') → wp (m ≫= f) (λ w' _, Q w') w.
Proof.
  intros Hm HQ Hf. specialize (Hm w). apply wp_bind. unfold wp at 1. destruct (m w) as [w' [a|e|]] eqn:Hr; cbn in *; auto.
Qed.

Lemma wp_keeps_orElse {A B} (m : GoM W A) (g : error → GoM W B) (f : A → GoM W B) (Q : W → Prop) w :
  keeps m → (∀ e, keeps (g e)) → (∀ w', same_internals w w' → Q w') →
  (∀ w' a, m w = (w', Ret a) → same_internals w w' → wp (f a) (λ w' _, Q w') w') → wp (orElse m g f) (λ w' _, Q w') w.
Proof.
  intros Hm Hg HQ Hf. specialize (Hm w). apply wp_orElse. unfold wp at 1.
  destruct (m w) as [w' [a|e|]] eqn:Hr; cbn in *; auto. eapply wp_stays; [apply Hg|]. intros w2 _ K2. apply HQ. by etrans.
Qed.

Hypothesis Hdependencies : ∀ ddais status, keeps (manageDependencies ddais status).

Abbreviation renewed_since h w w' k ddais := ((∃ a, glances w' !! k = Some (a, false)) ∨
  validKey k ∉ (validKey ∘ ddi_Key <$> ddais) ∧
  ∀ d, d ∈ ddais → ∃ d', d' ∈ ddais ∧ ddi_Key d' = ddi_Key d ∧
    entered specJSON h d' (glances w !! ddi_Key d) (glances w' !! ddi_Key d)).

Lemma wp_renewDDAIs h now st ddais w (k : Key) a :
  glances w !! k = Some (a, false) →
  wp (renewDDAIs specJSON h now st ddais) (λ w' _, renewed_since h w w' k ddais) w.
Proof.
  intros Hk. unfold renewDDAIs. apply wp_bind. eapply wp_mono; [apply wp_applyDDAIs|]. intros w1 o (l' & _ & Hg & Ho).
  assert (∃ a', glances w1 !! k = Some (a', false)) as Ha by (rewrite Hg; by eapply placed_alive).
  destruct o as [[st'|]|e|]; [|by left..]. subst l'. apply wp_bind. eapply wp_mono; [apply (wp_cleanUp ddais)|].
  intros w2 o Hkeep.
  assert (renewed_since h w w2 k ddais) as Hr; [|by destruct o].
  destruct (decide (validKey k ∈ (validKey ∘ ddi_Key <$> ddais))) as [Hv|Hv]; [left; by rewrite Hkeep|right].
  split; [done|]. intros d Hd. rewrite Hkeep; [|by apply (list_elem_of_fmap_2 (validKey ∘ ddi_Key))].
  rewrite Hg. by apply placed_all.
Qed.

(** C14: a DatadogAgentInternal is deleted only once its replacements are there.
    Whichever calls fail, and whether or not a failed call took effect: after a
    reconcile, one that was there and not being deleted still is, or it is not one
    of those that the reconcile computed, and each of these is in the cluster with
    the annotations that were computed for its name, the hash of the spec among
    them, and with the spec that was computed, unless an entry with these same
    annotations was there before, whose spec is left as it was. *)
Theorem replaced_before_deleted h instance rawSpec persisted now w (k : Key) a :
  glances w !! k = Some (a, false) →
  let w' := (reconcile h instance rawSpec persisted now w).1 in
  (∃ a', glances w' !! k = Some (a', false)) ∨
  ∃ h1 ddai w1 w2 h2 ddais, computed h1 instance ddai now w1 = (w2, Ret (h2, ddais)) ∧
    validKey k ∉ (validKey ∘ ddi_Key <$> ddais) ∧
    ∀ d, d ∈ ddais → ∃ d', d' ∈ ddais ∧ ddi_Key d' = ddi_Key d ∧
      entered specJSON h2 d' (glances w !! ddi_Key d) (glances w' !! ddi_Key d).
Proof.
  intros Hk. cbv zeta. pattern (reconcile h instance rawSpec persisted now w).1. match goal with |- ?P _ => set (Q := P) end.
  assert (HQ : ∀ w', same_internals w w' → Q w') by (intros w' Hw; left; exists a; by rewrite (glances_same w)).
  change (wp (reconcile h instance rawSpec persisted now) (λ w' _, Q w') w). unfold reconcileInstance.
  apply wp_keeps_bind; [apply stays_check, _|done|]. intros w1 _ _ K1.
  destruct (resolveClusterProvider _ _ _) as [[provider source]|]; [|by apply wp_ret, HQ].
  apply wp_keeps_bind; [apply keeps_manageRevisions|intros ? ?; apply HQ; by etrans|]. intros w2 r _ K2.
  assert (same_internals w w2) as Hw2 by (by etrans). clear K1 K2 w1.
  destruct r as [st|[st e]]; [|eapply wp_stays; [apply keeps_finish|]; intros ? ? ?; apply HQ; by etrans].
  apply wp_keeps_orElse; [apply keeps_onArrays|intros; apply keeps_finish|intros ? ?; apply HQ; by etrans|]. intros w3 x _ K3.
  apply wp_keeps_orElse; [apply keeps_computed|intros; apply keeps_finish|intros ? ?; apply HQ; unfold same_internals in *; congruence|].
  intros w4 y Hy K4.
  apply wp_keeps_orElse; [apply Hdependencies|intros; apply keeps_finish|intros ? ?; apply HQ; unfold same_internals in *; congruence|].
  intros w5 st' _ K5. assert (same_internals w w5) as Hw5 by (unfold same_internals in *; congruence).
  apply wp_orElse. eapply wp_mono; [apply (wp_renewDDAIs _ _ _ _ _ k a); by rewrite (glances_same w)|].
  intros w6 o Hr.
  assert (Hlast : ∀ w7, same_internals w6 w7 → Q w7).
  { intros w7 K7. destruct Hr as [(a' & Ha)|Hr]; [left; exists a'; by rewrite (glances_same w6)|right].
    exists x.1, x.2, w3, w4, y.1, y.2. rewrite (glances_same w6 w7), <- (glances_same w w5) by done. by destruct y. }
  destruct o as [[st''|]|e|]; [eapply wp_stays; [apply keeps_finish|auto]..|by apply Hlast].
Qed.
End Controller.

(** ** When no call fails *)

Class ReliableInternals (W RC : Type) `{InternalServer W RC} := {
  reliable_Get_Some k s (w : W) : internals w !! k = Some s → ∃ w', client_GetDDAI k w = (w', Ret s);
  reliable_Get_None k (w : W) : internals w !! k = None → ∃ w', client_GetDDAI (RC := RC) k w = (w', Fail (ApiError ReasonNotFound));
  reliable_CreateDDAI d j (w : W) : internals w !! ddi_Key d = None → ∃ w', client_CreateDDAI d j w = (w', Ret tt);
  reliable_UpdateDDAI d j (w : W) : is_Some (internals w !! ddi_Key d) → ∃ w', client_UpdateDDAI d j w = (w', Ret tt);
  reliable_ListDDAIs (w : W) : ∃ w' l, client_ListDDAIs w = (w', Ret l);
  reliable_DeleteDDAI k (w : W) : is_Some (internals w !! k) → ∃ w', client_DeleteDDAI k w = (w', Ret tt);
  reliable_UpdateDDAIRemoteConfig k rc (w : W) :
    is_Some (internals w !! k) → ∃ w', client_UpdateDDAIRemoteConfig k rc w = (w', Ret tt)
}.

Section Converge.
Context {W RC : Type} `{EqDecision RC} `{ReliableInternals W RC} (specJSON : Arrays → DatadogAgentSpec → json) (h : Arrays).
Implicit Types (d : DatadogAgentInternal) (l : list DatadogAgentInternal) (w : W) (k : Key) (s : StoredInternal RC).
Implicit Types (c : gmap Key (StoredInternal RC)) (st : DatadogAgentStatus RC).

(** *** What the API server is to hold *)

(** The entry of a DatadogAgentInternal, from the one there is. *)
Definition entryOf (rc : option RC) d (o : option (StoredInternal RC)) : StoredInternal RC :=
  let j := specJSON h (ddi_Spec d) in
  let s := match o with
           | None => created d j
           | Some s => if bool_decide (sd_Annotations s = ddi_Annotations d) then s else updated d j s
           end in
  if bool_decide (rc = sd_RemoteConfig s) then s else with_RemoteConfig rc s.

Definition settle (rc : option RC) c d : gmap Key (StoredInternal RC) := <[ddi_Key d := entryOf rc d (c !! ddi_Key d)]> c.

Definition sweep l c : gmap Key (StoredInternal RC) :=
  map_imap (λ k s, if bool_decide (validKey k ∈ (validKey ∘ ddi_Key <$> l)) then Some s else deleted s) c.

Definition wanted (rc : option RC) l c : gmap Key (StoredInternal RC) := sweep l (foldl (settle rc) c l).

Lemma entryOf_again rc d o : entryOf rc d (Some (entryOf rc d o)) = entryOf rc d o.
Proof. unfold entryOf. destruct o as [s|]; repeat (case_bool_decide; cbn in *; try done). Qed.

Lemma lookup_settled rc l c k :
  NoDup (ddi_Key <$> l) →
  foldl (settle rc) c l !! k = match head (filter (λ d, ddi_Key d = k) l) with
                               | Some d => Some (entryOf rc d (c !! k))
                               | None => c !! k
                               end.
Proof.
  revert c. induction l as [|d l IH]; intros c; [done|]. cbn [foldl fmap list_fmap]. intros [Hd Hl]%NoDup_cons.
  rewrite IH by done. rewrite filter_cons. unfold settle. destruct (decide (ddi_Key d = k)) as [<-|Hk]; cbn [head].
  - destruct (filter (λ d', ddi_Key d' = ddi_Key d) l) as [|x l'] eqn:Hf; [by rewrite lookup_insert_eq|].
    assert (x ∈ filter (λ d', ddi_Key d' = ddi_Key d) l) as [Hx Hin]%list_elem_of_filter by (rewrite Hf; by left).
    destruct Hd. rewrite <- Hx. by apply list_elem_of_fmap_2.
  - by rewrite lookup_insert_ne.
Qed.

Lemma lookup_wanted rc l c k :
  NoDup (ddi_Key <$> l) →
  wanted rc l c !! k = match head (filter (λ d, ddi_Key d = k) l) with
                       | Some d => Some (entryOf rc d (c !! k))
                       | None => if bool_decide (validKey k ∈ (validKey ∘ ddi_Key <$> l)) then c !! k else c !! k ≫= deleted
                       end.
Proof.
  intros Hl. unfold wanted, sweep. rewrite map_lookup_imap, lookup_settled by done.
  destruct (head (filter _ l)) as [d|] eqn:Hd; cbn.
  - apply head_Some_elem_of, list_elem_of_filter in Hd as [<- Hd]. rewrite bool_decide_true; [done|].
    by apply (list_elem_of_fmap_2 (validKey ∘ ddi_Key)).
  - destruct (c !! k); cbn; case_bool_decide; done.
Qed.

Lemma deleted_again s : deleted s ≫= deleted = deleted s.
Proof. unfold deleted. case_bool_decide as Hf; [done|]. cbn. by rewrite bool_decide_false. Qed.

Lemma wanted_again rc l c : NoDup (ddi_Key <$> l) → wanted rc l (wanted rc l c) = wanted rc l c.
Proof.
  intros Hl. apply map_eq. intros k. rewrite !(lookup_wanted _ _ _ k) by done.
  destruct (head _) as [d|]; [by rewrite entryOf_again|]. case_bool_decide; [done|].
  destruct (c !! k) as [s|]; cbn; [apply deleted_again|done].
Qed.

(** *** The calls *)

Lemma wp_reliable {A} (post : gmap Key (StoredInternal RC) → gmap Key (StoredInternal RC) → A → Prop) (m : GoM W A)
    (Q : W → outcome A → Prop) w :
  effective internals post m → (∃ w' a, m w = (w', Ret a)) →
  (∀ w' a, post (internals w) (internals w') a → Q w' (Ret a)) → wp m Q w.
Proof. intros Hm (w' & a & Hr) HQ. specialize (Hm w). unfold wp. rewrite Hr in Hm |- *. by apply HQ. Qed.

Lemma wp_Get_Some k s w (Q : W → outcome (StoredInternal RC) → Prop) :
  internals w !! k = Some s → (∀ w', internals w' = internals w → Q w' (Ret s)) → wp (client_GetDDAI k) Q w.
Proof.
  intros Hs HQ. destruct (reliable_Get_Some k s w Hs) as [w' Hr]. pose proof (law_GetDDAI k w) as Hl.
  unfold wp. rewrite Hr in Hl |- *. cbn. by apply HQ, Hl.
Qed.

Lemma wp_Get_None k w (Q : W → outcome (StoredInternal RC) → Prop) :
  internals w !! k = None → (∀ w', internals w' = internals w → Q w' (Fail (ApiError ReasonNotFound))) → wp (client_GetDDAI k) Q w.
Proof.
  intros Hn HQ. destruct (reliable_Get_None k w Hn) as [w' Hr]. pose proof (law_GetDDAI k w) as Hl.
  unfold wp. rewrite Hr in Hl |- *. cbn. apply HQ. by destruct Hl as [?|(? & ? & _)].
Qed.

Lemma wp_createOrUpdate_ok d w (Q : W → outcome unit → Prop) :
  (∀ w', internals w' = <[ddi_Key d := match internals w !! ddi_Key d with
                                       | None => created d (specJSON h (ddi_Spec d))
                                       | Some s => if bool_decide (sd_Annotations s = ddi_Annotations d) then s
                                                   else updated d (specJSON h (ddi_Spec d)) s
                                       end]> (internals w) → Q w' (Ret tt)) →
  wp (createOrUpdateDDAI specJSON h d) Q w.
Proof.
  intros HQ. unfold createOrUpdateDDAI. apply wp_bind, wp_attempt. destruct (internals w !! ddi_Key d) as [s|] eqn:Hs.
  - eapply wp_Get_Some; [done|]. intros w1 Hw1. cbn. case_bool_decide as Ha.
    + apply wp_ret, HQ. by rewrite Hw1, insert_id.
    + eapply wp_reliable; [apply law_UpdateDDAI|destruct (reliable_UpdateDDAI d (specJSON h (ddi_Spec d)) w1) as [w2 Hr];
        [rewrite Hw1, Hs; by eexists|by exists w2, tt]|]. intros w2 [] (s' & Hs' & Hw2). apply HQ. rewrite Hw1 in *. by simplify_eq.
  - eapply wp_Get_None; [done|]. intros w1 Hw1. cbn.
    eapply wp_reliable; [apply law_CreateDDAI|destruct (reliable_CreateDDAI d (specJSON h (ddi_Spec d)) w1) as [w2 Hr];
      [by rewrite Hw1|by exists w2, tt]|]. intros w2 [] (_ & Hw2). apply HQ. by rewrite Hw2, Hw1.
Qed.

Lemma wp_addDDAIStatus_ok st d now w s (Q : W → outcome (DatadogAgentStatus RC) → Prop) :
  internals w !! ddi_Key d = Some s →
  (∀ w' st', internals w' = internals w → st_RemoteConfig st' = st_RemoteConfig st → Q w' (Ret st')) →
  wp (addDDAIStatus st d now) Q w.
Proof.
  intros Hs HQ. unfold addDDAIStatus. apply wp_bind, wp_attempt. eapply wp_Get_Some; [done|]. intros w1 Hw1. cbn.
  by apply wp_ret, HQ.
Qed.

Lemma wp_applyDDAI_ok now st d w (Q : W → outcome (option (DatadogAgentStatus RC)) → Prop) :
  (∀ w' st', internals w' = settle (st_RemoteConfig st) (internals w) d → st_RemoteConfig st' = st_RemoteConfig st →
             Q w' (Ret (Some st'))) →
  wp (applyDDAI specJSON h now st d) Q w.
Proof.
  intros HQ. unfold applyDDAI. apply wp_bind, wp_createOrUpdate_ok. intros w1.
  set (s1 := match internals w !! ddi_Key d with None => _ | Some _ => _ end). intros Hw1.
  assert (internals w1 !! ddi_Key d = Some s1) as Hs1 by (by rewrite Hw1, lookup_insert_eq).
  apply wp_bind. eapply wp_addDDAIStatus_ok; [done|]. intros w2 st2 Hw2 Hrc. cbn.
  apply wp_bind. unfold addRemoteConfigStatusToDDAIStatus. apply wp_bind. eapply (wp_Get_Some _ s1); [by rewrite Hw2|].
  intros w3 Hw3. cbn. rewrite Hrc. case_bool_decide as Hc.
  - apply wp_ret. cbn. apply wp_ret, HQ; [|done]. rewrite Hw3, Hw2, Hw1. unfold settle, entryOf. fold s1.
    by rewrite bool_decide_true.
  - apply wp_bind, wp_attempt. assert (internals w3 !! ddi_Key d = Some s1) as Hs3 by (by rewrite Hw3, Hw2).
    eapply wp_reliable; [apply law_UpdateDDAIRemoteConfig|
      destruct (reliable_UpdateDDAIRemoteConfig (ddi_Key d) (st_RemoteConfig st) w3) as [w4 Hr]; [rewrite Hs3; by eexists|by exists w4, tt]|].
    intros w4 [] (s' & Hs' & Hw4). cbn. apply wp_ret, HQ; [|done]. rewrite Hs3 in Hs'. injection Hs' as <-.
    rewrite Hw4, Hw3, Hw2, Hw1, insert_insert_eq. unfold settle, entryOf. fold s1. by rewrite bool_decide_false.
Qed.

Lemma wp_applyDDAIs_ok now st l w (Q : W → outcome (option (DatadogAgentStatus RC)) → Prop) :
  (∀ w' st', internals w' = foldl (settle (st_RemoteConfig st)) (internals w) l → st_RemoteConfig st' = st_RemoteConfig st →
             Q w' (Ret (Some st'))) →
  wp (applyDDAIs specJSON h now st l) Q w.
Proof.
  revert st w. induction l as [|d l IH]; intros st w HQ; [by apply wp_ret, HQ|]. cbn [applyDDAIs].
  apply wp_bind, wp_applyDDAI_ok. intros w1 st1 Hw1 Hst1. apply IH. rewrite Hw1, Hst1. intros w2 st2 Hw2 Hst2. by apply HQ.
Qed.

(** The deletions, one by one. *)
Lemma wp_deletions l items w (Q : W → outcome unit → Prop) :
  NoDup items.*1 → (∀ k s, (k, s) ∈ items → is_Some (internals w !! k)) →
  (∀ w', (∀ k, internals w' !! k = if decide (k ∈ items.*1 ∧ validKey k ∉ (validKey ∘ ddi_Key <$> l))
                                   then internals w !! k ≫= deleted else internals w !! k) → Q w' (Ret tt)) →
  wp (for_each (λ '(k, _), if bool_decide (validKey k ∈ (list_to_set (validKey ∘ ddi_Key <$> l) : gset string)) then mret tt
                           else client_DeleteDDAI (RC := RC) k) (items : list (Key * StoredInternal RC))) Q w.
Proof.
  revert w. induction items as [|[k s] items IH]; intros w Hd Hi HQ.
  { apply wp_ret, HQ. intros k. rewrite decide_False; [done|]. by intros [[]%elem_of_nil _]. }
  apply NoDup_cons in Hd as [Hk Hd]. cbn [for_each]. apply wp_bind. case_bool_decide as Hv.
  - apply wp_ret, IH; [done|intros k' s' Hin; apply (Hi k' s'); by right|]. intros w' Hw'. apply HQ. intros k'. rewrite Hw'.
    apply elem_of_list_to_set in Hv. repeat case_decide; try done; exfalso; cbn in *; rewrite elem_of_cons in *; naive_solver.
  - assert (Hpres : is_Some (internals w !! k)) by (apply (Hi k s); by left).
    eapply wp_reliable; [apply law_DeleteDDAI|destruct (reliable_DeleteDDAI k w Hpres) as [w' Hr]; by exists w', tt|].
    intros w1 [] [_ Hw1]. cbn. apply IH; [done|..].
    + intros k' s' Hin. rewrite Hw1. unfold delete_at. rewrite lookup_partial_alter_ne; [apply (Hi k' s'); by right|].
      intros ->. by apply Hk, (list_elem_of_fmap_2 fst _ (k', s')).
    + intros w2 Hw2. apply HQ. intros k'. rewrite Hw2, Hw1. unfold delete_at. rewrite elem_of_list_to_set in Hv. cbn.
      destruct (decide (k' = k)) as [->|Hne].
      * rewrite lookup_partial_alter_eq, decide_False by naive_solver. by rewrite decide_True by (split; [by left|done]).
      * rewrite lookup_partial_alter_ne by done. repeat case_decide; try done; exfalso; rewrite elem_of_cons in *; naive_solver.
Qed.

Lemma wp_cleanUp_ok l w (Q : W → outcome unit → Prop) :
  (∀ w', internals w' = sweep l (internals w) → Q w' (Ret tt)) → wp (cleanUpUnusedDDAIs (RC := RC) l) Q w.
Proof.
  intros HQ. unfold cleanUpUnusedDDAIs. apply wp_bind.
  eapply wp_reliable; [apply law_ListDDAIs|apply reliable_ListDDAIs|]. intros w1 items [Hw1 Hitems]. cbn.
  assert (Hin : ∀ k s, (k, s) ∈ items ↔ internals w !! k = Some s) by (intros k s; rewrite Hitems; apply elem_of_map_to_list).
  apply wp_deletions.
  - rewrite Hitems. apply NoDup_fst_map_to_list.
  - intros k s Hk. rewrite Hw1. apply Hin in Hk. by exists s.
  - intros w2 Hw2. apply HQ, map_eq. intros k. rewrite Hw2, Hw1. unfold sweep. rewrite map_lookup_imap.
    destruct (internals w !! k) as [s|] eqn:Hs; cbn; [|by case_decide].
    assert (k ∈ items.*1) as Hk by (by apply (list_elem_of_fmap_2 fst _ (k, s)), Hin).
    case_bool_decide; [by rewrite decide_False by naive_solver|by rewrite decide_True].
Qed.

Lemma renewDDAIs_ok now st l w :
  ∃ w' st', renewDDAIs specJSON h now st l w = (w', Ret (Some st')) ∧ internals w' = wanted (st_RemoteConfig st) l (internals w).
Proof.
  assert (wp (renewDDAIs specJSON h now st l) (λ w' o, ∃ st', o = Ret (Some st') ∧ internals w' = wanted (st_RemoteConfig st) l (internals w)) w)
    as (st' & Ho & Hw).
  { unfold renewDDAIs. apply wp_bind, wp_applyDDAIs_ok. intros w1 st1 Hw1 _. apply wp_bind, wp_cleanUp_ok. intros w2 Hw2.
    apply wp_ret. exists st1. by rewrite Hw2, Hw1. }
  destruct (renewDDAIs _ _ _ _ _ w) as [w' o]. cbn in *. subst o. by exists w', st'.
Qed.

(** C15: DatadogAgentInternals of distinct names converge.  When no call fails, one
    round leaves each one that is wanted with its annotations, the hash of its spec
    among them, and the state of remote configuration; its spec is the wanted one,
    provided that an entry with these annotations had it; every other is being
    deleted; and a second round changes nothing.  The names are distinct unless a
    profile is named like its DatadogAgent, or two profiles alike: then the two
    overwrite each other. *)
Theorem internals_converge now st ddais w :
  NoDup (ddi_Key <$> ddais) →
  ∃ w' st', renewDDAIs specJSON h now st ddais w = (w', Ret (Some st')) ∧
    (∀ d, d ∈ ddais → ∃ s, internals w' !! ddi_Key d = Some s ∧ sd_Annotations s = ddi_Annotations d ∧
       sd_RemoteConfig s = st_RemoteConfig st ∧
       ((∀ s0, internals w !! ddi_Key d = Some s0 → sd_Annotations s0 = ddi_Annotations d → sd_Spec s0 = specJSON h (ddi_Spec d)) →
        sd_Spec s = specJSON h (ddi_Spec d))) ∧
    (∀ k s, internals w' !! k = Some s → validKey k ∉ (validKey ∘ ddi_Key <$> ddais) → sd_Deleting s = true) ∧
    ∀ now2 st2, st_RemoteConfig st2 = st_RemoteConfig st →
      ∃ w2 st3, renewDDAIs specJSON h now2 st2 ddais w' = (w2, Ret (Some st3)) ∧ internals w2 = internals w'.
Proof.
  intros Hl. destruct (renewDDAIs_ok now st ddais w) as (w' & st' & Hr & Hw). exists w', st'. split; [done|]. split_and!.
  - intros d Hd. rewrite Hw, lookup_wanted by done.
    destruct (head (filter (λ d', ddi_Key d' = ddi_Key d) ddais)) as [d'|] eqn:Hh.
    + apply head_Some_elem_of, list_elem_of_filter in Hh as [Hk Hd']. assert (d' = d) as ->.
      { apply list_elem_of_lookup in Hd as [i Hi], Hd' as [i' Hi']. assert (i' = i) as ->; [|congruence].
        apply (NoDup_lookup (ddi_Key <$> ddais) _ _ (ddi_Key d)); [done|by rewrite list_lookup_fmap, Hi', <- Hk|
          by rewrite list_lookup_fmap, Hi]. }
      eexists. split; [done|]. unfold entryOf.
      destruct (internals w !! ddi_Key d) as [s|]; repeat (case_bool_decide; cbn in *); split_and!; auto.
    + exfalso. assert (d ∈ filter (λ d', ddi_Key d' = ddi_Key d) ddais) as Hin by (by apply list_elem_of_filter).
      destruct (filter _ _); [by apply elem_of_nil in Hin|done].
  - intros k s Hs Hv. rewrite Hw, lookup_wanted in Hs by done.
    destruct (head _) as [d|] eqn:Hh.
    + apply head_Some_elem_of, list_elem_of_filter in Hh as [<- Hd]. destruct Hv. by apply (list_elem_of_fmap_2 (validKey ∘ ddi_Key)).
    + rewrite bool_decide_false in Hs by done. destruct (internals w !! k) as [s0|]; [|done]. cbn in Hs. unfold deleted in Hs.
      case_bool_decide; [done|]. by injection Hs as <-.
  - intros now2 st2 Hst2. destruct (renewDDAIs_ok now2 st2 ddais w') as (w2 & st3 & Hr2 & Hw2). exists w2, st3. split; [done|].
    by rewrite Hw2, Hst2, Hw, wanted_again.
Qed.
End Converge.

(** ** Copies *)

(** The required terms of the node affinity. *)
Definition requiredTerms (a : option Affinity) : option (list NodeSelectorTerm) :=
  match a with
  | Some (mkAffinity (Some n) _ _) => na_Required n
  | _ => None
  end.

(** Terms in arrays of their own, without spare capacity. *)
Definition own_terms (h : Arrays) (terms : list NodeSelectorTerm) : Prop := Forall (λ t, valid_term h t ∧ full_term t) terms.

Definition own_affinity (h : Arrays) (a : option Affinity) : Prop :=
  ∀ terms, requiredTerms a = Some terms → own_terms h terms.

Lemma own_terms_prefix h h' terms : own_terms h terms → h `prefix_of` h' → own_terms h' terms.
Proof. intros Ht Hp. eapply Forall_impl; [exact Ht|]. intros t [Hv Hf]. split; [by eapply valid_term_prefix|done]. Qed.

(** [m] returns from [h], in arrays that have those of [h], a value that [P] holds for. *)
Definition allocates {A} (h : Arrays) (m : GoM Arrays A) (P : Arrays → A → Prop) : Prop :=
  ∃ h' a, m h = (h', Ret a) ∧ h `prefix_of` h' ∧ P h' a.

Lemma allocates_bind {A B} h (m : GoM Arrays A) (f : A → GoM Arrays B) (P : Arrays → A → Prop) Q :
  allocates h m P → (∀ h' a, h `prefix_of` h' → P h' a → allocates h' (f a) Q) → allocates h (m ≫= f) Q.
Proof.
  intros (h1 & a & Hm & Hp & HP) Hf. destruct (Hf h1 a Hp HP) as (h2 & b & Hb & Hp2 & HQ).
  exists h2, b. unfold mbind, GoM_bind. rewrite Hm. split; [done|]. by split; [etrans|].
Qed.

Lemma allocates_ret {A} h (a : A) (P : Arrays → A → Prop) : P h a → allocates h (mret a) P.
Proof. intros HP. by exists h, a. Qed.

Lemma allocates_mono {A} h (m : GoM Arrays A) (P Q : Arrays → A → Prop) :
  allocates h m P → (∀ h' a, h `prefix_of` h' → P h' a → Q h' a) → allocates h m Q.
Proof. intros (h' & a & Hm & Hp & HP) HQ. exists h', a. auto. Qed.

Lemma allocates_slice h l :
  allocates h (newSlice l) (λ h' s, valid h' s ∧ full s ∧ read h' s = l).
Proof.
  exists (h ++ [l]), (mkSlice (length h) (length l) (length l)). split; [done|]. split; [by eexists|].
  assert ((h ++ [l]) !! length h = Some l) as Hl by (by rewrite lookup_app_r, Nat.sub_diag).
  split_and!; [split; [done|right; by exists l]|done|]. unfold read. cbn. rewrite Hl. cbn. by apply take_ge.
Qed.

(** The terms have these requirements. *)
Definition requires (h : Arrays) (reqs : list NodeSelectorRequirement) (terms : list NodeSelectorTerm) : Prop :=
  Forall (λ t, valid_term h t ∧ ∀ r, r ∈ reqs → r ∈ read h (MatchExpressions t)) terms.

Definition restricted (h : Arrays) (reqs : list NodeSelectorRequirement) (a : option Affinity) : Prop :=
  ∃ terms, requiredTerms a = Some terms ∧ requires h reqs terms.

Lemma requires_prefix h h' reqs terms : requires h reqs terms → h `prefix_of` h' → requires h' reqs terms.
Proof.
  intros Hr Hp. eapply Forall_impl; [exact Hr|]. intros t [Hv Ht]. split; [by eapply valid_term_prefix|].
  intros r Hin. rewrite (read_prefix h h'); [by apply Ht|by apply Hv|done].
Qed.

Lemma restricted_prefix h h' reqs a : restricted h reqs a → h `prefix_of` h' → restricted h' reqs a.
Proof. intros (terms & Ha & Hr) Hp. exists terms. split; [done|by eapply requires_prefix]. Qed.

(** A copy of a term in arrays of its own. *)
Definition copied_term (h h' : Arrays) (t t' : NodeSelectorTerm) : Prop :=
  valid_term h' t' ∧ full_term t' ∧ (valid_term h t → read h' (MatchExpressions t') = read h (MatchExpressions t)).

Lemma copied_term_prefix h h1 h2 t t' : copied_term h h1 t t' → h1 `prefix_of` h2 → copied_term h h2 t t'.
Proof.
  intros (Hv & Hf & Hr) Hp. split_and!; [by eapply valid_term_prefix|done|]. intros Ht.
  rewrite (read_prefix h1 h2); [by apply Hr|apply Hv|done].
Qed.

Lemma allocates_copyTerm h0 h t : h0 `prefix_of` h → allocates h (copyTerm t) (λ h' t', copied_term h0 h' t t').
Proof.
  intros H0. eapply allocates_bind; [apply (allocates_slice h (read h (MatchExpressions t)))|]. intros h1 e Hp0 (He & Hfe & Hre).
  eapply allocates_bind; [apply (allocates_slice h1 (read h1 (MatchFields t)))|]. intros h2 f Hp (Hf & Hff & _).
  apply allocates_ret. split_and!; [split; [by eapply valid_prefix|done]|done|]. intros [Ht _]. cbn.
  rewrite (read_prefix h1 h2), Hre by done. by apply read_prefix.
Qed.

Lemma allocates_mapM {A B} h0 h (f : A → GoM Arrays B) (R : Arrays → A → B → Prop) l :
  (∀ h h' a b, R h a b → h `prefix_of` h' → R h' a b) → h0 `prefix_of` h →
  (∀ h a, h0 `prefix_of` h → allocates h (f a) (λ h' b, R h' a b)) →
  allocates h (mapM f l) (λ h' l', Forall2 (R h') l l').
Proof.
  intros Hmono H0 Hf. revert h H0. induction l as [|a l IH]; intros h H0; [by apply allocates_ret|].
  change (mapM f (a :: l)) with (b ← f a; l' ← mapM f l; mret (b :: l') : GoM Arrays (list B)).
  eapply allocates_bind; [by apply Hf|]. intros h1 b Hp Hb. eapply allocates_bind; [apply IH; by etrans|]. intros h2 l' Hp2 Hl.
  apply allocates_ret. constructor; [by apply (Hmono h1 h2)|done].
Qed.

(** What a copy of terms requires. *)
Definition copied_terms (h h' : Arrays) (terms terms' : list NodeSelectorTerm) : Prop :=
  own_terms h' terms' ∧ ∀ reqs, requires h reqs terms → requires h' reqs terms'.

Lemma allocates_copyTerms h0 h terms :
  h0 `prefix_of` h → allocates h (mapM copyTerm terms) (λ h' terms', copied_terms h0 h' terms terms').
Proof.
  intros H0. eapply allocates_mono; [apply (allocates_mapM h0 h copyTerm (λ h' t t', copied_term h0 h' t t') terms)|].
  - intros h1 h2 t t' Hc Hp. by eapply copied_term_prefix.
  - done.
  - intros h1 t. apply allocates_copyTerm.
  - intros h' l' _ Hl. split.
    + apply Forall_forall. intros t Ht. apply list_elem_of_lookup in Ht as [i Hi].
      by destruct (Forall2_lookup_r _ _ _ _ _ Hl Hi) as (? & _ & ? & ? & _).
    + intros reqs Hreqs. unfold requires in *. rewrite Forall_forall in *. intros t' Ht'.
      apply list_elem_of_lookup in Ht' as [i Hi]. destruct (Forall2_lookup_r _ _ _ _ _ Hl Hi) as (t & Ht & Hv & _ & Hr).
      destruct (Hreqs t) as [Hvt Hin]; [by eapply list_elem_of_lookup_2|]. split; [done|]. by rewrite Hr.
Qed.

Lemma allocates_copyOption {A} h (f : A → GoM Arrays A) (P : Arrays → option A → Prop) p :
  (p = None → P h None) → (∀ a, p = Some a → allocates h (f a) (λ h' b, P h' (Some b))) → allocates h (copyOption f p) P.
Proof.
  intros Hn Hf. destruct p as [a|]; [|by apply allocates_ret, Hn]. eapply allocates_bind; [by apply Hf|]. intros h' b _ Hb.
  by apply allocates_ret.
Qed.

Definition copied_affinity (h h' : Arrays) (a a' : option Affinity) : Prop :=
  own_affinity h' a' ∧ ∀ reqs, restricted h reqs a → restricted h' reqs a'.

Lemma allocates_copyAffinity h0 h a :
  h0 `prefix_of` h → allocates h (copyOption copyAffinity a) (λ h' a', copied_affinity h0 h' a a').
Proof.
  intros H0. apply allocates_copyOption; [intros ->; by split; [intros ? [=]|intros reqs (? & [=] & _)]|].
  intros [n pod anti] ->. unfold copyAffinity. cbn [aff_Node].
  eapply (allocates_bind h _ _ (λ h' n', ∀ pod anti pod' anti',
    copied_affinity h0 h' (Some (mkAffinity n pod anti)) (Some (mkAffinity n' pod' anti')))).
  - apply allocates_copyOption; [intros -> ????; by split; [intros ? [=]|intros reqs (? & [=] & _)]|]. intros [required pref] ->.
    unfold copyNodeAffinity. cbn [na_Required].
    eapply (allocates_bind h _ _ (λ h' r, match required, r with
      | Some terms, Some terms' => copied_terms h0 h' terms terms' | None, None => True | _, _ => False end)).
    + apply allocates_copyOption; [by intros ->|]. intros terms ->.
      eapply allocates_mono; [by apply allocates_copyTerms|done].
    + intros h' r _ Hr. apply allocates_ret. intros pod1 anti1 pod' anti'.
      destruct required as [terms|], r as [terms'|]; try done; [|by split; [intros ? [=]|intros reqs (? & [=] & _)]].
      destruct Hr as [Ho Hr]. split; [by intros ? [= <-]|]. intros reqs (x & [= <-] & Hx). exists terms'. split; [done|by apply Hr].
  - intros h' n' _ Hn. apply allocates_ret, Hn.
Qed.

(** The copy, in [h'], of an entry of the overrides in [h]. *)
Definition copied (h h' : Arrays) (o o' : option DatadogAgentComponentOverride) : Prop :=
  match o, o' with
  | None, None => True
  | Some o, Some o' => ∃ a, o' = set_Override_Affinity a o ∧ copied_affinity h h' (Override_Affinity o) a
  | _, _ => False
  end.

Lemma copied_prefix h0 h h' o o' : copied h0 h o o' → h `prefix_of` h' → copied h0 h' o o'.
Proof.
  intros Hc Hp. destruct o, o'; try done. destruct Hc as (a & -> & Ha & Hr). exists a. split; [done|]. split.
  - intros terms Ht. eapply own_terms_prefix; [by apply Ha|done].
  - intros reqs Hreqs. eapply restricted_prefix; [by apply Hr|done].
Qed.

Lemma allocates_copyOverride h0 h o :
  h0 `prefix_of` h → allocates h (copyOption copyOverride o) (λ h' o', copied h0 h' o o').
Proof.
  intros H0. destruct o as [o|]; [|by apply allocates_ret]. apply (allocates_bind h _ _ (λ h' o', copied h0 h' (Some o) (Some o'))).
  - eapply allocates_bind; [by apply allocates_copyAffinity|]. intros h' a _ Ha. apply allocates_ret. by exists a.
  - intros h' o' _ Ho. by apply allocates_ret.
Qed.

Definition copied_overrides (h h' : Arrays) (m m' : Overrides) : Prop :=
  ∀ k, match m !! k, m' !! k with Some o, Some o' => copied h h' o o' | None, None => True | _, _ => False end.

Lemma allocates_copyOverrides h m : allocates h (copyOverrides m) (λ h' m', copied_overrides h h' m m').
Proof.
  unfold copyOverrides. eapply allocates_bind.
  - apply (allocates_mapM h h _ (λ h' e e', e.1 = e'.1 ∧ copied h h' e.2 e'.2) (map_to_list m)).
    + intros h1 h2 e e' [? Hc] Hp. split; [done|by eapply copied_prefix].
    + done.
    + intros h1 [k o] H1. eapply allocates_bind; [by apply (allocates_copyOverride h)|]. intros h2 o' _ Hc. by apply allocates_ret.
  - intros h' l' _ Hl. apply allocates_ret. intros k.
    assert (Hkeys : l'.*1 = (map_to_list m).*1).
    { clear -Hl. induction Hl as [|x y l l' [Hxy _] _ IH]; [done|]. cbn. by rewrite IH, Hxy. }
    assert (Hd : NoDup l'.*1) by (rewrite Hkeys; apply NoDup_fst_map_to_list).
    destruct (m !! k) as [o|] eqn:Hm.
    + apply elem_of_map_to_list, list_elem_of_lookup in Hm as [i Hi].
      destruct (Forall2_lookup_l _ _ _ _ _ Hl Hi) as ([k' o'] & Hi' & Hk & Hc). cbn in *. subst k'.
      rewrite (elem_of_list_to_map_1 l' k o'); [done..|]. by apply list_elem_of_lookup_2 in Hi'.
    + rewrite not_elem_of_list_to_map_1; [done|]. rewrite Hkeys. intros ([k' o] & -> & Hk)%list_elem_of_fmap.
      apply elem_of_map_to_list in Hk. cbn in *. congruence.
Qed.

Lemma allocates_Spec_DeepCopy h s :
  allocates h (Spec_DeepCopy s) (λ h' s', s' = set_Spec_Override (Spec_Override s') s ∧
                                          copied_overrides h h' (Spec_Override s) (Spec_Override s')).
Proof.
  unfold Spec_DeepCopy. eapply allocates_bind; [apply allocates_copyOverrides|]. intros h' m _ Hm. by apply allocates_ret.
Qed.

(** ** The DatadogAgentInternal of a DatadogAgent *)

Section Generate.
Context (specMD5 : Arrays → DatadogAgentSpec → string + error).
Context (ddaGVK : Cluster.GroupVersionKind + error) (tokenHash : string → string).
Context (quoted : string → string) (IsQualifiedName IsValidLabelValue : string → list string).
Context (range : gmap string string → list (string * string)).
Implicit Types (dda : Agent) (m : Overrides).

Lemma default_secret_valid n k : k ≠ "" → IsValidSecretConfig (Some (mkSecretConfig (n +:+ "-secret") k)) = true.
Proof. intros Hk. cbn. rewrite !bool_decide_false; [done|done|]. by destruct n. Qed.

Lemma token_secret_valid n : IsValidSecretConfig (Some (mkSecretConfig (n +:+ "-token") DefaultTokenKey)) = true.
Proof. cbn. rewrite !bool_decide_false; [done|done|]. by destruct n. Qed.

(** Credentials by reference. *)
Definition by_reference (c c' : DatadogCredentials) : Prop :=
  cred_APIKey c' = None ∧ cred_AppKey c' = None ∧ IsValidSecretConfig (cred_APISecret c') = true ∧
  (is_Some (cred_AppSecret c) ∨ is_Some (cred_AppKey c) → IsValidSecretConfig (cred_AppSecret c') = true).

Lemma newCredentials_by_reference dda c : by_reference c (newCredentials dda c).
Proof.
  unfold by_reference, newCredentials. cbn. split_and!; [done..| |].
  - destruct (IsValidSecretConfig (cred_APISecret c)) eqn:Hv; [done|]. by apply default_secret_valid.
  - intros Ha. destruct (_ || _) eqn:Ho.
    + destruct (IsValidSecretConfig (cred_AppSecret c)) eqn:Hv; [done|]. by apply default_secret_valid.
    + apply orb_false_iff in Ho as [H1%bool_decide_eq_false H2%bool_decide_eq_false]. naive_solver.
Qed.

(** A pointer to every override. *)
Definition no_nil m : Prop := ∀ k, m !! k ≠ Some None.

Lemma no_nil_ensureKey k m : no_nil m → no_nil (ensureKey k m).
Proof.
  intros Hm k'. unfold ensureKey. destruct (m !! k) eqn:Hk; [apply Hm|]. destruct (decide (k' = k)) as [->|Hne].
  - by rewrite lookup_insert_eq.
  - by rewrite lookup_insert_ne.
Qed.

Lemma ensureKey_is_Some k k' m : is_Some (m !! k') ∨ k' = k → is_Some (ensureKey k m !! k').
Proof.
  unfold ensureKey. destruct (m !! k) as [o|] eqn:Hk.
  - intros [?| ->]; [done|by exists o].
  - destruct (decide (k' = k)) as [->|Hne]; [rewrite lookup_insert_eq; by eexists|rewrite lookup_insert_ne by done; naive_solver].
Qed.

(** The entry has the annotation. *)
Definition annotated hash k m : Prop :=
  ∃ o, m !! k = Some (Some o) ∧ Override_Annotations o !! GetDCATokenChecksumAnnotationKey = Some hash.

Lemma annotateOverride_run hash k m :
  no_nil m → is_Some (m !! k) →
  ∃ m', annotateOverride hash k m = Ret m' ∧ no_nil m' ∧ annotated hash k m' ∧ ∀ k', k' ≠ k → m' !! k' = m !! k'.
Proof.
  intros Hm [[o|] Hk]; [|by destruct (Hm k)]. unfold annotateOverride. rewrite Hk. cbn. eexists. split; [done|]. split_and!.
  - intros k'. destruct (decide (k' = k)) as [->|Hne]; [by rewrite lookup_insert_eq|by rewrite lookup_insert_ne].
  - eexists. split; [apply lookup_insert_eq|]. cbn. apply lookup_insert_eq.
  - intros k' Hne. by apply lookup_insert_ne.
Qed.

Lemma annotated_other hash k k' m m' : annotated hash k m → k ≠ k' → (∀ x, x ≠ k' → m' !! x = m !! x) → annotated hash k m'.
Proof. intros (o & Ho & Ha) Hne Hm. exists o. by rewrite Hm. Qed.

Lemma annotated_ensureKey hash k k' m : annotated hash k m → annotated hash k (ensureKey k' m).
Proof.
  intros (o & Ho & Ha). exists o. split; [|done]. unfold ensureKey. destruct (m !! k') eqn:Hk; [done|].
  rewrite lookup_insert_ne; [done|]. intros ->. congruence.
Qed.

(** A token in plain text without a valid secret beside it. *)
Definition bare_token (g : GlobalConfig) : Prop :=
  IsValidSecretConfig (Global_ClusterAgentTokenSecret g) = false ∧ StringValue (Global_ClusterAgentToken g) ≠ "".

Lemma SetOverrideFromDDA_run dda s g :
  Spec_Global (dda_Spec dda) = Some g → is_Some (Spec_Features s) → no_nil (Spec_Override s) →
  ∃ s', SetOverrideFromDDA tokenHash dda s = Ret s' ∧ Spec_Global s' = Spec_Global s ∧
    (bare_token g → ∀ k, k ∈ [NodeAgentComponentName; ClusterAgentComponentName] →
       annotated (tokenHash (StringValue (Global_ClusterAgentToken g))) k (Spec_Override s')).
Proof.
  intros Hg [f Hf] Hm. unfold SetOverrideFromDDA, shouldAddDCATokenChecksumAnnotation. rewrite Hg. cbn.
  set (m := ensureKey NodeAgentComponentName (Spec_Override s)).
  assert (no_nil m) as Hm0 by by apply no_nil_ensureKey. destruct (negb _) eqn:Hb.
  - exists (set_Spec_Override m s). split; [done|]. split; [done|]. intros [Hi Ht]. rewrite Hi in Hb. cbn in Hb.
    by rewrite bool_decide_false in Hb.
  - set (hash := tokenHash _).
    destruct (annotateOverride_run hash NodeAgentComponentName m) as (m1 & -> & Hm1 & Ha1 & _); [done|apply ensureKey_is_Some; by right|]. cbn.
    destruct (annotateOverride_run hash ClusterAgentComponentName (ensureKey ClusterAgentComponentName m1)) as (m2 & -> & Hm2 & Ha2 & Ho2);
      [by apply no_nil_ensureKey|apply ensureKey_is_Some; by right|]. cbn. unfold IsCCREnabled. rewrite Hf. cbn.
    assert (annotated hash NodeAgentComponentName m2) as Ha1' 
      by (apply (annotated_other _ _ ClusterAgentComponentName (ensureKey ClusterAgentComponentName m1)); [by apply annotated_ensureKey|discriminate|done]).
    destruct (match Features_ClusterChecks f with Some c => _ | None => _ end).
    + destruct (annotateOverride_run hash ClusterChecksRunnerComponentName (ensureKey ClusterChecksRunnerComponentName m2)) as (m3 & -> & _ & _ & Ho3);
        [by apply no_nil_ensureKey|apply ensureKey_is_Some; by right|]. cbn.
      eexists. split; [done|]. split; [done|]. intros _ k Hk. cbn.
      rewrite elem_of_cons, list_elem_of_singleton in Hk. destruct Hk as [->| ->];
        (apply (annotated_other _ _ ClusterChecksRunnerComponentName (ensureKey ClusterChecksRunnerComponentName m2));
         [by apply annotated_ensureKey|discriminate|exact Ho3]).
    + eexists. split; [done|]. split; [done|]. intros _ k Hk. rewrite elem_of_cons, list_elem_of_singleton in Hk. by destruct Hk as [->| ->].
Qed.

(** What the API server takes for a DatadogAgent with these features and overrides. *)
Definition well_formed dda : Prop :=
  ValidateDatadogAgent quoted IsQualifiedName IsValidLabelValue range (dda_Spec dda) = None ∧
  is_Some (Spec_Features (dda_Spec dda)) ∧ no_nil (Spec_Override (dda_Spec dda)).

Lemma validated_credentials (s : DatadogAgentSpec) :
  ValidateDatadogAgent quoted IsQualifiedName IsValidLabelValue range s = None →
  ∃ g c, Spec_Global s = Some g ∧ Global_Credentials g = Some c.
Proof. unfold ValidateDatadogAgent. destruct (Spec_Global s) as [g|]; [|done]. destruct (Global_Credentials g) as [c|] eqn:Hc; [|done]. by exists g, c. Qed.

(** C17: the DatadogAgentInternal of a DatadogAgent refers to secrets.  For a
    DatadogAgent that passes validation, with features and no nil override, one is
    made: under the same name, owned, with a finalizer and the hash of its spec.  It
    has no API or application key in plain text but a secret for each that was
    given, and a valid secret for the token.  A token that was given in plain text
    without a valid secret is gone, and its hash is on the pods of the node agent and
    the Cluster Agent; one that was given beside a valid secret is kept, in plain
    text. *)
Theorem internal_refers_to_secrets gvk dda provider h :
  ddaGVK = inl gvk → (∀ h s, ∃ hash, specMD5 h s = inl hash) → well_formed dda →
  ∃ h' d g c g' c', generateDDAIFromDDA specMD5 ddaGVK tokenHash dda provider h = (h', Ret d) ∧
    ddi_Key d = dda_key dda ∧ ddi_Finalizers d = [DatadogAgentInternalFinalizer] ∧
    ddi_OwnerReferences d = [NewControllerRef (dda_Name dda) (dda_UID dda) gvk] ∧
    ddi_Labels d !! DatadogAgentNameLabelKey = Some (dda_Name dda) ∧
    (∃ hash, specMD5 h' (ddi_Spec d) = inl hash ∧ ddi_Annotations d !! MD5DDAIDeploymentAnnotationKey = Some hash) ∧
    Spec_Global (dda_Spec dda) = Some g ∧ Global_Credentials g = Some c ∧
    Spec_Global (ddi_Spec d) = Some g' ∧ Global_Credentials g' = Some c' ∧ by_reference c c' ∧
    IsValidSecretConfig (Global_ClusterAgentTokenSecret g') = true ∧
    Global_ClusterAgentToken g' =
      (if IsValidSecretConfig (Global_ClusterAgentTokenSecret g) then Global_ClusterAgentToken g else None) ∧
    (bare_token g → ∀ k, k ∈ [NodeAgentComponentName; ClusterAgentComponentName] →
         annotated (tokenHash (StringValue (Global_ClusterAgentToken g))) k (Spec_Override (ddi_Spec d))).
Proof.
  intros Hgvk Hmd5 (Hv & Hf & Hm). destruct (validated_credentials _ Hv) as (g & c & Hg & Hc).
  destruct (allocates_Spec_DeepCopy h (dda_Spec dda)) as (h1 & s & Hr & _ & Hs & Hcopy).
  assert (no_nil (Spec_Override s)) as Hm1.
  { intros k Hk. specialize (Hcopy k). rewrite Hk in Hcopy. destruct (Spec_Override (dda_Spec dda) !! k) as [[o|]|] eqn:Ho; try done.
    by apply (Hm k). }
  set (g1 := setDCATokenFromDDA dda (set_Global_Credentials (Some (newCredentials dda c)) g)).
  destruct (SetOverrideFromDDA_run dda (set_Spec_Global (Some g1) s) g) as (s2 & Hr2 & Hg2 & Ha2); [done|by rewrite Hs|done|].
  destruct (Hmd5 h1 s2) as [hash Hhash].
  set (d := set_ddi_Annotations (<[MD5DDAIDeploymentAnnotationKey := hash]> (ddaiAnnotations dda provider))
              (mkInternal (dda_Namespace dda) (dda_Name dda) (getDDAILabels dda) (ddaiAnnotations dda provider)
                 [DatadogAgentInternalFinalizer] [NewControllerRef (dda_Name dda) (dda_UID dda) gvk] s2)).
  exists h1, d, g, c, g1, (newCredentials dda c). split.
  { assert (generateSpecFromDDA tokenHash dda h = (h1, Ret s2)) as Hspec.
    { unfold generateSpecFromDDA. rewrite (GoM_bind_Ret _ _ _ _ _ Hr). cbv beta.
      assert (SetGlobalFromDDA dda (Spec_Global s) = Ret (Some g1)) as Hglob
        by (rewrite Hs; unfold SetGlobalFromDDA, setCredentialsFromDDA; cbn; rewrite Hg; cbn; by rewrite Hc).
      unfold of_outcome at 1. rewrite Hglob. unfold mbind, GoM_bind, of_outcome. by rewrite Hr2. }
    unfold generateDDAIFromDDA, generateObjMetaFromDDA. rewrite Hgvk.
    rewrite (GoM_bind_Ret _ (of_sum (inl _)) h h _ eq_refl). rewrite (GoM_bind_Ret _ _ _ _ _ Hspec).
    unfold SetMD5GenerationAnnotation. rewrite (GoM_bind_Ret _ (gets id) h1 h1 h1 eq_refl). cbn [ddi_Spec set_ddi_Spec].
    by rewrite Hhash. }
  split_and!; try done.
  - unfold d, getDDAILabels. cbn. rewrite Hg. rewrite lookup_union_l'; [by rewrite lookup_insert_eq|by rewrite lookup_insert_eq; eexists].
  - exists hash. split; [done|]. cbn. apply lookup_insert_eq.
  - cbn. unfold g1, setDCATokenFromDDA. by destruct (IsValidSecretConfig _).
  - apply newCredentials_by_reference.
  - unfold g1, setDCATokenFromDDA. destruct (IsValidSecretConfig (Global_ClusterAgentTokenSecret (set_Global_Credentials _ g))) eqn:Hi;
      [done|]. apply token_secret_valid.
  - unfold g1, setDCATokenFromDDA.
    change (Global_ClusterAgentTokenSecret (set_Global_Credentials _ g)) with (Global_ClusterAgentTokenSecret g).
    by destruct (IsValidSecretConfig _).
Qed.
End Generate.

(** ** The DatadogAgentInternal of a profile *)

(** A run from [h]: the arrays there were stay, and [P] holds for what it returns. *)
Definition grows {A} (h : Arrays) (m : GoM Arrays A) (P : Arrays → A → Prop) : Prop :=
  wp m (λ h' o, h `prefix_of` h' ∧ match o with Ret a => P h' a | _ => True end) h.

Lemma wp_grows {A} h (m : GoM Arrays A) (P : Arrays → A → Prop) (Q : Arrays → outcome A → Prop) :
  grows h m P → (∀ h' o, h `prefix_of` h' → match o with Ret a => P h' a | _ => True end → Q h' o) → wp m Q h.
Proof. intros [Hp HP] HQ. by apply HQ. Qed.

Lemma grows_bind {A B} h (m : GoM Arrays A) (f : A → GoM Arrays B) (P : Arrays → A → Prop) Q :
  grows h m P → (∀ h' a, h `prefix_of` h' → P h' a → grows h' (f a) Q) → grows h (m ≫= f) Q.
Proof.
  intros Hm Hf. apply wp_bind, (wp_grows h m P); [done|]. intros h' [a|e|] Hp HP; [|done..].
  apply (wp_grows h' (f a) Q); [by apply Hf|]. intros h2 o Hp2 HQ. split; [by etrans|done].
Qed.

Lemma grows_allocates {A} h (m : GoM Arrays A) P : allocates h m P → grows h m P.
Proof. intros (h' & a & Hm & Hp & HP). unfold grows, wp. by rewrite Hm. Qed.

Lemma grows_ret {A} h (a : A) (P : Arrays → A → Prop) : P h a → grows h (mret a) P.
Proof. intros HP. by apply grows_allocates, allocates_ret. Qed.

Lemma grows_mono {A} h (m : GoM Arrays A) (P Q : Arrays → A → Prop) :
  grows h m P → (∀ h' a, h `prefix_of` h' → P h' a → Q h' a) → grows h m Q.
Proof. intros Hm HQ. apply (wp_grows h m P); [done|]. intros h' [] Hp HP; auto. Qed.

Lemma grows_mapM {A B} h (f : A → GoM Arrays B) (R : Arrays → A → B → Prop) l :
  (∀ h h' a b, R h a b → h `prefix_of` h' → R h' a b) → (∀ h a, a ∈ l → grows h (f a) (λ h' b, R h' a b)) →
  grows h (mapM f l) (λ h' l', Forall2 (R h') l l').
Proof.
  intros Hmono. revert h. induction l as [|a l IH]; intros h Hf; [by apply grows_ret|].
  change (mapM f (a :: l)) with (b ← f a; l' ← mapM f l; mret (b :: l') : GoM Arrays (list B)).
  eapply grows_bind; [apply Hf; by left|]. intros h1 b Hp Hb.
  eapply grows_bind; [apply IH; intros; apply Hf; by right|]. intros h2 l' Hp2 Hl.
  apply grows_ret. constructor; [by apply (Hmono h1 h2)|done].
Qed.

Definition profileRequirements (p : AgentProfile) : list NodeSelectorRequirement :=
  if IsDefaultProfile (prof_Namespace p) (prof_Name p) then [mkNSR ProfileLabelKey "DoesNotExist" []]
  else default [] (prof_Affinity p) ++ [profileLabelKeyNSR (prof_Name p)].

(** The default profile, or one with requirements of its own. *)
Definition selective (p : AgentProfile) : Prop :=
  IsDefaultProfile (prof_Namespace p) (prof_Name p) = true ∨ default [] (prof_Affinity p) ≠ [].

Lemma valid_emptySlice h : valid h emptySlice.
Proof. split; [done|by left]. Qed.

Lemma allocates_oneTerm h l :
  allocates h (oneTerm l) (λ h' n, ∃ t, na_Required n = Some [t] ∧ valid_term h' t ∧ read h' (MatchExpressions t) = l).
Proof.
  eapply allocates_bind; [apply allocates_slice|]. intros h' s _ (Hv & _ & Hr). apply allocates_ret.
  eexists. split; [done|]. split; [split; [done|apply valid_emptySlice]|done].
Qed.

Lemma allocates_AffinityOverride h p :
  selective p →
  allocates h (AffinityOverride p) (λ h' a, ∃ t, requiredTerms (Some a) = Some [t] ∧ valid_term h' t ∧
                                                 read h' (MatchExpressions t) = profileRequirements p).
Proof.
  unfold AffinityOverride, profileRequirements, selective. intros Hs.
  destruct (IsDefaultProfile _ _).
  - eapply allocates_bind; [apply allocates_oneTerm|]. intros h' n _ (t & Ht & Hv & Hr). apply allocates_ret.
    exists t. by destruct n; cbn in *; subst.
  - destruct (default [] (prof_Affinity p)) as [|r l] eqn:Hl; [by destruct Hs|].
    eapply allocates_bind; [apply allocates_oneTerm|]. intros h' n _ (t & Ht & Hv & Hr). apply allocates_ret.
    exists t. by destruct n; cbn in *; subst.
Qed.

Section Merged.
Context (slack : nat → nat).

Lemma grows_append h s t :
  valid h s → full s → valid h t →
  grows h (append slack s t) (λ h' s', valid h' s' ∧ read h' s' = read h s ++ read h t).
Proof.
  intros Hs Hf Ht. destruct (append_full slack h s t) as (h' & s' & Ha & Hp & Hr); [done..|].
  apply grows_allocates. exists h', s'. split_and!; [done..|by apply (append_valid slack h s t)|done].
Qed.

Lemma grows_mergeTerms h t1 t2 :
  valid_term h t1 → full_term t1 → valid_term h t2 →
  grows h (mergeTerms slack t1 t2) (λ h' t, valid_term h' t ∧ ∀ r, r ∈ read h (MatchExpressions t2) → r ∈ read h' (MatchExpressions t)).
Proof.
  intros [He1 Hf1] [Fe Ff] [He2 Hf2]. eapply grows_bind; [by apply grows_append|]. intros h1 e Hp1 [Hve Hre].
  eapply grows_bind; [by apply grows_append; [apply (valid_prefix h h1)|..|apply (valid_prefix h h1)]|]. intros h2 f Hp2 [Hvf _].
  apply grows_ret. split; [split; [by eapply valid_prefix|done]|]. intros r Hr. cbn.
  rewrite (read_prefix h1 h2) by done. rewrite Hre. apply elem_of_app. by right.
Qed.

Lemma grows_mergeSelectorTerms h terms t2 :
  own_terms h terms → valid_term h t2 →
  grows h (mergeSelectorTerms slack terms [t2]) (λ h' terms', requires h' (read h (MatchExpressions t2)) terms').
Proof.
  intros Ho Hv. revert h Ho Hv. induction terms as [|t1 terms IH]; intros h Ho Hv; [by apply grows_ret, Forall_nil|].
  apply Forall_cons in Ho as [[Hv1 Hf1] Ho]. cbn [mergeSelectorTerms mergeTermWith].
  eapply (grows_bind h _ _ (λ h' l, requires h' (read h (MatchExpressions t2)) l)).
  { eapply grows_bind; [by apply grows_mergeTerms|]. intros h1 t _ Ht. apply grows_ret. cbn.
    unfold mbind, GoM_bind. apply Forall_cons. by split. }
  intros h1 l Hp Hl. eapply grows_bind; [apply IH; [by eapply own_terms_prefix|by eapply valid_term_prefix]|].
  intros h2 l' Hp2 Hl'. apply grows_ret, Forall_app. split; [by eapply requires_prefix|].
  rewrite (read_prefix h h1) in Hl'; [done|by apply Hv|done].
Qed.

Lemma grows_MergeAffinities h a b t2 :
  own_affinity h a → requiredTerms (Some b) = Some [t2] → valid_term h t2 →
  grows h (MergeAffinities slack a (Some b)) (λ h' c, restricted h' (read h (MatchExpressions t2)) c).
Proof.
  intros Ha Hb Hv. destruct b as [[[rb prefb]|] podb antib]; [|done]. cbn in Hb. subst rb.
  assert (Hone : requires h (read h (MatchExpressions t2)) [t2]) by (apply Forall_singleton; by split).
  destruct a as [[na poda antia]|]; [|apply grows_ret; by exists [t2]].
  eapply grows_bind; [|intros h' c _ Hc; apply grows_ret; exact Hc].
  eapply (grows_bind h _ _ (λ h' n, ∀ pod anti, restricted h' (read h (MatchExpressions t2)) (Some (mkAffinity n pod anti)))).
  - destruct na as [[ra prefa]|]; [|apply grows_ret; intros pod anti; by exists [t2]].
    eapply grows_bind; [|intros h' c _ Hc; apply grows_ret; exact Hc].
    eapply (grows_bind h _ _ (λ h' r, ∃ terms, r = Some terms ∧ requires h' (read h (MatchExpressions t2)) terms)).
    + destruct ra as [terms|]; [|apply grows_ret; by exists [t2]].
      eapply grows_bind; [apply grows_mergeSelectorTerms; [by apply Ha|done]|]. intros h' l _ Hl. apply grows_ret. by exists l.
    + intros h' r _ (terms & -> & Hr). apply grows_ret. intros pod anti. by exists terms.
  - intros h' n _ Hn. eapply (grows_bind h' _ _ (λ h' _, ∀ pod anti, restricted h' (read h (MatchExpressions t2)) (Some (mkAffinity n pod anti)))).
    + destruct poda, podb; cbn; apply grows_ret, Hn.
    + intros h2 pod _ Hn2. eapply (grows_bind h2 _ _ (λ h' _, ∀ pod anti, restricted h' (read h (MatchExpressions t2)) (Some (mkAffinity n pod anti)))).
      * destruct antia, antib; cbn; apply grows_ret, Hn2.
      * intros h3 anti _ Hn3. apply grows_ret, Hn3.
Qed.
End Merged.

(** *** Server-side apply *)

Definition spec_labels (s : DatadogAgentSpec) : gmap string string := from_option Global_CommonLabels ∅ (Spec_Global s).

(** The fields of an override that were set are set. *)
Definition applied_override (h h' : Arrays) (o o' : DatadogAgentComponentOverride) : Prop :=
  (∀ v, Override_Name o = Some v → Override_Name o' = Some v) ∧
  (∀ v, Override_Disabled o = Some v → Override_Disabled o' = Some v) ∧
  Override_Labels o ⊆ Override_Labels o' ∧
  ∀ reqs, restricted h reqs (Override_Affinity o) → restricted h' reqs (Override_Affinity o').

Definition applied (h h' : Arrays) (modified result : DatadogAgentInternal) : Prop :=
  ddi_Key result = ddi_Key modified ∧ ddi_Labels modified ⊆ ddi_Labels result ∧
  ddi_Annotations modified ⊆ ddi_Annotations result ∧
  spec_labels (ddi_Spec modified) ⊆ spec_labels (ddi_Spec result) ∧
  ∀ k o, Spec_Override (ddi_Spec modified) !! k = Some (Some o) →
    ∃ o', Spec_Override (ddi_Spec result) !! k = Some (Some o') ∧ applied_override h h' o o'.

(** What held in the arrays holds when there are more. *)
Lemma applied_later h h1 h2 a b : h `prefix_of` h1 → applied h1 h2 a b → applied h h2 a b.
Proof.
  intros Hp (Hk & Hl & Ha & Hc & Ho). split_and!; [done..|]. intros k o Hk'. destruct (Ho k o Hk') as (o' & Ho' & Hn & Hd & Hlab & Haff).
  exists o'. split; [done|]. split_and!; [done..|]. intros reqs Hr. apply Haff. by eapply restricted_prefix.
Qed.

Lemma applied_trans h1 h2 h3 a b c : applied h1 h2 a b → applied h2 h3 b c → applied h1 h3 a c.
Proof.
  intros (Hk1 & Hl1 & Ha1 & Hc1 & Ho1) (Hk2 & Hl2 & Ha2 & Hc2 & Ho2). split_and!; [congruence|by etrans..|].
  intros k o Hk. destruct (Ho1 k o Hk) as (o2 & Hk' & Hn1 & Hd1 & Hlab1 & Haff1).
  destruct (Ho2 k o2 Hk') as (o3 & Hk3 & Hn2 & Hd2 & Hlab2 & Haff2). exists o3. split; [done|]. split_and!; [by auto..|by etrans|by auto].
Qed.

(** A copy has the fields. *)
Lemma allocates_DeepCopy h d : allocates h (Internal_DeepCopy d) (λ h' d', applied h h' d d').
Proof.
  unfold Internal_DeepCopy. eapply allocates_bind; [apply allocates_Spec_DeepCopy|]. intros h' s _ [Hs Hc].
  apply allocates_ret. split_and!; [done..|by rewrite Hs|]. intros k o Hk. cbn. specialize (Hc k). rewrite Hk in Hc.
  destruct (Spec_Override s !! k) as [[o'|]|]; [|done..]. destruct Hc as (a & -> & _ & Hr). exists (set_Override_Affinity a o).
  split; [done|]. by split_and!.
Qed.

(** The paths of the fields above, those they are in and those below them. *)
Definition reliedOn (path : list string) : bool :=
  match path with
  | [] | ["spec"] | ["spec"; "global"] | ["spec"; "override"] | ["spec"; "override"; _] => true
  | "metadata" :: _ | "spec" :: "global" :: "commonLabels" :: _ => true
  | "spec" :: "override" :: _ :: field :: _ => bool_decide (field ∈ ["name"; "disabled"; "labels"; "affinity"])
  | _ => false
  end.

(** The path of a dotted text. *)
Definition fieldPath (p : string) : list string :=
  match p with String _ p => SplitChar dot p | EmptyString => [] end.

(** What the field manager and [RemoveNestedField] promise.  The fields of the
    configuration that is applied by force are in the result; a failure may name
    fields that the schema of an older CRD does not declare, but none of those
    above; the removal of any other field leaves these. *)
Class FieldManager (Apply : DatadogAgentInternal → DatadogAgentInternal → GoM Arrays DatadogAgentInternal)
    (removeNestedField : list string → DatadogAgentInternal → GoM Arrays DatadogAgentInternal) := {
  law_Apply base modified h :
    wp (Apply base modified) (λ h' o, h `prefix_of` h' ∧
      match o with
      | Ret result => applied h h' modified result
      | Fail e => ∀ p, p ∈ extractMissingSchemaPaths e → reliedOn (fieldPath p) = false
      | Panic => False
      end) h;
  law_removeNestedField path d h :
    wp (removeNestedField path d) (λ h' o, h `prefix_of` h' ∧
      match o with
      | Ret d' => reliedOn path = false → applied h h' d d'
      | _ => False
      end) h
}.

Section OfProfile.
Context (slack : nat → nat) (Apply : DatadogAgentInternal → DatadogAgentInternal → GoM Arrays DatadogAgentInternal).
Context (removeNestedField : list string → DatadogAgentInternal → GoM Arrays DatadogAgentInternal).
Context `{!FieldManager Apply removeNestedField}.
Context (specMD5 : Arrays → DatadogAgentSpec → string + error).
Implicit Types (p : AgentProfile) (d : DatadogAgentInternal) (m : Overrides).

Lemma applied_refl h d : applied h h d d.
Proof. split_and!; [done..|]. intros k o Hk. exists o. split; [done|]. by split_and!. Qed.

Lemma grows_stripDottedFieldPath h path d :
  grows h (stripDottedFieldPath removeNestedField path d) (λ h' d', reliedOn (fieldPath path) = false → applied h h' d d').
Proof.
  unfold stripDottedFieldPath. destruct path as [|c path]; [apply grows_ret; intros _; apply applied_refl|]. cbn [fieldPath].
  destruct (_ && _); [|apply grows_ret; intros _; apply applied_refl].
  eapply wp_mono; [apply law_removeNestedField|]. by intros h' [d'|e|] [Hp Hd].
Qed.

Lemma grows_stripPaths h paths orig mod_ :
  (∀ f, f ∈ paths → reliedOn (fieldPath f) = false) →
  grows h (stripPaths removeNestedField paths orig mod_) (λ h' r, applied h h' mod_ r.2).
Proof.
  revert h orig mod_. induction paths as [|f paths IH]; intros h orig mod_ Hp; [by apply grows_ret, applied_refl|]. cbn [stripPaths].
  eapply grows_bind; [apply grows_stripDottedFieldPath|]. intros h1 orig' Hp1 _.
  eapply grows_bind; [apply grows_stripDottedFieldPath|]. intros h2 mod' Hp2 Hm.
  eapply grows_mono; [apply IH; intros q Hq; apply Hp; by right|]. intros h3 r _ Hr.
  eapply applied_trans; [|exact Hr]. apply (applied_later h h1); [done|]. apply Hm, Hp. by left.
Qed.

(** The merge, retried without the fields that the schema does not know. *)
Lemma grows_ssaMergeCRD h base modified :
  grows h (ssaMergeCRD Apply removeNestedField base modified) (λ h' r, applied h h' modified r).
Proof.
  unfold ssaMergeCRD. apply wp_bind, wp_attempt. eapply wp_mono; [apply law_Apply|]. intros h' [r|e|] [Hp Ho]; [|cbn|done].
  - by apply wp_ret.
  - case_bool_decide; [by apply wp_fail|]. 
    apply (wp_grows h' _ (λ h2 r, applied h h2 modified r)); [|intros h2 o Hp2 H2; split; [by etrans|exact H2]].
    eapply (grows_bind h' _ _ (λ h1 _, True)); [eapply grows_mono; [apply grows_allocates, allocates_DeepCopy|done]|].
    intros h1 orig Hp1 _. eapply grows_bind; [apply grows_allocates, allocates_DeepCopy|]. intros h2 mod_ Hp2 Hm.
    eapply grows_bind; [by apply grows_stripPaths|]. intros h3 stripped Hp3 Hs.
    apply wp_bind, wp_attempt. eapply wp_mono; [apply law_Apply|]. intros h4 [r|e'|] [Hp4 Hr]; [|by apply wp_fail|done].
    apply wp_ret. split; [done|]. apply (applied_later h h1); [by etrans|].
    eapply applied_trans; [exact Hm|]. eapply applied_trans; [exact Hs|exact Hr].
Qed.

(** *** Overrides *)

Lemma lookup_editOverride k f m :
  editOverride k f m !! k = Some (Some (f (default zero (mjoin (m !! k))))).
Proof. apply lookup_insert_eq. Qed.

Lemma lookup_editOverride_ne k k' f m : k ≠ k' → editOverride k f m !! k' = m !! k'.
Proof. intros. by apply lookup_insert_ne. Qed.

Definition otherComponents : list string :=
  [ClusterAgentComponentName; ClusterChecksRunnerComponentName; OtelAgentGatewayComponentName].

Lemma node_not_other : NodeAgentComponentName ∉ otherComponents.
Proof. by apply (bool_decide_unpack (NodeAgentComponentName ∉ otherComponents)). Qed.

Lemma DaemonSetName_profile p :
  IsDefaultProfile (prof_Namespace p) (prof_Name p) = false →
  DaemonSetName (nsname p) true = prof_Name p +:+ "-" +:+ DefaultAgentResourceSuffix.
Proof. intros Hp. unfold DaemonSetName, nsname. cbn. by rewrite Hp. Qed.

(** The override of the node agent of a profile, with this affinity. *)
Definition node_override (P : option Affinity → Prop) p (s : DatadogAgentSpec) : Prop :=
  ∃ o, Spec_Override s !! NodeAgentComponentName = Some (Some o) ∧ P (Override_Affinity o) ∧
    (IsDefaultProfile (prof_Namespace p) (prof_Name p) = false →
       Override_Name o = Some (prof_Name p +:+ "-" +:+ DefaultAgentResourceSuffix) ∧
       Override_Labels o !! ProfileLabelKey = Some (prof_Name p)).

(** Nothing but the node agent, and the common labels. *)
Definition node_agent_only (base : DatadogAgentSpec) p (s : DatadogAgentSpec) : Prop :=
  IsDefaultProfile (prof_Namespace p) (prof_Name p) = false →
  spec_labels (prof_Config p) ∪ spec_labels base ⊆ spec_labels s ∧
  ∀ c, c ∈ otherComponents → ∃ o, Spec_Override s !! c = Some (Some o) ∧ Override_Disabled o = Some true.

Lemma restoreCommonLabels_labels base config :
  spec_labels (restoreCommonLabels base config) = spec_labels config ∪ spec_labels base.
Proof.
  unfold restoreCommonLabels, spec_labels. case_bool_decide as Hb; [by rewrite Hb, (right_id_L ∅ (∪))|]. cbn.
  by destruct (Spec_Global config) as [g|].
Qed.

Lemma disable_keeps k k' m o :
  m !! k = Some (Some o) → Override_Disabled o = Some true →
  ∃ o', disableComponent k' m !! k = Some (Some o') ∧ Override_Disabled o' = Some true.
Proof.
  intros Hm Hd. unfold disableComponent. destruct (decide (k' = k)) as [->|Hne].
  - rewrite lookup_editOverride, Hm. by eexists.
  - rewrite lookup_editOverride_ne by done. by exists o.
Qed.

Lemma disabled_there k m : ∃ o, disableComponent k m !! k = Some (Some o) ∧ Override_Disabled o = Some true.
Proof. unfold disableComponent. rewrite lookup_editOverride. by eexists. Qed.

Lemma setProfileNodeAgentOverride_other p m k : k ≠ NodeAgentComponentName → setProfileNodeAgentOverride p m !! k = m !! k.
Proof. intros Hk. unfold setProfileNodeAgentOverride. destruct (_ && _); by rewrite ?lookup_editOverride_ne. Qed.

Lemma replaceSpec_others p base c :
  c ∈ otherComponents → ∃ o, Spec_Override (replaceSpec p base) !! c = Some (Some o) ∧ Override_Disabled o = Some true.
Proof.
  intros Hc. unfold replaceSpec. cbn [Spec_Override set_Spec_Override].
  rewrite setProfileNodeAgentOverride_other by (intros ->; by apply node_not_other).
  unfold otherComponents in Hc. rewrite !elem_of_cons in Hc. destruct Hc as [->|[->|[->|[]%elem_of_nil]]].
  - destruct (disabled_there ClusterAgentComponentName (Spec_Override (restoreCommonLabels base (prof_Config p)))) as (o & Ho & Hd).
    destruct (disable_keeps _ ClusterChecksRunnerComponentName _ o Ho Hd) as (o2 & Ho2 & Hd2).
    by apply (disable_keeps _ _ _ o2).
  - destruct (disabled_there ClusterChecksRunnerComponentName
      (disableComponent ClusterAgentComponentName (Spec_Override (restoreCommonLabels base (prof_Config p))))) as (o & Ho & Hd).
    by apply (disable_keeps _ _ _ o).
  - apply disabled_there.
Qed.

Lemma replaceSpec_node p base :
  IsDefaultProfile (prof_Namespace p) (prof_Name p) = false →
  ∃ o, Spec_Override (replaceSpec p base) !! NodeAgentComponentName = Some (Some o) ∧
       Override_Name o = Some (prof_Name p +:+ "-" +:+ DefaultAgentResourceSuffix) ∧
       Override_Labels o !! ProfileLabelKey = Some (prof_Name p).
Proof.
  intros Hp. unfold replaceSpec, setProfileNodeAgentOverride. cbn [Spec_Override set_Spec_Override].
  rewrite (DaemonSetName_profile p Hp), Hp. rewrite bool_decide_false by (by destruct (prof_Name p)). cbn [negb andb].
  rewrite lookup_editOverride. eexists. split; [done|]. split; [done|].
  cbn [Override_Labels set_Override_Name]. rewrite lookup_editOverride. apply lookup_insert_eq.
Qed.

(** *** The spec and the metadata *)

Lemma grows_setProfileSpec h d p :
  selective p → (∀ o, Spec_Override (ddi_Spec d) !! NodeAgentComponentName = Some (Some o) → own_affinity h (Override_Affinity o)) →
  grows h (setProfileSpec slack d p) (λ h' r, node_override (restricted h' (profileRequirements p)) p (ddi_Spec r) ∧
    node_agent_only (ddi_Spec d) p (ddi_Spec r) ∧ r = set_ddi_Spec (ddi_Spec r) d).
Proof.
  intros Hs Ho. unfold setProfileSpec, setProfileDDAIAffinity.
  eapply (grows_bind h _ _ (λ h' a, restricted h' (profileRequirements p) a)).
  - eapply grows_bind; [by apply grows_allocates, allocates_AffinityOverride|]. intros h1 b Hp1 (t2 & Hb & Hv & <-).
    apply grows_MergeAffinities; [|done..]. intros terms Ht.
    destruct (Spec_Override (ddi_Spec d) !! NodeAgentComponentName) as [[o|]|]; [|done..].
    eapply own_terms_prefix; [by apply (Ho o)|done].
  - intros h' a _ Ha. apply grows_ret. cbn [ddi_Spec set_ddi_Spec]. split_and!; [..|done].
    + eexists. cbn [Spec_Override set_Spec_Override]. split; [apply lookup_editOverride|]. split; [done|]. intros Hp. rewrite Hp.
      destruct (replaceSpec_node p (ddi_Spec d) Hp) as (o & -> & Hn & Hl). done.
    + intros Hp. rewrite Hp. split.
      * change (spec_labels (prof_Config p) ∪ spec_labels (ddi_Spec d) ⊆ spec_labels (restoreCommonLabels (ddi_Spec d) (prof_Config p))).
        by rewrite restoreCommonLabels_labels.
      * intros c Hc. cbn [Spec_Override set_Spec_Override]. rewrite lookup_editOverride_ne by (intros <-; by apply node_not_other).
        by apply replaceSpec_others.
Qed.

(** What is made of a profile, in the metadata and in the spec. *)
Definition meta_of d p (r : DatadogAgentInternal) : Prop :=
  ddi_Key r = (ddi_Namespace d, getProfileDDAIName (ddi_Name d) (prof_Name p) (prof_Namespace p)) ∧
  (IsDefaultProfile (prof_Namespace p) (prof_Name p) = false → ddi_Labels r !! ProfileLabelKey = Some (prof_Name p)).

Definition of_profile h d p (r : DatadogAgentInternal) : Prop :=
  meta_of d p r ∧ node_override (restricted h (profileRequirements p)) p (ddi_Spec r) ∧ node_agent_only (ddi_Spec d) p (ddi_Spec r).

Lemma applied_of_profile h h' d p modified r :
  of_profile h d p modified → applied h h' modified r → of_profile h' d p r.
Proof.
  intros ([Hk Hl] & (o & Ho & Ha & Hn) & Hother) (Hkey & Hlab & _ & Hcl & Hover). split; [|split].
  - split; [by rewrite Hkey|]. intros Hp. eapply lookup_weaken; [by apply Hl|done].
  - destruct (Hover _ _ Ho) as (o' & Ho' & Hname & _ & Hlabels & Haff). exists o'. split; [done|]. split; [by apply Haff|].
    intros Hp. destruct (Hn Hp) as [Hn1 Hn2]. split; [by apply Hname|]. by eapply lookup_weaken.
  - intros Hp. destruct (Hother Hp) as [Hc Hd]. split; [by etrans|]. intros c Hin. destruct (Hd c Hin) as (o1 & Ho1 & Hd1).
    destruct (Hover _ _ Ho1) as (o1' & Ho1' & _ & Hd1' & _). exists o1'. split; [done|by apply Hd1'].
Qed.

Lemma setProfileDDAIMeta_meta d p r : ddi_Key r = ddi_Key d → meta_of d p (setProfileDDAIMeta p r).
Proof.
  intros [= Hns Hn]. split; [by unfold ddi_Key; cbn; rewrite Hns, Hn|]. intros Hp. cbn. rewrite Hp. apply lookup_insert_eq.
Qed.

(** On Autopilot the registry is one of GCR. *)
Definition gcr_on_autopilot (r : DatadogAgentInternal) : Prop :=
  IsAutopilotEnabled (ddi_Annotations r) = true →
  ∃ g registry, Spec_Global (ddi_Spec r) = Some g ∧ Global_Registry g = Some registry ∧ IsGCRRegistry registry = true.

Lemma ensureGCR_registry s :
  ∃ g registry, Spec_Global (ensureGCRAutopilotRegistry s) = Some g ∧ Global_Registry g = Some registry ∧ IsGCRRegistry registry = true.
Proof.
  unfold ensureGCRAutopilotRegistry. cbn. destruct (Global_Registry (default zero (Spec_Global s))) as [registry|] eqn:Hr.
  - destruct (IsGCRRegistry registry) eqn:Hg; [by eexists _, registry|by eexists _, _].
  - by eexists _, _.
Qed.

Lemma ensureGCR_labels s : spec_labels (ensureGCRAutopilotRegistry s) = spec_labels s.
Proof.
  unfold ensureGCRAutopilotRegistry, spec_labels. cbn. destruct (Spec_Global s) as [g|]; cbn.
  - destruct (Global_Registry g); [|done]. by destruct (IsGCRRegistry _).
  - done.
Qed.

Lemma IsAutopilotEnabled_hash hash a :
  IsAutopilotEnabled (<[MD5DDAIDeploymentAnnotationKey := hash]> a) = IsAutopilotEnabled a.
Proof. unfold IsAutopilotEnabled, get_key. by rewrite !lookup_insert_ne by done. Qed.

Lemma of_profile_spec h d p r s :
  of_profile h d p r → Spec_Override s = Spec_Override (ddi_Spec r) → spec_labels s = spec_labels (ddi_Spec r) →
  of_profile h d p (set_ddi_Spec s r).
Proof. unfold of_profile, meta_of, node_override, node_agent_only. cbn [ddi_Spec set_ddi_Spec]. by intros ? -> ->. Qed.

Definition hashed h (r : DatadogAgentInternal) : Prop :=
  ∃ hash, specMD5 h (ddi_Spec r) = inl hash ∧ ddi_Annotations r !! MD5DDAIDeploymentAnnotationKey = Some hash.

Lemma grows_computeProfileMerge h d p :
  selective p →
  grows h (computeProfileMerge slack Apply removeNestedField specMD5 d p) (λ h' r, of_profile h' d p r ∧ gcr_on_autopilot r ∧ hashed h' r).
Proof.
  intros Hs. unfold computeProfileMerge, Internal_DeepCopy.
  eapply (grows_bind h _ _ (λ h' x, ddi_Key x = ddi_Key d ∧ spec_labels (ddi_Spec x) = spec_labels (ddi_Spec d) ∧
     ∀ o, Spec_Override (ddi_Spec x) !! NodeAgentComponentName = Some (Some o) → own_affinity h' (Override_Affinity o))).
  { eapply grows_bind; [apply grows_allocates, allocates_Spec_DeepCopy|]. intros h1 s _ [Hs1 Hc]. apply grows_ret.
    split; [done|]. split; [by rewrite Hs1|]. cbn. intros o Ho. specialize (Hc NodeAgentComponentName). rewrite Ho in Hc.
    destruct (_ !! _) as [[o0|]|]; [|done..]. by destruct Hc as (a & -> & Ha & _). }
  intros h1 x _ (Hxk & Hxl & Hx).
  eapply (grows_bind h1 _ _ (λ _ _, True)).
  { eapply grows_bind; [apply grows_allocates, allocates_Spec_DeepCopy|]. intros h2 s _ _. by apply grows_ret. }
  intros h2 base Hp2 _. eapply grows_bind; [apply grows_setProfileSpec; [done|]|].
  { intros o Ho terms Ht. eapply own_terms_prefix; [by apply (Hx o)|done]. }
  intros h3 y _ (Hnode & Honly & Hy). eapply grows_bind; [apply grows_ssaMergeCRD|]. intros h4 r _ Happ.
  assert (of_profile h4 d p r) as Hr.
  { eapply applied_of_profile; [|exact Happ]. split; [|split].
    - apply setProfileDDAIMeta_meta. by rewrite Hy.
    - exact Hnode.
    - intros Hp. specialize (Honly Hp). rewrite Hxl in Honly. exact Honly. }
  set (obj := if IsAutopilotEnabled _ then _ else _).
  assert (of_profile h4 d p obj ∧ gcr_on_autopilot obj) as [Hobj Hgcr].
  { unfold obj. destruct (IsAutopilotEnabled _) eqn:Hauto; [|by split; [|unfold gcr_on_autopilot; rewrite Hauto]]. split.
    - apply of_profile_spec; [done|done|apply ensureGCR_labels].
    - intros _. apply ensureGCR_registry. }
  unfold SetMD5GenerationAnnotation. apply wp_gets_then. cbn. destruct (specMD5 h4 (ddi_Spec obj)) as [hash|e] eqn:He; [|by apply wp_fail].
  apply grows_ret. split_and!; [done| |].
  - unfold gcr_on_autopilot. cbn. by rewrite IsAutopilotEnabled_hash.
  - exists hash. split; [done|apply lookup_insert_eq].
Qed.

(** *** The nodes it runs on *)

(** The scheduler: whether a node has what the affinity of the node agent requires. *)
Definition runs_on (label field : NodeSelectorRequirement → bool) h (r : DatadogAgentInternal) : bool :=
  match requiredTerms (mjoin (Spec_Override (ddi_Spec r) !! NodeAgentComponentName) ≫= Override_Affinity) with
  | Some terms => selects label field h terms
  | None => true
  end.

(** How the scheduler reads two operators. *)
Definition reads_operators (labels : gmap string string) (label : NodeSelectorRequirement → bool) : Prop :=
  ∀ k, (∀ v, label (mkNSR k "In" [v]) = bool_decide (labels !! k = Some v)) ∧
       label (mkNSR k "DoesNotExist" []) = bool_decide (labels !! k = None).

Lemma requires_selects label field h reqs terms :
  requires h reqs terms → selects label field h terms = true → forallb label reqs = true.
Proof.
  intros Hr Hs. unfold selects in Hs. apply existsb_exists in Hs as (t & Ht & Hs). apply list_elem_of_In in Ht.
  unfold requires in Hr. rewrite Forall_forall in Hr. destruct (Hr t Ht) as [_ Hin]. unfold term_selects in Hs.
  apply andb_true_iff in Hs as [Hs _]. apply andb_true_iff in Hs as [_ Hs]. rewrite forallb_forall in Hs.
  apply forallb_forall. intros r Hreq. apply Hs. by apply list_elem_of_In, Hin, list_elem_of_In.
Qed.

Lemma runs_on_requirements label field h d p r :
  of_profile h d p r → runs_on label field h r = true → forallb label (profileRequirements p) = true.
Proof.
  intros (_ & (o & Ho & (terms & Ht & Hr) & _) & _). unfold runs_on. rewrite Ho. cbn. rewrite Ht. by apply requires_selects.
Qed.

(** The label of the profile on a node. *)
Definition nodeLabel p : option string :=
  if IsDefaultProfile (prof_Namespace p) (prof_Name p) then None else Some (prof_Name p).

Lemma required_label labels label p :
  reads_operators labels label → forallb label (profileRequirements p) = true → labels !! ProfileLabelKey = nodeLabel p.
Proof.
  intros Hl. unfold profileRequirements, nodeLabel, profileLabelKeyNSR. destruct (Hl ProfileLabelKey) as [Hin Hno].
  destruct (IsDefaultProfile _ _).
  - cbn. rewrite Hno, andb_true_r. by intros ?%bool_decide_eq_true.
  - rewrite forallb_app. cbn. rewrite Hin, andb_true_r. by intros [_ ?%bool_decide_eq_true]%andb_true_iff.
Qed.

Lemma of_profile_prefix h h' d p r : of_profile h d p r → h `prefix_of` h' → of_profile h' d p r.
Proof.
  intros (Hm & (o & Ho & Ha & Hn) & Hd) Hp. split; [done|]. split; [|done]. exists o. split; [done|].
  split; [by eapply restricted_prefix|done].
Qed.

(** C13: no node has the agents of two DatadogAgentInternals.  For profiles with
    names of their own and a requirement each, beside the default profile: the node
    agent of each DatadogAgentInternal that is computed runs only on nodes that
    satisfy the requirements of its profile and have its label, or none for the
    default one; hence two of them never run on the same node, whatever affinity
    the DatadogAgent has. *)
Theorem internals_never_share_a_node h base dflt profiles h' ddais :
  Forall selective profiles → NoDup (nodeLabel <$> profiles) →
  applyProfilesToDDAISpec slack Apply removeNestedField specMD5 base dflt profiles h = (h', Ret ddais) →
  length ddais = length profiles ∧
  ∀ labels label field, reads_operators labels label →
    (∀ i p r, profiles !! i = Some p → ddais !! i = Some r → runs_on label field h' r = true →
       forallb label (profileRequirements p) = true ∧ labels !! ProfileLabelKey = nodeLabel p) ∧
    (∀ i j r1 r2, ddais !! i = Some r1 → ddais !! j = Some r2 →
       runs_on label field h' r1 = true → runs_on label field h' r2 = true → i = j).
Proof.
  intros Hsel Hnd Hrun.
  assert (Hall : Forall2 (λ p r, of_profile h' (sourceDDAI base dflt p) p r) profiles ddais).
  { enough (Hg : grows h (applyProfilesToDDAISpec slack Apply removeNestedField specMD5 base dflt profiles)
      (λ h' l, Forall2 (λ p r, of_profile h' (sourceDDAI base dflt p) p r) profiles l)).
    { unfold grows, wp in Hg. rewrite Hrun in Hg. by destruct Hg. }
    apply (grows_mapM h _ (λ h' p r, of_profile h' (sourceDDAI base dflt p) p r)).
    - intros h1 h2 p r Hr Hp. by eapply of_profile_prefix.
    - intros h1 p Hp. rewrite Forall_forall in Hsel. eapply grows_mono; [by apply grows_computeProfileMerge, Hsel|]. by intros h2 r _ [Hr _]. }
  split; [symmetry; by eapply Forall2_length|]. intros labels label field Hread.
  assert (Hone : ∀ i p r, profiles !! i = Some p → ddais !! i = Some r → runs_on label field h' r = true →
       forallb label (profileRequirements p) = true ∧ labels !! ProfileLabelKey = nodeLabel p).
  { intros i p r Hp Hr Hruns. destruct (Forall2_lookup_l _ _ _ _ _ Hall Hp) as (r' & Hr' & Hof). simplify_eq.
    pose proof (runs_on_requirements _ _ _ _ _ _ Hof Hruns) as Hreq. split; [done|by eapply required_label]. }
  split; [exact Hone|]. intros i j r1 r2 H1 H2 Hruns1 Hruns2.
  destruct (Forall2_lookup_r _ _ _ _ _ Hall H1) as (p1 & Hp1 & _), (Forall2_lookup_r _ _ _ _ _ Hall H2) as (p2 & Hp2 & _).
  destruct (Hone i p1 r1) as [_ Hl1], (Hone j p2 r2) as [_ Hl2]; [done..|].
  eapply (NoDup_lookup (nodeLabel <$> profiles) i j (nodeLabel p1)); [done|by rewrite list_lookup_fmap, Hp1|].
  rewrite list_lookup_fmap, Hp2. cbn. congruence.
Qed.

(** C16: the DatadogAgentInternal of a profile is its own, and only of node agents.
    It is named after the profile and labelled with it, as are its node agents,
    which have the name of the profile's DaemonSet; the Cluster Agent, the cluster
    checks runners and the gateway are disabled in it; the common labels of the
    profile and, where it has none, of the DatadogAgent are kept; on GKE Autopilot
    the registry is one that is allowed there; and it has the hash of its spec. *)
Theorem profile_internal_is_its_own h d p h' r :
  selective p → IsDefaultProfile (prof_Namespace p) (prof_Name p) = false →
  computeProfileMerge slack Apply removeNestedField specMD5 d p h = (h', Ret r) →
  ddi_Key r = (ddi_Namespace d, prof_Name p) ∧ ddi_Labels r !! ProfileLabelKey = Some (prof_Name p) ∧
  (∃ o, Spec_Override (ddi_Spec r) !! NodeAgentComponentName = Some (Some o) ∧
     Override_Name o = Some (prof_Name p +:+ "-" +:+ DefaultAgentResourceSuffix) ∧
     Override_Labels o !! ProfileLabelKey = Some (prof_Name p)) ∧
  (∀ c, c ∈ otherComponents → ∃ o, Spec_Override (ddi_Spec r) !! c = Some (Some o) ∧ Override_Disabled o = Some true) ∧
  spec_labels (prof_Config p) ∪ spec_labels (ddi_Spec d) ⊆ spec_labels (ddi_Spec r) ∧
  gcr_on_autopilot r ∧ hashed h' r.
Proof.
  intros Hs Hp Hr. pose proof (grows_computeProfileMerge h d p Hs) as Hg. unfold grows, wp in Hg. rewrite Hr in Hg.
  destruct Hg as (_ & ([Hk Hl] & (o & Ho & _ & Hn) & Honly) & Hgcr & Hh). destruct (Honly Hp) as [Hc Hd], (Hn Hp) as [Hn1 Hn2].
  split_and!; try done; [|by apply Hl|by exists o].
  rewrite Hk. unfold getProfileDDAIName. by rewrite Hp.
Qed.
End OfProfile.

(** ** A cluster in memory *)

Module Sample.
Abbreviation Internals := (gmap Key (StoredInternal string)).

(** A call on an entry, which is to be there. *)
Definition at_key {A} (k : Key) (f : StoredInternal string → Internals → Internals * A) : GoM Internals A := λ c,
  match c !! k with
  | Some s => let '(c', a) := f s c in (c', Ret a)
  | None => (c, Fail (ApiError ReasonNotFound))
  end.

#[export] Instance client : InternalClient Internals string := {|
  client_GetDDAI k := at_key k (λ s c, (c, s));
  client_CreateDDAI d j := λ c,
    match c !! ddi_Key d with
    | Some _ => (c, Fail (ApiError ReasonAlreadyExists))
    | None => (<[ddi_Key d := created d j]> c, Ret tt)
    end;
  client_UpdateDDAI d j := at_key (ddi_Key d) (λ s c, (<[ddi_Key d := updated d j s]> c, tt));
  client_ListDDAIs := λ c, (c, Ret (map_to_list c));
  client_DeleteDDAI k := at_key k (λ _ c, (delete_at k c, tt));
  client_UpdateDDAIRemoteConfig k rc := at_key k (λ s c, (<[k := with_RemoteConfig rc s]> c, tt));
  client_UpdateDDAStatus _ := fail (ApiError ReasonConflict)
|}.

Lemma effective_at_key {A} (k : Key) (f : StoredInternal string → Internals → Internals * A) (post : Internals → Internals → A → Prop) :
  (∀ c s, c !! k = Some s → post c (f s c).1 (f s c).2) → effective id post (at_key k f).
Proof. intros Hf c. unfold at_key. destruct (c !! k) as [s|] eqn:Hs; [|by left]. specialize (Hf c s Hs). by destruct (f s c). Qed.

#[export] Instance server : InternalServer Internals string.
Proof.
  refine {| internals := id |}.
  - intros k. by apply effective_at_key.
  - intros d j c. cbn. destruct (c !! ddi_Key d) eqn:Hd; [by left|done].
  - intros d j. apply effective_at_key. intros c s Hs. by exists s.
  - intros c. done.
  - intros k. apply effective_at_key. intros c s Hs. split; [by exists s|done].
  - intros k rc. apply effective_at_key. intros c s Hs. by exists s.
  - intros status c. by left.
Defined.

#[export] Instance reliable : ReliableInternals Internals string.
Proof.
  split; intros; cbn in *; unfold at_key; cbn;
    repeat match goal with H : is_Some _ |- _ => destruct H as [? H] | H : _ = _ |- _ => rewrite H; clear H end; by repeat eexists.
Qed.

(** The other objects are not reached. *)
Definition unavailable {A} : GoM Internals A := fail (Errorf "unavailable").

#[export] Instance revisions : ClusterClient Internals DatadogAgentSpec := {|
  client_GetRevision _ _ := unavailable; client_PatchRevision _ _ := unavailable; client_CreateRevision _ := unavailable;
  client_DeleteRevision _ := unavailable; client_ListRevisions _ _ _ := unavailable; client_GetDDA _ _ := unavailable;
  client_UpdateDDA _ := unavailable; client_JSONPatchDDA _ _ _ := unavailable
|}.
#[export] Instance nodes : NodeLabelClient Internals := {|
  client_GetClusterNode _ := unavailable; client_PatchNodeLabels _ _ := unavailable; client_ListAgentPods := unavailable;
  client_DeletePod _ := unavailable
|}.
#[export] Instance codec : SnapshotCodec DatadogAgentSpec := {|
  json_Marshal _ := inr (Errorf "unavailable"); json_Unmarshal _ := inr (Errorf "unavailable")
|}.
#[export] Instance revision_frames : RevisionFrames Internals string DatadogAgentSpec.
Proof. split; intros; apply stays_fail, _. Qed.
#[export] Instance node_frames : NodeFrames Internals string.
Proof. split; intros; apply stays_fail, _. Qed.

(** A DatadogAgent with a literal token, and a profile with common labels. *)
Definition agentGVK : Cluster.GroupVersionKind := mkGVK "datadoghq.com/v2alpha1" "DatadogAgent".
Definition credentials : DatadogCredentials := mkCredentials (Some "api") None (Some "app") None.
Definition global : GlobalConfig :=
  set_Global_CommonLabels {["team" := "infra"]} (set_Global_ClusterAgentToken (Some "token") (set_Global_Credentials (Some credentials) zero)).
Definition spec : DatadogAgentSpec := mkDatadogAgentSpec (Some zero) (Some global) ∅.
Definition agent : Agent := mkDatadogAgent "ns" "datadog" "uid" "1" ∅ ∅ spec None.
Definition md5 (_ : Arrays) (s : DatadogAgentSpec) : string + error := inl (pretty (size (Spec_Override s))).
Definition asJSON (_ : Arrays) (s : DatadogAgentSpec) : json := JStr (pretty (size (Spec_Override s))).
Definition tokenMD5 (token : string) : string := "md5-" +:+ token.
Definition noLabel (_ : string) : list string := [].

(** The credentials of what is generated, and its token. *)
Definition secretsOf (r : Arrays * outcome DatadogAgentInternal) : option (option DatadogCredentials * option string) :=
  match r.2 with
  | Ret d => g ← Spec_Global (ddi_Spec d); Some (Global_Credentials g, Global_ClusterAgentToken g)
  | _ => None
  end.

Lemma internal_refers_to_secrets_witness :
  well_formed id noLabel noLabel map_to_list agent ∧
  secretsOf (generateDDAIFromDDA md5 (inl agentGVK) tokenMD5 agent "" []) =
    Some (Some (mkCredentials None (Some (mkSecretConfig "datadog-secret" "api_key"))
                  None (Some (mkSecretConfig "datadog-secret" "app_key"))), None) ∧
  ∃ h' d, generateDDAIFromDDA md5 (inl agentGVK) tokenMD5 agent "" [] = (h', Ret d) ∧
    annotated "md5-token" ClusterAgentComponentName (Spec_Override (ddi_Spec d)).
Proof.
  assert (well_formed id noLabel noLabel map_to_list agent) as Hw.
  { split; [vm_compute; reflexivity|]. split; [by eexists|]. intros k. cbn. by rewrite lookup_empty. }
  split; [exact Hw|]. split; [vm_compute; reflexivity|].
  destruct (internal_refers_to_secrets md5 (inl agentGVK) tokenMD5 id noLabel noLabel map_to_list agentGVK agent "" [])
    as (h' & d & g & c & g' & c' & Hr & _ & _ & _ & _ & _ & Hg & Hc & Hg' & Hc' & _ & _ & _ & Hlit).
  - reflexivity.
  - intros h s. eexists. reflexivity.
  - exact Hw.
  - injection Hg as <-. exists h', d. split; [exact Hr|]. apply Hlit; [by split; vm_compute|]. right. by left.
Defined.

(** *** Profiles *)

(** Server-side apply of a configuration that says all, with an older schema: the
    first call fails when there are features, which are then removed. *)
Definition noFeatures (d : DatadogAgentInternal) : DatadogAgentInternal :=
  set_ddi_Spec (mkDatadogAgentSpec None (Spec_Global (ddi_Spec d)) (Spec_Override (ddi_Spec d))) d.
Definition takeModified (_ modified : DatadogAgentInternal) : GoM Arrays DatadogAgentInternal :=
  match Spec_Features (ddi_Spec modified) with
  | None => mret modified
  | Some _ => fail (Errorf "errors: .spec.features: field not declared in schema")
  end.
Definition removeFeatures (path : list string) (d : DatadogAgentInternal) : GoM Arrays DatadogAgentInternal :=
  mret (if bool_decide (path = ["spec"; "features"]) then noFeatures d else d).

#[export] Instance takeModified_laws : FieldManager takeModified removeFeatures.
Proof.
  split.
  - intros base modified h. unfold takeModified. destruct (Spec_Features _).
    + apply wp_fail. split; [done|]. intros p Hp.
      change (p ∈ [".spec.features"]) in Hp. apply list_elem_of_singleton in Hp as ->. reflexivity.
    + apply wp_ret. split; [done|apply applied_refl].
  - intros path d h. apply wp_ret. split; [done|]. intros _. case_bool_decide; [|apply applied_refl].
    destruct (applied_refl h d) as (? & ? & ? & ? & Ho). by split_and!.
Qed.

(** The DatadogAgent asks for Linux. *)
Definition nodeOverride : DatadogAgentComponentOverride :=
  set_Override_Affinity (Some (mkAffinity (Some (mkNodeAffinity (Some [mkTerm (mkSlice 0 1 1) emptySlice]) [])) None None)) zero.
Definition baseSpec : DatadogAgentSpec :=
  mkDatadogAgentSpec (Some zero) (Some global) {[NodeAgentComponentName := Some nodeOverride]}.
Definition arrays : Arrays := [[mkNSR "os" "In" ["linux"]]].
Definition base : DatadogAgentInternal := mkInternal "ns" "datadog" ∅ {[ProviderAnnotationKey := GKEAutopilotProvider]} [] [] baseSpec.
Definition status0 : DatadogAgentProfileStatus := mkProfileStatus None "" [] "" "" None.
Definition gpu : AgentProfile :=
  Profiles.mkProfile "ns" "gpu" ∅ 10 (Some [mkNSR "gpu" "In" ["yes"]])
    (mkDatadogAgentSpec None (Some (set_Global_CommonLabels {["team" := "ml"]} zero)) ∅) status0.
Definition cpu : AgentProfile := Profiles.mkProfile "ns" "cpu" ∅ 10 (Some [mkNSR "cpu" "In" ["yes"]]) zeroSpec status0.
Definition all : list AgentProfile := [DefaultProfile zeroSpec; gpu; cpu].

Definition node_reads (labels : gmap string string) (r : NodeSelectorRequirement) : bool :=
  if bool_decide (nsr_Operator r = "In") then existsb (λ v, bool_decide (labels !! nsr_Key r = Some v)) (nsr_Values r)
  else bool_decide (labels !! nsr_Key r = None).

Lemma node_reads_operators labels : reads_operators labels (node_reads labels).
Proof. intros k. split; [|done]. intros v. unfold node_reads. cbn. by rewrite orb_false_r. Qed.

Lemma all_selective : Forall selective all.
Proof. apply Forall_cons; split; [by left|]. apply Forall_cons; split; [by right|]. apply Forall_singleton. by right. Qed.

(** Where the three run. *)
Definition nodesOf (labels : gmap string string) : option (list bool) :=
  match applyProfilesToDDAISpec S takeModified removeFeatures md5 base base all arrays with
  | (h', Ret ddais) => Some (runs_on (node_reads labels) (λ _, true) h' <$> ddais)
  | _ => None
  end.

(** A Linux node with the label of the profile has the agent of the profile alone. *)
Lemma internals_never_share_a_node_witness :
  Forall selective all ∧ NoDup (nodeLabel <$> all) ∧
  let labels : gmap string string := <["os" := "linux"]> (<["gpu" := "yes"]> {[ProfileLabelKey := "gpu"]}) in
  ∃ h' ddais, applyProfilesToDDAISpec S takeModified removeFeatures md5 base base all arrays = (h', Ret ddais) ∧
    runs_on (node_reads labels) (λ _, true) h' <$> ddais = [false; true; false] ∧
    ∀ i j r1 r2, ddais !! i = Some r1 → ddais !! j = Some r2 →
      runs_on (node_reads labels) (λ _, true) h' r1 = true → runs_on (node_reads labels) (λ _, true) h' r2 = true → i = j.
Proof.
  assert (NoDup (nodeLabel <$> all)) as Hnd.
  { apply (bool_decide_unpack (NoDup (nodeLabel <$> all))). vm_compute. exact I. }
  split; [exact all_selective|]. split; [exact Hnd|]. intros labels.
  assert (nodesOf labels = Some [false; true; false]) as Hruns by (vm_compute; reflexivity). unfold nodesOf in Hruns.
  destruct (applyProfilesToDDAISpec S takeModified removeFeatures md5 base base all arrays) as [h' r] eqn:Hr.
  destruct r as [ddais|e|]; [|discriminate Hruns..]. exists h', ddais. split; [done|]. split; [by injection Hruns|].
  destruct (internals_never_share_a_node S takeModified removeFeatures md5 arrays base base all h' ddais all_selective Hnd Hr) as [_ Hn].
  exact (proj2 (Hn labels (node_reads labels) (λ _, true) (node_reads_operators labels))).
Defined.

Definition returns {A B : Type} (r : A * outcome B) : bool := match r.2 with Ret _ => true | _ => false end.

Lemma profile_internal_is_its_own_witness :
  selective gpu ∧
  ∃ h' r, computeProfileMerge S takeModified removeFeatures md5 base gpu arrays = (h', Ret r) ∧
    ddi_Key r = ("ns", "gpu") ∧ {["team" := "ml"]} ∪ {["team" := "infra"]} ⊆ spec_labels (ddi_Spec r) ∧
    (∀ c, c ∈ otherComponents → ∃ o, Spec_Override (ddi_Spec r) !! c = Some (Some o) ∧ Override_Disabled o = Some true) ∧
    gcr_on_autopilot r.
Proof.
  split; [by right|].
  assert (returns (computeProfileMerge S takeModified removeFeatures md5 base gpu arrays) = true) as Hret by (vm_compute; reflexivity).
  unfold returns in Hret. destruct (computeProfileMerge S takeModified removeFeatures md5 base gpu arrays) as [h' o] eqn:Hr.
  destruct o as [r|e|]; [|discriminate Hret..]. exists h', r. split; [done|].
  destruct (profile_internal_is_its_own S takeModified removeFeatures md5 arrays base gpu h' r) as (Hk & _ & _ & Hd & Hl & Hg & _).
  - by right.
  - reflexivity.
  - exact Hr.
  - split; [exact Hk|]. split; [exact Hl|]. split; [exact Hd|exact Hg].
Defined.

(** *** The API server *)

Definition wantedInternal : DatadogAgentInternal :=
  mkInternal "ns" "datadog" ∅ {[MD5DDAIDeploymentAnnotationKey := "new"]} [DatadogAgentInternalFinalizer] [] baseSpec.
Definition stale : StoredInternal string :=
  mkStored ∅ {[MD5DDAIDeploymentAnnotationKey := "old"]} [DatadogAgentInternalFinalizer] [] JNull false noInternalStatus None.
(** The one that is wanted, with an old spec, and one of a profile that is gone. *)
Definition before : Internals := <[("ns", "gone") := stale]> {[("ns", "datadog") := stale]}.
Definition noStatus : DatadogAgentStatus string := mkStatus [] [] None None None None (Some "state") None "".

Lemma internals_converge_witness :
  NoDup (ddi_Key <$> [wantedInternal]) ∧
  ∃ w' st', renewDDAIs asJSON arrays 100 noStatus [wantedInternal] before = (w', Ret (Some st')) ∧
    (∃ s, w' !! ("ns", "datadog") = Some s ∧ sd_Annotations s = {[MD5DDAIDeploymentAnnotationKey := "new"]} ∧
          sd_Spec s = asJSON arrays baseSpec) ∧
    (∀ s, w' !! ("ns", "gone") = Some s → sd_Deleting s = true) ∧
    ∃ w2 st3, renewDDAIs asJSON arrays 200 noStatus [wantedInternal] w' = (w2, Ret (Some st3)) ∧ w2 = w'.
Proof.
  assert (NoDup (ddi_Key <$> [wantedInternal])) as Hnd by apply NoDup_singleton. split; [exact Hnd|].
  destruct (internals_converge asJSON arrays 100 noStatus [wantedInternal] before Hnd) as (w' & st' & Hr & Hw & Hd & Hagain).
  exists w', st'. split; [exact Hr|]. split_and!.
  - destruct (Hw wantedInternal) as (s & Hs & Ha & _ & Hj); [by left|]. exists s. split; [exact Hs|]. split; [exact Ha|].
    apply Hj. intros s0 Hs0 Ha0. change (Some stale = Some s0) in Hs0. injection Hs0 as <-.
    apply (f_equal (lookup MD5DDAIDeploymentAnnotationKey)) in Ha0. vm_compute in Ha0. discriminate.
  - intros s Hs. apply (Hd _ _ Hs). apply (bool_decide_unpack (validKey ("ns", "gone") ∉ (validKey ∘ ddi_Key <$> [wantedInternal]))).
    vm_compute. exact I.
  - exact (Hagain 200%Z noStatus eq_refl).
Defined.


(** A reconcile without profiles and revisions: the DatadogAgentInternal of a
    profile that is gone is deleted, after the new one was created.  It is written
    with the status of the DatadogAgent left as it is: that call fails. *)
Definition newRequirement (k _ : string) (_ : list string) : string + error := inl k.
Definition goneOnly : Internals := {[("ns", "gone") := stale]}.

Abbreviation reconciled := (reconcileInstance S takeModified removeFeatures md5 asJSON (inl agentGVK) tokenMD5 0%Z id (inl [])
  newRequirement (λ _ _, true) (λ _ _, None) (λ s _ _, inl s) (λ _ _, "") (λ _, None) (λ _ _, inl 0%Z) false false false false
  false (λ n _, n) (λ _, false) (inl []) (inl []) (λ _, inr (ApiError ReasonNotFound)) (λ _, inl 0%Z) (λ _ st, mret st) None None
  id None None).

Lemma replaced_before_deleted_witness :
  glances goneOnly !! ("ns", "gone") = Some (({[MD5DDAIDeploymentAnnotationKey := "old"]}, JNull), false) ∧
  let w' := (reconciled [] agent spec noStatus 100 goneOnly).1 in
  is_Some (glances w' !! ("ns", "datadog")) ∧ (snd <$> glances w' !! ("ns", "gone")) = Some true ∧
  ∃ h1 ddai w1 w2 h2 ddais,
    computeDDAIs S takeModified removeFeatures md5 newRequirement (λ _ _, true) (λ _ _, None) (λ s _ _, inl s) (λ _ _, "") (λ _, None)
      (λ _ _, inl 0%Z) false false false false (λ n _, n) (λ _, false) (inl []) (inl []) (λ _, inr (ApiError ReasonNotFound))
      (λ _, inl 0%Z) None h1 agent ddai 100 w1 = (w2, Ret (h2, ddais)) ∧
    ∀ d, d ∈ ddais → ∃ d', d' ∈ ddais ∧ ddi_Key d' = ddi_Key d ∧
      entered asJSON h2 d' (glances goneOnly !! ddi_Key d) (glances w' !! ddi_Key d).
Proof.
  assert (glances goneOnly !! ("ns", "gone") = Some (({[MD5DDAIDeploymentAnnotationKey := "old"]}, JNull), false)) as Hk
    by (vm_compute; reflexivity).
  split; [exact Hk|].
  assert (bool_decide (is_Some (glances (reconciled [] agent spec noStatus 100 goneOnly).1 !! ("ns", "datadog"))) = true) as Hnew
    by (vm_compute; reflexivity).
  assert ((snd <$> glances (reconciled [] agent spec noStatus 100 goneOnly).1 !! ("ns", "gone")) = Some true) as Hgone
    by (vm_compute; reflexivity).
  split; [by apply bool_decide_eq_true in Hnew|]. split; [exact Hgone|].
  destruct (replaced_before_deleted (RC := string) S takeModified removeFeatures md5 asJSON (inl agentGVK) tokenMD5 0%Z id (inl [])
    newRequirement (λ _ _, true) (λ _ _, None) (λ s _ _, inl s) (λ _ _, "") (λ _, None) (λ _ _, inl 0%Z) false false false false
    false (λ n _, n) (λ _, false) (inl []) (inl []) (λ _, inr (ApiError ReasonNotFound)) (λ _, inl 0%Z) (λ _ st, mret st) None None
    id None None (λ _ _, stays_ret _ _) [] agent spec noStatus 100 goneOnly ("ns", "gone") _ Hk)
    as [[a' Ha]|(h1 & ddai & w1 & w2 & h2 & ddais & Hr & _ & Hd)].
  - rewrite Ha in Hgone. discriminate Hgone.
  - exists h1, ddai, w1, w2, h2, ddais. split; [exact Hr|exact Hd].
Defined.

(** *** What the code does besides *)

(** The cleanup takes the DatadogAgentInternals of other namespaces. *)
Lemma cleanup_takes_other_namespaces :
  let other : Internals := {[("elsewhere", "datadog") := stale]} in
  (snd <$> glances (cleanUpUnusedDDAIs (RC := string) [wantedInternal] other).1 !! ("elsewhere", "datadog")) = Some true.
Proof. vm_compute. reflexivity. Qed.

(** A profile with the name of the DatadogAgent has the key of the default one. *)
Lemma profile_named_like_the_agent p :
  prof_Namespace p ≠ "" → prof_Name p = ddi_Name base →
  ddi_Key (setProfileDDAIMeta p base) = ddi_Key (setProfileDDAIMeta (DefaultProfile zeroSpec) base).
Proof.
  intros Hns Hn. unfold ddi_Key. cbn. unfold getProfileDDAIName, IsDefaultProfile. by rewrite (bool_decide_false (prof_Namespace p = "")), Hn.
Qed.

(** Labels alone are not updated. *)
Lemma labels_alone_are_not_updated (h : Arrays) (d : DatadogAgentInternal) (c : Internals) (s : StoredInternal string) :
  c !! ddi_Key d = Some s → sd_Annotations s = ddi_Annotations d →
  createOrUpdateDDAI (RC := string) asJSON h d c = (c, Ret tt).
Proof.
  intros Hs Ha. unfold createOrUpdateDDAI, mbind, GoM_bind, attempt. cbn. unfold at_key. rewrite Hs. by rewrite bool_decide_true.
Qed.

(** A literal token beside a valid secret is kept. *)
Lemma literal_token_is_kept dda g :
  IsValidSecretConfig (Global_ClusterAgentTokenSecret g) = true →
  Global_ClusterAgentToken (setDCATokenFromDDA dda g) = Global_ClusterAgentToken g.
Proof. intros Hs. unfold setDCATokenFromDDA. by rewrite Hs. Qed.

(** A conflict on the state of remote configuration ends the loop, and the
    reconcile with it: the others are not applied, and nothing is requeued. *)
Lemma conflict_ends_the_loop {W RC} `{EqDecision RC} `{InternalClient W RC} toJSON (h : Arrays) now (st st1 : DatadogAgentStatus RC)
    (d : DatadogAgentInternal) (l : list DatadogAgentInternal) (w w1 w2 w3 w4 : W) s :
  createOrUpdateDDAI toJSON h d w = (w1, Ret tt) → addDDAIStatus st d now w1 = (w2, Ret st1) →
  client_GetDDAI (ddi_Key d) w2 = (w3, Ret s) → st_RemoteConfig st1 ≠ sd_RemoteConfig s →
  client_UpdateDDAIRemoteConfig (ddi_Key d) (st_RemoteConfig st1) w3 = (w4, Fail (ApiError ReasonConflict)) →
  renewDDAIs toJSON h now st (d :: l) w = (w4, Ret None).
Proof.
  intros H1 H2 H3 Hne H4. unfold renewDDAIs. cbn [applyDDAIs]. unfold applyDDAI, addRemoteConfigStatusToDDAIStatus.
  unfold mbind, GoM_bind, attempt. by rewrite H1, H2, H3, bool_decide_false, H4.
Qed.
End Sample.
